(* ===== verification/_CoqProject ===== *)
-Q . S2P
Prelude.v
Lines.v
PageAlloc.v
Pmm.v
Mem.v
Vmm.v
UserMem.v
Teardown.v
Elf.v
Tmpfs.v
Initrd.v
Sched.v
Ring.v
Vterm.v
Kbd.v
Surface.v
Font.v
Dirty.v
Mouse.v
Fb.v
Desk.v
Desc.v
Kernel.v
Log.v
Proc.v
Spawn.v
Wm.v
Compose.v
Gui.v
Windows.v
Session.v
Boot.v
Shell.v
ShellSpec.v
Syscall.v
SyscallSpec.v
Machine.v
Stages.v
Terminal.v
Safety.v
MachineSpec.v
Limine.v
Ports.v
Asm.v
Ulib.v
UlibSpec.v
Sh.v
Progs.v
UserApi.v
UserSys.v
FileApi.v
UserSpec.v
CpSpec.v
ShSpec.v
UserDemo.v
