(* ===== verification/Prelude.v ===== *)
(** * kernel-rs: a verified model of the Shizuku kernel

    The repository holds a small x86-64 kernel in Rust ([src/kernel-rs]) and
    its user programs ([src/userspace-rs]).  The kernel boots from Limine, keeps
    physical pages in a bitmap, builds four-level page tables, keeps files in a
    RAM file system filled from a ustar archive, loads ELF executables into
    processes, schedules them round robin on the timer interrupt, serves 22
    system calls, and draws a desktop of terminal windows with a software
    compositor.

    This library translates that code into executable definitions, one per
    function, and proves what the functions do.  Effects are a state monad with
    panics ([M], below): [wp m Q s] says that [m], run from [s], returns - no
    panic, no access outside of its buffers, loops within their fuel - with
    [Q].  The kernel's global variables are records, one per source file, and a
    component reaches another's record through [zoom].  Arithmetic wraps, as in
    the release build the Makefile asks for.

    ** The files, and what they model

    - [Prelude]: machine integers, arrays, the monad with its rules ([wp_run],
      [wp_step], [wp_use]), loops with fuel, byte strings.
    - [PageAlloc]: the interface (class [PageAllocator], laws
      [PageAllocatorLaws]) every client of the page allocator is proved against.
      [Pmm] ([mm/pmm.rs]): the bitmap, and the instance of the interface.
    - [Mem], [Vmm] ([mm/vmm.rs]), [UserMem], [Teardown] ([destroy_space]):
      byte-addressed physical memory, page tables in it, what a user process
      reads through them, and their release.
    - [Elf] ([proc/elf.rs], [proc/elf_defs.rs]), [Proc] ([proc.rs]), [Spawn]:
      the loader, process creation, and what a spawned process finds.
    - [Tmpfs] ([fs/tmpfs.rs]), [Initrd] ([fs/initrd.rs]): nodes, the byte pool,
      paths; the unpacking of the boot archive.
    - [Sched] ([sched.rs], the timer path of [idt.rs]): threads, the context
      switch, exit and reaping.
    - [Ring], [Kbd] ([kbd.rs]), [Vterm] ([vterm.rs]), [Mouse]
      ([gui/mouse.rs]): byte queues, scancodes, terminals, mouse packets.
    - [Fb] ([fb.rs]), [Surface] ([gui/surface.rs], [gui/font.rs]), [Font]
      ([gui/font8x16_data.rs]), [Dirty] ([gui/dirty.rs]): pixels, glyphs,
      damaged rectangles.
    - [Desk], [Wm] ([gui/wm.rs]): windows, the mouse handler, [create_window],
      the compositor thread (one definition per turn of its loop), [init];
      [Compose], [Gui], [Windows], [Session], [Boot]: their theorems.
    - [Desc] ([gdt.rs], [idt.rs], [pic.rs]): descriptor tables, interrupt masks.
    - [Kernel], [Syscall], [SyscallSpec] ([syscall.rs]): the whole kernel state,
      the 22 handlers and the dispatcher, and what they do.
    - [Log] ([log.rs]): a line to the serial port and, once the window manager
      has installed its sink, to terminal 0.
    - [Lines] and [Shell] ([shell.rs]): line editing, shared by the shells, and
      the kernel's shell thread with its commands; [ShellSpec]: its line reader.
    - [Machine] ([main.rs], [isr_handler] of [idt.rs], the self tests): the
      boot sequence over the state of the whole machine, the interrupts, the
      serial loop, the turns of the shell's thread.  [Safety]: what every system
      call and shell command keeps, if it comes back.  [Stages], [MachineSpec]:
      what boot establishes and [happens], the machine's step relation, keeps.
      [Terminal]: the opening of a terminal, from the key to the shell.
    - [Limine] ([limine.rs]): the requests and the loader's structures in memory,
      read as the answers [Machine] boots on.
    - [Ports] ([io.rs], [uart.rs], [pic.rs], the handshake of [gui/mouse.rs]):
      the drivers byte by byte, over any devices.
    - [Asm] ([asm.rs], [_start] of [ulib.rs]): the assembly over registers and
      memory.
    - [Ulib] ([userspace-rs/src/ulib.rs]), [Sh] and [Progs]
      ([userspace-rs/src/bin]): the user library over an abstract [Os], the
      user shell, and the other programs.  [UlibSpec]: number parsing.
    - [UserApi]: the interface between the two halves, classes [StdioLaws] and
      [FileLaws], what a program may expect of the system calls.  [UserSpec],
      [CpSpec], [ShSpec] prove the programs against it; [UserSys] proves that a
      trap into [Syscall] from a well-formed process keeps it; [UserDemo] is a
      process to which all of it applies.
    - [FileApi]: the calls on files as one abstract machine.

    A definition has the name of its function.  A loop body is a definition of
    its own named after the loop ([alloc_pages_step], [sbrk_step]); the
    functions [..._spec] are what the theorems compare the code with.

    ** What the theorems show

    - The machine: from a sane boot loader [kernel_main] starts every thread
      and the first process, in a machine that satisfies the invariants of all
      components; the desktop opens; from there, every order of interrupts,
      system calls, shell and compositor turns, log lines and stores by programs
      keeps the invariants of the desktop and of the thread table.  A loader's
      answers, at the byte offsets of the protocol, are read back by the
      structures of [limine.rs].  The interrupt stubs hand the
      handler the interrupted processor and go on as the frame it leaves says;
      the drivers do at the ports what the models of [Desc], [Shell] and
      [Machine] say; the mouse's handshake ends whatever the device answers.
    - Memory: [init] frees exactly the usable pages; [alloc_pages] is first
      fit; a wrong [free_page] is refused.  [map] changes the translation of one
      page only, a new space has the kernel's upper half and nothing else.
    - Processes: the loaded image reads as the executable asks, a spawned
      process starts with its image, stack and arguments or, if there is no
      room, not at all (a thread slot and a page may be lost then).  One that is
      spawned, runs - is scheduled, stores, grows its heap -, exits and is
      reaped gives back every page.  A thread that was switched away from, by
      the timer or by itself, resumes with its registers, address space and
      kernel stack, whatever was scheduled in between; every runnable thread
      runs within a bounded number of ticks.
    - Files: every sequence of file operations keeps the tree and the pool in
      order; resolution is splitting at slashes and walking; each operation
      changes exactly what it names; the unpacker is the inverse of [tar],
      with the [./] names and padding that [tools/mkinitrd.sh] makes, and is safe
      on any bytes.
    - System calls: paths, descriptors, file positions, user buffers and the
      heap, from the caller's registers to the state after; any sequence of
      [open], [close], [read], [write], [mkdir], [unlink] and [rename] calls
      within the bounds of [FileApi.call_ok] does what an abstract machine on
      (files, directory, descriptors) does, answers and errors included.
    - Programs: [echo], [cat], [cp] and [hexdump] print and copy what they
      should on any kernel with those laws, so on this one; a turn of the user
      shell reads the line that was typed, with its corrections, and runs it.
    - Terminals and keys: the grid is a window on an unbounded typewriter; keys
      arrive in order.  Mouse packets are found again after lost bytes.
    - Screen: fills, blits and text paint exactly the clipped pixels; damage is
      never lost by the region; mouse and terminals damage everything that
      they make look different, and a turn of the compositor makes the screen
      show the desk - but for header text through windows - after opening a
      terminal if one was asked for; only then it prints its line of statistics,
      about once a second, which damages terminal 0 again.  [Wm.init] opens such
      a session from any powered-on machine.
    - Some theorems pin down what the code does where it is not what it means
      to do: [alloc_pages] with a large alignment never returns, [mkdir] below
      a file, a full pool, a thread slot leaked by [thread_create_user], a
      terminal leaked by [new_terminal], the answer of a failing [sbrk]; the
      Examples [chdir_drops_one_component], [delta_sign_ignored],
      [short_file_overrun], [kernel_address_mapped] and [print_is_lost]
      evaluate others.

    ** Loops and bounds

    A [for] over a range is [for_each], structural.  A [while] is [loop] with
    fuel, an upper bound on its turns read off the code: the bytes of a path or
    buffer and one more, the pages between two addresses, the bitmap's pages,
    the blocks of an archive; [merge_fuel] (400) covers 16 restarts over 16
    rectangles.  The theorems are stated with [wp], so they include that the
    fuel is enough; [alloc_pages_align_diverges] says of the one loop that may
    not end that no fuel is.  A handler that waits gives the processor away
    instead of looping ([Syscall.resume]).

    ** Abstractions

    - Raw memory of a surface, the framebuffer and an image is a checked buffer:
      leaving it is a panic, so [wp] excludes it.  User pointers go through the
      page tables; a fault is a panic.
    - Hooks that run in another thread (the terminals' repaint hook, the
      function-key hook) are recorded when they are called and take effect in
      [Wm.deliver], after the handler, system call, shell turn or log line that
      called them; [MachineSpec.happens] lets these come in any order between
      turns.
    - A [&str] is its bytes.  Of the kernel's log lines the output of its shell,
      the compositor's statistics, the timer's line at an interrupt and the last
      line of [wm::init] are modelled, because they can come after the drawing;
      those of windows and terminals being made, of threads, programs,
      [sys_exit], stray interrupts, and the timer's when it is entered by
      [sched_yield], are left out of the functions that print them.  [MachineSpec.happens] has a step
      for a log line of any text, between the others.  Formatted output in
      several pieces is one write.
    - [UserSys.trap_kernel] places a program's buffers on the bottom pages of
      its stack; a call that waits for a key has no answer there, so programs
      are run with their keys typed ahead.

    ** Not modelled

    The instructions that load the descriptor tables and page table registers,
    halt, and switch interrupts on and off: [Machine] takes no interrupt while
    [kernel_main] runs, and a handler is not interrupted.  The exception report
    of [idt.rs] and what the self tests' threads do are log lines.  A system
    call, a turn of the compositor or of the shell is one step, though the real
    one can be interrupted: between the steps everything comes in any order,
    within one nothing does.  The machine's theorems use the frames and registers of [Sched];
    [Asm] shows that the stubs produce them, the compiled handler being a
    parameter there.  A user program is a computation over the trap, not machine
    code. *)
From stdpp Require Export base numbers list.
From Stdlib Require Export ZArith Lia.

#[export] Set Default Goal Selector "!".
Open Scope Z_scope.

(** ** Machine integers

    An unsigned w-bit integer is a [Z] in [0, 2^w); the kernel is built with
    [cargo build --release] (Makefile), so arithmetic wraps around.  The
    functions below are the casts [as u8], ..., [as i64] of Rust and the
    truncation an overflowing operator of that type performs. *)
Definition u8 (x : Z) : Z := x mod 2 ^ 8.
Definition u16 (x : Z) : Z := x mod 2 ^ 16.
Definition u32 (x : Z) : Z := x mod 2 ^ 32.
Definition u64 (x : Z) : Z := x mod 2 ^ 64.
Definition i8 (x : Z) : Z := (x + 2 ^ 7) mod 2 ^ 8 - 2 ^ 7.
Definition i32 (x : Z) : Z := (x + 2 ^ 31) mod 2 ^ 32 - 2 ^ 31.
Definition i64 (x : Z) : Z := (x + 2 ^ 63) mod 2 ^ 64 - 2 ^ 63.

(** Bitwise complement of a [u64]. *)
Definition u64_not (x : Z) : Z := 2 ^ 64 - 1 - x.

(** [u64::trailing_zeros]; 64 on zero. *)
Fixpoint pos_trailing_zeros (p : positive) : Z :=
  match p with
  | xO q => 1 + pos_trailing_zeros q
  | _ => 0
  end.
Definition trailing_zeros (x : Z) : Z :=
  match x with
  | Zpos p => pos_trailing_zeros p
  | _ => 64
  end.

(** ** Arrays

    Fixed-size Rust arrays are lists; [zget] is the bounds-checked read and
    [zset] the write (only used where the index is known to be in range, or
    after [zget] has checked it). *)
Definition zget {A} (l : list A) (i : Z) : option A :=
  if decide (0 ≤ i) then l !! Z.to_nat i else None.
Definition zset {A} (l : list A) (i : Z) (x : A) : list A :=
  <[Z.to_nat i := x]> l.

(** [l[a..a+n]] *)
Definition slice {A} (a n : Z) (l : list A) : list A :=
  take (Z.to_nat n) (drop (Z.to_nat a) l).

Definition zlen {A} (l : list A) : Z := Z.of_nat (length l).

(** [iter().position(P)] *)
Fixpoint position {A} (P : A → bool) (l : list A) : option Z :=
  match l with
  | [] => None
  | x :: l => if P x then Some 0 else Z.succ <$> position P l
  end.

(** The scanning loops [while p < l.len() && P(l[p]) { p += 1; }]. *)
Fixpoint span {A} (P : A → bool) (l : list A) : Z :=
  match l with
  | [] => 0
  | x :: l => if P x then 1 + span P l else 0
  end.
Definition scan {A} (P : A → bool) (l : list A) (p : Z) : Z :=
  p + span P (drop (Z.to_nat p) l).

Declare Scope kernel_scope.
Delimit Scope kernel_scope with K.
Notation "l .[ i ]" := (zget l i)
  (at level 1, left associativity, format "l .[ i ]") : kernel_scope.
Open Scope kernel_scope.


(** ** Computations

    A handler is a state transformer with three outcomes: it returns, it
    panics (slice index out of range, [unwrap] of [None]), or it does not
    return within the fuel given to its loops. *)
Inductive outcome (A : Type) : Type :=
  | Done (a : A)
  | Panic
  | OutOfFuel.
Arguments Done {A} a.
Arguments Panic {A}.
Arguments OutOfFuel {A}.

Definition M (S A : Type) : Type := S → outcome (A * S).

#[export] Instance M_ret {S} : MRet (M S) := λ A a s, Done (a, s).
#[export] Instance M_bind {S} : MBind (M S) := λ A B f m s,
  match m s with
  | Done (a, s') => f a s'
  | Panic => Panic
  | OutOfFuel => OutOfFuel
  end.

Definition gets {S A} (f : S → A) : M S A := λ s, Done (f s, s).
Definition modify {S} (f : S → S) : M S unit := λ s, Done (tt, f s).
Definition panic {S A} : M S A := λ _, Panic.
(** [loop { hlt(); }] *)
Definition hang {S A} : M S A := λ _, OutOfFuel.

Definition of_option {S A} (o : option A) : M S A :=
  match o with Some a => mret a | None => panic end.

(** [array[i]] on an array of the state. *)
Definition aget {S A} (f : S → list A) (i : Z) : M S A :=
  l ← gets f; of_option (zget l i).

(** [for i in lo..hi { body }]; the body returns [Some r] to [return r]. *)
Fixpoint for_from {S R} (n : nat) (i : Z) (body : Z → M S (option R))
    : M S (option R) :=
  match n with
  | O => mret None
  | Datatypes.S n' =>
      r ← body i;
      match r with
      | Some x => mret (Some x)
      | None => for_from n' (i + 1) body
      end
  end.
Definition for_range {S R} (lo hi : Z) (body : Z → M S (option R)) : M S (option R) :=
  for_from (Z.to_nat (hi - lo)) lo body.

(** A plain [for] without early return. *)
Definition for_each {S} (lo hi : Z) (body : Z → M S unit) : M S unit :=
  _ ← for_range (R := unit) lo hi (λ i, _ ← body i; mret None);
  mret tt.

(** [while]/[loop] over local variables [t]: [inl] continues, [inr] leaves. *)
Fixpoint loop {S T R} (fuel : nat) (step : T → M S (T + R)) (t : T) : M S R :=
  match fuel with
  | O => λ _, OutOfFuel
  | Datatypes.S n =>
      r ← step t;
      match r with
      | inl t' => loop n step t'
      | inr x => mret x
      end
  end.

(** Running a component's operation inside a larger state. *)
Definition zoom {S T A} (get : S → T) (put : T → S → S) (m : M T A) : M S A := λ s,
  match m (get s) with
  | Done (a, t) => Done (a, put t s)
  | Panic => Panic
  | OutOfFuel => OutOfFuel
  end.

(** ** Total correctness

    [wp m Q s]: run from [s], [m] returns (no panic, enough fuel) and its
    result and final state satisfy [Q]. *)
Definition wp {S A} (m : M S A) (Q : A → S → Prop) (s : S) : Prop :=
  match m s with
  | Done (a, s') => Q a s'
  | _ => False
  end.

Section wp.
Context {S : Type}.
Implicit Types s : S.

Lemma wp_ret {A} (a : A) (Q : A → S → Prop) s : wp (mret a) Q s ↔ Q a s.
Proof. done. Qed.

Lemma wp_bind {A B} (m : M S A) (f : A → M S B) (Q : B → S → Prop) s :
  wp (m ≫= f) Q s ↔ wp m (λ a s', wp (f a) Q s') s.
Proof. unfold wp, mbind, M_bind. destruct (m s) as [[a s']| |]; done. Qed.

Lemma wp_bind_assoc {A B C} (m : M S A) (f : A → M S B) (g : B → M S C)
    (Q : C → S → Prop) s :
  wp (x ← (y ← m; f y); g x) Q s → wp (y ← m; x ← f y; g x) Q s.
Proof. unfold wp, mbind, M_bind. by destruct (m s) as [[y s']| |]. Qed.

Lemma wp_gets {A} (f : S → A) (Q : A → S → Prop) s : wp (gets f) Q s ↔ Q (f s) s.
Proof. done. Qed.

Lemma wp_modify (f : S → S) (Q : unit → S → Prop) s : wp (modify f) Q s ↔ Q tt (f s).
Proof. done. Qed.

Lemma wp_of_option {A} (o : option A) (Q : A → S → Prop) s :
  wp (of_option o) Q s ↔ ∃ a, o = Some a ∧ Q a s.
Proof.
  destruct o as [a|]; unfold wp; simpl.
  - split; [eauto|]. by intros (? & [= ->] & ?).
  - split; [done|]. by intros (? & ? & ?).
Qed.

Lemma wp_aget {A} (f : S → list A) i (Q : A → S → Prop) s :
  wp (aget f i) Q s ↔ ∃ a, zget (f s) i = Some a ∧ Q a s.
Proof. unfold aget. rewrite wp_bind, wp_gets. apply wp_of_option. Qed.

Lemma wp_mono {A} (m : M S A) (Q Q' : A → S → Prop) s :
  wp m Q s → (∀ a s', Q a s' → Q' a s') → wp m Q' s.
Proof. unfold wp. destruct (m s) as [[a s']| |]; auto. Qed.

Lemma wp_and {A} (m : M S A) (Q Q' : A → S → Prop) s :
  wp m Q s → wp m Q' s → wp m (λ a s', Q a s' ∧ Q' a s') s.
Proof. unfold wp. destruct (m s) as [[a s']| |]; auto. Qed.

Lemma wp_done {A} (m : M S A) (Q : A → S → Prop) s a s' :
  m s = Done (a, s') → wp m Q s ↔ Q a s'.
Proof. intros H. unfold wp. by rewrite H. Qed.

Lemma wp_returns {A} (m : M S A) (Q : A → S → Prop) s :
  wp m Q s ↔ ∃ a s', m s = Done (a, s') ∧ Q a s'.
Proof.
  unfold wp. destruct (m s) as [[a s']| |]; split; try done; eauto.
  - by intros (? & ? & [= -> ->] & ?).
  - by intros (? & ? & ? & ?).
  - by intros (? & ? & ? & ?).
Qed.

(** Agreement with a reference semantics. *)
Lemma wp_computes {A} (m : M S A) s (x : A * S) :
  m s = Done x ↔ wp m (λ a s', (a, s') = x) s.
Proof.
  unfold wp. destruct (m s) as [[a s']| |]; split; try done; congruence.
Qed.

(** Invariant rule for [for]: [I i] holds before iteration [i]. *)
Lemma wp_for_range {R} (I : Z → S → Prop) lo hi (body : Z → M S (option R))
    (Q : option R → S → Prop) s :
  lo ≤ hi →
  I lo s →
  (∀ i s, lo ≤ i < hi → I i s →
     wp (body i) (λ r s', match r with
                          | Some x => Q (Some x) s'
                          | None => I (i + 1) s'
                          end) s) →
  (∀ s, I hi s → Q None s) →
  wp (for_range lo hi body) Q s.
Proof.
  intros Hle HI Hbody Hend. unfold for_range.
  remember (Z.to_nat (hi - lo)) as n eqn:Hn.
  revert lo s Hle HI Hbody Hn. induction n as [|n IH]; intros lo s Hle HI Hbody Hn.
  - simpl. apply Hend. by replace hi with lo by lia.
  - simpl. apply wp_bind. eapply wp_mono; [apply Hbody; [lia|done]|].
    intros [x|] s' H; simpl; [done|].
    apply IH; [lia|done| |lia]. intros i s'' Hi. apply Hbody. lia.
Qed.

(** A search loop: the body acts on the first index with [P] only. *)
Lemma wp_for_find {R} (P : Z → bool) lo hi (body : Z → M S (option R))
    (Q : option R → S → Prop) s :
  lo ≤ hi →
  (∀ i, lo ≤ i < hi → P i = false → wp (body i) (λ r s', r = None ∧ s' = s) s) →
  (∀ i, lo ≤ i < hi → P i = true → (∀ j, lo ≤ j < i → P j = false) →
     wp (body i) (λ r s', ∃ x, r = Some x ∧ Q (Some x) s') s) →
  ((∀ i, lo ≤ i < hi → P i = false) → Q None s) →
  wp (for_range lo hi body) Q s.
Proof.
  intros Hle Hskip Hhit Hnone.
  eapply (wp_for_range (λ i s', s' = s ∧ ∀ j, lo ≤ j < i → P j = false)); [done| | |].
  - split; [done|]. intros j Hj. lia.
  - intros i s' Hi [-> Hbefore]. destruct (P i) eqn:HP.
    + eapply wp_mono; [by apply Hhit|]. by intros r s' (x & -> & HQ).
    + eapply wp_mono; [by apply Hskip|]. intros r s' [-> ->]. split; [done|].
      intros j Hj. destruct (decide (j = i)) as [->|]; [done|]. apply Hbefore. lia.
  - intros s' [-> Hall]. by apply Hnone.
Qed.

Lemma wp_for_each (I : Z → S → Prop) lo hi (body : Z → M S unit)
    (Q : unit → S → Prop) s :
  lo ≤ hi →
  I lo s →
  (∀ i s, lo ≤ i < hi → I i s → wp (body i) (λ _ s', I (i + 1) s') s) →
  (∀ s, I hi s → Q tt s) →
  wp (for_each lo hi body) Q s.
Proof.
  intros Hle HI Hbody Hend. unfold for_each. apply wp_bind.
  eapply (wp_for_range I); [done|done| |].
  - intros i s' Hi HIi. apply wp_bind.
    eapply wp_mono; [by apply Hbody|]. by intros [] s''.
  - intros s' HI'. apply wp_ret. by apply Hend.
Qed.

(** Invariant and variant rule for [while]. *)
Lemma wp_loop_state {T R} (I : T → S → Prop) (μ : T → S → nat) fuel
    (step : T → M S (T + R)) (Q : R → S → Prop) t s :
  I t s →
  (μ t s < fuel)%nat →
  (∀ t s, I t s →
     wp (step t) (λ r s', match r with
                          | inl t' => I t' s' ∧ (μ t' s' < μ t s)%nat
                          | inr x => Q x s'
                          end) s) →
  wp (loop fuel step t) Q s.
Proof.
  intros HI Hμ Hstep. revert t s HI Hμ.
  induction fuel as [|n IH]; intros t s HI Hμ; [lia|].
  simpl. apply wp_bind. eapply wp_mono; [by apply Hstep|].
  intros [t'|x] s' H; simpl; [|done].
  destruct H as [HI' Hlt]. apply IH; [done|lia].
Qed.

Lemma wp_loop {T R} (I : T → S → Prop) (μ : T → nat) fuel
    (step : T → M S (T + R)) (Q : R → S → Prop) t s :
  I t s →
  (μ t < fuel)%nat →
  (∀ t s, I t s →
     wp (step t) (λ r s', match r with
                          | inl t' => I t' s' ∧ (μ t' < μ t)%nat
                          | inr x => Q x s'
                          end) s) →
  wp (loop fuel step t) Q s.
Proof. apply (wp_loop_state I (λ t _, μ t)). Qed.
End wp.

Lemma wp_zoom {S T A} (get : S → T) put (m : M T A) (Q : A → S → Prop) s :
  wp (zoom get put m) Q s ↔ wp m (λ a t, Q a (put t s)) (get s).
Proof. unfold wp, zoom. destruct (m (get s)) as [[a t]| |]; done. Qed.

(** One symbolic step; [wp_run] repeats it and leaves loops and calls. *)
Ltac wp_step :=
  match goal with
  | |- wp (mbind _ _) _ _ => refine (proj2 (wp_bind _ _ _ _) _)
  | |- wp (mret _) _ _ => refine (proj2 (wp_ret _ _ _) _)
  | |- wp (gets _) _ _ => refine (proj2 (wp_gets _ _ _) _)
  | |- wp (modify _) _ _ => refine (proj2 (wp_modify _ _ _) _)
  | |- wp (zoom _ _ _) _ _ => refine (proj2 (wp_zoom _ _ _ _ _) _)
  | |- wp (if true then _ else _) _ _ => cbv iota
  | |- wp (if false then _ else _) _ _ => cbv iota
  | |- wp (let _ := _ in _) _ _ => cbv zeta
  | |- wp (let '(_, _) := ?p in _) _ _ => destruct p
  end.
Ltac wp_run := repeat (wp_step; cbv beta).
(** Use a specification of the callee. *)
Tactic Notation "wp_use" uconstr(H) := eapply wp_mono; [eapply H|]; cbv beta.

(** [lia] with division and remainder by constants. *)
Ltac dlia := intros; Z.to_euclidean_division_equations; lia.

(** ** Lists indexed by [Z] *)
Section zlists.
Context {A : Type}.
Implicit Types l : list A.

Lemma zget_lt l i : 0 ≤ i < zlen l → ∃ x, zget l i = Some x.
Proof.
  intros Hi. unfold zget, zlen in *. rewrite decide_True by lia.
  apply lookup_lt_is_Some_2. lia.
Qed.
Lemma zget_Some_lt l i x : zget l i = Some x → 0 ≤ i < zlen l.
Proof.
  unfold zget, zlen. case_decide; [|done].
  intros Hl%lookup_lt_Some. lia.
Qed.
Lemma zget_None l i : zget l i = None ↔ ¬ (0 ≤ i < zlen l).
Proof.
  split.
  - intros H Hi. destruct (zget_lt l i Hi) as [x Hx]. congruence.
  - intros H. destruct (zget l i) eqn:E; [|done].
    by apply zget_Some_lt in E.
Qed.
Lemma zlen_zset l i x : zlen (zset l i x) = zlen l.
Proof. unfold zlen, zset. by rewrite length_insert. Qed.
Lemma zget_zset_eq l i x : 0 ≤ i < zlen l → zget (zset l i x) i = Some x.
Proof.
  intros Hi. unfold zget, zset, zlen in *. rewrite decide_True by lia.
  apply list_lookup_insert_eq. lia.
Qed.
Lemma zget_zset_ne l i j x : 0 ≤ i → i ≠ j → zget (zset l i x) j = zget l j.
Proof.
  intros Hi Hij. unfold zget, zset. case_decide; [|done].
  apply list_lookup_insert_ne. lia.
Qed.
Lemma zget_zset l i j x :
  0 ≤ i < zlen l →
  zget (zset l i x) j = if decide (i = j) then Some x else zget l j.
Proof.
  intros Hi. case_decide; subst.
  - by apply zget_zset_eq.
  - apply zget_zset_ne; lia.
Qed.
Lemma zset_zset l i x y : zset (zset l i x) i y = zset l i y.
Proof. unfold zset. apply list_insert_insert_eq. Qed.
Lemma zset_id l i x : zget l i = Some x → zset l i x = l.
Proof. unfold zget, zset. case_decide; [|done]. apply list_insert_id. Qed.
Lemma zlen_nonneg l : 0 ≤ zlen l.
Proof. unfold zlen. lia. Qed.
Lemma zlen_replicate n (x : A) : zlen (replicate n x) = Z.of_nat n.
Proof. unfold zlen. by rewrite length_replicate. Qed.
Lemma zget_replicate n (x : A) i :
  zget (replicate n x) i = if decide (0 ≤ i < Z.of_nat n) then Some x else None.
Proof.
  case_decide as Hd.
  - unfold zget. rewrite decide_True by lia. apply lookup_replicate. split; [done|lia].
  - apply zget_None. by rewrite zlen_replicate.
Qed.
Lemma zlen_cons x l : zlen (x :: l) = 1 + zlen l.
Proof. unfold zlen. simpl. lia. Qed.
Lemma zlen_app l l' : zlen (l ++ l') = zlen l + zlen l'.
Proof. unfold zlen. rewrite length_app. lia. Qed.
Lemma zlen_take n l : zlen (take (Z.to_nat n) l) = Z.max 0 (Z.min n (zlen l)).
Proof. unfold zlen. rewrite length_take. lia. Qed.
Lemma zlen_drop n l : 0 ≤ n → zlen (drop (Z.to_nat n) l) = Z.max 0 (zlen l - n).
Proof. intros Hn. unfold zlen. rewrite length_drop. lia. Qed.
Lemma zlen_slice a n l :
  0 ≤ a → 0 ≤ n → a + n ≤ zlen l → zlen (slice a n l) = n.
Proof.
  intros Ha Hn Hle. unfold slice, zlen in *. rewrite length_take, length_drop. lia.
Qed.
Lemma zlen_nil_inv l : zlen l = 0 → l = [].
Proof. destruct l; [done|]. rewrite zlen_cons. unfold zlen. lia. Qed.
Lemma zget_app_l l l' i : i < zlen l → zget (l ++ l') i = zget l i.
Proof.
  intros Hi. unfold zget, zlen in *. case_decide; [|done]. apply lookup_app_l. lia.
Qed.
Lemma zget_app_r l l' i : zlen l ≤ i → zget (l ++ l') i = zget l' (i - zlen l).
Proof.
  intros Hi. unfold zget, zlen in *. rewrite !decide_True by lia.
  rewrite lookup_app_r by lia. f_equal. lia.
Qed.
Lemma zget_take n l i : i < n → zget (take (Z.to_nat n) l) i = zget l i.
Proof.
  intros Hi. unfold zget. case_decide; [|done]. apply lookup_take_lt. lia.
Qed.
Lemma zget_drop n l i : 0 ≤ n → 0 ≤ i → zget (drop (Z.to_nat n) l) i = zget l (n + i).
Proof.
  intros Hn Hi. unfold zget. rewrite !decide_True by lia. rewrite lookup_drop.
  f_equal. lia.
Qed.
Lemma zget_slice a n l i : 0 ≤ a → 0 ≤ i < n → zget (slice a n l) i = zget l (a + i).
Proof. intros Ha Hi. unfold slice. rewrite zget_take, zget_drop by lia. done. Qed.

Lemma span_bounds (P : A → bool) l : 0 ≤ span P l ≤ zlen l.
Proof.
  induction l as [|x l IH]; [done|]. rewrite zlen_cons. simpl. destruct (P x); lia.
Qed.
Lemma drop_scan (P : A → bool) l p :
  0 ≤ p →
  drop (Z.to_nat (scan P l p)) l =
  drop (Z.to_nat (span P (drop (Z.to_nat p) l))) (drop (Z.to_nat p) l).
Proof.
  intros Hp. unfold scan. pose proof (span_bounds P (drop (Z.to_nat p) l)).
  rewrite drop_drop. f_equal. lia.
Qed.
Lemma scan_bounds (P : A → bool) l p : 0 ≤ p ≤ zlen l → p ≤ scan P l p ≤ zlen l.
Proof.
  intros Hp. unfold scan. pose proof (span_bounds P (drop (Z.to_nat p) l)) as Hs.
  rewrite zlen_drop in Hs by lia. lia.
Qed.

Lemma list_eq_zget l l' :
  zlen l = zlen l' →
  (∀ i, 0 ≤ i < zlen l → zget l i = zget l' i) → l = l'.
Proof.
  intros Hlen H. apply list_eq. intros i. unfold zlen in *.
  destruct (decide (i < length l)%nat) as [Hi|Hi].
  - specialize (H (Z.of_nat i)). unfold zget in H.
    rewrite !decide_True, Nat2Z.id in H by lia. apply H. lia.
  - by rewrite !lookup_ge_None_2 by lia.
Qed.

Lemma Forall_zget (Q : A → Prop) l i x : Forall Q l → zget l i = Some x → Q x.
Proof. intros Hl. unfold zget. case_decide; [|done]. intros Hx. by eapply Forall_lookup_1. Qed.
Lemma Forall_zset (Q : A → Prop) l i x : Forall Q l → Q x → Forall Q (zset l i x).
Proof. intros Hl Hx. by apply Forall_insert. Qed.
End zlists.

(** ** C strings in fixed arrays *)
Definition nul_free (l : list Z) : Prop := Forall (λ b, b ≠ 0) l.

(** The bytes before the first NUL, all of them when there is none. *)
Definition c_str (buf : list Z) : list Z :=
  slice 0 (default (zlen buf) (position (λ b, b =? 0) buf)) buf.

(** [a[..n].copy_from_slice(&s[..n]); a[n..].fill(0)] on an array of [max]
    bytes, with [n = s.len().min(max - 1)]. *)
Definition c_array (max : Z) (src : list Z) : list Z :=
  let n := Z.min (zlen src) (max - 1) in
  take (Z.to_nat n) src ++ replicate (Z.to_nat (max - n)) 0.

Section cstr.
Implicit Types l : list Z.

Lemma zlen_c_array max l : 1 ≤ max → zlen (c_array max l) = max.
Proof.
  intros Hm. unfold c_array. rewrite zlen_app, zlen_take, zlen_replicate.
  pose proof (zlen_nonneg l). lia.
Qed.

Lemma c_array_short max l :
  zlen l < max → c_array max l = l ++ replicate (Z.to_nat (max - zlen l)) 0.
Proof.
  intros Hl. unfold c_array. rewrite Z.min_l by lia.
  by rewrite (take_ge l) by (unfold zlen; lia).
Qed.

Lemma slice_c_array max l : zlen l < max → slice 0 (zlen l) (c_array max l) = l.
Proof.
  intros Hl. rewrite c_array_short by done. unfold slice, zlen. simpl.
  rewrite Nat2Z.id. apply take_app_length.
Qed.

Lemma position_nul_free l l' :
  nul_free l → position (λ b, b =? 0) (l ++ 0 :: l') = Some (zlen l).
Proof.
  intros Hl. induction Hl as [|b l Hb Hl IH]; simpl; [done|].
  rewrite (proj2 (Z.eqb_neq b 0)) by done. rewrite IH. simpl. by rewrite zlen_cons, Z.add_1_l.
Qed.

Lemma position_c_array max l :
  nul_free l → zlen l < max → position (λ b, b =? 0) (c_array max l) = Some (zlen l).
Proof.
  intros Hn Hl. rewrite c_array_short by done.
  replace (Z.to_nat (max - zlen l)) with (S (Z.to_nat (max - zlen l - 1))) by lia.
  by apply position_nul_free.
Qed.

Lemma zget_c_array_pad max l i : zlen l ≤ i < max → zget (c_array max l) i = Some 0.
Proof.
  intros Hi. rewrite c_array_short by lia. rewrite zget_app_r by lia.
  rewrite zget_replicate. by rewrite decide_True by lia.
Qed.

Lemma zget_c_array max l i : zlen l < max → 0 ≤ i < zlen l → zget (c_array max l) i = zget l i.
Proof. intros Hl Hi. rewrite c_array_short by lia. by rewrite zget_app_l by lia. Qed.

Lemma c_array_clear max l i : zlen l ≤ i < max → zset (c_array max l) i 0 = c_array max l.
Proof. intros Hi. by apply zset_id, zget_c_array_pad. Qed.

Lemma c_str_c_array max l : nul_free l → zlen l < max → c_str (c_array max l) = l.
Proof.
  intros Hn Hl. unfold c_str. rewrite position_c_array by done. by apply slice_c_array.
Qed.

Lemma c_str_nul_free l : nul_free (c_str l).
Proof.
  unfold c_str, slice. simpl. rewrite drop_0. induction l as [|b l IH]; [constructor|].
  simpl. destruct (Z.eqb_spec b 0) as [->|Hb]; [constructor|].
  destruct (position _ l) as [n|] eqn:Hp; simpl in *.
  - assert (0 ≤ n) as Hn.
    { clear IH. revert n Hp. induction l as [|c l IH]; [done|]. intros n. simpl.
      destruct (c =? 0); [by intros [= <-]|]. destruct (position _ l) as [m|]; [|done].
      intros [= <-]. specialize (IH m eq_refl). lia. }
    replace (Z.to_nat (Z.succ n)) with (S (Z.to_nat n)) by lia. by constructor.
  - rewrite zlen_cons. replace (Z.to_nat (1 + zlen l)) with (S (Z.to_nat (zlen l)))
      by (pose proof (zlen_nonneg l); lia). by constructor.
Qed.
End cstr.

(** ** UTF-8 ([core::str::from_utf8]) *)
Definition utf8_cont (b : Z) : bool := (0x80 <=? b) && (b <=? 0xBF).
(** Unicode's table of well-formed sequences. *)
Fixpoint utf8_valid (l : list Z) : bool :=
  match l with
  | [] => true
  | a :: l1 =>
      if a <? 0x80 then utf8_valid l1
      else if (0xC2 <=? a) && (a <=? 0xDF) then
        match l1 with b :: l2 => utf8_cont b && utf8_valid l2 | _ => false end
      else if (0xE0 <=? a) && (a <=? 0xEF) then
        match l1 with
        | b :: c :: l3 =>
            ((if a =? 0xE0 then 0xA0 else 0x80) <=? b) &&
            (b <=? (if a =? 0xED then 0x9F else 0xBF)) && utf8_cont c && utf8_valid l3
        | _ => false
        end
      else if (0xF0 <=? a) && (a <=? 0xF4) then
        match l1 with
        | b :: c :: d :: l4 =>
            ((if a =? 0xF0 then 0x90 else 0x80) <=? b) &&
            (b <=? (if a =? 0xF4 then 0x8F else 0xBF)) && utf8_cont c && utf8_cont d &&
            utf8_valid l4
        | _ => false
        end
      else false
  end.

(** ASCII is UTF-8. *)
Definition ascii (l : list Z) : Prop := Forall (λ b, 0 ≤ b < 0x80) l.
Lemma utf8_ascii l : ascii l → utf8_valid l = true.
Proof.
  induction 1 as [|b l Hb Hl IH]; simpl; [done|]. by rewrite (proj2 (Z.ltb_lt _ _)) by lia.
Qed.

(** ** Searching *)
Definition find_first (P : Z → bool) (lo hi : Z) : option Z :=
  List.find P (seqZ lo (hi - lo)).

Lemma find_app {A} (P : A → bool) l l' :
  List.find P (l ++ l') =
  match List.find P l with Some x => Some x | None => List.find P l' end.
Proof. induction l as [|x l IH]; [done|]. simpl. by destruct (P x). Qed.

Lemma find_first_Some P lo hi i :
  find_first P lo hi = Some i ↔
  lo ≤ i < hi ∧ P i = true ∧ ∀ j, lo ≤ j < i → P j = false.
Proof.
  unfold find_first. split.
  - destruct (decide (lo ≤ hi)) as [Hle|]; [|by rewrite seqZ_nil by lia].
    intros Hf. pose proof Hf as [Hin HP]%List.find_some.
    apply list_elem_of_In, elem_of_seqZ in Hin. split_and!; [lia|lia|done|].
    intros j Hj.
    replace (seqZ lo (hi - lo)) with (seqZ lo (i - lo) ++ seqZ i (hi - i)) in Hf.
    2: { replace (hi - lo) with ((i - lo) + (hi - i)) by lia. rewrite seqZ_app by lia.
         do 2 f_equal. lia. }
    destruct (P j) eqn:HPj; [|done].
    assert (List.find P (seqZ lo (i - lo)) ≠ None) as Hne.
    { intros Hn. eapply List.find_none in Hn; [|apply list_elem_of_In, elem_of_seqZ];
        [by rewrite HPj in Hn|lia]. }
    destruct (List.find P (seqZ lo (i - lo))) as [k|] eqn:Ek; [|done].
    pose proof Ek as [Hk _]%List.find_some.
    apply list_elem_of_In, elem_of_seqZ in Hk.
    rewrite find_app, Ek in Hf. injection Hf as ->. lia.
  - intros (Hi & HP & Hbefore).
    replace (seqZ lo (hi - lo)) with
      (seqZ lo (i - lo) ++ i :: seqZ (Z.succ i) (Z.pred (hi - i))).
    2: { rewrite <- (seqZ_cons i (hi - i)) by lia.
         replace (hi - lo) with ((i - lo) + (hi - i)) by lia. rewrite seqZ_app by lia.
         do 2 f_equal. lia. }
    rewrite find_app. simpl. rewrite HP.
    destruct (List.find P (seqZ lo (i - lo))) as [k|] eqn:Ek; [|done].
    apply List.find_some in Ek as [Hk HPk].
    apply list_elem_of_In, elem_of_seqZ in Hk. rewrite Hbefore in HPk by lia. done.
Qed.

Lemma find_first_None P lo hi :
  find_first P lo hi = None ↔ ∀ i, lo ≤ i < hi → P i = false.
Proof.
  unfold find_first. split.
  - intros Hn i Hi. eapply List.find_none in Hn; [done|].
    apply list_elem_of_In, elem_of_seqZ. lia.
  - intros H. destruct (List.find _ _) as [k|] eqn:Ek; [|done].
    apply List.find_some in Ek as [Hk HPk].
    apply list_elem_of_In, elem_of_seqZ in Hk. rewrite H in HPk by lia. done.
Qed.

(** ** Bit-level facts *)
Section bits.
Lemma u64_id x : 0 ≤ x < 2 ^ 64 → u64 x = x.
Proof. apply Z.mod_small. Qed.
Lemma u64_range x : 0 ≤ u64 x < 2 ^ 64.
Proof. by apply Z.mod_pos_bound. Qed.
Lemma u32_id x : 0 ≤ x < 2 ^ 32 → u32 x = x.
Proof. apply Z.mod_small. Qed.
Lemma u16_id x : 0 ≤ x < 2 ^ 16 → u16 x = x.
Proof. apply Z.mod_small. Qed.
Lemma u8_id x : 0 ≤ x < 2 ^ 8 → u8 x = x.
Proof. apply Z.mod_small. Qed.
Lemma i32_id x : - 2 ^ 31 ≤ x < 2 ^ 31 → i32 x = x.
Proof. intros H. unfold i32. rewrite Z.mod_small; lia. Qed.
Lemma i64_id x : - 2 ^ 63 ≤ x < 2 ^ 63 → i64 x = x.
Proof. intros H. unfold i64. rewrite Z.mod_small; lia. Qed.
Lemma i32_range x : - 2 ^ 31 ≤ i32 x < 2 ^ 31.
Proof. unfold i32. pose proof (Z.mod_pos_bound (x + 2 ^ 31) (2 ^ 32)). lia. Qed.

Lemma testbit_u64_high x i : 0 ≤ x < 2 ^ 64 → 64 ≤ i → Z.testbit x i = false.
Proof.
  intros Hx Hi. rewrite <- (Z.mod_small x (2 ^ 64)) by done.
  by apply Z.mod_pow2_bits_high.
Qed.

Lemma u64_of_bits x :
  0 ≤ x → (∀ i, 64 ≤ i → Z.testbit x i = false) → x < 2 ^ 64.
Proof.
  intros Hx Hb. destruct (decide (x = 0)) as [->|Hne]; [done|].
  apply Z.log2_lt_pow2; [lia|].
  destruct (Z.lt_ge_cases (Z.log2 x) 64) as [|Hge]; [done|].
  specialize (Hb _ Hge). by rewrite Z.bit_log2 in Hb by lia.
Qed.

Lemma complement_spec n x i :
  0 ≤ n → 0 ≤ x < 2 ^ n → 0 ≤ i →
  Z.testbit (2 ^ n - 1 - x) i = negb (Z.testbit x i) && (i <? n).
Proof.
  intros Hn Hx Hi. replace (2 ^ n - 1 - x) with (Z.lnot x mod 2 ^ n).
  - destruct (Z.ltb_spec i n).
    + rewrite Z.mod_pow2_bits_low, Z.lnot_spec, andb_true_r by lia. done.
    + rewrite Z.mod_pow2_bits_high, andb_false_r by lia. done.
  - unfold Z.lnot. symmetry. apply Z.mod_unique with (-1); lia.
Qed.

Lemma u64_not_spec x i :
  0 ≤ x < 2 ^ 64 → 0 ≤ i →
  Z.testbit (u64_not x) i = negb (Z.testbit x i) && (i <? 64).
Proof. by apply (complement_spec 64). Qed.
End bits.

(** [i32] operations that [lia] sees do not overflow, innermost first. *)
Ltac narrow := repeat match goal with |- context [i32 ?x] => rewrite (i32_id x) by lia end.

Lemma trailing_zeros_spec w :
  0 < w < 2 ^ 64 →
  0 ≤ trailing_zeros w < 64 ∧ Z.testbit w (trailing_zeros w) = true ∧
  ∀ k, 0 ≤ k < trailing_zeros w → Z.testbit w k = false.
Proof.
  intros [Hpos Hlt]. destruct w as [|p|]; [lia| |lia]. simpl. clear Hpos.
  assert (∀ n, Z.pos p < 2 ^ Z.of_nat n →
    0 ≤ pos_trailing_zeros p < Z.of_nat n ∧
    Z.testbit (Z.pos p) (pos_trailing_zeros p) = true ∧
    ∀ k, 0 ≤ k < pos_trailing_zeros p → Z.testbit (Z.pos p) k = false) as H;
    [|by apply (H 64%nat)].
  clear Hlt. induction p as [p IH|p IH|]; intros n Hlt; simpl pos_trailing_zeros.
  - destruct n; [simpl in Hlt; lia|]. split_and!; [lia|lia|done|lia].
  - destruct n as [|n]; [simpl in Hlt; lia|].
    destruct (IH n) as (H1 & H2 & H3).
    { rewrite Nat2Z.inj_succ, Z.pow_succ_r in Hlt by lia. lia. }
    rewrite Z.add_1_l, Pos2Z.inj_xO, Z.double_bits_succ. split_and!; [lia|lia|done|].
    intros k Hk. destruct (decide (k = 0)) as [->|]; [done|].
    replace k with (Z.succ (k - 1)) by lia. rewrite Z.double_bits_succ. apply H3. lia.
  - destruct n; [simpl in Hlt; lia|]. split_and!; [lia|lia|done|lia].
Qed.

(** ** Page arithmetic *)
Definition PAGE_SIZE : Z := 4096.
(** [x & !(PAGE_SIZE - 1)] *)
Definition page_down (x : Z) : Z := Z.land x (u64_not (PAGE_SIZE - 1)).
(** [(x + PAGE_SIZE - 1) & !(PAGE_SIZE - 1)] *)
Definition page_up (x : Z) : Z := page_down (u64 (x + PAGE_SIZE - 1)).

(** Clearing the low [k] bits of a [u64]. *)
Lemma land_not_ones x k :
  0 ≤ x < 2 ^ 64 → 0 ≤ k < 64 → Z.land x (u64_not (2 ^ k - 1)) = x - x mod 2 ^ k.
Proof.
  intros Hx Hk. assert (0 < 2 ^ k < 2 ^ 64) as Hpow.
  { split; [apply Z.pow_pos_nonneg; lia|]. apply Z.pow_lt_mono_r; lia. }
  replace (2 ^ k - 1) with (Z.ones k) by (rewrite Z.ones_equiv; lia).
  transitivity (Z.ldiff x (Z.ones k)).
  - apply Z.bits_inj'. intros j Hj.
    rewrite Z.land_spec, Z.ldiff_spec, u64_not_spec by (rewrite ?Z.ones_equiv; lia).
    destruct (Z.ltb_spec j 64); [by rewrite andb_true_r|by rewrite testbit_u64_high by lia].
  - rewrite Z.ldiff_ones_r, Z.shiftl_mul_pow2, Z.shiftr_div_pow2 by lia.
    pose proof (Z.div_mod x (2 ^ k)). lia.
Qed.

Lemma page_down_spec x : 0 ≤ x < 2 ^ 64 → page_down x = x - x mod PAGE_SIZE.
Proof. intros Hx. by apply (land_not_ones x 12). Qed.

Lemma page_down_bounds x :
  0 ≤ x < 2 ^ 64 → x - PAGE_SIZE < page_down x ≤ x ∧ page_down x mod PAGE_SIZE = 0.
Proof.
  intros Hx. rewrite page_down_spec by done.
  pose proof (Z.mod_pos_bound x PAGE_SIZE eq_refl). split; [lia|].
  rewrite Zminus_mod_idemp_r. by rewrite Z.sub_diag.
Qed.

(** ** Hints

    Lengths of the lists arrays are built of, for [autorewrite with zlen]. *)
Create Rewrite HintDb zlen.
#[export] Hint Rewrite @zlen_app @zlen_cons @zlen_zset @zlen_replicate : zlen.

(** ** Counting *)
Lemma count_flip {A} (l : list A) (f g : A → bool) x :
  NoDup l → x ∈ l → f x = false → g x = true → (∀ y, y ≠ x → f y = g y) →
  length (List.filter g l) = S (length (List.filter f l)).
Proof.
  intros Hnd Hx Hf Hg Hfg.
  assert (∀ k : list A, x ∉ k → List.filter g k = List.filter f k) as Hout.
  { intros k Hk. apply List.filter_ext_in. intros y Hy.
    symmetry. apply Hfg. intros ->. by apply Hk, list_elem_of_In. }
  induction Hnd as [|y l Hy Hnd IH]; [by apply elem_of_nil in Hx|].
  apply elem_of_cons in Hx as [->|Hx]; simpl.
  - by rewrite Hf, Hg, Hout.
  - rewrite (Hfg y) by (intros ->; done). destruct (g y); simpl; by rewrite IH.
Qed.
