(* ===== verification/Lines.v ===== *)
(** * Lines, words and numbers

    What the kernel's shell ([kernel-rs/src/shell.rs]) and the user's shell
    ([userspace-rs/src/bin/sh.rs]) are compared with: a line edited with a
    delete key, the words of a line, and the numbers the formatting macros of
    both sides print.  The shells keep a line in a fixed array with a length,
    [in_line]. *)
From Stdlib Require Ascii.
From Stdlib Require Export (notations) String.
From S2P Require Import Prelude.

Module Lines.

(** A literal of the source as its bytes; [text] adds the newline of
    [println!] and [puts]. *)
Fixpoint str (s : String.string) : list Z :=
  match s with
  | String.EmptyString => []
  | String.String a s => Z.of_N (Ascii.N_of_ascii a) :: str s
  end.
Arguments str s%_string.
Definition text (s : String.string) : list Z := str s ++ [10].
Arguments text s%_string.

(** [for &b in s]. *)
Fixpoint each {S} (f : Z → M S unit) (l : list Z) : M S unit :=
  match l with
  | [] => mret tt
  | b :: l => f b;; each f l
  end.
(** [array[i] = v] on a local array. *)
Definition array_set {S} (l : list Z) (i v : Z) : M S (list Z) :=
  if (0 <=? i) && (i <? zlen l) then mret (zset l i v) else panic.

Lemma wp_array_set {S} (l : list Z) i v (Q : list Z → S → Prop) s :
  0 ≤ i < zlen l → Q (zset l i v) s → wp (array_set l i v) Q s.
Proof.
  intros Hi HQ. unfold array_set.
  by rewrite (proj2 (Z.leb_le 0 i)), (proj2 (Z.ltb_lt i _)) by lia.
Qed.

(** ** Editing *)
Definition edit (del : Z → bool) (cap : Z) (l : list Z) (c : Z) : list Z :=
  if del c then removelast l else if zlen l <? cap then l ++ [c] else l.
(** What the terminal is sent for the key. *)
Definition rubout : list Z := [8; 32; 8].
Definition echo (del : Z → bool) (cap : Z) (l : list Z) (c : Z) : list Z :=
  if del c then (match l with [] => [] | _ => rubout end)
  else if zlen l <? cap then [c] else [].

Definition edited (del : Z → bool) (cap : Z) : list Z → list Z → list Z := foldl (edit del cap).
Fixpoint echoed (del : Z → bool) (cap : Z) (l cs : list Z) : list Z :=
  match cs with
  | [] => []
  | c :: cs => echo del cap l c ++ echoed del cap (edit del cap l c) cs
  end.

Lemma zlen_removelast {A} (l : list A) : zlen (removelast l) = Z.max 0 (zlen l - 1).
Proof.
  destruct l as [|x l] using rev_ind; [done|]. rewrite removelast_last, zlen_app.
  change (zlen [x]) with 1. pose proof (zlen_nonneg l). lia.
Qed.

Lemma edit_fits del cap l c : zlen l ≤ cap → zlen (edit del cap l c) ≤ cap.
Proof.
  intros Hl. unfold edit. destruct (del c).
  - rewrite zlen_removelast. pose proof (zlen_nonneg l). lia.
  - destruct (Z.ltb_spec (zlen l) cap); [|done]. rewrite zlen_app. change (zlen [c]) with 1. lia.
Qed.
Lemma edited_fits del cap l cs : zlen l ≤ cap → zlen (edited del cap l cs) ≤ cap.
Proof.
  revert l. induction cs as [|c cs IH]; intros l Hl; [done|]. by apply IH, edit_fits.
Qed.

Lemma edited_app del cap l cs cs' :
  edited del cap l (cs ++ cs') = edited del cap (edited del cap l cs) cs'.
Proof. apply foldl_app. Qed.

(** Text without the delete key arrives, up to the capacity. *)
Lemma edited_plain del cap l cs :
  Forall (λ c, del c = false) cs → zlen l ≤ cap →
  edited del cap l cs = take (Z.to_nat cap) (l ++ cs).
Proof.
  intros Hcs. revert l. induction Hcs as [|c cs Hc Hcs IH]; intros l Hl; simpl.
  - rewrite app_nil_r, take_ge; [done|]. unfold zlen in Hl. lia.
  - rewrite IH by (by apply edit_fits). unfold edit. rewrite Hc.
    destruct (Z.ltb_spec (zlen l) cap); [by rewrite <- app_assoc|].
    rewrite !take_app_le; [done|unfold zlen in *; lia..].
Qed.

(** Deleting takes back what was typed last. *)
Lemma edited_delete del cap l cs d :
  Forall (λ c, del c = false) cs → zlen l + zlen cs ≤ cap → del d = true →
  edited del cap l (cs ++ replicate (length cs) d) = l.
Proof.
  revert l. induction cs as [|c cs IH] using rev_ind; intros l Hcs Hfit Hd; [done|].
  apply Forall_app in Hcs as [Hcs Hc]. apply Forall_inv in Hc.
  rewrite zlen_app in Hfit. change (zlen [c]) with 1 in Hfit.
  pose proof (zlen_nonneg cs). pose proof (zlen_nonneg l).
  assert (edited del cap l (cs ++ [c; d]) = edited del cap l cs) as E.
  { rewrite edited_app. rewrite (edited_plain _ _ l cs) by (done || lia).
    rewrite (take_ge (l ++ cs)) by (rewrite length_app; unfold zlen in *; lia).
    pose proof (zlen_app l cs) as Hl. unfold edited. simpl. unfold edit.
    rewrite Hc, (proj2 (Z.ltb_lt _ cap)) by lia. by rewrite Hd, removelast_last. }
  rewrite length_app, Nat.add_comm. cbn [length replicate plus].
  replace ((cs ++ [c]) ++ d :: replicate (length cs) d)
    with ((cs ++ [c; d]) ++ replicate (length cs) d) by (by rewrite <- !app_assoc).
  rewrite edited_app, E, <- edited_app. apply IH; [done|lia|done].
Qed.

(** ** A line in a fixed array *)
Record in_line (buf : list Z) (n : Z) (l : list Z) : Prop := {
  il_len : n = zlen l;
  il_room : zlen l ≤ zlen buf;
  il_text : take (Z.to_nat n) buf = l;
}.

Lemma in_line_nil buf : in_line buf 0 [].
Proof. split; [done|apply zlen_nonneg|done]. Qed.

Lemma take_snoc {A} (l : list A) i x :
  zget l i = Some x → take (Z.to_nat (i + 1)) l = take (Z.to_nat i) l ++ [x].
Proof.
  intros Hx. pose proof (zget_Some_lt _ _ _ Hx). unfold zget in Hx. rewrite decide_True in Hx by lia.
  replace (Z.to_nat (i + 1)) with (S (Z.to_nat i)) by lia. by apply take_S_r.
Qed.

Lemma take_zset {A} (buf : list A) n c : 0 ≤ n < zlen buf →
  take (Z.to_nat (n + 1)) (zset buf n c) = take (Z.to_nat n) buf ++ [c].
Proof.
  intros Hn. pose proof (zlen_take n buf). pose proof (zlen_take (n + 1) (zset buf n c)) as H1.
  rewrite zlen_zset in H1. apply list_eq_zget.
  - rewrite zlen_app. change (zlen [c]) with 1. lia.
  - intros i Hi. rewrite zget_take by lia. destruct (decide (i = n)) as [->|].
    + rewrite zget_zset_eq by lia. rewrite zget_app_r by lia.
      by replace (n - zlen (take (Z.to_nat n) buf)) with 0 by lia.
    + rewrite zget_zset_ne by lia. rewrite zget_app_l by lia. by rewrite zget_take by lia.
Qed.
Lemma take_zset_above {A} (buf : list A) n i c : 0 ≤ n ≤ i → take (Z.to_nat n) (zset buf i c) = take (Z.to_nat n) buf.
Proof.
  intros Hn. pose proof (zlen_take n buf). pose proof (zlen_take n (zset buf i c)) as H1.
  rewrite zlen_zset in H1. apply list_eq_zget; [lia|]. intros k Hk.
  rewrite !zget_take by lia. by rewrite zget_zset_ne by lia.
Qed.

Lemma in_line_push buf n l c : in_line buf n l → n < zlen buf → in_line (zset buf n c) (n + 1) (l ++ [c]).
Proof.
  intros [-> Hr Ht] Hn. pose proof (zlen_nonneg l). split; [by rewrite zlen_app| |].
  - rewrite zlen_zset, zlen_app. change (zlen [c]) with 1. lia.
  - rewrite take_zset by lia. by rewrite Ht.
Qed.
Lemma in_line_pop buf n l : in_line buf n l → 0 < n → in_line buf (n - 1) (removelast l).
Proof.
  intros [-> Hr Ht] Hn. pose proof (zlen_removelast l) as Hl. split; [lia|lia|].
  destruct l as [|x l _] using rev_ind; [done|]. rewrite removelast_last in *. rewrite zlen_app in *.
  change (zlen [x]) with 1 in *. rewrite Z.add_simpl_r.
  assert (take (Z.to_nat (zlen l)) (take (Z.to_nat (zlen l + 1)) buf) = take (Z.to_nat (zlen l)) (l ++ [x])) as E by (by rewrite Ht).
  pose proof (zlen_nonneg l). rewrite take_take in E. rewrite Nat.min_l in E by lia.
  rewrite E. unfold zlen. by rewrite Nat2Z.id, take_app_length.
Qed.
Lemma in_line_set buf n i l c : in_line buf n l → n ≤ i → in_line (zset buf i c) n l.
Proof.
  intros [-> Hr Ht] Hi. pose proof (zlen_nonneg l). split; [done|by rewrite zlen_zset|].
  by rewrite take_zset_above by lia.
Qed.

(** ** Words *)
Section words.
Variable sep : Z → bool.

Definition flush (w : list Z) : list (list Z) := match w with [] => [] | _ => [w] end.
Fixpoint words_from (w l : list Z) : list (list Z) :=
  match l with
  | [] => flush w
  | c :: l => if sep c then flush w ++ words_from [] l else words_from (w ++ [c]) l
  end.
Definition words (l : list Z) : list (list Z) := words_from [] l.

Definition is_word (w : list Z) : Prop := w ≠ [] ∧ Forall (λ c, sep c = false) w.

Lemma flush_words w : Forall (λ c, sep c = false) w → Forall is_word (flush w).
Proof. intros Hw. destruct w; constructor; [by split|constructor]. Qed.

Lemma words_from_are_words w l :
  Forall (λ c, sep c = false) w → Forall is_word (words_from w l).
Proof.
  revert w. induction l as [|c l IH]; intros w Hw; simpl.
  - by apply flush_words.
  - destruct (sep c) eqn:Hc.
    + apply Forall_app. split; [by apply flush_words|by apply IH].
    + apply IH, Forall_app. by split; [|constructor].
Qed.

Lemma words_skip c l : sep c = true → words (c :: l) = words l.
Proof. intros Hc. unfold words. simpl. by rewrite Hc. Qed.
Lemma words_blank a l : Forall (λ c, sep c = true) a → words (a ++ l) = words l.
Proof. induction 1 as [|c a Hc Ha IH]; [done|]. simpl. by rewrite words_skip. Qed.
Lemma words_from_word v w l : Forall (λ c, sep c = false) w → words_from v (w ++ l) = words_from (v ++ w) l.
Proof.
  intros Hw. revert v. induction Hw as [|c w Hc Hw IH]; intros v; simpl; [by rewrite app_nil_r|].
  rewrite Hc, IH. by rewrite <- app_assoc.
Qed.
(** A word and the separator after it. *)
Lemma words_word w c l : is_word w → sep c = true → words (w ++ c :: l) = w :: words l.
Proof.
  intros [Hne Hw] Hc. unfold words. rewrite words_from_word by done. simpl. rewrite Hc.
  by destruct w.
Qed.
Lemma words_last w : is_word w → words w = [w].
Proof.
  intros [Hne Hw]. unfold words. rewrite <- (app_nil_r w) at 1. rewrite words_from_word by done.
  simpl. by destruct w.
Qed.

(** The scanning loops of a tokenizer: the next word starts at [scan sep],
    ends at the scan for a separator after it. *)
Definition not_sep (c : Z) : bool := negb (sep c).

Lemma drop_span_blank l : words (drop (Z.to_nat (span sep l)) l) = words l.
Proof.
  induction l as [|c l IH]; [done|]. simpl. destruct (sep c) eqn:Hc; [|done].
  pose proof (span_bounds sep l). replace (Z.to_nat (1 + span sep l)) with (S (Z.to_nat (span sep l))) by lia.
  simpl. rewrite IH. by rewrite words_skip.
Qed.
Lemma span_stops l c l' : drop (Z.to_nat (span sep l)) l = c :: l' → sep c = false.
Proof.
  induction l as [|x l IH]; [done|]. simpl. destruct (sep x) eqn:Hx.
  - pose proof (span_bounds sep l). replace (Z.to_nat (1 + span sep l)) with (S (Z.to_nat (span sep l))) by lia.
    apply IH.
  - intros [= -> _]. done.
Qed.
Lemma words_from_span w l : Forall (λ c, sep c = false) w → w ≠ [] →
  words_from w l = (w ++ take (Z.to_nat (span not_sep l)) l)
    :: words (drop (Z.to_nat (span not_sep l)) l).
Proof.
  revert w. induction l as [|c l IH]; intros w Hw Hne; simpl.
  - rewrite app_nil_r. by destruct w.
  - unfold not_sep at 1 3. destruct (sep c) eqn:Hc; simpl.
    + rewrite app_nil_r, words_skip by done. by destruct w.
    + pose proof (span_bounds not_sep l).
      replace (Z.to_nat (1 + span not_sep l)) with (S (Z.to_nat (span not_sep l))) by lia. simpl.
      rewrite IH; [by rewrite <- app_assoc|apply Forall_app; by split; [|constructor]|by destruct w].
Qed.

Lemma words_scan l p :
  0 ≤ p ≤ zlen l →
  let q := scan sep l p in
  let e := scan not_sep l q in
  if q >=? zlen l then words (drop (Z.to_nat p) l) = []
  else q < e ∧ words (drop (Z.to_nat p) l) = slice q (e - q) l :: words (drop (Z.to_nat e) l).
Proof.
  intros Hp q e. pose proof (scan_bounds sep l p Hp) as Hq. fold q in Hq.
  pose proof (drop_scan sep l p ltac:(lia)) as Hd. fold q in Hd.
  rewrite Z.geb_leb. destruct (Z.leb_spec (zlen l) q).
  - rewrite <- drop_span_blank, <- Hd, drop_ge; [done|]. unfold zlen in *. lia.
  - destruct (drop (Z.to_nat q) l) as [|c l'] eqn:Hl.
    { pose proof (zlen_drop q l ltac:(lia)) as Hz. rewrite Hl in Hz. change (zlen []) with 0 in Hz. lia. }
    assert (sep c = false) as Hc by (eapply span_stops; by rewrite <- Hd).
    assert (e = q + 1 + span not_sep l') as He.
    { unfold e, scan. rewrite Hl. simpl. unfold not_sep at 1. rewrite Hc. simpl. lia. }
    pose proof (span_bounds not_sep l'). split; [lia|].
    rewrite <- drop_span_blank, <- Hd. unfold words at 1. simpl. rewrite Hc.
    rewrite words_from_span by (by repeat constructor). f_equal.
    + unfold slice. rewrite Hl, He. replace (Z.to_nat (_ - q)) with (S (Z.to_nat (span not_sep l'))) by lia. done.
    + f_equal. replace (Z.to_nat e) with (Z.to_nat q + S (Z.to_nat (span not_sep l')))%nat by lia.
      by rewrite <- drop_drop, Hl.
Qed.

(** Splitting undoes joining. *)
Fixpoint join (c : Z) (ws : list (list Z)) : list Z :=
  match ws with
  | [] => []
  | [w] => w
  | w :: ws => w ++ c :: join c ws
  end.
Lemma words_join c ws : sep c = true → Forall is_word ws → words (join c ws) = ws.
Proof.
  intros Hc. induction 1 as [|w ws Hw Hws IH]; [done|]. destruct ws as [|w' ws].
  - by apply words_last.
  - change (join c (w :: w' :: ws)) with (w ++ c :: join c (w' :: ws)).
    rewrite words_word by done. by rewrite IH.
Qed.
End words.

(** ** Numbers as the formatting macros print them *)
Definition digit (d : Z) : Z := if d <? 10 then 48 + d else 87 + d.
Fixpoint digits (base : Z) (places : nat) (n : Z) : list Z :=
  match places with
  | O => []
  | S places => (if n <? base then [] else digits base places (n / base)) ++ [digit (n mod base)]
  end.
(** [{}] of an unsigned and a signed number, [{:x}] of a [u64]. *)
Definition dec_u (n : Z) : list Z := digits 10 20 n.
Definition dec_i (n : Z) : list Z := if n <? 0 then 45 :: dec_u (- n) else dec_u n.
Definition hex_u (n : Z) : list Z := digits 16 16 n.
(** Widths count characters, not bytes. *)
Definition chars (l : list Z) : Z := zlen (filter (λ b, utf8_cont b = false) l).
Definition pad_left (w : Z) (l : list Z) : list Z := replicate (Z.to_nat (w - chars l)) 32 ++ l.
Definition pad_right (w : Z) (l : list Z) : list Z := l ++ replicate (Z.to_nat (w - chars l)) 32.

Definition is_digit (c : Z) : bool := (48 <=? c) && (c <=? 57).
Definition value (v : Z) (l : list Z) : Z := foldl (λ v c, v * 10 + (c - 48)) v l.

Lemma value_app v l l' : value v (l ++ l') = value (value v l) l'.
Proof. apply foldl_app. Qed.

Lemma digits_short base k n : (length (digits base k n) ≤ k)%nat.
Proof.
  revert n. induction k as [|k IH]; intros n; [done|]. cbn [digits].
  rewrite length_app. cbn [length]. specialize (IH (n / base)). destruct (n <? base); simpl; lia.
Qed.
Lemma digits_bytes base k n : 0 < base ≤ 16 → Forall (λ b, 0 ≤ b < 2 ^ 8) (digits base k n).
Proof.
  intros Hb. revert n. induction k as [|k IH]; intros n; [constructor|]. cbn [digits]. apply Forall_app. split.
  - destruct (n <? base); [constructor|apply IH].
  - apply Forall_singleton. pose proof (Z.mod_pos_bound n base ltac:(lia)). unfold digit.
    destruct (n mod base <? 10); lia.
Qed.

Lemma digits_value k n : 0 ≤ n < 10 ^ Z.of_nat k → (0 < k)%nat →
  value 0 (digits 10 k n) = n ∧ Forall (λ c, is_digit c = true) (digits 10 k n).
Proof.
  revert n. induction k as [|k IH]; intros n Hn Hk; [lia|]. simpl.
  pose proof (Z.mod_pos_bound n 10 ltac:(lia)) as Hm. pose proof (Z.div_mod n 10 ltac:(lia)) as Hdm.
  assert (digit (n mod 10) = 48 + n mod 10) as ->.
  { unfold digit. by rewrite (proj2 (Z.ltb_lt _ 10)) by lia. }
  assert (is_digit (48 + n mod 10) = true) as Hd.
  { unfold is_digit. apply andb_true_iff. split; apply Z.leb_le; lia. }
  rewrite value_app, Forall_app. destruct (Z.ltb_spec n 10) as [Hs|Hb].
  - rewrite Z.mod_small in * by lia. split; [unfold value; simpl; lia|]. by repeat constructor.
  - destruct (IH (n / 10)) as [Hv Hf].
    + rewrite Nat2Z.inj_succ, Z.pow_succ_r in Hn by lia. split; [apply Z.div_pos; lia|].
      apply Z.div_lt_upper_bound; lia.
    + destruct k; [|lia]. simpl in Hn. lia.
    + rewrite Hv. split; [unfold value; simpl; lia|]. split; [done|]. by repeat constructor.
Qed.

Lemma dec_u_value n : 0 ≤ n < 10 ^ 20 →
  value 0 (dec_u n) = n ∧ Forall (λ c, is_digit c = true) (dec_u n).
Proof. intros Hn. apply (digits_value 20); [exact Hn|lia]. Qed.
Example str_bytes : str "ok" = [111; 107] ∧ text "—" = [226; 128; 148; 10].
Proof. done. Qed.
End Lines.
