(* ===== verification/PageAlloc.v ===== *)
(** * The page allocator as its clients see it

    [vmm.rs], [proc/elf.rs], [proc.rs], [sched.rs] and [gui/surface.rs] only
    use four functions of [mm/pmm.rs].  [PageAllocator] names them, and
    [PageAllocatorLaws] is the contract their theorems are proved against;
    [Pmm] discharges it for the bitmap allocator. *)
From S2P Require Import Prelude.

Class PageAllocator (P : Type) := {
  alloc_page : M P Z;
  alloc_pages : Z → Z → M P Z;
  free_page : Z → M P unit;
}.

(** [avail p a]: the page at physical address [a] may be handed out. *)
Class PageAllocatorLaws (P : Type) `{PageAllocator P} := {
  alloc_inv : P → Prop;
  avail : P → Z → Prop;
  (** The pages the allocator manages: whole, non-zero and below the 40
      physical address bits of every table entry. *)
  phys_page : Z → Prop;
  phys_page_bounds a : phys_page a → 0 < a < 2 ^ 40 ∧ a mod PAGE_SIZE = 0;
  avail_page p a : alloc_inv p → avail p a → phys_page a;
  (** [alloc_page] answers 0 exactly when nothing is available and otherwise
      takes one available page and nothing else. *)
  alloc_page_law p :
    alloc_inv p →
    wp alloc_page (λ a p',
      alloc_inv p' ∧
      ((a = 0 ∧ p' = p ∧ ∀ b, ¬ avail p b) ∨
       (avail p a ∧ ∀ b, avail p' b ↔ avail p b ∧ b ≠ a))) p;
  (** A run of pages, page aligned; 0 exactly when there is no such run. *)
  alloc_pages_law p n :
    alloc_inv p → 0 < n < 2 ^ 63 →
    wp (alloc_pages n PAGE_SIZE) (λ a p',
      alloc_inv p' ∧
      ((a = 0 ∧ p' = p ∧ ∀ b, ¬ ∀ k, 0 ≤ k < n → avail p (b + k * PAGE_SIZE)) ∨
       (0 < a ∧
        (∀ k, 0 ≤ k < n → avail p (a + k * PAGE_SIZE)) ∧
        (∀ b, avail p' b ↔
              avail p b ∧ ∀ k, 0 ≤ k < n → b ≠ a + k * PAGE_SIZE)))) p;
  (** A run of no pages is nowhere. *)
  alloc_pages_none p :
    alloc_inv p → wp (alloc_pages 0 PAGE_SIZE) (λ a p', a = 0 ∧ p' = p) p;
  (** Freeing a page makes it, and nothing else, available; freeing one that
      is available is refused. *)
  free_page_law p a :
    alloc_inv p → 0 < a →
    wp (free_page a) (λ _ p',
      alloc_inv p' ∧
      (phys_page a → avail p' a) ∧
      (∀ b, avail p b → avail p' b) ∧
      (∀ b, avail p' b → avail p b ∨ b = a)) p;
}.

(** ** Runs of pages *)
Definition page_run (a n b : Z) : Prop := ∃ k, 0 ≤ k < n ∧ b = a + k * PAGE_SIZE.

Section runs.
Context {P : Type} `{PageAllocatorLaws P}.

(** Freeing a run page by page: the loops of [sched_reap] and of
    [Surface::drop]. *)
Lemma wp_free_run (p : P) a n :
  alloc_inv p → 0 < a → 0 ≤ n →
  wp (for_each 0 n (λ i, free_page (a + i * PAGE_SIZE))) (λ _ p',
    alloc_inv p' ∧
    (∀ b, page_run a n b → phys_page b → avail p' b) ∧
    (∀ b, avail p b → avail p' b) ∧
    (∀ b, avail p' b → avail p b ∨ page_run a n b)) p.
Proof.
  intros Hinv Ha Hn.
  apply (wp_for_each (λ k p', alloc_inv p' ∧
    (∀ b, page_run a k b → phys_page b → avail p' b) ∧
    (∀ b, avail p b → avail p' b) ∧
    (∀ b, avail p' b → avail p b ∨ page_run a k b))).
  - done.
  - split_and!; [done| |done|auto]. intros b (k & Hk & _). lia.
  - intros k p' Hk (Hinv' & Hin & Hmono & Hout).
    eapply wp_mono; [apply (free_page_law p' (a + k * PAGE_SIZE) Hinv'); unfold PAGE_SIZE; lia|].
    intros [] p2 (Hinv2 & Hfree & Hkeep & Hnew). split_and!; [done| | |].
    + intros b (j & Hj & ->) Hph. destruct (decide (j = k)) as [->|]; [auto|].
      apply Hkeep, Hin; [|done]. exists j. split; [lia|done].
    + intros b Hb. by apply Hkeep, Hmono.
    + intros b Hb. destruct (Hnew b Hb) as [Hb' | ->].
      * destruct (Hout b Hb') as [|(j & Hj & ->)]; [by left|].
        right. exists j. split; [lia|done].
      * right. exists k. split; [lia|done].
  - done.
Qed.

(** A run taken from [p] is given back: the same pages are available. *)
Lemma avail_restored (p p1 p2 : P) a n :
  alloc_inv p → (∀ k, 0 ≤ k < n → avail p (a + k * PAGE_SIZE)) →
  (∀ b, avail p1 b ↔ avail p b ∧ ∀ k, 0 ≤ k < n → b ≠ a + k * PAGE_SIZE) →
  (∀ b, page_run a n b → phys_page b → avail p2 b) →
  (∀ b, avail p1 b → avail p2 b) →
  (∀ b, avail p2 b → avail p1 b ∨ page_run a n b) →
  ∀ b, avail p2 b ↔ avail p b.
Proof.
  intros Hinv Hrun Htaken Hback Hmono Hnew b. split.
  - intros [Hb|(k & Hk & ->)]%Hnew; [by apply Htaken in Hb as [? _]|by apply Hrun].
  - intros Hb. destruct (decide (0 ≤ (b - a) / PAGE_SIZE < n ∧ (b - a) mod PAGE_SIZE = 0))
      as [[Hk Hmod]|Hout].
    + apply Hback; [|by eapply avail_page]. exists ((b - a) / PAGE_SIZE). split; [done|].
      pose proof (Z.div_mod (b - a) PAGE_SIZE). unfold PAGE_SIZE in *. lia.
    + apply Hmono, Htaken. split; [done|]. intros k Hk ->. apply Hout.
      unfold PAGE_SIZE in *. by rewrite Z.add_simpl_l, Z.div_mul, Z.mod_mul by done.
Qed.
End runs.
