(* ===== verification/Pmm.v ===== *)
(** * Physical page allocator ([kernel-rs/src/mm/pmm.rs])

    A bitmap of 131072 bits (512 MiB of 4 KiB pages), bit set = free, and the
    two counters.  The state is [pmm]; every function of the file is a
    computation over it.  The kernel log is not modelled. *)
From S2P Require Import Prelude PageAlloc.

Module Pmm.

Definition PMM_MAX_PHYS : Z := Z.shiftl 512 20.
Definition BITMAP_PAGES : Z := PMM_MAX_PHYS / PAGE_SIZE.
Definition BITMAP_WORDS : Z := BITMAP_PAGES / 64.

Record pmm := mkPmm {
  bitmap : list Z;
  total_pages : Z;
  free_pages : Z;
  hhdm_offset : Z;
}.

(** The static initialisers: everything used. *)
Definition pmm_zero : pmm := mkPmm (replicate (Z.to_nat BITMAP_WORDS) 0) 0 0 0.

Definition set_bitmap (b : list Z) (s : pmm) : pmm :=
  mkPmm b (total_pages s) (free_pages s) (hhdm_offset s).
Definition set_total (n : Z) (s : pmm) : pmm :=
  mkPmm (bitmap s) n (free_pages s) (hhdm_offset s).
Definition set_free (n : Z) (s : pmm) : pmm :=
  mkPmm (bitmap s) (total_pages s) n (hhdm_offset s).
Definition set_hhdm (n : Z) (s : pmm) : pmm :=
  mkPmm (bitmap s) (total_pages s) (free_pages s) n.

Definition pa_to_va (s : pmm) (pa : Z) : Z := u64 (pa + hhdm_offset s).
Definition va_to_pa (s : pmm) (va : Z) : Z := u64 (va - hhdm_offset s).

(** [1 << (i & 63)] *)
Definition bit_of (i : Z) : Z := Z.shiftl 1 (Z.land i 63).

Definition bm_set (i : Z) : M pmm unit :=
  w ← aget bitmap (Z.shiftr i 6);
  modify (λ s, set_bitmap (zset (bitmap s) (Z.shiftr i 6) (Z.lor w (bit_of i))) s).

Definition bm_clear (i : Z) : M pmm unit :=
  w ← aget bitmap (Z.shiftr i 6);
  modify (λ s, set_bitmap
    (zset (bitmap s) (Z.shiftr i 6) (Z.land w (u64_not (bit_of i)))) s).

Definition bm_test (i : Z) : M pmm bool :=
  w ← aget bitmap (Z.shiftr i 6);
  mret (negb (Z.land (Z.shiftr w (Z.land i 63)) 1 =? 0)).

(** An entry of the Limine memory map ([limine.rs], [MemmapEntry]). *)
Record memmap_entry := mkEntry { base : Z; length_ : Z; typ : Z }.
Definition LIMINE_MEMMAP_USABLE : Z := 0.

(** The inner loop of [init]: release the pages of [p..end]. *)
Definition init_region (fin : Z) (p : Z) : M pmm unit :=
  loop (Z.to_nat BITMAP_PAGES + 1) (λ p,
    if p <? fin then
      bm_set (p / PAGE_SIZE);;
      modify (λ s, set_free (u64 (free_pages s + 1)) s);;
      modify (λ s, set_total (u64 (total_pages s + 1)) s);;
      mret (inl (u64 (p + PAGE_SIZE)))
    else mret (inr tt)) p.

Definition init_entry (e : memmap_entry) : M pmm unit :=
  if negb (typ e =? LIMINE_MEMMAP_USABLE) then mret tt
  else
    let lo := page_up (base e) in
    let fin := page_down (u64 (base e + length_ e)) in
    let fin := if fin >? PMM_MAX_PHYS then PMM_MAX_PHYS else fin in
    if lo >=? fin then mret tt
    else init_region fin lo.

(** [init]: the two Limine responses are its input; without them the kernel
    stops for good. *)
Definition init (mm : option (list memmap_entry)) (hhdm : option Z) : M pmm unit :=
  match mm, hhdm with
  | Some entries, Some off =>
      modify (set_hhdm off);;
      for_each 0 (zlen entries) (λ i,
        e ← of_option (zget entries i);
        init_entry e)
  | _, _ => hang
  end.

Definition alloc_page : M pmm Z :=
  r ← for_range 0 BITMAP_WORDS (λ w,
    word ← aget bitmap w;
    if word =? 0 then mret None
    else
      let bit := trailing_zeros word in
      let idx := Z.shiftl w 6 + bit in
      bm_clear idx;;
      modify (λ s, set_free (u64 (free_pages s - 1)) s);;
      mret (Some (idx * PAGE_SIZE)));
  mret (default 0 r).

(** [while j < count { if !bm_test(i + j) { break; } j += 1; }] *)
Definition run_length (i count : Z) : M pmm Z :=
  loop (Z.to_nat count + 1) (λ j,
    if j <? count then
      t ← bm_test (i + j);
      if negb t then mret (inr j) else mret (inl (j + 1))
    else mret (inr j)) 0.

Definition alloc_pages_step (count align_pages i : Z) : M pmm (Z + Z) :=
  if u64 (i + count) <=? BITMAP_PAGES then
    if negb (i mod align_pages =? 0) then
      mret (inl (i - i mod align_pages + 1))
    else
      j ← run_length i count;
      if j =? count then
        for_each 0 count (λ k, bm_clear (i + k));;
        modify (λ s, set_free (u64 (free_pages s - count)) s);;
        mret (inr (i * PAGE_SIZE))
      else mret (inl (i + j + 1))
  else mret (inr 0).

Definition alloc_pages_fuel (fuel : nat) (count align : Z) : M pmm Z :=
  let align := Z.max align PAGE_SIZE in
  let align_pages := align / PAGE_SIZE in
  loop fuel (alloc_pages_step count align_pages) 0.

(** One more iteration than there are start positions. *)
Definition alloc_pages (count align : Z) : M pmm Z :=
  alloc_pages_fuel (Z.to_nat BITMAP_PAGES + 2) count align.

Definition free_page (pa : Z) : M pmm unit :=
  let idx := pa / PAGE_SIZE in
  (* [||] short-circuits: the bitmap is only read for an index in range *)
  bad ← (if negb (pa mod PAGE_SIZE =? 0) then mret true
         else if idx >=? BITMAP_PAGES then mret true
         else bm_test idx);
  if bad : bool then mret tt
  else
    bm_set idx;;
    modify (λ s, set_free (u64 (free_pages s + 1)) s).

Definition free_count : M pmm Z := gets free_pages.
Definition total_count : M pmm Z := gets total_pages.

(** ** The bitmap as a set of free pages *)
Definition page_free (s : pmm) (i : Z) : bool :=
  match zget (bitmap s) (Z.shiftr i 6) with
  | Some w => Z.testbit w (Z.land i 63)
  | None => false
  end.

Definition free_set (s : pmm) : list Z :=
  List.filter (page_free s) (seqZ 0 BITMAP_PAGES).

Record pmm_wf (s : pmm) : Prop := {
  wf_len : zlen (bitmap s) = BITMAP_WORDS;
  wf_word k w : zget (bitmap s) k = Some w → 0 ≤ w < 2 ^ 64;
}.

(** The counter agrees with the bitmap. *)
Definition pmm_inv (s : pmm) : Prop :=
  pmm_wf s ∧ free_pages s = zlen (free_set s).

Lemma BITMAP_PAGES_val : BITMAP_PAGES = 131072.
Proof. reflexivity. Qed.
Lemma BITMAP_WORDS_val : BITMAP_WORDS = 2048.
Proof. reflexivity. Qed.
(** Keeps conversion from building 131072-element ranges. *)
#[global] Opaque BITMAP_PAGES BITMAP_WORDS.

Ltac pmm_arith :=
  pose proof BITMAP_PAGES_val; pose proof BITMAP_WORDS_val; unfold PAGE_SIZE in *; lia.

Lemma shiftr6 i : Z.shiftr i 6 = i / 64.
Proof. by rewrite Z.shiftr_div_pow2. Qed.
Lemma land63 i : Z.land i 63 = i mod 64.
Proof. change 63 with (Z.ones 6). by rewrite Z.land_ones. Qed.

Lemma word_in_range i : 0 ≤ i < BITMAP_PAGES → 0 ≤ Z.shiftr i 6 < BITMAP_WORDS.
Proof.
  intros Hi. rewrite shiftr6. split; [apply Z.div_pos; lia|].
  apply Z.div_lt_upper_bound; pmm_arith.
Qed.

Lemma bit_of_spec i k : 0 ≤ k → Z.testbit (bit_of i) k = (k =? Z.land i 63).
Proof.
  intros Hk. unfold bit_of. rewrite Z.shiftl_spec, land63 by done.
  pose proof (Z.mod_pos_bound i 64 eq_refl).
  destruct (Z.eqb_spec k (i mod 64)) as [->|Hne].
  - by rewrite Z.sub_diag.
  - destruct (Z.lt_ge_cases (k - i mod 64) 0).
    + by rewrite Z.testbit_neg_r by lia.
    + by rewrite Z.bits_above_log2 by (simpl; lia).
Qed.

Lemma bit_of_range i : 0 ≤ bit_of i < 2 ^ 64.
Proof.
  unfold bit_of. rewrite land63, Z.shiftl_1_l.
  pose proof (Z.mod_pos_bound i 64 eq_refl).
  split; [apply Z.pow_nonneg; lia|]. apply Z.pow_lt_mono_r; lia.
Qed.

Lemma page_split i j : Z.shiftr i 6 = Z.shiftr j 6 → Z.land i 63 = Z.land j 63 → i = j.
Proof.
  rewrite !shiftr6, !land63. intros H1 H2.
  rewrite (Z.div_mod i 64), (Z.div_mod j 64) by done. lia.
Qed.

Lemma page_free_range s i : pmm_wf s → page_free s i = true → 0 ≤ i < BITMAP_PAGES.
Proof.
  intros Hwf. unfold page_free. destruct (zget _ _) as [w|] eqn:E; [|done].
  apply zget_Some_lt in E. rewrite (wf_len _ Hwf), shiftr6 in E. intros _.
  pose proof (Z.div_mod i 64). pose proof (Z.mod_pos_bound i 64). pmm_arith.
Qed.

(** What replacing the word of page [i] does to the set. *)
Lemma page_free_word s i w v j :
  pmm_wf s → 0 ≤ i < BITMAP_PAGES →
  zget (bitmap s) (Z.shiftr i 6) = Some w →
  (∀ k, 0 ≤ k → k ≠ Z.land i 63 → Z.testbit v k = Z.testbit w k) →
  page_free (set_bitmap (zset (bitmap s) (Z.shiftr i 6) v) s) j =
  if j =? i then Z.testbit v (Z.land i 63) else page_free s j.
Proof.
  intros Hwf Hi Hw Hv. unfold page_free. simpl.
  rewrite zget_zset by (rewrite (wf_len _ Hwf); by apply word_in_range).
  destruct (Z.eqb_spec j i) as [->|Hne].
  - by rewrite decide_True.
  - case_decide as Hd; [|done]. rewrite <- Hd, Hw. apply Hv.
    + rewrite land63. apply Z.mod_pos_bound. done.
    + intros Heq. by apply Hne, page_split.
Qed.

Lemma wf_set_word s k v :
  pmm_wf s → 0 ≤ k < BITMAP_WORDS → 0 ≤ v < 2 ^ 64 →
  pmm_wf (set_bitmap (zset (bitmap s) k v) s).
Proof.
  intros Hwf Hk Hv. split; simpl.
  - rewrite zlen_zset. apply Hwf.
  - intros k' w. rewrite zget_zset by (by rewrite (wf_len _ Hwf)).
    case_decide; [congruence|]. apply Hwf.
Qed.

(** The two bitmap updates, as functions on the set of free pages. *)
Definition bitmap_update (s s' : pmm) (f : Z → bool → bool) : Prop :=
  ∃ b, s' = set_bitmap b s ∧ pmm_wf s' ∧ ∀ j, page_free s' j = f j (page_free s j).

Lemma wp_bm_set i s :
  pmm_wf s → 0 ≤ i < BITMAP_PAGES →
  wp (bm_set i) (λ _ s', bitmap_update s s' (λ j b, (j =? i) || b)) s.
Proof.
  intros Hwf Hi. unfold bm_set.
  destruct (zget_lt (bitmap s) (Z.shiftr i 6)) as [w Hw].
  { rewrite (wf_len _ Hwf). by apply word_in_range. }
  pose proof (wf_word _ Hwf _ _ Hw) as Hr. pose proof (bit_of_range i).
  wp_run. apply wp_aget. exists w. split; [done|]. wp_run.
  eexists. split; [done|]. split.
  - apply wf_set_word; [done|by apply word_in_range|]. split.
    + apply Z.lor_nonneg. lia.
    + apply u64_of_bits; [apply Z.lor_nonneg; lia|]. intros k Hk.
      rewrite Z.lor_spec, !testbit_u64_high by (done || lia). done.
  - intros j. rewrite (page_free_word s i w) by
      first [done | intros k Hk Hne; rewrite Z.lor_spec, bit_of_spec by done;
        destruct (Z.eqb_spec k (Z.land i 63)); [done|apply orb_false_r]].
    destruct (j =? i); [|done].
    rewrite Z.lor_spec, bit_of_spec, Z.eqb_refl by
      (rewrite land63; by apply Z.mod_pos_bound).
    apply orb_true_r.
Qed.

Lemma wp_bm_clear i s :
  pmm_wf s → 0 ≤ i < BITMAP_PAGES →
  wp (bm_clear i) (λ _ s', bitmap_update s s' (λ j b, negb (j =? i) && b)) s.
Proof.
  intros Hwf Hi. unfold bm_clear.
  destruct (zget_lt (bitmap s) (Z.shiftr i 6)) as [w Hw].
  { rewrite (wf_len _ Hwf). by apply word_in_range. }
  pose proof (wf_word _ Hwf _ _ Hw) as Hr. pose proof (bit_of_range i) as Hb.
  assert (∀ k, 0 ≤ k → Z.testbit (Z.land w (u64_not (bit_of i))) k =
                       Z.testbit w k && negb (k =? Z.land i 63)) as Hbits.
  { intros k Hk. rewrite Z.land_spec, u64_not_spec, bit_of_spec by done.
    destruct (Z.ltb_spec k 64); [by rewrite andb_true_r|].
    by rewrite (testbit_u64_high w) by (done || lia). }
  wp_run. apply wp_aget. exists w. split; [done|]. wp_run.
  eexists. split; [done|]. split.
  - apply wf_set_word; [done|by apply word_in_range|]. split.
    + apply Z.land_nonneg. lia.
    + apply u64_of_bits; [apply Z.land_nonneg; lia|]. intros k Hk.
      rewrite Hbits, (testbit_u64_high w) by (done || lia). done.
  - intros j. rewrite (page_free_word s i w) by
      first [done | intros k Hk Hne; rewrite Hbits by done;
        destruct (Z.eqb_spec k (Z.land i 63)); [done|apply andb_true_r]].
    destruct (j =? i); [|done].
    rewrite Hbits, Z.eqb_refl by (rewrite land63; by apply Z.mod_pos_bound).
    apply andb_false_r.
Qed.

Lemma wp_bm_test i s :
  pmm_wf s → 0 ≤ i < BITMAP_PAGES →
  wp (bm_test i) (λ b s', s' = s ∧ b = page_free s i) s.
Proof.
  intros Hwf Hi. unfold bm_test, page_free.
  destruct (zget_lt (bitmap s) (Z.shiftr i 6)) as [w Hw].
  { rewrite (wf_len _ Hwf). by apply word_in_range. }
  wp_run. apply wp_aget. exists w. split; [done|]. wp_run. split; [done|].
  rewrite Hw. change 1 with (Z.ones 1). rewrite Z.land_ones by done.
  change (2 ^ 1) with 2. rewrite <- Z.bit0_mod, Z.shiftr_spec, Z.add_0_l by done.
  by destruct (Z.testbit w _).
Qed.

(** ** The counter *)
Lemma elem_of_free_set s i : pmm_wf s → i ∈ free_set s ↔ page_free s i = true.
Proof.
  intros Hwf. unfold free_set.
  rewrite list_elem_of_In, filter_In, <- list_elem_of_In, elem_of_seqZ.
  split; [by intros [_ ?]|]. intros H. split; [|done].
  pose proof (page_free_range s i Hwf H). lia.
Qed.

Lemma free_set_flip s s' i :
  0 ≤ i < BITMAP_PAGES → page_free s i = false → page_free s' i = true →
  (∀ j, j ≠ i → page_free s j = page_free s' j) →
  zlen (free_set s') = zlen (free_set s) + 1.
Proof.
  intros Hi H1 H2 H3. unfold zlen, free_set.
  rewrite (count_flip _ (page_free s) (page_free s') i); try done.
  - lia.
  - apply NoDup_seqZ.
  - apply elem_of_seqZ. lia.
Qed.

Lemma free_set_bound s : 0 ≤ zlen (free_set s) ≤ BITMAP_PAGES.
Proof.
  unfold zlen, free_set.
  pose proof (List.filter_length_le (page_free s) (seqZ 0 BITMAP_PAGES)) as H.
  rewrite length_seqZ in H. pmm_arith.
Qed.

Lemma free_set_ext s s' : bitmap s = bitmap s' → free_set s = free_set s'.
Proof.
  intros H. unfold free_set. apply List.filter_ext. intros i.
  unfold page_free. by rewrite H.
Qed.

Lemma inv_intro s n : pmm_wf s → n = zlen (free_set s) → pmm_inv (set_free n s).
Proof.
  intros Hwf ->. split; [by split; apply Hwf|].
  simpl. f_equal.
Qed.

(** Taking page [i] out, or putting it back, with its counter update. *)
Lemma inv_take s s' i :
  pmm_inv s → page_free s i = true →
  bitmap_update s s' (λ j b, negb (j =? i) && b) →
  pmm_inv (set_free (u64 (free_pages s' - 1)) s') ∧
  u64 (free_pages s' - 1) = free_pages s - 1.
Proof.
  intros [Hwf Hc] Hi (b & -> & Hwf' & Hf).
  pose proof (page_free_range _ _ Hwf Hi) as Hr.
  assert (zlen (free_set s) = zlen (free_set (set_bitmap b s)) + 1) as Hcount.
  { eapply (free_set_flip _ s i); [done| |done|].
    - by rewrite Hf, Z.eqb_refl.
    - intros j Hj. rewrite Hf. by rewrite (proj2 (Z.eqb_neq j i)). }
  pose proof (free_set_bound (set_bitmap b s)). simpl.
  rewrite u64_id by pmm_arith. split; [|lia].
  apply inv_intro; [done|lia].
Qed.

Lemma inv_put s s' i :
  pmm_inv s → 0 ≤ i < BITMAP_PAGES → page_free s i = false →
  bitmap_update s s' (λ j b, (j =? i) || b) →
  pmm_inv (set_free (u64 (free_pages s' + 1)) s') ∧
  u64 (free_pages s' + 1) = free_pages s + 1.
Proof.
  intros [Hwf Hc] Hr Hi (b & -> & Hwf' & Hf).
  assert (zlen (free_set (set_bitmap b s)) = zlen (free_set s) + 1) as Hcount.
  { eapply (free_set_flip s _ i); [done|done| |].
    - by rewrite Hf, Z.eqb_refl.
    - intros j Hj. rewrite Hf. by rewrite (proj2 (Z.eqb_neq j i)). }
  pose proof (free_set_bound s). simpl.
  rewrite u64_id by pmm_arith. split; [|lia].
  apply inv_intro; [done|lia].
Qed.

(** ** [alloc_page] and [free_page] *)

Lemma word_zero_free s w :
  zget (bitmap s) w = Some 0 → ∀ j, Z.shiftr j 6 = w → page_free s j = false.
Proof. intros Hw j <-. unfold page_free. by rewrite Hw, Z.bits_0. Qed.

Lemma wp_alloc_page s :
  pmm_inv s →
  wp alloc_page (λ a s', pmm_inv s' ∧
    ((a = 0 ∧ s' = s ∧ ∀ i, page_free s i = false) ∨
     ∃ i, a = i * PAGE_SIZE ∧ page_free s i = true ∧
          (∀ j, j < i → page_free s j = false) ∧
          free_pages s' = free_pages s - 1 ∧
          ∀ j, page_free s' j = negb (j =? i) && page_free s j)) s.
Proof.
  intros Hinv. pose proof (proj1 Hinv) as Hwf. unfold alloc_page. wp_run.
  eapply (wp_for_range (λ w s', s' = s ∧ ∀ j, Z.shiftr j 6 < w → page_free s j = false));
    [done|split; [done|]| |].
  - intros j Hj. unfold page_free. by rewrite (proj2 (zget_None _ _)) by lia.
  - intros w s' Hw [-> Hnone].
    destruct (zget_lt (bitmap s) w) as [word Hword]; [by rewrite (wf_len _ Hwf)|].
    pose proof (wf_word _ Hwf _ _ Hword) as Hr.
    wp_run. apply wp_aget. exists word. split; [done|].
    destruct (Z.eqb_spec word 0) as [->|Hne]; wp_run.
    { split; [done|]. intros j Hj. destruct (decide (Z.shiftr j 6 = w)).
      - by eapply word_zero_free.
      - apply Hnone. lia. }
    destruct (trailing_zeros_spec word) as (Hb & Hbit & Hlow); [lia|].
    set (bit := trailing_zeros word) in *. set (idx := Z.shiftl w 6 + bit).
    assert (idx = 64 * w + bit) as Hidx.
    { unfold idx. rewrite Z.shiftl_mul_pow2 by done. lia. }
    assert (Z.shiftr idx 6 = w) as Hs.
    { rewrite shiftr6, Hidx. symmetry. by apply Z.div_unique with bit; lia. }
    assert (Z.land idx 63 = bit) as Hl.
    { rewrite land63, Hidx. symmetry. by apply Z.mod_unique with w; lia. }
    assert (page_free s idx = true) as Hfree.
    { unfold page_free. by rewrite Hs, Hword, Hl. }
    wp_use wp_bm_clear; [done|by eapply page_free_range|].
    intros _ s1 Hup. wp_run.
    destruct (inv_take s s1 idx Hinv Hfree Hup) as [Hinv' Hcount].
    split; [done|]. right. exists idx. split_and!; [done|done| |done|].
    + intros j Hj. destruct (decide (Z.shiftr j 6 = w)) as [Hjw|].
      * unfold page_free. rewrite Hjw, Hword. apply Hlow.
        rewrite land63. rewrite shiftr6 in Hjw.
        pose proof (Z.div_mod j 64). pose proof (Z.mod_pos_bound j 64). lia.
      * apply Hnone. rewrite shiftr6 in *.
        assert (j / 64 ≤ idx / 64) by (apply Z.div_le_mono; lia). lia.
    + destruct Hup as (b & -> & _ & Hf). apply Hf.
  - intros s' [-> Hnone]. wp_run. split; [done|]. left. split_and!; [done|done|].
    intros i. destruct (page_free s i) eqn:E; [|done].
    pose proof (page_free_range s i Hwf E) as Hr.
    rewrite Hnone in E; [done|]. by apply word_in_range.
Qed.

Lemma wp_free_page s pa :
  pmm_inv s → 0 ≤ pa →
  let i := pa / PAGE_SIZE in
  wp (free_page pa) (λ _ s', pmm_inv s' ∧
    ((pa mod PAGE_SIZE = 0 ∧ i < BITMAP_PAGES ∧ page_free s i = false ∧
      free_pages s' = free_pages s + 1 ∧
      ∀ j, page_free s' j = (j =? i) || page_free s j) ∨
     ((pa mod PAGE_SIZE ≠ 0 ∨ BITMAP_PAGES ≤ i ∨ page_free s i = true) ∧ s' = s))) s.
Proof.
  intros Hinv Hpa i. pose proof (proj1 Hinv) as Hwf. unfold free_page. fold i. cbv zeta.
  assert (0 ≤ i) as Hi by (apply Z.div_pos; unfold PAGE_SIZE; lia).
  wp_run. destruct (Z.eqb_spec (pa mod PAGE_SIZE) 0) as [Hal|Hal]; simpl.
  2: { wp_run. auto 6. }
  destruct (i >=? BITMAP_PAGES) eqn:Hr; rewrite Z.geb_leb in Hr.
  { wp_run. apply Z.leb_le in Hr. auto 6. }
  apply Z.leb_gt in Hr. wp_use wp_bm_test; [done|lia|].
  intros t s1 [-> ->]. destruct (page_free s i) eqn:Hf; wp_run; [auto 6|].
  wp_use wp_bm_set; [done|lia|]. intros _ s1 Hup. wp_run.
  destruct (inv_put s s1 i Hinv) as [Hinv' Hcount]; [lia|done|done|].
  split; [done|]. left. split_and!; try done.
  destruct Hup as (b & -> & _ & Hf'). apply Hf'.
Qed.

(** ** [alloc_pages] *)
Definition is_run (s : pmm) (b n : Z) : Prop :=
  ∀ k, 0 ≤ k < n → page_free s (b + k) = true.

Lemma wp_run_length s i count :
  pmm_wf s → 0 ≤ i → 0 ≤ count → i + count ≤ BITMAP_PAGES →
  wp (run_length i count) (λ j s', s' = s ∧ 0 ≤ j ≤ count ∧ is_run s i j ∧
    (j < count → page_free s (i + j) = false)) s.
Proof.
  intros Hwf Hi Hc Hr. unfold run_length.
  apply (wp_loop (λ j s', s' = s ∧ 0 ≤ j ≤ count ∧ is_run s i j)
    (λ j, Z.to_nat (count - j))).
  - split_and!; [done|lia|lia|]. intros k Hk. lia.
  - lia.
  - intros j s' (-> & Hj & Hrun). destruct (Z.ltb_spec j count).
    2: { wp_run. split_and!; try done; lia. }
    wp_run. wp_use wp_bm_test; [done|lia|]. intros t s' [-> ->].
    destruct (page_free s (i + j)) eqn:Hf; wp_run.
    + split; [|lia]. split_and!; [done|lia|lia|]. intros k Hk.
      destruct (decide (k = j)) as [->|]; [done|]. apply Hrun. lia.
    + split_and!; try done; lia.
Qed.

(** Taking out a whole run, one page at a time. *)
Lemma wp_clear_run s i count :
  pmm_inv s → 0 ≤ i → 0 ≤ count → i + count ≤ BITMAP_PAGES → is_run s i count →
  wp (for_each 0 count (λ k, bm_clear (i + k))) (λ _ s',
    bitmap_update s s' (λ j b, negb ((i <=? j) && (j <? i + count)) && b) ∧
    zlen (free_set s) = zlen (free_set s') + count) s.
Proof.
  intros [Hwf _] Hi Hc Hr Hrun.
  apply (wp_for_each (λ k s',
    bitmap_update s s' (λ j b, negb ((i <=? j) && (j <? i + k)) && b) ∧
    zlen (free_set s) = zlen (free_set s') + k)); [done| | |done].
  - split; [|lia]. exists (bitmap s). split; [by destruct s|]. split; [done|].
    intros j. destruct (Z.leb_spec i j), (Z.ltb_spec j (i + 0)); simpl; done || lia.
  - intros k s1 Hk [(b & -> & Hwf1 & Hf1) Hcount].
    wp_use wp_bm_clear; [done|lia|]. intros _ s2 (b2 & -> & Hwf2 & Hf2).
    assert (page_free (set_bitmap b s) (i + k) = true) as Hik.
    { rewrite Hf1, Hrun by lia.
      destruct (Z.leb_spec i (i + k)), (Z.ltb_spec (i + k) (i + k)); simpl; done || lia. }
    split.
    + exists b2. split; [done|]. split; [done|]. intros j. rewrite Hf2, Hf1.
      destruct (Z.eqb_spec j (i + k)), (Z.leb_spec i j), (Z.ltb_spec j (i + k)),
        (Z.ltb_spec j (i + (k + 1))); simpl; done || lia.
    + rewrite Hcount.
      rewrite (free_set_flip (set_bitmap b2 (set_bitmap b s)) (set_bitmap b s) (i + k));
        [lia|lia| |done|].
      * by rewrite Hf2, Z.eqb_refl.
      * intros j Hj. rewrite Hf2. by rewrite (proj2 (Z.eqb_neq j (i + k))).
Qed.

Lemma wp_alloc_pages s count :
  pmm_inv s → 0 < count < 2 ^ 63 →
  wp (alloc_pages count PAGE_SIZE) (λ a s', pmm_inv s' ∧
    ((a = 0 ∧ s' = s ∧
      ∀ b, 0 ≤ b → b + count ≤ BITMAP_PAGES → ¬ is_run s b count) ∨
     ∃ i, 0 ≤ i ∧ i + count ≤ BITMAP_PAGES ∧ a = i * PAGE_SIZE ∧ is_run s i count ∧
          (∀ b, 0 ≤ b < i → ¬ is_run s b count) ∧
          free_pages s' = free_pages s - count ∧
          ∀ j, page_free s' j =
               negb ((i <=? j) && (j <? i + count)) && page_free s j)) s.
Proof.
  intros Hinv Hc. pose proof (proj1 Hinv) as Hwf. pose proof BITMAP_PAGES_val.
  unfold alloc_pages, alloc_pages_fuel. change (Z.max PAGE_SIZE PAGE_SIZE / PAGE_SIZE) with 1.
  cbv zeta.
  apply (wp_loop (λ i s', s' = s ∧ 0 ≤ i ≤ BITMAP_PAGES ∧
      ∀ b, 0 ≤ b < i → ¬ is_run s b count)
    (λ i, Z.to_nat (BITMAP_PAGES + 1 - i))).
  - split_and!; [done|lia|lia|]. intros b Hb. lia.
  - lia.
  - intros i s' (-> & Hi & Hno). unfold alloc_pages_step.
    rewrite u64_id by lia. rewrite Z.mod_1_r. simpl.
    destruct (Z.leb_spec (i + count) BITMAP_PAGES) as [Hle|Hgt].
    2: { wp_run. split; [done|]. left. split_and!; [done|done|].
         intros b Hb Hbc. apply Hno. lia. }
    wp_run. wp_use wp_run_length; [done|lia|lia|lia|].
    intros j s' (-> & Hj & Hrun & Hstop).
    destruct (Z.eqb_spec j count) as [->|Hne]; wp_run.
    + wp_use wp_clear_run; [done|lia|lia|lia|done|].
      intros _ s' [(b & -> & Hwf' & Hf) Hcount]. wp_run.
      destruct Hinv as [_ Hfc].
      pose proof (free_set_bound s). pose proof (free_set_bound (set_bitmap b s)).
      simpl. rewrite u64_id by lia.
      split; [apply inv_intro; [done|lia]|].
      right. exists i. split_and!; try done; lia.
    + split; [|lia]. split_and!; [done|lia|lia|].
      intros b Hb Hr. destruct (decide (b < i)); [by apply (Hno b); [lia|]|].
      specialize (Hr (i + j - b)). rewrite Z.add_sub_assoc in Hr.
      replace (b + (i + j) - b) with (i + j) in Hr by lia.
      rewrite Hstop in Hr by lia. discriminate Hr. lia.
Qed.

(** ** [init] *)

(** Page [j] lies entirely inside the usable entry [e] and below the cap. *)
Definition usable_page (e : memmap_entry) (j : Z) : Prop :=
  typ e = LIMINE_MEMMAP_USABLE ∧ 0 ≤ j < BITMAP_PAGES ∧
  base e ≤ j * PAGE_SIZE ∧ (j + 1) * PAGE_SIZE ≤ base e + length_ e.

(** Entries do not wrap around the address space. *)
Definition entry_ok (e : memmap_entry) : Prop :=
  0 ≤ base e ∧ 0 ≤ length_ e ∧ base e + length_ e + PAGE_SIZE ≤ 2 ^ 64.

(** Pages [lo, q) of a region, with both counters moved along. *)
Definition region_done (s s' : pmm) (lo q : Z) : Prop :=
  pmm_inv s' ∧ total_pages s' = total_pages s + (q - lo) ∧
  free_pages s' = free_pages s + (q - lo) ∧
  hhdm_offset s' = hhdm_offset s ∧
  ∀ j, page_free s' j = ((lo <=? j) && (j <? q)) || page_free s j.

Lemma wp_init_region s lo f :
  pmm_inv s → 0 ≤ lo ≤ f → f ≤ BITMAP_PAGES →
  (∀ j, lo ≤ j < f → page_free s j = false) →
  0 ≤ total_pages s → total_pages s + (f - lo) < 2 ^ 64 →
  wp (init_region (f * PAGE_SIZE) (lo * PAGE_SIZE)) (λ _ s', region_done s s' lo f) s.
Proof.
  intros Hinv Hlo Hf Hused Ht Ht'. unfold init_region. pose proof BITMAP_PAGES_val.
  apply (wp_loop (λ p s', ∃ q, p = q * PAGE_SIZE ∧ lo ≤ q ≤ f ∧ region_done s s' lo q)
    (λ p, Z.to_nat (f - p / PAGE_SIZE))).
  - exists lo. split; [done|]. split; [lia|]. split_and!; [done|lia|lia|done|].
    intros j. destruct (Z.leb_spec lo j), (Z.ltb_spec j lo); simpl; done || lia.
  - rewrite Z.div_mul by done. lia.
  - intros p s1 (q & -> & Hq & Hinv1 & Htot & Hfr & Hoff & Hfree).
    destruct (Z.ltb_spec (q * PAGE_SIZE) (f * PAGE_SIZE)) as [Hlt|Hge].
    2: { assert (q = f) as -> by (unfold PAGE_SIZE in *; lia). wp_run. by split_and!. }
    assert (q < f) by (unfold PAGE_SIZE in *; lia).
    wp_run. rewrite Z.div_mul by done.
    wp_use wp_bm_set; [apply Hinv1|lia|]. intros _ s2 Hup. wp_run.
    assert (page_free s1 q = false) as Hqf.
    { rewrite Hfree, Hused by lia.
      destruct (Z.leb_spec lo q), (Z.ltb_spec q q); simpl; done || lia. }
    destruct (inv_put s1 s2 q Hinv1) as [Hinv2 Hcount]; [lia|done|done|].
    destruct Hup as (b & -> & Hwf2 & Hf2).
    rewrite u64_id by (unfold PAGE_SIZE; lia).
    split; [|replace (q * PAGE_SIZE + PAGE_SIZE) with ((q + 1) * PAGE_SIZE) by lia;
             rewrite !Z.div_mul by done; lia].
    exists (q + 1). split; [lia|]. split; [lia|]. simpl. rewrite (u64_id (total_pages s1 + 1)) by lia.
    split_and!; simpl; [|lia| |done|].
    + by split; [split; apply Hwf2|apply (proj2 Hinv2)].
    + simpl in Hcount. lia.
    + intros j. transitivity (page_free (set_bitmap b s1) j); [reflexivity|].
      rewrite Hf2, Hfree.
      destruct (Z.eqb_spec j q), (Z.leb_spec lo j), (Z.ltb_spec j q), (Z.ltb_spec j (q + 1));
        simpl; done || lia.
Qed.

(** The rounding and the cap of [init_entry] select exactly the usable pages. *)
Lemma usable_page_bounds e j :
  entry_ok e → typ e = LIMINE_MEMMAP_USABLE →
  let lo := page_up (base e) in
  let fin := Z.min (page_down (base e + length_ e)) PMM_MAX_PHYS in
  usable_page e j ↔ lo ≤ j * PAGE_SIZE < fin.
Proof.
  intros (H1 & H2 & H3) Ht lo fin. unfold usable_page.
  assert (lo = page_down (base e + PAGE_SIZE - 1)) as ->.
  { unfold lo, page_up. rewrite u64_id; [done|]. unfold PAGE_SIZE in *. lia. }
  destruct (page_down_bounds (base e + PAGE_SIZE - 1)) as [Hlo Hlo'];
    [unfold PAGE_SIZE in *; lia|].
  destruct (page_down_bounds (base e + length_ e)) as [Hfin Hfin'];
    [unfold PAGE_SIZE in *; lia|].
  pose proof (Z.div_mod (page_down (base e + PAGE_SIZE - 1)) PAGE_SIZE ltac:(done)) as Hd1.
  pose proof (Z.div_mod (page_down (base e + length_ e)) PAGE_SIZE ltac:(done)) as Hd2.
  assert (PMM_MAX_PHYS = BITMAP_PAGES * PAGE_SIZE) as Hcap by reflexivity.
  unfold fin. unfold PAGE_SIZE in *. rewrite Hcap. pose proof BITMAP_PAGES_val. lia.
Qed.

Lemma wp_init_entry e s :
  pmm_inv s → entry_ok e →
  (∀ j, usable_page e j → page_free s j = false) →
  0 ≤ total_pages s → total_pages s + BITMAP_PAGES < 2 ^ 64 →
  wp (init_entry e) (λ _ s', pmm_inv s' ∧ hhdm_offset s' = hhdm_offset s ∧
    total_pages s' - total_pages s = free_pages s' - free_pages s ∧
    ∀ j, page_free s' j = true ↔ usable_page e j ∨ page_free s j = true) s.
Proof.
  intros Hinv Hok Hused Ht Ht'. unfold init_entry.
  destruct (Z.eqb_spec (typ e) LIMINE_MEMMAP_USABLE) as [Hty|Hty]; simpl.
  2: { wp_run. split_and!; [done|done|lia|]. intros j. unfold usable_page. tauto. }
  pose proof (usable_page_bounds e) as Hb. cbv zeta in Hb.
  destruct Hok as (H1 & H2 & H3). rewrite (u64_id (base e + length_ e)) by (unfold PAGE_SIZE in *; lia).
  set (lo := page_up (base e)) in *.
  replace (if page_down (base e + length_ e) >? PMM_MAX_PHYS then PMM_MAX_PHYS
           else page_down (base e + length_ e))
    with (Z.min (page_down (base e + length_ e)) PMM_MAX_PHYS)
    by (rewrite Z.gtb_ltb; destruct (Z.ltb_spec PMM_MAX_PHYS (page_down (base e + length_ e))); lia).
  set (fin := Z.min _ _) in *. rewrite Z.geb_leb.
  destruct (Z.leb_spec fin lo) as [Hle|Hlt].
  { wp_run. split_and!; [done|done|lia|]. intros j. rewrite Hb by done. split; [tauto|].
    intros [?|?]; [lia|done]. }
  assert (∃ l, lo = l * PAGE_SIZE ∧ 0 ≤ l) as (l & Hl & Hl0).
  { destruct (page_down_bounds (u64 (base e + PAGE_SIZE - 1)) (u64_range _)) as [Hr Hm].
    apply Z.mod_divide in Hm as [l Hl]; [|done]. exists l. split; [done|].
    pose proof (u64_range (base e + PAGE_SIZE - 1)). unfold PAGE_SIZE in *. lia. }
  assert (∃ f, fin = f * PAGE_SIZE ∧ f ≤ BITMAP_PAGES) as (f & Hf & Hf0).
  { destruct (page_down_bounds (base e + length_ e)) as [Hr Hm]; [unfold PAGE_SIZE in *; lia|].
    apply Z.mod_divide in Hm as [f Hf]; [|done].
    assert (PMM_MAX_PHYS = BITMAP_PAGES * PAGE_SIZE) as Hcap by reflexivity.
    exists (Z.min f BITMAP_PAGES). unfold fin. rewrite Hf, Hcap. unfold PAGE_SIZE. lia. }
  rewrite Hf, Hl in *. wp_use (wp_init_region s l f); [done| |done| |done| |].
  - unfold PAGE_SIZE in *; lia.
  - intros j Hj. apply Hused, Hb; [done|done|]. unfold PAGE_SIZE in *; lia.
  - lia.
  - intros _ s' (Hinv' & Htot & Hfr & Hoff & Hfree).
    assert (∀ j, page_free s' j = true ↔ usable_page e j ∨ page_free s j = true) as Hiff.
    { intros j. rewrite Hfree, orb_true_iff, andb_true_iff, Z.leb_le, Z.ltb_lt, Hb by done.
      unfold PAGE_SIZE in *. split; intros [?|?]; auto; left; lia. }
    split_and!; [done|done|lia|done].
Qed.

Lemma pmm_zero_free off j : page_free (set_hhdm off pmm_zero) j = false.
Proof.
  unfold page_free. cbn [bitmap set_hhdm pmm_zero]. rewrite zget_replicate.
  case_decide; [apply Z.bits_0|done].
Qed.

Lemma pmm_zero_inv off : pmm_inv (set_hhdm off pmm_zero).
Proof.
  split; [split|]; cbn [bitmap set_hhdm pmm_zero free_pages].
  - rewrite zlen_replicate, Z2Nat.id by pmm_arith. done.
  - intros k w. rewrite zget_replicate. case_decide; [|done]. intros [= <-]. lia.
  - unfold free_set. rewrite (List.filter_ext _ (λ _, false)) by (intros; apply pmm_zero_free).
    generalize (seqZ 0 BITMAP_PAGES). intros l. by induction l.
Qed.

Lemma wp_pmm_init entries off s :
  s = pmm_zero →
  Forall entry_ok entries →
  (∀ i k e f j, entries !! i = Some e → entries !! k = Some f → i ≠ k →
     usable_page e j → ¬ usable_page f j) →
  wp (init (Some entries) (Some off)) (λ _ s', pmm_inv s' ∧ hhdm_offset s' = off ∧
    total_pages s' = free_pages s' ∧
    ∀ j, page_free s' j = true ↔ Exists (λ e, usable_page e j) entries) s.
Proof.
  intros -> Hok Hdisj. unfold init. wp_run. pose proof BITMAP_PAGES_val.
  set (seen := λ (i j : Z), ∃ k e, entries !! k = Some e ∧ Z.of_nat k < i ∧ usable_page e j).
  apply (wp_for_each (λ i s', pmm_inv s' ∧ hhdm_offset s' = off ∧
    total_pages s' = free_pages s' ∧ ∀ j, page_free s' j = true ↔ seen i j)).
  - apply zlen_nonneg.
  - split_and!; [apply pmm_zero_inv|reflexivity|reflexivity|].
    intros j. rewrite pmm_zero_free. split; [done|]. intros (k & ? & ? & ? & _). lia.
  - intros i s1 Hi (Hinv & Hoff & Htot & Hfree).
    destruct (zget_lt entries i Hi) as [e He]. wp_run. apply wp_of_option.
    exists e. split; [done|].
    assert (entries !! Z.to_nat i = Some e) as Hei.
    { unfold zget in He. by rewrite decide_True in He by lia. }
    pose proof (free_set_bound s1). pose proof (proj1 (Forall_lookup _ _) Hok _ _ Hei) as Heok.
    wp_use wp_init_entry; [done|done| |rewrite Htot, (proj2 Hinv); lia
                          |rewrite Htot, (proj2 Hinv); lia|].
    + intros j Hj. apply not_true_iff_false. rewrite Hfree.
      intros (k & f & Hk & Hlt & Hjf). eapply (Hdisj k (Z.to_nat i)); [done|done|lia|done|done].
    + intros _ s2 (Hinv2 & Hoff2 & Hcnt & Hfree2).
      split_and!; [done|congruence|lia|]. intros j. rewrite Hfree2, Hfree. split.
      * intros [Hj|(k & f & Hk & Hlt & Hj)].
        -- exists (Z.to_nat i), e. split_and!; [done|lia|done].
        -- exists k, f. split_and!; [done|lia|done].
      * intros (k & f & Hk & Hlt & Hj). destruct (decide (k = Z.to_nat i)) as [->|Hne].
        -- left. congruence.
        -- right. exists k, f. split_and!; [done|lia|done].
  - intros s' (Hinv & Hoff & Htot & Hfree). split_and!; try done.
    intros j. rewrite Hfree, Exists_exists. split.
    + intros (k & e & Hk & _ & Hj). exists e. split; [by eapply list_elem_of_lookup_2|done].
    + intros (e & [k Hk]%list_elem_of_lookup_1 & Hj). exists k, e. split_and!; [done| |done].
      apply lookup_lt_Some in Hk. unfold zlen. lia.
Qed.

(** ** The contract with the clients

    [PAGE 0]: address 0 doubles as the failure result of both allocation
    functions.  The Limine protocol never reports the memory below 0x1000 as
    usable, so page 0 is never free after [init]; [pmm_ok] adds that to the
    invariant. *)
Definition pmm_ok (s : pmm) : Prop := pmm_inv s ∧ page_free s 0 = false.

Definition page_avail (s : pmm) (a : Z) : Prop :=
  a mod PAGE_SIZE = 0 ∧ page_free s (a / PAGE_SIZE) = true.

Lemma page_avail_mul s i : page_avail s (i * PAGE_SIZE) ↔ page_free s i = true.
Proof.
  unfold page_avail. rewrite Z.mod_mul, Z.div_mul by done. tauto.
Qed.

Lemma page_addr a : a mod PAGE_SIZE = 0 → a = a / PAGE_SIZE * PAGE_SIZE.
Proof. intros H. rewrite (Z.div_mod a PAGE_SIZE) at 1 by done. lia. Qed.

#[global] Instance pmm_allocator : PageAllocator pmm := {
  PageAlloc.alloc_page := alloc_page;
  PageAlloc.alloc_pages := alloc_pages;
  PageAlloc.free_page := free_page;
}.


(** The pages of the bitmap, without page 0. *)
Definition pmm_page (a : Z) : Prop :=
  a mod PAGE_SIZE = 0 ∧ 0 < a ∧ a / PAGE_SIZE < BITMAP_PAGES.

Lemma pmm_page_bounds a : pmm_page a → 0 < a < 2 ^ 40 ∧ a mod PAGE_SIZE = 0.
Proof.
  intros (Hal & Ha & Hr). split; [|done]. rewrite (page_addr a Hal) in *.
  rewrite Z.div_mul in Hr by done. pmm_arith.
Qed.

Lemma pmm_avail_page p a : pmm_ok p → page_avail p a → pmm_page a.
Proof.
  intros [Hinv H0] [Hal Hf]. split; [done|].
  pose proof (page_free_range _ _ (proj1 Hinv) Hf) as Hr. split; [|lia].
  rewrite (page_addr a Hal). destruct (decide (a / PAGE_SIZE = 0)) as [E|]; [congruence|].
  pmm_arith.
Qed.

Lemma pmm_alloc_page_law p :
  pmm_ok p →
  wp alloc_page (λ a p', pmm_ok p' ∧
    ((a = 0 ∧ p' = p ∧ ∀ b, ¬ page_avail p b) ∨
     (page_avail p a ∧ ∀ b, page_avail p' b ↔ page_avail p b ∧ b ≠ a))) p.
Proof.
  intros [Hinv H0]. wp_use wp_alloc_page; [done|].
  intros a p' [Hinv' [(-> & -> & Hno)|(i & -> & Hi & _ & _ & Hf)]].
  + split; [done|]. left. split_and!; [done|done|]. intros b [_ Hb]. congruence.
  + split; [split; [done|]|right; split; [by apply page_avail_mul|]].
    { rewrite Hf, H0. apply andb_false_r. }
    intros b. unfold page_avail. rewrite Hf, andb_true_iff, negb_true_iff, Z.eqb_neq.
    split; [|intros [(?&?) Hne]; split_and!; try done].
    * intros (Hal & Hne & ?). split_and!; try done. intros ->.
      by rewrite Z.div_mul in Hne.
    * intros Heq. apply Hne. rewrite (page_addr b) by done. congruence.
Qed.

Lemma no_run p n b :
  pmm_ok p → 0 < n → (∀ b, 0 ≤ b → b + n ≤ BITMAP_PAGES → ¬ is_run p b n) →
  ¬ ∀ k, 0 ≤ k < n → page_avail p (b + k * PAGE_SIZE).
Proof.
  intros [[Hwf _] _] Hn Hno Hb. destruct (Hb 0) as [Hal _]; [lia|].
  rewrite Z.add_0_r in Hal. rewrite (page_addr b Hal) in Hb.
  assert (∀ k, 0 ≤ k < n → page_free p (b / PAGE_SIZE + k) = true) as Hf.
  { intros k Hk. apply page_avail_mul. rewrite Z.mul_add_distr_r. by apply Hb. }
  pose proof (page_free_range _ _ Hwf (Hf 0 ltac:(lia))).
  pose proof (page_free_range _ _ Hwf (Hf (n - 1) ltac:(lia))).
  eapply (Hno (b / PAGE_SIZE)); [lia|lia|exact Hf].
Qed.

Lemma pmm_alloc_pages_law p n :
  pmm_ok p → 0 < n < 2 ^ 63 →
  wp (alloc_pages n PAGE_SIZE) (λ a p', pmm_ok p' ∧
    ((a = 0 ∧ p' = p ∧ ∀ b, ¬ ∀ k, 0 ≤ k < n → page_avail p (b + k * PAGE_SIZE)) ∨
     (0 < a ∧
      (∀ k, 0 ≤ k < n → page_avail p (a + k * PAGE_SIZE)) ∧
      (∀ b, page_avail p' b ↔
            page_avail p b ∧ ∀ k, 0 ≤ k < n → b ≠ a + k * PAGE_SIZE)))) p.
Proof.
  intros [Hinv H0] Hn.
  wp_use (wp_alloc_pages p n); [done|done|].
  intros a p' [Hinv' [(-> & -> & Hno)|(i & Hi & Hin & -> & Hrun & _ & _ & Hf)]].
  { split; [done|]. left. split_and!; [done|done|]. intros b Hb. by apply (no_run p n b); [|lia|..]. }
  assert (i ≠ 0) as Hi0.
  { intros ->. specialize (Hrun 0). rewrite Z.add_0_r, H0 in Hrun. discriminate Hrun. lia. }
  split; [split; [done|]|right; split_and!].
  + rewrite Hf, H0. apply andb_false_r.
  + unfold PAGE_SIZE. lia.
  + intros k Hk. rewrite <- Z.mul_add_distr_r. apply page_avail_mul. by apply Hrun.
  + intros b. unfold page_avail. rewrite Hf, andb_true_iff, negb_true_iff, andb_false_iff.
    rewrite Z.leb_gt, Z.ltb_ge. split.
    * intros (Hal & Hout & Hfb). split_and!; [done|done|]. intros k Hk ->.
      rewrite <- Z.mul_add_distr_r, Z.div_mul in Hout by done. lia.
    * intros [[Hal Hfb] Hout]. split_and!; [done| |done].
      destruct (decide (b / PAGE_SIZE < i)); [by left|right].
      destruct (decide (i + n ≤ b / PAGE_SIZE)); [done|]. exfalso.
      apply (Hout (b / PAGE_SIZE - i)); [lia|]. rewrite (page_addr b) at 1 by done. lia.
Qed.

Lemma pmm_free_page_law p a :
  pmm_ok p → 0 < a →
  wp (free_page a) (λ _ p', pmm_ok p' ∧
    (pmm_page a → page_avail p' a) ∧
    (∀ b, page_avail p b → page_avail p' b) ∧
    (∀ b, page_avail p' b → page_avail p b ∨ b = a)) p.
Proof.
  intros [Hinv H0] Ha. wp_use wp_free_page; [done|lia|].
  intros _ p' [Hinv' [(Hal & Hr & Hi & _ & Hf)|[Hbad ->]]].
  2: { split; [done|]. split_and!; [|by auto|by auto]. intros (Hal & _ & Hr).
       destruct Hbad as [?|[?|?]]; [done|lia|done]. }
  split; [split; [done|]|split_and!].
  + rewrite Hf, H0, orb_false_r. apply Z.eqb_neq. intros E.
    rewrite (page_addr a Hal), <- E in Ha. lia.
  + intros _. split; [done|]. by rewrite Hf, Z.eqb_refl.
  + intros b [Hbal Hb]. split; [done|]. by rewrite Hf, Hb, orb_true_r.
  + intros b [Hbal Hb]. rewrite Hf, orb_true_iff, Z.eqb_eq in Hb.
    destruct Hb as [Heq|Hb]; [right|by left].
    rewrite (page_addr b), (page_addr a) by done. congruence.
Qed.

Lemma pmm_alloc_pages_none p :
  pmm_ok p → wp (alloc_pages 0 PAGE_SIZE) (λ a p', a = 0 ∧ p' = p) p.
Proof.
  intros [Hinv _]. pose proof (free_set_bound p) as Hb. destruct Hinv as [_ Hfc].
  unfold alloc_pages, alloc_pages_fuel. cbv zeta.
  generalize (Z.to_nat BITMAP_PAGES). intros k. rewrite Nat.add_comm. cbn [plus loop]. wp_step. unfold alloc_pages_step.
  change (u64 (0 + 0) <=? BITMAP_PAGES) with true. cbn iota. rewrite Z.mod_0_l by done.
  cbn [Z.eqb negb]. wp_run. unfold run_length. change (Z.to_nat 0 + 1)%nat with 1%nat.
  cbn [loop]. wp_run. change (Z.eqb 0 0) with true. cbv iota. unfold for_each, for_range.
  change (Z.to_nat (0 - 0)) with O. cbn [for_from].
  wp_run. pose proof BITMAP_PAGES_val. rewrite Z.sub_0_r, u64_id by lia.
  split; [done|]. by destruct p.
Qed.

#[global] Instance pmm_allocator_laws : PageAllocatorLaws pmm := {
  alloc_inv := pmm_ok;
  avail := page_avail;
  phys_page := pmm_page;
  phys_page_bounds := pmm_page_bounds;
  PageAlloc.avail_page := pmm_avail_page;
  alloc_page_law := pmm_alloc_page_law;
  alloc_pages_law := pmm_alloc_pages_law;
  PageAlloc.alloc_pages_none := pmm_alloc_pages_none;
  free_page_law := pmm_free_page_law;
}.

(** ** Properties *)

(** A boot with one usable region, pages 1 to 7: the concrete allocator of the
    witnesses. *)
Definition boot_map : list memmap_entry :=
  [mkEntry 0 4096 1; mkEntry 4096 28672 0; mkEntry 32768 4096 2].
Definition boot_pmm : pmm :=
  match init (Some boot_map) (Some (2 ^ 63)) pmm_zero with
  | Done (_, s) => s
  | _ => pmm_zero
  end.

Lemma boot_map_disjoint i k e f j :
  boot_map !! i = Some e → boot_map !! k = Some f → i ≠ k →
  usable_page e j → ¬ usable_page f j.
Proof.
  intros Hi Hk Hne [He _] [Hf _]. unfold LIMINE_MEMMAP_USABLE in *.
  destruct i as [|[|[|i]]], k as [|[|[|k]]]; simpl in *; simplify_eq/=; done.
Qed.

Lemma boot_map_ok : Forall entry_ok boot_map.
Proof. unfold boot_map, entry_ok, PAGE_SIZE. repeat constructor; simpl; lia. Qed.

Lemma boot_pmm_spec :
  pmm_inv boot_pmm ∧ ∀ j, page_free boot_pmm j = true ↔ 1 ≤ j ≤ 7.
Proof.
  pose proof (wp_pmm_init boot_map (2 ^ 63) pmm_zero eq_refl boot_map_ok boot_map_disjoint) as H.
  unfold wp in H. unfold boot_pmm.
  destruct (init _ _ _) as [[[] s]| |]; [|done|done].
  destruct H as (Hinv & _ & _ & Hfree). split; [done|].
  intros j. rewrite Hfree. unfold boot_map. rewrite !Exists_cons, Exists_nil.
  unfold usable_page, LIMINE_MEMMAP_USABLE, PAGE_SIZE. simpl. pose proof BITMAP_PAGES_val.
  lia.
Qed.

Lemma boot_pmm_ok : pmm_ok boot_pmm.
Proof.
  destruct boot_pmm_spec as [Hinv Hf]. split; [done|].
  destruct (page_free boot_pmm 0) eqn:E; [|done]. apply Hf in E. lia.
Qed.

(** C40: A request for a larger alignment never returns once its first candidate,
    page 0, is taken: the [continue] path of the loop steps back to the
    aligned index it came from. *)
Theorem alloc_pages_align_diverges s count align fuel :
  pmm_wf s → page_free s 0 = false →
  2 * PAGE_SIZE ≤ align → 0 < count < BITMAP_PAGES →
  alloc_pages_fuel fuel count align s = OutOfFuel.
Proof.
  intros Hwf H0 Hal Hc. pose proof BITMAP_PAGES_val.
  unfold alloc_pages_fuel. cbv zeta.
  rewrite Z.max_l by (unfold PAGE_SIZE in *; lia).
  set (ap := align / PAGE_SIZE).
  assert (2 ≤ ap) as Hap by (apply Z.div_le_lower_bound; unfold PAGE_SIZE in *; lia).
  assert (∀ n, loop n (alloc_pages_step count ap) 1 s = OutOfFuel) as Hspin.
  { induction n as [|n IH]; [done|]. simpl. unfold mbind, M_bind, alloc_pages_step at 1.
    rewrite u64_id by lia. rewrite (proj2 (Z.leb_le (1 + count) _)) by lia.
    rewrite Z.mod_small by lia. simpl. exact IH. }
  destruct fuel as [|fuel]; [done|]. simpl. unfold mbind at 1, M_bind at 1.
  unfold alloc_pages_step at 1.
  rewrite u64_id by lia. rewrite (proj2 (Z.leb_le (0 + count) _)) by lia.
  rewrite Z.mod_0_l by lia. simpl.
  assert (wp (run_length 0 count) (λ j s', j = 0 ∧ s' = s) s) as Hrun.
  { eapply wp_mono; [apply wp_run_length; [done|lia|lia|lia]|].
    intros j s' (-> & Hj & Hr & _). split; [|done].
    destruct (decide (j = 0)); [done|]. specialize (Hr 0). rewrite Z.add_0_r, H0 in Hr.
    discriminate Hr. lia. }
  unfold wp in Hrun. unfold mbind at 1, M_bind at 1.
  destruct (run_length 0 count s) as [[j s']| |]; [|done|done].
  destruct Hrun as [-> ->]. rewrite (proj2 (Z.eqb_neq 0 count)) by lia. simpl. apply Hspin.
Qed.

Lemma alloc_pages_align_diverges_witness :
  alloc_pages_fuel 1000 4 (2 * PAGE_SIZE) boot_pmm = OutOfFuel.
Proof.
  apply alloc_pages_align_diverges.
  - apply (proj1 boot_pmm_ok).
  - apply (proj2 boot_pmm_ok).
  - unfold PAGE_SIZE. lia.
  - rewrite BITMAP_PAGES_val. lia.
Defined.

(** C24: After [init] over a Limine memory map whose usable entries do not
    overlap, the free pages are exactly the whole pages inside a usable entry
    and below the 512 MiB cap, and both counters equal their number. *)
Theorem init_free_set entries off s :
  s = pmm_zero →
  Forall entry_ok entries →
  (∀ i k e f j, entries !! i = Some e → entries !! k = Some f → i ≠ k →
     usable_page e j → ¬ usable_page f j) →
  wp (init (Some entries) (Some off)) (λ _ s',
    (∀ j, page_free s' j = true ↔ Exists (λ e, usable_page e j) entries) ∧
    free_pages s' = zlen (free_set s') ∧ total_pages s' = free_pages s' ∧
    hhdm_offset s' = off) s.
Proof.
  intros Hs Hok Hd. wp_use wp_pmm_init; [done|done|done|].
  intros _ s' ([_ ?] & ? & ? & ?). by split_and!.
Qed.

Lemma init_free_set_witness :
  wp (init (Some boot_map) (Some (2 ^ 63))) (λ _ s',
    (∀ j, page_free s' j = true ↔ Exists (λ e, usable_page e j) boot_map) ∧
    free_pages s' = zlen (free_set s') ∧ total_pages s' = free_pages s' ∧
    hhdm_offset s' = 2 ^ 63) pmm_zero.
Proof.
  apply init_free_set; [reflexivity|apply boot_map_ok|apply boot_map_disjoint].
Defined.

(** [alloc_page] hands out the lowest free page and takes exactly that page
    off the bitmap and one off the counter; it answers 0 and changes nothing
    when no page is free. *)
Theorem alloc_page_lowest s :
  pmm_inv s →
  wp alloc_page (λ a s', pmm_inv s' ∧
    match free_set s with
    | [] => a = 0 ∧ s' = s
    | _ :: _ => ∃ i, a = i * PAGE_SIZE ∧ page_free s i = true ∧
        (∀ j, j < i → page_free s j = false) ∧
        free_pages s' = free_pages s - 1 ∧
        ∀ j, page_free s' j = negb (j =? i) && page_free s j
    end) s.
Proof.
  intros Hinv. wp_use wp_alloc_page; [done|].
  intros a s' [Hinv' [(-> & -> & Hno)|(i & Hi)]]; (split; [done|]).
  - destruct (free_set s) as [|j l] eqn:E; [done|].
    assert (j ∈ free_set s) as Hj by (rewrite E; left).
    apply elem_of_free_set in Hj; [|apply Hinv]. congruence.
  - destruct (free_set s) as [|j l] eqn:E; [|by exists i].
    assert (i ∈ free_set s) as Hj by (apply elem_of_free_set; [apply Hinv|apply Hi]).
    rewrite E in Hj. by apply elem_of_nil in Hj.
Qed.

Lemma alloc_page_lowest_witness :
  wp alloc_page (λ a s', pmm_inv s' ∧
    match free_set boot_pmm with
    | [] => a = 0 ∧ s' = boot_pmm
    | _ :: _ => ∃ i, a = i * PAGE_SIZE ∧ page_free boot_pmm i = true ∧
        (∀ j, j < i → page_free boot_pmm j = false) ∧
        free_pages s' = free_pages boot_pmm - 1 ∧
        ∀ j, page_free s' j = negb (j =? i) && page_free boot_pmm j
    end) boot_pmm.
Proof. apply alloc_page_lowest. apply boot_pmm_spec. Defined.

(** C25: [alloc_pages] with page alignment (the only alignment the kernel asks
    for) always returns; it finds the first run of [count] free pages and takes
    exactly that run, and answers 0 only when no such run exists. *)
Theorem alloc_pages_first_fit s count :
  pmm_inv s → 0 < count < 2 ^ 63 →
  wp (alloc_pages count PAGE_SIZE) (λ a s', pmm_inv s' ∧
    ((a = 0 ∧ s' = s ∧
      ∀ b, 0 ≤ b → b + count ≤ BITMAP_PAGES → ¬ is_run s b count) ∨
     ∃ i, 0 ≤ i ∧ i + count ≤ BITMAP_PAGES ∧ a = i * PAGE_SIZE ∧ is_run s i count ∧
          (∀ b, 0 ≤ b < i → ¬ is_run s b count) ∧
          free_pages s' = free_pages s - count ∧
          ∀ j, page_free s' j =
               negb ((i <=? j) && (j <? i + count)) && page_free s j)) s.
Proof. apply wp_alloc_pages. Qed.

Lemma alloc_pages_first_fit_witness :
  0 < 4 < 2 ^ 63 ∧
  wp (alloc_pages 4 PAGE_SIZE) (λ a s', pmm_inv s' ∧
    ((a = 0 ∧ s' = boot_pmm ∧
      ∀ b, 0 ≤ b → b + 4 ≤ BITMAP_PAGES → ¬ is_run boot_pmm b 4) ∨
     ∃ i, 0 ≤ i ∧ i + 4 ≤ BITMAP_PAGES ∧ a = i * PAGE_SIZE ∧ is_run boot_pmm i 4 ∧
          (∀ b, 0 ≤ b < i → ¬ is_run boot_pmm b 4) ∧
          free_pages s' = free_pages boot_pmm - 4 ∧
          ∀ j, page_free s' j =
               negb ((i <=? j) && (j <? i + 4)) && page_free boot_pmm j)) boot_pmm.
Proof.
  split; [lia|]. apply alloc_pages_first_fit; [apply boot_pmm_spec|lia].
Defined.

(** C36: [free_page] accepts a page exactly when it is aligned, inside the bitmap
    and currently allocated (a double free is refused), and undoes the
    allocation of that page only. *)
Theorem free_page_guarded s pa :
  pmm_inv s → 0 ≤ pa →
  let i := pa / PAGE_SIZE in
  wp (free_page pa) (λ _ s', pmm_inv s' ∧
    ((pa mod PAGE_SIZE = 0 ∧ i < BITMAP_PAGES ∧ page_free s i = false ∧
      free_pages s' = free_pages s + 1 ∧
      ∀ j, page_free s' j = (j =? i) || page_free s j) ∨
     ((pa mod PAGE_SIZE ≠ 0 ∨ BITMAP_PAGES ≤ i ∨ page_free s i = true) ∧ s' = s))) s.
Proof. apply wp_free_page. Qed.

Lemma free_page_guarded_witness :
  0 ≤ 40960 ∧
  wp (free_page 40960) (λ _ s', pmm_inv s' ∧
    ((40960 mod PAGE_SIZE = 0 ∧ 40960 / PAGE_SIZE < BITMAP_PAGES ∧
      page_free boot_pmm (40960 / PAGE_SIZE) = false ∧
      free_pages s' = free_pages boot_pmm + 1 ∧
      ∀ j, page_free s' j = (j =? 40960 / PAGE_SIZE) || page_free boot_pmm j) ∨
     ((40960 mod PAGE_SIZE ≠ 0 ∨ BITMAP_PAGES ≤ 40960 / PAGE_SIZE ∨
       page_free boot_pmm (40960 / PAGE_SIZE) = true) ∧ s' = boot_pmm))) boot_pmm.
Proof.
  split; [lia|]. apply (free_page_guarded boot_pmm 40960); [apply boot_pmm_spec|lia].
Defined.

End Pmm.
