(* ===== verification/Mem.v ===== *)
(** * Byte-addressed memory

    Physical memory as the kernel reaches it through the higher-half direct
    map: [pa_to_va(pa)] designates the bytes at physical address [pa].  Used by
    the page tables ([Vmm]), the ELF loader and the syscall layer (there with
    user virtual addresses).  Multi-byte accesses are little endian. *)
From S2P Require Import Prelude.

Definition memory : Type := Z → Z.

Fixpoint load_le (n : nat) (m : memory) (a : Z) : Z :=
  match n with
  | O => 0
  | S n => m a + 2 ^ 8 * load_le n m (a + 1)
  end.

Definition store_le (n : nat) (m : memory) (a v : Z) : memory := λ x,
  if (a <=? x) && (x <? a + Z.of_nat n) then (v / 2 ^ (8 * (x - a))) mod 2 ^ 8 else m x.

(** [core::ptr::write_bytes(p, b, n)] *)
Definition fill (m : memory) (a n b : Z) : memory := λ x,
  if (a <=? x) && (x <? a + n) then b else m x.

(** [copy_nonoverlapping] of a byte slice to address [a]. *)
Definition store_bytes (m : memory) (a : Z) (bs : list Z) : memory := λ x,
  match zget bs (x - a) with Some b => b | None => m x end.

(** The [n] bytes at [a]. *)
Definition load_bytes (m : memory) (a n : Z) : list Z :=
  m <$> seqZ a n.

Definition load64 : memory → Z → Z := load_le 8.
Definition store64 : memory → Z → Z → memory := store_le 8.

Definition mem_ok (m : memory) : Prop := ∀ a, 0 ≤ m a < 2 ^ 8.

Section mem.
Implicit Types m : memory.

Lemma load_le_ext n m m' a :
  (∀ x, a ≤ x < a + Z.of_nat n → m x = m' x) → load_le n m a = load_le n m' a.
Proof.
  revert a. induction n as [|n IH]; intros a H; [done|]. simpl.
  rewrite H by lia. rewrite (IH (a + 1)); [done|]. intros x Hx. apply H. lia.
Qed.

Lemma load_le_range n m a : mem_ok m → 0 ≤ load_le n m a < 2 ^ (8 * Z.of_nat n).
Proof.
  intros Hm. revert a. induction n as [|n IH]; intros a; [simpl; lia|].
  cbn [load_le]. specialize (IH (a + 1)). pose proof (Hm a).
  replace (8 * Z.of_nat (S n)) with (8 + 8 * Z.of_nat n) by lia.
  rewrite Z.pow_add_r by lia. lia.
Qed.

Lemma load_store_le n m a v : load_le n (store_le n m a v) a = v mod 2 ^ (8 * Z.of_nat n).
Proof.
  assert (∀ k b w, (∀ x, b ≤ x < b + Z.of_nat k →
    store_le n m a v x = (w / 2 ^ (8 * (x - b))) mod 2 ^ 8) →
    load_le k (store_le n m a v) b = w mod 2 ^ (8 * Z.of_nat k)) as H.
  { induction k as [|k IH]; intros b w Hx; [by rewrite Z.mod_1_r|]. cbn [load_le].
    rewrite (IH (b + 1) (w / 2 ^ 8)).
    - rewrite Hx by lia. rewrite Z.sub_diag, Z.mul_0_r, Z.pow_0_r, Z.div_1_r.
      replace (8 * Z.of_nat (S k)) with (8 + 8 * Z.of_nat k) by lia.
      rewrite Z.pow_add_r by lia. rewrite Z.rem_mul_r by lia. lia.
    - intros x Hxr. rewrite Hx by lia. rewrite Z.div_div by lia.
      rewrite <- Z.pow_add_r by lia. do 3 f_equal. lia. }
  apply H. intros x Hx. unfold store_le.
  rewrite (proj2 (Z.leb_le a x)), (proj2 (Z.ltb_lt x _)) by lia. done.
Qed.

Lemma store_le_out n m a v x :
  ¬ (a ≤ x < a + Z.of_nat n) → store_le n m a v x = m x.
Proof.
  intros H. unfold store_le.
  destruct (Z.leb_spec a x), (Z.ltb_spec x (a + Z.of_nat n)); simpl; done || lia.
Qed.

Lemma load_store_le_ne n m a b v :
  a + Z.of_nat n ≤ b ∨ b + Z.of_nat n ≤ a →
  load_le n (store_le n m a v) b = load_le n m b.
Proof. intros H. apply load_le_ext. intros x Hx. apply store_le_out. lia. Qed.

Lemma load64_range m a : mem_ok m → 0 ≤ load64 m a < 2 ^ 64.
Proof. apply (load_le_range 8). Qed.
Lemma load_store64 m a v : load64 (store64 m a v) a = u64 v.
Proof. apply (load_store_le 8). Qed.
Lemma load_store64_ne m a b v :
  a + 8 ≤ b ∨ b + 8 ≤ a → load64 (store64 m a v) b = load64 m b.
Proof. apply (load_store_le_ne 8). Qed.

Lemma mem_ok_store n m a v : mem_ok m → mem_ok (store_le n m a v).
Proof.
  intros Hm x. unfold store_le. destruct (_ && _); [|apply Hm].
  by apply Z.mod_pos_bound.
Qed.
Lemma mem_ok_fill m a n b : mem_ok m → 0 ≤ b < 2 ^ 8 → mem_ok (fill m a n b).
Proof. intros Hm Hb x. unfold fill. by destruct (_ && _). Qed.

Lemma mem_ok_store_bytes m a bs :
  mem_ok m → Forall (λ b, 0 ≤ b < 2 ^ 8) bs → mem_ok (store_bytes m a bs).
Proof.
  intros Hm Hbs x. unfold store_bytes, zget. case_decide; [|apply Hm].
  destruct (bs !! _) as [b|] eqn:Eb; [|apply Hm]. by eapply Forall_lookup_1 in Hbs.
Qed.

Lemma fill_out m a n b x : ¬ (a ≤ x < a + n) → fill m a n b x = m x.
Proof.
  intros H. unfold fill.
  destruct (Z.leb_spec a x), (Z.ltb_spec x (a + n)); simpl; done || lia.
Qed.
Lemma fill_in m a n b x : a ≤ x < a + n → fill m a n b x = b.
Proof.
  intros H. unfold fill.
  by rewrite (proj2 (Z.leb_le a x)), (proj2 (Z.ltb_lt x _)) by lia.
Qed.

Lemma load64_zero m a : (∀ x, a ≤ x < a + 8 → m x = 0) → load64 m a = 0.
Proof.
  intros H. unfold load64. rewrite (load_le_ext 8 m (λ _, 0)) by apply H. reflexivity.
Qed.

Lemma store_bytes_in m a bs i b : zget bs i = Some b → store_bytes m a bs (a + i) = b.
Proof. intros H. unfold store_bytes. by rewrite Z.add_simpl_l, H. Qed.
Lemma store_bytes_out m a bs x :
  ¬ (a ≤ x < a + zlen bs) → store_bytes m a bs x = m x.
Proof.
  intros H. unfold store_bytes. by rewrite (proj2 (zget_None _ _)) by lia.
Qed.

Lemma zlen_load_bytes m a n : 0 ≤ n → zlen (load_bytes m a n) = n.
Proof. intros Hn. unfold zlen, load_bytes. rewrite length_fmap, length_seqZ. lia. Qed.
Lemma zget_load_bytes m a n i :
  0 ≤ i < n → zget (load_bytes m a n) i = Some (m (a + i)).
Proof.
  intros Hi. unfold zget, load_bytes. rewrite decide_True by lia.
  rewrite list_lookup_fmap, lookup_seqZ_lt by lia. simpl. do 2 f_equal. lia.
Qed.
Lemma load_bytes_range m a n : mem_ok m → Forall (λ b, 0 ≤ b < 2 ^ 8) (load_bytes m a n).
Proof. intros Hm. unfold load_bytes. apply Forall_fmap, Forall_true. intros x. apply Hm. Qed.
Lemma load_bytes_ext m m' a n :
  (∀ x, a ≤ x < a + n → m x = m' x) → load_bytes m a n = load_bytes m' a n.
Proof.
  intros H. unfold load_bytes. apply list_fmap_ext. intros i x Hx.
  apply lookup_seqZ in Hx. apply H. lia.
Qed.
Lemma load_store_bytes m a bs : load_bytes (store_bytes m a bs) a (zlen bs) = bs.
Proof.
  pose proof (zlen_nonneg bs). apply list_eq_zget; rewrite zlen_load_bytes by lia; [done|].
  intros i Hi. rewrite zget_load_bytes by lia.
  destruct (zget_lt bs i Hi) as [b Hb]. by rewrite (store_bytes_in _ _ _ _ _ Hb).
Qed.
Lemma load_store_bytes_ne m a bs b n :
  a + zlen bs ≤ b ∨ b + n ≤ a → load_bytes (store_bytes m a bs) b n = load_bytes m b n.
Proof. intros H. apply load_bytes_ext. intros x Hx. apply store_bytes_out. lia. Qed.

(** Overwriting from position [o], extending past the end. *)
Definition splice (old : list Z) (o : Z) (buf : list Z) : list Z :=
  take (Z.to_nat o) old ++ buf ++ drop (Z.to_nat (o + zlen buf)) old.

Lemma load_bytes_splice m a n o buf :
  0 ≤ o ≤ n →
  load_bytes (store_bytes m (a + o) buf) a (Z.max n (o + zlen buf)) =
  splice (load_bytes m a n) o buf.
Proof.
  intros Ho. pose proof (zlen_nonneg buf). unfold splice. apply list_eq_zget.
  - rewrite zlen_load_bytes, !zlen_app, zlen_take, zlen_drop, zlen_load_bytes by lia. lia.
  - rewrite zlen_load_bytes by lia. intros i Hi. rewrite zget_load_bytes by lia.
    assert (zlen (take (Z.to_nat o) (load_bytes m a n)) = o) as Hl
      by (rewrite zlen_take, zlen_load_bytes; lia).
    unfold store_bytes. replace (a + i - (a + o)) with (i - o) by lia.
    destruct (Z.ltb_spec i o).
    + rewrite (proj2 (zget_None buf _)) by lia.
      rewrite zget_app_l, zget_take, zget_load_bytes by lia. done.
    + rewrite zget_app_r by lia. rewrite Hl. destruct (Z.ltb_spec (i - o) (zlen buf)).
      * rewrite zget_app_l by lia.
        destruct (zget_lt buf (i - o)) as [b ->]; [lia|]. done.
      * rewrite (proj2 (zget_None buf _)) by lia.
        rewrite zget_app_r, zget_drop, zget_load_bytes by lia. do 2 f_equal. lia.
Qed.

Lemma zlen_splice old o buf :
  0 ≤ o ≤ zlen old → zlen (splice old o buf) = Z.max (zlen old) (o + zlen buf).
Proof.
  intros Ho. unfold splice. pose proof (zlen_nonneg buf).
  rewrite !zlen_app, zlen_take, zlen_drop by lia. lia.
Qed.

(** Appending to a NUL-padded array. *)
Lemma splice_c_array max l x :
  zlen l + zlen x < max → splice (c_array max l) (zlen l) x = c_array max (l ++ x).
Proof.
  intros Hl. pose proof (zlen_nonneg l). pose proof (zlen_nonneg x).
  assert (zlen (l ++ x) = zlen l + zlen x) as Hlx by apply zlen_app.
  apply list_eq_zget; rewrite zlen_splice, !zlen_c_array; rewrite ?zlen_c_array by lia; try lia.
  intros i Hi. unfold splice.
  assert (zlen (take (Z.to_nat (zlen l)) (c_array max l)) = zlen l) as Ht
    by (rewrite zlen_take, zlen_c_array; lia).
  destruct (Z.lt_ge_cases i (zlen l)).
  { rewrite zget_app_l, zget_take, !zget_c_array by lia. by rewrite zget_app_l by lia. }
  rewrite zget_app_r by lia. rewrite Ht. destruct (Z.lt_ge_cases i (zlen l + zlen x)).
  - rewrite zget_app_l, zget_c_array, zget_app_r by lia. done.
  - rewrite zget_app_r, zget_drop by lia. rewrite !zget_c_array_pad by lia. done.
Qed.
End mem.
