(* ===== verification/Vmm.v ===== *)
(** * Virtual memory ([kernel-rs/src/mm/vmm.rs])

    Four-level page tables, 4 KiB pages, over any page allocator.  The state
    is the allocator, physical memory (tables live in it), CR3 and
    [KERNEL_SPACE]; [invlpg] and the kernel log have no state in the model. *)
From S2P Require Import Prelude PageAlloc Pmm Mem.

Module Vmm.

Definition PTE_P : Z := Z.shiftl 1 0.
Definition PTE_RW : Z := Z.shiftl 1 1.
Definition PTE_US : Z := Z.shiftl 1 2.
Definition PTE_WT : Z := Z.shiftl 1 3.
Definition PTE_CD : Z := Z.shiftl 1 4.
Definition PTE_PS : Z := Z.shiftl 1 7.
Definition PTE_NX : Z := Z.shiftl 1 63.
Definition PTE_ADDR_MASK : Z := 0x000FFFFFFFFFF000.
Definition PT_ENTRIES : Z := 512.

Record vmm (P : Type) := mkVmm {
  allocator : P;
  phys : memory;
  cr3 : Z;
  kernel_space : Z;
}.
Arguments mkVmm {P}.
Arguments allocator {P}.
Arguments phys {P}.
Arguments cr3 {P}.
Arguments kernel_space {P}.

Definition has (e flag : Z) : bool := negb (Z.land e flag =? 0).

Section vmm.
Context {P : Type} `{PageAllocator P}.
Implicit Types s : vmm P.

Definition set_allocator (p : P) s : vmm P :=
  mkVmm p (phys s) (cr3 s) (kernel_space s).
Definition set_phys (m : memory) s : vmm P :=
  mkVmm (allocator s) m (cr3 s) (kernel_space s).
Definition set_cr3 (c : Z) s : vmm P :=
  mkVmm (allocator s) (phys s) c (kernel_space s).
Definition set_kernel_space (k : Z) s : vmm P :=
  mkVmm (allocator s) (phys s) (cr3 s) k.

Definition pmm_call {A} (m : M P A) : M (vmm P) A :=
  zoom allocator set_allocator m.

Definition current : M (vmm P) Z := gets (λ s, Z.land (cr3 s) PTE_ADDR_MASK).
Definition switch (space : Z) : M (vmm P) unit := modify (set_cr3 space).

(** [table_mut(tbl)[idx]], read and written. *)
Definition get_entry (tbl idx : Z) : M (vmm P) Z :=
  gets (λ s, load64 (phys s) (tbl + 8 * idx)).
Definition set_entry (tbl idx v : Z) : M (vmm P) unit :=
  modify (λ s, set_phys (store64 (phys s) (tbl + 8 * idx) v) s).

Definition zero_table (pa : Z) : M (vmm P) unit :=
  modify (λ s, set_phys (fill (phys s) pa PAGE_SIZE 0) s).

Definition vidx (va lvl : Z) : Z := Z.land (Z.shiftr va (12 + (lvl - 1) * 9)) 0x1FF.

(** One turn of the loop of [walk]: [(tbl, lvl)] are its locals. *)
Definition walk_step (va : Z) (create : bool) (level : Z) (st : Z * Z)
    : M (vmm P) ((Z * Z) + option Z) :=
  let '(tbl, lvl) := st in
  if lvl >? level then
    let idx := vidx va lvl in
    e ← get_entry tbl idx;
    if negb (has e PTE_P) then
      if negb create then mret (inr None)
      else
        np ← pmm_call alloc_page;
        if np =? 0 then mret (inr None)
        else
          zero_table np;;
          set_entry tbl idx (Z.lor (Z.lor (Z.lor np PTE_P) PTE_RW) PTE_US);;
          e ← get_entry tbl idx;
          mret (inl (Z.land e PTE_ADDR_MASK, lvl - 1))
    else if has e PTE_PS && (lvl >? 1) then mret (inr None)
    else mret (inl (Z.land e PTE_ADDR_MASK, lvl - 1))
  else mret (inr (Some tbl)).

(** At most three turns before the loop exits ([level] is 1 everywhere). *)
Definition walk (space va : Z) (create : bool) (level : Z) : M (vmm P) (option Z) :=
  loop 5 (walk_step va create level) (space, 4).

Definition map (space va pa flags : Z) : M (vmm P) bool :=
  r ← walk space va true 1;
  match r with
  | None => mret false
  | Some pt =>
      let idx := Z.land (Z.shiftr va 12) 0x1FF in
      set_entry pt idx (Z.lor (Z.lor (Z.land pa PTE_ADDR_MASK) flags) PTE_P);;
      mret true
  end.

Definition unmap (space va : Z) : M (vmm P) bool :=
  r ← walk space va false 1;
  match r with
  | None => mret false
  | Some pt =>
      let idx := Z.land (Z.shiftr va 12) 0x1FF in
      e ← get_entry pt idx;
      if negb (has e PTE_P) then mret false
      else set_entry pt idx 0;; mret true
  end.

Definition translate (space va : Z) : M (vmm P) Z :=
  r ← walk space va false 1;
  match r with
  | None => mret 0
  | Some pt =>
      let idx := Z.land (Z.shiftr va 12) 0x1FF in
      e ← get_entry pt idx;
      if negb (has e PTE_P) then mret 0
      else mret (u64 (Z.land e PTE_ADDR_MASK + Z.land va (PAGE_SIZE - 1)))
  end.

(** [for i in 256..512 { new[i] = old[i] }] *)
Definition copy_high_half (new old : Z) : M (vmm P) unit :=
  for_each 256 PT_ENTRIES (λ i, e ← get_entry old i; set_entry new i e).

Definition init : M (vmm P) unit :=
  nl4 ← pmm_call alloc_page;
  zero_table nl4;;
  c ← gets cr3;
  copy_high_half nl4 (Z.land c PTE_ADDR_MASK);;
  modify (set_kernel_space nl4);;
  modify (set_cr3 nl4).

Definition new_space : M (vmm P) Z :=
  nl4 ← pmm_call alloc_page;
  if nl4 =? 0 then mret 0
  else
    zero_table nl4;;
    k ← gets kernel_space;
    copy_high_half nl4 k;;
    mret nl4.

(** The four nested loops of [destroy_space], from the inside out. *)
Definition destroy_l1 (l1 : Z) : M (vmm P) unit :=
  for_each 0 512 (λ i1,
    e ← get_entry l1 i1;
    if has e PTE_P then pmm_call (free_page (Z.land e PTE_ADDR_MASK)) else mret tt).

Definition destroy_l2 (l2 : Z) : M (vmm P) unit :=
  for_each 0 512 (λ i2,
    e ← get_entry l2 i2;
    if negb (has e PTE_P) || has e PTE_PS then mret tt
    else
      destroy_l1 (Z.land e PTE_ADDR_MASK);;
      e ← get_entry l2 i2;
      pmm_call (free_page (Z.land e PTE_ADDR_MASK))).

Definition destroy_l3 (l3 : Z) : M (vmm P) unit :=
  for_each 0 512 (λ i3,
    e ← get_entry l3 i3;
    if negb (has e PTE_P) || has e PTE_PS then mret tt
    else
      destroy_l2 (Z.land e PTE_ADDR_MASK);;
      e ← get_entry l3 i3;
      pmm_call (free_page (Z.land e PTE_ADDR_MASK))).

Definition destroy_space (space : Z) : M (vmm P) unit :=
  for_each 0 256 (λ i4,
    e ← get_entry space i4;
    if negb (has e PTE_P) then mret tt
    else
      destroy_l3 (Z.land e PTE_ADDR_MASK);;
      e ← get_entry space i4;
      pmm_call (free_page (Z.land e PTE_ADDR_MASK)));;
  pmm_call (free_page space).
End vmm.

(** ** Flag and address bits of an entry *)
Lemma has_bit e k : 0 ≤ k → has e (Z.shiftl 1 k) = Z.testbit e k.
Proof.
  intros Hk. unfold has. rewrite Z.shiftl_1_l.
  destruct (Z.testbit e k) eqn:E.
  - destruct (Z.eqb_spec (Z.land e (2 ^ k)) 0) as [H0|]; [|done].
    assert (Z.testbit (Z.land e (2 ^ k)) k = true) as Ht.
    { by rewrite Z.land_spec, E, Z.pow2_bits_true. }
    by rewrite H0, Z.bits_0 in Ht.
  - replace (Z.land e (2 ^ k)) with 0; [done|]. symmetry.
    apply Z.bits_inj'. intros j Hj. rewrite Z.land_spec, Z.bits_0.
    destruct (decide (j = k)) as [->|Hne]; [by rewrite E|].
    rewrite Z.pow2_bits_false by done. apply andb_false_r.
Qed.

Lemma PTE_ADDR_MASK_spec k : 0 ≤ k → Z.testbit PTE_ADDR_MASK k = (12 <=? k) && (k <? 52).
Proof.
  intros Hk. change PTE_ADDR_MASK with (Z.shiftl (Z.ones 40) 12).
  rewrite Z.shiftl_spec by done.
  destruct (Z.leb_spec 12 k), (Z.ltb_spec k 52); simpl.
  - apply Z.ones_spec_low. lia.
  - apply Z.ones_spec_high. lia.
  - apply Z.testbit_neg_r. lia.
  - lia.
Qed.

Definition frame_addr (a : Z) : Prop := 0 ≤ a < 2 ^ 52 ∧ a mod PAGE_SIZE = 0.

Lemma aligned_low_bits a k : a mod PAGE_SIZE = 0 → 0 ≤ k < 12 → Z.testbit a k = false.
Proof.
  intros Ha Hk. rewrite <- (Z.mod_pow2_bits_low a 12) by lia.
  change (2 ^ 12) with PAGE_SIZE. by rewrite Ha, Z.bits_0.
Qed.

Lemma masked_frame e : frame_addr (Z.land e PTE_ADDR_MASK).
Proof.
  assert (0 ≤ Z.land e PTE_ADDR_MASK) as H0 by (apply Z.land_nonneg; right; done).
  assert (Z.land e PTE_ADDR_MASK mod PAGE_SIZE = 0) as Hm.
  { change PAGE_SIZE with (2 ^ 12). rewrite <- Z.land_ones by done.
    rewrite <- Z.land_assoc. change (Z.land PTE_ADDR_MASK (Z.ones 12)) with 0.
    apply Z.land_0_r. }
  split; [|done]. split; [done|].
  destruct (decide (Z.land e PTE_ADDR_MASK = 0)) as [->|Hne]; [done|].
  apply Z.log2_lt_pow2; [lia|].
  destruct (Z.lt_ge_cases (Z.log2 (Z.land e PTE_ADDR_MASK)) 52) as [|Hge]; [done|].
  assert (Z.testbit (Z.land e PTE_ADDR_MASK) (Z.log2 (Z.land e PTE_ADDR_MASK)) = true)
    as Ht by (apply Z.bit_log2; lia).
  rewrite Z.land_spec, PTE_ADDR_MASK_spec, andb_true_iff in Ht by lia.
  destruct Ht as [_ Ht]. rewrite andb_true_iff, Z.leb_le, Z.ltb_lt in Ht. lia.
Qed.

Lemma mask_frame a : frame_addr a → Z.land a PTE_ADDR_MASK = a.
Proof.
  intros [Hr Ha]. apply Z.bits_inj'. intros k Hk.
  rewrite Z.land_spec, PTE_ADDR_MASK_spec by done.
  destruct (Z.leb_spec 12 k), (Z.ltb_spec k 52); simpl; rewrite ?andb_true_r, ?andb_false_r;
    try done; symmetry.
  - rewrite <- (Z.mod_small a (2 ^ 52)) by done. by apply Z.mod_pow2_bits_high.
  - apply aligned_low_bits; [done|lia].
  - apply aligned_low_bits; [done|lia].
Qed.

(** The entry [walk] writes for a new table. *)
Lemma link_entry np :
  frame_addr np →
  let e := Z.lor (Z.lor (Z.lor np PTE_P) PTE_RW) PTE_US in
  u64 e = e ∧ has e PTE_P = true ∧ has e PTE_PS = false ∧ Z.land e PTE_ADDR_MASK = np.
Proof.
  intros Hf e. pose proof Hf as [Hr Ha]. split_and!.
  - apply u64_id. split; [unfold e; rewrite !Z.lor_nonneg; repeat split; try done; lia|].
    apply u64_of_bits; [unfold e; rewrite !Z.lor_nonneg; repeat split; try done; lia|].
    intros k Hk. unfold e, PTE_P, PTE_RW, PTE_US. rewrite !Z.lor_spec.
    rewrite !Z.shiftl_spec, (testbit_u64_high np) by lia.
    rewrite !(Z.bits_above_log2 1) by (simpl; lia). done.
  - unfold PTE_P. rewrite has_bit by done. unfold e, PTE_P. rewrite !Z.lor_spec.
    simpl. by rewrite !orb_true_r.
  - unfold PTE_PS. rewrite has_bit by done. unfold e. rewrite !Z.lor_spec.
    rewrite aligned_low_bits by (done || lia). done.
  - unfold e. rewrite !Z.land_lor_distr_l, mask_frame by done.
    change (Z.land PTE_P PTE_ADDR_MASK) with 0. change (Z.land PTE_RW PTE_ADDR_MASK) with 0.
    change (Z.land PTE_US PTE_ADDR_MASK) with 0. by rewrite !Z.lor_0_r.
Qed.

Lemma vidx_range va lvl : 0 ≤ vidx va lvl < 512.
Proof.
  unfold vidx. change 0x1FF with (Z.ones 9). rewrite Z.land_ones by done.
  by apply Z.mod_pos_bound.
Qed.

(** ** The tree a table page spans *)
Definition entry (m : memory) (tbl i : Z) : Z := load64 m (tbl + 8 * i).

Definition next (m : memory) (tbl i : Z) : option Z :=
  let e := entry m tbl i in
  if has e PTE_P && negb (has e PTE_PS) then Some (Z.land e PTE_ADDR_MASK) else None.

(** The table reached from [tbl] along a list of indices. *)
Fixpoint descend (m : memory) (tbl : Z) (path : list Z) : option Z :=
  match path with
  | [] => Some tbl
  | i :: path =>
      match next m tbl i with
      | Some t => descend m t path
      | None => None
      end
  end.

(** The indices [walk] follows for [va], down to the page table proper. *)
Definition idxs (va : Z) : list Z := [vidx va 4; vidx va 3; vidx va 2].
(** All four: two addresses with the same [vpage] lie in the same page. *)
Definition vpage (va : Z) : list Z := idxs va ++ [vidx va 1].

(** The leaf entry for [va], if present. *)
Definition lookup_page (m : memory) (space va : Z) : option Z :=
  match descend m space (idxs va) with
  | Some t => let e := entry m t (vidx va 1) in if has e PTE_P then Some e else None
  | None => None
  end.

Definition valid_path (p : list Z) : Prop :=
  (length p ≤ 3)%nat ∧ Forall (λ i, 0 ≤ i < 512) p.
(** The lower half of the address space. *)
Definition user_path (p : list Z) : Prop :=
  match p with [] => True | i :: _ => i < 256 end.
Definition user_va (va : Z) : Prop := vidx va 4 < 256.

(** A present entry that maps a large page. *)
Definition huge (m : memory) (t i : Z) : bool :=
  has (entry m t i) PTE_P && has (entry m t i) PTE_PS.

Lemma descend_snoc m t p i :
  descend m t (p ++ [i]) =
  match descend m t p with Some t' => next m t' i | None => None end.
Proof.
  revert t. induction p as [|j p IH]; intros t; simpl.
  - by destruct (next m t i).
  - destruct (next m t j); [apply IH|done].
Qed.

Lemma idxs_valid va : valid_path (idxs va).
Proof. split; [done|]. repeat constructor; apply vidx_range. Qed.

Lemma valid_prefix p i : valid_path (p ++ [i]) → valid_path p ∧ 0 ≤ i < 512.
Proof.
  intros [Hl Hf]. rewrite length_app in Hl. simpl in Hl.
  apply Forall_app in Hf as [Hf Hi]. inversion_clear Hi as [|? ? Hi' _].
  split; [|done]. split; [lia|done].
Qed.
Lemma user_prefix p i : user_path (p ++ [i]) → user_path p.
Proof. by destruct p. Qed.

(** Entries live in their own table page. *)
Lemma entry_in_page t i x :
  0 ≤ i < 512 → t + 8 * i ≤ x < t + 8 * i + 8 → t ≤ x < t + PAGE_SIZE.
Proof. unfold PAGE_SIZE. lia. Qed.

Lemma frames_disjoint a b x y :
  a mod PAGE_SIZE = 0 → b mod PAGE_SIZE = 0 → a ≠ b →
  a ≤ x < a + PAGE_SIZE → b ≤ y < b + PAGE_SIZE → x ≠ y.
Proof.
  intros Ha Hb Hne Hx Hy ->. unfold PAGE_SIZE in *.
  apply Z.mod_divide in Ha as [p ->]; [|done]. apply Z.mod_divide in Hb as [q ->]; [|done].
  lia.
Qed.

Lemma entry_ext m m' t i :
  0 ≤ i < 512 → (∀ x, t ≤ x < t + PAGE_SIZE → m' x = m x) → entry m' t i = entry m t i.
Proof.
  intros Hi H. apply load_le_ext. intros x Hx. apply H. by eapply entry_in_page.
Qed.

Lemma entry_store m t i v t' j :
  frame_addr t → frame_addr t' → 0 ≤ i < 512 → 0 ≤ j < 512 →
  entry (store64 m (t + 8 * i) v) t' j =
  if decide (t' = t ∧ j = i) then u64 v else entry m t' j.
Proof.
  intros [_ Ht] [_ Ht'] Hi Hj. unfold entry. case_decide as Hd.
  - destruct Hd as [-> ->]. apply load_store64.
  - apply load_store64_ne. destruct (decide (t' = t)) as [->|Hne]; [lia|].
    unfold PAGE_SIZE in *.
    apply Z.mod_divide in Ht as [p ->]; [|done]. apply Z.mod_divide in Ht' as [q ->]; [|done].
    lia.
Qed.

Lemma entry_fill m np t i :
  frame_addr t → frame_addr np → 0 ≤ i < 512 →
  entry (fill m np PAGE_SIZE 0) t i = if decide (t = np) then 0 else entry m t i.
Proof.
  intros [_ Ht] [_ Hnp] Hi. case_decide as Hd.
  - subst. apply load64_zero. intros x Hx. apply fill_in. by eapply entry_in_page.
  - apply entry_ext; [done|]. intros x Hx. apply fill_out. intros Hx'.
    by eapply (frames_disjoint t np x x).
Qed.

(** ** Well-formed address spaces *)
Section wf.
Context {P : Type} `{PageAllocatorLaws P}.
Implicit Types (s : vmm P) (m : memory) (p : list Z).

(** Every table is a page in use, and no table of the lower half is reached
    along two different paths: the lower half is a tree, disjoint from the
    shared kernel half. *)
Record space_ok (space : Z) s : Prop := {
  so_mem : mem_ok (phys s);
  so_alloc : alloc_inv (allocator s);
  so_table p t : valid_path p → descend (phys s) space p = Some t →
    frame_addr t ∧ ¬ avail (allocator s) t;
  so_inj p1 p2 t : valid_path p1 → user_path p1 → valid_path p2 →
    descend (phys s) space p1 = Some t → descend (phys s) space p2 = Some t → p1 = p2;
}.

Lemma avail_frame q a : alloc_inv q → avail q a → frame_addr a.
Proof.
  intros Hq Ha. apply avail_page in Ha; [|done]. apply phys_page_bounds in Ha.
  split; [lia|apply Ha].
Qed.

(** A table of the lower half. *)
Definition user_table m (space t : Z) : Prop :=
  ∃ p, valid_path p ∧ user_path p ∧ descend m space p = Some t.

(** What the operations on [space] leave alone: CR3, the kernel space, and
    every byte outside free pages and lower-half tables; they make no large
    pages, and a page they take becomes a table. *)
Record frame (space : Z) s s' : Prop := {
  fr_cr3 : cr3 s' = cr3 s;
  fr_kernel : kernel_space s' = kernel_space s;
  fr_avail a : avail (allocator s') a → avail (allocator s) a;
  fr_paths p t : valid_path p → descend (phys s) space p = Some t →
    descend (phys s') space p = Some t;
  fr_new p t : valid_path p → descend (phys s') space p = Some t →
    descend (phys s) space p = Some t ∨ (user_path p ∧ avail (allocator s) t);
  fr_mem x : (∀ a, avail (allocator s) a → ¬ (a ≤ x < a + PAGE_SIZE)) →
    (∀ p t, valid_path p → user_path p → descend (phys s) space p = Some t →
       ¬ (t ≤ x < t + PAGE_SIZE)) →
    phys s' x = phys s x;
  fr_huge p i t : valid_path (p ++ [i]) → user_path (p ++ [i]) →
    descend (phys s') space p = Some t → huge (phys s') t i = true →
    descend (phys s) space p = Some t ∧ huge (phys s) t i = true;
  fr_kept a : avail (allocator s) a →
    avail (allocator s') a ∨ user_table (phys s') space a;
}.

Lemma frame_refl space s : frame space s s.
Proof. split; auto. Qed.

Lemma frame_trans space s1 s2 s3 :
  frame space s1 s2 → frame space s2 s3 → frame space s1 s3.
Proof.
  intros F1 F2. split.
  - rewrite (fr_cr3 _ _ _ F2). apply F1.
  - rewrite (fr_kernel _ _ _ F2). apply F1.
  - intros a Ha. by apply F1, F2.
  - intros p t Hp Ht. by apply F2, F1.
  - intros p t Hp Ht. destruct (fr_new _ _ _ F2 p t Hp Ht) as [H2|[Hu H2]].
    + by apply F1.
    + right. split; [done|by apply F1].
  - intros x Ha Ht. rewrite (fr_mem _ _ _ F2 x).
    + by apply F1.
    + intros a Haa. by apply Ha, F1.
    + intros p t Hp Hu Hd. destruct (fr_new _ _ _ F1 p t Hp Hd) as [H2|[_ H2]].
      * by eapply Ht.
      * by apply Ha.
  - intros p i t Hv Hu Hd Hh. destruct (fr_huge _ _ _ F2 p i t Hv Hu Hd Hh) as [Hd1 Hh1].
    by apply (fr_huge _ _ _ F1).
  - intros a [Ha|(p & Hp & Hu & Hd)]%F1; [by apply F2|].
    right. exists p. split_and!; [done|done|by apply F2].
Qed.

(** Linking a zeroed page [np] under entry [i] of the table at [p]. *)
Section link.
Context (space : Z) s (p : list Z) (i t np : Z) (q : P).
Hypothesis Hok : space_ok space s.
Hypothesis Hvalid : valid_path (p ++ [i]).
Hypothesis Huser : user_path (p ++ [i]).
Hypothesis Ht : descend (phys s) space p = Some t.
Hypothesis Habsent : has (entry (phys s) t i) PTE_P = false.
Hypothesis Hnp : avail (allocator s) np.
Hypothesis Hq : alloc_inv q.
Hypothesis Havail : ∀ b, avail q b ↔ avail (allocator s) b ∧ b ≠ np.

Let e := Z.lor (Z.lor (Z.lor np PTE_P) PTE_RW) PTE_US.
Let m' := store64 (fill (phys s) np PAGE_SIZE 0) (t + 8 * i) e.
Let s' := mkVmm q m' (cr3 s) (kernel_space s).

Local Lemma link_np : frame_addr np.
Proof. eapply avail_frame; [apply Hok|done]. Qed.
Local Lemma link_t : frame_addr t ∧ t ≠ np.
Proof.
  destruct (so_table _ _ Hok p t) as [Hf Hn]; [by eapply valid_prefix|done|].
  split; [done|]. by intros ->.
Qed.

Local Lemma link_entry_at t' j :
  frame_addr t' → 0 ≤ j < 512 →
  entry m' t' j = if decide (t' = t ∧ j = i) then e
                  else if decide (t' = np) then 0 else entry (phys s) t' j.
Proof.
  intros Hf Hj. pose proof (valid_prefix _ _ Hvalid) as [_ Hi].
  unfold m'. rewrite entry_store by (done || apply link_t).
  rewrite entry_fill by (done || apply link_np).
  case_decide; [|done]. apply (link_entry np link_np).
Qed.

Local Lemma link_descend p' :
  valid_path p' →
  descend m' space p' =
  if decide (p' = p ++ [i]) then Some np else descend (phys s) space p'.
Proof.
  pose proof (valid_prefix _ _ Hvalid) as [Hpv Hi].
  destruct link_t as [Htf Htn].
  induction p' as [|j p' IH] using rev_ind; intros Hp'.
  { rewrite decide_False; [done|]. by destruct p. }
  pose proof (valid_prefix _ _ Hp') as [Hp'v Hj]. specialize (IH Hp'v).
  rewrite !descend_snoc, IH. destruct (decide (p' = p ++ [i])) as [->|Hne].
  - rewrite decide_False.
    2: { intros Heq%(f_equal length). rewrite !length_app in Heq. simpl in Heq. lia. }
    rewrite descend_snoc, Ht. unfold next at 2. rewrite Habsent. simpl.
    unfold next. rewrite link_entry_at by (done || apply link_np).
    rewrite decide_False by (intros [? _]; done). by rewrite decide_True.
  - destruct (descend (phys s) space p') as [t'|] eqn:Et'.
    2: { rewrite decide_False; [done|]. intros Heq. apply app_inj_2 in Heq as [-> _]; [|done].
         congruence. }
    destruct (so_table _ _ Hok p' t') as [Ht'f Ht'n]; [done|done|].
    unfold next. rewrite link_entry_at by done.
    rewrite (decide_False (P := t' = np)) by (intros ->; done).
    destruct (decide (t' = t)) as [->|Htt].
    + assert (p = p') as <-
        by (eapply (so_inj _ _ Hok); eauto using user_prefix).
      destruct (decide (j = i)) as [->|Hji].
      * rewrite !decide_True by done. destruct (link_entry np link_np) as (_ & H1 & H2 & H3).
        fold e in H1, H2, H3. by rewrite H1, H2, H3.
      * rewrite decide_False by (intros [_ ?]; done). rewrite decide_False; [done|].
        intros Heq. apply app_inj_2 in Heq as [_ [= ->]]; done.
    + rewrite decide_False by (intros [? _]; done). rewrite decide_False; [done|].
      intros Heq. apply app_inj_2 in Heq as [-> _]; [|done]. congruence.
Qed.

Local Lemma link_old p' : descend (phys s) space p' = Some np → valid_path p' → False.
Proof. intros Hd Hp'. by destruct (so_table _ _ Hok p' np Hp' Hd). Qed.

Lemma link_ok : space_ok space s'.
Proof.
  split; simpl.
  - apply mem_ok_store, mem_ok_fill; [apply Hok|lia].
  - done.
  - intros p' t' Hp'. rewrite link_descend by done. rewrite Havail. case_decide as Hd.
    + intros [= <-]. split; [apply link_np|]. by intros [_ ?].
    + intros Hd'. destruct (so_table _ _ Hok p' t' Hp' Hd') as [? Hn].
      split; [done|]. by intros [? _].
  - intros p1 p2 t' H1 Hu H2. rewrite !link_descend by done.
    repeat case_decide; subst; try done.
    + intros [= <-] Hd. by destruct (link_old p2).
    + intros Hd [= <-]. by destruct (link_old p1).
    + intros Hd1 Hd2. by eapply (so_inj _ _ Hok).
Qed.

Lemma link_absent : descend (phys s) space (p ++ [i]) = None.
Proof. rewrite descend_snoc, Ht. unfold next. by rewrite Habsent. Qed.

Lemma link_frame : frame space s s'.
Proof.
  pose proof link_np as Hnf. destruct link_t as [Htf _].
  pose proof (valid_prefix _ _ Hvalid) as [Hpv Hi].
  split; simpl; try done.
  - intros a Ha. by apply Havail in Ha as [? _].
  - intros p' t' Hp' Hd. rewrite link_descend by done. case_decide; [|done].
    subst. by rewrite link_absent in Hd.
  - intros p' t' Hp'. rewrite link_descend by done. case_decide as Hd; [|by left].
    intros [= <-]. right. by subst.
  - intros x Ha Hx. unfold m', store64. rewrite store_le_out.
    + apply fill_out. by apply Ha.
    + intros Hxi. eapply Hx; [apply Hpv|by eapply user_prefix|done|].
      by eapply entry_in_page.
  - intros p' j t' Hv Hu Hd Hh. pose proof (valid_prefix _ _ Hv) as [Hp'v Hj].
    rewrite link_descend in Hd by done. unfold huge in Hh.
    assert (frame_addr t') as Htf'.
    { case_decide; [by injection Hd as <-|]. by eapply (so_table _ _ Hok p'). }
    rewrite link_entry_at in Hh by done.
    destruct (decide (t' = t ∧ j = i)).
    { destruct (link_entry np Hnf) as (_ & _ & H3 & _). fold e in H3.
      by rewrite H3, andb_false_r in Hh. }
    destruct (decide (t' = np)) as [->|Hne]; [done|].
    case_decide; [by injection Hd as <-|]. done.
  - intros a Ha. destruct (decide (a = np)) as [->|Hne].
    + right. exists (p ++ [i]). split_and!; [done|done|]. simpl.
      by rewrite link_descend, decide_True by done.
    + left. by apply Havail.
Qed.

(** No translation appears or disappears. *)
Lemma link_lookup va : lookup_page m' space va = lookup_page (phys s) space va.
Proof.
  unfold lookup_page. rewrite link_descend by apply idxs_valid.
  destruct (link_t) as [Htf Htn].
  case_decide as Hd.
  - rewrite Hd, link_absent. rewrite link_entry_at by (apply link_np || apply vidx_range).
    rewrite decide_False by (intros [? _]; done). by rewrite decide_True.
  - destruct (descend (phys s) space (idxs va)) as [t'|] eqn:Et'; [|done].
    destruct (so_table _ _ Hok (idxs va) t') as [Ht'f Ht'n]; [apply idxs_valid|done|].
    rewrite link_entry_at by (done || apply vidx_range).
    rewrite (decide_False (P := t' = np)) by (intros ->; done).
    rewrite decide_False; [done|]. intros [-> _].
    assert (p = idxs va) as Hp.
    { eapply (so_inj _ _ Hok); eauto using user_prefix, idxs_valid.
      by eapply valid_prefix. }
    destruct Hvalid as [Hl _]. rewrite Hp, length_app in Hl. simpl in Hl. lia.
Qed.
End link.
(** [s'] has at least the tables of [s] and the same translations. *)
Record extends (space : Z) s s' : Prop := {
  ex_ok : space_ok space s';
  ex_frame : frame space s s';
  ex_lookup va : lookup_page (phys s') space va = lookup_page (phys s) space va;
}.

Lemma extends_refl space s : space_ok space s → extends space s s.
Proof. intros Hok. split; [done|apply frame_refl|done]. Qed.

Lemma extends_trans space s1 s2 s3 :
  extends space s1 s2 → extends space s2 s3 → extends space s1 s3.
Proof.
  intros E1 E2. split; [apply E2| |].
  - eapply frame_trans; [apply E1|apply E2].
  - intros va. rewrite (ex_lookup _ _ _ E2). apply E1.
Qed.

(** A large page blocks the walk for [va]. *)
Definition huge_on_path m (space va : Z) : Prop :=
  ∃ p i t, (∃ k, idxs va = (p ++ [i]) ++ k) ∧ descend m space p = Some t ∧
    has (entry m t i) PTE_P = true ∧ has (entry m t i) PTE_PS = true.

(** The position of the walk after [n] levels. *)
Definition walk_at (space va : Z) (n : nat) (st : Z * Z) s : Prop :=
  (n ≤ 3)%nat ∧ st.2 = 4 - Z.of_nat n ∧
  descend (phys s) space (take n (idxs va)) = Some st.1.

Lemma idxs_take va n : (n < 3)%nat →
  take (S n) (idxs va) = take n (idxs va) ++ [vidx va (4 - Z.of_nat n)].
Proof.
  intros Hn. destruct n as [|[|[|n]]]; [reflexivity|reflexivity|reflexivity|lia].
Qed.
Lemma take_valid va n : valid_path (take n (idxs va)).
Proof.
  destruct (idxs_valid va) as [Hl Hf]. split.
  - rewrite length_take. lia.
  - by apply Forall_take.
Qed.
Lemma take_user va n : user_va va → user_path (take n (idxs va)).
Proof. by destruct n. Qed.

Lemma wp_walk space va create s :
  space_ok space s → user_va va →
  wp (walk space va create 1) (λ r s',
    extends space s s' ∧ (create = false → s' = s) ∧
    match r with
    | Some t => descend (phys s') space (idxs va) = Some t
    | None => huge_on_path (phys s') space va ∨
              (if create then ∀ b, ¬ avail (allocator s') b
               else descend (phys s') space (idxs va) = None)
    end) s.
Proof.
  intros Hok Huser. unfold walk.
  apply (wp_loop (λ st s', extends space s s' ∧ (create = false → s' = s) ∧
      ∃ n, walk_at space va n st s') (λ st, Z.to_nat (st.2))).
  { split_and!; [by apply extends_refl|done|]. exists 0%nat. split; [lia|done]. }
  { simpl. lia. }
  clear Hok. intros [tbl lvl] s1 (Hext & Hro & n & Hn & Hlvl & Hd). simpl in Hlvl, Hd.
  pose proof (ex_ok _ _ _ Hext) as Hok. unfold walk_step, get_entry, set_entry, zero_table, pmm_call.
  rewrite !Z.gtb_ltb.
  destruct (Z.ltb_spec 1 lvl) as [Hlt|Hge].
  2: { wp_run. split_and!; [done|done|]. by replace n with 3%nat in Hd by lia. }
  assert (n < 3)%nat as Hn3 by lia. pose proof (idxs_take va n Hn3) as Htake.
  rewrite <- Hlvl in Htake.
  pose proof (take_valid va (S n)) as Hv. pose proof (take_user va (S n) Huser) as Hu.
  rewrite Htake in Hv, Hu. pose proof (valid_prefix _ _ Hv) as [Hvp Hi].
  destruct (so_table _ _ Hok _ _ Hvp Hd) as [Htf Htn].
  assert (∃ k, idxs va = (take n (idxs va) ++ [vidx va lvl]) ++ k) as Hpre.
  { exists (drop (S n) (idxs va)). rewrite <- Htake. symmetry. apply take_drop. }
  wp_run. fold (entry (phys s1) tbl (vidx va lvl)).
  set (e := entry (phys s1) tbl (vidx va lvl)).
  destruct (has e PTE_P) eqn:HP; cbn [negb].
  - destruct (has e PTE_PS) eqn:HPS; cbn [andb].
    + wp_run.
      split_and!; [done|done|]. left. by exists (take n (idxs va)), (vidx va lvl), tbl.
    + wp_run. split; [|simpl; lia]. split_and!; [done|done|].
      exists (S n). split; [lia|]. split; [simpl; lia|]. rewrite Htake, descend_snoc, Hd.
      unfold next. fold e. by rewrite HP, HPS.
  - destruct create; cbn [negb].
    2: { wp_run. split_and!; [done|done|]. right.
         destruct Hpre as [k ->]. clear -Hd HP.
         assert (∀ m t p k, descend m t p = None → descend m t (p ++ k) = None) as Happ.
         { intros m t p. revert t. induction p as [|j p IH]; intros t k'; simpl; [done|].
           destruct (next m t j); [apply IH|done]. }
         apply Happ. rewrite descend_snoc, Hd. unfold next. fold e. by rewrite HP. }
    wp_run. wp_use alloc_page_law; [apply Hok|].
    intros np q [Hq [(-> & -> & Hno)|[Hav Hav']]]; simpl.
    { wp_run. split_and!; [by destruct s1|done|]. by right. }
    pose proof (avail_page _ _ (so_alloc _ _ Hok) Hav) as Hpb%phys_page_bounds.
    rewrite (proj2 (Z.eqb_neq np 0)) by lia. wp_run. simpl.
    pose proof (link_ok space s1 _ _ tbl np q Hok Hv Hu Hd HP Hav Hq Hav') as Hlok.
    pose proof (link_frame space s1 _ _ tbl np q Hok Hv Hu Hd HP Hav Hav') as Hlfr.
    pose proof (link_lookup space s1 _ _ tbl np q Hok Hv Hu Hd HP Hav) as Hll.
    pose proof (link_descend space s1 _ _ tbl np q Hok Hv Hu Hd HP Hav _ Hv) as Hld.
    rewrite decide_True in Hld by done.
    assert (frame_addr np) as Hnf by (by eapply avail_frame; [apply Hok|]).
    destruct (link_entry np Hnf) as (H1 & H2 & H3 & H4).
    set (e' := Z.lor _ PTE_US) in *. rewrite load_store64, H1, H4.
    split; [|simpl; lia]. split_and!; [|done|].
    + eapply extends_trans; [done|]. split; [exact Hlok|exact Hlfr|exact Hll].
    + exists (S n). split; [lia|]. split; [simpl; lia|]. by rewrite Htake.
Qed.

(** Rewriting a leaf entry. *)
Section leaf.
Context (space : Z) s (va t v : Z).
Hypothesis Hok : space_ok space s.
Hypothesis Huser : user_va va.
Hypothesis Ht : descend (phys s) space (idxs va) = Some t.

Let m' := store64 (phys s) (t + 8 * vidx va 1) v.

Local Lemma leaf_frame_addr : frame_addr t.
Proof. eapply (so_table _ _ Hok); [apply idxs_valid|done]. Qed.

Local Lemma leaf_entry t' j :
  frame_addr t' → 0 ≤ j < 512 →
  entry m' t' j = if decide (t' = t ∧ j = vidx va 1) then u64 v else entry (phys s) t' j.
Proof.
  intros. apply entry_store; [apply leaf_frame_addr|done|apply vidx_range|done].
Qed.

Lemma leaf_descend p : valid_path p → descend m' space p = descend (phys s) space p.
Proof.
  induction p as [|j p IH] using rev_ind; intros Hp; [done|].
  pose proof (valid_prefix _ _ Hp) as [Hpv Hj]. rewrite !descend_snoc, IH by done.
  destruct (descend (phys s) space p) as [t'|] eqn:Et'; [|done].
  destruct (so_table _ _ Hok p t') as [Ht'f _]; [done|done|].
  unfold next. rewrite leaf_entry by done. rewrite decide_False; [done|].
  intros [-> _].
  assert (idxs va = p) as Heq.
  { eapply (so_inj _ _ Hok); eauto using idxs_valid. }
  destruct Hp as [Hl _]. rewrite <- Heq, length_app in Hl. simpl in Hl. lia.
Qed.

Lemma leaf_lookup va' :
  lookup_page m' space va' =
  if decide (vpage va' = vpage va)
  then (if has (u64 v) PTE_P then Some (u64 v) else None)
  else lookup_page (phys s) space va'.
Proof.
  unfold lookup_page. rewrite leaf_descend by apply idxs_valid.
  destruct (decide (idxs va' = idxs va)) as [Hi|Hi].
  - rewrite Hi, Ht. rewrite leaf_entry by (apply leaf_frame_addr || apply vidx_range).
    destruct (decide (vidx va' 1 = vidx va 1)) as [H1|H1].
    + rewrite !decide_True; [done| |done]. unfold vpage. by rewrite Hi, H1.
    + rewrite !decide_False; [done| |by intros [_ ?]].
      unfold vpage. rewrite Hi. intros [= Heq]. done.
  - rewrite (decide_False (P := vpage va' = vpage va)).
    2: { unfold vpage. intros Heq. by apply app_inj_2 in Heq as [? _]. }
    destruct (descend (phys s) space (idxs va')) as [t'|] eqn:Et'; [|done].
    destruct (so_table _ _ Hok (idxs va') t') as [Ht'f _]; [apply idxs_valid|done|].
    rewrite leaf_entry by (done || apply vidx_range).
    rewrite decide_False; [done|]. intros [-> _]. apply Hi. symmetry.
    eapply (so_inj _ _ Hok); eauto using idxs_valid.
Qed.

Lemma leaf_ok : space_ok space (set_phys m' s).
Proof.
  split; simpl.
  - apply mem_ok_store, Hok.
  - apply Hok.
  - intros p t' Hp. rewrite leaf_descend by done. by apply Hok.
  - intros p1 p2 t' H1 Hu H2. rewrite !leaf_descend by done. by apply (so_inj _ _ Hok).
Qed.

Lemma leaf_frame : frame space s (set_phys m' s).
Proof.
  split; simpl; try done.
  - intros p t' Hp. by rewrite leaf_descend.
  - intros p t' Hp. rewrite leaf_descend by done. by left.
  - intros x _ Hx. apply store_le_out. intros Hxi.
    eapply Hx; [apply idxs_valid|exact Huser|exact Ht|].
    eapply entry_in_page; [apply (vidx_range va 1)|exact Hxi].
  - intros p j t' Hv Hu. pose proof (valid_prefix _ _ Hv) as [Hpv Hj].
    rewrite leaf_descend by done. intros Hd. unfold huge.
    destruct (so_table _ _ Hok p t' Hpv Hd) as [Htf _].
    rewrite leaf_entry by done. rewrite decide_False; [done|]. intros [-> _].
    assert (idxs va = p) as Heq by (eapply (so_inj _ _ Hok); eauto using idxs_valid).
    destruct Hv as [Hl _]. rewrite <- Heq, length_app in Hl. simpl in Hl. lia.
  - by left.
Qed.
End leaf.

Lemma idx_is_vidx va : Z.land (Z.shiftr va 12) 0x1FF = vidx va 1.
Proof. reflexivity. Qed.

Lemma map_entry pa flags :
  0 ≤ flags < 2 ^ 64 →
  let e := Z.lor (Z.lor (Z.land pa PTE_ADDR_MASK) flags) PTE_P in
  u64 e = e ∧ has e PTE_P = true.
Proof.
  intros Hfl e. destruct (masked_frame pa) as [Hr _]. split.
  - apply u64_id.
    assert (0 ≤ e) as He by (unfold e; rewrite !Z.lor_nonneg; repeat split; done || lia).
    split; [done|]. apply u64_of_bits; [done|]. intros k Hk. unfold e, PTE_P.
    rewrite !Z.lor_spec, !(testbit_u64_high) by (lia || done). done.
  - unfold PTE_P. rewrite has_bit by done. unfold e, PTE_P. rewrite !Z.lor_spec.
    apply orb_true_r.
Qed.

Lemma wp_map space va pa flags s :
  space_ok space s → user_va va → 0 ≤ flags < 2 ^ 64 →
  let e := Z.lor (Z.lor (Z.land pa PTE_ADDR_MASK) flags) PTE_P in
  wp (map space va pa flags) (λ b s', space_ok space s' ∧ frame space s s' ∧
    (∀ va', lookup_page (phys s') space va' =
       if decide (b = true ∧ vpage va' = vpage va) then Some e
       else lookup_page (phys s) space va') ∧
    (b = false → huge_on_path (phys s') space va ∨ ∀ a, ¬ avail (allocator s') a)) s.
Proof.
  intros Hok Huser Hfl e. destruct (map_entry pa flags Hfl) as [H1 H2]. fold e in H1, H2.
  unfold map, set_entry. wp_run. wp_use wp_walk; [done|done|].
  intros [t|] s1 (Hext & _ & Hr); wp_run.
  2: { split_and!; [apply Hext|apply Hext| |done]. intros va'.
       rewrite decide_False by (by intros [? _]). apply Hext. }
  rewrite idx_is_vidx. fold e. pose proof (ex_ok _ _ _ Hext) as Hok1. split_and!.
  - by apply (leaf_ok space s1 va t e).
  - eapply frame_trans; [apply Hext|by apply (leaf_frame space s1 va t e)].
  - intros va'. cbn [phys set_phys]. rewrite leaf_lookup by done. rewrite H1, H2.
    destruct (decide (vpage va' = vpage va)).
    + by rewrite decide_True.
    + rewrite decide_False by (by intros [_ ?]). apply Hext.
  - done.
Qed.

Lemma lookup_absent m space va :
  descend m space (idxs va) = None → lookup_page m space va = None.
Proof. intros Hd. unfold lookup_page. by rewrite Hd. Qed.

Lemma huge_absent m space va : huge_on_path m space va → lookup_page m space va = None.
Proof.
  intros (p & i & t & [k Hk] & Hd & HP & HPS). apply lookup_absent. rewrite Hk.
  assert (∀ q u r, descend m u q = None → descend m u (q ++ r) = None) as Happ.
  { induction q as [|j q IH]; intros u r; simpl; [done|].
    destruct (next m u j); [apply IH|done]. }
  apply Happ. rewrite descend_snoc, Hd. unfold next. by rewrite HP, HPS.
Qed.

(** [walk] without [create], as the clients of a page use it. *)
Lemma wp_walk_read space va s :
  space_ok space s → user_va va →
  wp (walk space va false 1) (λ r s', s' = s ∧
    match r with
    | Some t => descend (phys s) space (idxs va) = Some t
    | None => lookup_page (phys s) space va = None
    end) s.
Proof.
  intros Hok Hu. wp_use wp_walk; [done|done|]. intros r s' (_ & Hro & Hr).
  rewrite Hro in * by done. split; [done|]. destruct r; [done|].
  destruct Hr; [by apply huge_absent|by apply lookup_absent].
Qed.

Lemma wp_translate space va s :
  space_ok space s → user_va va →
  wp (translate space va) (λ a s', s' = s ∧
    a = match lookup_page (phys s) space va with
        | Some e => Z.land e PTE_ADDR_MASK + Z.land va (PAGE_SIZE - 1)
        | None => 0
        end) s.
Proof.
  intros Hok Hu. unfold translate, get_entry. wp_run. wp_use wp_walk_read; [done|done|].
  intros [t|] s' [-> Hr]; wp_run; [|by rewrite Hr].
  rewrite idx_is_vidx. unfold lookup_page. rewrite Hr.
  fold (entry (phys s) t (vidx va 1)). set (e := entry _ _ _).
  destruct (has e PTE_P); cbn [negb]; wp_run; [|done]. split; [done|].
  destruct (masked_frame e) as [Hf _]. apply u64_id.
  change (PAGE_SIZE - 1) with (Z.ones 12). rewrite Z.land_ones by done.
  pose proof (Z.mod_pos_bound va (2 ^ 12) eq_refl). lia.
Qed.

Lemma wp_unmap space va s :
  space_ok space s → user_va va →
  wp (unmap space va) (λ b s', space_ok space s' ∧ frame space s s' ∧
    allocator s' = allocator s ∧
    b = bool_decide (is_Some (lookup_page (phys s) space va)) ∧
    ∀ va', lookup_page (phys s') space va' =
      if decide (vpage va' = vpage va) then None else lookup_page (phys s) space va') s.
Proof.
  intros Hok Hu.
  assert (∀ va', lookup_page (phys s) space va = None →
    lookup_page (phys s) space va' =
      if decide (vpage va' = vpage va) then None else lookup_page (phys s) space va') as Hnone.
  { intros va' Hn. case_decide as Hd; [|done].
    rewrite <- Hn. unfold lookup_page. unfold vpage in Hd.
    apply app_inj_2 in Hd as [-> [= ->]]; done. }
  unfold unmap, get_entry, set_entry. wp_run. wp_use wp_walk_read; [done|done|].
  intros [t|] s' [-> Hr]; wp_run.
  2: { split_and!; auto using frame_refl. by rewrite Hr. }
  rewrite idx_is_vidx. fold (entry (phys s) t (vidx va 1)).
  assert (lookup_page (phys s) space va =
    if has (entry (phys s) t (vidx va 1)) PTE_P then Some (entry (phys s) t (vidx va 1))
    else None) as Hl by (unfold lookup_page; by rewrite Hr).
  destruct (has _ PTE_P) eqn:HP; cbn [negb]; wp_run.
  2: { split_and!; auto using frame_refl. by rewrite Hl. }
  split_and!; [by apply (leaf_ok space s va t 0)|by apply (leaf_frame space s va t 0)
    |done|by rewrite Hl|].
  intros va'. cbn [phys set_phys]. by rewrite leaf_lookup.
Qed.
End wf.

(** ** Address arithmetic *)
Lemma vidx_div va lvl : 1 ≤ lvl → vidx va lvl = va / 2 ^ (12 + (lvl - 1) * 9) mod 512.
Proof.
  intros Hl. unfold vidx. change 0x1FF with (Z.ones 9).
  by rewrite Z.land_ones, Z.shiftr_div_pow2 by lia.
Qed.

Lemma user_va_half va : 0 ≤ va < 2 ^ 47 → user_va va.
Proof.
  intros Hva. unfold user_va. rewrite vidx_div by done.
  change (2 ^ 47) with (2 ^ (12 + (4 - 1) * 9) * 256) in Hva.
  assert (0 ≤ va / 2 ^ (12 + (4 - 1) * 9) < 256) as Hd.
  { split; [by apply Z.div_pos; [lia|]|]. by apply Z.div_lt_upper_bound; [|lia]. }
  rewrite Z.mod_small; lia.
Qed.

(** For canonical lower-half addresses, the four indices are the page. *)
Lemma vpage_page va va' :
  0 ≤ va < 2 ^ 47 → 0 ≤ va' < 2 ^ 47 →
  vpage va' = vpage va ↔ va' / PAGE_SIZE = va / PAGE_SIZE.
Proof.
  intros Hva Hva'. unfold vpage, idxs. simpl. rewrite !vidx_div by done.
  change (2 ^ (12 + (4 - 1) * 9)) with (PAGE_SIZE * 512 * 512 * 512).
  change (2 ^ (12 + (3 - 1) * 9)) with (PAGE_SIZE * 512 * 512).
  change (2 ^ (12 + (2 - 1) * 9)) with (PAGE_SIZE * 512).
  change (2 ^ (12 + (1 - 1) * 9)) with PAGE_SIZE.
  assert (∀ x c, 0 < c → 0 ≤ x → x / (c * 512) = x / c / 512) as Hdd
    by (intros; by rewrite Z.div_div by lia).
  rewrite !Hdd by (unfold PAGE_SIZE; lia).
  assert (∀ x, 0 ≤ x < 2 ^ 47 → 0 ≤ x / PAGE_SIZE < 512 * 512 * 512 * 512) as Hr
    by (unfold PAGE_SIZE; dlia).
  pose proof (Hr va Hva). pose proof (Hr va' Hva').
  generalize dependent (va / PAGE_SIZE). generalize dependent (va' / PAGE_SIZE).
  intros y Hy z Hz. split; [|by intros ->]. intros [= H4 H3 H2 H1].
  rewrite (Z.div_mod y 512), (Z.div_mod z 512), H1 by done.
  rewrite (Z.div_mod (y / 512) 512), (Z.div_mod (z / 512) 512), H2 by done.
  rewrite (Z.div_mod (y / 512 / 512) 512), (Z.div_mod (z / 512 / 512) 512), H3 by done.
  rewrite (Z.mod_small (y / 512 / 512 / 512)), (Z.mod_small (z / 512 / 512 / 512)) in H4 by dlia.
  by rewrite H4.
Qed.

Section spaces.
Context {P : Type} `{PageAllocatorLaws P}.
Implicit Types (s : vmm P) (m : memory) (p : list Z).

Lemma descend_ext m m' t p :
  (∀ q u, (∃ k, p = q ++ k) → descend m t q = Some u →
     ∀ i, 0 ≤ i < 512 → entry m' u i = entry m u i) →
  Forall (λ i, 0 ≤ i < 512) p →
  descend m' t p = descend m t p.
Proof.
  revert t. induction p as [|i p IH]; intros t He Hp; [done|].
  inversion_clear Hp as [|? ? Hi Hp']. simpl.
  assert (next m' t i = next m t i) as Hn.
  { unfold next. rewrite (He [] t); [done|by exists (i :: p)|done|done]. }
  rewrite Hn. destruct (next m t i) as [t'|] eqn:Et; [|done].
  apply IH; [|done]. intros q u [k ->] Hd j Hj.
  apply (He (i :: q)); [by exists k| |done]. simpl. by rewrite Et.
Qed.

(** No table of the space [b] is a lower-half table of the space [a]. *)
Definition tables_disjoint (a b : Z) s : Prop :=
  ∀ p1 p2 t, valid_path p1 → user_path p1 → valid_path p2 →
    descend (phys s) a p1 = Some t → descend (phys s) b p2 = Some t → False.

Lemma frame_table (a b : Z) s s' p t :
  frame a s s' → space_ok a s → space_ok b s → tables_disjoint a b s →
  valid_path p → descend (phys s) b p = Some t →
  ∀ x, t ≤ x < t + PAGE_SIZE → phys s' x = phys s x.
Proof.
  intros Hfr Ha Hb Hdis Hp Ht x Hx.
  destruct (so_table _ _ Hb p t) as [[_ Htf] Htn]; [done|done|].
  apply Hfr.
  - intros c Hc Hxc. assert (frame_addr c) as [_ Hcf]
      by (eapply avail_frame; [apply Ha|done]).
    eapply (frames_disjoint t c x x); try done. by intros ->.
  - intros q u Hq Hu Hd Hxu. destruct (so_table _ _ Ha q u) as [[_ Huf] _]; [done|done|].
    eapply (frames_disjoint t u x x); try done. intros ->. exact (Hdis q p u Hq Hu Hp Hd Ht).
Qed.

Lemma frame_other (a b : Z) s s' :
  frame a s s' → space_ok a s → space_ok b s → tables_disjoint a b s →
  (∀ p, valid_path p → descend (phys s') b p = descend (phys s) b p) ∧
  (∀ va, lookup_page (phys s') b va = lookup_page (phys s) b va).
Proof.
  intros Hfr Ha Hb Hdis.
  assert (∀ p t i, valid_path p → descend (phys s) b p = Some t → 0 ≤ i < 512 →
    entry (phys s') t i = entry (phys s) t i) as He.
  { intros p t i Hp Ht Hi. apply entry_ext; [done|]. by eapply frame_table. }
  assert (∀ p, valid_path p → descend (phys s') b p = descend (phys s) b p) as Hd.
  { intros p [Hl Hf]. apply descend_ext; [|done]. intros q u [k ->] Hq i Hi.
    eapply He; [|done|done]. rewrite length_app in Hl. apply Forall_app in Hf as [Hf _].
    split; [lia|done]. }
  split; [done|]. intros va. unfold lookup_page. rewrite Hd by apply idxs_valid.
  destruct (descend _ b (idxs va)) as [t|] eqn:Et; [|done].
  by erewrite He by (eauto using idxs_valid, vidx_range).
Qed.

Lemma space_ok_other (a b : Z) s s' :
  frame a s s' → space_ok a s → space_ok a s' → space_ok b s → tables_disjoint a b s →
  space_ok b s'.
Proof.
  intros Hfr Ha Ha' Hb Hdis. destruct (frame_other a b s s' Hfr Ha Hb Hdis) as [Hd _].
  split; [apply Ha'|apply Ha'| |].
  - intros p t Hp. rewrite Hd by done. intros Ht.
    destruct (so_table _ _ Hb p t Hp Ht) as [? Hn]. split; [done|].
    intros Hav. by apply Hn, Hfr.
  - intros p1 p2 t H1 Hu H2. rewrite !Hd by done. by apply (so_inj _ _ Hb).
Qed.

(** ** Fresh address spaces *)

Lemma wp_copy_high_half new old s :
  frame_addr new → frame_addr old → new ≠ old →
  (∀ i, 0 ≤ i < 512 → 0 ≤ entry (phys s) old i < 2 ^ 64) →
  wp (copy_high_half new old) (λ _ s', allocator s' = allocator s ∧
    cr3 s' = cr3 s ∧ kernel_space s' = kernel_space s ∧
    (mem_ok (phys s) → mem_ok (phys s')) ∧
    (∀ i, 0 ≤ i < 512 → entry (phys s') new i =
       if 256 <=? i then entry (phys s) old i else entry (phys s) new i) ∧
    (∀ x, ¬ (new ≤ x < new + PAGE_SIZE) → phys s' x = phys s x)) s.
Proof.
  intros Hnew Hold Hne Hrange. unfold copy_high_half.
  apply (wp_for_each (λ k s', allocator s' = allocator s ∧ cr3 s' = cr3 s ∧
    kernel_space s' = kernel_space s ∧ (mem_ok (phys s) → mem_ok (phys s')) ∧
    (∀ i, 0 ≤ i < 512 → entry (phys s') new i =
       if (256 <=? i) && (i <? k) then entry (phys s) old i else entry (phys s) new i) ∧
    (∀ x, ¬ (new ≤ x < new + PAGE_SIZE) → phys s' x = phys s x))).
  - done.
  - split_and!; try done. intros i Hi.
    destruct (Z.leb_spec 256 i), (Z.ltb_spec i 256); simpl; done || lia.
  - intros k s1 Hk (H1 & H2 & H3 & H4 & H5 & H6). unfold get_entry, set_entry, PT_ENTRIES in *.
    wp_run. simpl.
    fold (entry (phys s1) old k).
    assert (entry (phys s1) old k = entry (phys s) old k) as Hek.
    { apply entry_ext; [lia|]. intros x Hx. apply H6. intros Hx'.
      eapply (frames_disjoint old new x x); eauto; try apply Hold; try apply Hnew. }
    rewrite Hek. split_and!; try done.
    + intros Hm. apply mem_ok_store. auto.
    + intros i Hi. rewrite entry_store by (done || lia).
      destruct (decide (new = new ∧ i = k)) as [[_ ->]|Hik].
      * rewrite u64_id by (apply Hrange; lia).
        destruct (Z.leb_spec 256 k), (Z.ltb_spec k (k + 1)); simpl; done || lia.
      * assert (i ≠ k) by (by intros ->; apply Hik). rewrite H5 by done.
        destruct (Z.leb_spec 256 i), (Z.ltb_spec i k), (Z.ltb_spec i (k + 1));
          simpl; done || lia.
    + intros x Hx. rewrite <- H6 by done. apply store_le_out. intros Hx'. apply Hx.
      eapply entry_in_page; [|exact Hx']. lia.
  - intros s' (H1 & H2 & H3 & H4 & H5 & H6). split_and!; try done.
    intros i Hi. rewrite H5 by done. unfold PT_ENTRIES.
    destruct (Z.leb_spec 256 i), (Z.ltb_spec i 512); simpl; done || lia.
Qed.
(** A page outside the tables of [k] is rewritten: [k] is as before. *)
Lemma outside_tables k a s m' :
  space_ok k s → frame_addr a → avail (allocator s) a →
  (∀ x, ¬ (a ≤ x < a + PAGE_SIZE) → m' x = phys s x) →
  (∀ p t i, valid_path p → descend (phys s) k p = Some t → 0 ≤ i < 512 →
     entry m' t i = entry (phys s) t i) ∧
  (∀ p, valid_path p → descend m' k p = descend (phys s) k p).
Proof.
  intros Hk [_ Ha] Hav Hm.
  assert (∀ p t i, valid_path p → descend (phys s) k p = Some t → 0 ≤ i < 512 →
     entry m' t i = entry (phys s) t i) as He.
  { intros p t i Hp Ht Hi. destruct (so_table _ _ Hk p t Hp Ht) as [[_ Htf] Htn].
    apply entry_ext; [done|]. intros x Hx. apply Hm. intros Hx'.
    eapply (frames_disjoint t a x x); try done. by intros ->. }
  split; [done|]. intros p [Hl Hf]. apply descend_ext; [|done].
  intros q u [r ->] Hq i Hi. eapply He; [|done|done].
  rewrite length_app in Hl. apply Forall_app in Hf as [Hf _]. split; [lia|done].
Qed.

(** The root page [a] holds zeroes below entry 256 and the entries of the
    kernel root [k] above. *)
Section fresh.
Context (k a : Z) s (q : P) (m' : memory).
Hypothesis Hk : space_ok k s.
Hypothesis Hav : avail (allocator s) a.
Hypothesis Hq : alloc_inv q.
Hypothesis Havail : ∀ b, avail q b ↔ avail (allocator s) b ∧ b ≠ a.
Hypothesis Hmem : mem_ok m'.
Hypothesis Hout : ∀ x, ¬ (a ≤ x < a + PAGE_SIZE) → m' x = phys s x.
Hypothesis Hroot : ∀ i, 0 ≤ i < 512 →
  entry m' a i = if 256 <=? i then entry (phys s) k i else 0.

Let s' := mkVmm q m' (cr3 s) (kernel_space s).

Local Lemma fresh_frame : frame_addr a.
Proof. eapply avail_frame; [apply Hk|done]. Qed.

Local Lemma fresh_descend i p :
  valid_path (i :: p) →
  descend m' a (i :: p) = if 256 <=? i then descend (phys s) k (i :: p) else None.
Proof.
  intros Hp. pose proof Hp as [_ Hf]. inversion_clear Hf as [|? ? Hi _].
  destruct (outside_tables k a s m' Hk fresh_frame Hav Hout) as [He Hd].
  simpl. unfold next at 1. rewrite Hroot by done.
  destruct (256 <=? i) eqn:E; [|done].
  specialize (Hd (i :: p) Hp). simpl in Hd. unfold next in Hd at 1.
  rewrite (He [] k i) in Hd by (done || (split; [simpl; lia|constructor])). exact Hd.
Qed.

Lemma fresh_ok : space_ok a s'.
Proof.
  split; simpl; [done|done| |].
  - intros [|i p] t Hp.
    + simpl. intros [= <-]. split; [apply fresh_frame|]. rewrite Havail. by intros [_ ?].
    + rewrite fresh_descend by done. destruct (256 <=? i); [|done]. intros Ht.
      destruct (so_table _ _ Hk _ _ Hp Ht) as [? Hn]. split; [done|].
      rewrite Havail. by intros [? _].
  - intros p1 p2 t H1 Hu H2 Hd1 Hd2. destruct p1 as [|i p1].
    + simpl in Hd1. injection Hd1 as <-. destruct p2 as [|j p2]; [done|].
      rewrite fresh_descend in Hd2 by done. destruct (256 <=? j); [|done].
      by destruct (so_table _ _ Hk _ _ H2 Hd2).
    + rewrite fresh_descend in Hd1 by done. simpl in Hu.
      by rewrite (proj2 (Z.leb_gt 256 i)) in Hd1 by lia.
Qed.

Lemma fresh_old_ok : space_ok k s'.
Proof.
  destruct (outside_tables k a s m' Hk fresh_frame Hav Hout) as [_ Hd].
  split; simpl; [done|done| |].
  - intros p t Hp. rewrite Hd by done. intros Ht.
    destruct (so_table _ _ Hk _ _ Hp Ht) as [? Hn]. split; [done|].
    rewrite Havail. by intros [? _].
  - intros p1 p2 t H1 Hu H2. rewrite !Hd by done. by apply (so_inj _ _ Hk).
Qed.

Lemma fresh_lookup va :
  lookup_page m' a va =
  if decide (user_va va) then None else lookup_page (phys s) k va.
Proof.
  destruct (outside_tables k a s m' Hk fresh_frame Hav Hout) as [He Hd].
  unfold lookup_page. unfold idxs at 1. rewrite fresh_descend by apply (idxs_valid va).
  unfold user_va. case_decide.
  - by rewrite (proj2 (Z.leb_gt 256 _)) by lia.
  - rewrite (proj2 (Z.leb_le 256 _)) by lia. fold (idxs va).
    destruct (descend (phys s) k (idxs va)) as [t|] eqn:Et; [|done].
    by erewrite He by (eauto using idxs_valid, vidx_range).
Qed.

Lemma fresh_tables p t :
  valid_path p → user_path p → descend m' a p = Some t → p = [] ∧ t = a.
Proof.
  intros Hp Hu. destruct p as [|i p]; [by intros [= ->]|].
  rewrite fresh_descend by done. simpl in Hu. by rewrite (proj2 (Z.leb_gt 256 i)) by lia.
Qed.
End fresh.

(** [a] is a space of its own with the kernel half of [k]. *)
Record fresh_root (k a : Z) s s' : Prop := {
  fo_old : space_ok k s';
  fo_ok : space_ok a s';
  fo_cr3 : cr3 s' = cr3 s;
  fo_kernel : kernel_space s' = kernel_space s;
  fo_lookup va : lookup_page (phys s') a va =
    if decide (user_va va) then None else lookup_page (phys s) k va;
  fo_tables p t : valid_path p → user_path p → descend (phys s') a p = Some t → t = a;
  fo_mem x : ¬ (a ≤ x < a + PAGE_SIZE) → phys s' x = phys s x;
  fo_avail b : avail (allocator s') b ↔ avail (allocator s) b ∧ b ≠ a;
  fo_low i : 0 ≤ i < 256 → entry (phys s') a i = 0;
}.

Lemma wp_fresh_root k a q s :
  space_ok k s → avail (allocator s) a → alloc_inv q → (∀ b, avail q b ↔ avail (allocator s) b ∧ b ≠ a) →
  wp (copy_high_half a k) (λ _ s', fresh_root k a s s') (set_phys (fill (phys s) a PAGE_SIZE 0) (set_allocator q s)).
Proof.
  intros Hk Hav Hq Hav'. assert (frame_addr a) as Ha by (eapply avail_frame; [apply Hk|done]).
  destruct (so_table _ _ Hk [] k) as [Hkf Hkn]; [by split; [simpl; lia|constructor]|done|].
  assert (a ≠ k) as Hne by (by intros ->).
  wp_use wp_copy_high_half; [done|done|done| |].
  { intros i Hi. apply load64_range. apply mem_ok_fill; [apply Hk|lia]. }
  intros _ s' (H1 & H2 & H3 & H4 & H5 & H6).
  cbn [allocator phys cr3 kernel_space set_phys set_allocator] in *.
  assert (∀ i, 0 ≤ i < 512 → entry (phys s') a i = if 256 <=? i then entry (phys s) k i else 0) as Hroot.
  { intros i Hi. rewrite H5 by done. rewrite !entry_fill by done.
    rewrite decide_False by done. by rewrite decide_True. }
  assert (∀ x, ¬ (a ≤ x < a + PAGE_SIZE) → phys s' x = phys s x) as Hout.
  { intros x Hx. rewrite H6 by done. by apply fill_out. }
  assert (mem_ok (phys s')) as Hmem by (apply H4, mem_ok_fill; [apply Hk|lia]).
  assert (s' = mkVmm q (phys s') (cr3 s) (kernel_space s)) as Hs'.
  { destruct s'; cbn in H1, H2, H3 |- *; congruence. }
  rewrite Hs'. split; cbn [phys kernel_space cr3 allocator]; try done.
  - by eapply (fresh_old_ok _ a).
  - by eapply (fresh_ok k).
  - intros va. by eapply fresh_lookup.
  - intros p t Hp Hu Hd. by eapply (fresh_tables k a s q (phys s') Hk Hav) in Hd as [_ ?].
  - intros i Hi. rewrite Hroot by lia. by rewrite (proj2 (Z.leb_gt 256 i)) by lia.
Qed.

Lemma wp_new_space s :
  space_ok (kernel_space s) s →
  wp new_space (λ a s',
    (a = 0 ∧ s' = s ∧ ∀ b, ¬ avail (allocator s) b) ∨
    (avail (allocator s) a ∧ fresh_root (kernel_space s) a s s')) s.
Proof.
  intros Hk. unfold new_space, zero_table, pmm_call. wp_run.
  wp_use alloc_page_law; [apply Hk|].
  intros a q [Hq [(-> & -> & Hno)|[Hav Hav']]]; cbv beta.
  { rewrite Z.eqb_refl. wp_run. destruct s. by left. }
  pose proof (avail_page _ _ (so_alloc _ _ Hk) Hav) as Hpb%phys_page_bounds.
  rewrite (proj2 (Z.eqb_neq a 0)) by lia. cbv iota. wp_run. cbn [kernel_space set_phys set_allocator].
  wp_use (wp_fresh_root (kernel_space s) a q s); [exact Hk|done|done|done|]. intros _ s' Hf. wp_run. by right.
Qed.

(** The kernel's own tables: the kernel half of those in CR3, from then on
    the kernel space and in CR3. *)
Lemma wp_vmm_init s :
  space_ok (Z.land (cr3 s) PTE_ADDR_MASK) s → (∃ b, avail (allocator s) b) →
  wp init (λ _ s', ∃ a s1, avail (allocator s) a ∧
    fresh_root (Z.land (cr3 s) PTE_ADDR_MASK) a s s1 ∧ s' = set_cr3 a (set_kernel_space a s1)) s.
Proof.
  intros Hk [b Hb]. unfold init, zero_table, pmm_call. wp_run. wp_use alloc_page_law; [apply Hk|].
  intros a q [Hq [(-> & -> & Hno)|[Hav Hav']]]; [by destruct (Hno b)|].
  wp_run. cbn [cr3 set_phys set_allocator].
  wp_use (wp_fresh_root (Z.land (cr3 s) PTE_ADDR_MASK) a q s); [exact Hk|done|done|done|].
  intros _ s1 Hf. wp_run. by exists a, s1.
Qed.
End spaces.

(** ** Properties *)
Section properties.
Context {P : Type} `{PageAllocatorLaws P}.
Implicit Types (s : vmm P).

(** The physical address [va] denotes in [space]: the reference for
    [translate]. *)
Definition translation (m : memory) (space va : Z) : Z :=
  match lookup_page m space va with
  | Some e => Z.land e PTE_ADDR_MASK + va mod PAGE_SIZE
  | None => 0
  end.

Lemma page_offset va : Z.land va (PAGE_SIZE - 1) = va mod PAGE_SIZE.
Proof. change (PAGE_SIZE - 1) with (Z.ones 12). by rewrite Z.land_ones. Qed.

(** C5: [map] then [translate]: when [map] returns true the page of [va]
    translates to the mapped frame plus the page offset and every other
    lower-half address translates as before.  When it returns false every
    lower-half address translates as before and either a large page was in the
    way or the allocator was out of pages.  Either way ([frame]) tables it made
    stay: a page it took from the allocator is a table of this space, every
    table is where it was, and CR3, the kernel space and every byte outside
    free pages and the lower-half tables of this space are unchanged. *)
Theorem map_translate space va pa flags s :
  space_ok space s → 0 ≤ va < 2 ^ 47 →
  0 ≤ flags < 2 ^ 64 → Z.land flags PTE_ADDR_MASK = 0 →
  wp (map space va pa flags) (λ ok s', space_ok space s' ∧ frame space s s' ∧
    (∀ va', 0 ≤ va' < 2 ^ 47 →
      wp (translate space va') (λ a s'', s'' = s' ∧
        a = if ok && (va' / PAGE_SIZE =? va / PAGE_SIZE)
            then Z.land pa PTE_ADDR_MASK + va' mod PAGE_SIZE
            else translation (phys s) space va') s') ∧
    (ok = false →
      huge_on_path (phys s') space va ∨ ∀ a, ¬ avail (allocator s') a)) s.
Proof.
  intros Hok Hva Hfl Hmask. pose proof (user_va_half va Hva) as Huva.
  eapply wp_mono; [apply wp_map; assumption|]. cbv beta zeta. intros ok s' (Hok' & Hfr & Hl & Hfail).
  split_and!; [done|done| |done]. intros va' Hva'.
  wp_use wp_translate; [done|by apply user_va_half|].
  intros a s'' [-> ->]. split; [done|]. rewrite Hl, page_offset. unfold translation.
  pose proof (vpage_page va va' Hva Hva') as Hp.
  destruct ok; cbn [andb]; [|by rewrite decide_False by (by intros [? _])].
  destruct (Z.eqb_spec (va' / PAGE_SIZE) (va / PAGE_SIZE)) as [Heq|Hne].
  - rewrite decide_True by (split; [done|by apply Hp]).
    rewrite !Z.land_lor_distr_l, Hmask. change (Z.land PTE_P PTE_ADDR_MASK) with 0.
    by rewrite !Z.lor_0_r, <- Z.land_assoc, Z.land_diag.
  - rewrite decide_False; [done|]. intros [_ Hv]. by apply Hne, Hp.
Qed.

(** [unmap] answers true exactly for a mapped page; afterwards that page
    does not translate, every other lower-half address translates as before,
    and no page went to or from the allocator. *)
Theorem unmap_translate space va s :
  space_ok space s → 0 ≤ va < 2 ^ 47 →
  wp (unmap space va) (λ ok s', space_ok space s' ∧ allocator s' = allocator s ∧
    ok = bool_decide (is_Some (lookup_page (phys s) space va)) ∧
    (∀ va', 0 ≤ va' < 2 ^ 47 →
      wp (translate space va') (λ a s'', s'' = s' ∧
        a = if va' / PAGE_SIZE =? va / PAGE_SIZE then 0
            else translation (phys s) space va') s')) s.
Proof.
  intros Hok Hva. pose proof (user_va_half va Hva) as Huva.
  wp_use wp_unmap; [done|done|]. intros ok s' (Hok' & _ & Hal & Hb & Hl).
  split_and!; [done|done|done|]. intros va' Hva'.
  wp_use wp_translate; [done|by apply user_va_half|].
  intros a s'' [-> ->]. split; [done|]. rewrite Hl, page_offset. unfold translation.
  pose proof (vpage_page va va' Hva Hva') as Hp.
  destruct (Z.eqb_spec (va' / PAGE_SIZE) (va / PAGE_SIZE)) as [Heq|Hne].
  - by rewrite decide_True by (by apply Hp).
  - rewrite decide_False; [done|]. intros Hv. by apply Hne, Hp.
Qed.

(** Mapping a page in one address space is invisible in every other one:
    if no table of [b] is a lower-half table of [a], [map] in [a] keeps [b]
    well formed and all its translations (kernel half included). *)
Theorem map_isolated (a b : Z) va pa flags s :
  space_ok a s → space_ok b s → tables_disjoint a b s →
  0 ≤ va < 2 ^ 47 → 0 ≤ flags < 2 ^ 64 →
  wp (map a va pa flags) (λ _ s', space_ok a s' ∧ space_ok b s' ∧
    tables_disjoint a b s' ∧
    ∀ va', lookup_page (phys s') b va' = lookup_page (phys s) b va') s.
Proof.
  intros Ha Hb Hdis Hva Hfl. pose proof (user_va_half va Hva) as Huva.
  eapply wp_mono; [apply wp_map; assumption|]. cbv beta zeta. intros ok s' (Ha' & Hfr & _).
  destruct (frame_other a b s s' Hfr Ha Hb Hdis) as [Hd Hl].
  split_and!; [done|by eapply (space_ok_other a)| |done].
  intros p1 p2 t H1 Hu H2 Hd1. rewrite Hd by done. intros Hd2.
  destruct (fr_new _ _ _ Hfr p1 t H1 Hd1) as [Hold|[_ Hav]].
  - exact (Hdis p1 p2 t H1 Hu H2 Hold Hd2).
  - by destruct (so_table _ _ Hb p2 t H2 Hd2).
Qed.

(** [new_space] returns a well-formed space whose lower half is empty and
    whose upper half translates like the kernel's, built in one freshly
    allocated page; it answers 0 only when no page is available.  No table
    of the new lower half belongs to the kernel. *)
Theorem new_space_fresh s :
  space_ok (kernel_space s) s →
  wp new_space (λ a s', space_ok (kernel_space s) s' ∧
    ((a = 0 ∧ s' = s ∧ ∀ b, ¬ avail (allocator s) b) ∨
     (avail (allocator s) a ∧ space_ok a s' ∧
      tables_disjoint a (kernel_space s) s' ∧
      ∀ va, lookup_page (phys s') a va =
        if decide (user_va va) then None
        else lookup_page (phys s) (kernel_space s) va))) s.
Proof.
  intros Hk. wp_use wp_new_space; [done|].
  intros a s' [(-> & -> & Hno)|[Hav [Hk' Ha _ _ Hl Ht Hmem _ _]]]; [split; [done|by left]|].
  split; [done|]. right. split_and!; try done. intros p1 p2 t H1 Hu H2 Hd1 Hd2.
  assert (t = a) as -> by eauto.
  destruct (outside_tables (kernel_space s) a s (phys s') Hk) as [_ Hd]; [|done|done|].
  - eapply avail_frame; [apply Hk|done].
  - rewrite Hd in Hd2 by done. by destruct (so_table _ _ Hk p2 a H2 Hd2).
Qed.
End properties.

(** *** Concrete instances: the boot allocator, zeroed memory, an empty root in
    page 8 (which the allocator does not offer). *)
Definition demo_vmm : vmm Pmm.pmm := mkVmm Pmm.boot_pmm (λ _, 0) 32768 32768.

Lemma zero_descend r p t : descend (λ _, 0) r p = Some t → p = [] ∧ t = r.
Proof.
  destruct p as [|i p]; cbn [descend]; [by intros [= ->]|].
  unfold next, entry. by rewrite load64_zero.
Qed.

Lemma empty_root_ok (r : Z) (s : vmm Pmm.pmm) :
  phys s = (λ _, 0) → Pmm.pmm_ok (allocator s) → frame_addr r →
  ¬ avail (allocator s) r → space_ok r s.
Proof.
  intros Hm Hq Hr Hn.
  pose proof (zero_descend r) as Hd. rewrite <- Hm in Hd.
  split; [|exact Hq| |].
  - rewrite Hm. intros x. lia.
  - intros p t _ [-> ->]%Hd. done.
  - intros p1 p2 t _ _ _ [-> ->]%Hd [-> _]%Hd. done.
Qed.

Lemma demo_avail a : avail (allocator demo_vmm) a ↔ ∃ j, a = j * PAGE_SIZE ∧ 1 ≤ j ≤ 7.
Proof.
  simpl. unfold Pmm.page_avail. destruct Pmm.boot_pmm_spec as [_ Hf]. rewrite Hf. split.
  - intros [Hal Hj]. exists (a / PAGE_SIZE). split; [by apply Pmm.page_addr|done].
  - intros (j & -> & Hj). by rewrite Z.mod_mul, Z.div_mul by done.
Qed.

Lemma demo_space_ok r : (8 ≤ r < 1000) → space_ok (r * PAGE_SIZE) demo_vmm.
Proof.
  intros Hr. apply empty_root_ok; [done|apply Pmm.boot_pmm_ok| |].
  - split; [unfold PAGE_SIZE; lia|by apply Z.mod_mul].
  - rewrite demo_avail. intros (j & Heq & Hj). unfold PAGE_SIZE in *. lia.
Qed.

Lemma map_translate_witness :
  wp (map 32768 0x40000000 20480 PTE_RW) (λ ok s', space_ok 32768 s' ∧ frame 32768 demo_vmm s' ∧
      (∀ va', 0 ≤ va' < 2 ^ 47 →
        wp (translate 32768 va') (λ a s'', s'' = s' ∧
          a = if ok && (va' / PAGE_SIZE =? 0x40000000 / PAGE_SIZE)
              then Z.land 20480 PTE_ADDR_MASK + va' mod PAGE_SIZE
              else translation (phys demo_vmm) 32768 va') s') ∧
      (ok = false →
        huge_on_path (phys s') 32768 0x40000000 ∨ ∀ a, ¬ avail (allocator s') a)) demo_vmm.
Proof.
  apply map_translate; [apply (demo_space_ok 8); lia|lia|done|reflexivity].
Defined.

Lemma unmap_translate_witness :
  wp (unmap 32768 0x40000000) (λ ok s', space_ok 32768 s' ∧
      allocator s' = allocator demo_vmm ∧
      ok = bool_decide (is_Some (lookup_page (phys demo_vmm) 32768 0x40000000)) ∧
      (∀ va', 0 ≤ va' < 2 ^ 47 →
        wp (translate 32768 va') (λ a s'', s'' = s' ∧
          a = if va' / PAGE_SIZE =? 0x40000000 / PAGE_SIZE then 0
              else translation (phys demo_vmm) 32768 va') s')) demo_vmm.
Proof.
  apply unmap_translate; [apply (demo_space_ok 8); lia|lia].
Defined.

Lemma map_isolated_witness :
  wp (map 32768 0x40000000 20480 PTE_RW) (λ _ s', space_ok 32768 s' ∧ space_ok 36864 s' ∧
      tables_disjoint 32768 36864 s' ∧
      ∀ va', lookup_page (phys s') 36864 va' = lookup_page (phys demo_vmm) 36864 va') demo_vmm.
Proof.
  apply map_isolated.
  - apply (demo_space_ok 8). lia.
  - apply (demo_space_ok 9). lia.
  - intros p1 p2 t _ _ _ [_ ->]%zero_descend [_ Ht]%zero_descend. done.
  - lia.
  - done.
Defined.

Lemma new_space_fresh_witness :
  wp new_space (λ a s', space_ok 32768 s' ∧
      ((a = 0 ∧ s' = demo_vmm ∧ ∀ b, ¬ avail (allocator demo_vmm) b) ∨
       (avail (allocator demo_vmm) a ∧ space_ok a s' ∧
        tables_disjoint a 32768 s' ∧
        ∀ va, lookup_page (phys s') a va =
          if decide (user_va va) then None
          else lookup_page (phys demo_vmm) 32768 va))) demo_vmm.
Proof. apply (new_space_fresh demo_vmm). apply (demo_space_ok 8). lia. Defined.

End Vmm.
