(* ===== verification/UserMem.v ===== *)
(** * User memory

    A user page holds the bytes of the frame its leaf entry names.  The
    loader, the spawner and [sbrk] all take a page from the allocator, map it
    and write to it through the direct map; the lemmas here say what those
    three steps do to the bytes the process sees. *)
From S2P Require Import Prelude PageAlloc Pmm Mem Vmm.

Module UserMem.
Import Vmm.

Definition page_frame (e : Z) : Z := Z.land e PTE_ADDR_MASK.

(** The byte a load from [va] returns while [space] is active. *)
Definition user_byte (m : memory) (space va : Z) : option Z :=
  (λ e, m (page_frame e + va mod PAGE_SIZE)) <$> lookup_page m space va.
Definition user_bytes (m : memory) (space va n : Z) : list (option Z) :=
  user_byte m space <$> seqZ va n.

Definition low_half (va : Z) : Prop := 0 ≤ va < 2 ^ 47.

(** The pages of the lower half: its tables, the root with them, and the
    frames mapped there. *)
Definition user_frame (m : memory) (space b : Z) : Prop :=
  ∃ va e, low_half va ∧ lookup_page m space va = Some e ∧ b = page_frame e.
Definition owned (m : memory) (space b : Z) : Prop :=
  user_table m space b ∨ user_frame m space b.
Definition same_page (a b : Z) : Prop := a / PAGE_SIZE = b / PAGE_SIZE.
#[global] Instance same_page_dec a b : Decision (same_page a b).
Proof. unfold same_page. apply _. Defined.

(** [let pa = pmm::alloc_page(); if pa == 0 || !vmm::map(..) { fail }] and then
    [write_bytes]: how [spawn_elf] builds the stack and [sys_sbrk] the heap. *)
Definition fresh_page {P} `{PageAllocator P} (space va flags : Z) : M (vmm P) bool :=
  pa ← pmm_call alloc_page;
  if pa =? 0 then mret false
  else
    ok ← map space va pa flags;
    if negb ok then mret false
    else zero_table pa;; mret true.

Section data.
Context {P : Type} `{PageAllocatorLaws P}.
Implicit Types (s : vmm P) (m : memory).

(** [f] is no table of [space] and not up for allocation. *)
Record data_frame (space : Z) s (f : Z) : Prop := {
  df_addr : frame_addr f;
  df_used : ¬ avail (allocator s) f;
  df_table p t : valid_path p → descend (phys s) space p = Some t → t ≠ f;
}.

(** No page is lost: what was available or belonged to [space] still is or
    does. *)
Definition keeps (space : Z) s s' : Prop := ∀ b,
  avail (allocator s) b ∨ owned (phys s) space b →
  avail (allocator s') b ∨ owned (phys s') space b.

(** The same, but for the page [a]. *)
Definition keeps_but (space a : Z) s s' : Prop := ∀ b,
  avail (allocator s) b ∨ owned (phys s) space b →
  b = a ∨ avail (allocator s') b ∨ owned (phys s') space b.

Lemma keeps_refl space s : keeps space s s.
Proof. by intros b. Qed.
Lemma keeps_trans space s1 s2 s3 : keeps space s1 s2 → keeps space s2 s3 → keeps space s1 s3.
Proof. intros K1 K2 b Hb. by apply K2, K1. Qed.
Lemma keeps_but_trans space a s1 s2 s3 :
  keeps space s1 s2 → keeps_but space a s2 s3 → keeps_but space a s1 s3.
Proof. intros K1 K2 b Hb. by apply K2, K1. Qed.

Lemma owned_same m m' space b :
  (∀ p, valid_path p → descend m' space p = descend m space p) →
  (∀ va, lookup_page m' space va = lookup_page m space va) →
  owned m space b → owned m' space b.
Proof.
  intros Hd Hl [(p & Hp & Hu & Hpd)|(va & e & Hva & He & Hb)].
  - left. exists p. by rewrite Hd.
  - right. exists va, e. by rewrite Hl.
Qed.

(** Every user page is small and has a frame of its own. *)
Record data_ok (space : Z) s : Prop := {
  do_space : space_ok space s;
  do_frame va e : low_half va → lookup_page (phys s) space va = Some e →
    data_frame space s (page_frame e);
  do_inj va1 va2 e1 e2 : low_half va1 → low_half va2 →
    lookup_page (phys s) space va1 = Some e1 →
    lookup_page (phys s) space va2 = Some e2 →
    page_frame e1 = page_frame e2 → same_page va1 va2;
  do_small p i t : valid_path (p ++ [i]) → user_path (p ++ [i]) →
    descend (phys s) space p = Some t → huge (phys s) t i = false;
}.

(** A data frame that no user address denotes. *)
Record spare (space : Z) s (f : Z) : Prop := {
  sp_data : data_frame space s f;
  sp_unmapped va e : low_half va → lookup_page (phys s) space va = Some e →
    page_frame e ≠ f;
}.

Lemma byte_in_frame f va : f ≤ f + va mod PAGE_SIZE < f + PAGE_SIZE.
Proof. pose proof (Z.mod_pos_bound va PAGE_SIZE eq_refl). lia. Qed.

Lemma frame_bytes_ne f g x y :
  frame_addr f → frame_addr g → f ≠ g →
  f ≤ x < f + PAGE_SIZE → g ≤ y < g + PAGE_SIZE → x ≠ y.
Proof. intros [_ Hf] [_ Hg] Hne Hx Hy ->. by eapply (frames_disjoint f g y y). Qed.

(** Rewriting a frame that is no table leaves the tree alone. *)
Section rewriting.
Context (space f : Z) s (q : P) (m' : memory) (c k : Z).
Hypothesis Hok : space_ok space s.
Hypothesis Hf : frame_addr f.
Hypothesis Htable : ∀ p t, valid_path p → descend (phys s) space p = Some t → t ≠ f.
Hypothesis Hout : ∀ x, ¬ (f ≤ x < f + PAGE_SIZE) → m' x = phys s x.

Local Lemma rewrite_entry p t i :
  valid_path p → descend (phys s) space p = Some t → 0 ≤ i < 512 →
  entry m' t i = entry (phys s) t i.
Proof.
  intros Hp Ht Hi. destruct (so_table _ _ Hok p t Hp Ht) as [Htf _].
  apply entry_ext; [done|]. intros x Hx. apply Hout. intros Hx'.
  by eapply (frame_bytes_ne t f x x); eauto.
Qed.
Lemma rewrite_descend p : valid_path p → descend m' space p = descend (phys s) space p.
Proof.
  intros [Hl Hp]. apply descend_ext; [|done]. intros q' u [r ->] Hq i Hi.
  eapply rewrite_entry; [|done|done]. rewrite length_app in Hl.
  apply Forall_app in Hp as [Hp _]. split; [lia|done].
Qed.
Lemma rewrite_lookup va : lookup_page m' space va = lookup_page (phys s) space va.
Proof.
  unfold lookup_page. rewrite rewrite_descend by apply idxs_valid.
  destruct (descend _ space (idxs va)) as [t|] eqn:Et; [|done].
  by erewrite rewrite_entry by eauto using idxs_valid, vidx_range.
Qed.
Lemma rewrite_space_ok :
  mem_ok m' → alloc_inv q → (∀ b, avail q b → avail (allocator s) b) →
  space_ok space (mkVmm q m' c k).
Proof.
  intros Hm Hq Hsub. split; [done|done| |]; cbn [phys allocator].
  - intros p t Hp. rewrite rewrite_descend by done. intros Ht.
    destruct (so_table _ _ Hok p t Hp Ht) as [? Hn]. split; [done|eauto].
  - intros p1 p2 t H1 Hu H2. rewrite !rewrite_descend by done. by apply (so_inj _ _ Hok).
Qed.
End rewriting.

(** Writing into the frame of a mapped page. *)
Lemma write_page space va e s m' :
  data_ok space s → low_half va → lookup_page (phys s) space va = Some e →
  mem_ok m' →
  (∀ x, ¬ (page_frame e ≤ x < page_frame e + PAGE_SIZE) → m' x = phys s x) →
  data_ok space (set_phys m' s) ∧
  (∀ va', lookup_page m' space va' = lookup_page (phys s) space va') ∧
  ∀ va', low_half va' → user_byte m' space va' =
    if decide (same_page va' va) then Some (m' (page_frame e + va' mod PAGE_SIZE))
    else user_byte (phys s) space va'.
Proof.
  intros Hd Hva He Hm Hout. destruct (do_frame _ _ Hd va e Hva He) as [Hf Hn Ht].
  pose proof (do_space _ _ Hd) as Hok.
  pose proof (rewrite_lookup space (page_frame e) s m' Hok Hf Ht Hout) as Hl.
  pose proof (rewrite_descend space (page_frame e) s m' Hok Hf Ht Hout) as Hdd.
  split_and!; [|done|].
  - split; cbn [phys set_phys allocator].
    + eapply (rewrite_space_ok space (page_frame e) s); try done. apply Hok.
    + intros va' e' Hv'. rewrite Hl. intros He'.
      destruct (do_frame _ _ Hd va' e' Hv' He') as [H1 H2 H3]. split; [done|done|].
      intros p t Hp. cbn [phys set_phys]. rewrite Hdd by done. by apply H3.
    + intros ????. rewrite !Hl. apply Hd.
    + intros p i t Hv Hu. pose proof (valid_prefix _ _ Hv) as [Hp Hi].
      rewrite Hdd by done. intros Hdt. unfold huge.
      rewrite (rewrite_entry space (page_frame e) s m' Hok Hf Ht Hout p) by done.
      by eapply (do_small _ _ Hd p).
  - intros va' Hv'. unfold user_byte. rewrite Hl.
    destruct (lookup_page (phys s) space va') as [e'|] eqn:He'; simpl.
    + case_decide as Hs.
      * do 3 f_equal. assert (lookup_page (phys s) space va' = lookup_page (phys s) space va) as Heq.
        { assert (vpage va' = vpage va) as Hv by (by apply vpage_page).
          unfold vpage in Hv. unfold lookup_page. by apply app_inj_2 in Hv as [-> [= ->]]. }
        congruence.
      * f_equal. apply Hout. destruct (do_frame _ _ Hd va' e' Hv' He') as [H1 _ _].
        intros Hx. eapply (frame_bytes_ne (page_frame e') (page_frame e)); try done.
        2: apply byte_in_frame. intros Hee. apply Hs. by eapply do_inj.
    + case_decide as Hs; [|done]. exfalso.
      assert (vpage va' = vpage va) as Hv by (by apply vpage_page).
      unfold vpage in Hv. unfold lookup_page in He, He'.
      apply app_inj_2 in Hv as [Hi [= Hj]]; [|done]. rewrite Hi, Hj in He'. congruence.
Qed.

Lemma lookup_same_page m space va va' :
  low_half va → low_half va' → same_page va' va →
  lookup_page m space va' = lookup_page m space va.
Proof.
  intros Hva Hva' Hs. assert (vpage va' = vpage va) as Hv by (by apply vpage_page).
  unfold vpage in Hv. unfold lookup_page. by apply app_inj_2 in Hv as [-> [= ->]].
Qed.

Lemma write_keeps space va e s m' :
  data_ok space s → low_half va → lookup_page (phys s) space va = Some e →
  (∀ x, ¬ (page_frame e ≤ x < page_frame e + PAGE_SIZE) → m' x = phys s x) →
  keeps space s (set_phys m' s).
Proof.
  intros Hd Hva He Hout b [Hb|Hb]; [by left|right].
  destruct (do_frame _ _ Hd va e Hva He) as [Hf Hn Ht]. pose proof (do_space _ _ Hd) as Hok.
  eapply owned_same; [| |exact Hb].
  - intros p. by apply (rewrite_descend space (page_frame e) s m').
  - intros x. by apply (rewrite_lookup space (page_frame e) s m').
Qed.

(** Taking a page [a] from the allocator and filling it with anything. *)
Lemma take_page space a s q m' :
  data_ok space s → avail (allocator s) a → alloc_inv q →
  (∀ b, avail q b ↔ avail (allocator s) b ∧ b ≠ a) →
  mem_ok m' → (∀ x, ¬ (a ≤ x < a + PAGE_SIZE) → m' x = phys s x) →
  let s' := mkVmm q m' (cr3 s) (kernel_space s) in
  data_ok space s' ∧ spare space s' a ∧
  (∀ va, lookup_page m' space va = lookup_page (phys s) space va) ∧
  (∀ va, low_half va → user_byte m' space va = user_byte (phys s) space va).
Proof.
  intros Hd Hav Hq Hav' Hm Hout s'. pose proof (do_space _ _ Hd) as Hok.
  assert (frame_addr a) as Ha by (eapply avail_frame; [apply Hok|done]).
  assert (∀ p t, valid_path p → descend (phys s) space p = Some t → t ≠ a) as Ht.
  { intros p t Hp Ht ->. by destruct (so_table _ _ Hok p a Hp Ht). }
  pose proof (rewrite_lookup space a s m' Hok Ha Ht Hout) as Hl.
  pose proof (rewrite_descend space a s m' Hok Ha Ht Hout) as Hdd.
  assert (∀ va e, low_half va → lookup_page (phys s) space va = Some e → page_frame e ≠ a) as Hne.
  { intros va e Hva He <-. by destruct (do_frame _ _ Hd va e Hva He). }
  split_and!; [| |done|].
  - split; unfold s'; cbn [phys allocator].
    + eapply (rewrite_space_ok space a s); try done. intros b Hb. by apply Hav' in Hb as [? _].
    + intros va e Hva. rewrite Hl. intros He. destruct (do_frame _ _ Hd va e Hva He) as [H1 H2 H3].
      split; cbn [phys allocator]; [done|by intros [? _]%Hav'|].
      intros p t Hp. rewrite Hdd by done. by apply H3.
    + intros ????. rewrite !Hl. apply Hd.
    + intros p i t Hv Hu. pose proof (valid_prefix _ _ Hv) as [Hp Hi].
      rewrite Hdd by done. intros Hdt. unfold huge.
      rewrite (rewrite_entry space a s m' Hok Ha Ht Hout p) by done.
      by eapply (do_small _ _ Hd p).
  - split; [split|]; unfold s'; cbn [phys allocator]; [done|by intros [_ ?]%Hav'| |].
    + intros p t Hp. rewrite Hdd by done. by apply Ht.
    + intros va e Hva. rewrite Hl. by apply Hne.
  - intros va Hva. unfold user_byte. rewrite Hl.
    destruct (lookup_page (phys s) space va) as [e|] eqn:He; [|done]. simpl. f_equal.
    apply Hout. intros Hx. destruct (do_frame _ _ Hd va e Hva He) as [H1 _ _].
    eapply (frame_bytes_ne (page_frame e) a); try done; [by eapply Hne|apply byte_in_frame].
Qed.

(** What the bytes of data frames see of a [frame]d operation. *)
Lemma frame_data space s s' f x :
  space_ok space s → frame space s s' → data_frame space s f → f ≤ x < f + PAGE_SIZE →
  phys s' x = phys s x.
Proof.
  intros Hok Hfr [Hf Hn Ht] Hx. apply Hfr.
  - intros a Ha Hxa. assert (frame_addr a) as Haf by (eapply avail_frame; [apply Hok|done]).
    eapply (frame_bytes_ne f a x x); try done. by intros ->.
  - intros p t Hp Hu Hd Hxt. destruct (so_table _ _ Hok p t Hp Hd) as [Htf _].
    eapply (frame_bytes_ne f t x x); try done. intros ->. by eapply Ht.
Qed.
Lemma frame_data_frame space s s' f :
  frame space s s' → data_frame space s f → data_frame space s' f.
Proof.
  intros Hfr [Hf Hn Ht]. split; [done| |].
  - intros Ha. by apply Hn, Hfr.
  - intros p t Hp Hd. destruct (fr_new _ _ _ Hfr p t Hp Hd) as [Ho|[_ Ha]]; [eauto|by intros ->].
Qed.

Lemma no_huge_path space s va :
  data_ok space s → low_half va → ¬ huge_on_path (phys s) space va.
Proof.
  intros Hd Hva (p & i & t & [k Hk] & Hdt & HP & HPS).
  assert (huge (phys s) t i = true) as Hh by (unfold huge; by rewrite HP, HPS).
  pose proof (user_va_half va Hva) as Hu. pose proof (idxs_valid va) as [Hl Hf].
  rewrite (do_small _ _ Hd p) in Hh; [done| | |done].
  - rewrite Hk in Hl, Hf. apply Forall_app in Hf as [Hf _]. split; [|done].
    rewrite length_app in Hl. lia.
  - unfold user_va in Hu. unfold idxs in Hk. destruct p as [|j p]; simpl in Hk |- *; injection Hk; intros; lia.
Qed.

(** Mapping a spare frame at [va]. *)
Lemma map_spare space va a flags s :
  data_ok space s → spare space s a → low_half va →
  0 ≤ flags < 2 ^ 64 → Z.land flags PTE_ADDR_MASK = 0 →
  wp (map space va a flags) (λ ok s', data_ok space s' ∧ frame space s s' ∧
    (∀ x, a ≤ x < a + PAGE_SIZE → phys s' x = phys s x) ∧
    (ok = true → ∃ e, lookup_page (phys s') space va = Some e ∧ page_frame e = a ∧
       ∀ k, 0 ≤ k < 12 ∨ 52 ≤ k → Z.testbit e k = Z.testbit (Z.lor flags PTE_P) k) ∧
    (∀ va', low_half va' → ¬ (ok = true ∧ same_page va' va) →
       lookup_page (phys s') space va' = lookup_page (phys s) space va') ∧
    (∀ va', low_half va' → user_byte (phys s') space va' =
       if decide (ok = true ∧ same_page va' va) then Some (phys s (a + va' mod PAGE_SIZE))
       else user_byte (phys s) space va') ∧
    (ok = false → ∀ b, ¬ avail (allocator s') b)) s.
Proof.
  intros Hd [Ha Hun] Hva Hfl Hmask. pose proof (do_space _ _ Hd) as Hok.
  wp_use wp_map; [done|by apply user_va_half|done|]. intros ok s' (Hok' & Hfr & Hl & Hfail).
  set (e := Z.lor (Z.lor (Z.land a PTE_ADDR_MASK) flags) PTE_P) in *.
  assert (page_frame e = a) as He.
  { unfold e, page_frame. rewrite !Z.land_lor_distr_l, Hmask, <- Z.land_assoc, Z.land_diag.
    change (Z.land PTE_P PTE_ADDR_MASK) with 0. rewrite !Z.lor_0_r. apply mask_frame, Ha. }
  assert (∀ k, 0 ≤ k < 12 ∨ 52 ≤ k →
    Z.testbit e k = Z.testbit (Z.lor flags PTE_P) k) as Hbits.
  { intros k Hk. unfold e. rewrite !Z.lor_spec, Z.land_spec, PTE_ADDR_MASK_spec by lia.
    destruct (Z.leb_spec 12 k), (Z.ltb_spec k 52); try lia; by rewrite andb_false_r. }
  clearbody e.
  assert (∀ va', low_half va' → lookup_page (phys s') space va' =
    if decide (ok = true ∧ same_page va' va) then Some e
    else lookup_page (phys s) space va') as Hl'.
  { intros va' Hva'. rewrite Hl. pose proof (vpage_page va va' Hva Hva').
    unfold same_page. repeat case_decide; tauto. }
  assert (∀ va', low_half va' → user_byte (phys s') space va' =
    if decide (ok = true ∧ same_page va' va) then Some (phys s (a + va' mod PAGE_SIZE))
    else user_byte (phys s) space va') as Hb.
  { intros va' Hva'. unfold user_byte. rewrite Hl' by done.
    destruct (decide (ok = true ∧ same_page va' va)); simpl.
    - rewrite He. f_equal. eapply frame_data; [done..|apply byte_in_frame].
    - destruct (lookup_page (phys s) space va') as [e'|] eqn:He'; [|done]. simpl. f_equal.
      eapply frame_data; [done|done|by eapply do_frame|apply byte_in_frame]. }
  assert (data_ok space s') as Hd'.
  { split; [done| | |].
    + intros va1 e1 Hv1. rewrite Hl' by done. intros He1. apply (frame_data_frame _ _ _ _ Hfr).
      case_decide; [|by eapply do_frame]. injection He1 as <-. by rewrite He.
    + intros va1 va2 e1 e2 H1 H2. rewrite !Hl' by done. intros He1 He2 Hee.
      case_decide as Hd1; case_decide as Hd2;
        try injection He1 as He1; try injection He2 as He2.
      * destruct Hd1 as [_ Hs1], Hd2 as [_ Hs2]. unfold same_page in *. congruence.
      * exfalso. eapply (Hun va1); [done..|congruence].
      * exfalso. eapply (Hun va2); [done..|congruence].
      * by eapply do_inj.
    + intros p i t Hv Hu Hdt. destruct (huge (phys s') t i) eqn:Hh; [|done].
      destruct (fr_huge _ _ _ Hfr p i t Hv Hu Hdt Hh) as [Hd0 Hh0].
      by rewrite (do_small _ _ Hd p) in Hh0. }
  split_and!; [done|done| | | |done|].
  - intros x Hx. by eapply frame_data.
  - intros ->. exists e. by rewrite Hl', decide_True.
  - intros va' Hva' Hno. by rewrite Hl', decide_False.
  - intros Hok0. destruct (Hfail Hok0) as [Hh|]; [|done]. by apply no_huge_path in Hh.
Qed.

(** ** Working on pages that were free

    [within s0 space s]: since [s0], only pages that were available have been
    taken or written, and all of [space]'s lower half was built of them. *)
Record within s0 (space : Z) s : Prop := {
  wi_cr3 : cr3 s = cr3 s0;
  wi_kernel : kernel_space s = kernel_space s0;
  wi_avail a : avail (allocator s) a → avail (allocator s0) a;
  wi_table p t : valid_path p → user_path p → descend (phys s) space p = Some t →
    avail (allocator s0) t;
  wi_data va e : low_half va → lookup_page (phys s) space va = Some e →
    avail (allocator s0) (page_frame e);
  wi_mem x : (∀ a, avail (allocator s0) a → ¬ (a ≤ x < a + PAGE_SIZE)) →
    phys s x = phys s0 x;
}.

Lemma within_take s0 space s a q m' :
  within s0 space s → space_ok space s → avail (allocator s) a →
  (∀ b, avail q b ↔ avail (allocator s) b ∧ b ≠ a) →
  (∀ x, ¬ (a ≤ x < a + PAGE_SIZE) → m' x = phys s x) →
  within s0 space (mkVmm q m' (cr3 s) (kernel_space s)).
Proof.
  intros W Hok Hav Hav' Hout.
  assert (frame_addr a) as Ha by (eapply avail_frame; [apply Hok|done]).
  assert (∀ p t, valid_path p → descend (phys s) space p = Some t → t ≠ a) as Ht.
  { intros p t Hp Ht ->. by destruct (so_table _ _ Hok p a Hp Ht). }
  split; cbn [cr3 kernel_space phys allocator]; [apply W|apply W| | | |].
  - intros b Hb. apply W. by apply Hav' in Hb as [? _].
  - intros p t Hp Hu. rewrite (rewrite_descend space a s m') by done. by apply (wi_table _ _ _ W).
  - intros va e Hva. rewrite (rewrite_lookup space a s m') by done. by apply (wi_data _ _ _ W).
  - intros x Hx. rewrite Hout; [by apply W|]. by apply Hx, W.
Qed.

Lemma within_map s0 space va a s s' :
  within s0 space s → frame space s s' → avail (allocator s0) a → low_half va →
  (∀ e, lookup_page (phys s') space va = Some e → page_frame e = a ∨
        lookup_page (phys s) space va = Some e) →
  (∀ va', low_half va' → ¬ same_page va' va →
     lookup_page (phys s') space va' = lookup_page (phys s) space va') →
  within s0 space s'.
Proof.
  intros W Hfr Ha Hva He Hl. split.
  - rewrite (fr_cr3 _ _ _ Hfr). apply W.
  - rewrite (fr_kernel _ _ _ Hfr). apply W.
  - intros b Hb. by apply W, Hfr.
  - intros p t Hp Hu Hd. destruct (fr_new _ _ _ Hfr p t Hp Hd) as [Ho|[_ Hn]].
    + by eapply (wi_table _ _ _ W).
    + by apply (wi_avail _ _ _ W).
  - intros va' e Hva' He'. destruct (decide (same_page va' va)) as [Hs|Hs].
    + rewrite (lookup_same_page _ _ va) in He' by done.
      destruct (He e He') as [->|Ho]; [done|by eapply (wi_data _ _ _ W va)].
    + rewrite Hl in He' by done. by eapply (wi_data _ _ _ W).
  - intros x Hx. rewrite (fr_mem _ _ _ Hfr); [by apply W| |].
    + intros b Hb. by apply Hx, W.
    + intros p t Hp Hu Hd. apply Hx. by eapply (wi_table _ _ _ W).
Qed.

Lemma within_write s0 space va e s m' :
  within s0 space s → data_ok space s → low_half va →
  lookup_page (phys s) space va = Some e →
  (∀ x, ¬ (page_frame e ≤ x < page_frame e + PAGE_SIZE) → m' x = phys s x) →
  within s0 space (set_phys m' s).
Proof.
  intros W Hd Hva He Hout. destruct (do_frame _ _ Hd va e Hva He) as [Hf Hn Ht].
  pose proof (do_space _ _ Hd) as Hok.
  split; cbn [cr3 kernel_space phys allocator set_phys]; [apply W|apply W|apply W| | |].
  - intros p t Hp Hu. rewrite (rewrite_descend space (page_frame e) s m') by done.
    by apply (wi_table _ _ _ W).
  - intros va' e' Hva'. rewrite (rewrite_lookup space (page_frame e) s m') by done.
    by apply (wi_data _ _ _ W).
  - intros x Hx. rewrite Hout; [by apply W|]. apply Hx. by eapply (wi_data _ _ _ W).
Qed.

(** ** Adding a zeroed page *)
Record page_added (space va flags : Z) s (ok : bool) s' : Prop := {
  pa_data : data_ok space s';
  pa_within s0 : within s0 space s → within s0 space s';
  pa_bytes va' : low_half va' → user_byte (phys s') space va' =
    if decide (ok = true ∧ same_page va' va) then Some 0
    else user_byte (phys s) space va';
  pa_entry : ok = true → ∃ e, lookup_page (phys s') space va = Some e ∧
    ∀ k, 0 ≤ k < 12 ∨ 52 ≤ k → Z.testbit e k = Z.testbit (Z.lor flags PTE_P) k;
  pa_others va' : low_half va' → ¬ (ok = true ∧ same_page va' va) →
    lookup_page (phys s') space va' = lookup_page (phys s) space va';
  pa_fail : ok = false → ∀ b, ¬ avail (allocator s') b;
  pa_keeps : ok = true → lookup_page (phys s) space va = None → keeps space s s';
  pa_lost : ok = false → ∃ a, keeps_but space a s s';
}.

Lemma set_allocator_id s : set_allocator (allocator s) s = s.
Proof. by destruct s. Qed.

(** A page that was taken is the only one that may be lost. *)
Lemma taken_keeps space va a s q m' ok s' :
  data_ok space s → low_half va → avail (allocator s) a →
  (∀ b, avail q b ↔ avail (allocator s) b ∧ b ≠ a) →
  (∀ x, ¬ (a ≤ x < a + PAGE_SIZE) → m' x = phys s x) →
  frame space (mkVmm q m' (cr3 s) (kernel_space s)) s' →
  (∀ va', low_half va' → ¬ (ok = true ∧ same_page va' va) →
     lookup_page (phys s') space va' = lookup_page m' space va') →
  (ok = true → lookup_page (phys s) space va = None) → keeps_but space a s s'.
Proof.
  intros Hd Hva Hav Hav' Hout Hfr Hl Hno. pose proof (do_space _ _ Hd) as Hok.
  assert (frame_addr a) as Ha by (eapply avail_frame; [apply Hok|done]).
  assert (∀ p t, valid_path p → descend (phys s) space p = Some t → t ≠ a) as Ht.
  { intros p t Hp Ht ->. by destruct (so_table _ _ Hok p a Hp Ht). }
  intros b [Hb|[(p & Hp & Hu & Hpd)|(va' & e' & Hva' & He' & ->)]].
  - destruct (decide (b = a)) as [->|Hne]; [by left|right].
    destruct (fr_kept _ _ _ Hfr b) as [|Htb]; [by apply Hav'|by left|by right; left].
  - right. right. left. exists p. split_and!; [apply Hp..|done|]. apply (fr_paths _ _ _ Hfr); [done|].
    cbn [phys]. by rewrite (rewrite_descend space a s m').
  - right. right. right. exists va', e'. split_and!; [apply Hva'..| |done].
    rewrite Hl, (rewrite_lookup space a s m'); [done..|].
    intros [Hb Hs]. rewrite (lookup_same_page _ _ va va') in He' by done.
    rewrite Hno in He'; done.
Qed.

(** A page taken, filled with [m'], then mapped. *)
Lemma wp_map_taken space va flags s a q m' :
  data_ok space s → low_half va →
  0 ≤ flags < 2 ^ 64 → Z.land flags PTE_ADDR_MASK = 0 →
  avail (allocator s) a → alloc_inv q →
  (∀ b, avail q b ↔ avail (allocator s) b ∧ b ≠ a) →
  mem_ok m' → (∀ x, ¬ (a ≤ x < a + PAGE_SIZE) → m' x = phys s x) →
  wp (map space va a flags) (λ ok s', data_ok space s' ∧
    (∀ s0, within s0 space s → within s0 space s') ∧
    (∀ x, a ≤ x < a + PAGE_SIZE → phys s' x = m' x) ∧
    (ok = true → ∃ e, lookup_page (phys s') space va = Some e ∧ page_frame e = a ∧
       ∀ k, 0 ≤ k < 12 ∨ 52 ≤ k → Z.testbit e k = Z.testbit (Z.lor flags PTE_P) k) ∧
    (∀ va', low_half va' → ¬ (ok = true ∧ same_page va' va) →
       lookup_page (phys s') space va' = lookup_page (phys s) space va') ∧
    (∀ va', low_half va' → user_byte (phys s') space va' =
       if decide (ok = true ∧ same_page va' va) then Some (m' (a + va' mod PAGE_SIZE))
       else user_byte (phys s) space va') ∧
    (ok = false → ∀ b, ¬ avail (allocator s') b) ∧
    (ok = true → lookup_page (phys s) space va = None → keeps space s s') ∧
    (ok = false → keeps_but space a s s'))
    (mkVmm q m' (cr3 s) (kernel_space s)).
Proof.
  intros Hd Hva Hfl Hmask Hav Hq Hav' Hm Hout.
  destruct (take_page space a s q m' Hd Hav Hq Hav' Hm Hout) as (Hd1 & Hsp & Hl1 & Hb1).
  wp_use map_spare; [done..|].
  intros ok s' (Hd' & Hfr & Hpg & He & Hl & Hb & Hfail). cbn [phys] in *.
  split_and!; [done| |done|done| | |done| |].
  4: { intros -> Hno b Hin. destruct He as (e & He & Hf & _); [done|].
       destruct (taken_keeps space va a s q m' true s') with b as [->|]; try done.
       right. right. by exists va, e. }
  4: { intros ->. by apply (taken_keeps space va a s q m' false s'). }
  - intros s0 W.
    pose proof (within_take s0 space s a q m' W (do_space _ _ Hd) Hav Hav' Hout) as W1.
    eapply (within_map s0 space va a); [exact W1|done| |done| |].
    + by apply W.
    + intros e Hee. destruct ok.
      * destruct He as (e' & He' & Hf & _); [done|]. left. congruence.
      * right. rewrite <- Hl; [done|done|by intros [? _]].
    + intros va' Hva' Hs. apply Hl; [done|by intros [_ ?]].
  - intros va' Hva' Hno. by rewrite Hl, Hl1.
  - intros va' Hva'. rewrite Hb by done. destruct (decide _); [done|by apply Hb1].
Qed.

Lemma wp_alloc_zero_map space va flags s :
  data_ok space s → low_half va →
  0 ≤ flags < 2 ^ 64 → Z.land flags PTE_ADDR_MASK = 0 →
  wp (pa ← pmm_call alloc_page;
      if pa =? 0 then mret false
      else zero_table pa;; map space va pa flags)
     (page_added space va flags s) s.
Proof.
  intros Hd Hva Hfl Hmask. pose proof (do_space _ _ Hd) as Hok.
  unfold pmm_call, zero_table. wp_run. wp_use alloc_page_law; [apply Hok|].
  intros a q [Hq [(-> & -> & Hno)|[Hav Hav']]].
  { rewrite Z.eqb_refl. wp_run. rewrite set_allocator_id. split; try done.
    intros _. exists 0. intros b. by right. }
  pose proof (avail_page _ _ (so_alloc _ _ Hok) Hav) as Hpb%phys_page_bounds.
  rewrite (proj2 (Z.eqb_neq a 0)) by lia. wp_run.
  wp_use (wp_map_taken space va flags s a q (fill (phys s) a PAGE_SIZE 0)); try done.
  - apply mem_ok_fill; [apply Hok|lia].
  - intros x Hx. by apply fill_out.
  - intros ok s' (Hd' & W' & _ & He & Hl & Hb & Hfail & Hkeep & Hlost). split; try done; [| |intros Hok0; exists a; by apply Hlost].
    + intros va' Hva'. rewrite Hb by done. rewrite fill_in by apply byte_in_frame. done.
    + intros ->. destruct He as (e & ? & _ & ?); [done|]. by exists e.
Qed.

Lemma wp_fresh_page space va flags s :
  data_ok space s → low_half va →
  0 ≤ flags < 2 ^ 64 → Z.land flags PTE_ADDR_MASK = 0 →
  wp (fresh_page space va flags) (page_added space va flags s) s.
Proof.
  intros Hd Hva Hfl Hmask. pose proof (do_space _ _ Hd) as Hok.
  unfold fresh_page, pmm_call, zero_table. wp_run. wp_use alloc_page_law; [apply Hok|].
  intros a q [Hq [(-> & -> & Hno)|[Hav Hav']]].
  { rewrite Z.eqb_refl. wp_run. rewrite set_allocator_id. split; try done.
    intros _. exists 0. intros b. by right. }
  pose proof (avail_page _ _ (so_alloc _ _ Hok) Hav) as Hpb%phys_page_bounds.
  rewrite (proj2 (Z.eqb_neq a 0)) by lia. wp_run.
  wp_use (wp_map_taken space va flags s a q (phys s)); try done; [apply Hok|].
  intros ok s' (Hd' & W' & _ & He & Hl & Hb & Hfail & Hkeep & Hlost). destruct ok; cbn [negb]; wp_run.
  2: { split; try done. intros _. exists a. by apply Hlost. }
  destruct He as (e & He & Hf & Hbits); [done|].
  set (m' := fill (phys s') a PAGE_SIZE 0).
  assert (∀ x, ¬ (page_frame e ≤ x < page_frame e + PAGE_SIZE) → m' x = phys s' x) as Hout.
  { rewrite Hf. intros x Hx. by apply fill_out. }
  destruct (write_page space va e s' m' Hd' Hva He) as (Hd2 & Hl2 & Hb2); [|done|].
  { apply mem_ok_fill; [apply (do_space _ _ Hd')|lia]. }
  split; [done|intros s0 W; eapply within_write; eauto| | | |done| |done]; cbn [phys set_phys].
  - intros va' Hva'. rewrite Hb2, Hb by done. unfold m'.
    destruct (decide (same_page va' va)) as [Hs|Hs].
    + rewrite decide_True by done. rewrite Hf, fill_in by apply byte_in_frame. done.
    + by rewrite !decide_False by (by intros [_ ?]).
  - intros _. exists e. by rewrite Hl2.
  - intros va' Hva' Hno. rewrite Hl2. by apply Hl.
  - intros _ Hno. eapply keeps_trans; [by apply Hkeep|by eapply write_keeps].
Qed.
End data.

(** ** A run of fresh pages

    [s'] is [s] with the pages of [lo, hi) mapped by [flags] and zero. *)
Section runs.
Context {P : Type} `{PageAllocatorLaws P}.
Implicit Types (s : vmm P).

Record zero_pages (space lo hi flags : Z) s s' : Prop := {
  zp_ok : data_ok space s';
  zp_bytes x : low_half x → user_byte (phys s') space x =
    if decide (lo ≤ x < hi) then Some 0 else user_byte (phys s) space x;
  zp_entry x : low_half x → lo ≤ x < hi → ∃ e, lookup_page (phys s') space x = Some e ∧
    ∀ k, 0 ≤ k < 12 ∨ 52 ≤ k → Z.testbit e k = Z.testbit (Z.lor flags PTE_P) k;
  zp_others x : low_half x → ¬ (lo ≤ x < hi) →
    lookup_page (phys s') space x = lookup_page (phys s) space x;
  zp_within s0 : within s0 space s → within s0 space s';
}.

Lemma zero_pages_none space lo flags s : data_ok space s → zero_pages space lo lo flags s s.
Proof.
  intros Hd. split; [done| |lia|done|done]. intros x _. by rewrite decide_False by lia.
Qed.

Lemma page_of va x : va mod PAGE_SIZE = 0 → same_page x va ↔ va ≤ x < va + PAGE_SIZE.
Proof. intros Hal. unfold same_page, PAGE_SIZE in *. split; dlia. Qed.

Lemma zero_pages_more space lo va flags s s1 s2 :
  zero_pages space lo va flags s s1 → lo ≤ va → va mod PAGE_SIZE = 0 → low_half va →
  page_added space va flags s1 true s2 → zero_pages space lo (va + PAGE_SIZE) flags s s2.
Proof.
  intros [Z1 Z2 Z3 Z4 Z5] Hlo Hal Hva [A1 A2 A3 A4 A5 _ _ _]. assert (0 < PAGE_SIZE) by done.
  pose proof (λ x, page_of va x Hal) as Hsp. split; [done| | | |auto].
  - intros x Hx. rewrite A3, Z2 by done. specialize (Hsp x).
    destruct (decide (va ≤ x < va + PAGE_SIZE)) as [Hin|Hout].
    + rewrite (decide_True (P := _ ∧ same_page x va)) by tauto. by rewrite decide_True by lia.
    + rewrite (decide_False (P := _ ∧ same_page x va)) by tauto.
      destruct (decide (lo ≤ x < va)); [by rewrite decide_True by lia|by rewrite decide_False by lia].
  - intros x Hx Hin. destruct (decide (same_page x va)) as [Hs|Hs].
    + rewrite (lookup_same_page _ _ va x) by done. by apply A4.
    + rewrite A5 by (done || by intros [_ ?]). apply Z3; [done|]. rewrite Hsp in Hs. lia.
  - intros x Hx Hout. rewrite A5.
    + apply Z4; [done|lia].
    + done.
    + intros [_ Hs]. apply Hsp in Hs. lia.
Qed.

(** The page that could not be added changes nothing the process sees. *)
Lemma zero_pages_stop space lo va flags s s1 s2 :
  zero_pages space lo va flags s s1 → page_added space va flags s1 false s2 →
  zero_pages space lo va flags s s2.
Proof.
  intros [Z1 Z2 Z3 Z4 Z5] [A1 A2 A3 A4 A5 _ _ _].
  assert (∀ x, low_half x → lookup_page (phys s2) space x = lookup_page (phys s1) space x) as Hl
    by (intros x Hx; by apply A5; [|intros [? _]]).
  split; [done| | | |auto].
  - intros x Hx. rewrite A3, Z2 by done. by rewrite (decide_False (P := _ ∧ _)) by (by intros [? _]).
  - intros x Hx Hin. rewrite Hl by done. by apply Z3.
  - intros x Hx Hout. rewrite Hl by done. by apply Z4.
Qed.

Lemma zero_pages_keeps space lo va flags s s1 s2 :
  zero_pages space lo va flags s s1 → low_half va → lookup_page (phys s) space va = None →
  page_added space va flags s1 true s2 → keeps space s s1 → keeps space s s2.
Proof.
  intros Hz Hva Hno Hadd Hk. eapply keeps_trans; [exact Hk|]. apply (pa_keeps _ _ _ _ _ _ Hadd); [done|].
  rewrite (zp_others _ _ _ _ _ _ Hz); [done|done|lia].
Qed.
End runs.

(** ** Writing to mapped pages

    [poked space s va bs s']: [s'] is [s] with the bytes [bs] at the user
    address [va]. *)
Section poking.
Context {P : Type} `{PageAllocatorLaws P}.
Implicit Types (s : vmm P) (m : memory).

Record poked (space : Z) s (va : Z) (bs : list Z) s' : Prop := {
  pk_ok : data_ok space s';
  pk_same : s' = set_phys (phys s') s;
  pk_lookup x : lookup_page (phys s') space x = lookup_page (phys s) space x;
  pk_bytes x : low_half x → user_byte (phys s') space x =
    match zget bs (x - va) with
    | Some b => Some b
    | None => user_byte (phys s) space x
    end;
  pk_within s0 : within s0 space s → within s0 space s';
  pk_keeps : keeps space s s';
}.

Lemma set_phys_id s : set_phys (phys s) s = s.
Proof. by destruct s. Qed.

Lemma poked_nil space s va : data_ok space s → poked space s va [] s.
Proof.
  intros Hd. split; [done|by rewrite set_phys_id|done| |done|by intros b].
  intros x _. by rewrite (proj2 (zget_None [] _)) by (unfold zlen; simpl; lia).
Qed.

(** Writing below what was written. *)
Lemma poked_below space s va bs1 s1 bs2 s2 :
  poked space s va bs1 s1 → poked space s1 (va - zlen bs2) bs2 s2 →
  poked space s (va - zlen bs2) (bs2 ++ bs1) s2.
Proof.
  intros [A1 A2 A3 A4 A5 A6] [B1 B2 B3 B4 B5 B6]. pose proof (zlen_nonneg bs2). split.
  - done.
  - rewrite B2, A2. done.
  - intros x. by rewrite B3.
  - intros x Hx. rewrite B4, A4 by done. destruct (Z.lt_ge_cases (x - (va - zlen bs2)) (zlen bs2)).
    + rewrite zget_app_l by lia. rewrite (proj2 (zget_None bs1 _)) by lia. done.
    + rewrite zget_app_r by lia. rewrite (proj2 (zget_None bs2 _)) by lia.
      by replace (x - (va - zlen bs2) - zlen bs2) with (x - va) by lia.
  - auto.
  - by eapply keeps_trans.
Qed.

Lemma poked_app space s va bs1 s1 bs2 s2 :
  poked space s va bs1 s1 → poked space s1 (va + zlen bs1) bs2 s2 →
  poked space s va (bs1 ++ bs2) s2.
Proof.
  intros [A1 A2 A3 A4 A5 A6] [B1 B2 B3 B4 B5 B6]. pose proof (zlen_nonneg bs1). split.
  - done.
  - rewrite B2, A2. done.
  - intros x. by rewrite B3.
  - intros x Hx. rewrite B4, A4 by done. destruct (Z.lt_ge_cases (x - va) (zlen bs1)).
    + rewrite zget_app_l by lia. by rewrite (proj2 (zget_None bs2 _)) by lia.
    + rewrite zget_app_r by lia. rewrite (proj2 (zget_None bs1 _)) by lia.
      by replace (x - (va + zlen bs1)) with (x - va - zlen bs1) by lia.
  - auto.
  - by eapply keeps_trans.
Qed.

(** A store that stays in one page. *)
Lemma poke_page space s va e bs :
  data_ok space s → low_half va → lookup_page (phys s) space va = Some e →
  Forall (λ b, 0 ≤ b < 2 ^ 8) bs → va mod PAGE_SIZE + zlen bs ≤ PAGE_SIZE →
  poked space s va bs
    (set_phys (store_bytes (phys s) (page_frame e + va mod PAGE_SIZE) bs) s).
Proof.
  intros Hd Hva He Hbs Hfit. pose proof (Z.mod_pos_bound va PAGE_SIZE eq_refl) as Hoff.
  set (m' := store_bytes _ _ _).
  assert (∀ x, ¬ (page_frame e ≤ x < page_frame e + PAGE_SIZE) → m' x = phys s x) as Hout.
  { intros x Hx. apply store_bytes_out. lia. }
  destruct (write_page space va e s m' Hd Hva He) as (Hd' & Hl & Hb); [|done|].
  { apply mem_ok_store_bytes; [apply Hd|done]. }
  split; [done|done|done| |intros s0 W; by eapply within_write|by eapply write_keeps].
  intros x Hx. cbn [phys set_phys]. rewrite Hb by done.
  assert (same_page x va → x mod PAGE_SIZE = va mod PAGE_SIZE + (x - va)) as Hmod.
  { unfold same_page. intros Hs. pose proof (Z.div_mod x PAGE_SIZE ltac:(done)).
    pose proof (Z.div_mod va PAGE_SIZE ltac:(done)). rewrite Hs in *. lia. }
  destruct (zget bs (x - va)) as [b|] eqn:Hg.
  - pose proof (zget_Some_lt _ _ _ Hg) as Hr.
    assert (same_page x va) as Hs.
    { unfold same_page. symmetry. apply (Z.div_unique x PAGE_SIZE _ (va mod PAGE_SIZE + (x - va))).
      - left. clear -Hr Hoff Hfit. lia.
      - pose proof (Z.div_mod va PAGE_SIZE ltac:(done)) as Hdm. clear -Hdm. lia. }
    rewrite decide_True by done. f_equal. rewrite Hmod, Z.add_assoc by done.
    by apply store_bytes_in.
  - apply zget_None in Hg. case_decide as Hs; [|done]. unfold user_byte.
    rewrite (lookup_same_page _ _ va x) by done. rewrite He. simpl. f_equal.
    apply store_bytes_out. rewrite Hmod by done. lia.
Qed.
End poking.

(** *** A concrete instance: the empty root of [demo_vmm] in page 8, taken from
    an allocator that offered pages 1 to 8. *)
Definition demo_before : vmm Pmm.pmm :=
  set_allocator (Pmm.set_bitmap (zset (Pmm.bitmap Pmm.boot_pmm) 0 0x1FE) Pmm.boot_pmm) demo_vmm.

Lemma demo_before_avail j : 1 ≤ j ≤ 8 → avail (allocator demo_before) (j * PAGE_SIZE).
Proof.
  intros Hj. apply Pmm.page_avail_mul. unfold Pmm.page_free. cbn [allocator demo_before set_allocator].
  assert (j = 1 ∨ j = 2 ∨ j = 3 ∨ j = 4 ∨ j = 5 ∨ j = 6 ∨ j = 7 ∨ j = 8) as Hc by lia.
  by destruct Hc as [->|[->|[->|[->|[->|[->|[->| ->]]]]]]]; vm_compute.
Qed.

Lemma demo_lookup va : lookup_page (phys demo_vmm) 32768 va = None.
Proof.
  unfold lookup_page. destruct (descend _ _ _) as [t|] eqn:E; [|done].
  by apply zero_descend in E as [? _].
Qed.

Lemma demo_data_ok : data_ok 32768 demo_vmm.
Proof.
  split.
  - apply (demo_space_ok 8). lia.
  - intros va e _. by rewrite demo_lookup.
  - intros va1 va2 e1 e2 _ _. by rewrite demo_lookup.
  - intros p i t _ _ [_ ->]%zero_descend. unfold huge, entry. by rewrite load64_zero.
Qed.

Lemma demo_within : within demo_before 32768 demo_vmm.
Proof.
  split; try done.
  - intros a (j & -> & Hj)%demo_avail. apply demo_before_avail. lia.
  - intros p t _ _ [_ ->]%zero_descend. apply (demo_before_avail 8). lia.
Qed.
End UserMem.
