(* ===== verification/Teardown.v ===== *)
(** * Taking an address space down ([vmm.rs], [destroy_space])

    The four nested loops give back the pages of every lower-half table, of
    every page mapped there, and the root; the upper half is shared and
    stays.  The tables are read after they were freed, which is harmless as
    [free_page] does not write to them. *)
From S2P Require Import Prelude PageAlloc Pmm Mem Vmm UserMem.

Module Teardown.
Import Vmm UserMem.

(** The pages below a table [t] whose entries are [d] levels above the
    leaves. *)
Fixpoint below (m : memory) (d : nat) (t b : Z) : Prop :=
  match d with
  | O => ∃ i, 0 ≤ i < 512 ∧ has (entry m t i) PTE_P = true ∧ b = page_frame (entry m t i)
  | S d => ∃ i t', 0 ≤ i < 512 ∧ next m t i = Some t' ∧ (b = t' ∨ below m d t' b)
  end.

Section teardown.
Context {P : Type} `{PageAllocatorLaws P}.
Implicit Types (s : vmm P) (m : memory) (F : Z → Prop).

(** [F] has become available and nothing else changed. *)
Definition freed F s s' : Prop :=
  phys s' = phys s ∧ cr3 s' = cr3 s ∧ kernel_space s' = kernel_space s ∧
  alloc_inv (allocator s') ∧
  ∀ b, avail (allocator s') b ↔ avail (allocator s) b ∨ F b.

Lemma freed_nothing F s : alloc_inv (allocator s) → (∀ b, ¬ F b) → freed F s s.
Proof. intros Hs HF. split_and!; try done. intros b. specialize (HF b). tauto. Qed.
Lemma freed_iff F G s s' : freed F s s' → (∀ b, F b ↔ G b) → freed G s s'.
Proof.
  intros (H1 & H2 & H3 & H4 & H5) HFG. split_and!; try done. intros b. by rewrite H5, HFG.
Qed.
Lemma freed_trans F G s1 s2 s3 :
  freed F s1 s2 → freed G s2 s3 → freed (λ b, F b ∨ G b) s1 s3.
Proof.
  intros (A1 & A2 & A3 & A4 & A5) (B1 & B2 & B3 & B4 & B5).
  split_and!; [congruence..|done|]. intros b. rewrite B5, A5. tauto.
Qed.

Lemma wp_free_frame s a :
  alloc_inv (allocator s) → phys_page a →
  wp (pmm_call (free_page a)) (λ _ s', freed (λ b, b = a) s s') s.
Proof.
  intros Hs Ha. pose proof (phys_page_bounds a Ha). unfold pmm_call. wp_step.
  wp_use free_page_law; [done|lia|]. intros [] q (Hq & Hfree & Hkeep & Hnew).
  split_and!; try done. intros b. split; [apply Hnew|].
  intros [Hb | ->]; [by apply Hkeep|by apply Hfree].
Qed.

(** A loop over entries, each freeing [F i]. *)
Lemma wp_free_each n (body : Z → M (vmm P) unit) (F : Z → Z → Prop) s :
  0 ≤ n → alloc_inv (allocator s) →
  (∀ i s', 0 ≤ i < n → alloc_inv (allocator s') → phys s' = phys s →
     wp (body i) (λ _ s2, freed (F i) s' s2) s') →
  wp (for_each 0 n body) (λ _ s', freed (λ b, ∃ i, 0 ≤ i < n ∧ F i b) s s') s.
Proof.
  intros Hn Hs Hbody.
  apply (wp_for_each (λ k s', freed (λ b, ∃ i, 0 ≤ i < k ∧ F i b) s s')); [done| | |done].
  - apply freed_nothing; [done|]. intros b (i & Hi & _). lia.
  - intros k s1 Hk Hf. pose proof Hf as (Hm & _ & _ & Hi & _).
    wp_use (Hbody k s1); [done|done|done|]. intros [] s2 Hf2.
    eapply freed_iff; [eapply freed_trans; [exact Hf|exact Hf2]|]. intros b. cbv beta. split.
    + intros [(i & Hik & HF)|HF]; [exists i|exists k]; (split; [lia|done]).
    + intros (i & Hik & HF). destruct (decide (i = k)) as [->|]; [by right|].
      left. exists i. split; [lia|done].
Qed.

Lemma wp_destroy_l1 t s :
  alloc_inv (allocator s) → (∀ b, below (phys s) 0 t b → phys_page b) →
  wp (destroy_l1 t) (λ _ s', freed (below (phys s) 0 t) s s') s.
Proof.
  intros Hs Hb. unfold destroy_l1.
  eapply wp_mono; [apply (wp_free_each 512 _ (λ i b,
    has (entry (phys s) t i) PTE_P = true ∧ b = page_frame (entry (phys s) t i))); [done|done|]|].
  2: { intros [] s' Hf. exact Hf. }
  intros i s1 Hi Hs1 Hm. unfold get_entry. wp_run. change (load64 _ _) with (entry (phys s1) t i).
  rewrite Hm. destruct (has _ PTE_P) eqn:Hp; wp_run.
  2: { apply freed_nothing; [done|]. by intros b [? _]. }
  wp_use wp_free_frame; [done|apply Hb; by exists i|].
  intros [] s2 Hf. eapply freed_iff; [exact Hf|]. intros b. cbv beta. tauto.
Qed.

(** The loops of the two middle levels. *)
Lemma wp_destroy_entry (d : nat) (destroy_table : Z → M (vmm P) unit) t i s0 s :
  alloc_inv (allocator s) → phys s = phys s0 → 0 ≤ i < 512 →
  (∀ b, below (phys s0) (S d) t b → phys_page b) →
  (∀ t' s', alloc_inv (allocator s') → (∀ b, below (phys s') d t' b → phys_page b) →
     wp (destroy_table t') (λ _ s2, freed (below (phys s') d t') s' s2) s') →
  wp (e ← get_entry t i;
      if negb (has e PTE_P) || has e PTE_PS then mret tt
      else
        destroy_table (Z.land e PTE_ADDR_MASK);;
        e ← get_entry t i;
        pmm_call (free_page (Z.land e PTE_ADDR_MASK)))
    (λ _ s', freed (λ b, ∃ t', next (phys s0) t i = Some t' ∧ (b = t' ∨ below (phys s0) d t' b))
               s s') s.
Proof.
  intros Hs Hm Hi Hb Hsub. unfold get_entry. wp_run.
  change (load64 (phys s) _) with (entry (phys s) t i). rewrite Hm.
  assert (next (phys s0) t i = if negb (has (entry (phys s0) t i) PTE_P) || has (entry (phys s0) t i) PTE_PS
    then None else Some (Z.land (entry (phys s0) t i) PTE_ADDR_MASK)) as Hnext.
  { unfold next. by destruct (has _ PTE_P), (has _ PTE_PS). }
  destruct (negb _ || _); wp_run.
  { apply freed_nothing; [done|]. intros b (t' & Ht & _). by rewrite Hnext in Ht. }
  set (t' := Z.land _ _) in *. wp_use Hsub; [done| |].
  { rewrite Hm. intros b Hbb. apply Hb. exists i, t'. by auto. }
  rewrite Hm. intros [] s1 Hf1. pose proof Hf1 as (Hm1 & _ & _ & Hs1 & _). wp_run.
  change (load64 (phys s1) _) with (entry (phys s1) t i). rewrite Hm1, Hm. fold t'.
  wp_use wp_free_frame; [done|apply Hb; exists i, t'; auto|].
  intros [] s2 Hf2. eapply freed_iff; [eapply freed_trans; [exact Hf1|exact Hf2]|].
  intros b. cbv beta. split.
  - intros [?| ->]; exists t'; tauto.
  - intros (t2 & Ht2 & Hb2). rewrite Hnext in Ht2. injection Ht2 as <-. tauto.
Qed.

Lemma wp_destroy_level (d : nat) (destroy_table : Z → M (vmm P) unit) t s :
  alloc_inv (allocator s) → (∀ b, below (phys s) (S d) t b → phys_page b) →
  (∀ t' s', alloc_inv (allocator s') → (∀ b, below (phys s') d t' b → phys_page b) →
     wp (destroy_table t') (λ _ s2, freed (below (phys s') d t') s' s2) s') →
  wp (for_each 0 512 (λ i,
      e ← get_entry t i;
      if negb (has e PTE_P) || has e PTE_PS then mret tt
      else
        destroy_table (Z.land e PTE_ADDR_MASK);;
        e ← get_entry t i;
        pmm_call (free_page (Z.land e PTE_ADDR_MASK))))
    (λ _ s', freed (below (phys s) (S d) t) s s') s.
Proof.
  intros Hs Hb Hsub.
  eapply wp_mono; [apply (wp_free_each 512 _ (λ i b,
    ∃ t', next (phys s) t i = Some t' ∧ (b = t' ∨ below (phys s) d t' b))); [done|done|]|].
  - intros i s1 Hi Hs1 Hm. by apply wp_destroy_entry.
  - intros [] s' Hf. eapply freed_iff; [exact Hf|]. intros b. simpl. split.
    + intros (i & Hi & t' & Ht & Hbt). by exists i, t'.
    + intros (i & t' & Hi & Ht & Hbt). exists i. split; [done|]. by exists t'.
Qed.

Lemma wp_destroy_l2 t s :
  alloc_inv (allocator s) → (∀ b, below (phys s) 1 t b → phys_page b) →
  wp (destroy_l2 t) (λ _ s', freed (below (phys s) 1 t) s s') s.
Proof.
  intros Hs Hb. apply (wp_destroy_level 0 destroy_l1); [done|done|]. intros. by apply wp_destroy_l1.
Qed.
Lemma wp_destroy_l3 t s :
  alloc_inv (allocator s) → (∀ b, below (phys s) 2 t b → phys_page b) →
  wp (destroy_l3 t) (λ _ s', freed (below (phys s) 2 t) s s') s.
Proof.
  intros Hs Hb. apply (wp_destroy_level 1 destroy_l2); [done|done|]. intros. by apply wp_destroy_l2.
Qed.
End teardown.

(** ** The pages of a space *)
Definition indices (p : list Z) : Prop := Forall (λ i, 0 ≤ i < 512) p.

(** Below a table: the tables along shorter paths, the frames at the end of
    full ones. *)
Lemma below_paths m d t b :
  below m d t b ↔
  (∃ p, p ≠ [] ∧ (length p ≤ d)%nat ∧ indices p ∧ descend m t p = Some b) ∨
  (∃ p i t', length p = d ∧ indices p ∧ 0 ≤ i < 512 ∧ descend m t p = Some t' ∧
     has (entry m t' i) PTE_P = true ∧ b = page_frame (entry m t' i)).
Proof.
  revert t. induction d as [|d IH]; intros t; cbn [below].
  - split.
    + intros (i & Hi & Hp & ->). right. exists [], i, t. split_and!; try done; [by constructor|lia..].
    + intros [(p & Hne & Hl & _)|(p & i & t' & Hl & _ & Hi & Hd & Hp & ->)].
      * by destruct p; simpl in Hl; [|lia].
      * apply nil_length_inv in Hl as ->. injection Hd as <-. by exists i.
  - split.
    + intros (i & t' & Hi & Hn & [-> |Hb]).
      * left. exists [i]. split_and!; [done|simpl; lia|by constructor|]. simpl. by rewrite Hn.
      * apply IH in Hb as [(p & Hne & Hl & Hp & Hd)|(p & j & t2 & Hl & Hp & Hj & Hd & Hh & ->)].
        -- left. exists (i :: p). split_and!; [done|simpl; lia|by constructor|]. simpl. by rewrite Hn.
        -- right. exists (i :: p), j, t2.
           split_and!; [simpl; lia|by constructor|lia|lia| |done|done]. simpl. by rewrite Hn.
    + intros [(p & Hne & Hl & Hp & Hd)|(p & j & t2 & Hl & Hp & Hj & Hd & Hh & ->)];
        (destruct p as [|i p]; [done|]); simpl in Hl, Hd; inversion_clear Hp as [|? ? Hi Hp'];
        (destruct (next m t i) as [t'|] eqn:Hn; [|done]); exists i, t'.
      * split_and!; [lia|lia|done|]. destruct p as [|j p]; [left; by injection Hd as ->|right].
        apply IH. left. exists (j :: p). split_and!; [done|simpl in *; lia|done|done].
      * split_and!; [lia|lia|done|]. right. apply IH. right. exists p, j, t2.
        by split_and!; [lia|..|lia|lia|done|done|done].
Qed.

(** The address whose indices are given. *)
Definition va_of (i4 i3 i2 i1 : Z) : Z := i4 * 2 ^ 39 + i3 * 2 ^ 30 + i2 * 2 ^ 21 + i1 * 2 ^ 12.

Lemma va_of_idxs i4 i3 i2 i1 :
  0 ≤ i4 < 256 → 0 ≤ i3 < 512 → 0 ≤ i2 < 512 → 0 ≤ i1 < 512 →
  low_half (va_of i4 i3 i2 i1) ∧ idxs (va_of i4 i3 i2 i1) = [i4; i3; i2] ∧
  vidx (va_of i4 i3 i2 i1) 1 = i1.
Proof.
  intros H4 H3 H2 H1. unfold idxs. rewrite !vidx_div by lia. unfold low_half, va_of.
  change (2 ^ (12 + (4 - 1) * 9)) with (2 ^ 39). change (2 ^ (12 + (3 - 1) * 9)) with (2 ^ 30).
  change (2 ^ (12 + (2 - 1) * 9)) with (2 ^ 21). change (2 ^ (12 + (1 - 1) * 9)) with (2 ^ 12).
  split_and!; [lia|lia| |dlia]. repeat f_equal; dlia.
Qed.

Lemma user_idxs va :
  low_half va → ∃ i j k, idxs va = [i; j; k] ∧ 0 ≤ i < 256 ∧ 0 ≤ j < 512 ∧ 0 ≤ k < 512.
Proof.
  intros Hva. pose proof (user_va_half va Hva) as Hu. unfold user_va in Hu.
  exists (vidx va 4), (vidx va 3), (vidx va 2).
  pose proof (vidx_range va 4). by split_and!; try lia; try apply vidx_range.
Qed.

(** What the outer loop frees, with the root. *)
Lemma owned_below m space b :
  owned m space b ↔
  (∃ i t', 0 ≤ i < 256 ∧ next m space i = Some t' ∧ (b = t' ∨ below m 2 t' b)) ∨ b = space.
Proof.
  split.
  - intros [(p & [Hl Hp] & Hu & Hd)|(va & e & Hva & He & ->)].
    + destruct p as [|i p]; [right; by injection Hd|left]. simpl in Hl, Hu, Hd.
      inversion_clear Hp as [|? ? Hi Hp']. destruct (next m space i) as [t'|] eqn:Hn; [|done].
      exists i, t'. split_and!; [lia|lia|done|].
      destruct p as [|j p]; [left; by injection Hd|right]. apply below_paths. left.
      exists (j :: p). split_and!; [done|simpl in *; lia|done|done].
    + left. destruct (user_idxs va Hva) as (i & j & k & Hid & Hi & Hj & Hk).
      unfold lookup_page in He. rewrite Hid in He. cbn [descend] in He.
      destruct (next m space i) as [t'|] eqn:Hn; [|done]. exists i, t'. split_and!; [lia|lia|done|].
      right. apply below_paths. right.
      destruct (descend m t' [j; k]) as [t2|] eqn:Hd; cbn [descend] in Hd; rewrite Hd in He; [|done].
      destruct (has _ PTE_P) eqn:Hp; [|done]. injection He as <-.
      exists [j; k], (vidx va 1), t2. pose proof (vidx_range va 1).
      split_and!; [done|unfold indices; rewrite !Forall_cons; split_and!; [lia..|constructor]|lia|lia|exact Hd|done|done].
  - intros [(i & t' & Hi & Hn & [-> |Hb])| ->].
    + left. exists [i]. split; [split; [simpl; lia|by repeat constructor; lia]|].
      split; [simpl; lia|]. cbn [descend]. by rewrite Hn.
    + apply below_paths in Hb as [(p & Hne & Hl & Hp & Hd)|(p & j & t2 & Hl & Hp & Hj & Hd & Hh & ->)].
      * left. exists (i :: p).
        split; [split; [simpl; lia|constructor; [lia|done]]|].
        split; [simpl; lia|]. cbn [descend]. by rewrite Hn.
      * right. destruct p as [|a [|c [|? ?]]]; try done. clear Hl.
        inversion_clear Hp as [|? ? Ha Hp']. inversion_clear Hp' as [|? ? Hc _].
        destruct (va_of_idxs i a c j) as (Hlow & Hid & Hv1); [lia..|].
        exists (va_of i a c j), (entry m t2 j). split_and!; [apply Hlow..| |done].
        unfold lookup_page. rewrite Hid, Hv1. cbn [descend] in Hd |- *. rewrite Hn, Hd. by rewrite Hh.
    + left. exists []. split; [split; [simpl; lia|constructor]|done].
Qed.

Section space.
Context {P : Type} `{PageAllocatorLaws P}.
Implicit Types s : vmm P.

Lemma wp_destroy_space space s :
  data_ok space s → (∀ b, owned (phys s) space b → phys_page b) →
  wp (destroy_space space) (λ _ s', freed (owned (phys s) space) s s') s.
Proof.
  intros Hd Hb. pose proof (so_alloc _ _ (do_space _ _ Hd)) as Hs. unfold destroy_space. wp_step.
  eapply wp_mono; [apply (wp_free_each 256 _ (λ i b, ∃ t', next (phys s) space i = Some t' ∧
    (b = t' ∨ below (phys s) 2 t' b))); [done|done|]|].
  - intros i s1 Hi Hs1 Hm. unfold get_entry. wp_run.
    change (load64 (phys s1) _) with (entry (phys s1) space i). rewrite Hm.
    assert (huge (phys s) space i = false) as Hsmall.
    { by apply (do_small _ _ Hd []); [split; [simpl; lia|by repeat constructor; lia]|simpl; lia|]. }
    assert (next (phys s) space i = if has (entry (phys s) space i) PTE_P
      then Some (Z.land (entry (phys s) space i) PTE_ADDR_MASK) else None) as Hnext.
    { unfold next. unfold huge in Hsmall. destruct (has _ PTE_P); [|done].
      simpl in *. by rewrite Hsmall. }
    destruct (has _ PTE_P); cbn [negb]; wp_run.
    2: { apply freed_nothing; [done|]. intros b (t' & Ht & _). by rewrite Hnext in Ht. }
    set (t' := Z.land _ _) in *.
    assert (∀ b, b = t' ∨ below (phys s) 2 t' b → phys_page b) as Hbt.
    { intros b Hbb. apply Hb, owned_below. left. exists i, t'. by split_and!; [lia|lia|..]. }
    wp_use wp_destroy_l3; [done|rewrite Hm; auto|].
    rewrite Hm. intros [] s2 Hf1. pose proof Hf1 as (Hm1 & _ & _ & Hs2 & _). wp_run.
    change (load64 (phys s2) _) with (entry (phys s2) space i). rewrite Hm1, Hm. fold t'.
    wp_use wp_free_frame; [done|auto|].
    intros [] s3 Hf2. eapply freed_iff; [eapply freed_trans; [exact Hf1|exact Hf2]|].
    intros b. cbv beta. split.
    + intros [?| ->]; exists t'; tauto.
    + intros (t2 & Ht2 & Hb2). rewrite Hnext in Ht2. injection Ht2 as <-. tauto.
  - intros [] s1 Hf1. pose proof Hf1 as (_ & _ & _ & Hs1 & _).
    wp_use wp_free_frame; [done|apply Hb, owned_below; by right|].
    intros [] s2 Hf2. eapply freed_iff; [eapply freed_trans; [exact Hf1|exact Hf2]|].
    intros b. cbv beta. rewrite owned_below. split; intros [(i & Hr)|?]; [left|by right|left|by right].
    + destruct Hr as (Hi & t' & ? & ?). exists i, t'. by split_and!; [lia|lia|..].
    + destruct Hr as (t' & Hi & Ht & Hbb). exists i. split; [done|]. by exists t'.
Qed.

(** A space [within] [s0] is made of pages [s0] had. *)
Lemma owned_within s0 space s b :
  within s0 space s → owned (phys s) space b → avail (allocator s0) b.
Proof.
  intros W [(p & Hp & Hu & Hd)|(va & e & Hva & He & ->)].
  - by eapply (wi_table _ _ _ W).
  - by eapply (wi_data _ _ _ W).
Qed.

Lemma wp_destroy_within s0 space s :
  data_ok space s → within s0 space s → alloc_inv (allocator s0) →
  wp (destroy_space space) (λ _ s', freed (owned (phys s) space) s s') s.
Proof.
  intros Hd W H0'. apply wp_destroy_space; [done|]. intros b Hb.
  eapply avail_page; [exact H0'|]. by eapply owned_within.
Qed.

(** ** What the other spaces see

    Since [s0], only pages that were available have been written or taken. *)
Record only_free s0 s : Prop := {
  of_cr3 : cr3 s = cr3 s0;
  of_kernel : kernel_space s = kernel_space s0;
  of_alloc : alloc_inv (allocator s);
  of_mem_ok : mem_ok (phys s);
  of_avail a : avail (allocator s) a → avail (allocator s0) a;
  of_mem x : (∀ a, avail (allocator s0) a → ¬ (a ≤ x < a + PAGE_SIZE)) →
    phys s x = phys s0 x;
}.

Lemma only_free_within s0 space s : data_ok space s → within s0 space s → only_free s0 s.
Proof. intros Hd [W1 W2 W3 _ _ W6]. pose proof (do_space _ _ Hd) as []. by split. Qed.

Lemma only_free_freed s0 space s s' :
  within s0 space s → data_ok space s → freed (owned (phys s) space) s s' → only_free s0 s'.
Proof.
  intros W Hd (F1 & F2 & F3 & F4 & F5).
  destruct (only_free_within s0 space s Hd W) as [O1 O2 O3 O4 O5 O6].
  split; [congruence|congruence|done|by rewrite F1| |].
  - intros a [Ha|Ha]%F5; [by apply O5|by eapply owned_within].
  - intros x Hx. rewrite F1. by apply O6.
Qed.

Section others.
Context (b : Z) s0 s.
Hypothesis Hb : space_ok b s0.
Hypothesis Hof : only_free s0 s.

(** A frame that was not available is as it was. *)
Lemma only_free_frame f x :
  frame_addr f → ¬ avail (allocator s0) f → f ≤ x < f + PAGE_SIZE → phys s x = phys s0 x.
Proof.
  intros Hf Hn Hx. apply (of_mem _ _ Hof). intros a Ha Hxa.
  assert (frame_addr a) as Haf by (eapply avail_frame; [apply Hb|done]).
  eapply (frame_bytes_ne f a x x); try done. by intros ->.
Qed.
Lemma only_free_entry p t i :
  valid_path p → descend (phys s0) b p = Some t → 0 ≤ i < 512 →
  entry (phys s) t i = entry (phys s0) t i.
Proof.
  intros Hp Ht Hi. destruct (so_table _ _ Hb p t Hp Ht) as [Htf Htn].
  apply entry_ext; [done|]. intros x Hx. by apply (only_free_frame t).
Qed.
Lemma only_free_descend p : valid_path p → descend (phys s) b p = descend (phys s0) b p.
Proof.
  intros [Hl Hp]. apply descend_ext; [|done]. intros q u [r ->] Hq i Hi.
  eapply only_free_entry; [|done|done]. rewrite length_app in Hl.
  apply Forall_app in Hp as [Hp _]. split; [lia|done].
Qed.
Lemma only_free_lookup va : lookup_page (phys s) b va = lookup_page (phys s0) b va.
Proof.
  unfold lookup_page. rewrite only_free_descend by apply idxs_valid.
  destruct (descend (phys s0) b (idxs va)) as [t|] eqn:Et; [|done].
  by erewrite only_free_entry by eauto using idxs_valid, vidx_range.
Qed.
Lemma only_free_space_ok : space_ok b s.
Proof.
  split; [apply Hof|apply Hof| |].
  - intros p t Hp. rewrite only_free_descend by done. intros Ht.
    destruct (so_table _ _ Hb p t Hp Ht) as [? Hn]. split; [done|].
    intros Ha. by apply Hn, (of_avail _ _ Hof).
  - intros p1 p2 t H1 Hu H2. rewrite !only_free_descend by done. by apply (so_inj _ _ Hb).
Qed.
End others.

(** Another process keeps its pages and their contents. *)
Lemma only_free_data_ok b s0 s :
  only_free s0 s → data_ok b s0 →
  data_ok b s ∧ ∀ va, low_half va → user_byte (phys s) b va = user_byte (phys s0) b va.
Proof.
  intros Hof Hd. pose proof (do_space _ _ Hd) as Hb.
  pose proof (only_free_lookup b s0 s Hb Hof) as Hl.
  pose proof (only_free_descend b s0 s Hb Hof) as Hdd. split; [split|].
  - by eapply only_free_space_ok.
  - intros va e Hva. rewrite Hl. intros He. destruct (do_frame _ _ Hd va e Hva He) as [F1 F2 F3].
    split; [done| |].
    + intros Ha. by apply F2, (of_avail _ _ Hof).
    + intros p t Hp. rewrite Hdd by done. by apply F3.
  - intros va1 va2 e1 e2. rewrite !Hl. by apply (do_inj _ _ Hd).
  - intros p i t Hv Hu. pose proof (valid_prefix _ _ Hv) as [Hp Hi]. rewrite Hdd by done.
    intros Ht. unfold huge. rewrite (only_free_entry b s0 s Hb Hof p) by done.
    by apply (do_small _ _ Hd p).
  - intros va Hva. unfold user_byte. rewrite Hl.
    destruct (lookup_page (phys s0) b va) as [e|] eqn:He; [|done]. simpl. f_equal.
    destruct (do_frame _ _ Hd va e Hva He) as [F1 F2 F3].
    eapply only_free_frame; [done|done|done|done|apply byte_in_frame].
Qed.
End space.
End Teardown.
