(* ===== verification/Elf.v ===== *)
(** * ELF loader ([kernel-rs/src/proc/elf.rs], [proc/elf_defs.rs])

    Over any page allocator: the state is the memory manager's.  The image is
    a byte slice; reading it past its end (the loader follows [e_phoff] and
    [p_offset] without a check) is undefined in Rust and a [Panic] here. *)
From S2P Require Import Prelude PageAlloc Pmm Mem Vmm UserMem.

Module Elf.
Import Vmm UserMem.

Definition PT_LOAD : Z := 1.
Definition PF_X : Z := 1.
Definition PF_W : Z := 2.
Definition PF_R : Z := 4.

Record Elf64Ehdr := mkEhdr {
  e_ident : list Z;
  e_type : Z;
  e_machine : Z;
  e_version : Z;
  e_entry : Z;
  e_phoff : Z;
  e_shoff : Z;
  e_flags : Z;
  e_ehsize : Z;
  e_phentsize : Z;
  e_phnum : Z;
  e_shentsize : Z;
  e_shnum : Z;
  e_shstrndx : Z;
}.
Definition EHDR_SIZE : Z := 64.

Record Elf64Phdr := mkPhdr {
  p_type : Z;
  p_flags : Z;
  p_offset : Z;
  p_vaddr : Z;
  p_paddr : Z;
  p_filesz : Z;
  p_memsz : Z;
  p_align : Z;
}.
Definition PHDR_SIZE : Z := 56.

(** The [n]-byte little-endian field at [off]. *)
Definition field (n : nat) (data : list Z) (off : Z) : Z :=
  load_le n (store_bytes (λ _, 0) 0 data) off.

(** [&*(p as *const Elf64Ehdr)] and [Elf64Phdr], [repr(C)]. *)
Definition read_ehdr (data : list Z) : Elf64Ehdr :=
  mkEhdr (slice 0 16 data) (field 2 data 16) (field 2 data 18) (field 4 data 20)
    (field 8 data 24) (field 8 data 32) (field 8 data 40) (field 4 data 48)
    (field 2 data 52) (field 2 data 54) (field 2 data 56) (field 2 data 58)
    (field 2 data 60) (field 2 data 62).
Definition read_phdr (data : list Z) (off : Z) : option Elf64Phdr :=
  if off + PHDR_SIZE <=? zlen data then
    Some (mkPhdr (field 4 data off) (field 4 data (off + 4)) (field 8 data (off + 8))
      (field 8 data (off + 16)) (field 8 data (off + 24)) (field 8 data (off + 32))
      (field 8 data (off + 40)) (field 8 data (off + 48)))
  else None.

Definition elf_flags_to_pte (pf : Z) : Z :=
  let f := PTE_US in
  let f := if negb (Z.land pf PF_W =? 0) then Z.lor f PTE_RW else f in
  if Z.land pf PF_X =? 0 then Z.lor f PTE_NX else f.

Section elf.
Context {P : Type} `{PageAllocator P}.

Definition map_segment_page (space va pte_flags : Z) : M (vmm P) bool :=
  pa ← pmm_call alloc_page;
  if pa =? 0 then mret false
  else
    zero_table pa;;
    map space va pa pte_flags.

(** One turn of [while va < end]: continue, or leave with true, or return 0. *)
Definition load_page (space : Z) (data : list Z) (ph : Elf64Phdr) (flags end_ va : Z)
    : M (vmm P) (Z + bool) :=
  if va <? end_ then
    ok ← map_segment_page space va flags;
    if negb ok then mret (inr false)
    else
      let seg_end := u64 (p_vaddr ph + p_filesz ph) in
      let c_lo := Z.max va (p_vaddr ph) in
      let c_hi := Z.min (u64 (va + PAGE_SIZE)) seg_end in
      (if c_hi >? c_lo then
         pa ← translate space va;
         let src := u64 (p_offset ph + (c_lo - p_vaddr ph)) in
         (if src + (c_hi - c_lo) <=? zlen data then
            modify (λ s, set_phys (store_bytes (phys s) (pa + (c_lo - va))
              (slice src (c_hi - c_lo) data)) s)
          else panic)
       else mret tt);;
      mret (inl (u64 (va + PAGE_SIZE)))
  else mret (inr true).

(** [va] grows by a page per turn up to [end_]: the fuel is their number. *)
Definition load_segment (space : Z) (data : list Z) (ph : Elf64Phdr) : M (vmm P) bool :=
  let flags := elf_flags_to_pte (p_flags ph) in
  let start := page_down (p_vaddr ph) in
  let end_ := page_down (u64 (p_vaddr ph + p_memsz ph + PAGE_SIZE - 1)) in
  loop (S (Z.to_nat ((end_ - start) / PAGE_SIZE))) (load_page space data ph flags end_) start.

(** The entry address, or 0. *)
Definition elf_load (space : Z) (data : list Z) : M (vmm P) Z :=
  if zlen data <? EHDR_SIZE then mret 0
  else
    let eh := read_ehdr data in
    if negb (bool_decide (slice 0 4 (e_ident eh) = [0x7F; 69; 76; 70])) then mret 0
    else if negb (bool_decide (slice 4 2 (e_ident eh) = [2; 1])) then mret 0
    else if negb (e_type eh =? 2) || negb (e_machine eh =? 62) then mret 0
    else
      r ← for_range 0 (e_phnum eh) (λ i,
        let ph_off := u64 (e_phoff eh + i * e_phentsize eh) in
        ph ← of_option (read_phdr data ph_off);
        if negb (p_type ph =? PT_LOAD) || (p_memsz ph =? 0) then mret None
        else
          ok ← load_segment space data ph;
          if (ok : bool) then mret None else mret (Some 0));
      mret (default (e_entry eh) r).
End elf.

(** ** What an image asks for *)

(** Readable by the user, writable, not executable. *)
Definition rights (e : Z) : bool * bool * bool :=
  (Z.testbit e 2, Z.testbit e 1, Z.testbit e 63).
Definition page_rights (m : memory) (space va : Z) : option (bool * bool * bool) :=
  rights <$> lookup_page m space va.
Definition asked_rights (ph : Elf64Phdr) : bool * bool * bool :=
  (true, Z.testbit (p_flags ph) 1, negb (Z.testbit (p_flags ph) 0)).

Definition seg_start (ph : Elf64Phdr) : Z := page_down (p_vaddr ph).
Definition seg_end (ph : Elf64Phdr) : Z := page_up (p_vaddr ph + p_memsz ph).

(** The byte of the segment at [va], for [va] in its pages. *)
Definition seg_content (data : list Z) (ph : Elf64Phdr) (va : Z) : Z :=
  if decide (p_vaddr ph ≤ va < p_vaddr ph + p_filesz ph) then
    default 0 (zget data (p_offset ph + (va - p_vaddr ph)))
  else 0.

Definition loadable (ph : Elf64Phdr) : bool :=
  (p_type ph =? PT_LOAD) && negb (p_memsz ph =? 0).

Definition phdr_at (data : list Z) (i : Z) : option Elf64Phdr :=
  let eh := read_ehdr data in read_phdr data (u64 (e_phoff eh + i * e_phentsize eh)).

(** Among the first [n] program headers, the last one whose pages hold [va]. *)
Fixpoint owner (data : list Z) (n : nat) (va : Z) : option Elf64Phdr :=
  match n with
  | O => None
  | S n =>
      match phdr_at data (Z.of_nat n) with
      | Some ph =>
          if decide (loadable ph = true ∧ seg_start ph ≤ va < seg_end ph) then Some ph
          else owner data n va
      | None => owner data n va
      end
  end.

Definition header_ok (data : list Z) : bool :=
  let eh := read_ehdr data in
  (EHDR_SIZE <=? zlen data) &&
  bool_decide (slice 0 4 (e_ident eh) = [0x7F; 69; 76; 70]) &&
  bool_decide (slice 4 2 (e_ident eh) = [2; 1]) &&
  (e_type eh =? 2) && (e_machine eh =? 62).

Record seg_ok (data : list Z) (ph : Elf64Phdr) : Prop := {
  sg_vaddr : 0 ≤ p_vaddr ph;
  sg_memsz : 0 < p_memsz ph;
  sg_filesz : 0 ≤ p_filesz ph;
  sg_offset : 0 ≤ p_offset ph;
  sg_flags : 0 ≤ p_flags ph;
  sg_low : p_vaddr ph + p_memsz ph ≤ 2 ^ 47;
  sg_file : p_offset ph + p_filesz ph ≤ zlen data;
}.

Record image_ok (data : list Z) : Prop := {
  im_bytes : Forall (λ b, 0 ≤ b < 2 ^ 8) data;
  im_len : zlen data < 2 ^ 63;
  im_phdrs i : 0 ≤ i < e_phnum (read_ehdr data) → ∃ ph,
    phdr_at data i = Some ph ∧ (loadable ph = true → seg_ok data ph);
}.

Lemma flags_rights pf e :
  0 ≤ pf →
  (∀ k, 0 ≤ k < 12 ∨ 52 ≤ k →
     Z.testbit e k = Z.testbit (Z.lor (elf_flags_to_pte pf) PTE_P) k) →
  rights e = (true, Z.testbit pf 1, negb (Z.testbit pf 0)).
Proof.
  intros Hpf He. unfold rights. rewrite !He by lia. unfold elf_flags_to_pte.
  assert (∀ k, 0 ≤ k → (Z.land pf (Z.shiftl 1 k) =? 0) = negb (Z.testbit pf k)) as Hb.
  { intros k Hk. pose proof (has_bit pf k Hk) as Hh. unfold has in Hh.
    rewrite <- Hh. by rewrite negb_involutive. }
  change PF_W with (Z.shiftl 1 1). change PF_X with (Z.shiftl 1 0). rewrite !Hb by lia.
  destruct (Z.testbit pf 1), (Z.testbit pf 0); reflexivity.
Qed.
Lemma flags_range pf :
  0 ≤ elf_flags_to_pte pf < 2 ^ 64 ∧ Z.land (elf_flags_to_pte pf) PTE_ADDR_MASK = 0.
Proof. unfold elf_flags_to_pte. by destruct (Z.land pf PF_W =? 0), (Z.land pf PF_X =? 0). Qed.

Lemma seg_bounds data ph :
  seg_ok data ph →
  seg_start ph = p_vaddr ph - p_vaddr ph mod PAGE_SIZE ∧
  0 ≤ seg_start ph ≤ p_vaddr ph ∧ seg_start ph mod PAGE_SIZE = 0 ∧
  p_vaddr ph + p_memsz ph ≤ seg_end ph ≤ 2 ^ 47 ∧ seg_end ph mod PAGE_SIZE = 0.
Proof.
  intros [H1 H2 H3 H4 H5 H6 H7]. unfold seg_start, seg_end, page_up.
  assert (u64 (p_vaddr ph + p_memsz ph + PAGE_SIZE - 1) =
    p_vaddr ph + p_memsz ph + PAGE_SIZE - 1) as ->
    by (apply u64_id; unfold PAGE_SIZE; lia).
  rewrite !page_down_spec by (unfold PAGE_SIZE; lia). unfold PAGE_SIZE. dlia.
Qed.

Section loading.
Context {P : Type} `{PageAllocatorLaws P}.
Context (s0 : vmm P) (space : Z) (data : list Z).
Implicit Types (s : vmm P).
Hypothesis Hbytes : Forall (λ b, 0 ≤ b < 2 ^ 8) data.
Hypothesis Hlen : zlen data < 2 ^ 63.

(** Out of pages: the only way a segment can fail. *)
Definition exhausted s : Prop := ∀ b, ¬ avail (allocator s) b.

Definition unmapped (Q : Z → Prop) s : Prop :=
  ∀ va, low_half va → Q va → page_rights (phys s) space va = None.

(** [s'] is [s] with the addresses in [Q] replaced by the view of [ph]; no
    page was lost if nothing was mapped there. *)
Definition loaded (ph : Elf64Phdr) (Q : Z → Prop) `{∀ va, Decision (Q va)} s s' : Prop :=
  (unmapped Q s → keeps space s s') ∧
  ∀ va, low_half va →
    user_byte (phys s') space va =
      (if decide (Q va) then Some (seg_content data ph va) else user_byte (phys s) space va) ∧
    page_rights (phys s') space va =
      (if decide (Q va) then Some (asked_rights ph) else page_rights (phys s) space va).

Lemma unmapped_lookup Q s va :
  unmapped Q s → low_half va → Q va → lookup_page (phys s) space va = None.
Proof.
  intros Hu Hva HQ. specialize (Hu va Hva HQ). unfold page_rights in Hu.
  by destruct (lookup_page _ _ _).
Qed.

Lemma page_rights_same m va va' :
  low_half va → low_half va' → same_page va' va →
  page_rights m space va' = page_rights m space va.
Proof. intros. unfold page_rights. by rewrite (lookup_same_page m space va va'). Qed.

Lemma added_loaded ph va ok s s' x :
  0 ≤ p_flags ph → low_half va → low_half x →
  page_added space va (elf_flags_to_pte (p_flags ph)) s ok s' →
  page_rights (phys s') space x =
    if decide (ok = true ∧ same_page x va) then Some (asked_rights ph)
    else page_rights (phys s) space x.
Proof.
  intros Hpf Hva Hx Hadd. case_decide as Hd.
  - destruct Hd as [-> Hs]. rewrite (page_rights_same _ va) by done.
    destruct (pa_entry _ _ _ _ _ _ Hadd) as (e & He & Hbits); [done|].
    unfold page_rights. rewrite He. simpl. f_equal. by apply flags_rights.
  - unfold page_rights. by rewrite (pa_others _ _ _ _ _ _ Hadd).
Qed.

Lemma wp_load_page ph va s :
  seg_ok data ph → data_ok space s → within s0 space s →
  seg_start ph ≤ va < seg_end ph → va mod PAGE_SIZE = 0 →
  wp (load_page space data ph (elf_flags_to_pte (p_flags ph)) (seg_end ph) va)
    (λ r s', data_ok space s' ∧ within s0 space s' ∧
       match r with
       | inl va' => va' = va + PAGE_SIZE ∧ loaded ph (λ x, same_page x va) s s'
       | inr b => b = false ∧ exhausted s' ∧ ∃ a, keeps_but space a s s'
       end) s.
Proof.
  intros Hsg Hd W Hva Hal. pose proof Hsg as [G1 G2 G3 G4 G5 G6 G7].
  destruct (seg_bounds data ph Hsg) as (B1 & B2 & B3 & B4 & B5).
  destruct (flags_range (p_flags ph)) as [Hfl Hmask].
  assert (low_half va) as Hlow by (split; lia).
  assert (va + PAGE_SIZE ≤ 2 ^ 47) as Hnext.
  { assert (va + PAGE_SIZE ≤ seg_end ph); [|lia]. unfold PAGE_SIZE in *. dlia. }
  unfold load_page. rewrite (proj2 (Z.ltb_lt va _)) by lia.
  unfold map_segment_page. wp_step.
  wp_use wp_alloc_zero_map; [done..|]. intros ok s1 Hadd.
  pose proof Hadd as [Hd1 W1 Hb1 He1 Ho1 Hf1 Hk1 Hn1]. specialize (W1 s0 W).
  destruct ok; cbn [negb]; wp_run.
  2: { split_and!; [done|done|done|exact (Hf1 eq_refl)|exact (Hn1 eq_refl)]. }
  assert (unmapped (λ x, same_page x va) s → keeps space s s1) as Hkeep.
  { intros Hu. apply Hk1; [done|]. by apply (unmapped_lookup _ _ _ Hu). }
  assert (∀ x, low_half x → page_rights (phys s1) space x =
    if decide (same_page x va) then Some (asked_rights ph)
    else page_rights (phys s) space x) as Hr1.
  { intros x Hx. erewrite (added_loaded ph va true) by done.
    repeat case_decide; try done; tauto. }
  rewrite (u64_id (p_vaddr ph + _)) by lia. rewrite (u64_id (va + _)) by (unfold PAGE_SIZE in *; lia).
  rewrite (u64_id (p_offset ph + _)) by lia.
  set (c_lo := Z.max va (p_vaddr ph)).
  set (c_hi := Z.min (va + PAGE_SIZE) (p_vaddr ph + p_filesz ph)).
  assert (p_vaddr ph < va + PAGE_SIZE) as Hvp by (unfold PAGE_SIZE in *; dlia).
  assert (∀ x, low_half x → same_page x va ↔ va ≤ x < va + PAGE_SIZE) as Hsp.
  { intros x Hx. unfold same_page. clear -Hal. unfold PAGE_SIZE in *. split; dlia. }
  rewrite Z.gtb_ltb. destruct (Z.ltb_spec c_lo c_hi) as [Hcopy|Hnone]; wp_run.
  2: { split_and!; [done|done|done|]. split; [done|]. intros x Hx. rewrite Hb1, Hr1 by done.
       destruct (decide (same_page x va)) as [Hs|Hs].
       - rewrite decide_True by done. split; [|done]. unfold seg_content.
         rewrite decide_False; [done|]. apply Hsp in Hs; [|done]. unfold c_lo, c_hi in *. lia.
       - rewrite decide_False by (by intros [_ ?]). done. }
  destruct He1 as (e & He & _); [done|].
  wp_use wp_translate; [apply Hd1|by apply user_va_half|]. intros pa s2 [-> ->].
  rewrite He, page_offset, Hal, Z.add_0_r. wp_run.
  rewrite (proj2 (Z.leb_le _ _)) by (unfold c_lo, c_hi in *; lia). wp_run.
  set (bs := slice _ _ data).
  assert (zlen bs = c_hi - c_lo) as Hbs by (apply zlen_slice; unfold c_lo, c_hi in *; lia).
  set (m' := store_bytes (phys s1) _ bs).
  assert (∀ x, ¬ (page_frame e ≤ x < page_frame e + PAGE_SIZE) → m' x = phys s1 x) as Hout.
  { intros x Hx. apply store_bytes_out. fold (page_frame e). unfold c_lo, c_hi in *. lia. }
  destruct (write_page space va e s1 m' Hd1 Hlow He) as (Hd2 & Hl2 & Hb2); [|done|].
  { apply mem_ok_store_bytes; [apply (do_space _ _ Hd1)|]. by apply Forall_take, Forall_drop. }
  split_and!; [done|by eapply within_write|done|]. split.
  { intros Hu. eapply keeps_trans; [by apply Hkeep|by eapply write_keeps]. }
  intros x Hx. cbn [phys set_phys].
  unfold page_rights. rewrite Hl2. fold (page_rights (phys s1) space x).
  rewrite Hb2, Hr1 by done. split; [|done].
  destruct (decide (same_page x va)) as [Hs|Hs].
  2: { rewrite Hb1 by done. by rewrite decide_False by (by intros [_ ?]). }
  f_equal. specialize (Hb1 x Hx). rewrite decide_True in Hb1 by done.
  unfold user_byte in Hb1. rewrite (lookup_same_page _ _ va) in Hb1 by done.
  rewrite He in Hb1. injection Hb1 as Hzero. pose proof (proj1 (Hsp x Hx) Hs) as Hxr.
  assert (x mod PAGE_SIZE = x - va) as Hmod by (unfold PAGE_SIZE in *; dlia).
  unfold m', store_bytes. fold (page_frame e). rewrite Hmod in *.
  replace (page_frame e + (x - va) - (page_frame e + (c_lo - va))) with (x - c_lo) by lia.
  unfold seg_content. case_decide as Hin.
  - unfold bs. rewrite zget_slice by (unfold c_lo, c_hi in *; lia).
    replace (_ + (x - c_lo)) with (p_offset ph + (x - p_vaddr ph)) by lia.
    destruct (zget_lt data (p_offset ph + (x - p_vaddr ph))) as [b ->]; [lia|done].
  - rewrite (proj2 (zget_None bs _)) by (unfold c_lo, c_hi in *; lia). done.
Qed.

Lemma wp_load_segment ph s :
  seg_ok data ph → data_ok space s → within s0 space s →
  wp (load_segment space data ph) (λ ok s', data_ok space s' ∧ within s0 space s' ∧
    if ok : bool then loaded ph (λ x, seg_start ph ≤ x < seg_end ph) s s'
    else exhausted s' ∧
      (unmapped (λ x, seg_start ph ≤ x < seg_end ph) s → ∃ a, keeps_but space a s s')) s.
Proof.
  intros Hsg Hd W. destruct (seg_bounds data ph Hsg) as (B1 & B2 & B3 & B4 & B5).
  pose proof (sg_memsz _ _ Hsg) as Hmem. unfold load_segment.
  change (page_down (p_vaddr ph)) with (seg_start ph).
  change (page_down (u64 (p_vaddr ph + p_memsz ph + PAGE_SIZE - 1))) with (seg_end ph).
  apply (wp_loop (λ va s', seg_start ph ≤ va ≤ seg_end ph ∧ va mod PAGE_SIZE = 0 ∧
      data_ok space s' ∧ within s0 space s' ∧
      loaded ph (λ x, seg_start ph ≤ x < va) s s')
    (λ va, Z.to_nat ((seg_end ph - va) / PAGE_SIZE))).
  { split_and!; [lia..|done|done|done|]. split; [by intros _ b|].
    intros x Hx. by rewrite !decide_False by lia. }
  { lia. }
  clear Hd W. intros va s1 (Hva & Hal & Hd & W & Hl).
  destruct (decide (va < seg_end ph)) as [Hlt|Hge].
  2: { unfold load_page. rewrite (proj2 (Z.ltb_ge va _)) by lia. wp_run.
       split_and!; [done|done|]. by replace va with (seg_end ph) in Hl by lia. }
  wp_use wp_load_page; [done|done|done|lia|done|].
  intros [va'|b] s2 (Hd2 & W2 & Hr).
  2: { destruct Hr as (-> & Hx & a & Hlost). split_and!; [done..|]. intros Hu. exists a.
       eapply keeps_but_trans; [|exact Hlost]. apply Hl. intros x Hx2 Hin. apply Hu; [done|lia]. }
  destruct Hr as [-> Hl2].
  assert (va + PAGE_SIZE ≤ seg_end ph) as Hnext by (clear -Hal B5 Hlt; unfold PAGE_SIZE in *; dlia).
  split_and!; [unfold PAGE_SIZE; lia|done| |done|done| |].
  - rewrite <- Zplus_mod_idemp_r, Z.mod_same, Z.add_0_r by done. done.
  - destruct Hl as [Hk Hl], Hl2 as [Hk2 Hl2]. split.
    { intros Hu. eapply keeps_trans.
      - apply Hk. intros x Hx Hin. apply Hu; [done|unfold PAGE_SIZE; lia].
      - apply Hk2. intros x Hx Hs. destruct (Hl x Hx) as [_ ->].
        assert (va ≤ x < va + PAGE_SIZE) as Hin.
        { clear -Hal Hs. unfold same_page, PAGE_SIZE in *. dlia. }
        rewrite decide_False by lia. apply Hu; [done|lia]. }
    intros x Hx. destruct (Hl2 x Hx) as [-> ->], (Hl x Hx) as [-> ->].
    assert (same_page x va ↔ va ≤ x < va + PAGE_SIZE) as Hsp.
    { unfold same_page. clear -Hal. unfold PAGE_SIZE in *. split; dlia. }
    destruct (decide (same_page x va)) as [Hs|Hs].
    + by rewrite !decide_True by (apply Hsp in Hs; lia).
    + destruct (decide (seg_start ph ≤ x < va)).
      * by rewrite !decide_True by (unfold PAGE_SIZE; lia).
      * by rewrite !decide_False by (intros Hin; apply Hs, Hsp; lia).
  - replace (seg_end ph - va) with (seg_end ph - (va + PAGE_SIZE) + 1 * PAGE_SIZE) by lia.
    rewrite Z.div_add by done.
    pose proof (Z.div_pos (seg_end ph - (va + PAGE_SIZE)) PAGE_SIZE). unfold PAGE_SIZE in *. lia.
Qed.

(** The lower half reads as the first [n] program headers ask, and as in [s]
    where they ask for nothing. *)
Definition shows_image (n : nat) s s' : Prop := ∀ va, low_half va →
  match owner data n va with
  | Some ph => user_byte (phys s') space va = Some (seg_content data ph va) ∧
               page_rights (phys s') space va = Some (asked_rights ph)
  | None => user_byte (phys s') space va = user_byte (phys s) space va ∧
            page_rights (phys s') space va = page_rights (phys s) space va
  end.

(** No two loadable segments have a page in common. *)
Definition segments_apart : Prop := ∀ i ph va, 0 ≤ i < e_phnum (read_ehdr data) →
  phdr_at data i = Some ph → loadable ph = true → seg_start ph ≤ va < seg_end ph →
  owner data (Z.to_nat i) va = None.

(** One more segment. *)
Lemma shows_image_step i ph s s1 s2 :
  0 ≤ i < e_phnum (read_ehdr data) → phdr_at data i = Some ph → loadable ph = true →
  shows_image (Z.to_nat i) s s1 →
  loaded ph (λ va, seg_start ph ≤ va < seg_end ph) s1 s2 →
  shows_image (Z.to_nat (i + 1)) s s2 ∧
  (segments_apart → unmapped (λ _, True) s → keeps space s s1 → keeps space s s2).
Proof.
  intros Hi Hph Eload Hv [Hk Hr]. split.
  - intros va Hva. specialize (Hv va Hva). destruct (Hr va Hva) as [Hb Hrt].
    rewrite Z2Nat.inj_add by lia. change (Z.to_nat 1) with 1%nat.
    rewrite Nat.add_1_r. cbn [owner]. rewrite Z2Nat.id, Hph, Eload by lia.
    destruct (decide (true = true ∧ seg_start ph ≤ va < seg_end ph)) as [[_ Hin]|Hout].
    + rewrite decide_True in Hb by done. by rewrite decide_True in Hrt by done.
    + assert (¬ (seg_start ph ≤ va < seg_end ph)) as Hno by tauto.
      rewrite decide_False in Hb by done. rewrite decide_False in Hrt by done.
      by rewrite Hb, Hrt.
  - intros Hap Hu K1. eapply keeps_trans; [exact K1|]. apply Hk. intros va Hva Hin.
    specialize (Hv va Hva). rewrite (Hap i ph va) in Hv by done.
    destruct Hv as [_ ->]. by apply Hu.
Qed.

Lemma wp_elf_load s :
  header_ok data = true → image_ok data → data_ok space s → within s0 space s →
  wp (elf_load space data) (λ r s', data_ok space s' ∧ within s0 space s' ∧
    ((r = 0 ∧ exhausted s' ∧
      (segments_apart → unmapped (λ _, True) s → ∃ a, keeps_but space a s s')) ∨
     (r = e_entry (read_ehdr data) ∧
      shows_image (Z.to_nat (e_phnum (read_ehdr data))) s s' ∧
      (segments_apart → unmapped (λ _, True) s → keeps space s s')))) s.
Proof.
  intros Hh [_ _ Him] Hd W. unfold header_ok in Hh. rewrite !andb_true_iff in Hh.
  destruct Hh as [[[[Hl Hm] Hc] Ht] Hmach]. unfold elf_load.
  rewrite (proj2 (Z.ltb_ge _ _)) by (by apply Z.leb_le).
  rewrite Hm, Hc, Ht, Hmach. cbn [negb orb]. set (eh := read_ehdr data) in *. wp_run.
  assert (0 ≤ e_phnum eh) as Hn0.
  { unfold eh, read_ehdr, e_phnum, field. apply (load_le_range 2).
    apply mem_ok_store_bytes; [intros x; lia|done]. }
  apply (wp_for_range (λ i s', data_ok space s' ∧ within s0 space s' ∧
    shows_image (Z.to_nat i) s s' ∧
    (segments_apart → unmapped (λ _, True) s → keeps space s s'))).
  { done. }
  { split_and!; [done|done|done|by intros _ _ b]. }
  2: { intros s' (Hd' & W' & Hv & Hk). wp_run. split_and!; [done|done|]. right.
       by split_and!. }
  intros i s1 Hi (Hd1 & W1 & Hv & Hk). destruct (Him i Hi) as (ph & Hph & Hsg).
  wp_run. apply wp_of_option. exists ph. split; [exact Hph|].
  assert ((negb (p_type ph =? PT_LOAD) || (p_memsz ph =? 0)) = negb (loadable ph)) as ->.
  { unfold loadable. by rewrite negb_andb, negb_involutive. }
  destruct (loadable ph) eqn:Eload; cbn [negb].
  2: { wp_run. split_and!; [done|done| |done]. intros va Hva. specialize (Hv va Hva).
       rewrite Z2Nat.inj_add by lia. change (Z.to_nat 1) with 1%nat.
       rewrite Nat.add_1_r. cbn [owner]. rewrite Z2Nat.id, Hph, Eload by lia.
       by rewrite decide_False by (by intros [? _]). }
  wp_run. wp_use wp_load_segment; [by apply Hsg|done|done|].
  intros [] s2 (Hd2 & W2 & Hr); wp_run.
  2: { split_and!; [done|done|]. left. destruct Hr as [Hx Hlost]. split_and!; [done|done|].
       intros Hap Hu. destruct Hlost as [a Hlost].
       - intros va Hva Hin. specialize (Hv va Hva). rewrite (Hap i ph va) in Hv by done.
         destruct Hv as [_ ->]. by apply Hu.
       - exists a. eapply keeps_but_trans; [by apply Hk|exact Hlost]. }
  destruct (shows_image_step i ph s s1 s2) as [Hv2 Hk2]; [done..|].
  split_and!; [done|done|done|]. intros Hap Hu. by apply Hk2, Hk.
Qed.
End loading.

(** The header check: an image that is too short, lacks the ELF magic, is
    not 64-bit little endian or not an x86-64 executable is refused with 0
    before anything is allocated, mapped or written, whatever follows. *)
Theorem elf_load_rejects {P} `{PageAllocator P} (space : Z) (data : list Z) (s : vmm P) :
  header_ok data = false → wp (elf_load space data) (λ r s', r = 0 ∧ s' = s) s.
Proof.
  intros Hh. unfold header_ok in Hh. unfold elf_load, EHDR_SIZE in *.
  destruct (Z.ltb_spec (zlen data) 64) as [|Hl]; [by wp_run|].
  rewrite (proj2 (Z.leb_le 64 _)) in Hh by lia.
  destruct (bool_decide _); [|by wp_run]. destruct (bool_decide _); [|by wp_run].
  cbn [negb andb] in *. apply andb_false_iff in Hh as [-> | ->]; wp_run; [by wp_run|].
  rewrite orb_true_r. by wp_run.
Qed.

Section image.
Context {P : Type} `{PageAllocatorLaws P}.

(** C3: Loading a well-formed executable: [elf_load] returns, and unless the
    allocator ran out (then 0) it returns the entry address and every
    lower-half address reads as the image asks: in the pages of a PT_LOAD
    segment (the last one, where segments share a page) the file's bytes and
    zeroes past [p_filesz], user accessible, writable exactly with PF_W and
    executable exactly with PF_X; everywhere else as before.  All page tables
    and frames it used were free before, no other byte of memory changed, and
    if no two segments share a page and nothing was mapped, no page is lost, or
    one where the load failed. *)
Theorem elf_load_image (s0 : vmm P) (space : Z) (data : list Z) (s : vmm P) :
  header_ok data = true → image_ok data → data_ok space s → within s0 space s →
  wp (elf_load space data) (λ r s', data_ok space s' ∧ within s0 space s' ∧
    ((r = 0 ∧ exhausted s' ∧
      (segments_apart data → unmapped space (λ _, True) s → ∃ a, keeps_but space a s s')) ∨
     (r = e_entry (read_ehdr data) ∧
      shows_image space data (Z.to_nat (e_phnum (read_ehdr data))) s s' ∧
      (segments_apart data → unmapped space (λ _, True) s → keeps space s s')))) s.
Proof. intros Hh Him. apply wp_elf_load; [apply Him|apply Him|done|done]. Qed.
End image.

(** *** A small executable: three bytes of code at 0x400000 and two of bss. *)
Definition le (n : nat) (v : Z) : list Z := load_bytes (store_le n (λ _, 0) 0 v) 0 (Z.of_nat n).
Definition demo_ehdr (class : Z) : list Z :=
  [0x7F; 69; 76; 70; class; 1; 1; 0; 0; 0; 0; 0; 0; 0; 0; 0] ++
  le 2 2 ++ le 2 62 ++ le 4 1 ++ le 8 0x400000 ++ le 8 64 ++ le 8 0 ++ le 4 0 ++
  le 2 64 ++ le 2 56 ++ le 2 1 ++ le 2 0 ++ le 2 0 ++ le 2 0.
Definition demo_phdr : list Z :=
  le 4 1 ++ le 4 5 ++ le 8 120 ++ le 8 0x400000 ++ le 8 0 ++ le 8 3 ++ le 8 5 ++ le 8 4096.
Definition demo_image : list Z := demo_ehdr 2 ++ demo_phdr ++ [0x90; 0xC3; 7].

Lemma demo_image_ok : image_ok demo_image.
Proof.
  split; [|reflexivity|].
  - apply (bool_decide_unpack _). vm_compute. exact I.
  - change (e_phnum (read_ehdr demo_image)) with 1. intros i Hi.
    assert (i = 0) as -> by lia.
    exists (mkPhdr 1 5 120 0x400000 0 3 5 4096). split; [reflexivity|]. intros _.
    split; cbn [p_vaddr p_memsz p_filesz p_offset p_flags]; try lia.
    change (zlen demo_image) with 123. lia.
Qed.

Lemma elf_load_rejects_witness :
  wp (elf_load 32768 (demo_ehdr 1)) (λ r s', r = 0 ∧ s' = demo_vmm) demo_vmm.
Proof. apply elf_load_rejects. reflexivity. Defined.

Lemma elf_load_image_witness :
  wp (elf_load 32768 demo_image) (λ r s', data_ok 32768 s' ∧ within demo_before 32768 s' ∧
    ((r = 0 ∧ exhausted s' ∧
      (segments_apart demo_image → unmapped 32768 (λ _, True) demo_vmm →
         ∃ a, keeps_but 32768 a demo_vmm s')) ∨
     (r = e_entry (read_ehdr demo_image) ∧
      shows_image 32768 demo_image (Z.to_nat (e_phnum (read_ehdr demo_image))) demo_vmm s' ∧
      (segments_apart demo_image → unmapped 32768 (λ _, True) demo_vmm →
         keeps 32768 demo_vmm s')))) demo_vmm.
Proof.
  apply elf_load_image; [reflexivity|exact demo_image_ok|exact demo_data_ok|exact demo_within].
Defined.

(** The headers are trusted.  A file that ends where its program headers should
    be is read past its end; a segment at a kernel address is mapped there,
    for user mode, in the tables all processes share. *)
Example short_file_overrun : elf_load 32768 (demo_ehdr 2) demo_vmm = Panic.
Proof. vm_compute. reflexivity. Qed.
Definition kernel_phdr : list Z :=
  le 4 1 ++ le 4 5 ++ le 8 120 ++ le 8 0xFFFF800000000000 ++ le 8 0 ++ le 8 3 ++ le 8 5 ++ le 8 4096.
Example kernel_address_mapped :
  match elf_load 32768 (demo_ehdr 2 ++ kernel_phdr ++ [0x90; 0xC3; 7]) demo_vmm with
  | Done (entry, s) => Some (entry, (λ e, negb (Z.land e PTE_US =? 0)) <$> lookup_page (phys s) 32768 0xFFFF800000000000)
  | _ => None
  end = Some (0x400000, Some true).
Proof. vm_compute. reflexivity. Qed.
End Elf.
