(* ===== verification/Tmpfs.v ===== *)
(** * tmpfs ([kernel-rs/src/fs/tmpfs.rs])

    A table of 192 nodes and a bump-allocated pool of 1 MiB.  Paths are byte
    strings; a node's name is its 24-byte NUL-padded array.  The pool is
    byte-addressed memory; every slice of it is bounds checked as Rust does. *)
From S2P Require Import Prelude Mem.

Module Tmpfs.

Definition VFS_NAME_MAX : Z := 24.
Definition VN_FREE : Z := 0.
Definition VN_FILE : Z := 1.
Definition VN_DIR : Z := 2.
Definition TN_MAX : Z := 192.
Definition TN_POOL : Z := 1024 * 1024.

Record tnode := mkNode {
  name : list Z;
  typ : Z;
  parent : Z;
  off : Z;
  size : Z;
}.
Definition free_node : tnode := mkNode (replicate 24 0) VN_FREE 0 0 0.

Record tmpfs := mkFs {
  nodes : list tnode;
  pool : memory;
  pool_used : Z;
}.

Definition set_nodes (ns : list tnode) (s : tmpfs) : tmpfs :=
  mkFs ns (pool s) (pool_used s).
Definition set_pool (m : memory) (s : tmpfs) : tmpfs := mkFs (nodes s) m (pool_used s).
Definition set_used (u : Z) (s : tmpfs) : tmpfs := mkFs (nodes s) (pool s) u.

Definition with_name (n : list Z) (d : tnode) : tnode :=
  mkNode n (typ d) (parent d) (off d) (size d).
Definition with_typ (t : Z) (d : tnode) : tnode :=
  mkNode (name d) t (parent d) (off d) (size d).
Definition with_parent (p : Z) (d : tnode) : tnode :=
  mkNode (name d) (typ d) p (off d) (size d).
Definition with_off (o : Z) (d : tnode) : tnode :=
  mkNode (name d) (typ d) (parent d) o (size d).
Definition with_size (z : Z) (d : tnode) : tnode :=
  mkNode (name d) (typ d) (parent d) (off d) z.

(** [nodes[i].f = v] *)
Definition update_node (i : Z) (f : tnode → tnode) : M tmpfs unit :=
  d ← aget nodes i;
  modify (λ s, set_nodes (zset (nodes s) i (f d)) s).

(** [pool()[a..b]] read, and [pool()[a..a + bs.len()].copy_from_slice(bs)]. *)
Definition pool_slice (a b : Z) : M tmpfs (list Z) :=
  if (a <=? b) && (b <=? TN_POOL) then gets (λ s, load_bytes (pool s) a (b - a)) else panic.
Definition pool_write (a : Z) (bs : list Z) : M tmpfs unit :=
  if a + zlen bs <=? TN_POOL then modify (λ s, set_pool (store_bytes (pool s) a bs) s)
  else panic.

Definition name_bytes (n : list Z) : list Z :=
  slice 0 (default VFS_NAME_MAX (position (λ b, b =? 0) n)) n.

Definition name_array (src : list Z) : list Z := c_array VFS_NAME_MAX src.

(** ** Path resolution *)
Definition slash : Z := 47.
Definition dot : list Z := [46].
Definition dotdot : list Z := [46; 46].
Definition is_slash (b : Z) : bool := b =? slash.
Definition not_slash (b : Z) : bool := negb (b =? slash).

Definition child_of (par : Z) (nm : list Z) : M tmpfs Z :=
  r ← for_range 1 TN_MAX (λ i,
    d ← aget nodes i;
    if (typ d =? VN_FREE) || negb (parent d =? par) then mret None
    else if bool_decide (name_bytes (name d) = nm) then mret (Some i)
    else mret None);
  mret (default (-1) r).

(** A component that is neither "." nor "..": the last three tests of both
    loops; [None] is their [return] of a failure. *)
Definition descend_into (cur : Z) (comp : list Z) : M tmpfs (option Z) :=
  if zlen comp >=? VFS_NAME_MAX then mret None
  else
    d ← aget nodes cur;
    if negb (typ d =? VN_DIR) then mret None
    else
      c ← child_of cur comp;
      if c <? 0 then mret None else mret (Some c).

Definition parent_of (cur : Z) : M tmpfs Z :=
  if negb (cur =? 0) then d ← aget nodes cur; mret (parent d) else mret cur.

Definition resolve_step (bytes : list Z) (st : Z * Z) : M tmpfs ((Z * Z) + Z) :=
  let '(cur, p) := st in
  if p <? zlen bytes then
    let p := scan is_slash bytes p in
    if p >=? zlen bytes then mret (inr cur)
    else
      let e := scan not_slash bytes p in
      let comp := slice p (e - p) bytes in
      if bool_decide (comp = dot) then mret (inl (cur, e))
      else if bool_decide (comp = dotdot) then
        cur ← parent_of cur; mret (inl (cur, e))
      else
        c ← descend_into cur comp;
        match c with
        | None => mret (inr (-1))
        | Some c => mret (inl (c, e))
        end
  else mret (inr cur).

(** Every turn consumes at least one byte of the path. *)
Definition resolve (bytes : list Z) : M tmpfs Z :=
  if bool_decide (bytes = []) || negb (default 0 (zget bytes 0) =? slash) then mret (-1)
  else loop (length bytes + 1) (resolve_step bytes) (0, 1).

Definition leaf_t : Type := Z * list Z * Z.

Definition resolve_parent_step (bytes : list Z) (st : Z * Z)
    : M tmpfs ((Z * Z) + option leaf_t) :=
  let '(cur, p) := st in
  let p := scan is_slash bytes p in
  if p >=? zlen bytes then mret (inr None)
  else
    let e := scan not_slash bytes p in
    let comp := slice p (e - p) bytes in
    let e2 := scan is_slash bytes e in
    if e2 >=? zlen bytes then
      if bool_decide (comp = []) || (zlen comp >=? VFS_NAME_MAX) then mret (inr None)
      else if bool_decide (comp = dot) || bool_decide (comp = dotdot) then mret (inr None)
      else mret (inr (Some (cur, name_array comp, zlen comp)))
    else if bool_decide (comp = dot) then mret (inl (cur, e2))
    else if bool_decide (comp = dotdot) then
      cur ← parent_of cur; mret (inl (cur, e2))
    else
      c ← descend_into cur comp;
      match c with
      | None => mret (inr None)
      | Some c => mret (inl (c, e2))
      end.

Definition resolve_parent (bytes : list Z) : M tmpfs (option leaf_t) :=
  if bool_decide (bytes = []) || negb (default 0 (zget bytes 0) =? slash) then mret None
  else loop (length bytes + 1) (resolve_parent_step bytes) (0, 1).

Definition alloc_node (par : Z) (nm : list Z) (t : Z) : M tmpfs Z :=
  r ← for_range 1 TN_MAX (λ i,
    d ← aget nodes i;
    if negb (typ d =? VN_FREE) then mret None
    else
      update_node i (with_typ (if t =? VN_FILE then VN_FILE else VN_DIR));;
      update_node i (with_parent (u16 par));;
      u ← gets pool_used;
      update_node i (with_off u);;
      update_node i (with_size 0);;
      update_node i (with_name (name_array nm));;
      mret (Some i));
  mret (default (-1) r).

(** ** Public operations *)
Definition init : M tmpfs unit :=
  modify (set_nodes (replicate (Z.to_nat TN_MAX) free_node));;
  modify (set_used 0);;
  update_node 0 (with_typ VN_DIR);;
  update_node 0 (with_parent 0).

Definition path_type (path : list Z) : M tmpfs Z :=
  id ← resolve path;
  if id <? 0 then mret 0 else d ← aget nodes id; mret (typ d).

Definition path_size (path : list Z) : M tmpfs Z :=
  id ← resolve path;
  if id <? 0 then mret (-1)
  else
    d ← aget nodes id;
    if negb (typ d =? VN_FILE) then mret (-1) else mret (size d).

Definition mkdir (path : list Z) : M tmpfs Z :=
  r ← resolve_parent path;
  match r with
  | None => mret (-1)
  | Some (par, leaf, leaf_len) =>
      let leaf_name := slice 0 leaf_len leaf in
      c ← child_of par leaf_name;
      if c >=? 0 then mret (-1)
      else
        id ← alloc_node par leaf_name VN_DIR;
        if id <? 0 then mret (-1) else mret 0
  end.

(** The tail of [create]: new contents for node [id]. *)
Definition set_contents (id : Z) (data : list Z) : M tmpfs Z :=
  let sz := zlen data in
  used ← gets pool_used;
  if u64 (used + sz) >? TN_POOL then mret (-1)
  else
    o ← gets pool_used;
    pool_write o data;;
    update_node id (with_off o);;
    update_node id (with_size (u32 sz));;
    modify (λ s, set_used (u32 (pool_used s + u32 sz)) s);;
    mret id.

Definition create (path data : list Z) : M tmpfs Z :=
  r ← resolve_parent path;
  match r with
  | None => mret (-1)
  | Some (par, leaf, leaf_len) =>
      let leaf_name := slice 0 leaf_len leaf in
      id ← child_of par leaf_name;
      if id <? 0 then
        id ← alloc_node par leaf_name VN_FILE;
        if id <? 0 then mret (-1) else set_contents id data
      else
        d ← aget nodes id;
        if negb (typ d =? VN_FILE) then mret (-1) else set_contents id data
  end.

Definition unlink (path : list Z) : M tmpfs Z :=
  id ← resolve path;
  if id <=? 0 then mret (-1)
  else
    d ← aget nodes id;
    if negb (typ d =? VN_FILE) then mret (-1)
    else update_node id (with_typ VN_FREE);; mret 0.

Definition rename (oldp newp : list Z) : M tmpfs Z :=
  id ← resolve oldp;
  if id <=? 0 then mret (-1)
  else
    r ← resolve_parent newp;
    match r with
    | None => mret (-1)
    | Some (par, leaf, leaf_len) =>
        let leaf_name := slice 0 leaf_len leaf in
        c ← child_of par leaf_name;
        if c >=? 0 then mret (-1)
        else
          update_node id (with_parent (u16 par));;
          update_node id (with_name (name_array leaf_name));;
          mret 0
    end.

Definition lookup : list Z → M tmpfs Z := resolve.

Definition node_type (id : Z) : M tmpfs Z :=
  if (id <? 0) || (id >=? TN_MAX) then mret 0 else d ← aget nodes id; mret (typ d).

Definition node_size (id : Z) : M tmpfs Z :=
  if (id <? 0) || (id >=? TN_MAX) then mret 0 else d ← aget nodes id; mret (size d).

(** [id <= 0 || id >= TN_MAX || nodes[id].typ != VN_FILE], with the node. *)
Definition file_node (id : Z) : M tmpfs (option tnode) :=
  if (id <=? 0) || (id >=? TN_MAX) then mret None
  else
    d ← aget nodes id;
    if negb (typ d =? VN_FILE) then mret None else mret (Some d).

Definition node_data (id : Z) : M tmpfs (option (list Z)) :=
  r ← file_node id;
  match r with
  | None => mret None
  | Some d => bs ← pool_slice (off d) (off d + size d); mret (Some bs)
  end.

(** The result and the caller's buffer after the call. *)
Definition node_read (id o : Z) (buf : list Z) : M tmpfs (Z * list Z) :=
  r ← file_node id;
  match r with
  | None => mret (-1, buf)
  | Some n =>
      if o >? size n then mret (0, buf)
      else
        let len := zlen buf in
        let len := if u64 (o + len) >? size n then size n - o else len in
        bs ← pool_slice (off n + o) (off n + o + len);
        mret (len, bs ++ drop (Z.to_nat len) buf)
  end.

(** The relocation branch of [node_write]. *)
Definition relocate (id need : Z) : M tmpfs bool :=
  used ← gets pool_used;
  if u64 (used + need) >? TN_POOL then mret false
  else
    newoff ← gets pool_used;
    d ← aget nodes id;
    old ← pool_slice (off d) (off d + size d);
    pool_write newoff old;;
    update_node id (with_off newoff);;
    update_node id (with_size (u32 need));;
    modify (λ s, set_used (u32 (pool_used s + u32 need)) s);;
    mret true.

Definition node_write (id o : Z) (buf : list Z) : M tmpfs Z :=
  r ← file_node id;
  match r with
  | None => mret (-1)
  | Some n =>
      if o >? size n then mret (-1)
      else
        let need := u64 (o + zlen buf) in
        ok ← (if need >? size n then relocate id need else mret true);
        if negb ok then mret (-1)
        else
          d ← aget nodes id;
          pool_write (off d + o) buf;;
          mret (zlen buf)
  end.

Definition read_path (path : list Z) (o : Z) (buf : list Z) : M tmpfs (Z * list Z) :=
  id ← resolve path; node_read id o buf.
Definition write_path (path : list Z) (o : Z) (buf : list Z) : M tmpfs Z :=
  id ← resolve path; node_write id o buf.

Record dirent := mkDirent { de_name : list Z; de_size : Z; de_typ : Z }.

(** The scan of [list]: [seen] is its local counter. *)
Fixpoint list_from (n : nat) (i pid index seen : Z) : M tmpfs (option dirent) :=
  match n with
  | O => mret None
  | S n =>
      d ← aget nodes i;
      if (typ d =? VN_FREE) || negb (parent d =? pid) then list_from n (i + 1) pid index seen
      else if negb (seen =? index) then list_from n (i + 1) pid index (seen + 1)
      else mret (Some (mkDirent (name d) (size d) (typ d)))
  end.

Definition list_dir (dir : list Z) (index : Z) : M tmpfs (option dirent) :=
  pid ← resolve dir;
  if pid <? 0 then mret None
  else
    d ← aget nodes pid;
    if negb (typ d =? VN_DIR) then mret None
    else list_from (Z.to_nat (TN_MAX - 1)) 1 pid index 0.

(** ** The invariant *)
Record node_ok (d : tnode) : Prop := {
  no_typ : typ d = VN_FREE ∨ typ d = VN_FILE ∨ typ d = VN_DIR;
  no_parent : 0 ≤ parent d < TN_MAX;
  no_name : zlen (name d) = VFS_NAME_MAX;
}.

(** Files lie in the used part of the pool and do not overlap. *)
Record fs_ok (s : tmpfs) : Prop := {
  ok_len : zlen (nodes s) = TN_MAX;
  ok_node i d : zget (nodes s) i = Some d → node_ok d;
  ok_root : ∃ d, zget (nodes s) 0 = Some d ∧ typ d = VN_DIR ∧ parent d = 0;
  ok_used : 0 ≤ pool_used s ≤ TN_POOL;
  ok_file i d : zget (nodes s) i = Some d → typ d = VN_FILE →
    0 ≤ off d ∧ 0 ≤ size d ∧ off d + size d ≤ pool_used s;
  ok_disj i j d e : zget (nodes s) i = Some d → zget (nodes s) j = Some e →
    typ d = VN_FILE → typ e = VN_FILE → i ≠ j →
    off d + size d ≤ off e ∨ off e + size e ≤ off d;
}.

Lemma node_at s i : fs_ok s → 0 ≤ i < TN_MAX → ∃ d, zget (nodes s) i = Some d.
Proof. intros Hok Hi. apply zget_lt. by rewrite (ok_len _ Hok). Qed.

Lemma wp_update_node i f s (Q : unit → tmpfs → Prop) :
  (∃ d, zget (nodes s) i = Some d ∧
        Q tt (set_nodes (zset (nodes s) i (f d)) s)) →
  wp (update_node i f) Q s.
Proof.
  intros (d & Hd & HQ). unfold update_node. wp_run. apply wp_aget.
  exists d. split; [done|]. by wp_run.
Qed.

(** ** Children *)
Definition is_child (s : tmpfs) (par : Z) (nm : list Z) (i : Z) : bool :=
  match zget (nodes s) i with
  | Some d => negb (typ d =? VN_FREE) && (parent d =? par) &&
              bool_decide (name_bytes (name d) = nm)
  | None => false
  end.
Definition find_child (s : tmpfs) (par : Z) (nm : list Z) : option Z :=
  find_first (is_child s par nm) 1 TN_MAX.

Lemma find_child_range s par nm c : find_child s par nm = Some c → 1 ≤ c < TN_MAX.
Proof. intros Hf. by apply find_first_Some in Hf as [? _]. Qed.

Lemma wp_child_of par nm s :
  fs_ok s →
  wp (child_of par nm) (λ r s', s' = s ∧ r = default (-1) (find_child s par nm)) s.
Proof.
  intros Hok. unfold child_of. wp_run.
  eapply (wp_for_find (is_child s par nm)); [done| | |].
  - intros i Hi HP. destruct (node_at s i Hok) as [d Hd]; [lia|].
    apply wp_bind, wp_aget. exists d. split; [done|].
    unfold is_child in HP. rewrite Hd in HP.
    destruct (typ d =? VN_FREE), (parent d =? par); simpl in *; wp_run; try done.
    rewrite HP. by wp_run.
  - intros i Hi HP Hbefore. destruct (node_at s i Hok) as [d Hd]; [lia|].
    apply wp_bind, wp_aget. exists d. split; [done|].
    assert (find_child s par nm = Some i) as Hf
      by (apply find_first_Some; split_and!; (done || lia)).
    unfold is_child in HP. rewrite Hd in HP.
    destruct (typ d =? VN_FREE), (parent d =? par); simpl in *; try done.
    rewrite HP. wp_run. exists i. split; [done|]. wp_run. by rewrite Hf.
  - intros Hnone. wp_run. split; [done|].
    unfold find_child. by rewrite (proj2 (find_first_None _ _ _) Hnone).
Qed.

(** ** Paths as component lists: the reference for resolution *)
Definition flush (acc : list Z) : list (list Z) :=
  match acc with [] => [] | _ => [acc] end.
Fixpoint components_acc (acc : list Z) (l : list Z) : list (list Z) :=
  match l with
  | [] => flush acc
  | c :: l =>
      if is_slash c then flush acc ++ components_acc [] l
      else components_acc (acc ++ [c]) l
  end.
(** The non-empty pieces between slashes. *)
Definition components (l : list Z) : list (list Z) := components_acc [] l.

Definition comp_step (s : tmpfs) (cur : Z) (comp : list Z) : option Z :=
  if bool_decide (comp = dot) then Some cur
  else if bool_decide (comp = dotdot) then
    (if cur =? 0 then Some cur else parent <$> zget (nodes s) cur)
  else if zlen comp >=? VFS_NAME_MAX then None
  else
    match zget (nodes s) cur with
    | Some d => if typ d =? VN_DIR then find_child s cur comp else None
    | None => None
    end.

Fixpoint walk (s : tmpfs) (cur : Z) (comps : list (list Z)) : option Z :=
  match comps with
  | [] => Some cur
  | c :: comps =>
      match comp_step s cur c with
      | Some cur' => walk s cur' comps
      | None => None
      end
  end.

(** [/a/b]: absolute paths only. *)
Definition absolute (path : list Z) : option (list (list Z)) :=
  match path with
  | c :: rest => if is_slash c then Some (components rest) else None
  | [] => None
  end.

Definition resolve_spec (s : tmpfs) (path : list Z) : Z :=
  match absolute path with
  | Some comps => default (-1) (walk s 0 comps)
  | None => -1
  end.

(** Directory and name of the last component, which must be a proper name. *)
Definition leaf_from (s : tmpfs) (cur : Z) (comps : list (list Z)) : option (Z * list Z) :=
  leaf ← last comps;
  if (zlen leaf >=? VFS_NAME_MAX) || bool_decide (leaf = dot) || bool_decide (leaf = dotdot)
  then None
  else dir ← walk s cur (removelast comps); Some (dir, leaf).

Definition parent_spec (s : tmpfs) (path : list Z) : option (Z * list Z) :=
  comps ← absolute path; leaf_from s 0 comps.

Lemma flush_nonnil acc : acc ≠ [] → flush acc = [acc].
Proof. by destruct acc. Qed.

Lemma components_acc_span acc l :
  components_acc acc l =
  flush (acc ++ take (Z.to_nat (span not_slash l)) l) ++
  components (drop (Z.to_nat (span not_slash l)) l).
Proof.
  revert acc. induction l as [|c l IH]; intros acc; simpl.
  { by rewrite !app_nil_r. }
  unfold not_slash, is_slash in *. destruct (Z.eqb_spec c slash) as [->|Hne]; simpl.
  - rewrite app_nil_r. reflexivity.
  - rewrite IH. pose proof (span_bounds (λ b, negb (b =? slash)) l).
    replace (Z.to_nat (1 + span (λ b, negb (b =? slash)) l))
      with (S (Z.to_nat (span (λ b, negb (b =? slash)) l))) by lia.
    simpl. by rewrite <- app_assoc.
Qed.

Lemma components_skip l :
  components l = components (drop (Z.to_nat (span is_slash l)) l).
Proof.
  induction l as [|c l IH]; [done|]. simpl. destruct (is_slash c) eqn:E; [|done].
  pose proof (span_bounds is_slash l).
  replace (Z.to_nat (1 + span is_slash l)) with (S (Z.to_nat (span is_slash l))) by lia.
  simpl. rewrite <- IH. unfold components at 1. simpl. by rewrite E.
Qed.

(** After the slashes there is nothing, or a non-empty component. *)
Lemma skip_head l :
  let l' := drop (Z.to_nat (span is_slash l)) l in
  l' = [] ∨ ∃ c r, l' = c :: r ∧ is_slash c = false.
Proof.
  induction l as [|c l IH]; [by left|]. simpl. destruct (is_slash c) eqn:E.
  - pose proof (span_bounds is_slash l).
    replace (Z.to_nat (1 + span is_slash l)) with (S (Z.to_nat (span is_slash l))) by lia.
    exact IH.
  - right. by exists c, l.
Qed.

Lemma components_cons l c r :
  l = c :: r → is_slash c = false →
  let k := span not_slash l in
  1 ≤ k ∧ take (Z.to_nat k) l ≠ [] ∧
  components l = take (Z.to_nat k) l :: components (drop (Z.to_nat k) l).
Proof.
  intros -> Hc k. assert (not_slash c = true) as Hn by (unfold not_slash, is_slash in *; by rewrite Hc).
  assert (1 ≤ k) as Hk.
  { unfold k. simpl. rewrite Hn. pose proof (span_bounds not_slash r). lia. }
  assert (take (Z.to_nat k) (c :: r) ≠ []) as Hne.
  { by replace (Z.to_nat k) with (S (Z.to_nat (k - 1))) by lia. }
  split_and!; [done|done|]. unfold components at 1.
  rewrite components_acc_span. fold k. by rewrite flush_nonnil.
Qed.

Lemma components_nil l : components l = [] ↔ drop (Z.to_nat (span is_slash l)) l = [].
Proof.
  rewrite components_skip. destruct (skip_head l) as [Hn|(c & r & Hc & Hs)].
  - by rewrite Hn.
  - destruct (components_cons _ _ _ Hc Hs) as (_ & _ & Heq). rewrite Heq. split; [done|].
    by rewrite Hc.
Qed.


Lemma comp_step_range s cur comp c :
  fs_ok s → 0 ≤ cur < TN_MAX → comp_step s cur comp = Some c → 0 ≤ c < TN_MAX.
Proof.
  intros Hok Hcur. unfold comp_step. destruct (node_at s cur Hok Hcur) as [d Hd].
  rewrite Hd. repeat case_bool_decide.
  - by intros [= <-].
  - destruct (cur =? 0); [by intros [= <-]|]. intros [= <-].
    apply (no_parent d). by apply (ok_node s Hok cur).
  - destruct (_ >=? _); [done|]. destruct (typ d =? VN_DIR); [|done].
    intros Hf%find_child_range. lia.
Qed.

Lemma walk_range s cur comps c :
  fs_ok s → 0 ≤ cur < TN_MAX → walk s cur comps = Some c → 0 ≤ c < TN_MAX.
Proof.
  intros Hok. revert cur. induction comps as [|x comps IH]; intros cur Hcur; simpl.
  - by intros [= <-].
  - destruct (comp_step s cur x) as [cur'|] eqn:E; [|done]. apply IH.
    by eapply comp_step_range.
Qed.

Lemma wp_parent_of s cur :
  fs_ok s → 0 ≤ cur < TN_MAX →
  wp (parent_of cur) (λ r s', s' = s ∧ comp_step s cur dotdot = Some r) s.
Proof.
  intros Hok Hcur. unfold parent_of, comp_step.
  rewrite bool_decide_false by done. rewrite bool_decide_true by done.
  destruct (node_at s cur Hok Hcur) as [d Hd]. rewrite Hd.
  destruct (cur =? 0); simpl; wp_run; [done|].
  apply wp_aget. exists d. split; [done|]. by wp_run.
Qed.

Lemma wp_descend_into s cur comp :
  fs_ok s → 0 ≤ cur < TN_MAX → comp ≠ dot → comp ≠ dotdot →
  wp (descend_into cur comp) (λ r s', s' = s ∧ r = comp_step s cur comp) s.
Proof.
  intros Hok Hcur H1 H2. unfold descend_into, comp_step.
  rewrite !bool_decide_false by done. destruct (_ >=? _); [by wp_run|].
  destruct (node_at s cur Hok Hcur) as [d Hd]. rewrite Hd. wp_run.
  apply wp_aget. exists d. split; [done|].
  destruct (typ d =? VN_DIR); simpl; wp_run; [|done].
  wp_use wp_child_of; [done|]. intros r s' [-> ->].
  destruct (find_child s cur comp) as [c|] eqn:Ef; simpl.
  - apply find_child_range in Ef. rewrite (proj2 (Z.ltb_ge c 0)) by lia. by wp_run.
  - by wp_run.
Qed.

(** The component both loops cut out at position [p]. *)
Lemma cut_component bytes p :
  0 ≤ p ≤ zlen bytes →
  let l := drop (Z.to_nat p) bytes in
  let p1 := scan is_slash bytes p in
  let e := scan not_slash bytes p1 in
  p ≤ p1 ≤ zlen bytes ∧
  ((p1 = zlen bytes ∧ components l = []) ∨
   (p1 < e ≤ zlen bytes ∧ slice p1 (e - p1) bytes ≠ [] ∧
    components l = slice p1 (e - p1) bytes :: components (drop (Z.to_nat e) bytes))).
Proof.
  intros Hp l p1 e. pose proof (scan_bounds is_slash bytes p Hp) as Hp1. fold p1 in Hp1.
  split; [done|].
  assert (drop (Z.to_nat p1) bytes = drop (Z.to_nat (span is_slash l)) l) as Hd
    by (apply drop_scan; lia).
  rewrite components_skip, <- Hd. destruct (skip_head l) as [Hn|(c & r & Hc & Hs)].
  - left. rewrite <- Hd in Hn. split; [|by rewrite Hn].
    apply (f_equal zlen) in Hn. rewrite zlen_drop in Hn by lia. change (zlen []) with 0 in Hn. lia.
  - right. rewrite <- Hd in Hc. destruct (components_cons _ c r Hc Hs) as (Hk & Hne & Heq).
    assert (e = p1 + span not_slash (drop (Z.to_nat p1) bytes)) as He by done.
    pose proof (scan_bounds not_slash bytes p1) as Hb. fold e in Hb.
    assert (slice p1 (e - p1) bytes =
      take (Z.to_nat (span not_slash (drop (Z.to_nat p1) bytes))) (drop (Z.to_nat p1) bytes))
      as Hsl by (unfold slice; do 2 f_equal; lia).
    rewrite Hsl. split_and!; [lia|lia|done|].
    rewrite Heq. do 2 f_equal. symmetry. apply drop_scan. lia.
Qed.

Lemma walk_cons_some s cur c cur' comps :
  comp_step s cur c = Some cur' → walk s cur (c :: comps) = walk s cur' comps.
Proof. intros H. simpl. by rewrite H. Qed.

(** Position [(cur, p)] of the resolution of [bytes]. *)
Definition resolving (s : tmpfs) (bytes : list Z) (st : Z * Z) (s' : tmpfs) : Prop :=
  s' = s ∧ 0 ≤ st.1 < TN_MAX ∧ 1 ≤ st.2 ≤ zlen bytes ∧
  walk s st.1 (components (drop (Z.to_nat st.2) bytes)) =
  walk s 0 (components (drop 1 bytes)).

Lemma absolute_cond path :
  bool_decide (path = []) || negb (default 0 (zget path 0) =? slash) =
  bool_decide (absolute path = None).
Proof.
  destruct path as [|c r]; [done|]. rewrite bool_decide_false by done.
  change (zget (c :: r) 0) with (Some c). unfold absolute, is_slash. simpl.
  by destruct (c =? slash).
Qed.

Lemma absolute_some path comps :
  absolute path = Some comps → comps = components (drop 1 path) ∧ 1 ≤ zlen path.
Proof.
  destruct path as [|c r]; [done|]. simpl. destruct (is_slash c); [|done].
  intros [= <-]. rewrite zlen_cons. pose proof (zlen_nonneg r). split; [done|lia].
Qed.

Lemma resolve_step_ok s bytes st s' :
  fs_ok s → resolving s bytes st s' →
  wp (resolve_step bytes st) (λ r s'', match r with
    | inl st' => resolving s bytes st' s'' ∧
        (Z.to_nat (zlen bytes - st'.2) < Z.to_nat (zlen bytes - st.2))%nat
    | inr x => s'' = s ∧ x = default (-1) (walk s 0 (components (drop 1 bytes)))
    end) s'.
Proof.
  intros Hok. destruct st as [cur p]. intros (-> & Hcur & Hp & Hwalk). simpl in Hcur, Hp, Hwalk.
  unfold resolve_step.
  destruct (cut_component bytes p ltac:(lia)) as [Hp1 Hcut].
  set (p1 := scan is_slash bytes p) in *. set (e := scan not_slash bytes p1) in *.
  destruct (Z.ltb_spec p (zlen bytes)) as [Hlt|Hge].
  2: { wp_run. destruct Hcut as [[_ Hnil]|[Hcut _]]; [|lia]. rewrite Hnil in Hwalk.
       split; [done|]. by rewrite <- Hwalk. }
  rewrite Z.geb_leb. destruct Hcut as [[Hend Hnil]|(He & Hne & Hcut)].
  { rewrite (proj2 (Z.leb_le _ _)) by lia. wp_run. rewrite Hnil in Hwalk.
    split; [done|]. by rewrite <- Hwalk. }
  rewrite (proj2 (Z.leb_gt _ _)) by lia. cbv zeta.
  set (comp := slice p1 (e - p1) bytes) in *. rewrite Hcut in Hwalk.
  assert (∀ cur', comp_step s cur comp = Some cur' → resolving s bytes (cur', e) s) as Hgo.
  { intros cur' Hs. unfold resolving; simpl. split_and!; try done; try lia.
    - by eapply comp_step_range. - by eapply comp_step_range.
    - by rewrite <- Hwalk, (walk_cons_some _ _ _ _ _ Hs). }
  destruct (decide (comp = dot)) as [Hdot|Hdot].
  { rewrite bool_decide_true by done. wp_run. split; [|simpl; lia]. apply Hgo.
    unfold comp_step. by rewrite bool_decide_true. }
  rewrite bool_decide_false by done.
  destruct (decide (comp = dotdot)) as [Hdd|Hdd].
  { rewrite bool_decide_true by done. wp_run. wp_use wp_parent_of; [done|done|].
    intros c s' [-> Hs]. wp_run. split; [|simpl; lia]. apply Hgo. by rewrite Hdd. }
  rewrite bool_decide_false by done. wp_run. wp_use wp_descend_into; [done|done|done|done|].
  intros r s' [-> ->]. destruct (comp_step s cur comp) as [c|] eqn:Hs; wp_run.
  - split; [by apply Hgo|simpl; lia].
  - split; [done|]. rewrite <- Hwalk. simpl. by rewrite Hs.
Qed.

Lemma wp_resolve s path :
  fs_ok s → wp (resolve path) (λ r s', s' = s ∧ r = resolve_spec s path) s.
Proof.
  intros Hok. unfold resolve, resolve_spec. rewrite absolute_cond.
  destruct (absolute path) as [comps|] eqn:Ha.
  2: { rewrite bool_decide_true by done. by wp_run. }
  rewrite bool_decide_false by done. apply absolute_some in Ha as [-> Hlen].
  apply (wp_loop (resolving s path) (λ st, Z.to_nat (zlen path - st.2))).
  - unfold resolving; simpl. split_and!; done || lia.
  - simpl. unfold zlen. lia.
  - intros st s'. by apply resolve_step_ok.
Qed.

Lemma resolve_range s path : fs_ok s → -1 ≤ resolve_spec s path < TN_MAX.
Proof.
  intros Hok. unfold resolve_spec. destruct (absolute path); [|done].
  destruct (walk s 0 _) as [c|] eqn:Hw; simpl; [|done].
  apply walk_range in Hw; [lia|done|done].
Qed.

Lemma leaf_from_step s cur c c' comps :
  leaf_from s cur (c :: c' :: comps) =
  (cur' ← comp_step s cur c; leaf_from s cur' (c' :: comps)).
Proof.
  unfold leaf_from. change (last (c :: c' :: comps)) with (last (c' :: comps)).
  destruct (last (c' :: comps)) as [leaf|]; simpl.
  - destruct (_ || _); simpl; [by destruct (comp_step s cur c)|].
    by destruct (comp_step s cur c).
  - by destruct (comp_step s cur c).
Qed.

(** What [resolve_parent] makes of the reference's answer. *)
Definition as_leaf (r : option (Z * list Z)) : option leaf_t :=
  r' ← r; Some (r'.1, name_array r'.2, zlen r'.2).

Definition resolving_parent (s : tmpfs) (bytes : list Z) (st : Z * Z) (s' : tmpfs) : Prop :=
  s' = s ∧ 0 ≤ st.1 < TN_MAX ∧ 1 ≤ st.2 ≤ zlen bytes ∧
  leaf_from s st.1 (components (drop (Z.to_nat st.2) bytes)) =
  leaf_from s 0 (components (drop 1 bytes)).

Lemma resolve_parent_step_ok s bytes st s' :
  fs_ok s → resolving_parent s bytes st s' →
  wp (resolve_parent_step bytes st) (λ r s'', match r with
    | inl st' => resolving_parent s bytes st' s'' ∧
        (Z.to_nat (zlen bytes - st'.2) < Z.to_nat (zlen bytes - st.2))%nat
    | inr x => s'' = s ∧ x = as_leaf (leaf_from s 0 (components (drop 1 bytes)))
    end) s'.
Proof.
  intros Hok. destruct st as [cur p]. intros (-> & Hcur & Hp & Hleaf). simpl in Hcur, Hp, Hleaf.
  unfold resolve_parent_step.
  destruct (cut_component bytes p ltac:(lia)) as [Hp1 Hcut].
  set (p1 := scan is_slash bytes p) in *. set (e := scan not_slash bytes p1) in *. cbv zeta.
  rewrite !Z.geb_leb. destruct Hcut as [[Hend Hnil]|(He & Hne & Hcut)].
  { rewrite (proj2 (Z.leb_le _ _)) by lia. wp_run. rewrite Hnil in Hleaf.
    split; [done|]. by rewrite <- Hleaf. }
  rewrite (proj2 (Z.leb_gt _ _)) by lia.
  set (comp := slice p1 (e - p1) bytes) in *. rewrite Hcut in Hleaf.
  pose proof (scan_bounds is_slash bytes e ltac:(lia)) as He2.
  set (e2 := scan is_slash bytes e) in *.
  assert (drop (Z.to_nat e2) bytes =
    drop (Z.to_nat (span is_slash (drop (Z.to_nat e) bytes))) (drop (Z.to_nat e) bytes)) as Hd2
    by (apply drop_scan; lia).
  destruct (Z.leb_spec (zlen bytes) e2) as [Hlast|Hmore].
  { rewrite (proj2 (components_nil _)) in Hleaf.
    2: { rewrite <- Hd2. apply zlen_nil_inv. rewrite zlen_drop by lia. lia. }
    rewrite (bool_decide_false (comp = [])) by done. simpl. rewrite <- Hleaf.
    unfold leaf_from. simpl. rewrite Z.geb_leb.
    destruct (VFS_NAME_MAX <=? zlen comp); simpl; [by wp_run|].
    destruct (_ || _); simpl; by wp_run. }
  assert (components (drop (Z.to_nat e) bytes) = components (drop (Z.to_nat e2) bytes)) as Heq
    by (by rewrite components_skip, <- Hd2).
  destruct (components (drop (Z.to_nat e2) bytes)) as [|c' cs] eqn:Hrest.
  { exfalso. rewrite components_nil, <- Hd2 in Heq. apply (f_equal zlen) in Heq.
    rewrite zlen_drop in Heq by lia. change (zlen []) with 0 in Heq. lia. }
  rewrite Heq, leaf_from_step in Hleaf.
  assert (∀ cur', comp_step s cur comp = Some cur' → resolving_parent s bytes (cur', e2) s) as Hgo.
  { intros cur' Hs. unfold resolving_parent; simpl. split_and!; try done; try lia.
    - by eapply comp_step_range. - by eapply comp_step_range.
    - rewrite <- Hleaf, Hs. by rewrite Hrest. }
  destruct (decide (comp = dot)) as [Hdot|Hdot].
  { rewrite bool_decide_true by done. wp_run. split; [|simpl; lia]. apply Hgo.
    unfold comp_step. by rewrite bool_decide_true. }
  rewrite bool_decide_false by done.
  destruct (decide (comp = dotdot)) as [Hdd|Hdd].
  { rewrite bool_decide_true by done. wp_run. wp_use wp_parent_of; [done|done|].
    intros c s' [-> Hs]. wp_run. split; [|simpl; lia]. apply Hgo. by rewrite Hdd. }
  rewrite bool_decide_false by done. wp_run. wp_use wp_descend_into; [done|done|done|done|].
  intros r s' [-> ->]. destruct (comp_step s cur comp) as [c|] eqn:Hs; wp_run.
  - split; [by apply Hgo|simpl; lia].
  - split; [done|]. rewrite <- Hleaf. done.
Qed.

Lemma wp_resolve_parent s path :
  fs_ok s → wp (resolve_parent path) (λ r s', s' = s ∧ r = as_leaf (parent_spec s path)) s.
Proof.
  intros Hok. unfold resolve_parent, parent_spec. rewrite absolute_cond.
  destruct (absolute path) as [comps|] eqn:Ha.
  2: { rewrite bool_decide_true by done. by wp_run. }
  rewrite bool_decide_false by done. apply absolute_some in Ha as [-> Hlen].
  apply (wp_loop (resolving_parent s path) (λ st, Z.to_nat (zlen path - st.2))).
  - unfold resolving_parent; simpl. split_and!; done || lia.
  - simpl. unfold zlen. lia.
  - intros st s'. by apply resolve_parent_step_ok.
Qed.

(** What is known of the answer. *)
Lemma components_acc_nonempty acc l c : c ∈ components_acc acc l → c ≠ [].
Proof.
  assert (∀ a, c ∈ flush a → c ≠ []) as Hflush.
  { intros [|z a] Hc; simpl in Hc; [by apply elem_of_nil in Hc|].
    apply list_elem_of_singleton in Hc. by rewrite Hc. }
  revert acc. induction l as [|x l IH]; intros acc; simpl; [apply Hflush|].
  destruct (is_slash x); [|apply IH].
  intros [Hin|Hin]%elem_of_app; [by eapply Hflush|by eapply IH].
Qed.
Lemma components_nonempty l c : c ∈ components l → c ≠ [].
Proof. apply components_acc_nonempty. Qed.

Lemma parent_spec_some s path par leaf :
  fs_ok s → parent_spec s path = Some (par, leaf) →
  0 ≤ par < TN_MAX ∧ 0 < zlen leaf < VFS_NAME_MAX ∧ leaf ≠ dot ∧ leaf ≠ dotdot.
Proof.
  intros Hok. unfold parent_spec.
  destruct (absolute path) as [comps|] eqn:Ha; simpl; [|done].
  apply absolute_some in Ha as [-> _]. unfold leaf_from.
  destruct (last (components (drop 1 path))) as [l|] eqn:Hl; simpl; [|done].
  destruct (_ || _) eqn:Hc; [done|]. rewrite !orb_false_iff, !bool_decide_eq_false in Hc.
  destruct Hc as [[H1 H2] H3]. destruct (walk _ _ _) as [d|] eqn:Hw; simpl; [|done].
  intros [= -> ->]. split_and!; try done; try lia.
  - eapply (walk_range s 0); done || lia.
  - eapply (walk_range s 0); done || lia.
  - destruct leaf; [|rewrite zlen_cons; pose proof (zlen_nonneg leaf); lia].
    exfalso. eapply (components_nonempty (drop 1 path) []); [|done].
    by apply last_Some_elem_of.
Qed.

(** ** Updating one node *)
Definition put (s : tmpfs) (i : Z) (d : tnode) : tmpfs := set_nodes (zset (nodes s) i d) s.

Definition disjoint_files (d e : tnode) : Prop :=
  off d + size d ≤ off e ∨ off e + size e ≤ off d.

(** Replacing node [i] and moving the pool cursor up keeps the invariant. *)
Lemma fs_ok_put s i d m u :
  fs_ok s → 1 ≤ i < TN_MAX → node_ok d → pool_used s ≤ u ≤ TN_POOL →
  (typ d = VN_FILE → 0 ≤ off d ∧ 0 ≤ size d ∧ off d + size d ≤ u ∧
     ∀ j e, j ≠ i → zget (nodes s) j = Some e → typ e = VN_FILE → disjoint_files d e) →
  fs_ok (mkFs (zset (nodes s) i d) m u).
Proof.
  intros Hok Hi Hd Hu Hfile. pose proof (ok_len _ Hok) as Hlen.
  assert (∀ j, zget (zset (nodes s) i d) j = if decide (i = j) then Some d else zget (nodes s) j)
    as Hget by (intros j; apply zget_zset; lia).
  split; simpl.
  - by rewrite zlen_zset.
  - intros j e. rewrite Hget. case_decide; [by intros [= <-]|]. apply (ok_node _ Hok).
  - rewrite Hget, decide_False by lia. apply (ok_root _ Hok).
  - pose proof (ok_used _ Hok). lia.
  - intros j e. rewrite Hget. case_decide.
    + intros [= <-] Ht. destruct (Hfile Ht) as (? & ? & ? & _). lia.
    + intros Hj Ht. pose proof (ok_file _ Hok j e Hj Ht). lia.
  - intros j k e f. rewrite !Hget. repeat case_decide; subst; try done.
    + intros [= <-] Hk Ht Ht' Hne. destruct (Hfile Ht) as (_ & _ & _ & Hdis).
      by apply (Hdis k).
    + intros Hj [= <-] Ht Ht' Hne. destruct (Hfile Ht') as (_ & _ & _ & Hdis).
      destruct (Hdis j e) as [|]; [done|done|done|by right|by left].
    + apply (ok_disj _ Hok).
Qed.

(** ** Names *)
Lemma zlen_name_array l : zlen (name_array l) = VFS_NAME_MAX.
Proof. by apply zlen_c_array. Qed.

Lemma slice_name_array l : zlen l < VFS_NAME_MAX → slice 0 (zlen l) (name_array l) = l.
Proof. apply slice_c_array. Qed.

Lemma name_bytes_array l :
  nul_free l → zlen l < VFS_NAME_MAX → name_bytes (name_array l) = l.
Proof.
  intros Hn Hl. unfold name_bytes, name_array. rewrite position_c_array by done.
  by apply slice_c_array.
Qed.

(** ** Reference semantics of the operations *)
Definition free_slot (s : tmpfs) : option Z :=
  find_first (λ i, match zget (nodes s) i with Some d => typ d =? VN_FREE | None => false end)
    1 TN_MAX.
Definition new_node (s : tmpfs) (par : Z) (nm : list Z) (t : Z) : tnode :=
  mkNode (name_array nm) t par (pool_used s) 0.

Definition insert_spec (s : tmpfs) (par : Z) (nm : list Z) (t : Z) : Z * tmpfs :=
  match free_slot s with
  | Some i => (i, put s i (new_node s par nm t))
  | None => (-1, s)
  end.

Definition mkdir_spec (s : tmpfs) (path : list Z) : Z * tmpfs :=
  match parent_spec s path with
  | Some (par, leaf) =>
      match find_child s par leaf with
      | Some _ => (-1, s)
      | None => let '(id, s') := insert_spec s par leaf VN_DIR in
          if id <? 0 then (-1, s') else (0, s')
      end
  | None => (-1, s)
  end.

(** New contents for file [id], at the pool cursor. *)
Definition contents_spec (s : tmpfs) (id : Z) (data : list Z) : Z * tmpfs :=
  match zget (nodes s) id with
  | Some d =>
      if pool_used s + zlen data <=? TN_POOL then
        (id, mkFs (zset (nodes s) id (with_size (zlen data) (with_off (pool_used s) d)))
               (store_bytes (pool s) (pool_used s) data) (pool_used s + zlen data))
      else (-1, s)
  | None => (-1, s)
  end.

Definition node_typ (s : tmpfs) (i : Z) : Z :=
  match zget (nodes s) i with Some d => typ d | None => VN_FREE end.

Definition create_spec (s : tmpfs) (path data : list Z) : Z * tmpfs :=
  match parent_spec s path with
  | Some (par, leaf) =>
      match find_child s par leaf with
      | Some id => if node_typ s id =? VN_FILE then contents_spec s id data else (-1, s)
      | None =>
          let '(id, s') := insert_spec s par leaf VN_FILE in
          if id <? 0 then (-1, s') else contents_spec s' id data
      end
  | None => (-1, s)
  end.

Definition unlink_spec (s : tmpfs) (path : list Z) : Z * tmpfs :=
  let id := resolve_spec s path in
  match zget (nodes s) id with
  | Some d =>
      if (0 <? id) && (typ d =? VN_FILE) then (0, put s id (with_typ VN_FREE d)) else (-1, s)
  | None => (-1, s)
  end.

Definition rename_spec (s : tmpfs) (oldp newp : list Z) : Z * tmpfs :=
  let id := resolve_spec s oldp in
  match zget (nodes s) id, parent_spec s newp with
  | Some d, Some (par, leaf) =>
      if 0 <? id then
        match find_child s par leaf with
        | Some _ => (-1, s)
        | None => (0, put s id (with_name (name_array leaf) (with_parent par d)))
        end
      else (-1, s)
  | _, _ => (-1, s)
  end.

Lemma free_slot_range s i : free_slot s = Some i → 1 ≤ i < TN_MAX.
Proof. intros Hf. by apply find_first_Some in Hf as [? _]. Qed.

Lemma find_child_some s par nm c :
  find_child s par nm = Some c →
  ∃ d, zget (nodes s) c = Some d ∧ typ d ≠ VN_FREE ∧ parent d = par ∧ name_bytes (name d) = nm.
Proof.
  intros (_ & HP & _)%find_first_Some. unfold is_child in HP.
  destruct (zget (nodes s) c) as [d|]; [|done]. exists d.
  rewrite !andb_true_iff, negb_true_iff, Z.eqb_neq, Z.eqb_eq, bool_decide_eq_true in HP.
  tauto.
Qed.

Lemma find_child_default_neg s par nm :
  (default (-1) (find_child s par nm) <? 0) = bool_decide (find_child s par nm = None).
Proof.
  destruct (find_child s par nm) as [c|] eqn:E; simpl.
  - apply find_child_range in E. rewrite (proj2 (Z.ltb_ge c 0)) by lia. done.
  - done.
Qed.

Ltac fs_node Hok i d Hd := destruct (node_at _ i Hok) as [d Hd]; [lia|].

Lemma wp_alloc_node s par nm t :
  fs_ok s → 0 ≤ par < TN_MAX → t = VN_FILE ∨ t = VN_DIR →
  wp (alloc_node par nm t) (λ r s', (r, s') = insert_spec s par nm t) s.
Proof.
  intros Hok Hpar Ht. unfold alloc_node. wp_run.
  set (P := λ i, match zget (nodes s) i with Some d => typ d =? VN_FREE | None => false end).
  eapply (wp_for_find P); [done| | |].
  - intros i Hi HP. fs_node Hok i d Hd. apply wp_bind, wp_aget. exists d. split; [done|].
    unfold P in HP. rewrite Hd in HP. rewrite HP. by wp_run.
  - intros i Hi HP Hbefore. fs_node Hok i d Hd. apply wp_bind, wp_aget. exists d. split; [done|].
    assert (free_slot s = Some i) as Hf by (apply find_first_Some; done).
    unfold P in HP. rewrite Hd in HP. rewrite HP. cbn [negb].
    assert (∀ e f, zget (zset (nodes s) i e) i = Some f ↔ f = e) as Hget.
    { intros e f. rewrite zget_zset_eq by (rewrite (ok_len _ Hok); lia).
      split; [by intros [= ->]|by intros ->]. }
    do 5 (wp_run; apply wp_update_node; eexists; split; [first [apply Hd|by apply Hget]|];
          unfold set_nodes; cbn [nodes pool pool_used]; rewrite ?zset_zset).
    wp_run. exists i. split; [done|]. wp_run. unfold insert_spec. rewrite Hf. simpl.
    unfold put, new_node, set_nodes. simpl.
    rewrite u16_id by (unfold TN_MAX in Hpar; lia). by destruct Ht as [-> | ->].
  - intros Hnone. wp_run. unfold insert_spec, free_slot.
    fold P. by rewrite (proj2 (find_first_None P 1 TN_MAX) Hnone).
Qed.

Lemma insert_spec_ok s par nm t :
  fs_ok s → 0 ≤ par < TN_MAX → t = VN_FILE ∨ t = VN_DIR →
  fs_ok (insert_spec s par nm t).2 ∧
  (0 ≤ (insert_spec s par nm t).1 →
   1 ≤ (insert_spec s par nm t).1 < TN_MAX ∧
   zget (nodes (insert_spec s par nm t).2) (insert_spec s par nm t).1 =
     Some (new_node s par nm t)).
Proof.
  intros Hok Hpar Ht. unfold insert_spec. destruct (free_slot s) as [i|] eqn:Hf; simpl; [|split; [done|lia]].
  pose proof Hf as Hi%free_slot_range. pose proof (ok_used _ Hok) as Hu. split.
  - apply fs_ok_put; [done|done| |lia|].
    + split; simpl; [tauto|done|apply zlen_name_array].
    + intros _. simpl. split_and!; [lia|lia|lia|]. intros j e _ Hj Hte. right. simpl.
      pose proof (ok_file _ Hok j e Hj Hte). lia.
  - intros _. split; [done|]. apply zget_zset_eq. rewrite (ok_len _ Hok). lia.
Qed.

Lemma wp_mkdir s path :
  fs_ok s → wp (mkdir path) (λ r s', (r, s') = mkdir_spec s path) s.
Proof.
  intros Hok. unfold mkdir, mkdir_spec. wp_run. wp_use wp_resolve_parent; [done|].
  intros r s' [-> ->]. destruct (parent_spec s path) as [[par leaf]|] eqn:Hp; simpl; [|by wp_run].
  destruct (parent_spec_some _ _ _ _ Hok Hp) as (Hpar & Hleaf & _ & _).
  rewrite slice_name_array by lia. wp_run. wp_use wp_child_of; [done|].
  intros r s' [-> ->]. destruct (find_child s par leaf) as [c|] eqn:Hc; simpl.
  - apply find_child_range in Hc. rewrite (proj2 (Z.geb_le c 0)) by lia. by wp_run.
  - wp_run. wp_use wp_alloc_node; [done|done|by right|].
    intros r s' <-. destruct (r <? 0); by wp_run.
Qed.

(** ** File contents *)
Definition is_file (s : tmpfs) (id : Z) : option tnode :=
  d ← zget (nodes s) id; if (0 <? id) && (typ d =? VN_FILE) then Some d else None.
Definition contents (s : tmpfs) (d : tnode) : list Z := load_bytes (pool s) (off d) (size d).
(** The bytes of file [id]. *)
Definition file_data (s : tmpfs) (id : Z) : option (list Z) := contents s <$> is_file s id.

Lemma is_file_some s id d :
  is_file s id = Some d ↔ zget (nodes s) id = Some d ∧ 0 < id ∧ typ d = VN_FILE.
Proof.
  unfold is_file. destruct (zget (nodes s) id) as [e|]; simpl; [|by split; [|intros []]].
  destruct (Z.ltb_spec 0 id), (Z.eqb_spec (typ e) VN_FILE); simpl; split;
    try (by intros [= <-]); try (by intros [[= <-] ?]); try done; intros [[= ->] [? ?]]; done || lia.
Qed.

Lemma is_file_ok s id d :
  fs_ok s → is_file s id = Some d →
  1 ≤ id < TN_MAX ∧ 0 ≤ off d ∧ 0 ≤ size d ∧ off d + size d ≤ pool_used s ≤ TN_POOL.
Proof.
  intros Hok (Hd & Hid & Ht)%is_file_some. pose proof (zget_Some_lt _ _ _ Hd) as Hr.
  rewrite (ok_len _ Hok) in Hr. pose proof (ok_file _ Hok _ _ Hd Ht).
  pose proof (ok_used _ Hok). lia.
Qed.

Lemma file_data_len s id bs : fs_ok s → file_data s id = Some bs → zlen bs ≤ TN_POOL.
Proof.
  intros Hok Hb. unfold file_data in Hb. destruct (is_file s id) as [d|] eqn:Hd; [|done].
  injection Hb as <-. destruct (is_file_ok _ _ _ Hok Hd) as (_ & ? & ? & ?).
  unfold contents. rewrite zlen_load_bytes; lia.
Qed.

Lemma wp_file_node s id :
  fs_ok s → wp (file_node id) (λ r s', s' = s ∧ r = is_file s id) s.
Proof.
  intros Hok. unfold file_node, is_file. destruct (Z.leb_spec id 0); simpl.
  { wp_run. split; [done|]. destruct (zget (nodes s) id); simpl; [|done].
    by rewrite (proj2 (Z.ltb_ge 0 id)) by lia. }
  rewrite Z.geb_leb. destruct (Z.leb_spec TN_MAX id); wp_run.
  { split; [done|]. rewrite (proj2 (zget_None _ _)); [done|]. rewrite (ok_len _ Hok). lia. }
  fs_node Hok id d Hd. apply wp_aget. exists d. split; [done|]. rewrite Hd. simpl.
  rewrite (proj2 (Z.ltb_lt 0 id)) by lia. simpl. by destruct (typ d =? VN_FILE); wp_run.
Qed.

Lemma wp_pool_slice s a b :
  a ≤ b ≤ TN_POOL → wp (pool_slice a b) (λ r s', s' = s ∧ r = load_bytes (pool s) a (b - a)) s.
Proof.
  intros Hab. unfold pool_slice. rewrite (proj2 (Z.leb_le a b)), (proj2 (Z.leb_le b _)) by lia.
  by wp_run.
Qed.

Lemma wp_pool_write s a bs :
  a + zlen bs ≤ TN_POOL →
  wp (pool_write a bs) (λ _ s', s' = set_pool (store_bytes (pool s) a bs) s) s.
Proof.
  intros H. unfold pool_write. rewrite (proj2 (Z.leb_le _ _)) by lia. by wp_run.
Qed.

Definition read_spec (s : tmpfs) (id o : Z) (buf : list Z) : Z * list Z :=
  match file_data s id with
  | Some bs =>
      let got := slice o (Z.min (zlen buf) (zlen bs - o)) bs in
      (zlen got, got ++ drop (length got) buf)
  | None => (-1, buf)
  end.

Definition write_spec (s : tmpfs) (id o : Z) (buf : list Z) : Z * tmpfs :=
  match is_file s id with
  | Some d =>
      if size d <? o then (-1, s)
      else if o + zlen buf <=? size d then
        (zlen buf, set_pool (store_bytes (pool s) (off d + o) buf) s)
      else if pool_used s + (o + zlen buf) <=? TN_POOL then
        (zlen buf,
         mkFs (zset (nodes s) id (with_size (o + zlen buf) (with_off (pool_used s) d)))
           (store_bytes (store_bytes (pool s) (pool_used s) (contents s d))
              (pool_used s + o) buf)
           (pool_used s + (o + zlen buf)))
      else (-1, s)
  | None => (-1, s)
  end.

Lemma load_slice m a n o k :
  0 ≤ o → 0 ≤ k → o + k ≤ n → load_bytes m (a + o) k = slice o k (load_bytes m a n).
Proof.
  intros Ho Hk Hn. apply list_eq_zget.
  - rewrite zlen_load_bytes, zlen_slice; try rewrite zlen_load_bytes; lia.
  - rewrite zlen_load_bytes by lia. intros i Hi. rewrite zget_load_bytes by lia.
    unfold slice. rewrite zget_take, zget_drop, zget_load_bytes by lia. do 2 f_equal. lia.
Qed.

(** Buffers are Rust slices, at most [isize::MAX] bytes. *)
Definition buf_ok (buf : list Z) : Prop := zlen buf < 2 ^ 63.

Lemma wp_node_read s id o buf :
  fs_ok s → 0 ≤ o → buf_ok buf →
  wp (node_read id o buf) (λ r s', s' = s ∧ r = read_spec s id o buf) s.
Proof.
  intros Hok Ho Hbuf. unfold node_read, read_spec, file_data, buf_ok in *. wp_run.
  wp_use wp_file_node; [done|]. intros r s' [-> ->].
  destruct (is_file s id) as [d|] eqn:Hd; simpl; [|by wp_run].
  destruct (is_file_ok _ _ _ Hok Hd) as (Hid & Hoff & Hsz & Hend).
  pose proof (zlen_nonneg buf) as Hb.
  assert (zlen (contents s d) = size d) as Hc by (by apply zlen_load_bytes).
  rewrite Hc.
  rewrite Z.gtb_ltb. destruct (Z.ltb_spec (size d) o).
  { wp_run. split; [done|]. unfold slice.
    by replace (Z.to_nat (Z.min (zlen buf) (size d - o))) with 0%nat by lia. }
  set (len := if u64 (o + zlen buf) >? size d then size d - o else zlen buf).
  assert (len = Z.min (zlen buf) (size d - o)) as Hlen.
  { unfold len. rewrite u64_id by (unfold TN_POOL in *; lia). rewrite Z.gtb_ltb.
    destruct (Z.ltb_spec (size d) (o + zlen buf)); lia. }
  wp_run. wp_use wp_pool_slice; [lia|]. intros r s' [-> ->]. wp_run.
  split; [done|]. replace (off d + o + len - (off d + o)) with len by lia.
  rewrite (load_slice _ _ (size d)) by lia. fold (contents s d).
  assert (zlen (slice o len (contents s d)) = len) as Hl.
  { apply zlen_slice; lia. }
  rewrite <- Hlen, Hl. do 3 f_equal. unfold zlen in Hl. lia.
Qed.

Lemma wp_relocate s id d need :
  fs_ok s → is_file s id = Some d → size d < need < 2 ^ 63 + TN_POOL →
  wp (relocate id need) (λ r s',
    (r, s') = if pool_used s + need <=? TN_POOL
              then (true, mkFs (zset (nodes s) id (with_size need (with_off (pool_used s) d)))
                            (store_bytes (pool s) (pool_used s) (contents s d))
                            (pool_used s + need))
              else (false, s)) s.
Proof.
  intros Hok Hd Hneed. pose proof (is_file_ok _ _ _ Hok Hd) as (Hid & Hoff & Hsz & Hend).
  apply is_file_some in Hd as (Hd & _ & Ht). unfold relocate. wp_run.
  rewrite u64_id by (unfold TN_POOL in *; lia). rewrite Z.gtb_ltb.
  destruct (Z.ltb_spec TN_POOL (pool_used s + need)).
  { rewrite (proj2 (Z.leb_gt _ _)) by lia. by wp_run. }
  rewrite (proj2 (Z.leb_le _ _)) by lia. wp_run.
  apply wp_aget. exists d. split; [done|]. wp_run.
  wp_use wp_pool_slice; [lia|]. intros r s' [-> ->]. wp_run. rewrite Z.add_simpl_l.
  fold (contents s d).
  assert (zlen (contents s d) = size d) as Hc by (by apply zlen_load_bytes).
  wp_use wp_pool_write; [lia|]. intros [] s' ->. wp_run.
  apply wp_update_node. exists d. split; [done|]. wp_run. apply wp_update_node.
  eexists. split; [apply zget_zset_eq; simpl; rewrite (ok_len _ Hok); lia|].
  wp_run. unfold set_nodes, set_used, set_pool. simpl. rewrite zset_zset.
  by rewrite (u32_id need), (u32_id (_ + _)) by (unfold TN_POOL in *; lia).
Qed.

Lemma wp_node_write s id o buf :
  fs_ok s → 0 ≤ o → buf_ok buf →
  wp (node_write id o buf) (λ r s', (r, s') = write_spec s id o buf) s.
Proof.
  intros Hok Ho Hbuf. unfold node_write, write_spec, buf_ok in *. wp_run.
  wp_use wp_file_node; [done|]. intros r s' [-> ->].
  destruct (is_file s id) as [d|] eqn:Hd; simpl; [|by wp_run].
  pose proof (is_file_ok _ _ _ Hok Hd) as (Hid & Hoff & Hsz & Hend).
  pose proof (zlen_nonneg buf) as Hb. rewrite Z.gtb_ltb.
  destruct (Z.ltb_spec (size d) o); [by wp_run|]. cbv zeta.
  rewrite u64_id by (unfold TN_POOL in *; lia). rewrite Z.gtb_ltb. wp_run.
  destruct (Z.ltb_spec (size d) (o + zlen buf)).
  - wp_use wp_relocate; [done|done|unfold TN_POOL in *; lia|].
    rewrite (proj2 (Z.leb_gt (o + zlen buf) _)) by lia.
    destruct (Z.leb_spec (pool_used s + (o + zlen buf)) TN_POOL).
    2: { intros r s' [= -> ->]. by wp_run. }
    intros r s' [= -> ->]. cbn [negb]. wp_run. apply wp_aget. eexists.
    split; [apply zget_zset_eq; rewrite (ok_len _ Hok); lia|].
    wp_run. cbn [off with_size with_off]. wp_use wp_pool_write; [lia|].
    intros [] s' ->. by wp_run.
  - rewrite (proj2 (Z.leb_le (o + zlen buf) _)) by lia. wp_run. cbn [negb]. wp_run.
    pose proof (proj1 (is_file_some _ _ _) Hd) as (Hget & _ & _).
    apply wp_aget. exists d. split; [done|]. wp_run.
    wp_use wp_pool_write; [lia|]. intros [] s' ->. by wp_run.
Qed.

(** A write leaves the tree alone. *)
Definition same_tree (s s' : tmpfs) : Prop :=
  ∀ i, match zget (nodes s) i, zget (nodes s') i with
       | Some d, Some e => name d = name e ∧ typ d = typ e ∧ parent d = parent e
       | None, None => True
       | _, _ => False
       end.

Lemma same_tree_put s i d e m u :
  zget (nodes s) i = Some d → name d = name e → typ d = typ e → parent d = parent e →
  same_tree s (mkFs (zset (nodes s) i e) m u).
Proof.
  intros Hd H1 H2 H3 j. simpl. rewrite zget_zset by (by eapply zget_Some_lt).
  case_decide; subst; [by rewrite Hd|]. by destruct (zget (nodes s) j).
Qed.

Lemma fs_ok_pool s m : fs_ok s → fs_ok (set_pool m s).
Proof. by intros []; split. Qed.

(** File [j]'s node and bytes are unaffected by a change of [i]'s node and of
    the pool outside [j]'s extent. *)
Lemma file_data_other s i d m u j :
  0 ≤ i < zlen (nodes s) → i ≠ j →
  (∀ e, is_file s j = Some e → load_bytes m (off e) (size e) = contents s e) →
  file_data (mkFs (zset (nodes s) i d) m u) j = file_data s j.
Proof.
  intros Hi Hij Hm. unfold file_data.
  assert (is_file (mkFs (zset (nodes s) i d) m u) j = is_file s j) as ->.
  { unfold is_file. simpl. by rewrite zget_zset_ne by lia. }
  destruct (is_file s j) as [e|]; simpl; [|done]. f_equal. by apply Hm.
Qed.

Lemma file_data_self s i d m u :
  1 ≤ i < zlen (nodes s) → typ d = VN_FILE →
  file_data (mkFs (zset (nodes s) i d) m u) i = Some (load_bytes m (off d) (size d)).
Proof.
  intros Hi Ht. unfold file_data, is_file. simpl. rewrite zget_zset_eq by lia. simpl.
  rewrite (proj2 (Z.ltb_lt 0 i)), Ht by lia. done.
Qed.

Lemma write_spec_ok s id o buf old :
  fs_ok s → 0 ≤ o → file_data s id = Some old →
  let '(r, s') := write_spec s id o buf in
  fs_ok s' ∧ same_tree s s' ∧
  (r = -1 ∧ s' = s ∨
   r = zlen buf ∧ file_data s' id = Some (splice old o buf) ∧
   ∀ j, j ≠ id → file_data s' j = file_data s j).
Proof.
  intros Hok Ho Hold. unfold file_data in Hold. unfold write_spec.
  destruct (is_file s id) as [d|] eqn:Hd; simpl in Hold; [|done]. injection Hold as <-.
  pose proof (is_file_ok _ _ _ Hok Hd) as (Hid & Hoff & Hsz & Hend).
  pose proof (proj1 (is_file_some _ _ _) Hd) as (Hget & _ & Ht).
  pose proof (zlen_nonneg buf) as Hb. pose proof (ok_len _ Hok) as Hlen.
  assert (same_tree s s) as Hsame by (intros i; by destruct (zget (nodes s) i)).
  assert (zlen (contents s d) = size d) as Hc by (by apply zlen_load_bytes).
  destruct (Z.ltb_spec (size d) o); [by auto|].
  destruct (Z.leb_spec (o + zlen buf) (size d)).
  - split_and!; [by apply fs_ok_pool|done|]. right.
    assert (∀ j, is_file (set_pool (store_bytes (pool s) (off d + o) buf) s) j = is_file s j)
      as Hf by done.
    unfold file_data. split_and!; [done| |].
    + rewrite Hf, Hd. cbn [fmap option_fmap option_map]. f_equal.
      unfold contents at 2. rewrite <- load_bytes_splice by lia.
      by rewrite Z.max_l by lia.
    + intros j Hj. rewrite Hf. destruct (is_file s j) as [e|] eqn:He; [|done].
      cbn [fmap option_fmap option_map]. f_equal. apply load_store_bytes_ne.
      pose proof (proj1 (is_file_some _ _ _) He) as (Hge & _ & Hte).
      destruct (ok_disj _ Hok _ _ _ _ Hget Hge Ht Hte); [done|lia|lia].
  - destruct (Z.leb_spec (pool_used s + (o + zlen buf)) TN_POOL); [|by auto].
    split_and!.
    + apply fs_ok_put; [done|lia| |lia|].
      { destruct (ok_node _ Hok _ _ Hget). by split. }
      intros _. simpl. split_and!; [lia|lia|lia|]. intros j e Hj He Hte. right. simpl.
      pose proof (ok_file _ Hok _ _ He Hte). lia.
    + by eapply same_tree_put.
    + right. split_and!; [done| |].
      * rewrite file_data_self by (done || lia). f_equal. simpl.
        rewrite <- (Z.max_r (size d) (o + zlen buf)) at 1 by lia.
        rewrite load_bytes_splice by lia. f_equal. rewrite <- Hc. apply load_store_bytes.
      * intros j Hj. apply file_data_other; [lia|done|]. intros e He.
        destruct (is_file_ok _ _ _ Hok He) as (_ & ? & ? & ?).
        rewrite !load_store_bytes_ne; [done|lia|lia].
Qed.

Lemma wp_set_contents s id data :
  fs_ok s → (∃ d, zget (nodes s) id = Some d) → buf_ok data →
  wp (set_contents id data) (λ r s', (r, s') = contents_spec s id data) s.
Proof.
  intros Hok [d Hd] Hbuf. unfold set_contents, contents_spec, buf_ok in *. rewrite Hd.
  pose proof (zlen_nonneg data) as Hb. pose proof (ok_used _ Hok) as Hu.
  pose proof (zget_Some_lt _ _ _ Hd) as Hr. wp_run.
  rewrite u64_id by (unfold TN_POOL in *; lia). rewrite Z.gtb_ltb.
  destruct (Z.ltb_spec TN_POOL (pool_used s + zlen data)).
  { rewrite (proj2 (Z.leb_gt _ _)) by lia. by wp_run. }
  rewrite (proj2 (Z.leb_le _ _)) by lia. wp_run.
  wp_use wp_pool_write; [lia|]. intros [] s' ->. wp_run.
  apply wp_update_node. exists d. split; [done|]. wp_run. apply wp_update_node.
  eexists. split; [by apply zget_zset_eq|].
  wp_run. unfold set_nodes, set_used, set_pool. simpl. rewrite zset_zset.
  by rewrite (u32_id (zlen data)), (u32_id (_ + _)) by (unfold TN_POOL in *; lia).
Qed.

Lemma contents_spec_ok s id data :
  fs_ok s → 1 ≤ id < TN_MAX → node_typ s id = VN_FILE →
  fs_ok (contents_spec s id data).2.
Proof.
  intros Hok Hid Ht. unfold contents_spec, node_typ in *. fs_node Hok id d Hd.
  rewrite Hd in *. pose proof (zlen_nonneg data) as Hb. pose proof (ok_used _ Hok) as Hu.
  destruct (Z.leb_spec (pool_used s + zlen data) TN_POOL); simpl; [|done].
  apply fs_ok_put; [done|done| |lia|].
  - destruct (ok_node _ Hok _ _ Hd). by split.
  - intros _. simpl. split_and!; [lia|lia|lia|]. intros j e _ He Hte. right. simpl.
    pose proof (ok_file _ Hok _ _ He Hte). lia.
Qed.

Lemma wp_create s path data :
  fs_ok s → buf_ok data →
  wp (create path data) (λ r s', (r, s') = create_spec s path data) s.
Proof.
  intros Hok Hbuf. unfold create, create_spec. wp_run. wp_use wp_resolve_parent; [done|].
  intros r s' [-> ->]. destruct (parent_spec s path) as [[par leaf]|] eqn:Hp; simpl; [|by wp_run].
  destruct (parent_spec_some _ _ _ _ Hok Hp) as (Hpar & Hleaf & _ & _).
  rewrite slice_name_array by lia. wp_run. wp_use wp_child_of; [done|].
  intros r s' [-> ->]. rewrite find_child_default_neg.
  destruct (find_child s par leaf) as [c|] eqn:Hc; simpl.
  - apply find_child_some in Hc as (d & Hd & _). unfold node_typ. wp_run.
    apply wp_aget. exists d. split; [done|]. rewrite Hd.
    destruct (typ d =? VN_FILE); simpl; [|by wp_run]. apply wp_set_contents; eauto.
  - wp_run. wp_use wp_alloc_node; [done|done|by left|].
    destruct (insert_spec_ok s par leaf VN_FILE Hok Hpar) as [Hok' Hn]; [by left|].
    intros r s' Heq. rewrite <- Heq in *. simpl in Hok', Hn.
    destruct (Z.ltb_spec r 0); [by wp_run|]. destruct Hn as [_ Hn]; [done|].
    apply wp_set_contents; eauto.
Qed.

Lemma insert_spec_typ s par nm t i :
  fs_ok s → free_slot s = Some i → node_typ (insert_spec s par nm t).2 i = t.
Proof.
  intros Hok Hf. unfold insert_spec. rewrite Hf. unfold node_typ. simpl.
  apply free_slot_range in Hf. rewrite zget_zset_eq; [done|]. rewrite (ok_len _ Hok). lia.
Qed.

Lemma create_spec_ok s path data : fs_ok s → fs_ok (create_spec s path data).2.
Proof.
  intros Hok. unfold create_spec.
  destruct (parent_spec s path) as [[par leaf]|] eqn:Hp; [|done].
  destruct (parent_spec_some _ _ _ _ Hok Hp) as (Hpar & _).
  destruct (find_child s par leaf) as [c|] eqn:Hc.
  - destruct (Z.eqb_spec (node_typ s c) VN_FILE); [|done].
    apply contents_spec_ok; [done| |done]. by eapply find_child_range.
  - destruct (insert_spec_ok s par leaf VN_FILE Hok Hpar) as [Hok' Hn]; [by left|].
    unfold insert_spec in *. destruct (free_slot s) as [i|] eqn:Hf; simpl in *; [|done].
    pose proof (free_slot_range _ _ Hf). rewrite (proj2 (Z.ltb_ge i 0)) by lia.
    apply contents_spec_ok; [done|done|]. pose proof (insert_spec_typ s par leaf VN_FILE i Hok Hf) as Ht.
    unfold insert_spec in Ht. by rewrite Hf in Ht.
Qed.

Lemma mkdir_spec_ok s path : fs_ok s → fs_ok (mkdir_spec s path).2.
Proof.
  intros Hok. unfold mkdir_spec.
  destruct (parent_spec s path) as [[par leaf]|] eqn:Hp; [|done].
  destruct (parent_spec_some _ _ _ _ Hok Hp) as (Hpar & _).
  destruct (find_child s par leaf) as [c|]; [done|].
  destruct (insert_spec_ok s par leaf VN_DIR Hok Hpar) as [Hok' _]; [by right|].
  destruct (insert_spec s par leaf VN_DIR) as [i s']; by destruct (i <? 0).
Qed.

Lemma wp_unlink s path :
  fs_ok s → wp (unlink path) (λ r s', (r, s') = unlink_spec s path) s.
Proof.
  intros Hok. unfold unlink, unlink_spec. wp_run. wp_use wp_resolve; [done|].
  intros r s' [-> ->]. pose proof (resolve_range s path Hok). set (id := resolve_spec s path) in *.
  destruct (Z.leb_spec id 0).
  - wp_run. rewrite (proj2 (Z.ltb_ge 0 id)) by lia. by destruct (zget _ _).
  - fs_node Hok id d Hd. wp_run. apply wp_aget. exists d. split; [done|]. rewrite Hd.
    rewrite (proj2 (Z.ltb_lt 0 id)) by lia. simpl.
    destruct (typ d =? VN_FILE); simpl; [|by wp_run]. wp_run. apply wp_update_node.
    exists d. split; [done|]. by wp_run.
Qed.

Lemma unlink_spec_ok s path : fs_ok s → fs_ok (unlink_spec s path).2.
Proof.
  intros Hok. unfold unlink_spec. pose proof (resolve_range s path Hok).
  destruct (zget _ _) as [d|] eqn:Hd; [|done].
  destruct (Z.ltb_spec 0 (resolve_spec s path)); [|done].
  destruct (typ d =? VN_FILE); simpl; [|done]. pose proof (ok_used _ Hok).
  apply fs_ok_put; [done|lia| |lia|done].
  destruct (ok_node _ Hok _ _ Hd). split; simpl; tauto.
Qed.

Lemma wp_rename s oldp newp :
  fs_ok s → wp (rename oldp newp) (λ r s', (r, s') = rename_spec s oldp newp) s.
Proof.
  intros Hok. unfold rename, rename_spec. wp_run. wp_use wp_resolve; [done|].
  intros r s' [-> ->]. pose proof (resolve_range s oldp Hok) as Hr.
  set (id := resolve_spec s oldp) in *. destruct (Z.leb_spec id 0).
  { wp_run. rewrite (proj2 (Z.ltb_ge 0 id)) by lia.
    destruct (zget _ _); [|done]. by destruct (parent_spec s newp) as [[]|]. }
  fs_node Hok id d Hd. rewrite Hd, (proj2 (Z.ltb_lt 0 id)) by lia. wp_run.
  wp_use wp_resolve_parent; [done|]. intros r s' [-> ->].
  destruct (parent_spec s newp) as [[par leaf]|] eqn:Hp; simpl; [|by wp_run].
  destruct (parent_spec_some _ _ _ _ Hok Hp) as (Hpar & Hleaf & _ & _).
  rewrite slice_name_array by lia. wp_run. wp_use wp_child_of; [done|].
  intros r s' [-> ->]. rewrite Z.geb_leb, Z.leb_antisym, find_child_default_neg.
  destruct (find_child s par leaf) as [c|] eqn:Hc; simpl; [by wp_run|].
  wp_run. apply wp_update_node. exists d. split; [done|]. wp_run. apply wp_update_node.
  eexists. split; [apply zget_zset_eq; rewrite (ok_len _ Hok); lia|]. wp_run.
  unfold put, set_nodes. simpl. rewrite zset_zset.
  by rewrite (u16_id par) by (unfold TN_MAX in Hpar; lia).
Qed.

Lemma rename_spec_ok s oldp newp : fs_ok s → fs_ok (rename_spec s oldp newp).2.
Proof.
  intros Hok. unfold rename_spec. pose proof (resolve_range s oldp Hok) as Hr.
  set (id := resolve_spec s oldp) in *. destruct (zget (nodes s) id) as [d|] eqn:Hd; [|done].
  destruct (parent_spec s newp) as [[par leaf]|] eqn:Hp; [|done].
  destruct (parent_spec_some _ _ _ _ Hok Hp) as (Hpar & Hleaf & _ & _).
  destruct (Z.ltb_spec 0 id); [|done]. destruct (find_child s par leaf); [done|]. simpl.
  pose proof (ok_used _ Hok). destruct (ok_node _ Hok _ _ Hd) as [Ht _ _].
  apply fs_ok_put; [done|lia| |lia|].
  - split; [done|done|apply zlen_name_array].
  - intros Htf. simpl in *. pose proof (ok_file _ Hok _ _ Hd Htf). split_and!; [lia|lia|lia|].
    intros j e Hj He Hte. by apply (ok_disj _ Hok id j d e).
Qed.

Lemma wp_init s :
  wp init (λ _ s', s' = put (mkFs (replicate (Z.to_nat TN_MAX) free_node) (pool s) 0) 0
                         (with_parent 0 (with_typ VN_DIR free_node))) s.
Proof.
  unfold init. wp_run. apply wp_update_node. exists free_node.
  split; [by vm_compute|]. wp_run. apply wp_update_node.
  eexists. split; [by apply zget_zset_eq|]. unfold set_nodes. simpl.
  by rewrite zset_zset.
Qed.

Definition root_only (m : memory) : tmpfs :=
  put (mkFs (replicate (Z.to_nat TN_MAX) free_node) m 0) 0
      (with_parent 0 (with_typ VN_DIR free_node)).

Lemma root_only_get m i d :
  zget (nodes (root_only m)) i = Some d →
  d = if decide (0 = i) then with_parent 0 (with_typ VN_DIR free_node) else free_node.
Proof.
  unfold root_only. cbn [put set_nodes nodes].
  rewrite zget_zset by (rewrite zlen_replicate; done). case_decide; [by intros [= <-]|].
  rewrite zget_replicate. case_decide; [by intros [= <-]|done].
Qed.

Lemma root_only_ok m : fs_ok (root_only m).
Proof.
  split.
  - done.
  - intros i d ->%root_only_get. case_decide; split; try done; auto.
  - eexists. split; [by apply zget_zset_eq|done].
  - by vm_compute.
  - intros i d ->%root_only_get. by case_decide.
  - intros i j d e ->%root_only_get. by case_decide.
Qed.

(** ** The directory tree under an update of one node *)
Lemma is_child_put s i d m u par nm j :
  0 ≤ i < zlen (nodes s) →
  is_child (mkFs (zset (nodes s) i d) m u) par nm j =
  if decide (i = j)
  then negb (typ d =? VN_FREE) && (parent d =? par) && bool_decide (name_bytes (name d) = nm)
  else is_child s par nm j.
Proof. intros Hi. unfold is_child. simpl. rewrite zget_zset by done. by case_decide. Qed.

Lemma find_child_ext s s' par nm :
  (∀ j, 1 ≤ j < TN_MAX → is_child s' par nm j = is_child s par nm j) →
  find_child s' par nm = find_child s par nm.
Proof.
  intros H. destruct (find_child s par nm) as [c|] eqn:Hc.
  - apply find_first_Some in Hc as (Hr & HP & Hb). apply find_first_Some.
    split_and!; [lia|lia|by rewrite H|]. intros j Hj. rewrite H by lia. by apply Hb.
  - apply find_first_None. intros j Hj. rewrite H by done.
    by apply (proj1 (find_first_None _ _ _) Hc).
Qed.

Lemma find_child_new s s' par nm i :
  1 ≤ i < TN_MAX → find_child s par nm = None → is_child s' par nm i = true →
  (∀ j, j ≠ i → is_child s' par nm j = is_child s par nm j) →
  find_child s' par nm = Some i.
Proof.
  intros Hi Hn Hc Ho. apply find_first_Some. split_and!; [lia|lia|done|].
  intros j Hj. rewrite Ho by lia. apply (proj1 (find_first_None _ _ _) Hn). lia.
Qed.

(** No directory has two live entries of the same name. *)
Definition names_unique (s : tmpfs) : Prop := ∀ par nm i j,
  1 ≤ i < TN_MAX → 1 ≤ j < TN_MAX →
  is_child s par nm i = true → is_child s par nm j = true → i = j.

Lemma find_child_unique s par nm i :
  names_unique s → 1 ≤ i < TN_MAX → is_child s par nm i = true → find_child s par nm = Some i.
Proof.
  intros Hu Hi Hc. apply find_first_Some. split_and!; [lia|lia|done|].
  intros j Hj. destruct (is_child s par nm j) eqn:E; [|done].
  rewrite (Hu par nm i j) in Hj by (done || lia). lia.
Qed.

Lemma find_child_none_is s par nm j :
  find_child s par nm = None → 1 ≤ j < TN_MAX → is_child s par nm j = false.
Proof. intros H. by apply find_first_None. Qed.

(** Entering name [nm] in directory [par] for node [i], which had the entry
    ([par0], [nm0]) or none. *)
Lemma entry_added s i d m u par nm :
  zlen (nodes s) = TN_MAX → 1 ≤ i < TN_MAX → typ d ≠ VN_FREE → parent d = par →
  name_bytes (name d) = nm → find_child s par nm = None →
  let s' := mkFs (zset (nodes s) i d) m u in
  find_child s' par nm = Some i ∧
  ((∀ p n, is_child s p n i = false) →
   ∀ p n, (p, n) ≠ (par, nm) → find_child s' p n = find_child s p n) ∧
  (names_unique s → names_unique s').
Proof.
  intros Hlen Hi Ht Hp Hnm Hnone s'.
  assert (∀ p n, is_child s' p n i = bool_decide ((p, n) = (par, nm))) as Hself.
  { intros p n. unfold s'. rewrite is_child_put, decide_True by (done || lia).
    rewrite (proj2 (Z.eqb_neq (typ d) VN_FREE)), Hp, Hnm by done. simpl.
    destruct (Z.eqb_spec par p); simpl.
    - subst. apply bool_decide_ext. split; [by intros ->|by intros [=]].
    - symmetry. apply bool_decide_false. congruence. }
  assert (∀ p n j, j ≠ i → is_child s' p n j = is_child s p n j) as Hother.
  { intros p n j Hj. unfold s'. rewrite is_child_put, decide_False by (congruence || lia). done. }
  split_and!.
  - apply (find_child_new s); [done|done| |by apply Hother].
    rewrite Hself. by apply bool_decide_true.
  - intros Hfree p n Hne. apply find_child_ext. intros j Hj.
    destruct (decide (j = i)) as [->|Hji]; [|by apply Hother].
    rewrite Hself, Hfree. by apply bool_decide_false.
  - intros Hu p n j k Hj Hk Hcj Hck.
    destruct (decide (j = i)) as [->|Hji], (decide (k = i)) as [->|Hki]; [done| | |].
    + rewrite Hself, bool_decide_eq_true in Hcj. injection Hcj as -> ->.
      rewrite Hother, (find_child_none_is s) in Hck by done. done.
    + rewrite Hself, bool_decide_eq_true in Hck. injection Hck as -> ->.
      rewrite Hother, (find_child_none_is s) in Hcj by done. done.
    + rewrite Hother in Hcj, Hck by done. by apply (Hu p n).
Qed.

Lemma names_unique_tree s s' : same_tree s s' → names_unique s → names_unique s'.
Proof.
  intros Hs Hu p n i j Hi Hj.
  assert (∀ k, is_child s' p n k = is_child s p n k) as Heq.
  { intros k. unfold is_child. specialize (Hs k).
    destruct (zget (nodes s) k), (zget (nodes s') k); try done.
    by destruct Hs as (-> & -> & ->). }
  rewrite !Heq. by apply Hu.
Qed.

Lemma find_child_tree s s' p n : same_tree s s' → find_child s' p n = find_child s p n.
Proof.
  intros Hs. apply find_child_ext. intros k _. unfold is_child. specialize (Hs k).
  destruct (zget (nodes s) k), (zget (nodes s') k); try done. by destruct Hs as (-> & -> & ->).
Qed.

(** ** Reachable nodes *)
Inductive attached (s : tmpfs) : Z → Prop :=
  | att_root : attached s 0
  | att_child i d : 1 ≤ i < TN_MAX → zget (nodes s) i = Some d → typ d ≠ VN_FREE →
      node_typ s (parent d) = VN_DIR → attached s (parent d) → attached s i.

Lemma node_typ_get s i d : zget (nodes s) i = Some d → node_typ s i = typ d.
Proof. intros H. unfold node_typ. by rewrite H. Qed.

Lemma comp_step_attached s cur c cur' :
  attached s cur → comp_step s cur c = Some cur' → attached s cur'.
Proof.
  intros Ha. unfold comp_step. repeat case_bool_decide.
  - by intros [= <-].
  - destruct (Z.eqb_spec cur 0) as [->|Hne]; [by intros [= <-]|].
    destruct Ha as [|i d Hi Hd Ht Hpt Hp]; [done|]. rewrite Hd. by intros [= <-].
  - destruct (_ >=? _); [done|]. destruct (zget (nodes s) cur) as [d|] eqn:Hd; [|done].
    destruct (Z.eqb_spec (typ d) VN_DIR) as [Ht|]; [|done]. intros Hf.
    pose proof Hf as (e & He & Hte & Hpe & _)%find_child_some.
    pose proof (find_child_range _ _ _ _ Hf).
    apply (att_child s cur' e); [done|done|done| |]; rewrite Hpe; [|done].
    by rewrite (node_typ_get _ _ _ Hd).
Qed.

Lemma walk_attached s cur comps c :
  attached s cur → walk s cur comps = Some c → attached s c.
Proof.
  revert cur. induction comps as [|x comps IH]; intros cur Ha; simpl; [by intros [= <-]|].
  destruct (comp_step s cur x) as [cur'|] eqn:E; [|done]. apply IH.
  by eapply comp_step_attached.
Qed.

Lemma attached_live s i : fs_ok s → attached s i → node_typ s i ≠ VN_FREE.
Proof.
  intros Hok [|j d Hj Hd Ht _ _]; [|by rewrite (node_typ_get _ _ _ Hd)].
  destruct (ok_root _ Hok) as (d & Hd & Ht & _). by rewrite (node_typ_get _ _ _ Hd), Ht.
Qed.

(** States in which [s']'s tree extends [s]'s. *)
Definition tree_extends (s s' : tmpfs) : Prop :=
  (∀ i, node_typ s i ≠ VN_FREE → node_typ s' i = node_typ s i ∧
     parent <$> zget (nodes s') i = parent <$> zget (nodes s) i) ∧
  (∀ p n c, find_child s p n = Some c → find_child s' p n = Some c).

Lemma walk_extends s s' cur comps c :
  fs_ok s → tree_extends s s' → attached s cur →
  walk s cur comps = Some c → walk s' cur comps = Some c.
Proof.
  intros Hok [Hn Hf]. revert cur. induction comps as [|x comps IH]; intros cur Ha; [done|].
  simpl. destruct (comp_step s cur x) as [cur'|] eqn:E; [|done].
  assert (comp_step s' cur x = Some cur') as ->.
  2: { apply IH. by eapply comp_step_attached. }
  destruct (Hn cur (attached_live _ _ Hok Ha)) as [Ht Hp]. unfold comp_step in *.
  destruct (bool_decide (x = dot)); [done|].
  destruct (bool_decide (x = dotdot)); [by rewrite Hp|].
  destruct (_ >=? _); [done|]. unfold node_typ in Ht.
  destruct (zget (nodes s) cur) as [d|]; [|done].
  destruct (zget (nodes s') cur) as [d'|]; [|done]. rewrite Ht.
  destruct (typ d =? VN_DIR); [|done]. by apply Hf.
Qed.

Lemma resolve_extends s s' path :
  fs_ok s → tree_extends s s' → 0 ≤ resolve_spec s path →
  resolve_spec s' path = resolve_spec s path.
Proof.
  intros Hok He. unfold resolve_spec. destruct (absolute path) as [comps|]; [|done].
  destruct (walk s 0 comps) as [c|] eqn:Hw; simpl; [|lia]. intros _.
  by rewrite (walk_extends _ _ _ _ _ Hok He (att_root s) Hw).
Qed.

Lemma walk_app s cur a b :
  walk s cur (a ++ b) = (c ← walk s cur a; walk s c b).
Proof.
  revert cur. induction a as [|x a IH]; intros cur; [done|]. simpl.
  destruct (comp_step s cur x); [apply IH|done].
Qed.

(** A leaf entered in the directory [resolve_parent] found is what the whole
    path resolves to. *)
Lemma resolve_leaf s s' path par leaf i :
  fs_ok s → tree_extends s s' → parent_spec s path = Some (par, leaf) →
  node_typ s' par = VN_DIR → find_child s' par leaf = Some i →
  resolve_spec s' path = i.
Proof.
  intros Hok He Hp Ht Hc. destruct (parent_spec_some _ _ _ _ Hok Hp) as (_ & Hl & Hd & Hdd).
  unfold parent_spec, leaf_from in Hp. unfold resolve_spec.
  destruct (absolute path) as [comps|]; simpl in *; [|done].
  destruct (last comps) as [l|] eqn:Hlast; simpl in Hp; [|done].
  destruct (_ || _); [done|]. destruct (walk s 0 (removelast comps)) as [dir|] eqn:Hw; [|done].
  injection Hp as -> ->. apply last_Some in Hlast as [l' ->].
  rewrite removelast_last in Hw. rewrite walk_app.
  rewrite (walk_extends _ _ _ _ _ Hok He (att_root s) Hw). simpl. unfold comp_step.
  rewrite !bool_decide_false by done. rewrite Z.geb_leb, (proj2 (Z.leb_gt _ _)) by lia.
  unfold node_typ in Ht. destruct (zget (nodes s') par) as [d|]; [|done].
  by rewrite Ht, Hc.
Qed.

Lemma node_typ_put s i d m u j :
  0 ≤ i < zlen (nodes s) →
  node_typ (mkFs (zset (nodes s) i d) m u) j = if decide (i = j) then typ d else node_typ s j.
Proof. intros Hi. unfold node_typ. simpl. rewrite zget_zset by done. by case_decide. Qed.

Lemma free_slot_free s i : free_slot s = Some i → node_typ s i = VN_FREE.
Proof.
  intros (_ & HP & _)%find_first_Some. unfold node_typ.
  destruct (zget (nodes s) i); [|done]. by apply Z.eqb_eq.
Qed.

Lemma free_not_child s i p n : node_typ s i = VN_FREE → is_child s p n i = false.
Proof.
  unfold node_typ, is_child. destruct (zget (nodes s) i) as [d|]; [|done]. by intros ->.
Qed.

Lemma insert_extends s par nm t i :
  fs_ok s → t ≠ VN_FREE → nul_free nm → zlen nm < VFS_NAME_MAX →
  find_child s par nm = None → free_slot s = Some i →
  let s' := (insert_spec s par nm t).2 in
  tree_extends s s' ∧ find_child s' par nm = Some i ∧ (names_unique s → names_unique s').
Proof.
  intros Hok Ht Hnul Hlen Hnone Hf. pose proof (ok_len _ Hok) as Hl.
  pose proof (free_slot_range _ _ Hf) as Hi. pose proof (free_slot_free _ _ Hf) as Hfree.
  unfold insert_spec. rewrite Hf. cbv zeta. simpl snd.
  destruct (entry_added s i (new_node s par nm t) (pool s) (pool_used s) par nm)
    as (Hc & Hother & Hu); [done|done|done|done|by apply name_bytes_array|done|].
  split_and!; [|exact Hc|exact Hu]. split.
  - intros j Hj. assert (i ≠ j) by (intros <-; done). unfold put, set_nodes.
    rewrite node_typ_put, decide_False by (done || lia). split; [done|]. simpl.
    by rewrite zget_zset_ne by lia.
  - intros p n c Hcn. unfold put, set_nodes. rewrite Hother; [done| |congruence].
    intros p' n'. by apply free_not_child.
Qed.

Lemma tree_extends_same s s1 s2 : tree_extends s s1 → same_tree s1 s2 → tree_extends s s2.
Proof.
  intros [Hn Hf] Hs. split.
  - intros i Hi. destruct (Hn i Hi) as [Ht Hp]. specialize (Hs i). unfold node_typ in *.
    destruct (zget (nodes s1) i), (zget (nodes s2) i); try done.
    destruct Hs as (_ & <- & H). simpl in *. by rewrite <- H.
  - intros p n c Hc. rewrite (find_child_tree s1) by done. by apply Hf.
Qed.

Lemma tree_extends_refl s : tree_extends s s.
Proof. done. Qed.

Lemma contents_spec_tree s id data : same_tree s (contents_spec s id data).2.
Proof.
  assert (same_tree s s) by (intros i; by destruct (zget (nodes s) i)).
  unfold contents_spec. destruct (zget (nodes s) id) as [d|] eqn:Hd; [|done].
  destruct (_ <=? _); [|done]. by eapply same_tree_put.
Qed.

Lemma contents_spec_data s id data :
  fs_ok s → 1 ≤ id < TN_MAX → node_typ s id = VN_FILE → pool_used s + zlen data ≤ TN_POOL →
  let '(r, s') := contents_spec s id data in
  r = id ∧ file_data s' id = Some data ∧ ∀ j, j ≠ id → file_data s' j = file_data s j.
Proof.
  intros Hok Hid Ht Hle. unfold contents_spec, node_typ in *. pose proof (ok_len _ Hok) as Hl.
  destruct (zget (nodes s) id) as [d|] eqn:Hd; [|done]. rewrite (proj2 (Z.leb_le _ _)) by done.
  split_and!; [done| |].
  - rewrite file_data_self by (done || lia). simpl. by rewrite load_store_bytes.
  - intros j Hj. apply file_data_other; [lia|done|]. intros e He.
    destruct (is_file_ok _ _ _ Hok He) as (_ & ? & ? & ?). apply load_store_bytes_ne. lia.
Qed.

Lemma insert_spec_data s par nm t i j :
  fs_ok s → free_slot s = Some i → i ≠ j →
  file_data (insert_spec s par nm t).2 j = file_data s j.
Proof.
  intros Hok Hf Hij. unfold insert_spec. rewrite Hf. pose proof (ok_len _ Hok).
  pose proof (free_slot_range _ _ Hf). by apply file_data_other; [lia| |].
Qed.

Lemma Forall_sub {A} (P : A → Prop) l l' : Forall P l → (∀ x, x ∈ l' → x ∈ l) → Forall P l'.
Proof. rewrite !Forall_forall. auto. Qed.

Lemma components_elem l c x : c ∈ components l → x ∈ c → x ∈ l.
Proof.
  assert (∀ l acc, c ∈ components_acc acc l → x ∈ c → x ∈ acc ∨ x ∈ l) as H.
  { clear l. induction l as [|y l IH]; intros acc; simpl.
    - destruct acc as [|z acc]; simpl; [by intros ?%elem_of_nil|].
      intros ->%list_elem_of_singleton. by left.
    - destruct (is_slash y).
      + intros [Hin|Hin]%elem_of_app Hx.
        * destruct acc as [|z acc]; simpl in Hin; [by apply elem_of_nil in Hin|].
          apply list_elem_of_singleton in Hin as ->. by left.
        * destruct (IH [] Hin Hx) as [?%elem_of_nil|]; [done|]. right. by right.
      + intros Hin Hx. destruct (IH _ Hin Hx) as [[?|?%list_elem_of_singleton]%elem_of_app|].
        * by left.
        * subst. right. by left.
        * right. by right. }
  intros Hc Hx. destruct (H l [] Hc Hx) as [?%elem_of_nil|]; done.
Qed.

Lemma parent_spec_nul_free s path par leaf :
  nul_free path → parent_spec s path = Some (par, leaf) → nul_free leaf.
Proof.
  intros Hn. unfold parent_spec, leaf_from.
  destruct (absolute path) as [comps|] eqn:Ha; simpl; [|done].
  apply absolute_some in Ha as [-> _].
  destruct (last _) as [l|] eqn:Hl; simpl; [|done]. destruct (_ || _); [done|].
  destruct (walk _ _ _); [|done]. intros [= _ ->]. eapply Forall_sub; [done|].
  intros x Hx. apply last_Some_elem_of in Hl.
  pose proof (components_elem _ _ _ Hl Hx) as Hin.
  rewrite <- (take_drop 1 path). apply elem_of_app. by right.
Qed.

(** ** Sequences of operations *)
Inductive op :=
  | OpMkdir (path : list Z)
  | OpCreate (path data : list Z)
  | OpUnlink (path : list Z)
  | OpRename (oldp newp : list Z)
  | OpWrite (id o : Z) (buf : list Z)
  | OpRead (id o : Z) (buf : list Z)
  | OpStat (path : list Z)
  | OpList (dir : list Z) (index : Z).

Definition run_op (o : op) : M tmpfs unit :=
  match o with
  | OpMkdir p => _ ← mkdir p; mret tt
  | OpCreate p d => _ ← create p d; mret tt
  | OpUnlink p => _ ← unlink p; mret tt
  | OpRename a b => _ ← rename a b; mret tt
  | OpWrite id o b => _ ← node_write id o b; mret tt
  | OpRead id o b => _ ← node_read id o b; mret tt
  | OpStat p => _ ← path_type p; _ ← path_size p; mret tt
  | OpList d i => _ ← list_dir d i; mret tt
  end.

Fixpoint run_ops (ops : list op) : M tmpfs unit :=
  match ops with
  | [] => mret tt
  | o :: ops => run_op o;; run_ops ops
  end.

(** What the callers guarantee: C strings hold no NUL, offsets are [u64] and
    buffers are slices. *)
Definition op_ok (o : op) : Prop :=
  match o with
  | OpMkdir p => nul_free p
  | OpCreate p d => nul_free p ∧ buf_ok d
  | OpUnlink p => True
  | OpRename a b => nul_free b
  | OpWrite id o b | OpRead id o b => 0 ≤ o ∧ buf_ok b
  | OpStat p => True
  | OpList _ index => 0 ≤ index
  end.

(** The entries of directory [pid] in node order. *)
Definition is_entry (s : tmpfs) (pid i : Z) : bool :=
  match zget (nodes s) i with
  | Some d => negb (typ d =? VN_FREE) && (parent d =? pid)
  | None => false
  end.
Definition entries (s : tmpfs) (pid : Z) : list Z :=
  List.filter (is_entry s pid) (seqZ 1 (TN_MAX - 1)).
Definition dirent_of (s : tmpfs) (i : Z) : option dirent :=
  (λ d, mkDirent (name d) (size d) (typ d)) <$> zget (nodes s) i.

Lemma wp_list_from s n i pid index seen :
  fs_ok s → 1 ≤ i → i + Z.of_nat n ≤ TN_MAX → seen ≤ index →
  wp (list_from n i pid index seen) (λ r s', s' = s ∧
    r = (zget (List.filter (is_entry s pid) (seqZ i (Z.of_nat n))) (index - seen) ≫=
         dirent_of s)) s.
Proof.
  intros Hok. revert i seen. induction n as [|n IH]; intros i seen Hi Hn Hseen.
  { wp_run. split; [done|]. unfold zget. by case_decide. }
  cbn [list_from]. fs_node Hok i d Hd. wp_run. apply wp_aget. exists d. split; [done|].
  replace (Z.of_nat (S n)) with (Z.succ (Z.of_nat n)) by lia.
  rewrite seqZ_cons, Z.pred_succ by lia. cbn [List.filter].
  assert (is_entry s pid i = negb ((typ d =? VN_FREE) || negb (parent d =? pid))) as ->
    by (unfold is_entry; rewrite Hd; by destruct (typ d =? VN_FREE), (parent d =? pid)).
  destruct (_ || _); cbn [negb].
  { rewrite <- Z.add_1_r. apply IH; lia. }
  destruct (Z.eqb_spec seen index) as [->|]; cbn [negb].
  - wp_run. rewrite Z.sub_diag. split; [done|].
    transitivity (dirent_of s i); [|done]. unfold dirent_of. by rewrite Hd.
  - rewrite <- Z.add_1_r. wp_use IH; [lia|lia|lia|]. intros r s' [-> ->]. split; [done|].
    f_equal. unfold zget. rewrite !decide_True by lia.
    replace (Z.to_nat (index - seen)) with (S (Z.to_nat (index - (seen + 1)))) by lia. done.
Qed.

Definition list_spec (s : tmpfs) (dir : list Z) (index : Z) : option dirent :=
  let pid := resolve_spec s dir in
  if node_typ s pid =? VN_DIR then zget (entries s pid) index ≫= dirent_of s else None.

Lemma wp_list_dir s dir index :
  fs_ok s → 0 ≤ index →
  wp (list_dir dir index) (λ r s', s' = s ∧ r = list_spec s dir index) s.
Proof.
  intros Hok Hx. unfold list_dir, list_spec, node_typ. wp_run. wp_use wp_resolve; [done|].
  intros r s' [-> ->]. pose proof (resolve_range s dir Hok) as Hr.
  destruct (Z.ltb_spec (resolve_spec s dir) 0).
  { wp_run. by rewrite (proj2 (zget_None _ _)) by lia. }
  fs_node Hok (resolve_spec s dir) d Hd. wp_run. apply wp_aget. exists d. split; [done|].
  rewrite Hd. destruct (typ d =? VN_DIR); cbn [negb]; [|by wp_run].
  wp_use wp_list_from; [done|done|done|done|]. intros r s' [-> ->]. by rewrite Z.sub_0_r.
Qed.

Lemma wp_node_of_path {A} s path (f : tnode → A) (a : A) :
  fs_ok s →
  wp (id ← resolve path; if id <? 0 then mret a else d ← aget nodes id; mret (f d))
     (λ r s', s' = s ∧ r = from_option f a (zget (nodes s) (resolve_spec s path))) s.
Proof.
  intros Hok. wp_run. wp_use wp_resolve; [done|]. intros r s' [-> ->].
  pose proof (resolve_range s path Hok) as Hr. destruct (Z.ltb_spec (resolve_spec s path) 0).
  - wp_run. by rewrite (proj2 (zget_None _ _)) by lia.
  - fs_node Hok (resolve_spec s path) d Hd. wp_run. apply wp_aget. exists d. split; [done|].
    wp_run. by rewrite Hd.
Qed.

Lemma wp_path_type s path :
  fs_ok s →
  wp (path_type path) (λ r s', s' = s ∧ r = node_typ s (resolve_spec s path)) s.
Proof. intros Hok. by apply (wp_node_of_path s path typ VN_FREE). Qed.

Lemma wp_path_size s path :
  fs_ok s →
  wp (path_size path) (λ r s', s' = s ∧
    r = match zget (nodes s) (resolve_spec s path) with
        | Some d => if typ d =? VN_FILE then size d else -1
        | None => -1
        end) s.
Proof.
  intros Hok. unfold path_size. wp_run. wp_use wp_resolve; [done|]. intros r s' [-> ->].
  pose proof (resolve_range s path Hok) as Hr. destruct (Z.ltb_spec (resolve_spec s path) 0).
  - wp_run. by rewrite (proj2 (zget_None _ _)) by lia.
  - fs_node Hok (resolve_spec s path) d Hd. wp_run. apply wp_aget. exists d. split; [done|].
    rewrite Hd. by destruct (typ d =? VN_FILE); wp_run.
Qed.

(** Every operation keeps the invariant and the names unique. *)
Definition good (s : tmpfs) : Prop := fs_ok s ∧ names_unique s.

Lemma insert_good s par nm t :
  good s → 0 ≤ par < TN_MAX → t = VN_FILE ∨ t = VN_DIR → nul_free nm →
  zlen nm < VFS_NAME_MAX → find_child s par nm = None →
  good (insert_spec s par nm t).2.
Proof.
  intros [Hok Hu] Hpar Ht Hn Hl Hnone. split; [by apply insert_spec_ok|].
  destruct (free_slot s) as [i|] eqn:Hf; [|unfold insert_spec; by rewrite Hf].
  eapply insert_extends; try done. by destruct Ht as [-> | ->].
Qed.

Lemma mkdir_good s path : good s → nul_free path → good (mkdir_spec s path).2.
Proof.
  intros Hg Hn. pose proof Hg as [Hok Hu]. unfold mkdir_spec.
  destruct (parent_spec s path) as [[par leaf]|] eqn:Hp; [|done].
  destruct (parent_spec_some _ _ _ _ Hok Hp) as (Hpar & Hl & _).
  destruct (find_child s par leaf) eqn:Hc; [done|].
  pose proof (parent_spec_nul_free _ _ _ _ Hn Hp).
  pose proof (insert_good s par leaf VN_DIR Hg Hpar) as Hi.
  destruct (insert_spec s par leaf VN_DIR) as [i s'].
  destruct (i <? 0); apply Hi; auto; lia.
Qed.

Lemma create_good s path data : good s → nul_free path → good (create_spec s path data).2.
Proof.
  intros Hg Hn. pose proof Hg as [Hok Hu]. split; [by apply create_spec_ok|].
  unfold create_spec. destruct (parent_spec s path) as [[par leaf]|] eqn:Hp; [|done].
  destruct (parent_spec_some _ _ _ _ Hok Hp) as (Hpar & Hl & _).
  destruct (find_child s par leaf) as [c|] eqn:Hc.
  - destruct (_ =? _); [|done]. eapply names_unique_tree; [apply contents_spec_tree|done].
  - pose proof (parent_spec_nul_free _ _ _ _ Hn Hp).
    destruct (insert_good s par leaf VN_FILE Hg Hpar) as [_ Hi]; [by left|done|lia|done|].
    destruct (insert_spec s par leaf VN_FILE) as [i s']. destruct (i <? 0); [done|].
    eapply names_unique_tree; [apply contents_spec_tree|done].
Qed.

(** Removing the only entry of node [i]. *)
Lemma entry_removed s i d :
  zlen (nodes s) = TN_MAX → 1 ≤ i < TN_MAX → zget (nodes s) i = Some d → typ d ≠ VN_FREE →
  names_unique s →
  let s' := put s i (with_typ VN_FREE d) in
  find_child s' (parent d) (name_bytes (name d)) = None ∧
  (∀ p n, (p, n) ≠ (parent d, name_bytes (name d)) → find_child s' p n = find_child s p n) ∧
  names_unique s'.
Proof.
  intros Hlen Hi Hd Ht Hu s'.
  assert (∀ p n j, is_child s' p n j = if decide (i = j) then false else is_child s p n j) as Hc.
  { intros p n j. unfold s', put, set_nodes. rewrite is_child_put by lia. by case_decide. }
  assert (∀ p n, is_child s p n i = bool_decide ((p, n) = (parent d, name_bytes (name d)))) as Hci.
  { intros p n. unfold is_child. rewrite Hd, (proj2 (Z.eqb_neq _ _)) by done. simpl.
    destruct (Z.eqb_spec (parent d) p); simpl.
    - subst. apply bool_decide_ext. split; [by intros <-|by intros [=]].
    - symmetry. apply bool_decide_false. congruence. }
  split_and!.
  - apply find_first_None. intros j Hj. rewrite Hc. case_decide as Hij; [done|].
    destruct (is_child s _ _ j) eqn:E; [|done]. exfalso. apply Hij.
    eapply (Hu _ _ i j); [done|done| |exact E]. rewrite Hci. by apply bool_decide_true.
  - intros p n Hne. apply find_child_ext. intros j Hj. rewrite Hc. case_decide; [|done].
    subst. rewrite Hci. symmetry. by apply bool_decide_false.
  - intros p n j k Hj Hk. rewrite !Hc. repeat case_decide; try done. by apply Hu.
Qed.

Lemma unlink_good s path : good s → good (unlink_spec s path).2.
Proof.
  intros [Hok Hu]. split; [by apply unlink_spec_ok|]. unfold unlink_spec.
  pose proof (resolve_range s path Hok). destruct (zget _ _) as [d|] eqn:Hd; [|done].
  destruct (Z.ltb_spec 0 (resolve_spec s path)); [|done].
  destruct (Z.eqb_spec (typ d) VN_FILE) as [Ht|]; simpl; [|done].
  apply entry_removed; [apply (ok_len _ Hok)|lia|done|by rewrite Ht|done].
Qed.

Lemma free_names_unique s i d :
  zlen (nodes s) = TN_MAX → 1 ≤ i < TN_MAX → typ d = VN_FREE → names_unique s →
  names_unique (put s i d).
Proof.
  intros Hl Hi Hd Hu p n j k Hj Hk. unfold put, set_nodes. rewrite !is_child_put, Hd by lia.
  simpl. repeat case_decide; try done. by apply Hu.
Qed.

(** A node that [resolve] found is live unless it is a parent of an entry
    made below a file since removed; such a node stays free. *)
Lemma rename_good s oldp newp : good s → nul_free newp → good (rename_spec s oldp newp).2.
Proof.
  intros [Hok Hu] Hn. split; [by apply rename_spec_ok|]. unfold rename_spec.
  pose proof (resolve_range s oldp Hok) as Hr.
  set (id := resolve_spec s oldp) in *. destruct (zget (nodes s) id) as [d|] eqn:Hd; [|done].
  destruct (parent_spec s newp) as [[par leaf]|] eqn:Hp; [|done].
  destruct (parent_spec_some _ _ _ _ Hok Hp) as (Hpar & Hl & _ & _).
  pose proof (parent_spec_nul_free _ _ _ _ Hn Hp).
  destruct (Z.ltb_spec 0 id); [|done]. destruct (find_child s par leaf) eqn:Hc; [done|]. simpl.
  destruct (decide (typ d = VN_FREE)).
  - apply free_names_unique; [apply (ok_len _ Hok)|lia|done|done].
  - destruct (entry_added s id (with_name (name_array leaf) (with_parent par d)) (pool s)
      (pool_used s) par leaf) as (_ & _ & Hkeep); auto.
    + apply (ok_len _ Hok).
    + lia.
    + simpl. apply name_bytes_array; [done|lia].
Qed.

Lemma wp_spec_good {A} (m : M tmpfs A) s spec (Q : unit → tmpfs → Prop) :
  wp m (λ r s', (r, s') = spec) s → Q tt spec.2 → wp (_ ← m; mret tt) Q s.
Proof. intros Hm HQ. apply wp_bind. eapply wp_mono; [exact Hm|]. by intros r s' <-. Qed.

Lemma wp_run_op o s : good s → op_ok o → wp (run_op o) (λ _ s', good s') s.
Proof.
  intros Hg Ho. pose proof Hg as [Hok Hu]. destruct o; simpl in *.
  - eapply wp_spec_good; [by apply wp_mkdir|by apply mkdir_good].
  - destruct Ho. eapply wp_spec_good; [by apply wp_create|by apply create_good].
  - eapply wp_spec_good; [by apply wp_unlink|by apply unlink_good].
  - eapply wp_spec_good; [by apply wp_rename|by apply rename_good].
  - destruct Ho. eapply wp_spec_good; [by apply wp_node_write|].
    destruct (file_data s id) as [old|] eqn:Hf.
    + pose proof (write_spec_ok s id o buf old Hok) as H'.
      destruct (write_spec s id o buf) as [r s']. destruct H' as (H1 & H2 & _); [done..|].
      split; [done|]. by eapply names_unique_tree.
    + unfold file_data, write_spec in *. by destruct (is_file s id).
  - destruct Ho. wp_run. wp_use wp_node_read; [done|done|done|]. by intros r s' [-> _].
  - wp_run. wp_use wp_path_type; [done|]. intros r s' [-> _]. wp_run.
    wp_use wp_path_size; [done|]. by intros ? s' [-> _].
  - wp_run. wp_use wp_list_dir; [done|done|]. by intros r s' [-> _].
Qed.

Lemma wp_run_ops ops s : good s → Forall op_ok ops → wp (run_ops ops) (λ _ s', good s') s.
Proof.
  intros Hg Hops. revert s Hg. induction Hops as [|o ops Ho Hops IH]; intros s Hg; [done|].
  simpl. wp_run. wp_use wp_run_op; [done|done|]. intros [] s' Hg'. by apply IH.
Qed.

Lemma root_only_good m : good (root_only m).
Proof.
  split; [apply root_only_ok|]. intros p n i j Hi Hj. unfold is_child.
  destruct (zget (nodes (root_only m)) i) as [d|] eqn:Hd; [|done].
  apply root_only_get in Hd as ->. by rewrite decide_False by lia.
Qed.

(** ** Properties *)

(** C26: on a well-formed tree, [resolve] and [resolve_parent] return (no fuel
    runs out, no index is out of range) exactly what splitting the path at its
    slashes and walking the components gives, and change nothing. *)
Theorem resolve_is_walk s path :
  fs_ok s →
  resolve path s = Done (resolve_spec s path, s) ∧
  resolve_parent path s = Done (as_leaf (parent_spec s path), s).
Proof.
  intros Hok. split; apply wp_computes.
  - wp_use wp_resolve; [done|]. by intros r s' [-> ->].
  - wp_use wp_resolve_parent; [done|]. by intros r s' [-> ->].
Qed.

(** C8: any sequence of operations from [init], whatever the paths, node
    numbers, offsets and data, runs without a panic and keeps the invariant:
    no two files share pool bytes, every extent lies in the allocated part of
    the pool, and no directory has two entries of one name. *)
Theorem tmpfs_safe s ops :
  Forall op_ok ops → wp (init;; run_ops ops) (λ _ s', fs_ok s' ∧ names_unique s') s.
Proof.
  intros Hops. wp_run. wp_use wp_init. intros [] s' ->.
  apply wp_run_ops; [apply (root_only_good (pool s))|done].
Qed.

Lemma wp_node_splice s id o buf old :
  fs_ok s → 0 ≤ o → buf_ok buf → file_data s id = Some old →
  wp (node_write id o buf) (λ r s',
    fs_ok s' ∧ same_tree s s' ∧
    if (zlen old <? o) || (zlen old <? o + zlen buf) && (TN_POOL <? pool_used s + o + zlen buf)
    then r = -1 ∧ s' = s
    else r = zlen buf ∧ file_data s' id = Some (splice old o buf) ∧
         ∀ j, j ≠ id → file_data s' j = file_data s j) s.
Proof.
  intros Hok Ho Hbuf Hf. wp_use wp_node_write; [done|done|done|]. intros r s' Heq.
  pose proof (write_spec_ok s id o buf old Hok Ho Hf) as H. rewrite <- Heq in H.
  destruct H as (H1 & H2 & H3). split_and!; [done|done|].
  unfold write_spec in Heq. unfold file_data in Hf.
  destruct (is_file s id) as [d|] eqn:Hd; simpl in Hf; [|done]. injection Hf as <-.
  pose proof (is_file_ok _ _ _ Hok Hd) as (Hid & Hoff & Hsz & Hend).
  assert (zlen (contents s d) = size d) as Hc by (by apply zlen_load_bytes).
  rewrite Hc in *. pose proof (zlen_nonneg buf).
  destruct (Z.ltb_spec (size d) o); simpl; [injection Heq as -> ->; done|].
  destruct (Z.ltb_spec (size d) (o + zlen buf)); simpl.
  - rewrite (proj2 (Z.leb_gt (o + zlen buf) _)) in Heq by lia.
    destruct (Z.ltb_spec TN_POOL (pool_used s + o + zlen buf)).
    + rewrite (proj2 (Z.leb_gt _ TN_POOL)) in Heq by lia. by injection Heq as -> ->.
    + rewrite (proj2 (Z.leb_le _ TN_POOL)) in Heq by lia. injection Heq as -> ->.
      destruct H3 as [[? _]|H3]; [lia|done].
  - rewrite (proj2 (Z.leb_le (o + zlen buf) _)) in Heq by lia. injection Heq as -> ->.
    destruct H3 as [[? _]|H3]; [lia|done].
Qed.

(** [node_write] splices the buffer into the file, growing it as needed,
    and leaves the tree and every other file alone; it refuses (and changes
    nothing) exactly when the offset is past the end or the grown copy does
    not fit in the pool. *)
Theorem node_write_splices s id o buf old :
  fs_ok s → 0 ≤ o → buf_ok buf → file_data s id = Some old →
  wp (node_write id o buf) (λ r s',
    fs_ok s' ∧ same_tree s s' ∧
    if (zlen old <? o) || (zlen old <? o + zlen buf) && (TN_POOL <? pool_used s + o + zlen buf)
    then r = -1 ∧ s' = s
    else r = zlen buf ∧ file_data s' id = Some (splice old o buf) ∧
         ∀ j, j ≠ id → file_data s' j = file_data s j) s.
Proof. apply wp_node_splice. Qed.

(** a successful write followed by a read of as many bytes at the same
    offset gives the bytes back. *)
Theorem write_read_roundtrip s id o buf out :
  fs_ok s → 0 ≤ o → buf_ok buf → file_data s id ≠ None → zlen out = zlen buf →
  wp (r ← node_write id o buf; x ← node_read id o out; mret (r, x))
     (λ '(r, x) _, r = -1 ∨ (r = zlen buf ∧ x = (zlen buf, buf))) s.
Proof.
  intros Hok Ho Hbuf Hf Hout. destruct (file_data s id) as [old|] eqn:Hold; [|done].
  wp_run. wp_use wp_node_write; [done|done|done|]. intros r s' Heq.
  pose proof (write_spec_ok s id o buf old Hok Ho Hold) as H. rewrite <- Heq in H.
  destruct H as (Hok' & _ & H3). wp_run.
  wp_use wp_node_read; [done|done|unfold buf_ok in *; lia|]. intros x s'' [-> ->]. wp_run.
  destruct H3 as [[-> _]|(-> & Hnew & _)]; [by left|right]. split; [done|].
  assert (0 ≤ o ≤ zlen old) as Hle.
  { unfold write_spec in Heq. unfold file_data in Hold.
    destruct (is_file s id) as [d|] eqn:Hd; simpl in Hold; [|done]. injection Hold as <-.
    pose proof (is_file_ok _ _ _ Hok Hd) as (? & ? & ? & ?).
    assert (zlen (contents s d) = size d) as -> by (by apply zlen_load_bytes).
    destruct (Z.ltb_spec (size d) o); [|lia]. injection Heq. pose proof (zlen_nonneg buf). lia. }
  unfold read_spec. rewrite Hnew, zlen_splice by done. pose proof (zlen_nonneg buf).
  rewrite Hout, Z.min_l by lia.
  assert (slice o (zlen buf) (splice old o buf) = buf) as ->.
  { unfold slice, splice. rewrite drop_app_length'.
    - apply take_app_length'. unfold zlen. lia.
    - rewrite length_take. unfold zlen in Hle. lia. }
  do 2 f_equal. rewrite drop_ge; [by rewrite app_nil_r|]. unfold zlen in Hout. lia.
Qed.

(** [mkdir] only adds to the tree. *)
Lemma mkdir_extends s path :
  fs_ok s → nul_free path → let s' := (mkdir_spec s path).2 in
  tree_extends s s' ∧ ∀ j, file_data s' j = file_data s j.
Proof.
  intros Hok Hn. unfold mkdir_spec. destruct (parent_spec s path) as [[par leaf]|] eqn:Hp; [|done].
  destruct (find_child s par leaf) as [c|] eqn:Hc; [done|].
  destruct (parent_spec_some _ _ _ _ Hok Hp) as (Hpar & Hl & _ & _).
  pose proof (parent_spec_nul_free _ _ _ _ Hn Hp) as Hnl.
  destruct (free_slot s) as [i|] eqn:Hf; [|by unfold insert_spec; rewrite Hf].
  destruct (insert_extends s par leaf VN_DIR i Hok) as (He & _ & _); [done|done|lia|done|done|].
  pose proof (insert_spec_typ s par leaf VN_DIR i Hok Hf) as Ht.
  pose proof (insert_spec_data s par leaf VN_DIR i) as Hdata.
  destruct (insert_spec s par leaf VN_DIR) as [k s1]. simpl in *.
  replace ((if k <? 0 then (-1, s1) else (0, s1)).2) with s1 by (by destruct (k <? 0)).
  split; [done|]. intros j. destruct (decide (i = j)) as [<-|]; [|by apply Hdata].
  pose proof (free_slot_free _ _ Hf) as Hfr. unfold file_data, is_file, node_typ in *.
  destruct (zget (nodes s) i) as [d|], (zget (nodes s1) i) as [d'|]; simpl; try done;
    rewrite ?Hfr, ?Ht; by destruct (0 <? i).
Qed.

(** [mkdir] of a new name below a directory, with a node to spare, makes
    the path resolve to a fresh, empty directory and leaves the resolution of
    every existing path as it was. *)
Theorem mkdir_makes_directory s path par leaf i :
  fs_ok s → nul_free path → parent_spec s path = Some (par, leaf) →
  node_typ s par = VN_DIR → find_child s par leaf = None → free_slot s = Some i →
  wp (mkdir path) (λ r s',
    r = 0 ∧ resolve_spec s' path = i ∧ node_typ s' i = VN_DIR ∧
    (∀ q, 0 ≤ resolve_spec s q → resolve_spec s' q = resolve_spec s q) ∧
    (∀ j, file_data s' j = file_data s j)) s.
Proof.
  intros Hok Hn Hp Hdir Hc Hf. wp_use wp_mkdir; [done|].
  destruct (mkdir_extends s path Hok Hn) as [_ Hdata]. unfold mkdir_spec in *. rewrite Hp, Hc in *.
  destruct (parent_spec_some _ _ _ _ Hok Hp) as (Hpar & Hl & _ & _).
  pose proof (parent_spec_nul_free _ _ _ _ Hn Hp) as Hnl.
  destruct (insert_extends s par leaf VN_DIR i Hok) as (He & Hc' & _); [done|done|lia|done|done|].
  pose proof (insert_spec_typ s par leaf VN_DIR i Hok Hf) as Ht.
  pose proof (free_slot_range _ _ Hf) as Hi.
  assert ((insert_spec s par leaf VN_DIR).1 = i) as Hid by (unfold insert_spec; by rewrite Hf).
  destruct (insert_spec s par leaf VN_DIR) as [k s1]. simpl in *. subst k.
  rewrite (proj2 (Z.ltb_ge i 0)) in * by lia. intros r s' [= -> ->].
  split_and!; [done| |done| |exact Hdata].
  - eapply (resolve_leaf s); [done|done|done| |done].
    destruct He as [Hty _]. by destruct (Hty par) as [-> _]; [rewrite Hdir|].
  - intros q Hq. by apply resolve_extends.
Qed.

Lemma create_spec_stores s path data r s' :
  fs_ok s → nul_free path → buf_ok data → (r, s') = create_spec s path data →
  r = -1 ∨ ∃ par leaf, parent_spec s path = Some (par, leaf) ∧
    file_data s' r = Some data ∧ (∀ j, j ≠ r → file_data s' j = file_data s j) ∧
    tree_extends s s' ∧ find_child s' par leaf = Some r.
Proof.
  intros Hok Hn Hbuf Heq. unfold create_spec in Heq.
  destruct (parent_spec s path) as [[par leaf]|] eqn:Hp; [|injection Heq as -> ->; by left].
  destruct (parent_spec_some _ _ _ _ Hok Hp) as (Hpar & Hl & _ & _).
  assert (∀ s0 id, fs_ok s0 → tree_extends s s0 → 1 ≤ id < TN_MAX → node_typ s0 id = VN_FILE →
    find_child s0 par leaf = Some id → (∀ j, j ≠ id → file_data s0 j = file_data s j) →
    (r, s') = contents_spec s0 id data → r = -1 ∨ ∃ p l, Some (par, leaf) = Some (p, l) ∧
      file_data s' r = Some data ∧ (∀ j, j ≠ r → file_data s' j = file_data s j) ∧
      tree_extends s s' ∧ find_child s' p l = Some r) as Hfin.
  { intros s0 id Hok0 He Hid Ht Hc Hd Heq0.
    pose proof (contents_spec_tree s0 id data) as Htree.
    destruct (Z.le_gt_cases (pool_used s0 + zlen data) TN_POOL) as [Hle|Hgt].
    - right. exists par, leaf. pose proof (contents_spec_data s0 id data Hok0 Hid Ht Hle) as H.
      rewrite <- Heq0 in H, Htree. destruct H as (-> & Hdata & Hoth). simpl in Htree.
      split_and!; [done|done| |by eapply tree_extends_same|by rewrite (find_child_tree s0)].
      intros j Hj. rewrite Hoth, Hd by done. done.
    - unfold contents_spec in Heq0. rewrite (proj2 (Z.leb_gt _ _)) in Heq0 by done.
      destruct (zget (nodes s0) id); injection Heq0 as -> ->; by left. }
  destruct (find_child s par leaf) as [c|] eqn:Hc.
  - destruct (Z.eqb_spec (node_typ s c) VN_FILE); [|injection Heq as -> ->; by left].
    apply (Hfin s c); try done. by eapply find_child_range.
  - pose proof (parent_spec_nul_free _ _ _ _ Hn Hp) as Hnl.
    destruct (free_slot s) as [i|] eqn:Hf; [|unfold insert_spec in Heq; rewrite Hf in Heq;
      injection Heq as -> ->; by left].
    destruct (insert_extends s par leaf VN_FILE i Hok) as (He & Hc' & _); [done|done|lia|done|done|].
    pose proof (insert_spec_typ s par leaf VN_FILE i Hok Hf) as Ht.
    pose proof (free_slot_range _ _ Hf) as Hi.
    pose proof (insert_spec_data s par leaf VN_FILE i) as Hdata.
    destruct (insert_spec_ok s par leaf VN_FILE Hok Hpar) as [Hok' _]; [by left|].
    assert ((insert_spec s par leaf VN_FILE).1 = i) as Hid by (unfold insert_spec; by rewrite Hf).
    destruct (insert_spec s par leaf VN_FILE) as [k s1]. simpl in *. subst k.
    rewrite (proj2 (Z.ltb_ge i 0)) in Heq by lia. apply (Hfin s1 i); try done.
    intros j Hj. by apply Hdata.
Qed.

(** [create] returns -1, or a node that holds exactly the data, every
    other file keeping its bytes; below a directory the path then resolves to
    that node and the existing paths resolve as before. *)
Theorem create_stores_data s path data :
  fs_ok s → nul_free path → buf_ok data →
  wp (create path data) (λ id s',
    id = -1 ∨
    file_data s' id = Some data ∧ (∀ j, j ≠ id → file_data s' j = file_data s j) ∧
    (∀ q, 0 ≤ resolve_spec s q → resolve_spec s' q = resolve_spec s q) ∧
    (∀ par leaf, parent_spec s path = Some (par, leaf) → node_typ s par = VN_DIR →
       resolve_spec s' path = id)) s.
Proof.
  intros Hok Hn Hbuf. wp_use wp_create; [done|done|]. intros r s' Heq.
  destruct (create_spec_stores s path data r s') as [|(par & leaf & Hp & Hd & Ho & He & Hc)]; [done..|by left|right].
  split_and!; [done|done| |].
  - intros q Hq. by apply resolve_extends.
  - intros p l Hpl Hdir. rewrite Hp in Hpl. injection Hpl as <- <-.
    eapply (resolve_leaf s); [done|done|done| |done].
    destruct He as [Hty _]. by destruct (Hty par) as [-> _]; [rewrite Hdir|].
Qed.

Lemma resolve_attached s path :
  0 ≤ resolve_spec s path → attached s (resolve_spec s path).
Proof.
  unfold resolve_spec. destruct (absolute path) as [comps|]; [|done].
  destruct (walk s 0 comps) as [c|] eqn:Hw; simpl; [|done]. intros _.
  eapply walk_attached; [apply att_root|done].
Qed.

Lemma put_put s i d e : put (put s i d) i e = put s i e.
Proof. unfold put, set_nodes. simpl. by rewrite zset_zset. Qed.

Lemma entry_moved s i d par nm :
  good s → 1 ≤ i < TN_MAX → zget (nodes s) i = Some d → typ d ≠ VN_FREE →
  find_child s par nm = None → nul_free nm → zlen nm < VFS_NAME_MAX →
  let s' := put s i (with_name (name_array nm) (with_parent par d)) in
  find_child s' par nm = Some i ∧
  find_child s' (parent d) (name_bytes (name d)) = None ∧
  (∀ p n, (p, n) ≠ (par, nm) → (p, n) ≠ (parent d, name_bytes (name d)) →
     find_child s' p n = find_child s p n).
Proof.
  intros [Hok Hu] Hi Hd Ht Hnone Hn Hl s'. pose proof (ok_len _ Hok) as Hlen.
  assert ((par, nm) ≠ (parent d, name_bytes (name d))) as Hne.
  { intros [= -> ->]. apply (find_child_none_is _ _ _ i) in Hnone; [|done].
    unfold is_child in Hnone. rewrite Hd, (proj2 (Z.eqb_neq _ _)), Z.eqb_refl in Hnone by done.
    by rewrite bool_decide_true in Hnone. }
  destruct (entry_removed s i d) as (Hold & Hoth & _); [done|done|done|done|done|].
  set (s1 := put s i (with_typ VN_FREE d)) in *.
  assert (zget (nodes s1) i = Some (with_typ VN_FREE d)) as Hd1 by (apply zget_zset_eq; lia).
  destruct (entry_added s1 i (with_name (name_array nm) (with_parent par d)) (pool s1)
    (pool_used s1) par nm) as (Hc & Hoth1 & _); [|done|done|done|by apply name_bytes_array| |].
  { unfold s1. simpl. by rewrite zlen_zset. }
  { by rewrite Hoth. }
  change (mkFs (zset (nodes s1) i _) _ _)
    with (put s1 i (with_name (name_array nm) (with_parent par d))) in Hc, Hoth1.
  assert (put s1 i (with_name (name_array nm) (with_parent par d)) = s') as Heq by apply put_put.
  rewrite Heq in Hc, Hoth1.
  assert (∀ p n, is_child s1 p n i = false) as Hfree
    by (intros p n; apply free_not_child; unfold node_typ; by rewrite Hd1).
  split_and!; [done| |].
  - by rewrite Hoth1.
  - intros p n H1 H2. rewrite Hoth1 by done. by apply Hoth.
Qed.

(** [unlink] of a path that names a file frees its node: no path resolves
    to it any more, no path resolves to anything it did not resolve to before,
    every other directory entry and file stays; otherwise it is refused and
    nothing changes. *)
Theorem unlink_removes s path :
  good s →
  wp (unlink path) (λ r s', good s' ∧
    match is_file s (resolve_spec s path) with
    | None => r = -1 ∧ s' = s
    | Some d =>
        r = 0 ∧ (∀ q, resolve_spec s' q ≠ resolve_spec s path) ∧
        (∀ q, 0 ≤ resolve_spec s' q → resolve_spec s q = resolve_spec s' q) ∧
        (∀ p n, (p, n) ≠ (parent d, name_bytes (name d)) →
           find_child s' p n = find_child s p n) ∧
        (∀ j, j ≠ resolve_spec s path → file_data s' j = file_data s j)
    end) s.
Proof.
  intros Hg. pose proof Hg as [Hok Hu]. wp_use wp_unlink; [done|]. intros r s' Heq.
  pose proof (unlink_good s path Hg) as Hg'. rewrite <- Heq in Hg'. split; [done|].
  simpl in Hg'. destruct Hg' as [Hok' _]. unfold unlink_spec in Heq. unfold is_file.
  pose proof (resolve_range s path Hok) as Hr. set (id := resolve_spec s path) in *.
  destruct (zget (nodes s) id) as [d|] eqn:Hd; simpl; [|by injection Heq as -> ->].
  destruct (Z.ltb_spec 0 id), (Z.eqb_spec (typ d) VN_FILE) as [Ht|]; simpl in *;
    try (by injection Heq as -> ->).
  injection Heq as -> ->. pose proof (ok_len _ Hok) as Hlen.
  destruct (entry_removed s id d) as (Hold & Hoth & _); [done|lia|done|by rewrite Ht|done|].
  split_and!; [done| | |done|].
  - intros q Hq. pose proof (resolve_attached (put s id (with_typ VN_FREE d)) q) as Ha.
    rewrite Hq in Ha. apply (attached_live _ _ Hok' (Ha ltac:(lia))). unfold put, set_nodes.
    by rewrite node_typ_put, decide_True by (done || lia).
  - intros q Hq. apply resolve_extends; [done| |done]. split.
    + intros i. unfold put, set_nodes. rewrite node_typ_put by lia. case_decide; [done|].
      intros _. split; [done|]. simpl. by rewrite zget_zset_ne by lia.
    + intros p n c Hc. rewrite <- Hoth; [done|]. intros Hkey. injection Hkey as -> ->.
      by rewrite Hold in Hc.
  - intros j Hj. by apply file_data_other; [lia|congruence|].
Qed.

(** C31: [rename] of an existing node (not the root) to a free name moves its
    directory entry: the new name leads to the node, the old one to nothing,
    all other entries are as before, and so are the contents of every file;
    otherwise it is refused and nothing changes. *)
Theorem rename_moves_entry s oldp newp :
  good s → nul_free newp →
  wp (rename oldp newp) (λ r s', good s' ∧ (∀ j, file_data s' j = file_data s j) ∧
    let id := resolve_spec s oldp in
    match zget (nodes s) id, parent_spec s newp with
    | Some d, Some (par, leaf) =>
        if bool_decide (0 < id ∧ find_child s par leaf = None) then
          r = 0 ∧ find_child s' par leaf = Some id ∧
          find_child s' (parent d) (name_bytes (name d)) = None ∧
          (∀ p n, (p, n) ≠ (par, leaf) → (p, n) ≠ (parent d, name_bytes (name d)) →
             find_child s' p n = find_child s p n)
        else r = -1 ∧ s' = s
    | _, _ => r = -1 ∧ s' = s
    end) s.
Proof.
  intros Hg Hn. pose proof Hg as [Hok Hu]. wp_use wp_rename; [done|]. intros r s' Heq.
  pose proof (rename_good s oldp newp Hg Hn) as Hg'. rewrite <- Heq in Hg'.
  split; [done|]. clear Hg'. unfold rename_spec in Heq. cbv zeta.
  pose proof (resolve_range s oldp Hok) as Hr.
  pose proof (resolve_attached s oldp) as Hatt. set (id := resolve_spec s oldp) in *.
  destruct (zget (nodes s) id) as [d|] eqn:Hd; [|by injection Heq as -> ->].
  destruct (parent_spec s newp) as [[par leaf]|] eqn:Hp; [|by injection Heq as -> ->].
  destruct (Z.ltb_spec 0 id).
  2: { rewrite bool_decide_false by lia. by injection Heq as -> ->. }
  destruct (find_child s par leaf) as [c|] eqn:Hc.
  { rewrite bool_decide_false by (by intros []). by injection Heq as -> ->. }
  rewrite bool_decide_true by done. injection Heq as -> ->.
  destruct (parent_spec_some _ _ _ _ Hok Hp) as (Hpar & Hl & _ & _).
  pose proof (parent_spec_nul_free _ _ _ _ Hn Hp). pose proof (ok_len _ Hok) as Hlen.
  split.
  - intros j. destruct (decide (j = id)) as [->|]; [|by apply file_data_other; [lia|congruence|]].
    unfold file_data, is_file. simpl. rewrite zget_zset_eq, Hd by lia. simpl.
    by destruct (_ && _).
  - split; [done|]. apply entry_moved; try done; try lia.
    apply (attached_live s id Hok) in Hatt; [|lia]. by rewrite (node_typ_get _ _ _ Hd) in Hatt.
Qed.

(** [list] returns the entries of a directory in node order, each once,
    and [None] past the end or when the path is not a directory. *)
Theorem list_enumerates s dir index :
  fs_ok s → 0 ≤ index → list_dir dir index s = Done (list_spec s dir index, s).
Proof.
  intros Hok Hi. apply wp_computes. wp_use wp_list_dir; [done|done|].
  by intros r s' [-> ->].
Qed.

(** nothing in [mkdir] or [resolve_parent] asks that the parent be a
    directory: below a plain file it reports success and takes a node, and the
    path it "made" does not resolve. *)
Theorem mkdir_below_file s path par leaf i :
  fs_ok s → nul_free path → parent_spec s path = Some (par, leaf) →
  node_typ s par = VN_FILE → find_child s par leaf = None → free_slot s = Some i →
  wp (mkdir path) (λ r s',
    r = 0 ∧ node_typ s i = VN_FREE ∧ node_typ s' i = VN_DIR ∧ resolve_spec s' path = -1) s.
Proof.
  intros Hok Hn Hp Hfile Hc Hf. wp_use wp_mkdir; [done|]. unfold mkdir_spec. rewrite Hp, Hc.
  destruct (parent_spec_some _ _ _ _ Hok Hp) as (Hpar & Hl & Hd1 & Hd2).
  pose proof (parent_spec_nul_free _ _ _ _ Hn Hp) as Hnl.
  destruct (insert_extends s par leaf VN_DIR i Hok) as (He & Hc' & _); [done|done|lia|done|done|].
  pose proof (insert_spec_typ s par leaf VN_DIR i Hok Hf) as Ht.
  pose proof (free_slot_range _ _ Hf) as Hi.
  assert ((insert_spec s par leaf VN_DIR).1 = i) as Hid by (unfold insert_spec; by rewrite Hf).
  destruct (insert_spec s par leaf VN_DIR) as [k s1]. simpl in *. subst k.
  rewrite (proj2 (Z.ltb_ge i 0)) by lia. intros r s' [= -> ->].
  split_and!; [done|by apply free_slot_free|done|].
  unfold parent_spec, leaf_from in Hp. unfold resolve_spec.
  destruct (absolute path) as [comps|]; simpl in *; [|done].
  destruct (last comps) as [l|] eqn:Hlast; simpl in Hp; [|done].
  destruct (_ || _); [done|]. destruct (walk s 0 (removelast comps)) as [dir|] eqn:Hw; [|done].
  injection Hp as -> ->. apply last_Some in Hlast as [l' ->].
  rewrite removelast_last in Hw. rewrite walk_app.
  rewrite (walk_extends _ _ _ _ _ Hok He (att_root s) Hw). simpl. unfold comp_step.
  rewrite !bool_decide_false by done. rewrite Z.geb_leb, (proj2 (Z.leb_gt _ _)) by lia.
  destruct He as [Hty _]. destruct (Hty par) as [Hpt _]; [by rewrite Hfile|].
  rewrite Hfile in Hpt. unfold node_typ in Hpt.
  destruct (zget (nodes s1) par) as [d|]; [|done]. by rewrite Hpt.
Qed.

(** when the data does not fit in the pool, [create] of a new name fails
    but leaves an empty file of that name behind. *)
Theorem create_full_leaves_file s path data par leaf i :
  fs_ok s → nul_free path → buf_ok data → parent_spec s path = Some (par, leaf) →
  node_typ s par = VN_DIR → find_child s par leaf = None → free_slot s = Some i →
  TN_POOL < pool_used s + zlen data →
  wp (create path data) (λ r s',
    r = -1 ∧ resolve_spec s' path = i ∧ file_data s' i = Some []) s.
Proof.
  intros Hok Hn Hbuf Hp Hdir Hc Hf Hfull. wp_use wp_create; [done|done|].
  unfold create_spec. rewrite Hp, Hc.
  destruct (parent_spec_some _ _ _ _ Hok Hp) as (Hpar & Hl & _ & _).
  pose proof (parent_spec_nul_free _ _ _ _ Hn Hp) as Hnl.
  destruct (insert_extends s par leaf VN_FILE i Hok) as (He & Hc' & _); [done|done|lia|done|done|].
  pose proof (free_slot_range _ _ Hf) as Hi. pose proof (ok_len _ Hok) as Hlen.
  unfold insert_spec in *. rewrite Hf in *. simpl in He, Hc'.
  rewrite (proj2 (Z.ltb_ge i 0)) by lia. unfold contents_spec. simpl.
  rewrite zget_zset_eq by lia. rewrite (proj2 (Z.leb_gt _ _)) by done.
  intros r s' [= -> ->]. split_and!; [done| |].
  - eapply (resolve_leaf s); [done|done|done| |done].
    destruct He as [Hty _]. by destruct (Hty par) as [-> _]; [rewrite Hdir|].
  - unfold put, set_nodes. by rewrite file_data_self by (done || lia).
Qed.

(** ** A concrete tree: [/d], [/d/f] holding three bytes *)
Definition p_d : list Z := [47; 100].
Definition p_f : list Z := [47; 100; 47; 102].
Definition p_g : list Z := [47; 103].
Definition demo_ops : list op := [OpMkdir p_d; OpCreate p_f [1; 2; 3]].
Definition demo_fs : tmpfs :=
  match run_ops demo_ops (root_only (λ _, 0)) with
  | Done (_, s) => s
  | _ => root_only (λ _, 0)
  end.

Lemma demo_ops_ok : Forall op_ok demo_ops.
Proof. repeat constructor; done. Qed.

Lemma demo_good : good demo_fs.
Proof.
  unfold demo_fs.
  pose proof (wp_run_ops demo_ops (root_only (λ _, 0)) (root_only_good _) demo_ops_ok) as H.
  unfold wp in H. by destruct (run_ops _ _) as [[a s]| |].
Qed.
Lemma demo_ok : fs_ok demo_fs.
Proof. apply demo_good. Qed.

Lemma nul_free_dec l : bool_decide (nul_free l) = true → nul_free l.
Proof. apply bool_decide_eq_true. Qed.

(** Paths, components and errors on that tree. *)
Example demo_resolve :
  (λ p, resolve_spec demo_fs p) <$>
    [[47]; p_d; p_f; [47; 100; 47; 46; 46; 47; 47; 100; 47; 102; 47]; p_g; [100]; []] =
  [0; 1; 2; 2; -1; -1; -1].
Proof. by vm_compute. Qed.

Lemma resolve_is_walk_witness :
  resolve p_f demo_fs = Done (2, demo_fs) ∧
  resolve_parent p_f demo_fs = Done (Some (1, name_array [102], 1), demo_fs).
Proof. exact (resolve_is_walk demo_fs p_f demo_ok). Defined.

Lemma tmpfs_safe_witness :
  wp (init;; run_ops demo_ops) (λ _ s', fs_ok s' ∧ names_unique s') demo_fs.
Proof. exact (tmpfs_safe demo_fs demo_ops demo_ops_ok). Defined.

Lemma demo_file : file_data demo_fs 2 = Some [1; 2; 3].
Proof. by vm_compute. Qed.

Lemma node_write_splices_witness :
  wp (node_write 2 2 [7; 8]) (λ r s', r = 2 ∧ file_data s' 2 = Some [1; 2; 7; 8]) demo_fs.
Proof.
  eapply wp_mono; [apply (node_write_splices demo_fs 2 2 [7; 8] [1; 2; 3] demo_ok)|].
  1-3: done.
  intros r s' (_ & _ & H). vm_compute in H. split; apply H.
Defined.

Lemma write_read_roundtrip_witness :
  wp (r ← node_write 2 1 [7; 8; 9]; x ← node_read 2 1 [0; 0; 0]; mret (r, x))
     (λ '(r, x) _, r = -1 ∨ (r = 3 ∧ x = (3, [7; 8; 9]))) demo_fs.
Proof.
  apply (write_read_roundtrip demo_fs 2 1 [7; 8; 9] [0; 0; 0] demo_ok); try done.
Defined.

Lemma mkdir_makes_directory_witness :
  wp (mkdir [47; 100; 47; 101]) (λ r s', r = 0 ∧ resolve_spec s' [47; 100; 47; 101] = 3) demo_fs.
Proof.
  eapply wp_mono.
  - apply (mkdir_makes_directory demo_fs [47; 100; 47; 101] 1 [101] 3 demo_ok);
      [by apply nul_free_dec|by vm_compute..].
  - intros r s' (H1 & H2 & _). exact (conj H1 H2).
Defined.

Lemma create_stores_data_witness :
  wp (create p_g [5]) (λ id s', id = -1 ∨ file_data s' id = Some [5]) demo_fs.
Proof.
  eapply wp_mono; [apply (create_stores_data demo_fs p_g [5] demo_ok)|].
  - by apply nul_free_dec.
  - done.
  - intros id s' [->|[H _]]; [by left|by right].
Defined.

Lemma unlink_removes_witness :
  wp (unlink p_f) (λ r s', r = 0 ∧ ∀ q, resolve_spec s' q ≠ 2) demo_fs.
Proof.
  eapply wp_mono; [apply (unlink_removes demo_fs p_f demo_good)|].
  replace (is_file demo_fs (resolve_spec demo_fs p_f)) with (zget (nodes demo_fs) 2)
    by (by vm_compute).
  replace (resolve_spec demo_fs p_f) with 2 by (by vm_compute).
  destruct (zget (nodes demo_fs) 2) eqn:E; [|by vm_compute in E].
  intros r s' (_ & H1 & H2 & _). exact (conj H1 H2).
Defined.

Lemma rename_moves_entry_witness :
  wp (rename p_f p_g) (λ r s', r = 0 ∧ find_child s' 0 [103] = Some 2 ∧
    find_child s' 1 [102] = None) demo_fs.
Proof.
  eapply wp_mono; [apply (rename_moves_entry demo_fs p_f p_g demo_good)|].
  - by apply nul_free_dec.
  - replace (resolve_spec demo_fs p_f) with 2 by (by vm_compute).
    replace (zget (nodes demo_fs) 2) with (Some (mkNode (name_array [102]) VN_FILE 1 0 3))
      by (by vm_compute).
    replace (parent_spec demo_fs p_g) with (Some (0, [103])) by (by vm_compute).
    cbv iota beta zeta. rewrite bool_decide_true by (split; by vm_compute).
    intros r s' H. apply proj2, proj2 in H. exact (conj (proj1 H) (conj (proj1 (proj2 H)) (proj1 (proj2 (proj2 H))))).
Defined.

Lemma list_enumerates_witness :
  list_dir p_d 0 demo_fs = Done (Some (mkDirent (name_array [102]) 3 VN_FILE), demo_fs).
Proof. apply (list_enumerates demo_fs p_d 0 demo_ok). done. Defined.

Lemma mkdir_below_file_witness :
  wp (mkdir (p_f ++ p_g)) (λ r s', r = 0 ∧ resolve_spec s' (p_f ++ p_g) = -1) demo_fs.
Proof.
  eapply wp_mono.
  - apply (mkdir_below_file demo_fs (p_f ++ p_g) 2 [103] 3 demo_ok);
      [by apply nul_free_dec|by vm_compute..].
  - intros r s' (H1 & _ & _ & H2). done.
Defined.

(** One byte more than the pool holds. *)
Definition big_data : list Z := replicate (Z.to_nat (TN_POOL - 2)) 0.

Lemma create_full_leaves_file_witness :
  wp (create p_g big_data) (λ r s', r = -1 ∧ resolve_spec s' p_g = 3) demo_fs.
Proof.
  assert (zlen big_data = TN_POOL - 2) as Hlen
    by (unfold big_data; rewrite zlen_replicate; unfold TN_POOL; lia).
  eapply wp_mono.
  - apply (create_full_leaves_file demo_fs p_g big_data 0 [103] 3 demo_ok).
    + by apply nul_free_dec.
    + unfold buf_ok. rewrite Hlen. unfold TN_POOL. lia.
    + by vm_compute. + by vm_compute. + by vm_compute. + by vm_compute.
    + rewrite Hlen. assert (pool_used demo_fs = 3) as -> by (by vm_compute). lia.
  - intros r s' (H1 & H2 & _). exact (conj H1 H2).
Defined.

End Tmpfs.
