(* ===== verification/Initrd.v ===== *)
(** * The initial RAM disk ([kernel-rs/src/fs/initrd.rs])

    A ustar archive is unpacked into tmpfs.  A [&str] is its bytes;
    [core::str::from_utf8] is the standard library's check.  Log lines are
    left out. *)
From S2P Require Import Prelude Mem Tmpfs.

Module Initrd.
Import Tmpfs.

(** ** [core::str::from_utf8] *)
(** The ranges the bytes after a lead byte must lie in. *)
Definition lead (b : Z) : option (list (Z * Z)) :=
  let c := (0x80, 0xBF) in
  if b <? 0x80 then Some []
  else if (0xC2 <=? b) && (b <=? 0xDF) then Some [c]
  else if b =? 0xE0 then Some [(0xA0, 0xBF); c]
  else if b =? 0xED then Some [(0x80, 0x9F); c]
  else if (0xE1 <=? b) && (b <=? 0xEF) then Some [c; c]
  else if b =? 0xF0 then Some [(0x90, 0xBF); c; c]
  else if (0xF1 <=? b) && (b <=? 0xF3) then Some [c; c; c]
  else if b =? 0xF4 then Some [(0x80, 0x8F); c; c]
  else None.
Fixpoint utf8_from (pend : list (Z * Z)) (l : list Z) : bool :=
  match l with
  | [] => bool_decide (pend = [])
  | b :: l =>
      match pend with
      | (lo, hi) :: pend => (lo <=? b) && (b <=? hi) && utf8_from pend l
      | [] => match lead b with Some pend => utf8_from pend l | None => false end
      end
  end.
Definition utf8 (l : list Z) : bool := utf8_from [] l.

(** ** The archive *)
(** The loop over the bytes before the first NUL. *)
Fixpoint octal_from (v : Z) (s : list Z) : Z :=
  match s with
  | [] => v
  | b :: s =>
      if b =? 0 then v
      else if negb ((48 <=? b) && (b <=? 55)) then v
      else octal_from (u64 (u64 (v * 8) + (b - 48))) s
  end.
Definition octal (s : list Z) : Z := octal_from 0 s.

(** [&l[a..b]]; out of range it panics. *)
Definition sub (a b : Z) (l : list Z) : M tmpfs (list Z) :=
  if (0 <=? a) && (a <=? b) && (b <=? zlen l) then mret (slice a (b - a) l) else panic.

(** [trim_end_matches('\0')] *)
Fixpoint trim_end (l : list Z) : list Z :=
  match l with
  | [] => []
  | b :: l => match trim_end l with [] => if b =? 0 then [] else [b] | l => b :: l end
  end.

(** [&path[..plen]] *)
Definition path_of (name : list Z) : list Z :=
  let n := Z.min (zlen name) 126 in
  let path := slash :: slice 0 n name in
  let plen := 1 + n in
  if (plen >? 1) && bool_decide (zget path (plen - 1) = Some slash) then slice 0 (plen - 1) path
  else path.

Definition ensure_parents (path : list Z) : M tmpfs unit :=
  for_each 1 (zlen path) (λ q,
    b ← of_option (zget path q);
    if not_slash b then mret tt
    else
      let sub := slice 0 q path in
      if negb (utf8 sub) then mret tt
      else
        t ← path_type sub;
        if t =? 0 then _ ← mkdir sub; mret tt else mret tt).

(** The entry at [p], and the counters after it. *)
Definition unpack_entry (base : list Z) (p : Z) (path : list Z) (fsize ftype : Z) (st : Z * Z)
    : M tmpfs (Z * Z) :=
  let '(files, dirs) := st in
  if ftype =? 53 then
    r ← mkdir path;
    mret (files, if r =? 0 then i32 (dirs + 1) else dirs)
  else if (ftype =? 48) || (ftype =? 0) then
    ensure_parents path;;
    let data_end := Z.min (u64 (u64 (p + 512) + fsize)) (zlen base) in
    data ← sub (u64 (p + 512)) data_end base;
    r ← create path data;
    mret (if r >=? 0 then i32 (files + 1) else files, dirs)
  else mret (files, dirs).

(** [p += 512 + (fsize + 511) & !511]: [&] binds weaker than [+]. *)
Definition next_block (p fsize : Z) : Z :=
  u64 (p + Z.land (u64 (512 + u64 (fsize + 511))) (u64_not 511)).

Definition tar_step (base : list Z) (st : Z * (Z * Z)) : M tmpfs ((Z * (Z * Z)) + (Z * Z)) :=
  let '(p, counts) := st in
  if u64 (p + 512) <=? zlen base then
    blk ← sub p (zlen base) base;
    b ← of_option (zget blk 0);
    if b =? 0 then mret (inr counts)
    else
      raw ← sub 0 100 blk;
      let name := trim_end (if utf8 raw then raw else []) in
      len ← sub 124 136 blk;
      let fsize := octal len in
      ftype ← of_option (zget blk 156);
      let path := path_of name in
      if negb (utf8 path) then mret (inl (next_block p fsize, counts))
      else
        counts ← unpack_entry base p path fsize ftype counts;
        mret (inl (next_block p fsize, counts))
  else mret (inr counts).

Definition tar_unpack (base : list Z) : M tmpfs Z :=
  c ← loop (S (length base)) (tar_step base) (0, (0, 0));
  mret (i32 (c.1 + c.2)).

(** [module_response]: the bytes of the loaded modules. *)
Definition unpack (resp : option (list (list Z))) : M tmpfs Z :=
  match resp with
  | None => mret 0
  | Some [] => mret 0
  | Some (m :: _) => tar_unpack m
  end.

(** ** Any bytes at all *)
(** Twelve octal digits are less than 2^36. *)
Lemma octal_from_bound s v k :
  0 ≤ v < 8 ^ k → 0 ≤ k → k + zlen s ≤ 20 → 0 ≤ octal_from v s < 8 ^ (k + zlen s).
Proof.
  revert v k. induction s as [|b s IH]; intros v k Hv Hk Hl; cbn [octal_from].
  { by rewrite Z.add_0_r. }
  rewrite zlen_cons in *. pose proof (zlen_nonneg s).
  assert (8 ^ k ≤ 8 ^ (k + (1 + zlen s))) as Hmono by (apply Z.pow_le_mono_r; lia).
  destruct (b =? 0); [lia|].
  destruct (Z.leb_spec 48 b); cbn [andb negb]; [|lia]. destruct (Z.leb_spec b 55); cbn [negb]; [|lia].
  assert (8 ^ (k + 1) = 8 * 8 ^ k) as E by (rewrite Z.pow_add_r by lia; lia).
  assert (8 ^ (k + 1) ≤ 8 ^ 20) as Hb by (apply Z.pow_le_mono_r; lia). change (8 ^ 20) with (2 ^ 60) in Hb.
  rewrite (u64_id (v * 8)), u64_id by lia.
  replace (k + (1 + zlen s)) with (k + 1 + zlen s) by lia. apply IH; lia.
Qed.
Lemma octal_bound s : zlen s ≤ 20 → 0 ≤ octal s < 8 ^ zlen s.
Proof. intros Hl. apply (octal_from_bound s 0 0); [done|lia|lia]. Qed.

Lemma next_block_spec p n :
  0 ≤ p < 2 ^ 62 → 0 ≤ n < 2 ^ 62 → next_block p n = p + 512 * (1 + (n + 511) / 512).
Proof.
  intros Hp Hn. unfold next_block. rewrite (u64_id (n + 511)), (u64_id (512 + (n + 511))) by lia.
  change 511 with (2 ^ 9 - 1) at 2. rewrite land_not_ones by lia. change (2 ^ 9) with 512.
  pose proof (Z.div_mod (n + 511) 512 ltac:(done)). pose proof (Z.mod_pos_bound (n + 511) 512 eq_refl).
  replace (512 + (n + 511)) with (n + 511 + 1 * 512) by lia. rewrite Z.mod_add by done.
  rewrite u64_id by lia. lia.
Qed.

(** ** What an entry does *)
Definition ensure_one (path : list Z) (s : tmpfs) (q : Z) : tmpfs :=
  match zget path q with
  | Some b =>
      if is_slash b && utf8 (slice 0 q path) &&
         (node_typ s (resolve_spec s (slice 0 q path)) =? VN_FREE)
      then (mkdir_spec s (slice 0 q path)).2 else s
  | None => s
  end.
(** The directories above [path] that are missing are made. *)
Definition ensure_spec (path : list Z) (s : tmpfs) : tmpfs :=
  fold_left (ensure_one path) (seqZ 1 (zlen path - 1)) s.

Definition install (path : list Z) (ftype : Z) (data : list Z) (st : (Z * Z) * tmpfs) : (Z * Z) * tmpfs :=
  let '((files, dirs), s) := st in
  if ftype =? 53 then
    let '(r, s) := mkdir_spec s path in ((files, if r =? 0 then i32 (dirs + 1) else dirs), s)
  else if (ftype =? 48) || (ftype =? 0) then
    let '(r, s) := create_spec (ensure_spec path s) path data in
    ((if r >=? 0 then i32 (files + 1) else files, dirs), s)
  else ((files, dirs), s).

Lemma ensure_one_ok path s q : fs_ok s → fs_ok (ensure_one path s q).
Proof.
  intros Hok. unfold ensure_one. destruct (zget path q); [|done].
  destruct (_ && _); [|done]. by apply mkdir_spec_ok.
Qed.

Lemma wp_ensure_parents path s :
  fs_ok s → 0 < zlen path →
  wp (ensure_parents path) (λ _ s', s' = ensure_spec path s ∧ fs_ok s') s.
Proof.
  intros Hok Hl. unfold ensure_spec.
  apply (wp_for_each (λ k s', s' = fold_left (ensure_one path) (seqZ 1 (k - 1)) s ∧ fs_ok s')); [lia|done| |done].
  intros q s1 Hq [-> Hok1]. set (s1 := fold_left _ _ _) in *.
  assert (seqZ 1 (q + 1 - 1) = seqZ 1 (q - 1) ++ [q]) as ->.
  { replace (q + 1 - 1) with (q - 1 + 1) by lia. rewrite seqZ_app by lia. simpl. f_equal.
    replace (1 + (q - 1)) with q by lia. done. }
  rewrite fold_left_app. cbn [fold_left]. fold s1.
  assert (∀ s', s' = ensure_one path s1 q → s' = ensure_one path s1 q ∧ fs_ok s') as Hend
    by (intros s' ->; split; [done|by apply ensure_one_ok]).
  destruct (zget_lt path q) as [b Hb]; [lia|]. wp_step. apply wp_of_option. exists b. split; [done|].
  unfold ensure_one in Hend |- *. rewrite Hb in Hend |- *. unfold not_slash, is_slash in *.
  destruct (b =? slash); cbn [negb andb] in *; [|wp_run; by apply Hend]. cbv zeta.
  destruct (utf8 _); cbn [negb andb] in *; [|wp_run; by apply Hend].
  wp_step. wp_use wp_path_type; [done|]. intros t s' [-> ->]. change 0 with VN_FREE at 2.
  destruct (_ =? VN_FREE); [|wp_run; by apply Hend].
  wp_step. wp_use wp_mkdir; [done|]. intros r s' E. wp_run. apply Hend. by rewrite <- E.
Qed.

(** ** The entries of an archive *)
Record entry := mkEntry { e_path : list Z; e_type : Z; e_data : list Z }.
Definition install_entry (st : (Z * Z) * tmpfs) (e : entry) : (Z * Z) * tmpfs :=
  install (e_path e) (e_type e) (e_data e) st.

Definition name_at (base : list Z) (p : Z) : list Z :=
  let raw := slice p 100 base in trim_end (if utf8 raw then raw else []).
Definition size_at (base : list Z) (p : Z) : Z := octal (slice (p + 124) 12 base).
Definition after (p n : Z) : Z := p + 512 * (1 + (n + 511) / 512).
Definition entry_at (base : list Z) (p : Z) : entry :=
  mkEntry (path_of (name_at base p)) (default 0 (zget base (p + 156)))
    (slice (p + 512) (size_at base p) base).
(** From [p] on, up to the first block that starts with a zero. *)
Fixpoint entries (n : nat) (base : list Z) (p : Z) : list entry :=
  match n with
  | O => []
  | S n =>
      if (p + 512 <=? zlen base) && negb (bool_decide (zget base p = Some 0)) then
        (if utf8 (path_of (name_at base p)) then [entry_at base p] else []) ++
        entries n base (after p (size_at base p))
      else []
  end.

Lemma wp_sub a b l (Q : list Z → tmpfs → Prop) s :
  0 ≤ a ≤ b → b ≤ zlen l → Q (slice a (b - a) l) s → wp (sub a b l) Q s.
Proof.
  intros Ha Hb HQ. unfold sub. rewrite !(proj2 (Z.leb_le _ _)) by lia. cbn [andb]. by wp_run.
Qed.
Lemma slice_slice {A} a n b m (l : list A) :
  0 ≤ a → 0 ≤ b → b + m ≤ n → slice b m (slice a n l) = slice (a + b) m l.
Proof.
  intros Ha Hb Hm. unfold slice. rewrite skipn_firstn_comm, firstn_firstn.
  rewrite drop_drop. rewrite Z2Nat.inj_add by lia. f_equal. lia.
Qed.

Lemma path_of_nonempty name : 0 < zlen (path_of name).
Proof.
  unfold path_of. cbv zeta. pose proof (zlen_nonneg name).
  assert (zlen (slash :: slice 0 (Z.min (zlen name) 126) name) = 1 + Z.min (zlen name) 126) as E
    by (rewrite zlen_cons, zlen_slice by lia; lia).
  destruct (Z.gtb_spec (1 + Z.min (zlen name) 126) 1); cbn [andb]; [|rewrite E; lia].
  case_bool_decide; [|rewrite E; lia]. rewrite zlen_slice by lia. lia.
Qed.

(** The whole of the rest when the archive is cut short. *)
Lemma slice_past {A} a n m (l : list A) : 0 ≤ a → zlen l - a ≤ n → zlen l - a ≤ m → slice a n l = slice a m l.
Proof.
  intros Ha Hn Hm. unfold slice. rewrite !take_ge; [done| |]; rewrite length_drop; unfold zlen in *; lia.
Qed.

Lemma wp_unpack_entry base p path fsize ftype counts s :
  fs_ok s → 0 ≤ p → p + 512 ≤ zlen base < 2 ^ 61 → 0 ≤ fsize < 2 ^ 61 → 0 < zlen path →
  wp (unpack_entry base p path fsize ftype counts) (λ c s',
    (c, s') = install path ftype (slice (p + 512) fsize base) (counts, s) ∧ fs_ok s') s.
Proof.
  intros Hok Hp Hl Hf Hpath. destruct counts as [files dirs]. unfold unpack_entry, install.
  destruct (ftype =? 53).
  { wp_step. wp_use wp_mkdir; [done|]. intros r s' E. wp_run. rewrite <- E. split; [done|].
    pose proof (mkdir_spec_ok s path Hok) as H'. by rewrite <- E in H'. }
  destruct ((ftype =? 48) || (ftype =? 0)); [|by wp_run].
  wp_step. wp_use wp_ensure_parents; [done|done|]. intros [] s1 [-> Hok1]. cbv zeta.
  rewrite (u64_id (p + 512)), (u64_id (p + 512 + fsize)) by lia.
  wp_step. apply wp_sub; [lia|lia|].
  assert (slice (p + 512) (Z.min (p + 512 + fsize) (zlen base) - (p + 512)) base = slice (p + 512) fsize base) as ->.
  { destruct (Z.min_spec (p + 512 + fsize) (zlen base)) as [[_ ->]|[? ->]]; [f_equal; lia|].
    apply slice_past; lia. }
  wp_step. wp_use wp_create; [done| |].
  { unfold buf_ok, slice. unfold zlen. rewrite length_take, length_drop. unfold zlen in Hl. lia. }
  intros r s' E. wp_run. rewrite <- E. split; [done|].
  pose proof (create_spec_ok _ path (slice (p + 512) fsize base) Hok1) as H'. by rewrite <- E in H'.
Qed.

Lemma wp_tar_loop base n p counts s :
  fs_ok s → zlen base < 2 ^ 61 → 0 ≤ p < 2 ^ 62 → Z.max 0 (zlen base - p) < Z.of_nat n →
  wp (loop n (tar_step base) (p, counts)) (λ c s',
    (c, s') = fold_left install_entry (entries n base p) (counts, s) ∧ fs_ok s') s.
Proof.
  revert p counts s. induction n as [|n IH]; intros p counts s Hok Hl Hp Hn; [lia|].
  cbn [loop entries]. wp_step. unfold tar_step at 1. rewrite (u64_id (p + 512)) by lia.
  destruct (Z.leb_spec (p + 512) (zlen base)) as [Hle|]; cbn [andb]; [|by wp_run].
  wp_step. apply wp_sub; [lia|lia|]. set (blk := slice p (zlen base - p) base).
  assert (zlen blk = zlen base - p) as Hblk by (apply zlen_slice; lia).
  assert (∀ i, 0 ≤ i < zlen base - p → zget blk i = zget base (p + i)) as Hget
    by (intros i Hi; by apply zget_slice; lia).
  destruct (zget_lt blk 0) as [b Hb]; [lia|]. wp_step. apply wp_of_option. exists b. split; [done|].
  rewrite Hget, Z.add_0_r in Hb by lia. rewrite Hb.
  destruct (Z.eqb_spec b 0) as [->|Hb0]; [by wp_run|].
  rewrite bool_decide_false by congruence. cbn [negb].
  assert (slice 0 (100 - 0) blk = slice p 100 base) as Eraw
    by (unfold blk; rewrite slice_slice by lia; by rewrite Z.add_0_r).
  assert (slice 124 (136 - 124) blk = slice (p + 124) 12 base) as Elen
    by (unfold blk; by rewrite slice_slice by lia).
  wp_step. apply wp_sub; [lia|lia|]. rewrite Eraw. cbv zeta. wp_step. apply wp_sub; [lia|lia|]. rewrite Elen.
  fold (name_at base p). fold (size_at base p).
  destruct (zget_lt blk 156) as [t Ht]; [lia|]. wp_step. apply wp_of_option. exists t. split; [done|].
  rewrite Hget in Ht by lia.
  assert (0 ≤ size_at base p < 2 ^ 36) as Hsz.
  { assert (zlen (slice (p + 124) 12 base) = 12) as E by (apply zlen_slice; lia).
    pose proof (octal_bound (slice (p + 124) 12 base)) as Hb'. rewrite E in Hb'. unfold size_at.
    specialize (Hb' ltac:(done)). change (8 ^ 12) with (2 ^ 36) in Hb'. lia. }
  rewrite next_block_spec by lia. fold (after p (size_at base p)).
  assert (p + 512 ≤ after p (size_at base p) < p + 2 ^ 40) as Haft by (unfold after; dlia).
  destruct (utf8 (path_of (name_at base p))); cbn [negb].
  - wp_step. wp_use wp_unpack_entry; [done|lia|lia|lia|apply path_of_nonempty|].
    intros c s1 [E Hok1]. wp_run. cbn [app fold_left]. unfold install_entry at 2, entry_at.
    cbn [e_path e_type e_data]. rewrite Ht. cbn [default from_option id]. rewrite <- E.
    apply IH; [done|lia|lia|lia].
  - wp_run. cbn [app]. apply IH; [done|lia|lia|lia].
Qed.

Lemma wp_tar_unpack base s :
  fs_ok s → zlen base < 2 ^ 61 →
  wp (tar_unpack base) (λ r s', fs_ok s' ∧ ∃ files dirs, r = i32 (files + dirs) ∧
    ((files, dirs), s') = fold_left install_entry (entries (S (length base)) base 0) ((0, 0), s)) s.
Proof.
  intros Hok Hl. unfold tar_unpack. wp_step.
  wp_use wp_tar_loop; [done|done|lia|unfold zlen in *; lia|].
  intros [files dirs] s' [E Hok']. wp_run. split; [done|]. by exists files, dirs.
Qed.

(** ** Archives *)
(** A member as [tar] writes it; [f_meta], [f_time] and [f_rest] are the
    fields that are not read. *)
Record file := mkFile {
  f_name : list Z; f_type : Z; f_data : list Z;
  f_meta : list Z; f_time : list Z; f_rest : list Z;
}.
Record file_ok (f : file) : Prop := {
  fk_name : 0 < zlen (f_name f) ≤ 100;
  fk_nul : nul_free (f_name f);
  fk_utf8 : utf8 (f_name f) = true;
  fk_data : zlen (f_data f) < 8 ^ 11;
  fk_meta : zlen (f_meta f) = 24;
  fk_time : zlen (f_time f) = 20;
  fk_rest : zlen (f_rest f) = 355;
}.
Fixpoint oct (k : nat) (n : Z) : list Z :=
  match k with
  | O => []
  | S k => oct k (n / 8) ++ [48 + n mod 8]
  end.
Definition zeros (n : Z) : list Z := replicate (Z.to_nat n) 0.
Definition header (f : file) : list Z :=
  (f_name f ++ zeros (100 - zlen (f_name f))) ++ f_meta f ++ (oct 11 (zlen (f_data f)) ++ [0]) ++
  f_time f ++ f_type f :: f_rest f.
Definition member (f : file) : list Z :=
  header f ++ f_data f ++ zeros (512 * ((zlen (f_data f) + 511) / 512) - zlen (f_data f)).
(** Two blocks of zeros, and [pad] more bytes to fill the last record. *)
Definition archive (pad : Z) (fs : list file) : list Z := concat (map member fs) ++ zeros (1024 + pad).
Definition as_entry (f : file) : entry := mkEntry (path_of (f_name f)) (f_type f) (f_data f).

Lemma zlen_zeros n : 0 ≤ n → zlen (zeros n) = n.
Proof. intros Hn. unfold zeros. rewrite zlen_replicate. lia. Qed.
Lemma zlen_oct k n : zlen (oct k n) = Z.of_nat k.
Proof.
  revert n. induction k as [|k IH]; intros n; [done|]. cbn [oct]. rewrite zlen_app, IH.
  change (zlen [48 + n mod 8]) with 1. lia.
Qed.

(** Octal numbers read back. *)
Lemma octal_oct k n v l :
  0 ≤ v < 8 ^ 4 → 0 ≤ n < 8 ^ Z.of_nat k → (k ≤ 15)%nat →
  octal_from v (oct k n ++ l) = octal_from (v * 8 ^ Z.of_nat k + n) l.
Proof.
  intros Hv. revert n l. induction k as [|k IH]; intros n l Hn Hk.
  { change (8 ^ Z.of_nat 0) with 1 in *. cbn [oct app]. f_equal. lia. }
  cbn [oct]. rewrite Nat2Z.inj_succ, Z.pow_succ_r in * by lia.
  assert (8 ^ Z.of_nat k ≤ 8 ^ 15) as Hp by (apply Z.pow_le_mono_r; lia).
  change (8 ^ 15) with (2 ^ 45) in Hp. change (8 ^ 4) with 4096 in Hv.
  assert (0 ≤ n / 8 < 8 ^ Z.of_nat k) as Hq by dlia.
  rewrite <- app_assoc, IH by (done || lia). cbn [app octal_from].
  pose proof (Z.mod_pos_bound n 8 eq_refl). pose proof (Z.div_mod n 8 ltac:(done)).
  rewrite (proj2 (Z.eqb_neq (48 + n mod 8) 0)) by lia.
  rewrite (proj2 (Z.leb_le 48 _)), (proj2 (Z.leb_le _ 55)) by lia. cbn [andb negb].
  assert (0 ≤ v * 8 ^ Z.of_nat k ≤ 4096 * 2 ^ 45) by nia.
  rewrite (u64_id ((v * 8 ^ Z.of_nat k + n / 8) * 8)), u64_id by lia. f_equal. lia.
Qed.
Lemma octal_oct11 n : 0 ≤ n < 8 ^ 11 → octal (oct 11 n ++ [0]) = n.
Proof. intros Hn. unfold octal. rewrite octal_oct by (done || lia). cbn [octal_from Z.eqb]. lia. Qed.

(** Trailing NULs. *)
Lemma trim_end_nul_free l : nul_free l → trim_end l = l.
Proof.
  intros Hl. induction Hl as [|b l Hb Hl IH]; [done|]. cbn [trim_end]. rewrite IH.
  destruct l; [|done]. by rewrite (proj2 (Z.eqb_neq b 0)).
Qed.
Lemma trim_end_zeros l k : nul_free l → trim_end (l ++ replicate k 0) = l.
Proof.
  intros Hl. assert (trim_end (replicate k 0) = []) as Hz by (induction k as [|k IH]; [done|]; cbn; by rewrite IH).
  induction Hl as [|b l Hb Hl IH]; [done|]. cbn [app trim_end]. rewrite IH.
  destruct l; [|done]. by rewrite (proj2 (Z.eqb_neq b 0)).
Qed.

(** UTF-8 strings end where an ASCII byte follows. *)
Lemma utf8_app pend a b : utf8_from pend a = true → utf8_from pend (a ++ b) = utf8 b.
Proof.
  revert pend. induction a as [|c a IH]; intros pend; cbn [utf8_from app].
  { intros E%bool_decide_eq_true. by subst. }
  destruct pend as [|[lo hi] pend].
  - destruct (lead c); [apply IH|done].
  - intros [E Ha]%andb_true_iff. rewrite E. by apply IH.
Qed.
Lemma lead_range b pend : lead b = Some pend → Forall (λ r, 0x80 ≤ r.1) pend.
Proof.
  unfold lead. repeat case_match; intros [= <-]; repeat constructor; simpl; lia.
Qed.
Lemma utf8_before pend a c b :
  Forall (λ r, 0x80 ≤ r.1) pend → c < 0x80 → utf8_from pend (a ++ c :: b) = true → utf8_from pend a = true.
Proof.
  intros Hp Hc. revert pend Hp. induction a as [|d a IH]; intros pend Hp; cbn [utf8_from app].
  { destruct pend as [|[lo hi] pend]; [done|]. apply Forall_cons in Hp as [Hlo _]. simpl in Hlo.
    by rewrite (proj2 (Z.leb_gt lo c)) by lia. }
  destruct pend as [|[lo hi] pend].
  - destruct (lead d) as [p|] eqn:E; [|done]. apply IH. by eapply lead_range.
  - apply Forall_cons in Hp as [_ Hp]. rewrite !andb_true_iff. intros [H1 H2]. split; [done|by apply IH].
Qed.

(** Looking into concatenations. *)
Lemma slice_app_skip {A} (l l' : list A) a n : 0 ≤ a → slice (zlen l + a) n (l ++ l') = slice a n l'.
Proof.
  intros Ha. unfold slice, zlen. rewrite Z2Nat.inj_add, Nat2Z.id by lia.
  rewrite <- drop_drop, drop_app_length. done.
Qed.
Lemma slice_app_here {A} (l l' : list A) n : n = zlen l → slice 0 n (l ++ l') = l.
Proof. intros ->. unfold slice, zlen. rewrite Nat2Z.id, drop_0. by rewrite take_app_length. Qed.
Lemma slice_app_next {A} (l l' : list A) a n : zlen l ≤ a → slice a n (l ++ l') = slice (a - zlen l) n l'.
Proof. intros Ha. rewrite <- (slice_app_skip l l' (a - zlen l)) by lia. f_equal. lia. Qed.

Lemma zlen_header f : file_ok f → zlen (header f) = 512.
Proof.
  intros []. unfold header. rewrite !zlen_app, !zlen_cons, zlen_oct, zlen_zeros by lia.
  change (zlen []) with 0. lia.
Qed.
Lemma zlen_member f : file_ok f → zlen (member f) = 512 * (1 + (zlen (f_data f) + 511) / 512).
Proof.
  intros Hf. unfold member. rewrite !zlen_app, zlen_header, zlen_zeros by (done || dlia). lia.
Qed.

Lemma path_utf8 name : utf8 name = true → zlen name ≤ 100 → utf8 (path_of name) = true.
Proof.
  intros Hu Hl. unfold path_of. cbv zeta. pose proof (zlen_nonneg name). rewrite Z.min_l by lia.
  assert (slice 0 (zlen name) name = name) as ->.
  { rewrite <- (app_nil_r name) at 2. by apply slice_app_here. }
  assert (utf8 (slash :: name) = true) as Hs by done.
  destruct (_ && _) eqn:E; [|done]. apply andb_true_iff in E as [E1 E2].
  apply bool_decide_eq_true in E2. rewrite Z.gtb_ltb in E1. apply Z.ltb_lt in E1.
  set (path := slash :: name) in *. set (k := 1 + zlen name - 1) in *.
  assert (path = slice 0 k path ++ slash :: drop (Z.to_nat (k + 1)) path) as Hp.
  { unfold slice. rewrite drop_0. unfold zget in E2. rewrite decide_True in E2 by lia.
    rewrite <- (take_drop (Z.to_nat k) path) at 1. f_equal.
    rewrite (drop_S _ _ _ E2). f_equal. f_equal. lia. }
  rewrite Hp in Hs. eapply (utf8_before [] _ slash); [constructor|done|exact Hs].
Qed.

(** The fields of a member's header. *)
Lemma header_fields pre f post :
  file_ok f → let base := pre ++ member f ++ post in let p := zlen pre in
  name_at base p = f_name f ∧ size_at base p = zlen (f_data f) ∧ entry_at base p = as_entry f ∧
  zget base p ≠ Some 0.
Proof.
  intros Hf base p. pose proof Hf as [Hn Hnul Hu Hd Hm Ht Hr]. pose proof (zlen_nonneg (f_data f)).
  assert (0 ≤ p) as Hp0 by apply zlen_nonneg.
  assert (∀ a n, 0 ≤ a → slice (p + a) n base = slice a n (member f ++ post)) as Hsl
    by (intros a n Ha; by apply slice_app_skip).
  assert (name_at base p = f_name f) as En.
  { unfold name_at. rewrite <- (Z.add_0_r p), Hsl by done. unfold member, header. rewrite <- !app_assoc.
    rewrite (app_assoc (f_name f)). rewrite slice_app_here by (rewrite zlen_app, zlen_zeros; lia). cbv zeta.
    unfold zeros, utf8 at 1. rewrite (utf8_app [] (f_name f) _ Hu).
    assert (∀ k, utf8 (replicate k 0) = true) as -> by (induction k; done). by apply trim_end_zeros. }
  assert (size_at base p = zlen (f_data f)) as Es.
  { unfold size_at. rewrite Hsl by done. unfold member, header. rewrite <- !app_assoc, (app_assoc (f_name f)).
    rewrite slice_app_next; rewrite zlen_app, zlen_zeros by lia; [|lia].
    rewrite slice_app_next; rewrite Hm; [|lia].
    replace (124 - (zlen (f_name f) + (100 - zlen (f_name f))) - 24) with 0 by lia.
    rewrite (app_assoc (oct _ _)). rewrite slice_app_here by (by rewrite zlen_app, zlen_oct). by apply octal_oct11. }
  split_and!; [done|done| |].
  - unfold entry_at, as_entry. rewrite En, Es. f_equal.
    + assert (zget base (p + 156) = zget (slice (p + 156) 1 base) 0) as Eg
        by (rewrite zget_slice by lia; f_equal; lia).
      rewrite Eg, Hsl by done. unfold member, header. rewrite <- !app_assoc, (app_assoc (f_name f)).
      rewrite slice_app_next; rewrite zlen_app, zlen_zeros by lia; [|lia].
      rewrite slice_app_next; rewrite Hm; [|lia]. rewrite (app_assoc (oct _ _)).
      rewrite slice_app_next; rewrite zlen_app, zlen_oct; change (zlen [0]) with 1; [|lia].
      rewrite slice_app_next; rewrite Ht; [|lia].
      match goal with |- context [slice ?a 1 _] => replace a with 0 by lia end. done.
    + rewrite Hsl by done. unfold member. rewrite <- !app_assoc.
      rewrite slice_app_next; rewrite zlen_header by done; [|lia]. by apply slice_app_here.
  - unfold base, p. rewrite zget_app_r, Z.sub_diag by lia. unfold member, header. rewrite <- !app_assoc.
    destruct (f_name f) as [|b nm] eqn:E; [by destruct Hn as [Hn _]|].
    apply Forall_cons in Hnul as [Hb _]. cbn [app]. change (Some b ≠ Some 0). congruence.
Qed.

(** The entries of an archive are its members. *)
Lemma entries_archive pad fs n pre :
  0 ≤ pad → Forall file_ok fs → Z.of_nat n > zlen (archive pad fs) →
  entries n (pre ++ archive pad fs) (zlen pre) = map as_entry fs.
Proof.
  intros Hpad Hfs. revert n pre. induction Hfs as [|f fs Hf Hfs IH]; intros n pre Hn; unfold archive in *.
  - destruct n as [|n]; [done|]. cbn [entries concat map app] in *.
    rewrite zlen_app, zlen_zeros by lia. rewrite (proj2 (Z.leb_le _ _)) by lia.
    rewrite zget_app_r, Z.sub_diag by lia.
    assert (zget (zeros (1024 + pad)) 0 = Some 0) as ->; [|by rewrite bool_decide_true].
    unfold zeros, zget. rewrite decide_True by lia. apply lookup_replicate_2. lia.
  - cbn [map concat] in *. rewrite <- app_assoc in *. fold (archive pad fs) in *.
    rewrite zlen_app in Hn. pose proof (zlen_member f Hf) as Hm.
    assert (0 ≤ zlen (f_data f)) by apply zlen_nonneg.
    assert (512 ≤ zlen (member f)) as Hm2 by (rewrite Hm; dlia).
    pose proof (zlen_nonneg (archive pad fs)). pose proof (zlen_nonneg pre).
    destruct n as [|n]; [lia|]. cbn [entries].
    destruct (header_fields pre f (archive pad fs) Hf) as (En & Es & Ee & E0).
    rewrite !zlen_app, (proj2 (Z.leb_le _ _)) by lia. rewrite bool_decide_false by done. cbn [negb andb].
    rewrite En, Es, Ee. pose proof Hf as [Hl _ Hu _ _ _ _]. rewrite path_utf8 by (done || lia). cbn [app].
    f_equal. unfold after. rewrite <- Hm. rewrite <- zlen_app, app_assoc. apply IH. lia.
Qed.
(** ** Where a path's node is *)
(** The entry [path] names is node [id]. *)
Definition names (s : tmpfs) (path : list Z) (id : Z) : Prop :=
  ∃ par leaf, parent_spec s path = Some (par, leaf) ∧ find_child s par leaf = Some id.
Definition raw_comps (path : list Z) : list (list Z) := default [] (absolute path).
(** The components, but for [.]. *)
Definition proper (c : list Z) : Prop := c ≠ dot.
#[global] Instance proper_dec c : Decision (proper c) := _.
Definition comps (path : list Z) : list (list Z) := filter proper (raw_comps path).
(** No [..]. *)
Definition plain (path : list Z) : Prop := Forall (λ c, c ≠ dot ∧ c ≠ dotdot) (comps path).

Lemma walk_proper s cur cs : walk s cur (filter proper cs) = walk s cur cs.
Proof.
  revert cur. induction cs as [|c cs IH]; intros cur; [done|]. rewrite filter_cons.
  destruct (decide (proper c)) as [Hc|Hc]; cbn [walk].
  - by destruct (comp_step s cur c).
  - unfold proper in Hc. assert (c = dot) as -> by (destruct (decide (c = dot)); tauto). unfold comp_step. by rewrite bool_decide_true.
Qed.

Lemma parent_spec_split s path par leaf :
  parent_spec s path = Some (par, leaf) →
  ∃ dirs, comps path = dirs ++ [leaf] ∧ walk s 0 dirs = Some par.
Proof.
  unfold parent_spec, leaf_from, comps, raw_comps. destruct (absolute path) as [cs|]; [|done]. simpl.
  destruct (last cs) as [l|] eqn:Hl; simpl; [|done]. destruct (_ || _) eqn:Ed; [done|].
  destruct (walk s 0 (removelast cs)) as [dir|] eqn:Hw; [|done]. simpl. intros [= -> ->].
  apply last_Some in Hl as [dirs ->]. rewrite removelast_last in Hw. exists (filter proper dirs).
  rewrite walk_proper. split; [|done]. rewrite filter_app. f_equal. rewrite filter_cons, decide_True; [done|].
  apply orb_false_iff in Ed as [[_ Ed]%orb_false_iff _]. by apply bool_decide_eq_false in Ed.
Qed.

Lemma find_child_is s par nm i : find_child s par nm = Some i → is_child s par nm i = true.
Proof. by intros (_ & H & _)%find_first_Some. Qed.
(** A node has one name in one directory. *)
Lemma find_child_inj s p n p' n' i :
  find_child s p n = Some i → find_child s p' n' = Some i → p = p' ∧ n = n'.
Proof.
  intros H1%find_child_is H2%find_child_is. unfold is_child in *.
  destruct (zget (nodes s) i) as [d|]; [|done].
  apply andb_true_iff in H1 as [H1 E1%bool_decide_eq_true], H2 as [H2 E2%bool_decide_eq_true].
  apply andb_true_iff in H1 as [_ ?%Z.eqb_eq], H2 as [_ ?%Z.eqb_eq]. split; congruence.
Qed.

Lemma comp_step_proper s cur c i :
  c ≠ dot → c ≠ dotdot → comp_step s cur c = Some i → find_child s cur c = Some i.
Proof.
  intros Hd Hdd. unfold comp_step. rewrite !bool_decide_false by done. destruct (_ >=? _); [done|].
  destruct (zget (nodes s) cur) as [d|]; [|done]. by destruct (typ d =? VN_DIR).
Qed.
(** Two walks without dots that end in one node are one walk. *)
Lemma walk_inj s a b i :
  Forall (λ c, c ≠ dot ∧ c ≠ dotdot) a → Forall (λ c, c ≠ dot ∧ c ≠ dotdot) b →
  walk s 0 a = Some i → walk s 0 b = Some i → a = b.
Proof.
  revert b i. induction a as [|c a IH] using rev_ind; intros b i Ha Hb.
  - destruct b as [|c' b _] using rev_ind; [done|]. intros [= <-]. rewrite walk_app.
    apply Forall_app in Hb as [_ [[Hd Hdd] _]%Forall_cons].
    destruct (walk s 0 b) as [q|]; [|done]. cbn [mbind option_bind walk].
    destruct (comp_step s q c') as [x|] eqn:E; [|done]. intros [= ->].
    apply comp_step_proper, find_child_range in E; [lia|done|done].
  - apply Forall_app in Ha as [Ha [[Hd Hdd] _]%Forall_cons]. rewrite walk_app.
    destruct (walk s 0 a) as [p|] eqn:Hp; [|done]. cbn [mbind option_bind walk].
    destruct (comp_step s p c) as [x|] eqn:E; [|done]. intros [= ->].
    apply comp_step_proper in E; [|done..].
    destruct b as [|c' b _] using rev_ind.
    { intros [= <-]. apply find_child_range in E. lia. }
    apply Forall_app in Hb as [Hb [[Hd' Hdd'] _]%Forall_cons]. rewrite walk_app.
    destruct (walk s 0 b) as [q|] eqn:Hq; [|done]. cbn [mbind option_bind walk].
    destruct (comp_step s q c') as [x|] eqn:E'; [|done]. intros [= ->].
    apply comp_step_proper in E'; [|done..].
    destruct (find_child_inj _ _ _ _ _ _ E E') as [<- <-]. f_equal. by eapply IH.
Qed.

Lemma names_inj s p q i :
  plain p → plain q → names s p i → names s q i → comps p = comps q.
Proof.
  intros Hp Hq (par & leaf & H1 & F1) (par' & leaf' & H2 & F2).
  destruct (find_child_inj _ _ _ _ _ _ F1 F2) as [<- <-]. unfold plain in *.
  apply parent_spec_split in H1 as (a & Ea & Wa), H2 as (b & Eb & Wb).
  rewrite Ea in Hp |- *. rewrite Eb in Hq |- *. apply Forall_app in Hp as [Hp _], Hq as [Hq _].
  f_equal. by eapply walk_inj.
Qed.

Lemma names_walk s p cs i :
  plain p → Forall (λ c, c ≠ dot ∧ c ≠ dotdot) cs → names s p i → walk s 0 cs = Some i → comps p = cs.
Proof.
  intros Hp Hcs (par & leaf & H & F) Hw. unfold plain in Hp.
  apply parent_spec_split in H as (dirs & E & Hd). rewrite E in Hp |- *.
  destruct cs as [|c cs _] using rev_ind.
  { injection Hw as <-. apply find_child_range in F. lia. }
  apply Forall_app in Hp as [Hp _], Hcs as [Hcs [[Hc Hcd] _]%Forall_cons]. rewrite walk_app in Hw.
  destruct (walk s 0 cs) as [q|] eqn:Hq; [|done]. cbn [mbind option_bind walk] in Hw.
  destruct (comp_step s q c) as [y|] eqn:Ey; [|done]. injection Hw as ->.
  apply comp_step_proper in Ey; [|done..]. destruct (find_child_inj _ _ _ _ _ _ F Ey) as [-> ->].
  f_equal. by eapply walk_inj.
Qed.

(** A path's entry stays where it is as the tree grows. *)
Lemma names_at s s' p par leaf i :
  fs_ok s → tree_extends s s' → parent_spec s p = Some (par, leaf) → find_child s' par leaf = Some i →
  names s' p i.
Proof.
  intros Hok He H F. exists par, leaf. split; [|done].
  unfold parent_spec, leaf_from in *. destruct (absolute p) as [cs|]; [|done]. simpl in *.
  destruct (last cs) as [l|]; simpl in *; [|done]. destruct (_ || _); [done|].
  destruct (walk s 0 (removelast cs)) as [dir|] eqn:Hw; [|done].
  by rewrite (walk_extends _ _ _ _ _ Hok He (att_root s) Hw).
Qed.
Lemma names_extends s s' p i : fs_ok s → tree_extends s s' → names s p i → names s' p i.
Proof. intros Hok He (par & leaf & H & F). eapply (names_at s); [done..|by apply He]. Qed.

Lemma tree_extends_trans s1 s2 s3 : tree_extends s1 s2 → tree_extends s2 s3 → tree_extends s1 s3.
Proof.
  intros [N1 F1] [N2 F2]. split.
  - intros i Hi. destruct (N1 i Hi) as [T1 P1]. destruct (N2 i) as [T2 P2]; [congruence|]. split; congruence.
  - intros p n c H. by apply F2, F1.
Qed.

Lemma ensure_extends path s :
  fs_ok s → nul_free path →
  tree_extends s (ensure_spec path s) ∧ ∀ j, file_data (ensure_spec path s) j = file_data s j.
Proof.
  intros Hok Hn. unfold ensure_spec. generalize (seqZ 1 (zlen path - 1)) as l. intros l.
  revert s Hok. induction l as [|q l IH]; intros s Hok; [done|]. cbn [fold_left].
  assert (tree_extends s (ensure_one path s q) ∧ ∀ j, file_data (ensure_one path s q) j = file_data s j)
    as [He Hd].
  { unfold ensure_one. destruct (zget path q); [|done]. destruct (_ && _); [|done].
    apply mkdir_extends; [done|]. unfold slice. by apply Forall_take, Forall_drop. }
  destruct (IH (ensure_one path s q)) as [He' Hd']; [by apply ensure_one_ok|].
  split; [by eapply tree_extends_trans|]. intros j. by rewrite Hd'.
Qed.
Lemma ensure_ok path s : fs_ok s → fs_ok (ensure_spec path s).
Proof.
  unfold ensure_spec. generalize (seqZ 1 (zlen path - 1)) as l. intros l. revert s.
  induction l as [|q l IH]; intros s Hok; [done|]. apply IH. by apply ensure_one_ok.
Qed.

(** ** What an unpacked archive leaves *)
Definition regular (e : entry) : Prop := e_type e = 48 ∨ e_type e = 0.
(** A path that ends in [.], as the root's in [tar -C rootfs .], or in nothing
    is no place for a directory. *)
Definition no_leaf (path : list Z) : Prop := last (raw_comps path) = None ∨ last (raw_comps path) = Some dot.
Definition makes (e : entry) : Prop := (e_type e = 53 ∧ ¬ no_leaf (e_path e)) ∨ regular e.
#[global] Instance entry_eq_dec : EqDecision entry.
Proof. solve_decision. Defined.
#[global] Instance regular_dec e : Decision (regular e) := _.
#[global] Instance no_leaf_dec path : Decision (no_leaf path) := _.
#[global] Instance makes_dec e : Decision (makes e) := _.
Definition cnt (es : list entry) : Z := zlen (filter makes es).
(** No two files at one path, and none below another. *)
Definition apart (es : list entry) : Prop :=
  ∀ e e', e ∈ es → e' ∈ es → regular e → regular e' →
    comps (e_path e) `prefix_of` comps (e_path e') → e = e'.
Record entry_ok (e : entry) : Prop := {
  eo_nul : nul_free (e_path e);
  eo_plain : regular e → plain (e_path e);
  eo_data : buf_ok (e_data e);
}.
(** The files of [s] are those of [ds]. *)
Record holds (ds : list entry) (s : tmpfs) : Prop := {
  ho_file e : e ∈ ds → regular e → ∃ i, names s (e_path e) i ∧ file_data s i = Some (e_data e);
  ho_only j data : file_data s j = Some data → ∃ e, e ∈ ds ∧ regular e ∧ names s (e_path e) j;
}.

Lemma holds_extends ds e s s' :
  fs_ok s → holds ds s → ¬ regular e → tree_extends s s' → (∀ j, file_data s' j = file_data s j) →
  holds (ds ++ [e]) s'.
Proof.
  intros Hok [H1 H2] He Ht Hd. split.
  - intros x [Hx|Hx%list_elem_of_singleton]%elem_of_app Hr; [|by subst].
    destruct (H1 x Hx Hr) as (i & Hn & Hi). exists i. split; [by apply (names_extends s)|by rewrite Hd].
  - intros j data. rewrite Hd. intros Hj. destruct (H2 j data Hj) as (x & Hx & Hr & Hn).
    exists x. split_and!; [by apply elem_of_app; left|done|by apply (names_extends s)].
Qed.

Lemma holds_create ds e s s' r :
  fs_ok s → holds ds s → entry_ok e → Forall entry_ok ds → apart (ds ++ [e]) → regular e →
  (r, s') = create_spec (ensure_spec (e_path e) s) (e_path e) (e_data e) → r ≠ -1 →
  holds (ds ++ [e]) s'.
Proof.
  intros Hok [H1 H2] [Hnul Hpl Hbuf] Hds Hap He E Hr. pose proof (ensure_ok (e_path e) s Hok) as Hok1.
  destruct (ensure_extends (e_path e) s Hok Hnul) as [Ht Hd].
  destruct (create_spec_stores _ _ _ r s' Hok1 Hnul Hbuf E)
    as [?|(par & leaf & Hp & Hdata & Hoth & Ht' & Hc)]; [done|].
  assert (tree_extends s s') as Htr by (by eapply tree_extends_trans).
  assert (names s' (e_path e) r) as Hnm.
  { by apply (names_at (ensure_spec (e_path e) s) s' _ par leaf). }
  split.
  - intros x Hx Hxr. destruct (decide (x = e)) as [->|Hne]; [by exists r|].
    apply elem_of_app in Hx as [Hx|Hx%list_elem_of_singleton]; [|by subst].
    destruct (H1 x Hx Hxr) as (i & Hn & Hi). exists i.
    assert (names s' (e_path x) i) as Hn' by (by apply (names_extends s)). split; [done|].
    rewrite Hoth; [by rewrite Hd|]. intros ->. apply Hne. 
    apply (Hap x e); [by apply elem_of_app; left|by apply elem_of_app; right; left|done|done|].
    assert (plain (e_path x)) by (by apply (proj1 (Forall_forall _ _) Hds x)).
    by rewrite (names_inj s' (e_path x) (e_path e) r) by auto.
  - intros j data Hj. destruct (decide (j = r)) as [->|Hne]; 
      [exists e; split_and!; [by apply elem_of_app; right; left|done|done]|].
    rewrite Hoth, Hd in Hj by done. destruct (H2 j data Hj) as (x & Hx & Hxr & Hn).
    exists x. split_and!; [by apply elem_of_app; left|done|by apply (names_extends s)].
Qed.
Lemma cnt_snoc ds e : cnt (ds ++ [e]) = cnt ds + (if decide (makes e) then 1 else 0).
Proof.
  unfold cnt. rewrite filter_app, zlen_app. f_equal. rewrite filter_cons. by case_decide.
Qed.

(** One member: the count follows the members that succeed, and when all of
    them have, the files are there. *)
Definition made (ds : list entry) (st : (Z * Z) * tmpfs) : Prop :=
  let '((a, b), s) := st in
  fs_ok s ∧ 0 ≤ a ∧ 0 ≤ b ∧ a + b ≤ cnt ds ∧ (a + b = cnt ds → holds ds s).
(** Such a directory is not made. *)
Lemma mkdir_no_leaf s path : no_leaf path → mkdir_spec s path = (-1, s).
Proof.
  unfold no_leaf, raw_comps, mkdir_spec, parent_spec, leaf_from. destruct (absolute path) as [cs|]; [|done]. simpl.
  intros [-> | ->]; by cbn.
Qed.
Lemma install_made ds e st :
  Forall entry_ok ds → entry_ok e → apart (ds ++ [e]) → cnt (ds ++ [e]) < 2 ^ 31 →
  made ds st → made (ds ++ [e]) (install_entry st e).
Proof.
  intros Hds He Hap Hlt. destruct st as [[a b] s]. intros (Hok & Ha & Hb & Hab & Hh).
  rewrite cnt_snoc in Hlt. unfold made. rewrite cnt_snoc. unfold install_entry, install.
  pose proof He as [Hnul _ _].
  destruct (Z.eqb_spec (e_type e) 53) as [E53|N53].
  { assert (¬ regular e) as Hr by (unfold regular; lia).
    destruct (decide (no_leaf (e_path e))) as [Hno|Hleaf].
    { rewrite decide_False in * by (unfold makes; tauto). rewrite (mkdir_no_leaf s _ Hno). cbn.
      split_and!; try done; try lia. intros Heq.
      apply (holds_extends ds e s); [done|apply Hh; lia|done|apply tree_extends_refl|done]. }
    rewrite decide_True in * by (by left).
    destruct (mkdir_extends s (e_path e) Hok Hnul) as [Ht Hd].
    pose proof (mkdir_spec_ok s (e_path e) Hok) as Hok'. destruct (mkdir_spec s (e_path e)) as [r s'].
    simpl in *. destruct (r =? 0); [rewrite i32_id by lia|]; split_and!; try done; try lia.
    intros Heq. by apply (holds_extends ds e s); [done|apply Hh; lia|..]. }
  destruct ((e_type e =? 48) || (e_type e =? 0)) eqn:Er.
  - assert (regular e) as Hr by (unfold regular; lia). rewrite decide_True in * by (by right).
    pose proof (create_spec_ok _ (e_path e) (e_data e) (ensure_ok (e_path e) s Hok)) as Hok'.
    destruct (create_spec _ (e_path e) (e_data e)) as [r s'] eqn:E. simpl in Hok'.
    destruct (Z.geb_spec r 0); [rewrite i32_id by lia|]; split_and!; try done; try lia.
    intros Heq. apply (holds_create ds e s s' r); try done; [apply Hh; lia|lia].
  - assert (¬ regular e) as Hr by (unfold regular; lia).
    rewrite decide_False in * by (by intros [[? _]|?]). split_and!; try done; try lia.
    intros Heq. apply (holds_extends ds e s); [done|apply Hh; lia|done|apply tree_extends_refl|done].
Qed.

Lemma installs_made es ds st :
  Forall entry_ok (ds ++ es) → apart (ds ++ es) → cnt (ds ++ es) < 2 ^ 31 →
  made ds st → made (ds ++ es) (fold_left install_entry es st).
Proof.
  revert ds st. induction es as [|e es IH]; intros ds st; [by rewrite app_nil_r|].
  change (e :: es) with ([e] ++ es). rewrite app_assoc. intros Hok Hap Hlt Hm.
  cbn [fold_left app]. apply IH; [done..|].
  pose proof Hok as [Hds He]%Forall_app. apply Forall_app in Hds as [Hds [He' _]%Forall_cons].
  apply install_made; [done|done| | |done].
  - intros x y Hx Hy. by apply Hap; apply elem_of_app; left.
  - unfold cnt in *. rewrite filter_app, zlen_app in Hlt.
    pose proof (zlen_nonneg (filter makes es)). lia.
Qed.

(** What is held is what the paths resolve to. *)
Lemma node_typ_file s i : fs_ok s → 0 < i → node_typ s i = VN_FILE → ∃ data, file_data s i = Some data.
Proof.
  intros Hok Hi. unfold node_typ, file_data. destruct (zget (nodes s) i) as [d|] eqn:Hd; [|done].
  intros Ht. rewrite (proj2 (is_file_some s i d)) by done. by eexists.
Qed.
Lemma held_resolves es s e :
  fs_ok s → Forall entry_ok es → apart es → holds es s → e ∈ es → regular e →
  file_data s (resolve_spec s (e_path e)) = Some (e_data e).
Proof.
  intros Hok Hes Hap [H1 H2] He Hr. destruct (H1 e He Hr) as (i & (par & leaf & Hp & Hc) & Hd).
  rewrite (resolve_leaf s s (e_path e) par leaf i); [done|done|apply tree_extends_refl|done| |done].
  destruct (parent_spec_split _ _ _ _ Hp) as (dirs & Ec & Hw).
  pose proof (attached_live s par Hok (walk_attached _ _ _ _ (att_root s) Hw)) as Hlive.
  destruct (parent_spec_some _ _ _ _ Hok Hp) as [Hpar _].
  destruct (node_at s par Hok Hpar) as [d Hpd]. unfold node_typ in *. rewrite Hpd in *.
  destruct (no_typ _ (ok_node _ Hok _ _ Hpd)) as [Ht|[Ht|Ht]]; [by rewrite Ht in Hlive| |done].
  exfalso. destruct (ok_root _ Hok) as (d0 & Hd0 & Ht0 & _).
  assert (0 < par) as Hpos.
  { assert (par ≠ 0); [|lia]. intros ->. rewrite Hpd in Hd0. injection Hd0 as <-. by rewrite Ht in Ht0. }
  destruct (node_typ_file s par Hok Hpos) as [data Hf]; [by rewrite (node_typ_get _ _ _ Hpd)|].
  destruct (H2 par data Hf) as (x & Hx & Hxr & Hnx).
  pose proof (proj1 (Forall_forall _ _) Hes x Hx) as [_ Hxp _].
  pose proof (proj1 (Forall_forall _ _) Hes e He) as [_ Hep _].
  specialize (Hxp Hxr). specialize (Hep Hr). unfold plain in Hep. rewrite Ec in Hep.
  apply Forall_app in Hep as [Hdp _].
  assert (comps (e_path x) = dirs) as Ex by (by apply (names_walk s _ _ par)).
  assert (x = e) as ->.
  { apply Hap; [done..|]. rewrite Ec, Ex. by eexists. }
  rewrite Ex in Ec. apply (f_equal length) in Ec. rewrite length_app in Ec. simpl in Ec. lia.
Qed.

(** C32: whatever bytes the first module holds, unpacking it neither panics
    nor runs on: it ends with a well-formed file system, the one that making
    the entries of the archive one after the other gives (an entry that cannot
    be made is passed over), and answers how many were made. *)
Theorem tar_unpack_any base s :
  fs_ok s → zlen base < 2 ^ 61 →
  wp (tar_unpack base) (λ r s', fs_ok s' ∧ ∃ files dirs, r = i32 (files + dirs) ∧
    ((files, dirs), s') = fold_left install_entry (entries (S (length base)) base 0) ((0, 0), s)) s.
Proof. exact (wp_tar_unpack base s). Qed.

Lemma init_empty m : holds [] (root_only m).
Proof.
  split; [intros e He; by apply not_elem_of_nil in He|].
  intros j data. unfold file_data. destruct (is_file _ j) as [d|] eqn:E; [|done].
  apply is_file_some in E as (Hd & Hj & Ht). apply root_only_get in Hd as ->. by rewrite decide_False in Ht by lia.
Qed.

Lemma as_entry_ok f : file_ok f → (regular (as_entry f) → plain (path_of (f_name f))) → entry_ok (as_entry f).
Proof.
  intros Hf Hp. pose proof Hf as [Hl Hn _ Hd _ _ _]. split; [|done|].
  - simpl. unfold path_of. cbv zeta.
    assert (nul_free (slash :: slice 0 (Z.min (zlen (f_name f)) 126) (f_name f))) as H.
    { constructor; [done|]. unfold slice. by apply Forall_take, Forall_drop. }
    destruct (_ && _); [|done]. unfold slice. by apply Forall_take, Forall_drop.
  - unfold buf_ok. simpl. change (8 ^ 11) with (2 ^ 33) in Hd. lia.
Qed.

(** C21: [tar] and [unpack] are inverse: from a fresh file system, unpacking
    the archive of some members - no file twice, none below another, no [..] in
    a file's path; [.] may be, so members may be named [./bin/sh] as
    [tools/mkinitrd.sh] names them - answers at most the number of files and of
    directories with a name, and when it answers that number every regular
    file's path resolves to a node that holds the file's bytes. *)
Theorem initrd_roundtrip pad fs rest s :
  let es := map as_entry fs in
  0 ≤ pad → Forall file_ok fs → Forall (λ e, regular e → plain (e_path e)) es → apart es →
  cnt es < 2 ^ 31 → zlen (archive pad fs) < 2 ^ 61 →
  wp (init;; unpack (Some (archive pad fs :: rest))) (λ r s',
    fs_ok s' ∧ 0 ≤ r ≤ cnt es ∧
    (r = cnt es → ∀ f, f ∈ fs → regular (as_entry f) →
       file_data s' (resolve_spec s' (path_of (f_name f))) = Some (f_data f))) s.
Proof.
  intros es Hpad Hfs Hpl Hap Hcnt Hlen. wp_run. wp_use wp_init. intros [] s1 ->. cbn [unpack].
  fold (root_only (pool s)). set (s1 := root_only _). pose proof (root_only_ok (pool s) : fs_ok s1) as Hok.
  wp_use wp_tar_unpack; [done|done|]. intros r s' (Hok' & files & dirs & -> & E).
  assert (Forall entry_ok es) as Heok.
  { apply Forall_map, Forall_forall. intros f Hf. apply as_entry_ok.
    - by apply (proj1 (Forall_forall _ _) Hfs).
    - apply (proj1 (Forall_forall _ _) Hpl (as_entry f)). by apply list_elem_of_fmap_2. }
  pose proof (entries_archive pad fs (S (length (archive pad fs))) [] Hpad Hfs) as Hen. cbn [app] in Hen.
  change (zlen []) with 0 in Hen. rewrite Hen in E by (unfold zlen; lia).
  assert (made es (fold_left install_entry es ((0, 0), s1))) as Hm.
  { apply (installs_made es []); [done..|]. unfold made. change (cnt []) with 0.
    split_and!; [done|lia..|]. intros _. apply init_empty. }
  fold es in E. rewrite <- E in Hm. destruct Hm as (_ & ? & ? & ? & Hh).
  rewrite i32_id by lia. split_and!; [done|lia|lia|]. intros Hr f Hf Hreg.
  apply (held_resolves es s' (as_entry f)); [done|done|done|by apply Hh| |done]. by apply list_elem_of_fmap_2.
Qed.

(** ** A small archive, as [tar -C rootfs .] packs it: [./], [./d/], [./d/a] and
    [./b] *)
Definition demo_file (name : list Z) (type : Z) (data : list Z) : file :=
  mkFile name type data (replicate 24 48) (replicate 20 48) (replicate 355 0).
Definition demo_files : list file :=
  [demo_file [46; 47] 53 []; demo_file [46; 47; 100; 47] 53 []; demo_file [46; 47; 100; 47; 97] 48 [1; 2; 3];
   demo_file [46; 47; 98] 48 [7]].

Lemma demo_files_ok : Forall file_ok demo_files.
Proof.
  repeat (apply Forall_cons; split); try apply Forall_nil; try done; split; try done;
    try (by vm_compute); by apply nul_free_dec.
Qed.

(** The whole of it, evaluated. *)
Example demo_unpack :
  match (init;; unpack (Some [archive 512 demo_files])) (root_only (λ _, 0)) with
  | Done (r, s) =>
      (r, (λ f, file_data s (resolve_spec s (path_of (f_name f)))) <$> demo_files)
  | _ => (0, [])
  end = (3, [None; None; Some [1; 2; 3]; Some [7]]).
Proof. by vm_compute. Qed.

Lemma tar_unpack_any_witness :
  wp (tar_unpack [1; 2; 3]) (λ r s', fs_ok s' ∧ r = 0) demo_fs.
Proof.
  eapply wp_mono; [apply (tar_unpack_any [1; 2; 3] demo_fs demo_ok); done|].
  intros r s' (H & files & dirs & -> & E). split; [exact H|]. injection E as -> -> ->. reflexivity.
Defined.

Lemma apart_forall es :
  Forall (λ e, Forall (λ e', regular e → regular e' →
    comps (e_path e) `prefix_of` comps (e_path e') → e = e') es) es → apart es.
Proof.
  intros H e e' He He'. rewrite Forall_forall in H. specialize (H e He). rewrite Forall_forall in H. by apply H.
Qed.
Lemma demo_apart : apart (map as_entry demo_files).
Proof. apply apart_forall. apply (bool_decide_unpack _). by vm_compute. Qed.

Lemma initrd_roundtrip_witness :
  wp (init;; unpack (Some [archive 512 demo_files])) (λ r s', fs_ok s' ∧ 0 ≤ r ≤ 3 ∧
    (r = 3 → file_data s' (resolve_spec s' (path_of [46; 47; 100; 47; 97])) = Some [1; 2; 3] ∧
             file_data s' (resolve_spec s' (path_of [46; 47; 98])) = Some [7])) demo_fs.
Proof.
  eapply wp_mono; [apply (initrd_roundtrip 512 demo_files [] demo_fs)|].
  - done.
  - exact demo_files_ok.
  - apply (bool_decide_unpack _). by vm_compute.
  - exact demo_apart.
  - done.
  - by vm_compute.
  - intros r s' (H & H1 & H2). split; [exact H|]. split; [exact H1|]. intros Hr.
    split; [apply (H2 Hr (demo_file [46; 47; 100; 47; 97] 48 [1; 2; 3]))|apply (H2 Hr (demo_file [46; 47; 98] 48 [7]))];
      try (by left); by repeat constructor.
Defined.
End Initrd.
