(* ===== verification/Sched.v ===== *)
(** * Round-robin scheduler ([kernel-rs/src/sched.rs], timer path of [idt.rs])

    The state is the thread table, the three scheduler counters, the tick
    counter of [idt.rs], the TSS's [rsp0] ([gdt::set_kernel_stack]) and the
    memory manager.  A trap frame is a value: the handler receives the live
    frame and returns the one [iretq] will load. *)
From stdpp Require Import relations.
From S2P Require Import Prelude PageAlloc Pmm Mem Vmm.

Module Sched.

Definition SCHED_MAX_THREADS : Z := 32.
Definition THREAD_KSTACK_SIZE : Z := 4 * PAGE_SIZE.
Definition TIMESLICE_TICKS : Z := 5.
Definition UFD_MAX : Z := 8.
Definition UFD_FIRST : Z := 3.
Definition NAME_LEN : Z := 16.
Definition CWD_LEN : Z := 96.

(** [idt.rs], [IrqFrame]. *)
Record frame := mkFrame {
  r15 : Z; r14 : Z; r13 : Z; r12 : Z; r11 : Z; r10 : Z; r9 : Z; r8 : Z;
  rbp : Z; rdi : Z; rsi : Z; rdx : Z; rcx : Z; rbx : Z; rax : Z;
  vector : Z; err : Z;
  rip : Z; cs : Z; rflags : Z; rsp : Z; ss : Z;
}.
Definition zero_frame : frame :=
  mkFrame 0 0 0 0 0 0 0 0 0 0 0 0 0 0 0 0 0 0 0 0 0 0.

Inductive thread_state := Unused | Runnable | Zombie.
#[global] Instance thread_state_eq_dec : EqDecision thread_state.
Proof. solve_decision. Defined.

Record ufd := mkUfd { node : Z; pos : Z }.
Definition ufd_free : ufd := mkUfd (-1) 0.

Record thread := mkThread {
  tid : Z;
  name : list Z;
  state : thread_state;
  saved : frame;
  space : Z;
  kstack_top : Z;
  kstack_pa : Z;
  is_user : bool;
  fds : list ufd;
  cwd : list Z;
  brk : Z;
  exit_status : Z;
  vt : Z;
}.

Definition zeroed : thread :=
  mkThread 0 (replicate (Z.to_nat NAME_LEN) 0) Unused zero_frame 0 0 0 false
    (replicate (Z.to_nat UFD_MAX) ufd_free) (replicate (Z.to_nat CWD_LEN) 0) 0 0 (-1).

Definition with_tid (v : Z) (t : thread) : thread :=
  mkThread v (name t) (state t) (saved t) (space t) (kstack_top t) (kstack_pa t)
    (is_user t) (fds t) (cwd t) (brk t) (exit_status t) (vt t).
Definition with_name (v : list Z) (t : thread) : thread :=
  mkThread (tid t) v (state t) (saved t) (space t) (kstack_top t) (kstack_pa t)
    (is_user t) (fds t) (cwd t) (brk t) (exit_status t) (vt t).
Definition with_state (v : thread_state) (t : thread) : thread :=
  mkThread (tid t) (name t) v (saved t) (space t) (kstack_top t) (kstack_pa t)
    (is_user t) (fds t) (cwd t) (brk t) (exit_status t) (vt t).
Definition with_saved (v : frame) (t : thread) : thread :=
  mkThread (tid t) (name t) (state t) v (space t) (kstack_top t) (kstack_pa t)
    (is_user t) (fds t) (cwd t) (brk t) (exit_status t) (vt t).
Definition with_space (v : Z) (t : thread) : thread :=
  mkThread (tid t) (name t) (state t) (saved t) v (kstack_top t) (kstack_pa t)
    (is_user t) (fds t) (cwd t) (brk t) (exit_status t) (vt t).
Definition with_kstack (top pa : Z) (t : thread) : thread :=
  mkThread (tid t) (name t) (state t) (saved t) (space t) top pa
    (is_user t) (fds t) (cwd t) (brk t) (exit_status t) (vt t).
Definition with_user (v : bool) (t : thread) : thread :=
  mkThread (tid t) (name t) (state t) (saved t) (space t) (kstack_top t) (kstack_pa t)
    v (fds t) (cwd t) (brk t) (exit_status t) (vt t).
Definition with_fds (v : list ufd) (t : thread) : thread :=
  mkThread (tid t) (name t) (state t) (saved t) (space t) (kstack_top t) (kstack_pa t)
    (is_user t) v (cwd t) (brk t) (exit_status t) (vt t).
Definition with_cwd (v : list Z) (t : thread) : thread :=
  mkThread (tid t) (name t) (state t) (saved t) (space t) (kstack_top t) (kstack_pa t)
    (is_user t) (fds t) v (brk t) (exit_status t) (vt t).
Definition with_brk (v : Z) (t : thread) : thread :=
  mkThread (tid t) (name t) (state t) (saved t) (space t) (kstack_top t) (kstack_pa t)
    (is_user t) (fds t) (cwd t) v (exit_status t) (vt t).
Definition with_exit (v : Z) (t : thread) : thread :=
  mkThread (tid t) (name t) (state t) (saved t) (space t) (kstack_top t) (kstack_pa t)
    (is_user t) (fds t) (cwd t) (brk t) v (vt t).
Definition with_vt (v : Z) (t : thread) : thread :=
  mkThread (tid t) (name t) (state t) (saved t) (space t) (kstack_top t) (kstack_pa t)
    (is_user t) (fds t) (cwd t) (brk t) (exit_status t) v.

Definition set_name (s : list Z) : thread → thread := with_name (c_array NAME_LEN s).
Definition set_cwd (s : list Z) : thread → thread := with_cwd (c_array CWD_LEN s).

(** ["<bad>"] and ["/"] are the fallbacks of [name_str] and [cwd_str]. *)
Definition str_or (alt buf : list Z) : list Z :=
  if utf8_valid (c_str buf) then c_str buf else alt.
Definition name_str (t : thread) : list Z := str_or [60; 98; 97; 100; 62] (name t).
Definition cwd_str (t : thread) : list Z := str_or [47] (cwd t).

Record sched (P : Type) := mkSched {
  threads : list thread;
  nr_threads : Z;
  current_idx : Z;
  last_slice : Z;
  timer_ticks : Z;
  sched_enabled : bool;
  rsp0 : Z;
  hhdm : Z;
  vm : Vmm.vmm P;
}.
Arguments mkSched {P}.
Arguments threads {P}.
Arguments nr_threads {P}.
Arguments current_idx {P}.
Arguments last_slice {P}.
Arguments timer_ticks {P}.
Arguments sched_enabled {P}.
Arguments rsp0 {P}.
Arguments hhdm {P}.
Arguments vm {P}.

Section sched.
Context {P : Type} `{PageAllocator P}.
Implicit Types s : sched P.

Definition set_threads (l : list thread) s : sched P :=
  mkSched l (nr_threads s) (current_idx s) (last_slice s) (timer_ticks s)
    (sched_enabled s) (rsp0 s) (hhdm s) (vm s).
Definition set_nr (n : Z) s : sched P :=
  mkSched (threads s) n (current_idx s) (last_slice s) (timer_ticks s)
    (sched_enabled s) (rsp0 s) (hhdm s) (vm s).
Definition set_current (i : Z) s : sched P :=
  mkSched (threads s) (nr_threads s) i (last_slice s) (timer_ticks s)
    (sched_enabled s) (rsp0 s) (hhdm s) (vm s).
Definition set_slice (n : Z) s : sched P :=
  mkSched (threads s) (nr_threads s) (current_idx s) n (timer_ticks s)
    (sched_enabled s) (rsp0 s) (hhdm s) (vm s).
Definition set_ticks (n : Z) s : sched P :=
  mkSched (threads s) (nr_threads s) (current_idx s) (last_slice s) n
    (sched_enabled s) (rsp0 s) (hhdm s) (vm s).
Definition set_rsp0 (v : Z) s : sched P :=
  mkSched (threads s) (nr_threads s) (current_idx s) (last_slice s) (timer_ticks s)
    (sched_enabled s) v (hhdm s) (vm s).
Definition set_vm (v : Vmm.vmm P) s : sched P :=
  mkSched (threads s) (nr_threads s) (current_idx s) (last_slice s) (timer_ticks s)
    (sched_enabled s) (rsp0 s) (hhdm s) v.

Definition vm_call {A} (m : M (Vmm.vmm P) A) : M (sched P) A := zoom vm set_vm m.
Definition pa_to_va (pa : Z) : M (sched P) Z := gets (λ s, u64 (pa + hhdm s)).

Definition update_thread (i : Z) (f : thread → thread) : M (sched P) unit :=
  t ← aget threads i;
  modify (λ s, set_threads (zset (threads s) i (f t)) s).

(** [if i >= NR_THREADS { NR_THREADS = i + 1 }] *)
Definition grow_nr (i : Z) : M (sched P) unit :=
  n ← gets nr_threads;
  if i >=? n then modify (set_nr (i + 1)) else mret tt.

Definition init : M (sched P) unit :=
  update_thread 0 (λ _, zeroed);;
  update_thread 0 (with_tid 0);;
  update_thread 0 (set_name [107; 101; 114; 110; 101; 108]);;
  update_thread 0 (with_state Runnable);;
  k ← gets (λ s, Vmm.kernel_space (vm s));
  update_thread 0 (with_space k);;
  update_thread 0 (set_cwd [47]);;
  modify (set_nr 1);;
  modify (set_current 0).

(** The first trap frame of a kernel thread; [tramp] is the address of
    [kthread_trampoline]. *)
Definition kthread_frame (tramp f arg sp : Z) (fr : frame) : frame :=
  mkFrame (r15 fr) (r14 fr) (r13 fr) (r12 fr) (r11 fr) (r10 fr) (r9 fr) (r8 fr)
    (rbp fr) arg (rsi fr) (rdx fr) (rcx fr) f (rax fr) (vector fr) (err fr)
    tramp 0x08 0x202 sp 0x10.

Definition kthread_create (tramp : Z) (nm : list Z) (f arg : Z) : M (sched P) Z :=
  r ← for_range 0 SCHED_MAX_THREADS (λ i,
    t ← aget threads i;
    if decide (state t = Unused) then mret (Some i) else mret None);
  let slot := default (-1) r in
  if slot <? 0 then mret (-1)
  else
    pa ← vm_call (Vmm.pmm_call (alloc_pages (THREAD_KSTACK_SIZE / PAGE_SIZE) PAGE_SIZE));
    if pa =? 0 then mret (-1)
    else
      update_thread slot (λ _, zeroed);;
      update_thread slot (with_tid slot);;
      update_thread slot (with_state Runnable);;
      k ← gets (λ s, Vmm.kernel_space (vm s));
      update_thread slot (with_space k);;
      va ← pa_to_va pa;
      update_thread slot (with_kstack (u64 (va + THREAD_KSTACK_SIZE)) pa);;
      update_thread slot (set_name nm);;
      update_thread slot (λ t,
        with_saved (kthread_frame tramp f arg (kstack_top t) (saved t)) t);;
      grow_nr slot;;
      mret slot.

Definition alloc_thread_slot (nm : list Z) : M (sched P) Z :=
  r ← for_range 0 SCHED_MAX_THREADS (λ i,
    t ← aget threads i;
    if decide (state t = Unused) then
      update_thread i (λ _, zeroed);;
      update_thread i (λ t, with_fds ((λ u, mkUfd (-1) (pos u)) <$> fds t) t);;
      update_thread i (with_vt (-1));;
      update_thread i (set_cwd [47]);;
      update_thread i (with_tid i);;
      update_thread i (with_state Runnable);;
      update_thread i (set_name nm);;
      grow_nr i;;
      mret (Some i)
    else mret None);
  mret (default (-1) r).

Definition user_frame (entry sp : Z) (fr : frame) : frame :=
  mkFrame (r15 fr) (r14 fr) (r13 fr) (r12 fr) (r11 fr) (r10 fr) (r9 fr) (r8 fr)
    (rbp fr) (rdi fr) (rsi fr) (rdx fr) (rcx fr) (rbx fr) (rax fr) (vector fr) (err fr)
    entry (Z.lor 0x20 3) 0x202 sp (Z.lor 0x18 3).

Definition thread_create_user (nm : list Z) (entry user_rsp sp : Z) : M (sched P) Z :=
  slot ← alloc_thread_slot nm;
  if slot <? 0 then mret (-1)
  else
    pa ← vm_call (Vmm.pmm_call (alloc_pages (THREAD_KSTACK_SIZE / PAGE_SIZE) PAGE_SIZE));
    if pa =? 0 then mret (-1)
    else
      update_thread slot (with_space sp);;
      update_thread slot (with_user true);;
      va ← pa_to_va pa;
      update_thread slot (with_kstack (u64 (va + THREAD_KSTACK_SIZE)) pa);;
      update_thread slot (λ t, with_saved (user_frame entry user_rsp (saved t)) t);;
      mret slot.

Definition pick_next : M (sched P) Z :=
  cur ← gets current_idx;
  r ← for_range 1 (SCHED_MAX_THREADS + 1) (λ i,
    let idx := (cur + i) mod SCHED_MAX_THREADS in
    t ← aget threads idx;
    if decide (state t = Runnable) then mret (Some idx) else mret None);
  mret (default cur r).

(** Returns the frame left in [*f]. *)
Definition switch_to (f : frame) (to : Z) : M (sched P) frame :=
  cur ← gets current_idx;
  update_thread cur (with_saved f);;
  modify (set_current to);;
  nt ← aget threads to;
  old ← aget threads cur;
  (if negb (space nt =? 0) && negb (space nt =? space old)
   then vm_call (Vmm.switch (space nt)) else mret tt);;
  (if negb (kstack_top nt =? 0) then modify (set_rsp0 (kstack_top nt)) else mret tt);;
  mret (saved nt).

Definition sched_tick (f : frame) : M (sched P) frame :=
  modify (λ s, set_slice (u64 (last_slice s + 1)) s);;
  n ← gets last_slice;
  if n <? TIMESLICE_TICKS then mret f
  else
    modify (set_slice 0);;
    next ← pick_next;
    cur ← gets current_idx;
    if next =? cur then mret f else switch_to f next.

(** [idt.rs], the timer interrupt. *)
Definition on_timer (f : frame) : M (sched P) frame :=
  modify (λ s, set_ticks (u64 (timer_ticks s + 1)) s);;
  e ← gets sched_enabled;
  if (e : bool) then sched_tick f else mret f.

(** [int 32] enters the timer handler with frame [f].  The handler's [eoi(0)] is
    not part of this state; [Machine.syscall_done] adds it. *)
Definition sched_yield (f : frame) : M (sched P) frame :=
  modify (set_slice TIMESLICE_TICKS);;
  on_timer f.

Definition current : M (sched P) thread :=
  i ← gets current_idx; aget threads i.

(** Up to the final halt loop, where the dead thread stays until it is
    reaped. *)
Definition sched_thread_exit (f : frame) : M (sched P) frame :=
  i ← gets current_idx;
  update_thread i (with_state Zombie);;
  sched_yield f.

Definition sched_reap (id : Z) : M (sched P) unit :=
  ks ← gets (λ s, Vmm.kernel_space (vm s));
  t ← aget threads id;
  if negb (bool_decide (state t = Zombie)) then mret tt
  else
    (if is_user t && negb (space t =? 0) && negb (space t =? ks)
     then vm_call (Vmm.destroy_space (space t)) else mret tt);;
    (if negb (kstack_pa t =? 0) then
       for_each 0 (THREAD_KSTACK_SIZE / PAGE_SIZE) (λ i,
         vm_call (Vmm.pmm_call (free_page (kstack_pa t + i * PAGE_SIZE))))
     else mret tt);;
    update_thread id (λ _, zeroed).

Definition thread_at (i : Z) : M (sched P) (option thread) :=
  if i >=? SCHED_MAX_THREADS then mret None else t ← aget threads i; mret (Some t).

Definition count : M (sched P) Z := gets nr_threads.

Fixpoint count_from (n : nat) (i acc : Z) : M (sched P) Z :=
  match n with
  | O => mret acc
  | S n =>
      t ← aget threads i;
      count_from n (i + 1) (if decide (state t = Unused) then acc else acc + 1)
  end.
Definition count_running : M (sched P) Z :=
  n ← gets nr_threads; count_from (Z.to_nat n) 0 0.
End sched.

(** ** Well-formed tables *)
Section facts.
Context {P : Type} `{PageAllocator P}.
Implicit Types s : sched P.

Record thread_ok (i : Z) (t : thread) : Prop := {
  to_tid : state t ≠ Unused → tid t = i;
  to_name : zlen (name t) = NAME_LEN;
  to_cwd : zlen (cwd t) = CWD_LEN;
  to_fds : zlen (fds t) = UFD_MAX;
}.

Record sched_ok s : Prop := {
  so_len : zlen (threads s) = SCHED_MAX_THREADS;
  so_cur : 0 ≤ current_idx s < SCHED_MAX_THREADS;
  so_thread i t : zget (threads s) i = Some t → thread_ok i t;
  so_nr : 0 ≤ nr_threads s ≤ SCHED_MAX_THREADS;
  so_used i t : zget (threads s) i = Some t → state t ≠ Unused → i < nr_threads s;
  so_slice : 0 ≤ last_slice s ≤ TIMESLICE_TICKS;
}.

(** CR3 holds the space of the running thread. *)
Definition space_loaded s : Prop := ∀ t,
  zget (threads s) (current_idx s) = Some t → space t ≠ 0 → Vmm.cr3 (vm s) = space t.

Lemma thread_at_lt s i :
  sched_ok s → 0 ≤ i < SCHED_MAX_THREADS → ∃ t, zget (threads s) i = Some t.
Proof. intros Hok Hi. apply zget_lt. by rewrite (so_len _ Hok). Qed.

Lemma wp_update_thread i f s (Q : unit → sched P → Prop) :
  (∃ t, zget (threads s) i = Some t ∧ Q tt (set_threads (zset (threads s) i (f t)) s)) →
  wp (update_thread i f) Q s.
Proof.
  intros (t & Ht & HQ). unfold update_thread. wp_run. apply wp_aget.
  exists t. split; [done|]. by wp_run.
Qed.

Lemma thread_ok_frame i t f : thread_ok i t → thread_ok i (with_saved f t).
Proof. by intros []; split. Qed.

Lemma sched_ok_set s i t l :
  sched_ok s → 0 ≤ i < SCHED_MAX_THREADS → thread_ok i t →
  (state t ≠ Unused → i < nr_threads s) →
  l = zset (threads s) i t → sched_ok (set_threads l s).
Proof.
  intros Hok Hi Ht Hn ->. pose proof (so_len _ Hok) as Hlen.
  assert (∀ j, zget (zset (threads s) i t) j = if decide (i = j) then Some t
    else zget (threads s) j) as Hget by (intros j; apply zget_zset; lia).
  destruct Hok. split; simpl; try done.
  - by rewrite zlen_zset.
  - intros j u. rewrite Hget. case_decide; [intros [= <-]; by subst|eauto].
  - intros j u. rewrite Hget. case_decide; [intros [= <-]; subst; eauto|eauto].
Qed.

(** ** Choice of the next thread *)
Definition runnable s (i : Z) : bool :=
  match zget (threads s) i with
  | Some t => bool_decide (state t = Runnable)
  | None => false
  end.
(** How far after the current one the next runnable thread is. *)
Definition next_offset s : option Z :=
  find_first (λ i, runnable s ((current_idx s + i) mod SCHED_MAX_THREADS)) 1
    (SCHED_MAX_THREADS + 1).
Definition next_idx s : Z :=
  match next_offset s with
  | Some i => (current_idx s + i) mod SCHED_MAX_THREADS
  | None => current_idx s
  end.

Lemma mod_slots i : 0 ≤ i mod SCHED_MAX_THREADS < SCHED_MAX_THREADS.
Proof. by apply Z.mod_pos_bound. Qed.

Lemma wp_pick_next s :
  sched_ok s → wp pick_next (λ r s', s' = s ∧ r = next_idx s) s.
Proof.
  intros Hok. unfold pick_next. wp_run.
  set (Q := λ i, runnable s ((current_idx s + i) mod SCHED_MAX_THREADS)).
  eapply (wp_for_find Q); [done| | |].
  - intros i Hi HQ. destruct (thread_at_lt s _ Hok (mod_slots (current_idx s + i))) as [t Ht].
    apply wp_bind, wp_aget. exists t. split; [done|].
    unfold Q, runnable in HQ. rewrite Ht in HQ. apply bool_decide_eq_false in HQ.
    rewrite decide_False by done. by wp_run.
  - intros i Hi HQ Hb. destruct (thread_at_lt s _ Hok (mod_slots (current_idx s + i))) as [t Ht].
    apply wp_bind, wp_aget. exists t. split; [done|].
    assert (next_offset s = Some i) as Hf by (apply find_first_Some; done).
    unfold Q, runnable in HQ. rewrite Ht in HQ. apply bool_decide_eq_true in HQ.
    rewrite decide_True by done. wp_run. eexists. split; [done|]. wp_run.
    unfold next_idx. by rewrite Hf.
  - intros Hn. wp_run. unfold next_idx, next_offset. fold Q.
    by rewrite (proj2 (find_first_None Q 1 (SCHED_MAX_THREADS + 1)) Hn).
Qed.

Lemma next_idx_range s : sched_ok s → 0 ≤ next_idx s < SCHED_MAX_THREADS.
Proof.
  intros Hok. unfold next_idx. destruct (next_offset s); [apply mod_slots|apply (so_cur _ Hok)].
Qed.

(** Cyclic distance from the current thread to [j]. *)
Definition distance s (j : Z) : Z := (j - current_idx s) mod SCHED_MAX_THREADS.

Lemma distance_zero s j :
  sched_ok s → 0 ≤ j < SCHED_MAX_THREADS → distance s j = 0 ↔ current_idx s = j.
Proof.
  intros Hok Hj. pose proof (so_cur _ Hok). unfold distance, SCHED_MAX_THREADS in *.
  split; intros Hd; [|subst; by rewrite Z.sub_diag].
  apply Z.mod_divide in Hd as [k Hk]; [|done]. lia.
Qed.

(** Unless [j] runs, it is runnable at its distance, so the scan stops no
    later. *)
Lemma next_offset_distance s j :
  sched_ok s → 0 ≤ j < SCHED_MAX_THREADS → runnable s j = true → current_idx s ≠ j →
  ∃ i, next_offset s = Some i ∧ 1 ≤ i ≤ distance s j.
Proof.
  intros Hok Hj Hr Hne. pose proof (so_cur _ Hok) as Hc.
  assert (0 < distance s j < SCHED_MAX_THREADS) as Hd.
  { pose proof (mod_slots (j - current_idx s)). pose proof (distance_zero s j Hok Hj).
    unfold distance in *. lia. }
  assert ((current_idx s + distance s j) mod SCHED_MAX_THREADS = j) as Hat.
  { unfold distance. rewrite Z.add_mod_idemp_r by done.
    replace (current_idx s + (j - current_idx s)) with j by lia. by apply Z.mod_small. }
  destruct (next_offset s) as [i|] eqn:Hn.
  - exists i. split; [done|]. apply find_first_Some in Hn as (Hi & _ & Hb).
    split; [lia|]. destruct (Z.le_gt_cases i (distance s j)) as [|Hgt]; [done|].
    specialize (Hb (distance s j)). rewrite Hat, Hr in Hb by lia. discriminate Hb. lia.
  - pose proof (proj1 (find_first_None _ _ _) Hn (distance s j)) as Hb. simpl in Hb.
    rewrite Hat, Hr in Hb by lia. discriminate Hb. lia.
Qed.

Lemma distance_step s j i :
  sched_ok s → 0 ≤ j < SCHED_MAX_THREADS → 1 ≤ i ≤ distance s j →
  (j - (current_idx s + i) mod SCHED_MAX_THREADS) mod SCHED_MAX_THREADS = distance s j - i.
Proof.
  intros Hok Hj Hi. rewrite Zminus_mod_idemp_r.
  replace (j - (current_idx s + i)) with ((j - current_idx s) - i) by lia.
  rewrite <- Zminus_mod_idemp_l. fold (distance s j). apply Z.mod_small.
  pose proof (mod_slots (j - current_idx s)). unfold distance in *. lia.
Qed.
End facts.

(** ** Switching *)
Section switching.
Context {P : Type} `{PageAllocator P}.
Implicit Types s : sched P.

(** [s'] and [f'] after switching from the current thread, interrupted with
    frame [f], to thread [to]. *)
Record switched s (f : frame) (to : Z) (f' : frame) (s' : sched P) : Prop := {
  sw_threads : ∀ i, zget (threads s') i =
    if decide (i = current_idx s) then with_saved f <$> zget (threads s) i
    else zget (threads s) i;
  sw_len : zlen (threads s') = zlen (threads s);
  sw_cur : current_idx s' = to;
  sw_frame : saved <$> zget (threads s) to = Some f';
  sw_cr3 : Vmm.cr3 (vm s') =
    match zget (threads s) to, zget (threads s) (current_idx s) with
    | Some nt, Some old =>
        if (space nt =? 0) || (space nt =? space old) then Vmm.cr3 (vm s) else space nt
    | _, _ => Vmm.cr3 (vm s)
    end;
  sw_rsp0 : rsp0 s' =
    match zget (threads s) to with
    | Some nt => if kstack_top nt =? 0 then rsp0 s else kstack_top nt
    | None => rsp0 s
    end;
  sw_rest : nr_threads s' = nr_threads s ∧ last_slice s' = last_slice s ∧
    timer_ticks s' = timer_ticks s ∧ sched_enabled s' = sched_enabled s ∧
    hhdm s' = hhdm s ∧ Vmm.phys (vm s') = Vmm.phys (vm s) ∧
    Vmm.allocator (vm s') = Vmm.allocator (vm s) ∧ Vmm.kernel_space (vm s') = Vmm.kernel_space (vm s);
}.

Lemma wp_switch_to s f to :
  sched_ok s → 0 ≤ to < SCHED_MAX_THREADS → to ≠ current_idx s →
  wp (switch_to f to) (λ f' s', switched s f to f' s') s.
Proof.
  intros Hok Hto Hne. pose proof (so_cur _ Hok) as Hc. pose proof (so_len _ Hok) as Hl.
  destruct (thread_at_lt s to Hok Hto) as [nt Hnt].
  destruct (thread_at_lt s _ Hok Hc) as [old Hold].
  unfold switch_to. wp_run. apply wp_update_thread. exists old. split; [done|]. wp_run.
  apply wp_aget. exists nt. split.
  { simpl. by rewrite zget_zset_ne by lia. }
  wp_run. apply wp_aget. exists (with_saved f old).
  split; [simpl; apply zget_zset_eq; lia|]. wp_run.
  assert (∀ i, zget (zset (threads s) (current_idx s) (with_saved f old)) i =
    if decide (i = current_idx s) then with_saved f <$> zget (threads s) i
    else zget (threads s) i) as Hthr.
  { intros i. rewrite zget_zset by lia. case_decide; subst.
    - by rewrite decide_True, Hold by done.
    - by rewrite decide_False by done. }
  pose proof (zlen_zset (threads s) (current_idx s) (with_saved f old)) as Hzl.
  change (space (with_saved f old)) with (space old). rewrite <- negb_orb.
  destruct (_ || _) eqn:Esp; cbn [negb];
    [|unfold vm_call, Vmm.switch; wp_run];
    destruct (kstack_top nt =? 0) eqn:Ek; cbn [negb]; wp_run;
    (split; simpl; rewrite ?Hnt, ?Hold, ?Ek, ?Esp; done).
Qed.

Lemma switched_ok s f to f' s' :
  sched_ok s → 0 ≤ to < SCHED_MAX_THREADS → switched s f to f' s' → sched_ok s'.
Proof.
  intros Hok Hto [Ht Hl Hc _ _ _ (Hn & Hs & _)].
  destruct Hok as [H1 H2 H3 H4 H5 H6]. split; try congruence.
  - intros i t. rewrite Ht. case_decide; [|auto].
    destruct (zget (threads s) i) as [u|] eqn:Hu; [|done]. intros [= <-].
    apply thread_ok_frame. auto.
  - intros i t. rewrite Ht, Hn. case_decide; [|eauto].
    destruct (zget (threads s) i) as [u|] eqn:Hu; [|done]. intros [= <-]. eauto.
Qed.

Lemma switched_loaded s f to f' s' :
  sched_ok s → 0 ≤ to < SCHED_MAX_THREADS → to ≠ current_idx s →
  space_loaded s → switched s f to f' s' → space_loaded s'.
Proof.
  intros Hok Hto Hne Hld Hsw t. rewrite (sw_cur _ _ _ _ _ Hsw), (sw_threads _ _ _ _ _ Hsw).
  rewrite decide_False by done. intros Hnt Hsp. rewrite (sw_cr3 _ _ _ _ _ Hsw), Hnt.
  destruct (thread_at_lt s _ Hok (so_cur _ Hok)) as [old Hold]. rewrite Hold.
  rewrite (proj2 (Z.eqb_neq (space t) 0)) by done. simpl.
  destruct (Z.eqb_spec (space t) (space old)) as [Heq|]; [|done].
  rewrite Heq in *. by apply Hld.
Qed.

(** The same states, hence the same choice. *)
Lemma switched_runnable s f to f' s' i :
  switched s f to f' s' → runnable s' i = runnable s i.
Proof.
  intros Hsw. unfold runnable. rewrite (sw_threads _ _ _ _ _ Hsw). case_decide; [|done].
  by destruct (zget (threads s) i).
Qed.

Lemma set_slice_ok s n : sched_ok s → 0 ≤ n ≤ TIMESLICE_TICKS → sched_ok (set_slice n s).
Proof. by intros [] ?; split. Qed.

Lemma next_idx_slice s n : next_idx (set_slice n s) = next_idx s.
Proof.
  unfold next_idx. assert (next_offset (set_slice n s) = next_offset s) as ->;
    [by unfold next_offset|done].
Qed.

(** One timer tick with live frame [f]. *)
Inductive ticked s (f f' : frame) (s' : sched P) : Prop :=
  | tick_count : last_slice s + 1 < TIMESLICE_TICKS → f' = f →
      s' = set_slice (last_slice s + 1) s → ticked s f f' s'
  | tick_alone : TIMESLICE_TICKS ≤ last_slice s + 1 → next_idx s = current_idx s → f' = f →
      s' = set_slice 0 s → ticked s f f' s'
  | tick_switch : TIMESLICE_TICKS ≤ last_slice s + 1 → next_idx s ≠ current_idx s →
      switched (set_slice 0 s) f (next_idx s) f' s' → ticked s f f' s'.

Lemma wp_sched_tick s f :
  sched_ok s → wp (sched_tick f) (λ f' s', ticked s f f' s') s.
Proof.
  intros Hok. pose proof (so_slice _ Hok) as Hs. unfold TIMESLICE_TICKS in Hs.
  unfold sched_tick. wp_run. cbn [last_slice set_slice]. rewrite u64_id by lia.
  destruct (Z.ltb_spec (last_slice s + 1) TIMESLICE_TICKS); wp_run.
  { by apply tick_count. }
  set (s0 := set_slice 0 _). assert (s0 = set_slice 0 s) as -> by done.
  assert (sched_ok (set_slice 0 s)) as Hok0 by (by apply set_slice_ok).
  wp_use wp_pick_next; [done|]. intros r s' [-> ->]. wp_run. cbn [current_idx set_slice].
  rewrite next_idx_slice.
  destruct (Z.eqb_spec (next_idx s) (current_idx s)) as [|Hne]; wp_run; [by apply tick_alone|].
  wp_use (wp_switch_to (set_slice 0 s) f (next_idx s) Hok0 (next_idx_range s Hok) Hne).
  intros f' s'. by apply tick_switch.
Qed.

Lemma ticked_ok s f f' s' : sched_ok s → ticked s f f' s' → sched_ok s'.
Proof.
  intros Hok Ht. pose proof (so_slice _ Hok). destruct Ht as [? _ ->|? _ _ ->|? ? Hsw].
  - apply set_slice_ok; [done|lia].
  - by apply set_slice_ok.
  - eapply switched_ok; [by apply (set_slice_ok s 0)|exact (next_idx_range s Hok)|exact Hsw].
Qed.

Lemma ticked_loaded s f f' s' :
  sched_ok s → space_loaded s → ticked s f f' s' → space_loaded s'.
Proof.
  intros Hok Hld [? _ ->|? _ _ ->|? Hne Hsw]; [done|done|].
  eapply switched_loaded;
    [by apply (set_slice_ok s 0)|exact (next_idx_range s Hok)|exact Hne|exact Hld|exact Hsw].
Qed.

Lemma ticked_runnable s f f' s' i : ticked s f f' s' → runnable s' i = runnable s i.
Proof.
  intros [? _ ->|? _ _ ->|? ? Hsw]; [done|done|]. by rewrite (switched_runnable _ _ _ _ _ _ Hsw).
Qed.

(** Ticks left before thread [j] runs, at most. *)
Definition ticks_to s (j : Z) : Z :=
  5 * distance s j + 5 - Z.min 4 (last_slice s).

Lemma ticked_progress s f f' s' j :
  sched_ok s → 0 ≤ j < SCHED_MAX_THREADS → runnable s j = true → current_idx s ≠ j →
  ticked s f f' s' → ticks_to s' j < ticks_to s j.
Proof.
  intros Hok Hj Hr Hne Ht. pose proof (so_slice _ Hok) as Hs. unfold TIMESLICE_TICKS in *.
  destruct (next_offset_distance s j Hok Hj Hr Hne) as (i & Hi & Hd).
  unfold ticks_to. destruct Ht as [? _ ->|Hge Heq _ _|Hge _ Hsw]; unfold TIMESLICE_TICKS in *.
  - unfold distance. simpl. lia.
  - exfalso. unfold next_idx in Heq. rewrite Hi in Heq.
    apply find_first_Some in Hi as (Hi & _).
    pose proof (so_cur _ Hok). unfold SCHED_MAX_THREADS in *.
    assert (distance s j < 32) by (unfold distance; apply Z.mod_pos_bound; done).
    dlia.
  - destruct Hsw as [_ _ Hc _ _ _ (_ & Hls & _)]. simpl in Hls. rewrite Hls.
    assert (distance s' j = distance s j - i) as ->; [|lia].
    unfold distance at 1. rewrite Hc. unfold next_idx. rewrite Hi. by apply distance_step.
Qed.
End switching.

(** ** Executions *)
Section executions.
Context {P : Type} `{PageAllocator P}.
Implicit Types s : sched P.

(** Timer ticks in sequence; between two of them the running thread turns
    its live frame into another one, by the functions of [gs]. *)
Fixpoint run (gs : list (frame → frame)) (f : frame) : M (sched P) frame :=
  match gs with
  | [] => mret f
  | g :: gs => f' ← sched_tick (g f); run gs f'
  end.

Lemma sched_tick_done s f :
  sched_ok s → ∃ f' s', sched_tick f s = Done (f', s') ∧ ticked s f f' s'.
Proof. intros Hok. by apply wp_returns, wp_sched_tick. Qed.

Lemma run_reaches s f j gs :
  sched_ok s → 0 ≤ j < SCHED_MAX_THREADS → runnable s j = true →
  ticks_to s j ≤ Z.of_nat (length gs) →
  ∃ k, (k ≤ length gs)%nat ∧ wp (run (take k gs) f) (λ _ s', current_idx s' = j) s.
Proof.
  intros Hok Hj Hr. revert s f Hok Hr. induction gs as [|g gs IH]; intros s f Hok Hr Hk.
  - exists 0%nat. split; [done|]. apply wp_ret.
    destruct (decide (current_idx s = j)) as [|Hne]; [done|].
    assert (0 ≤ distance s j) by apply mod_slots. unfold ticks_to in Hk. simpl in Hk. lia.
  - destruct (decide (current_idx s = j)) as [|Hne].
    { exists 0%nat. split; [lia|]. by apply wp_ret. }
    destruct (sched_tick_done s (g f) Hok) as (f' & s' & Hrun & Ht).
    destruct (IH s' f') as (k & Hkl & Hwp).
    + by eapply ticked_ok.
    + by rewrite (ticked_runnable _ _ _ _ _ Ht).
    + pose proof (ticked_progress _ _ _ _ _ Hok Hj Hr Hne Ht).
      cbn [length] in Hk. lia.
    + exists (S k). split; [simpl; lia|]. cbn [take run]. apply wp_bind.
      apply (wp_done _ _ _ _ _ Hrun). exact Hwp.
Qed.

(** ** The context of a thread *)
(** CR3 and the TSS are the running thread's. *)
Definition loaded s : Prop := ∀ t, zget (threads s) (current_idx s) = Some t →
  (space t ≠ 0 → Vmm.cr3 (vm s) = space t) ∧ (kstack_top t ≠ 0 → rsp0 s = kstack_top t).

(** The processor enters the scheduler with frame [f] and leaves it with [f']:
    a timer interrupt, a yield, or the end of the running thread. *)
Inductive enters s (f f' : frame) (s' : sched P) : Prop :=
  | by_timer : on_timer f s = Done (f', s') → enters s f f' s'
  | by_yield : sched_yield f s = Done (f', s') → enters s f f' s'
  | by_exit : runnable s (current_idx s) = true → sched_thread_exit f s = Done (f', s') → enters s f f' s'.
(** Others enter it while thread [a] does not run, each with any frame. *)
Inductive away (a : Z) : frame → sched P → frame → sched P → Prop :=
  | away_refl f s : away a f s f s
  | away_step f s g f1 s1 f2 s2 :
      current_idx s ≠ a → enters s g f1 s1 → away a f1 s1 f2 s2 → away a f s f2 s2.

(** Thread [a] is [t] but for its slot's frame; its context is [f]: live when
    it runs, in its slot otherwise. *)
Record held (a : Z) (f : frame) (t : thread) (live : frame) s : Prop := {
  hd_ok : sched_ok s;
  hd_loaded : loaded s;
  hd_thread : ∃ g, zget (threads s) a = Some (with_saved g t) ∧ (current_idx s ≠ a → g = f);
  hd_live : current_idx s = a → live = f;
}.

Lemma held_slice a f t live n s : 0 ≤ n ≤ TIMESLICE_TICKS → held a f t live s → held a f t live (set_slice n s).
Proof. intros Hn [Hok Hl Ht Hv]. split; [by apply set_slice_ok|exact Hl|exact Ht|exact Hv]. Qed.
Lemma held_switched a f t g to f' s s' :
  0 ≤ to < SCHED_MAX_THREADS → to ≠ current_idx s → held a f t g s → switched s g to f' s' → held a f t f' s'.
Proof.
  intros Hto Hne [Hok Hl (h & Ha & Hh) Hv] Hsw. pose proof Hsw as [Hthr _ Hc Hf Hcr Hr _].
  assert (∃ h', zget (threads s') a = Some (with_saved h' t) ∧ h' = f) as (h' & Ha' & ->).
  { rewrite Hthr. destruct (decide (a = current_idx s)) as [->|Hna].
    - rewrite Ha. exists g. split; [done|by apply Hv].
    - exists h. split; [done|]. by apply Hh. }
  split; [by eapply switched_ok| |by exists f|].
  - intros u. rewrite Hc, Hthr, decide_False by done. intros Hu. rewrite Hu in Hcr, Hr.
    destruct (thread_at_lt s _ Hok (so_cur _ Hok)) as [old Hold]. rewrite Hold in Hcr. destruct (Hl _ Hold) as [Hl1 _].
    rewrite Hcr, Hr. split; intros Hn.
    + rewrite (proj2 (Z.eqb_neq _ _) Hn). cbn [orb]. destruct (Z.eqb_spec (space u) (space old)) as [E|]; [|done].
      rewrite E in *. by apply Hl1.
    + by rewrite (proj2 (Z.eqb_neq _ _) Hn).
  - rewrite Hc. intros ->. rewrite Hthr, decide_False in Ha' by done. rewrite Ha' in Hf. by injection Hf as <-.
Qed.
Lemma held_ticked a f t g f' s s' : held a f t g s → ticked s g f' s' → held a f t f' s'.
Proof.
  intros Hh Ht. pose proof (so_slice _ (hd_ok _ _ _ _ _ Hh)). unfold TIMESLICE_TICKS in *.
  destruct Ht as [? -> ->|_ _ -> ->|_ Hne Hsw]; unfold TIMESLICE_TICKS in *.
  - apply held_slice; [unfold TIMESLICE_TICKS; lia|done].
  - by apply held_slice.
  - apply (held_switched a f t g (next_idx s) f' (set_slice 0 s) s'); [apply (next_idx_range s), Hh|exact Hne|by apply held_slice|exact Hsw].
Qed.

Lemma wp_held_timer a f t g s : held a f t g s → wp (on_timer g) (held a f t) s.
Proof.
  intros [Hok Hl Ht Hv]. unfold on_timer. wp_run. set (s1 := set_ticks _ s).
  assert (held a f t g s1) as Hh by (split; [by destruct Hok|exact Hl|exact Ht|exact Hv]).
  destruct (sched_enabled _); [|by wp_run]. wp_use wp_sched_tick; [apply Hh|]. intros f' s'. by apply held_ticked.
Qed.
Lemma wp_held_yield a f t g s : held a f t g s → wp (sched_yield g) (held a f t) s.
Proof. intros Hh. unfold sched_yield. wp_run. by apply wp_held_timer, held_slice. Qed.
Lemma wp_held_exit a f t g s :
  held a f t g s → current_idx s ≠ a → runnable s (current_idx s) = true → wp (sched_thread_exit g) (held a f t) s.
Proof.
  intros [Hok Hl (h & Ha & Hh) Hv] Hne Hr. pose proof (so_cur _ Hok) as Hc. pose proof (so_len _ Hok) as Hlen.
  destruct (thread_at_lt s _ Hok Hc) as [u Hu]. unfold runnable in Hr. rewrite Hu in Hr. apply bool_decide_eq_true in Hr.
  unfold sched_thread_exit. wp_run. apply wp_update_thread. exists u. split; [done|]. apply wp_held_yield.
  split.
  - eapply sched_ok_set; [done|exact Hc| | |done].
    + destruct (so_thread _ Hok _ _ Hu) as [H1 H2 H3 H4]. split; [|done..]. intros _. apply H1. congruence.
    + intros _. apply (so_used _ Hok _ _ Hu). congruence.
  - intros v. cbn [threads set_threads current_idx vm rsp0]. rewrite zget_zset_eq by lia. intros [= <-].
    exact (Hl _ Hu).
  - exists h. split; [|done]. cbn [threads set_threads current_idx]. by rewrite zget_zset_ne by lia.
  - done.
Qed.
Lemma held_enters a f t g f' s s' :
  held a f t g s → (current_idx s = a → ¬ sched_thread_exit g s = Done (f', s')) → enters s g f' s' → held a f t f' s'.
Proof.
  intros Hh Hx [E|E|Hr E].
  - pose proof (wp_held_timer a f t g s Hh) as Hw. by rewrite (wp_done _ _ _ _ _ E) in Hw.
  - pose proof (wp_held_yield a f t g s Hh) as Hw. by rewrite (wp_done _ _ _ _ _ E) in Hw.
  - pose proof (wp_held_exit a f t g s Hh) as Hw. rewrite (wp_done _ _ _ _ _ E) in Hw. apply Hw; [|done].
    intros Hc. by destruct (Hx Hc).
Qed.
Lemma held_away a f t f1 s1 f2 s2 : away a f1 s1 f2 s2 → held a f t f1 s1 → held a f t f2 s2.
Proof.
  induction 1 as [|f1 s1 g f' s' f2 s2 Hne He _ IH]; intros Hh; [done|]. apply IH.
  apply (held_enters a f t g f' s1 s'); [|done|exact He].
  destruct Hh as [H1 H2 H3 H4]. by split.
Qed.

(** ** What entering the scheduler leaves alone *)
(** Memory, and the threads but for the frames in their slots. *)
Record resched s s' : Prop := {
  rs_ok : sched_ok s';
  rs_phys : Vmm.phys (vm s') = Vmm.phys (vm s);
  rs_alloc : Vmm.allocator (vm s') = Vmm.allocator (vm s);
  rs_kernel : Vmm.kernel_space (vm s') = Vmm.kernel_space (vm s);
  rs_threads i : with_saved zero_frame <$> zget (threads s') i = with_saved zero_frame <$> zget (threads s) i;
}.
Lemma resched_refl s : sched_ok s → resched s s.
Proof. by split. Qed.
Lemma resched_trans s1 s2 s3 : resched s1 s2 → resched s2 s3 → resched s1 s3.
Proof. intros [] []. split; congruence. Qed.
Lemma ticked_resched s f f' s' : sched_ok s → ticked s f f' s' → resched s s'.
Proof.
  intros Hok Ht. pose proof (ticked_ok _ _ _ _ Hok Ht) as Hok'. destruct Ht as [_ _ ->|_ _ _ ->|_ _ Hsw]; [by split|by split|].
  destruct (sw_rest _ _ _ _ _ Hsw) as (_ & _ & _ & _ & _ & E1 & E2 & E3). split; try done.
  intros i. rewrite (sw_threads _ _ _ _ _ Hsw). cbn [threads set_slice current_idx]. case_decide; [|done].
  by destruct (zget (threads s) i).
Qed.
Lemma wp_resched_timer f s : sched_ok s → wp (on_timer f) (λ _, resched s) s.
Proof.
  intros Hok. unfold on_timer. wp_run. set (s1 := set_ticks _ s). assert (sched_ok s1) as Hok1 by (by destruct Hok).
  assert (resched s s1) as R by (by split). destruct (sched_enabled _); [|by wp_run].
  wp_use wp_sched_tick; [done|]. intros f' s' Ht. eapply resched_trans; [exact R|by eapply ticked_resched].
Qed.
Lemma wp_resched_yield f s : sched_ok s → wp (sched_yield f) (λ _, resched s) s.
Proof.
  intros Hok. unfold sched_yield. wp_run. eapply wp_mono; [by apply wp_resched_timer, set_slice_ok|].
  intros r s'. apply resched_trans. split; [by apply set_slice_ok|done..].
Qed.

(** The processor goes through the scheduler, by a timer interrupt or a yield. *)
Definition reschedules s s' : Prop := ∃ f f', on_timer f s = Done (f', s') ∨ sched_yield f s = Done (f', s').
Lemma reschedules_resched s s' : sched_ok s → rtc reschedules s s' → resched s s'.
Proof.
  intros Hok Hr. induction Hr as [s|s s1 s' (f & f' & E) _ IH]; [by apply resched_refl|].
  assert (resched s s1) as R.
  { destruct E as [E|E]; [pose proof (wp_resched_timer f s Hok) as Hw|pose proof (wp_resched_yield f s Hok) as Hw];
      by rewrite (wp_done _ _ _ _ _ E) in Hw. }
  eapply resched_trans; [exact R|]. apply IH, R.
Qed.
(** The running thread ends. *)
Lemma wp_resched_exit f s t :
  sched_ok s → zget (threads s) (current_idx s) = Some t → state t ≠ Unused →
  wp (sched_thread_exit f) (λ _, resched (set_threads (zset (threads s) (current_idx s) (with_state Zombie t)) s)) s.
Proof.
  intros Hok Ht Hs. unfold sched_thread_exit. wp_run. apply wp_update_thread. exists t. split; [done|].
  apply wp_resched_yield. eapply sched_ok_set; [done|apply (so_cur _ Hok)| | |done].
  - destruct (so_thread _ Hok _ _ Ht) as [H1 H2 H3 H4]. split; [|done..]. intros _. by apply H1.
  - intros _. by apply (so_used _ Hok _ _ Ht).
Qed.
End executions.

(** ** Creation and reaping *)
Section lifecycle.
Context {P : Type} `{PageAllocatorLaws P}.
Implicit Types s : sched P.

Definition first_unused s : option Z :=
  find_first (λ i, match zget (threads s) i with
                   | Some t => bool_decide (state t = Unused)
                   | None => false
                   end) 0 SCHED_MAX_THREADS.

(** The pages of the kernel stack at [pa]. *)
Definition stack_page (pa b : Z) : Prop := ∃ k, 0 ≤ k < 4 ∧ b = pa + k * PAGE_SIZE.
#[global] Instance stack_page_dec pa b : Decision (stack_page pa b).
Proof.
  refine (cast_if (decide (0 ≤ (b - pa) / PAGE_SIZE < 4 ∧ (b - pa) mod PAGE_SIZE = 0))).
  - exists ((b - pa) / PAGE_SIZE). unfold PAGE_SIZE in *. split; [lia|].
    pose proof (Z.div_mod (b - pa) 4096). lia.
  - intros (k & Hk & ->). match goal with Hd : ¬ _ |- _ => apply Hd end. unfold PAGE_SIZE.
    rewrite Z.add_simpl_l, Z.div_mul, Z.mod_mul by done. done.
Defined.

Definition page_set s (b : Z) : Prop := avail (Vmm.allocator (vm s)) b.
Definition mem_inv s : Prop := alloc_inv (Vmm.allocator (vm s)).

Definition kernel_thread s (i : Z) (nm : list Z) (tramp f arg pa : Z) : thread :=
  let top := u64 (u64 (pa + hhdm s) + THREAD_KSTACK_SIZE) in
  mkThread i (c_array NAME_LEN nm) Runnable (kthread_frame tramp f arg top zero_frame)
    (Vmm.kernel_space (vm s)) top pa false (fds zeroed) (cwd zeroed) 0 0 (-1).

Definition user_thread_slot (i : Z) (nm : list Z) : thread :=
  mkThread i (c_array NAME_LEN nm) Runnable zero_frame 0 0 0 false (fds zeroed)
    (c_array CWD_LEN [47]) 0 0 (-1).

Definition user_thread s (i : Z) (nm : list Z) (entry sp space pa : Z) : thread :=
  mkThread i (c_array NAME_LEN nm) Runnable (user_frame entry sp zero_frame)
    space (u64 (u64 (pa + hhdm s) + THREAD_KSTACK_SIZE)) pa true (fds zeroed)
    (c_array CWD_LEN [47]) 0 0 (-1).

Lemma first_unused_some s i :
  first_unused s = Some i →
  0 ≤ i < SCHED_MAX_THREADS ∧ ∃ t, zget (threads s) i = Some t ∧ state t = Unused.
Proof.
  intros (Hi & HP & _)%find_first_Some. split; [done|].
  destruct (zget (threads s) i) as [t|]; [|done]. exists t. split; [done|].
  by apply bool_decide_eq_true in HP.
Qed.

Lemma wp_find_unused s (body : Z → M (sched P) (option Z)) (Q : option Z → sched P → Prop) :
  sched_ok s →
  (∀ i, first_unused s = Some i → wp (body i) (λ r s', ∃ x, r = Some x ∧ Q (Some x) s') s) →
  (first_unused s = None → Q None s) →
  wp (for_range 0 SCHED_MAX_THREADS (λ i,
        t ← aget threads i; if decide (state t = Unused) then body i else mret None)) Q s.
Proof.
  intros Hok Hhit Hnone.
  eapply (wp_for_find (λ i, match zget (threads s) i with
                   | Some t => bool_decide (state t = Unused)
                   | None => false
                   end)); [done| | |].
  - intros i Hi HP. destruct (thread_at_lt s i Hok) as [t Ht]; [lia|].
    apply wp_bind, wp_aget. exists t. split; [done|]. rewrite Ht in HP.
    apply bool_decide_eq_false in HP. rewrite decide_False by done. by wp_run.
  - intros i Hi HP Hb. destruct (thread_at_lt s i Hok) as [t Ht]; [lia|].
    apply wp_bind, wp_aget. exists t. split; [done|].
    assert (first_unused s = Some i) as Hf by (apply find_first_Some; done).
    rewrite Ht in HP. apply bool_decide_eq_true in HP. rewrite decide_True by done.
    by apply Hhit.
  - intros Hn. apply Hnone. by apply find_first_None.
Qed.

Lemma wp_grow_nr i s (Q : unit → sched P → Prop) :
  Q tt (set_nr (Z.max (nr_threads s) (i + 1)) s) → wp (grow_nr i) Q s.
Proof.
  intros HQ. unfold grow_nr. wp_run. rewrite Z.geb_leb.
  destruct (Z.leb_spec (nr_threads s) i); wp_run.
  - by rewrite Z.max_r in HQ by lia.
  - rewrite Z.max_l in HQ by lia. by destruct s.
Qed.

(** A live thread in slot [i]. *)
Lemma sched_ok_add s i t :
  sched_ok s → 0 ≤ i < SCHED_MAX_THREADS → thread_ok i t →
  sched_ok (set_nr (Z.max (nr_threads s) (i + 1)) (set_threads (zset (threads s) i t) s)).
Proof.
  intros Hok Hi Ht. pose proof (so_len _ Hok) as Hlen. destruct Hok.
  assert (∀ j, zget (zset (threads s) i t) j = if decide (i = j) then Some t
    else zget (threads s) j) as Hget by (intros j; apply zget_zset; lia).
  split; simpl; try done; try lia.
  - by rewrite zlen_zset.
  - intros j u. rewrite Hget. case_decide; [intros [= <-]; by subst|eauto].
  - intros j u. rewrite Hget. case_decide; [intros [= <-]; lia|].
    intros Hj Hst. pose proof (so_used0 j u Hj Hst). lia.
Qed.

Lemma sched_ok_vm s v : sched_ok s → sched_ok (set_vm v s).
Proof. by intros []; split. Qed.
End lifecycle.

Section creation.
Context {P : Type} `{PageAllocatorLaws P}.
Implicit Types s : sched P.

(** A step of a block of updates of slot [i]. *)
Ltac update_slot Hlen :=
  apply wp_update_thread; eexists; split;
  [first [eassumption | by apply zget_zset_eq; rewrite ?zlen_zset; simpl; lia]|];
  unfold set_threads; cbn [threads nr_threads current_idx last_slice timer_ticks
    sched_enabled rsp0 hhdm vm]; rewrite ?zset_zset; wp_run.

Lemma thread_ok_new i nm fr sp top pa u c b :
  zlen c = CWD_LEN →
  thread_ok i (mkThread i (c_array NAME_LEN nm) Runnable fr sp top pa u (fds zeroed) c b 0 (-1)).
Proof. intros Hc. split; try done. by apply zlen_c_array. Qed.

Lemma wp_alloc_thread_slot s nm :
  sched_ok s →
  wp (alloc_thread_slot nm) (λ r s', sched_ok s' ∧
    match first_unused s with
    | None => r = -1 ∧ s' = s
    | Some i => r = i ∧
        s' = set_nr (Z.max (nr_threads s) (i + 1))
               (set_threads (zset (threads s) i (user_thread_slot i nm)) s)
    end) s.
Proof.
  intros Hok. unfold alloc_thread_slot. wp_run. apply wp_find_unused; [done| |].
  - intros i Hf. rewrite Hf. destruct (first_unused_some _ _ Hf) as (Hi & t & Ht & Hst).
    pose proof (so_len _ Hok) as Hlen.
    wp_run. do 7 update_slot Hlen. apply wp_grow_nr. wp_run. exists i. split; [done|]. wp_run.
    split; [|done]. apply (sched_ok_add s i (user_thread_slot i nm)); [done|done|].
    by apply thread_ok_new.
  - intros ->. by wp_run.
Qed.

Lemma wp_alloc_stack s :
  mem_inv s →
  wp (vm_call (Vmm.pmm_call (alloc_pages (THREAD_KSTACK_SIZE / PAGE_SIZE) PAGE_SIZE)))
    (λ pa s', mem_inv s' ∧
      ((pa = 0 ∧ s' = s ∧ ∀ b, ¬ ∀ c, stack_page b c → page_set s c) ∨
       (0 < pa ∧ (∃ q, s' = set_vm (Vmm.set_allocator q (vm s)) s) ∧
        (∀ b, stack_page pa b → page_set s b) ∧
        (∀ b, page_set s' b ↔ page_set s b ∧ ¬ stack_page pa b)))) s.
Proof.
  intros Hm. unfold vm_call, Vmm.pmm_call. change (THREAD_KSTACK_SIZE / PAGE_SIZE) with 4.
  wp_run. wp_use (alloc_pages_law (Vmm.allocator (vm s)) 4 Hm); [lia|].
  intros pa p' [Hinv Hcase]. split; [done|].
  destruct Hcase as [(-> & -> & Hno)|(Hpa & Hav & Hset)].
  - left. split_and!; [done|by destruct s as [???????? []]|]. intros b Hb. apply (Hno b).
    intros k Hk. apply Hb. by exists k.
  - right. split_and!; [done| | |].
    + by eexists.
    + intros b (k & Hk & ->). by apply Hav.
    + intros b. unfold page_set. simpl. rewrite Hset. unfold stack_page. split.
      * intros [Hb Hne]. split; [done|]. intros (k & Hk & ->). by apply (Hne k).
      * intros [Hb Hne]. split; [done|]. intros k Hk ->. apply Hne. by exists k.
Qed.

Lemma wp_kthread_create s tramp nm f arg :
  sched_ok s → mem_inv s →
  wp (kthread_create tramp nm f arg) (λ r s', sched_ok s' ∧ mem_inv s' ∧
    ((r = -1 ∧ s' = s) ∨
     (first_unused s = Some r ∧ ∃ pa, 0 < pa ∧
      threads s' = zset (threads s) r (kernel_thread s r nm tramp f arg pa) ∧
      current_idx s' = current_idx s ∧
      (∀ b, stack_page pa b → page_set s b) ∧
      (∀ b, page_set s' b ↔ page_set s b ∧ ¬ stack_page pa b)))) s.
Proof.
  intros Hok Hm. unfold kthread_create. wp_run. apply wp_find_unused; [done| |].
  2: { intros Hn. simpl. wp_run. auto. }
  intros i Hf. destruct (first_unused_some _ _ Hf) as (Hi & t & Ht & Hst).
  wp_run. exists i. split; [done|]. cbn [default from_option id]. cbv zeta.
  rewrite (proj2 (Z.ltb_ge i 0)) by lia. wp_run.
  wp_use wp_alloc_stack; [done|]. intros pa s1 [Hm1 Hcase].
  destruct Hcase as [(-> & -> & _)|(Hpa & (q & ->) & Hst1 & Hset)].
  { cbn [Z.eqb]. wp_run. auto. }
  set (v := Vmm.set_allocator q (vm s)) in *.
  assert (Vmm.kernel_space v = Vmm.kernel_space (vm s)) as Hk by done. clearbody v.
  rewrite (proj2 (Z.eqb_neq pa 0)) by lia. wp_run.
  pose proof (so_len _ Hok) as Hlen. unfold set_vm. unfold pa_to_va.
  do 4 update_slot Hlen. do 3 update_slot Hlen.
  apply wp_grow_nr. wp_run. cbn [nr_threads set_nr threads current_idx hhdm vm]. split_and!.
  - apply (sched_ok_add (set_vm v s) i (kernel_thread (set_vm v s) i nm tramp f arg pa));
      [by apply sched_ok_vm|done|]. by apply thread_ok_new.
  - done.
  - right. split; [done|]. exists pa. split_and!; [done| |done|done|done].
    unfold kernel_thread. rewrite <- Hk. done.
Qed.

Lemma wp_thread_create_user s nm entry sp space :
  sched_ok s → mem_inv s →
  wp (thread_create_user nm entry sp space) (λ r s', sched_ok s' ∧ mem_inv s' ∧
    match first_unused s with
    | None => r = -1 ∧ s' = s
    | Some i =>
        (r = -1 ∧ threads s' = zset (threads s) i (user_thread_slot i nm) ∧
         current_idx s' = current_idx s ∧ vm s' = vm s ∧ ∀ b, ¬ ∀ c, stack_page b c → page_set s c) ∨
        (r = i ∧ ∃ pa, 0 < pa ∧
         threads s' = zset (threads s) i (user_thread s i nm entry sp space pa) ∧
         current_idx s' = current_idx s ∧
         (∃ q, vm s' = Vmm.set_allocator q (vm s)) ∧
         (∀ b, stack_page pa b → page_set s b) ∧
         (∀ b, page_set s' b ↔ page_set s b ∧ ¬ stack_page pa b))
    end) s.
Proof.
  intros Hok Hm. unfold thread_create_user. wp_run. wp_use wp_alloc_thread_slot; [done|].
  intros r s1 [Hok1 Hr]. destruct (first_unused s) as [i|] eqn:Hf.
  2: { destruct Hr as [-> ->]. simpl. by wp_run. }
  destruct Hr as [-> ->]. destruct (first_unused_some _ _ Hf) as (Hi & t & Ht & Hst).
  rewrite (proj2 (Z.ltb_ge i 0)) by lia. wp_run.
  wp_use wp_alloc_stack; [done|]. intros pa s2 [Hm2 Hcase].
  destruct Hcase as [(-> & -> & Hno)|(Hpa & (q & ->) & Hst1 & Hset)].
  { cbn [Z.eqb]. wp_run. split_and!; [done|done|]. by left. }
  rewrite (proj2 (Z.eqb_neq pa 0)) by lia. wp_run.
  pose proof (so_len _ Hok) as Hlen. unfold set_vm, set_nr, set_threads, pa_to_va in *.
  cbn [threads nr_threads current_idx last_slice timer_ticks sched_enabled rsp0 hhdm vm] in *.
  set (v := Vmm.set_allocator q (vm s)) in *.
  assert (∃ q, v = Vmm.set_allocator q (vm s)) as Hv by (by exists q). clearbody v.
  do 2 update_slot Hlen. do 2 update_slot Hlen. split_and!.
  - apply (sched_ok_add (set_vm v s) i (user_thread s i nm entry sp space pa));
      [by apply sched_ok_vm|done|]. by apply thread_ok_new.
  - done.
  - right. split; [done|]. exists pa. by split_and!.
Qed.
End creation.

Section reaping.
Context {P : Type} `{PageAllocatorLaws P}.
Implicit Types s : sched P.

Lemma wp_free_stack s pa :
  mem_inv s → 0 < pa →
  wp (for_each 0 (THREAD_KSTACK_SIZE / PAGE_SIZE) (λ i,
        vm_call (Vmm.pmm_call (free_page (pa + i * PAGE_SIZE)))))
    (λ _ s', mem_inv s' ∧ (∃ v, s' = set_vm v s) ∧
      (∀ b, stack_page pa b → phys_page b → page_set s' b) ∧
      (∀ b, page_set s b → page_set s' b) ∧
      (∀ b, page_set s' b → page_set s b ∨ stack_page pa b)) s.
Proof.
  intros Hm Hpa. change (THREAD_KSTACK_SIZE / PAGE_SIZE) with 4.
  apply (wp_for_each (λ k s', mem_inv s' ∧ (∃ v, s' = set_vm v s) ∧
    (∀ j, 0 ≤ j < k → phys_page (pa + j * PAGE_SIZE) → page_set s' (pa + j * PAGE_SIZE)) ∧
    (∀ b, page_set s b → page_set s' b) ∧
    (∀ b, page_set s' b → page_set s b ∨ ∃ j, 0 ≤ j < k ∧ b = pa + j * PAGE_SIZE))).
  - done.
  - split_and!; [done|exists (vm s); by destruct s|lia|done|auto].
  - intros k s' Hk (Hm' & (v & ->) & Hin & Hmono & Hout).
    unfold vm_call, Vmm.pmm_call. wp_run.
    wp_use (free_page_law (Vmm.allocator v) (pa + k * PAGE_SIZE) Hm'); [unfold PAGE_SIZE; lia|].
    intros [] p' (Hinv & Hfree & Hkeep & Hnew). unfold page_set, mem_inv in *. simpl in *.
    split_and!; [done|by eexists| | |].
    + intros j Hj Hph. destruct (decide (j = k)) as [->|]; [auto|].
      apply Hkeep, Hin; [lia|done].
    + intros b Hb. by apply Hkeep, Hmono.
    + intros b Hb. destruct (Hnew b Hb) as [Hb' | ->].
      * destruct (Hout b Hb') as [|(j & Hj & ->)]; [by left|].
        right. exists j. split; [lia|done].
      * right. exists k. split; [lia|done].
  - intros s' (Hm' & Hv & Hin & Hmono & Hout). split_and!; try done.
    intros b (k & Hk & ->). by apply Hin.
Qed.

(** Reaping a kernel thread. *)
Lemma wp_sched_reap s i t :
  sched_ok s → mem_inv s → zget (threads s) i = Some t → state t = Zombie →
  is_user t = false → 0 < kstack_pa t →
  wp (sched_reap i) (λ _ s', sched_ok s' ∧ mem_inv s' ∧
    threads s' = zset (threads s) i zeroed ∧ current_idx s' = current_idx s ∧
    (∀ b, stack_page (kstack_pa t) b → phys_page b → page_set s' b) ∧
    (∀ b, page_set s b → page_set s' b) ∧
    (∀ b, page_set s' b → page_set s b ∨ stack_page (kstack_pa t) b)) s.
Proof.
  intros Hok Hm Ht Hz Hu Hpa. pose proof (zget_Some_lt _ _ _ Ht) as Hi.
  pose proof (so_len _ Hok) as Hlen.
  unfold sched_reap. wp_run. apply wp_aget. exists t. split; [done|].
  rewrite bool_decide_true by done. rewrite Hu. cbn [negb andb]. wp_run.
  rewrite (proj2 (Z.eqb_neq (kstack_pa t) 0)) by lia. cbn [negb]. wp_run.
  wp_use wp_free_stack; [done|done|].
  intros [] s' (Hm' & (v & ->) & Hin & Hmono & Hout). apply wp_update_thread.
  exists t. split; [done|]. split_and!; try done.
  eapply (sched_ok_set (set_vm v s) i zeroed); [by apply sched_ok_vm|lia| |done|done].
  by split.
Qed.
End reaping.

(** ** The boot context *)
Section boot.
Context {P : Type} `{PageAllocator P}.

(** The static table, interrupts on. *)
Definition reset_sched (off : Z) (v : Vmm.vmm P) : sched P :=
  mkSched (replicate (Z.to_nat SCHED_MAX_THREADS) zeroed) 0 0 0 0 true 0 off v.

Definition boot_thread (v : Vmm.vmm P) : thread :=
  with_cwd (c_array CWD_LEN [47]) (with_space (Vmm.kernel_space v) (with_state Runnable
    (set_name [107; 101; 114; 110; 101; 108] (with_tid 0 zeroed)))).

Definition booted (off : Z) (v : Vmm.vmm P) : sched P :=
  mkSched (boot_thread v :: replicate 31 zeroed) 1 0 0 0 true 0 off v.

Lemma wp_sched_init off v : wp init (λ _ s', s' = booted off v) (reset_sched off v).
Proof. done. Qed.

Lemma zeroed_ok i : thread_ok i zeroed.
Proof. by split. Qed.

Lemma booted_ok off v : sched_ok (booted off v).
Proof.
  assert (∀ i t, zget (threads (booted off v)) i = Some t →
    (i = 0 ∧ t = boot_thread v) ∨ t = zeroed) as Hget.
  { intros i t. unfold booted. cbn [threads]. unfold zget. case_decide; [|done].
    destruct (Z.to_nat i) as [|n] eqn:En.
    - intros [= <-]. left. split; [lia|done].
    - rewrite lookup_cons. intros [-> _]%lookup_replicate. by right. }
  split.
  - done.
  - done.
  - intros i t [[-> ->] | ->]%Hget; [by split|apply zeroed_ok].
  - done.
  - intros i t [[-> ->] | ->]%Hget; [done|by intros []].
  - done.
Qed.

Lemma booted_loaded off v : Vmm.cr3 v = Vmm.kernel_space v → space_loaded (booted off v).
Proof. by intros Hv t [= <-] _. Qed.
End boot.

(** ** Properties *)
Section properties.
Context {P : Type} `{PageAllocatorLaws P}.
Implicit Types s : sched P.

(** a timer tick returns; it either counts the tick, or (slice used up)
    hands the CPU to the first runnable thread after the current one in
    cyclic order, storing the interrupted frame in the old slot and loading
    the new thread's; CR3 keeps holding the running thread's space, and the
    table stays well formed. *)
Theorem sched_tick_switches s f :
  sched_ok s → space_loaded s →
  wp (sched_tick f) (λ f' s', sched_ok s' ∧ space_loaded s' ∧ ticked s f f' s') s.
Proof.
  intros Hok Hld. wp_use wp_sched_tick; [done|]. intros f' s' Ht.
  split_and!; [by eapply ticked_ok|by eapply ticked_loaded|done].
Qed.

(** C33: round robin is fair: whatever the running threads do to their
    frames, a runnable thread gets the CPU within 160 ticks (32 slices of 5). *)
Theorem round_robin_fair s f j gs :
  sched_ok s → 0 ≤ j < SCHED_MAX_THREADS → runnable s j = true → length gs = 160%nat →
  ∃ k, (k ≤ 160)%nat ∧ wp (run (take k gs) f) (λ _ s', current_idx s' = j) s.
Proof.
  intros Hok Hj Hr Hlen. rewrite <- Hlen. apply run_reaches; [done..|].
  rewrite Hlen. pose proof (mod_slots (j - current_idx s)). pose proof (so_slice _ Hok).
  unfold ticks_to, distance, SCHED_MAX_THREADS in *. lia.
Qed.

(** C14: a thread that gives up the processor - to a timer interrupt or by
    yielding - finds its context again.  However many timer interrupts, yields
    and ends of other threads follow, with whatever frames, when the thread runs
    again the live frame is the one it was stopped with, CR3 holds its address
    space, the TSS its kernel stack, and its slot is what it was. *)
Theorem context_preserved s t f f1 s1 f2 s2 :
  sched_ok s → loaded s → zget (threads s) (current_idx s) = Some t →
  on_timer f s = Done (f1, s1) ∨ sched_yield f s = Done (f1, s1) →
  away (current_idx s) f1 s1 f2 s2 → current_idx s2 = current_idx s →
  f2 = f ∧ sched_ok s2 ∧
  (space t ≠ 0 → Vmm.cr3 (vm s2) = space t) ∧ (kstack_top t ≠ 0 → rsp0 s2 = kstack_top t) ∧
  ∃ g, zget (threads s2) (current_idx s) = Some (with_saved g t).
Proof.
  intros Hok Hl Ht Hrun Haway Hback.
  assert (held (current_idx s) f t f s) as Hh.
  { split; [done|done| |done]. exists (saved t). split; [by destruct t|done]. }
  assert (held (current_idx s) f t f1 s1) as Hh1.
  { destruct Hrun as [E|E]; [pose proof (wp_held_timer _ f t f s Hh) as Hw|pose proof (wp_held_yield _ f t f s Hh) as Hw];
      by rewrite (wp_done _ _ _ _ _ E) in Hw. }
  destruct (held_away _ f t _ _ _ _ Haway Hh1) as [Hok2 Hl2 (g & Hg & _) Hv].
  rewrite <- Hback in Hg. destruct (Hl2 _ Hg) as [L1 L2]. rewrite Hback in Hg.
  split_and!; [by apply Hv|done|exact L1|exact L2|by exists g].
Qed.

(** creating a kernel thread, letting it exit and reaping it gives every
    page of its stack back and no other, and leaves the table as schedulable
    as before. *)
Theorem kthread_lifecycle s tramp nm f arg :
  sched_ok s → mem_inv s →
  wp (r ← kthread_create tramp nm f arg;
      if r <? 0 then mret tt else update_thread r (with_state Zombie);; sched_reap r)
    (λ _ s', sched_ok s' ∧ (∀ i, runnable s' i = runnable s i) ∧
       ∀ b, page_set s' b ↔ page_set s b) s.
Proof.
  intros Hok Hm. wp_run. wp_use wp_kthread_create; [done|done|].
  intros r s1 (Hok1 & Hm1 & [[-> ->]|(Hf & pa & Hpa & Hthr & Hcur & Hst & Hset)]).
  { simpl. by wp_run. }
  destruct (first_unused_some _ _ Hf) as (Hr & t & Ht & Hun).
  pose proof (so_len _ Hok) as Hlen. rewrite (proj2 (Z.ltb_ge r 0)) by lia. wp_run.
  set (k := kernel_thread s r nm tramp f arg pa) in *.
  apply wp_update_thread. exists k. split; [rewrite Hthr; apply zget_zset_eq; lia|].
  assert (sched_ok (set_threads (zset (threads s1) r (with_state Zombie k)) s1)) as Hok2.
  { eapply sched_ok_set; [done|done| | |done].
    - assert (thread_ok r k) as [] by (apply thread_ok_new; done). by split.
    - intros _. apply (so_used _ Hok1 r k); [|done]. rewrite Hthr. apply zget_zset_eq. lia. }
  eapply wp_mono.
  - apply (wp_sched_reap _ r (with_state Zombie k)); [done|exact Hm1| |done|done|done].
    simpl. apply zget_zset_eq. rewrite (so_len _ Hok1). lia.
  - intros [] s' (Hok' & Hm' & Hthr' & _ & Hback & Hmono & Hnew). split_and!; [done| |].
    + intros i. unfold runnable. rewrite Hthr'. simpl. rewrite Hthr, !zset_zset.
      rewrite zget_zset by lia. case_decide; [|done]. subst. by rewrite Ht, Hun.
    + intros b. change (page_set (set_threads _ _) b) with (page_set s1 b) in *.
      split.
      * intros [Hb|Hb]%Hnew; [by apply Hset in Hb as [? _]|by apply Hst].
      * intros Hb. destruct (decide (stack_page pa b)) as [Hin|Hout].
        -- apply Hback; [done|by eapply (avail_page (Vmm.allocator (vm s)))].
        -- apply Hmono, Hset. by split.
Qed.

(** when no stack can be allocated [thread_create_user] reports failure
    but the slot it took stays behind: runnable, with an all-zero frame that
    the scheduler will load. *)
Theorem thread_create_user_leak s nm entry sp space i :
  sched_ok s → mem_inv s → first_unused s = Some i → (∀ b, ¬ page_set s b) →
  wp (thread_create_user nm entry sp space) (λ r s',
    r = -1 ∧ runnable s' i = true ∧ saved <$> zget (threads s') i = Some zero_frame) s.
Proof.
  intros Hok Hm Hf Hno. wp_use wp_thread_create_user; [done|done|].
  intros r s' (_ & _ & Hr). rewrite Hf in Hr.
  destruct (first_unused_some _ _ Hf) as (Hi & _). pose proof (so_len _ Hok) as Hlen.
  destruct Hr as [(-> & Hthr & _)|(_ & pa & _ & _ & _ & _ & Hst & _)].
  - split; [done|]. unfold runnable. by rewrite Hthr, zget_zset_eq by lia.
  - exfalso. apply (Hno pa), Hst. exists 0. split; [lia|]. lia.
Qed.
End properties.

(** ** Witnesses *)
Definition demo_booted : sched unit := booted 0 (Vmm.mkVmm tt (λ _, 0) 32768 32768).
(** A second thread in slot 1, the slice of thread 0 almost used up. *)
Definition demo_sched : sched unit :=
  set_slice 4 (set_nr (Z.max 1 2)
    (set_threads (zset (threads demo_booted) 1
       (mkThread 1 (c_array NAME_LEN [97]) Runnable (kthread_frame 100 7 8 20480 zero_frame)
          32768 20480 4096 false (fds zeroed) (cwd zeroed) 0 0 (-1))) demo_booted)).

Lemma demo_sched_ok : sched_ok demo_sched.
Proof.
  apply set_slice_ok; [|done].
  apply (sched_ok_add demo_booted 1); [apply booted_ok|done|by apply thread_ok_new].
Qed.

Lemma sched_tick_switches_witness :
  wp (sched_tick (user_frame 1 2 zero_frame)) (λ f' s', sched_ok s' ∧ space_loaded s' ∧
    ticked demo_sched (user_frame 1 2 zero_frame) f' s') demo_sched.
Proof.
  apply (sched_tick_switches demo_sched); [exact demo_sched_ok|].
  by apply (booted_loaded 0 (Vmm.mkVmm tt (λ _, 0) 32768 32768)).
Defined.

Lemma round_robin_fair_witness :
  ∃ k, (k ≤ 160)%nat ∧
    wp (run (take k (replicate 160 (λ f, f))) zero_frame) (λ _ s', current_idx s' = 1) demo_sched.
Proof.
  apply (round_robin_fair demo_sched zero_frame 1); [exact demo_sched_ok|done|done|done].
Defined.

(** Thread 0 is preempted with frame [demo_frame], thread 1 yields. *)
Definition demo_frame : frame := user_frame 1 2 zero_frame.
Definition demo_enabled : sched unit :=
  mkSched (threads demo_sched) (nr_threads demo_sched) 0 4 0 true 0 0 (Vmm.mkVmm tt (λ _, 0) 32768 32768).
Definition demo_after (m : M (sched unit) frame) (s : sched unit) : frame * sched unit :=
  match m s with Done r => r | _ => (zero_frame, s) end.

Lemma context_preserved_witness :
  let fs1 := demo_after (on_timer demo_frame) demo_enabled in
  let fs2 := demo_after (sched_yield zero_frame) fs1.2 in
  current_idx fs1.2 = 1 ∧ rsp0 fs1.2 = 20480 ∧ fs2.1 = demo_frame ∧ sched_ok fs2.2 ∧ Vmm.cr3 (vm fs2.2) = 32768.
Proof.
  intros fs1 fs2. split; [by vm_compute|]. split; [by vm_compute|].
  assert (sched_ok demo_enabled) as Hok by (destruct demo_sched_ok; by split).
  destruct (context_preserved demo_enabled (boot_thread (Vmm.mkVmm tt (λ _, 0) 32768 32768)) demo_frame fs1.1 fs1.2 fs2.1 fs2.2 Hok)
    as (H1 & H2 & H3 & _).
  - intros t [= <-]. by split.
  - reflexivity.
  - left. by vm_compute.
  - apply (away_step _ _ _ zero_frame fs2.1 fs2.2); [by vm_compute|apply by_yield; by vm_compute|apply away_refl].
  - by vm_compute.
  - split; [exact H1|]. split; [exact H2|]. by apply H3.
Defined.

Definition demo_boot : sched Pmm.pmm := booted 0 Vmm.demo_vmm.
Lemma demo_boot_mem : mem_inv demo_boot.
Proof. apply Pmm.boot_pmm_ok. Qed.

Lemma kthread_lifecycle_witness :
  wp (r ← kthread_create 100 [97] 7 8;
      if r <? 0 then mret tt else update_thread r (with_state Zombie);; sched_reap r)
    (λ _ s', sched_ok s' ∧ (∀ i, runnable s' i = runnable demo_boot i) ∧
       ∀ b, page_set s' b ↔ page_set demo_boot b) demo_boot.
Proof.
  apply (kthread_lifecycle demo_boot); [apply booted_ok|exact demo_boot_mem].
Defined.

(** Nothing to allocate: the allocator before [pmm::init]. *)
Definition demo_full : sched Pmm.pmm :=
  booted 0 (Vmm.mkVmm (Pmm.set_hhdm 0 Pmm.pmm_zero) (λ _, 0) 32768 32768).

Lemma thread_create_user_leak_witness :
  wp (thread_create_user [97] 4096 8192 4096) (λ r s',
    r = -1 ∧ runnable s' 1 = true ∧ saved <$> zget (threads s') 1 = Some zero_frame) demo_full.
Proof.
  apply (thread_create_user_leak demo_full).
  - apply booted_ok.
  - split; [apply Pmm.pmm_zero_inv|apply Pmm.pmm_zero_free].
  - by vm_compute.
  - intros b Hb. destruct Hb as (_ & Hb). simpl in Hb. pose proof (Pmm.pmm_zero_free 0 (b / PAGE_SIZE)). congruence.
Defined.

End Sched.
