(* ===== verification/Ring.v ===== *)
(** * Byte queues over circular buffers

    The keyboard buffer ([kbd.rs]) and the input queue of every virtual
    terminal ([vterm.rs]) are the same data structure: an array, a head where
    bytes are pushed, a tail where they are popped, one slot kept empty.  This
    file relates it to the list of queued bytes once for both. *)
From S2P Require Import Prelude.

Module Ring.

Record ring := mkRing { buf : list Z; head : Z; tail : Z }.

Section ring.
Variable cap : Z.

(** [let next = (head + 1) % cap; if next == tail { return }
    buf[head] = c; head = next] *)
Definition push (c : Z) (r : ring) : ring :=
  let next := (head r + 1) mod cap in
  if next =? tail r then r else mkRing (zset (buf r) (head r) c) next (tail r).

(** [None] is the empty queue's [-1]. *)
Definition pop (r : ring) : option Z * ring :=
  if head r =? tail r then (None, r)
  else (zget (buf r) (tail r), mkRing (buf r) (head r) ((tail r + 1) mod cap)).

Record ring_ok (r : ring) : Prop := {
  rg_len : zlen (buf r) = cap;
  rg_head : 0 ≤ head r < cap;
  rg_tail : 0 ≤ tail r < cap;
}.

(** How many bytes wait, and which. *)
Definition queued (r : ring) : Z := (head r - tail r) mod cap.
Definition at_offset (r : ring) (i : Z) : Z :=
  default 0 (zget (buf r) ((tail r + i) mod cap)).
Definition contents (r : ring) : list Z := at_offset r <$> seqZ 0 (queued r).

Hypothesis cap_min : 2 ≤ cap.

Lemma queued_range r : 0 ≤ queued r < cap.
Proof. apply Z.mod_pos_bound. lia. Qed.

Lemma zlen_contents r : zlen (contents r) = queued r.
Proof.
  unfold contents, zlen. rewrite length_fmap, length_seqZ.
  pose proof (queued_range r). lia.
Qed.

Lemma head_offset r : ring_ok r → (tail r + queued r) mod cap = head r.
Proof.
  intros []. unfold queued. rewrite Z.add_mod_idemp_r by lia.
  replace (tail r + (head r - tail r)) with (head r) by lia. by apply Z.mod_small.
Qed.

Lemma push_ok c r : ring_ok r → ring_ok (push c r).
Proof.
  intros Hok. pose proof Hok as []. unfold push. destruct (_ =? _); [done|].
  split; simpl; [by rewrite zlen_zset| |done]. apply Z.mod_pos_bound. lia.
Qed.

Lemma pop_ok r : ring_ok r → ring_ok (pop r).2.
Proof.
  intros Hok. pose proof Hok as []. unfold pop. destruct (_ =? _); [done|].
  split; simpl; [done|done|]. apply Z.mod_pos_bound. lia.
Qed.

Lemma full_iff r : ring_ok r → (head r + 1) mod cap = tail r ↔ queued r = cap - 1.
Proof.
  intros Hok. pose proof (head_offset r Hok) as Hh. destruct Hok as [_ H1 H2].
  pose proof (queued_range r). split; intros Hf.
  - unfold queued. rewrite <- Hf, Zminus_mod_idemp_r.
    replace (head r - (head r + 1)) with (-1) by lia.
    symmetry. apply Z.mod_unique with (-1); lia.
  - rewrite <- Hh, Z.add_mod_idemp_l, Hf by lia.
    replace (tail r + (cap - 1) + 1) with (tail r + 1 * cap) by lia.
    rewrite Z.mod_add by lia. by apply Z.mod_small.
Qed.

Lemma empty_iff r : ring_ok r → head r = tail r ↔ queued r = 0.
Proof.
  intros Hok. pose proof (head_offset r Hok) as Hh. destruct Hok as [_ H1 H2].
  split; intros Hq.
  - unfold queued. by rewrite Hq, Z.sub_diag.
  - rewrite Hq, Z.add_0_r, Z.mod_small in Hh by lia. done.
Qed.

(** Distinct offsets are distinct slots. *)
Lemma offset_ne_head r i :
  ring_ok r → 0 ≤ i < queued r → (tail r + i) mod cap ≠ head r.
Proof.
  intros Hok Hi Heq. pose proof (head_offset r Hok) as Hh. pose proof (queued_range r) as Hq.
  rewrite <- Hh in Heq.
  assert ((tail r + i - (tail r + queued r)) mod cap = 0) as Hz.
  { rewrite Zminus_mod, Heq, Z.sub_diag. apply Z.mod_0_l. lia. }
  replace (tail r + i - (tail r + queued r)) with (i - queued r) in Hz by lia.
  rewrite <- (Z.mod_unique (i - queued r) cap (-1) (i - queued r + cap)) in Hz; lia.
Qed.

(** Pushing appends, unless [cap - 1] bytes wait: then the byte is dropped. *)
Lemma contents_push c r :
  ring_ok r →
  contents (push c r) =
  if queued r =? cap - 1 then contents r else contents r ++ [c].
Proof.
  intros Hok. unfold push. pose proof (full_iff r Hok) as Hfull.
  pose proof (queued_range r) as Hq.
  destruct (Z.eqb_spec ((head r + 1) mod cap) (tail r)) as [Hf|Hf].
  { apply Hfull in Hf. by rewrite Hf, Z.eqb_refl. }
  rewrite (proj2 (Z.eqb_neq (queued r) _)) by (by rewrite <- Hfull).
  assert (queued r < cap - 1) as Hlt by (assert (queued r ≠ cap - 1) by (by rewrite <- Hfull); lia).
  set (r' := mkRing _ _ _). pose proof Hok as [Hlen Hhd Htl].
  assert (queued r' = queued r + 1) as Hq'.
  { unfold queued, r'. simpl. rewrite Zminus_mod_idemp_l.
    replace (head r + 1 - tail r) with (head r - tail r + 1) by lia.
    rewrite <- Z.add_mod_idemp_l by lia. apply Z.mod_small. unfold queued in *. lia. }
  unfold contents. rewrite Hq', seqZ_app, fmap_app by lia. f_equal.
  - apply list_fmap_ext. intros k i Hi. apply lookup_seqZ in Hi.
    unfold at_offset, r'. simpl. rewrite zget_zset_ne; [done|lia|].
    intros Heq. by apply (offset_ne_head r i Hok); [lia|].
  - simpl. unfold at_offset, r'. simpl. rewrite Z.add_0_l, head_offset by done.
    by rewrite zget_zset_eq by lia.
Qed.

(** Popping takes the oldest byte. *)
Lemma contents_pop r :
  ring_ok r →
  match pop r with
  | (None, r') => r' = r ∧ contents r = []
  | (Some c, r') => contents r = c :: contents r'
  end.
Proof.
  intros Hok. unfold pop. pose proof (empty_iff r Hok) as He.
  pose proof (queued_range r) as Hq. pose proof Hok as [Hlen Hhd Htl].
  destruct (Z.eqb_spec (head r) (tail r)) as [Heq|Hne].
  { split; [done|]. apply He in Heq. unfold contents. by rewrite Heq. }
  destruct (zget_lt (buf r) (tail r)) as [c Hc]; [lia|]. rewrite Hc.
  set (r' := mkRing _ _ _).
  assert (0 < queued r) as Hpos by (assert (queued r ≠ 0) by (by rewrite <- He); lia).
  assert (queued r' = queued r - 1) as Hq'.
  { unfold queued, r'. simpl. rewrite Zminus_mod_idemp_r.
    replace (head r - (tail r + 1)) with (head r - tail r - 1) by lia.
    rewrite <- Zminus_mod_idemp_l. apply Z.mod_small. unfold queued in *. lia. }
  unfold contents. rewrite Hq'.
  rewrite (seqZ_cons 0 (queued r)), fmap_cons by lia. f_equal.
  - unfold at_offset. rewrite Z.add_0_r, Z.mod_small by lia. by rewrite Hc.
  - replace (Z.pred (queued r)) with (queued r - 1) by lia.
    change (Z.succ 0) with (1 + 0). rewrite <- (fmap_add_seqZ 1 0 (queued r - 1)), <- list_fmap_compose.
    apply list_fmap_ext. intros k i _. unfold at_offset, r'. simpl.
    rewrite Z.add_mod_idemp_l by lia. do 3 f_equal. lia.
Qed.
End ring.
End Ring.
