(* ===== verification/Vterm.v ===== *)
(** * Virtual terminals ([kernel-rs/src/vterm.rs])

    Four terminals, each a 14 x 57 character grid with a cursor and an input
    queue.  The WM's repaint hook is an effect: its calls are recorded in
    [dirtied]. *)
From S2P Require Import Prelude Ring.

Module Vterm.

Definition VT_MAX : Z := 4.
Definition VT_ROWS : Z := 14.
Definition VT_COLS : Z := 56.
Definition VT_INQ : Z := 128.
Definition space : Z := 32.
Definition blank_row : list Z := replicate (Z.to_nat (VT_COLS + 1)) space.

Record vterm := mkVt {
  used : bool;
  grid : list (list Z);
  row : Z;
  col : Z;
  inq : Ring.ring;
}.
Definition empty : vterm :=
  mkVt false (replicate (Z.to_nat VT_ROWS) blank_row) 0 0
    (Ring.mkRing (replicate (Z.to_nat VT_INQ) 0) 0 0).

Record vterms := mkTerms {
  terms : list vterm;
  console_flag : bool;
  dirty_hook : bool;
  dirtied : list Z;
}.
Definition set_terms (l : list vterm) (s : vterms) : vterms :=
  mkTerms l (console_flag s) (dirty_hook s) (dirtied s).
Definition set_console_up (s : vterms) : vterms :=
  mkTerms (terms s) true (dirty_hook s) (dirtied s).
Definition install_hook (s : vterms) : vterms :=
  mkTerms (terms s) (console_flag s) true (dirtied s).
Definition record_dirty (id : Z) (s : vterms) : vterms :=
  mkTerms (terms s) (console_flag s) (dirty_hook s) (dirtied s ++ [id]).
Definition set_dirtied (l : list Z) (s : vterms) : vterms :=
  mkTerms (terms s) (console_flag s) (dirty_hook s) l.

Definition with_used (b : bool) (v : vterm) : vterm :=
  mkVt b (grid v) (row v) (col v) (inq v).
Definition with_grid (g : list (list Z)) (v : vterm) : vterm :=
  mkVt (used v) g (row v) (col v) (inq v).
Definition with_cursor (r c : Z) (v : vterm) : vterm := mkVt (used v) (grid v) r c (inq v).
Definition with_inq (q : Ring.ring) (v : vterm) : vterm :=
  mkVt (used v) (grid v) (row v) (col v) q.

Definition put_term (i : Z) (v : vterm) : M vterms unit :=
  modify (λ s, set_terms (zset (terms s) i v) s).

Definition create : M vterms Z :=
  r ← for_range 0 VT_MAX (λ i,
    t ← aget terms i;
    if used t then mret None
    else
      put_term i (with_used true empty);;
      (if i =? 0 then modify set_console_up else mret tt);;
      mret (Some i));
  mret (default (-1) r).

Definition set_dirty_hook : M vterms unit := modify install_hook.

(** [for r in 0..VT_ROWS - 1 { grid[r] = grid[r + 1] }], then a blank row. *)
Definition scroll (v : vterm) : vterm :=
  let g := fold_left (λ g r, zset g r (default [] (zget g (r + 1))))
             (seqZ 0 (VT_ROWS - 1)) (grid v) in
  with_cursor (VT_ROWS - 1) (col v) (with_grid (zset g (VT_ROWS - 1) blank_row) v).

Definition scroll_if_below (v : vterm) : vterm := if row v >=? VT_ROWS then scroll v else v.

(** [v.grid[v.row][v.col] = c] *)
Definition put_cell (v : vterm) (c : Z) : option vterm :=
  r ← zget (grid v) (row v);
  _ ← zget r (col v);
  Some (with_grid (zset (grid v) (row v) (zset r (col v) c)) v).

Definition putc_vt (id c : Z) : M vterms unit :=
  if id >=? VT_MAX then mret tt
  else
    v ← aget terms id;
    if negb (used v) then mret tt
    else if c =? 13 then mret tt
    else
      (if c =? 10 then put_term id (scroll_if_below (with_cursor (row v + 1) 0 v))
       else
         v ← of_option (put_cell v c);
         let v := with_cursor (row v) (col v + 1) v in
         put_term id
           (if col v >=? VT_COLS then scroll_if_below (with_cursor (row v + 1) 0 v) else v));;
      h ← gets dirty_hook;
      if (h : bool) then modify (record_dirty id) else mret tt.

Definition push (id c : Z) : M vterms unit :=
  if (id <? 0) || (id >=? VT_MAX) then mret tt
  else
    v ← aget terms id;
    if negb (used v) then mret tt
    else put_term id (with_inq (Ring.push VT_INQ c (inq v)) v).

Definition getc (id : Z) : M vterms Z :=
  if id >=? VT_MAX then mret (-1)
  else
    v ← aget terms id;
    if negb (used v) then mret (-1)
    else
      let '(c, q) := Ring.pop VT_INQ (inq v) in
      put_term id (with_inq q v);;
      mret (default (-1) c).

Definition row_of (id r : Z) : M vterms (option (list Z)) :=
  if (id >=? VT_MAX) || (r >=? VT_ROWS) then mret None
  else
    v ← aget terms id;
    g ← of_option (zget (grid v) r);
    mret (Some (slice 0 VT_COLS g)).

Definition console_up : M vterms bool := gets console_flag.

(** ** The terminal as an unbounded typewriter

    [above] holds the finished lines, oldest first, [line] the one being
    written, [at_col] the carriage. *)
Record paper := mkPaper { above : list (list Z); line : list Z; at_col : Z }.
Definition fresh_paper : paper := mkPaper [] blank_row 0.

Definition new_line (p : paper) : paper := mkPaper (above p ++ [line p]) blank_row 0.
Definition type_char (p : paper) (c : Z) : paper :=
  if c =? 13 then p
  else if c =? 10 then new_line p
  else
    let p := mkPaper (above p) (zset (line p) (at_col p) c) (at_col p + 1) in
    if at_col p =? VT_COLS then new_line p else p.

(** The grid shows the last 14 lines, blank below the last. *)
Definition hidden (p : paper) : Z := Z.max 0 (zlen (above p) - (VT_ROWS - 1)).
Definition shown_above (p : paper) : list (list Z) := drop (Z.to_nat (hidden p)) (above p).
Definition window (p : paper) : list (list Z) :=
  shown_above p ++ line p ::
  replicate (Z.to_nat (VT_ROWS - 1 - zlen (shown_above p))) blank_row.

Definition paper_ok (p : paper) : Prop :=
  zlen (line p) = VT_COLS + 1 ∧ 0 ≤ at_col p < VT_COLS.

Record shows (v : vterm) (p : paper) : Prop := {
  sh_ok : paper_ok p;
  sh_grid : grid v = window p;
  sh_row : row v = zlen (shown_above p);
  sh_col : col v = at_col p;
}.

Lemma zlen_shown_above p :
  zlen (shown_above p) = Z.min (zlen (above p)) (VT_ROWS - 1).
Proof.
  unfold shown_above. pose proof (zlen_nonneg (above p)).
  rewrite zlen_drop by (unfold hidden; lia). unfold hidden, VT_ROWS. lia.
Qed.

Lemma zlen_window p : zlen (window p) = VT_ROWS.
Proof.
  unfold window. rewrite zlen_app, zlen_cons, zlen_replicate.
  pose proof (zlen_shown_above p). pose proof (zlen_nonneg (above p)).
  unfold VT_ROWS in *. lia.
Qed.

Lemma scroll_grid (g : list (list Z)) :
  zlen g = VT_ROWS →
  zset (fold_left (λ g r, zset g r (default [] (zget g (r + 1))))
          (seqZ 0 (VT_ROWS - 1)) g) (VT_ROWS - 1) blank_row = drop 1 g ++ [blank_row].
Proof.
  intros Hg. unfold zlen, VT_ROWS in Hg.
  do 14 (destruct g as [|? g]; [simpl in Hg; lia|]). destruct g; [|simpl in Hg; lia]. done.
Qed.

(** Moving to a new line, scrolling when the cursor leaves the grid. *)
Lemma shows_new_line v p l :
  paper_ok (mkPaper (above p) l 0) →
  grid v = window (mkPaper (above p) l 0) → row v = zlen (shown_above p) →
  shows (scroll_if_below (with_cursor (row v + 1) 0 v)) (mkPaper (above p ++ [l]) blank_row 0).
Proof.
  intros [Hl _] Hg Hr. pose proof (zlen_shown_above p) as Hs.
  pose proof (zlen_nonneg (above p)) as Hn.
  assert (zlen (above p ++ [l]) = zlen (above p) + 1) as Hla by (by rewrite zlen_app).
  assert (paper_ok (mkPaper (above p ++ [l]) blank_row 0)) as Hok by done.
  unfold scroll_if_below. simpl row. rewrite Z.geb_leb.
  destruct (Z.leb_spec VT_ROWS (row v + 1)) as [Hfull|Hroom].
  - assert (VT_ROWS - 1 ≤ zlen (above p)) as Hge by lia.
    assert (shown_above (mkPaper (above p ++ [l]) blank_row 0) =
            drop 1 (shown_above p ++ [l])) as Hsh.
    { unfold shown_above at 1, hidden. simpl. rewrite Hla.
      replace (Z.to_nat (Z.max 0 (zlen (above p) + 1 - (VT_ROWS - 1))))
        with (Z.to_nat (hidden p) + 1)%nat by (unfold hidden; lia).
      rewrite <- drop_drop. unfold shown_above. rewrite drop_app_le; [done|].
      unfold hidden, zlen, VT_ROWS in *. lia. }
    split; [done| | |done].
    + unfold scroll. cbn [grid with_cursor with_grid].
      rewrite scroll_grid; rewrite Hg; [|apply zlen_window].
      unfold window. rewrite Hsh.
      assert (zlen (drop 1 (shown_above p ++ [l])) = VT_ROWS - 1) as Hlen.
      { rewrite (zlen_drop 1), zlen_app by lia. change (zlen [l]) with 1. unfold VT_ROWS in *. lia. }
      rewrite Hlen, Z.sub_diag. simpl.
      change (shown_above (mkPaper (above p) l 0)) with (shown_above p).
      replace (VT_ROWS - 1 - zlen (shown_above p)) with 0 by (unfold VT_ROWS in *; lia). simpl.
      done.
    + rewrite Hsh, (zlen_drop 1), zlen_app by lia. change (zlen [l]) with 1.
      unfold scroll. cbn [row with_cursor with_grid]. unfold VT_ROWS in *. lia.
  - assert (zlen (above p) < VT_ROWS - 1) as Hlt by (unfold VT_ROWS in *; lia).
    assert (hidden p = 0) as Hh0 by (unfold hidden; lia).
    assert (shown_above p = above p) as Hsa by (unfold shown_above; by rewrite Hh0).
    assert (shown_above (mkPaper (above p ++ [l]) blank_row 0) = above p ++ [l]) as Hsh.
    { unfold shown_above, hidden. simpl. rewrite Hla.
      by replace (Z.max 0 (zlen (above p) + 1 - (VT_ROWS - 1))) with 0 by lia. }
    split; [done| | |done]; simpl.
    + rewrite Hg. unfold window. rewrite Hsh, Hla.
      change (shown_above (mkPaper (above p) l 0)) with (shown_above p). rewrite Hsa. simpl.
      replace (Z.to_nat (VT_ROWS - 1 - zlen (above p)))
        with (S (Z.to_nat (VT_ROWS - 1 - (zlen (above p) + 1)))) by lia.
      simpl. by rewrite <- app_assoc.
    + rewrite Hsh, Hla, Hr, Hsa. done.
Qed.

Lemma window_set_line p l k :
  window (mkPaper (above p) l k) = zset (window p) (zlen (shown_above p)) l.
Proof.
  unfold window. change (shown_above (mkPaper (above p) l k)) with (shown_above p). simpl.
  unfold zset, zlen. rewrite Nat2Z.id.
  rewrite insert_app_r_alt by lia. by rewrite Nat.sub_diag.
Qed.

Lemma window_line p : zget (window p) (zlen (shown_above p)) = Some (line p).
Proof.
  unfold window. rewrite zget_app_r by lia. by rewrite Z.sub_diag.
Qed.

Lemma fresh_shown : shows (with_used true empty) fresh_paper.
Proof. by split. Qed.

Lemma shows_put_cell v p c :
  shows v p →
  put_cell v c = Some (with_grid (window (mkPaper (above p) (zset (line p) (at_col p) c) 0)) v).
Proof.
  intros [[Hl Hc] Hg Hr Hcol]. unfold put_cell. rewrite Hg, Hr, window_line. simpl.
  rewrite Hcol. destruct (zget_lt (line p) (at_col p)) as [b Hb].
  { unfold VT_COLS in *. lia. }
  rewrite Hb. simpl. by rewrite <- (window_set_line p _ 0).
Qed.

(** The four terminals, [v] in slot [id]. *)
Definition has_term (s : vterms) (id : Z) (v : vterm) : Prop :=
  zlen (terms s) = VT_MAX ∧ zget (terms s) id = Some v ∧ used v = true.

Lemma has_term_range s id v : has_term s id v → 0 ≤ id < VT_MAX.
Proof. intros (Hl & Hv & _). apply zget_Some_lt in Hv. lia. Qed.

Lemma has_term_put s s' id v v' :
  has_term s id v → used v' = true → terms s' = zset (terms s) id v' → has_term s' id v'.
Proof.
  intros Ht Hu Heq. pose proof (has_term_range _ _ _ Ht). destruct Ht as (Hl & _ & _).
  unfold has_term. rewrite Heq, zlen_zset. split_and!; [done| |done]. apply zget_zset_eq. lia.
Qed.

Lemma wp_put_term s id v (Q : unit → vterms → Prop) :
  Q tt (set_terms (zset (terms s) id v) s) → wp (put_term id v) Q s.
Proof. intros HQ. unfold put_term. by wp_run. Qed.

Lemma type_plain p c :
  c ≠ 13 → c ≠ 10 →
  type_char p c =
  if at_col p + 1 =? VT_COLS then mkPaper (above p ++ [zset (line p) (at_col p) c]) blank_row 0
  else mkPaper (above p) (zset (line p) (at_col p) c) (at_col p + 1).
Proof.
  intros H1 H2. unfold type_char. by rewrite (proj2 (Z.eqb_neq c 13)), (proj2 (Z.eqb_neq c 10)).
Qed.

(** One character, as the code computes it. *)
Lemma wp_putc_vt s id v p c :
  has_term s id v → shows v p →
  wp (putc_vt id c) (λ _ s', ∃ v',
    terms s' = zset (terms s) id v' ∧ console_flag s' = console_flag s ∧
    dirty_hook s' = dirty_hook s ∧
    used v' = true ∧ inq v' = inq v ∧ shows v' (type_char p c)) s.
Proof.
  intros Ht Hsh. pose proof (has_term_range _ _ _ Ht) as Hid. pose proof Ht as (Hlen & Hv & Hu).
  unfold putc_vt. rewrite Z.geb_leb, (proj2 (Z.leb_gt _ _)) by lia. wp_run.
  apply wp_aget. exists v. split; [done|]. rewrite Hu. cbn [negb].
  pose proof Hsh as [[Hl Hc] Hg Hr Hcol].
  destruct (Z.eqb_spec c 13) as [->|Hcr].
  { wp_run. exists v. unfold type_char. simpl. by rewrite (zset_id _ _ _ Hv). }
  assert (∀ v', used v' = true → inq v' = inq v → shows v' (type_char p c) →
    wp (put_term id v';; (h ← gets dirty_hook; if (h : bool) then modify (record_dirty id) else mret tt))
      (λ _ s', ∃ v', terms s' = zset (terms s) id v' ∧ console_flag s' = console_flag s ∧
       dirty_hook s' = dirty_hook s ∧
       used v' = true ∧ inq v' = inq v ∧ shows v' (type_char p c)) s) as Hfin.
  { intros v' Hu' Hi' Hs'. wp_run. apply wp_put_term. wp_run.
    by destruct (dirty_hook (set_terms _ _)) eqn:Eh; wp_run; exists v'. }
  destruct (Z.eqb_spec c 10) as [->|Hlf].
  - apply Hfin.
    + unfold scroll_if_below. by destruct (_ >=? _).
    + unfold scroll_if_below. by destruct (_ >=? _).
    + unfold type_char. simpl. apply shows_new_line; [done| |done]. by rewrite Hg.
  - rewrite (shows_put_cell v p c Hsh). cbv zeta.
    refine (proj2 (wp_bind _ _ _ _) _). wp_run. apply wp_of_option. eexists. split; [done|].
    refine (proj1 (wp_bind _ _ _ _) _). rewrite type_plain in Hfin by done. cbv zeta in *.
    cbn [col with_cursor with_grid]. rewrite Z.geb_leb, Hcol.
    assert (zlen (zset (line p) (at_col p) c) = VT_COLS + 1) as Hzl by (by rewrite zlen_zset).
    rewrite (type_plain p c Hcr Hlf).
    destruct (Z.leb_spec VT_COLS (at_col p + 1)).
    + rewrite (proj2 (Z.eqb_eq _ _)) in * by (unfold VT_COLS in *; lia). apply Hfin.
      * unfold scroll_if_below. by destruct (_ >=? _).
      * unfold scroll_if_below. by destruct (_ >=? _).
      * cbn [row with_cursor with_grid].
        pose proof (shows_new_line (with_grid (window (mkPaper (above p)
          (zset (line p) (at_col p) c) 0)) v) p (zset (line p) (at_col p) c)) as H0.
        apply H0; done.
    + rewrite (proj2 (Z.eqb_neq _ _)) in * by lia. apply Hfin; [done|done|].
      split; simpl; [|done|done|done]. split; simpl; [done|lia].
Qed.

(** [for c in cs { putc_vt(id, c) }], the loop of [sys_write]. *)
Fixpoint puts (id : Z) (cs : list Z) : M vterms unit :=
  match cs with
  | [] => mret tt
  | c :: cs => putc_vt id c;; puts id cs
  end.

Lemma wp_puts s id v p cs :
  has_term s id v → shows v p →
  wp (puts id cs) (λ _ s', ∃ v',
    terms s' = zset (terms s) id v' ∧ console_flag s' = console_flag s ∧
    dirty_hook s' = dirty_hook s ∧
    used v' = true ∧ inq v' = inq v ∧ shows v' (fold_left type_char cs p)) s.
Proof.
  revert s v p. induction cs as [|c cs IH]; intros s v p Ht Hsh; simpl.
  - wp_run. exists v. destruct Ht as (_ & Hv & Hu). by rewrite (zset_id _ _ _ Hv).
  - wp_run. wp_use wp_putc_vt; [done|done|]. intros [] s1 (v1 & Ht1 & Hc1 & Hd1 & Hu1 & Hi1 & Hs1).
    wp_use IH; [by eapply has_term_put|done|].
    intros [] s2 (v2 & Ht2 & Hc2 & Hd2 & Hu2 & Hi2 & Hs2). exists v2.
    rewrite Ht2, Ht1, zset_zset. split_and!; congruence.
Qed.

(** ** Terminals in order

    The grid has its dimensions and holds bytes, the cursor is in it. *)
Definition term_ok (v : vterm) : Prop :=
  (zlen (grid v) = VT_ROWS ∧ Forall (Forall (λ c, 0 ≤ c < 256)) (grid v)) ∧
  Forall (λ r, zlen r = VT_COLS + 1) (grid v) ∧ 0 ≤ row v < VT_ROWS ∧ 0 ≤ col v < VT_COLS.
Definition terms_sound (s : vterms) : Prop := zlen (terms s) = VT_MAX ∧ Forall term_ok (terms s).

Lemma empty_ok : term_ok empty.
Proof. split; [split; [done|]|split; [|done]]; by apply (bool_decide_unpack _). Qed.
Lemma term_ok_used b v : term_ok v → term_ok (with_used b v).
Proof. done. Qed.
Lemma terms_sound_put s id v : terms_sound s → term_ok v → terms_sound (set_terms (zset (terms s) id v) s).
Proof. intros [Hl Ht] Hv. split; cbn [terms set_terms]; [by rewrite zlen_zset|by apply Forall_zset]. Qed.

Lemma scroll_ok v :
  (zlen (grid v) = VT_ROWS ∧ Forall (Forall (λ c, 0 ≤ c < 256)) (grid v)) →
  Forall (λ r, zlen r = VT_COLS + 1) (grid v) → 0 ≤ row v ≤ VT_ROWS → 0 ≤ col v < VT_COLS →
  term_ok (scroll_if_below v).
Proof.
  intros [Hl Hb] Hr Hrow Hcol. unfold scroll_if_below. rewrite Z.geb_leb. destruct (Z.leb_spec VT_ROWS (row v)).
  2: { split; [done|]. split; [done|lia]. }
  unfold scroll, term_ok. cbn [grid row col with_cursor with_grid]. rewrite scroll_grid by done.
  split; [split|split; [|split; [done|exact Hcol]]].
  - rewrite zlen_app, (zlen_drop 1) by (unfold VT_ROWS in *; lia). change (zlen [blank_row]) with 1. unfold VT_ROWS in *. lia.
  - apply Forall_app. split; [by apply Forall_drop|]. constructor; [|done]. by apply (bool_decide_unpack _).
  - apply Forall_app. split; [by apply Forall_drop|]. by constructor.
Qed.
Lemma wp_putc_sound id c s :
  terms_sound s → 0 ≤ id → 0 ≤ c < 256 →
  wp (putc_vt id c) (λ _ s', terms_sound s' ∧ console_flag s' = console_flag s) s.
Proof.
  intros Hs Hid Hc. pose proof Hs as [Hl Ht]. unfold putc_vt. rewrite Z.geb_leb.
  destruct (Z.leb_spec VT_MAX id); [by wp_run|]. destruct (zget_lt (terms s) id) as [v Hv]; [lia|].
  wp_step. apply wp_aget. exists v. split; [exact Hv|]. destruct (used v); cbn [negb]; [|by wp_run].
  destruct (Z.eqb_spec c 13); [by wp_run|].
  pose proof (Forall_zget _ _ _ _ Ht Hv) as [[Hg Hb] (Hr & Hrow & Hcol)].
  assert (∀ v', term_ok v' →
    wp (put_term id v';; (h ← gets dirty_hook; if (h : bool) then modify (record_dirty id) else mret tt))
      (λ _ s', terms_sound s' ∧ console_flag s' = console_flag s) s) as Hput.
  { intros v' Hv'. pose proof (terms_sound_put s id v' Hs Hv') as H'. wp_step. apply wp_put_term. wp_run.
    by destruct (dirty_hook _); wp_run. }
  destruct (Z.eqb_spec c 10) as [->|Hlf].
  - apply Hput, scroll_ok; cbn [grid row col with_cursor]; [done|done|lia|done].
  - destruct (zget_lt (grid v) (row v)) as [r Hgr]; [lia|]. pose proof (Forall_zget _ _ _ _ Hr Hgr) as Hrl. cbv beta in Hrl.
    destruct (zget_lt r (col v)) as [x Hx]; [lia|]. unfold put_cell. rewrite Hgr. cbn [mbind option_bind]. rewrite Hx. cbn [mbind option_bind].
    refine (proj2 (wp_bind _ _ _ _) _). wp_run. apply wp_of_option. eexists. split; [done|].
    refine (proj1 (wp_bind _ _ _ _) _). cbv zeta. cbn [row col with_grid with_cursor]. rewrite Z.geb_leb.
    assert ((zlen (zset (grid v) (row v) (zset r (col v) c)) = VT_ROWS ∧
      Forall (Forall (λ c, 0 ≤ c < 256)) (zset (grid v) (row v) (zset r (col v) c))) ∧
      Forall (λ r, zlen r = VT_COLS + 1) (zset (grid v) (row v) (zset r (col v) c))) as [H1 H2].
    { split; [split; [by rewrite zlen_zset|]|]; apply Forall_zset; try done; [|by rewrite zlen_zset].
      apply Forall_zset; [|done]. exact (Forall_zget _ _ _ _ Hb Hgr). }
    apply Hput. destruct (Z.leb_spec VT_COLS (col v + 1)).
    + apply scroll_ok; cbn [grid row col with_cursor with_grid]; [done|done|lia|done].
    + split; [done|]. split; [done|]. cbn [row col with_cursor with_grid]. lia.
Qed.
Lemma wp_push_sound id b s : terms_sound s → wp (push id b) (λ _, terms_sound) s.
Proof.
  intros Hs. pose proof Hs as [Hl Ht]. unfold push. rewrite Z.geb_leb.
  destruct (Z.ltb_spec id 0), (Z.leb_spec VT_MAX id); cbn [orb]; try by wp_run.
  destruct (zget_lt (terms s) id) as [v Hv]; [lia|]. wp_step. apply wp_aget. exists v. split; [exact Hv|].
  destruct (used v); cbn [negb]; [|by wp_run]. apply wp_put_term.
  apply terms_sound_put; [done|]. exact (Forall_zget _ _ _ _ Ht Hv).
Qed.
Lemma wp_getc_sound id s : terms_sound s → 0 ≤ id → wp (getc id) (λ _, terms_sound) s.
Proof.
  intros Hs Hid. pose proof Hs as [Hl Ht]. unfold getc. rewrite Z.geb_leb. destruct (Z.leb_spec VT_MAX id); [by wp_run|].
  destruct (zget_lt (terms s) id) as [v Hv]; [lia|]. wp_step. apply wp_aget. exists v. split; [exact Hv|].
  destruct (used v); cbn [negb]; [|by wp_run]. destruct (Ring.pop _ _) as [c q]. wp_step. apply wp_put_term. wp_run.
  apply terms_sound_put; [done|]. exact (Forall_zget _ _ _ _ Ht Hv).
Qed.

(** ** Properties *)

(** C37: a terminal's grid is a window on an unbounded typewriter: whatever
    bytes are printed, no cell outside the grid is touched, the grid shows the
    last 14 lines of the text (wrapped at 56 columns) with the cursor where
    the carriage is, and the input queue and the other terminals are as
    before. *)
Theorem vterm_is_window s id v p cs :
  has_term s id v → shows v p →
  wp (puts id cs) (λ _ s', ∃ v',
    terms s' = zset (terms s) id v' ∧ inq v' = inq v ∧
    shows v' (fold_left type_char cs p)) s.
Proof.
  intros Ht Hsh. wp_use wp_puts; [done|done|].
  intros [] s' (v' & H1 & _ & _ & _ & H2 & H3). by exists v'.
Qed.

Definition demo_terms : vterms :=
  mkTerms (with_used true empty :: replicate 3 empty) true false [].

(** Fifteen lines scroll the first away. *)
Lemma vterm_is_window_witness :
  wp (puts 0 (concat (replicate 14 [65; 10]) ++ [66])) (λ _ s', ∃ v',
    terms s' = zset (terms demo_terms) 0 v' ∧ col v' = 1 ∧ row v' = 13 ∧
    head <$> grid v' = replicate 13 (Some 65) ++ [Some 66]) demo_terms.
Proof.
  eapply wp_mono.
  - apply (vterm_is_window demo_terms 0 (with_used true empty) fresh_paper); [done|].
    exact fresh_shown.
  - intros [] s' (v' & H1 & _ & [_ Hg Hr Hc]). exists v'. split; [exact H1|].
    rewrite Hg, Hr, Hc. split_and!; by vm_compute.
Defined.
End Vterm.
