(* ===== verification/Kbd.v ===== *)
(** * Keyboard ([kernel-rs/src/kbd.rs])

    Scancode set 1 to ASCII, into the kernel's ring or the routed terminal.
    The function-key hook (the WM's) is an effect recorded in [fn_calls]. *)
From S2P Require Import Prelude Ring Vterm.

Module Kbd.

Definition KBD_BUF : Z := 128.

Definition pad128 (t : list Z) : list Z := t ++ replicate (128 - length t) 0.
Definition UNSHIFTED : list Z := pad128 [
  0; 27; 49; 50; 51; 52; 53; 54; 55; 56; 57; 48; 45; 61; 8; 9;
  113; 119; 101; 114; 116; 121; 117; 105; 111; 112; 91; 93; 10; 0; 97;
  115; 100; 102; 103; 104; 106; 107; 108; 59; 39; 96; 0; 92; 122; 120;
  99; 118; 98; 110; 109; 44; 46; 47; 0; 42; 0; 32; 0;
  0; 0; 0; 0; 0].
Definition SHIFTED : list Z := pad128 [
  0; 27; 33; 64; 35; 36; 37; 94; 38; 42; 40; 41; 95; 43; 8; 9;
  81; 87; 69; 82; 84; 89; 85; 73; 79; 80; 123; 125; 10; 0; 65;
  83; 68; 70; 71; 72; 74; 75; 76; 58; 34; 126; 0; 124; 90; 88;
  67; 86; 66; 78; 77; 60; 62; 63; 0; 42; 0; 32; 0; 0; 0; 0; 0; 0].

Record kbd := mkKbd {
  queue : Ring.ring;
  shift : bool;
  route_vt : Z;
  fn_hook : bool;
  fn_calls : list Z;
  vts : Vterm.vterms;
}.
Definition set_queue (q : Ring.ring) (s : kbd) : kbd :=
  mkKbd q (shift s) (route_vt s) (fn_hook s) (fn_calls s) (vts s).
Definition set_shift (b : bool) (s : kbd) : kbd :=
  mkKbd (queue s) b (route_vt s) (fn_hook s) (fn_calls s) (vts s).
Definition set_vts (v : Vterm.vterms) (s : kbd) : kbd :=
  mkKbd (queue s) (shift s) (route_vt s) (fn_hook s) (fn_calls s) v.
Definition call_hook (n : Z) (s : kbd) : kbd :=
  mkKbd (queue s) (shift s) (route_vt s) (fn_hook s) (fn_calls s ++ [n]) (vts s).
(** The WM's assignments to [ROUTE_VT] and [FN_HOOK]. *)
Definition set_route (id : Z) (s : kbd) : kbd :=
  mkKbd (queue s) (shift s) id (fn_hook s) (fn_calls s) (vts s).
Definition set_fn_hook (s : kbd) : kbd :=
  mkKbd (queue s) (shift s) (route_vt s) true (fn_calls s) (vts s).
Definition set_fn_calls (l : list Z) (s : kbd) : kbd :=
  mkKbd (queue s) (shift s) (route_vt s) (fn_hook s) l (vts s).

Definition vt_call {A} (m : M Vterm.vterms A) : M kbd A := zoom vts set_vts m.

Definition push_char (c : Z) : M kbd unit :=
  modify (λ s, set_queue (Ring.push KBD_BUF c (queue s)) s).

Definition kbd_on_scancode (sc : Z) : M kbd unit :=
  if (sc =? 0x2A) || (sc =? 0x36) then modify (set_shift true)
  else if (sc =? 0xAA) || (sc =? 0xB6) then modify (set_shift false)
  else if negb (Z.land sc 0x80 =? 0) then mret tt
  else if sc >=? 128 then mret tt
  else if sc =? 0x3B then
    h ← gets fn_hook; (if (h : bool) then modify (call_hook 1) else mret tt)
  else
    sh ← gets shift;
    c ← (if sc <? 64 then of_option (zget (if (sh : bool) then SHIFTED else UNSHIFTED) sc)
         else mret 0);
    if c =? 0 then mret tt
    else
      r ← gets route_vt;
      if r >=? 0 then vt_call (Vterm.push r c) else push_char c.

Definition getchar : M kbd Z :=
  q ← gets queue;
  let '(c, q) := Ring.pop KBD_BUF q in
  modify (set_queue q);;
  mret (default (-1) c).

(** ** What a stream of scancodes types *)
Definition decode (sh : bool) (sc : Z) : option Z :=
  if (0 <=? sc) && (sc <? 64) then
    match zget (if sh then SHIFTED else UNSHIFTED) sc with
    | Some 0 | None => None
    | Some c => Some c
    end
  else None.
Definition next_shift (sh : bool) (sc : Z) : bool :=
  if (sc =? 0x2A) || (sc =? 0x36) then true
  else if (sc =? 0xAA) || (sc =? 0xB6) then false else sh.
Fixpoint typed (sh : bool) (scs : list Z) : list Z :=
  match scs with
  | [] => []
  | sc :: scs => option_list (decode sh sc) ++ typed (next_shift sh sc) scs
  end.

(** The typed characters the kernel has not read yet. *)
Definition pending (s : kbd) : list Z := Ring.contents KBD_BUF (queue s).
Definition kbd_ok (s : kbd) : Prop := Ring.ring_ok KBD_BUF (queue s).

Fixpoint type_all (scs : list Z) : M kbd unit :=
  match scs with
  | [] => mret tt
  | sc :: scs => kbd_on_scancode sc;; type_all scs
  end.

Lemma scancode_release_bit sc : 0 ≤ sc < 256 → (Z.land sc 0x80 =? 0) = (sc <? 128).
Proof.
  intros Hsc. assert (Forall (λ sc, (Z.land sc 0x80 =? 0) = (sc <? 128)) (seqZ 0 256)) as H.
  { apply Forall_forall. intros x Hx. vm_compute in Hx.
    repeat (apply elem_of_cons in Hx as [->|Hx]; [done|]). by apply elem_of_nil in Hx. }
  rewrite Forall_forall in H. apply H, elem_of_seqZ. lia.
Qed.

(** The special keys type nothing. *)
Lemma decode_special sh sc :
  sc = 0x2A ∨ sc = 0x36 ∨ sc = 0x3B → decode sh sc = None.
Proof. by intros [-> | [-> | ->]]; destruct sh. Qed.

Lemma wp_scancode s sc :
  kbd_ok s → 0 ≤ sc < 256 → route_vt s < 0 →
  wp (kbd_on_scancode sc) (λ _ s',
    shift s' = next_shift (shift s) sc ∧ route_vt s' = route_vt s ∧ vts s' = vts s ∧
    queue s' = match decode (shift s) sc with
               | Some c => Ring.push KBD_BUF c (queue s)
               | None => queue s
               end) s.
Proof.
  intros Hok Hsc Hr. unfold kbd_on_scancode, next_shift.
  destruct ((sc =? 0x2A) || (sc =? 0x36)) eqn:E1.
  { wp_run. split_and!; try done. rewrite decode_special; [done|].
    apply orb_true_iff in E1 as [E|E]; apply Z.eqb_eq in E; auto. }
  destruct ((sc =? 0xAA) || (sc =? 0xB6)) eqn:E2.
  { wp_run. split_and!; try done. unfold decode.
    apply orb_true_iff in E2 as [E|E]; apply Z.eqb_eq in E; by subst. }
  rewrite scancode_release_bit by done. rewrite Z.geb_leb.
  destruct (Z.ltb_spec sc 128); cbn [negb].
  2: { wp_run. split_and!; try done. unfold decode.
       by rewrite (proj2 (Z.ltb_ge sc 64)), andb_false_r by lia. }
  rewrite (proj2 (Z.leb_gt 128 sc)) by lia. destruct (Z.eqb_spec sc 0x3B) as [->|Hf1].
  { wp_run. rewrite decode_special by auto. destruct (fn_hook s); by wp_run. }
  unfold decode. rewrite (proj2 (Z.leb_le 0 sc)) by lia. cbn [andb]. wp_run.
  destruct (Z.ltb_spec sc 64) as [Hlo|Hhi]; [|by wp_run].
  destruct (zget_lt (if shift s then SHIFTED else UNSHIFTED) sc) as [c Hc].
  { assert (zlen SHIFTED = 128 ∧ zlen UNSHIFTED = 128) as [Hs Hu] by done.
    destruct (shift s); lia. }
  apply wp_of_option. exists c. split; [done|]. rewrite Hc.
  destruct (Z.eqb_spec c 0) as [->|Hc0]; [by wp_run|]. wp_run.
  rewrite Z.geb_leb, (proj2 (Z.leb_gt 0 _)) by done. unfold push_char. wp_run.
  by destruct c.
Qed.

Lemma wp_type_all s scs :
  kbd_ok s → Forall (λ sc, 0 ≤ sc < 256) scs → route_vt s < 0 →
  zlen (pending s) + zlen (typed (shift s) scs) < KBD_BUF →
  wp (type_all scs) (λ _ s', kbd_ok s' ∧
    pending s' = pending s ++ typed (shift s) scs) s.
Proof.
  intros Hok Hscs. revert s Hok. induction Hscs as [|sc scs Hsc Hscs IH]; intros s Hok Hr Hcap.
  - simpl. wp_run. by rewrite app_nil_r.
  - cbn [type_all typed] in *. wp_run. wp_use wp_scancode; [done|done|done|].
    intros [] s1 (Hs & Hr1 & _ & Hq). rewrite zlen_app in Hcap.
    pose proof (zlen_nonneg (typed (next_shift (shift s) sc) scs)) as Hn.
    pose proof (Ring.zlen_contents KBD_BUF ltac:(done) (queue s)) as Hlen.
    assert (kbd_ok s1 ∧ pending s1 = pending s ++ option_list (decode (shift s) sc)) as [Hok1 Hp1].
    { unfold kbd_ok, pending in *. rewrite Hq. destruct (decode (shift s) sc) as [c|]; simpl in *.
      - split; [by apply Ring.push_ok|]. rewrite Ring.contents_push by done.
        change (zlen [c]) with 1 in Hcap.
        by rewrite (proj2 (Z.eqb_neq _ _)) by (unfold KBD_BUF in *; lia).
      - by rewrite app_nil_r. }
    wp_use IH; [done|lia| |].
    + rewrite Hp1, Hs, zlen_app. lia.
    + intros [] s2 [Hok2 Hp2]. split; [done|]. by rewrite Hp2, Hp1, Hs, <- app_assoc.
Qed.

Lemma wp_getchar s :
  kbd_ok s →
  wp getchar (λ r s', kbd_ok s' ∧
    match pending s with
    | [] => r = -1 ∧ pending s' = []
    | c :: cs => r = c ∧ pending s' = cs
    end) s.
Proof.
  intros Hok. unfold getchar, pending, kbd_ok in *. apply wp_bind, wp_gets.
  pose proof (Ring.contents_pop KBD_BUF ltac:(done) (queue s) Hok) as Hc.
  pose proof (Ring.pop_ok KBD_BUF ltac:(done) (queue s) Hok) as Ho.
  destruct (Ring.pop KBD_BUF (queue s)) as [[c|] q]; wp_run; cbn [queue set_queue snd] in *.
  - by rewrite Hc.
  - destruct Hc as [-> Hc]. by rewrite Hc.
Qed.

(** ** Properties *)

(** C35: typing is a FIFO of decoded characters: any stream of scancodes that
    fits in the 127 places of the buffer is appended to it, shift states and
    releases applied, and [getchar] takes the oldest character out (-1 when
    there is none). *)
Theorem typing_is_fifo s scs :
  kbd_ok s → Forall (λ sc, 0 ≤ sc < 256) scs → route_vt s < 0 →
  zlen (pending s) + zlen (typed (shift s) scs) < KBD_BUF →
  wp (type_all scs;; getchar) (λ r s', kbd_ok s' ∧
    match pending s ++ typed (shift s) scs with
    | [] => r = -1 ∧ pending s' = []
    | c :: cs => r = c ∧ pending s' = cs
    end) s.
Proof.
  intros Hok Hscs Hr Hcap. wp_run. wp_use wp_type_all; [done|done|done|done|].
  intros [] s' [Hok' Hp]. rewrite <- Hp. by apply wp_getchar.
Qed.

Definition demo_kbd : kbd :=
  mkKbd (Ring.mkRing (replicate 128 0) 126 125) false (-1) false [] Vterm.demo_terms.

(** Shift, H, release, i: the buffer wraps around. *)
Lemma typing_is_fifo_witness :
  typed false [0x2A; 0x23; 0xAA; 0x17] = [72; 105] ∧
  wp (type_all [0x2A; 0x23; 0xAA; 0x17];; getchar) (λ r s', r = 0 ∧ pending s' = [72; 105]) demo_kbd.
Proof.
  split; [done|]. eapply wp_mono.
  - apply (typing_is_fifo demo_kbd [0x2A; 0x23; 0xAA; 0x17]).
    + by split.
    + by repeat constructor.
    + done.
    + by vm_compute.
  - intros r s' [_ H]. exact H.
Defined.
End Kbd.
