(* ===== verification/Surface.v ===== *)
(** * Pixel surfaces ([kernel-rs/src/gui/surface.rs], [gui/font.rs])

    A surface is its size and its pixel buffer; the buffer is raw memory in
    the source, so an access outside of it, undefined behaviour there, is
    [Panic] here: a [wp] statement says it does not happen.  Coordinates are
    [i32] and wrap. *)
From S2P Require Import Prelude PageAlloc Mem Pmm.

Module Surface.

Record rect := mkRect { x : Z; y : Z; w : Z; h : Z }.
Definition rect_default : rect := mkRect 0 0 0 0.

(** [(px, py)] lies in [r]. *)
Definition inside (r : rect) (px py : Z) : Prop :=
  x r ≤ px < x r + w r ∧ y r ≤ py < y r + h r.
#[global] Instance inside_dec r px py : Decision (inside r px py).
Proof. apply _. Defined.

Record surface := mkSurf { sw : Z; sh : Z; pixels : list Z }.

Definition clip_to_surface (s : surface) (r : rect) : bool * rect :=
  let r := if x r <? 0 then mkRect 0 (y r) (i32 (w r + x r)) (h r) else r in
  let r := if y r <? 0 then mkRect (x r) 0 (w r) (i32 (h r + y r)) else r in
  let r := if i32 (x r + w r) >? sw s
           then mkRect (x r) (y r) (i32 (sw s - x r)) (h r) else r in
  let r := if i32 (y r + h r) >? sh s
           then mkRect (x r) (y r) (w r) (i32 (sh s - y r)) else r in
  ((w r >? 0) && (h r >? 0), r).

(** [*s.pixels.add(i) = c] *)
Definition put_pixel (i c : Z) : M surface unit :=
  _ ← aget pixels i;
  modify (λ s, mkSurf (sw s) (sh s) (zset (pixels s) i c)).

Definition fill_rect (r : rect) (color : Z) : M surface unit :=
  s ← gets (λ s, s);
  let '(ok, r) := clip_to_surface s r in
  if negb ok then mret tt
  else
    for_each (y r) (i32 (y r + h r)) (λ py,
      for_each (x r) (i32 (x r + w r)) (λ px,
        wd ← gets sw;
        put_pixel (i32 (i32 (py * wd) + px)) color)).

(** [blit] from [src]; the state is the destination. *)
Definition blit (dx dy : Z) (src : surface) : M surface unit :=
  dst ← gets (λ s, s);
  let '(ok, r) := clip_to_surface dst (mkRect dx dy (sw src) (sh src)) in
  if negb ok then mret tt
  else
    let sx := i32 (x r - dx) in
    let sy := i32 (y r - dy) in
    for_each 0 (h r) (λ k,
      wd ← gets sw;
      let d := i32 (i32 ((y r + k) * wd) + x r) in
      let s := i32 (i32 ((sy + k) * sw src) + sx) in
      for_each 0 (w r) (λ i,
        c ← of_option (zget (pixels src) (s + i));
        put_pixel (d + i) c)).

(** ** Pixels *)
Definition pixel (s : surface) (px py : Z) : option Z :=
  if decide (0 ≤ px < sw s ∧ 0 ≤ py < sh s) then zget (pixels s) (py * sw s + px) else None.

Record surface_ok (s : surface) : Prop := {
  su_w : 0 < sw s;
  su_h : 0 < sh s;
  su_size : sw s * sh s < 2 ^ 31;
  su_len : zlen (pixels s) = sw s * sh s;
}.

(** Coordinates far from the [i32] limits. *)
Definition near (v : Z) : Prop := - 2 ^ 30 ≤ v < 2 ^ 30.
Definition rect_near (r : rect) : Prop :=
  near (x r) ∧ near (y r) ∧ near (w r) ∧ near (h r).

Lemma pixel_index s px py :
  surface_ok s → 0 ≤ px < sw s → 0 ≤ py < sh s → 0 ≤ py * sw s + px < sw s * sh s.
Proof. intros [] Hx Hy. nia. Qed.

Lemma pixel_some s px py :
  surface_ok s → 0 ≤ px < sw s → 0 ≤ py < sh s →
  ∃ c, zget (pixels s) (py * sw s + px) = Some c.
Proof.
  intros Hok Hx Hy. apply zget_lt. rewrite (su_len _ Hok). by apply pixel_index.
Qed.

(** Same size, pixels given by [f]. *)
Definition repainted (s s' : surface) (f : Z → Z → option Z) : Prop :=
  sw s' = sw s ∧ sh s' = sh s ∧ zlen (pixels s') = zlen (pixels s) ∧
  ∀ px py, 0 ≤ px < sw s → 0 ≤ py < sh s → pixel s' px py = f px py.

Lemma repainted_ok s s' f : surface_ok s → repainted s s' f → surface_ok s'.
Proof. intros [] (H1 & H2 & H3 & _). split; congruence. Qed.

Lemma index_inj (wd a b c d : Z) :
  0 ≤ a < wd → 0 ≤ c < wd → b * wd + a = d * wd + c → a = c ∧ b = d.
Proof.
  intros Ha Hc Heq.
  assert (b = d) as ->; [|lia].
  rewrite (Z.div_unique (b * wd + a) wd b a), (Z.div_unique (d * wd + c) wd d c) by lia.
  by rewrite Heq.
Qed.

Lemma wp_put_pixel s f qx qy c s0 :
  surface_ok s0 → repainted s0 s f → 0 ≤ qx < sw s0 → 0 ≤ qy < sh s0 →
  wp (put_pixel (qy * sw s0 + qx) c) (λ _ s',
    repainted s0 s' (λ px py, if decide (px = qx ∧ py = qy) then Some c else f px py)) s.
Proof.
  intros Hok0 Hre Hx Hy. pose proof (repainted_ok _ _ _ Hok0 Hre) as Hok.
  destruct Hre as (Hw & Hh & Hl & Hp). unfold put_pixel. wp_run. apply wp_aget.
  destruct (pixel_some s qx qy Hok) as [o Ho]; [lia|lia|].
  exists o. rewrite Hw in Ho. split; [done|]. wp_run. split_and!; simpl; [done|done| |].
  - by rewrite zlen_zset.
  - intros px py Hpx Hpy. unfold pixel in *. simpl. rewrite Hw, Hh. rewrite decide_True by lia.
    pose proof (pixel_index s0 qx qy Hok0 Hx Hy). pose proof (su_len _ Hok) as Hlen.
    rewrite Hw, Hh in Hlen. rewrite zget_zset by lia.
    specialize (Hp px py Hpx Hpy). rewrite Hw, Hh in Hp. rewrite decide_True in Hp by lia.
    destruct (decide (px = qx ∧ py = qy)) as [[-> ->]|Hne].
    + by rewrite decide_True.
    + rewrite decide_False; [done|]. intros Heq. apply Hne.
      by destruct (index_inj (sw s0) qx qy px py Hx Hpx Heq) as [-> ->].
Qed.

Lemma repainted_ext s s' f g :
  repainted s s' f →
  (∀ px py, 0 ≤ px < sw s → 0 ≤ py < sh s → f px py = g px py) → repainted s s' g.
Proof.
  intros (H1 & H2 & H3 & H4) Hfg. split_and!; try done.
  intros px py Hx Hy. rewrite H4 by done. by apply Hfg.
Qed.

(** ** Clipping *)
(** The part of [r] on the surface. *)
Definition clipped (s : surface) (r : rect) : rect :=
  let x0 := Z.max 0 (x r) in let y0 := Z.max 0 (y r) in
  mkRect x0 y0 (Z.min (sw s) (x r + w r) - x0) (Z.min (sh s) (y r + h r) - y0).

Lemma i32_small v : - 2 ^ 31 ≤ v < 2 ^ 31 → i32 v = v.
Proof. apply i32_id. Qed.

Lemma clip_spec s r :
  surface_ok s → near (sw s) → near (sh s) → rect_near r →
  clip_to_surface s r = ((w (clipped s r) >? 0) && (h (clipped s r) >? 0), clipped s r).
Proof.
  intros [Hw Hh _ _] Hsw Hsh (Hx & Hy & Hrw & Hrh). unfold near in *.
  destruct r as [rx ry rw rh]. simpl in *.
  set (r2 := mkRect (Z.max 0 rx) (Z.max 0 ry) (rw + Z.min 0 rx) (rh + Z.min 0 ry)).
  assert ((let r := if rx <? 0 then mkRect 0 ry (i32 (rw + rx)) rh else mkRect rx ry rw rh in
           if y r <? 0 then mkRect (x r) 0 (w r) (i32 (h r + y r)) else r) = r2) as Hr2.
  { unfold r2. destruct (Z.ltb_spec rx 0); simpl; destruct (Z.ltb_spec ry 0); simpl;
      rewrite ?i32_small by lia; f_equal; lia. }
  unfold clip_to_surface. cbv zeta in *. simpl in Hr2 |- *. rewrite Hr2.
  assert (x r2 = Z.max 0 rx ∧ y r2 = Z.max 0 ry ∧ w r2 = rw + Z.min 0 rx ∧ h r2 = rh + Z.min 0 ry)
    as (E1 & E2 & E3 & E4) by done. clearbody r2. destruct r2 as [a b c d]. simpl in E1, E2, E3, E4.
  subst a b c d. clear Hr2.
  unfold clipped. simpl. rewrite !Z.gtb_ltb.
  rewrite (i32_small (Z.max 0 rx + _)) by lia.
  destruct (Z.ltb_spec (sw s) (Z.max 0 rx + (rw + Z.min 0 rx))); simpl;
    rewrite (i32_small (Z.max 0 ry + _)) by lia; rewrite ?Z.gtb_ltb;
    destruct (Z.ltb_spec (sh s) (Z.max 0 ry + (rh + Z.min 0 ry))); simpl;
    rewrite ?i32_small by lia;
        match goal with |- (_, mkRect _ _ ?a ?b) = (_, mkRect _ _ ?a' ?b') =>
      replace a with a' by lia; replace b with b' by lia; done end.
Qed.

Lemma repainted_refl s : repainted s s (pixel s).
Proof. done. Qed.

Lemma clipped_inside s r px py :
  surface_ok s → 0 ≤ px < sw s → 0 ≤ py < sh s →
  inside (clipped s r) px py ↔ inside r px py.
Proof. intros [] Hx Hy. unfold inside, clipped. simpl. lia. Qed.

(** [clip_to_surface] answers whether anything of [r] is on the surface. *)
Lemma clip_empty s r px py :
  surface_ok s → 0 ≤ px < sw s → 0 ≤ py < sh s →
  (w (clipped s r) >? 0) && (h (clipped s r) >? 0) = false → ¬ inside r px py.
Proof.
  intros Hok Hx Hy Hc Hin. apply (clipped_inside s) in Hin; [|done..].
  unfold inside in Hin. rewrite !Z.gtb_ltb, (proj2 (Z.ltb_lt 0 _)), (proj2 (Z.ltb_lt 0 _)) in Hc
    by lia. done.
Qed.

Lemma decide_iff {A} (P Q : Prop) `{Decision P, Decision Q} (a b : A) :
  (P ↔ Q) → (if decide P then a else b) = (if decide Q then a else b).
Proof. intros HPQ. repeat case_decide; tauto. Qed.

Lemma wp_fill_rect s r color :
  surface_ok s → near (sw s) → near (sh s) → rect_near r →
  wp (fill_rect r color) (λ _ s',
    repainted s s' (λ px py, if decide (inside r px py) then Some color else pixel s px py)) s.
Proof.
  intros Hok Hsw Hsh Hr. unfold fill_rect. apply wp_bind, wp_gets. rewrite clip_spec by done.
  destruct (_ && _) eqn:Hc; cbn [negb].
  2: { wp_run. eapply repainted_ext; [apply repainted_refl|]. intros px py Hx Hy.
       by rewrite decide_False by (by apply (clip_empty s r)). }
  rewrite !Z.gtb_ltb, andb_true_iff, !Z.ltb_lt in Hc. destruct Hc as [Hcw Hch].
  assert (0 ≤ x (clipped s r) ∧ x (clipped s r) + w (clipped s r) ≤ sw s ∧
          0 ≤ y (clipped s r) ∧ y (clipped s r) + h (clipped s r) ≤ sh s) as (B1 & B2 & B3 & B4)
    by (unfold clipped in *; simpl in *; lia).
  assert (∀ px py, 0 ≤ px < sw s → 0 ≤ py < sh s → inside (clipped s r) px py ↔ inside r px py)
    as Hin by (intros; by apply clipped_inside).
  set (c := clipped s r) in *. clearbody c. unfold near in Hsw, Hsh.
  rewrite !i32_id by lia. pose proof (su_size _ Hok) as Hsize.
  apply (wp_for_each (λ k s', repainted s s' (λ px py,
    if decide (inside c px py ∧ py < k) then Some color else pixel s px py))).
  - lia.
  - eapply repainted_ext; [apply repainted_refl|]. intros px py _ _. rewrite decide_False; [done|].
    unfold inside. lia.
  - intros k s1 Hk Hre.
    apply (wp_for_each (λ j s', repainted s s' (λ px py,
      if decide (inside c px py ∧ (py < k ∨ py = k ∧ px < j)) then Some color else pixel s px py))).
    + lia.
    + eapply repainted_ext; [exact Hre|]. intros px py _ _. apply decide_iff. unfold inside. lia.
    + intros j s2 Hj Hre2. wp_run. pose proof Hre2 as (Hw2 & _). rewrite Hw2.
      assert (0 ≤ j < sw s) as Hjr by lia. assert (0 ≤ k < sh s) as Hkr by lia.
      pose proof (pixel_index s j k Hok Hjr Hkr).
      rewrite (i32_id (k * sw s)) by nia. rewrite i32_id by lia.
      eapply wp_mono; [by eapply wp_put_pixel|].
      intros [] s3 Hre3. eapply repainted_ext; [exact Hre3|]. intros px py _ _. cbv beta.
      unfold inside in *. repeat case_decide; try done; lia.
    + intros s2 Hre2. eapply repainted_ext; [exact Hre2|]. intros px py _ _.
      apply decide_iff. unfold inside. lia.
  - intros s1 Hre. eapply repainted_ext; [exact Hre|]. intros px py Hx Hy.
    apply decide_iff. rewrite <- Hin by done. unfold inside. lia.
Qed.

Lemma wp_blit s dx dy src :
  surface_ok s → surface_ok src → near (sw s) → near (sh s) →
  near dx → near dy → near (sw src) → near (sh src) →
  wp (blit dx dy src) (λ _ s', repainted s s' (λ px py,
    if decide (inside (mkRect dx dy (sw src) (sh src)) px py)
    then pixel src (px - dx) (py - dy) else pixel s px py)) s.
Proof.
  intros Hok Hoks Hsw Hsh Hdx Hdy Hssw Hssh. unfold blit. apply wp_bind, wp_gets. cbv beta.
  set (r := mkRect dx dy (sw src) (sh src)) in *.
  assert (rect_near r) as Hr by done.
  rewrite clip_spec by done. destruct (_ && _) eqn:Hc; cbn [negb].
  2: { wp_run. eapply repainted_ext; [apply repainted_refl|]. intros px py Hx Hy.
       by rewrite decide_False by (by apply (clip_empty s r)). }
  rewrite !Z.gtb_ltb, andb_true_iff, !Z.ltb_lt in Hc. destruct Hc as [Hcw Hch].
  assert (0 ≤ x (clipped s r) ∧ x (clipped s r) + w (clipped s r) ≤ sw s ∧
          0 ≤ y (clipped s r) ∧ y (clipped s r) + h (clipped s r) ≤ sh s ∧
          dx ≤ x (clipped s r) ∧ x (clipped s r) + w (clipped s r) ≤ dx + sw src ∧
          dy ≤ y (clipped s r) ∧ y (clipped s r) + h (clipped s r) ≤ dy + sh src)
    as (B1 & B2 & B3 & B4 & B5 & B6 & B7 & B8)
    by (unfold clipped in *; simpl in *; lia).
  assert (∀ px py, 0 ≤ px < sw s → 0 ≤ py < sh s → inside (clipped s r) px py ↔ inside r px py)
    as Hin by (intros; by apply clipped_inside).
  set (c := clipped s r) in *. clearbody c. unfold near in *. cbv zeta.
  rewrite (i32_id (x c - dx)), (i32_id (y c - dy)) by lia.
  pose proof (su_size _ Hok) as Hsize. pose proof (su_size _ Hoks) as Hssize.
  set (g := λ px py, pixel src (px - dx) (py - dy)).
  apply (wp_for_each (λ k s', repainted s s' (λ px py,
    if decide (inside c px py ∧ py < y c + k) then g px py else pixel s px py))).
  - lia.
  - eapply repainted_ext; [apply repainted_refl|]. intros px py _ _. rewrite decide_False; [done|].
    unfold inside. lia.
  - intros k s1 Hk Hre. wp_run. pose proof Hre as (Hw1 & _). rewrite Hw1.
    assert (0 ≤ x c < sw s) as Hxr by lia. assert (0 ≤ y c + k < sh s) as Hyr by lia.
    assert (0 ≤ x c - dx < sw src) as Hsx by lia.
    assert (0 ≤ y c - dy + k < sh src) as Hsy by lia.
    pose proof (pixel_index s _ _ Hok Hxr Hyr). pose proof (pixel_index src _ _ Hoks Hsx Hsy).
    rewrite (i32_id ((y c + k) * sw s)) by nia.
    rewrite (i32_id ((y c - dy + k) * sw src)) by nia.
    rewrite !i32_id by lia.
    apply (wp_for_each (λ j s', repainted s s' (λ px py,
      if decide (inside c px py ∧ (py < y c + k ∨ py = y c + k ∧ px < x c + j))
      then g px py else pixel s px py))).
    + lia.
    + eapply repainted_ext; [exact Hre|]. intros px py _ _. apply decide_iff. unfold inside. lia.
    + intros j s2 Hj Hre2. apply wp_bind.
      assert (0 ≤ x c - dx + j < sw src) as Hsxj by lia.
      destruct (pixel_some src (x c - dx + j) (y c - dy + k) Hoks Hsxj Hsy) as [p Hp].
      rewrite <- Z.add_assoc. apply wp_of_option. exists p. split; [done|].
      rewrite <- Z.add_assoc.
      eapply wp_mono.
      * apply (wp_put_pixel s2 _ (x c + j) (y c + k) p s Hok Hre2); lia.
      * intros [] s3 Hre3. eapply repainted_ext; [exact Hre3|]. intros px py _ _. cbv beta.
        assert (g (x c + j) (y c + k) = Some p) as Hg.
        { unfold g, pixel. rewrite decide_True by lia.
          replace (x c + j - dx) with (x c - dx + j) by lia.
          by replace (y c + k - dy) with (y c - dy + k) by lia. }
        destruct (decide (px = x c + j ∧ py = y c + k)) as [[-> ->]|Hne].
        -- rewrite decide_True; [done|]. unfold inside. lia.
        -- apply decide_iff. unfold inside. lia.
    + intros s2 Hre2. eapply repainted_ext; [exact Hre2|]. intros px py _ _.
      apply decide_iff. unfold inside. lia.
  - intros s1 Hre. eapply repainted_ext; [exact Hre|]. intros px py Hx Hy.
    apply decide_iff. rewrite <- Hin by done. unfold inside. lia.
Qed.

(** ** Text ([font.rs]); the glyph table is [font8x16_data.rs] *)
Definition FONT_W : Z := 8.
Definition FONT_H : Z := 16.

Section font.
Variable FONT8X16 : list (list Z).

(** 256 glyphs of 16 rows. *)
Definition font_ok : Prop :=
  zlen FONT8X16 = 256 ∧ ∀ c g, zget FONT8X16 c = Some g → zlen g = FONT_H.

Definition draw_char (cx cy c fg bg : Z) : M surface unit :=
  g ← of_option (zget FONT8X16 c);
  for_each 0 FONT_H (λ row,
    for_each 0 FONT_W (λ col,
      b ← of_option (zget g row);
      let color := if negb (Z.land (Z.shiftr b (7 - col)) 1 =? 0) then fg else bg in
      let px := i32 (cx + col) in
      let py := i32 (cy + row) in
      s ← gets (λ s, s);
      if (px >=? 0) && (px <? sw s) && (py >=? 0) && (py <? sh s)
      then put_pixel (i32 (i32 (py * sw s) + px)) color
      else mret tt)).

Fixpoint draw_string (cx cy : Z) (str : list Z) (fg bg : Z) : M surface unit :=
  match str with
  | [] => mret tt
  | c :: str =>
      wd ← gets sw;
      if (c =? 0) || (i32 (cx + FONT_W) >? wd) then mret tt
      else draw_char cx cy c fg bg;; draw_string (i32 (cx + FONT_W)) cy str fg bg
  end.

(** The colour of cell position ([col], [row]) of character [c]. *)
Definition ink (c col row fg bg : Z) : Z :=
  match zget FONT8X16 c with
  | Some g =>
      match zget g row with
      | Some b => if Z.testbit b (7 - col) then fg else bg
      | None => bg
      end
  | None => bg
  end.

Lemma ink_bit b col :
  0 ≤ col < 8 → negb (Z.land (Z.shiftr b (7 - col)) 1 =? 0) = Z.testbit b (7 - col).
Proof.
  intros Hc. change 1 with (Z.ones 1). rewrite Z.land_ones by lia. change (2 ^ 1) with 2.
  rewrite Zmod_odd, <- Z.bit0_odd, Z.shiftr_spec, Z.add_0_l by lia.
  by destruct (Z.testbit b (7 - col)).
Qed.

Lemma wp_draw_char s s0 f cx cy c fg bg :
  font_ok → 0 ≤ c < 256 → surface_ok s0 → near (sw s0) → near (sh s0) → near cx → near cy →
  repainted s0 s f →
  wp (draw_char cx cy c fg bg) (λ _ s', repainted s0 s' (λ px py,
    if decide (inside (mkRect cx cy FONT_W FONT_H) px py)
    then Some (ink c (px - cx) (py - cy) fg bg) else f px py)) s.
Proof.
  intros [Hfl Hfr] Hc Hok Hsw Hsh Hcx Hcy Hre0. unfold near, draw_char in *.
  destruct (zget_lt FONT8X16 c) as [g Hg]; [lia|]. pose proof (Hfr c g Hg) as Hgl.
  apply wp_bind, wp_of_option. exists g. split; [done|].
  pose proof (su_size _ Hok) as Hsize. unfold FONT_W, FONT_H in *.
  apply (wp_for_each (λ k s', repainted s0 s' (λ px py,
    if decide (inside (mkRect cx cy 8 16) px py ∧ py < cy + k)
    then Some (ink c (px - cx) (py - cy) fg bg) else f px py))).
  - lia.
  - eapply repainted_ext; [exact Hre0|]. intros px py _ _. rewrite decide_False; [done|].
    unfold inside. simpl. lia.
  - intros k s1 Hk Hre.
    apply (wp_for_each (λ j s', repainted s0 s' (λ px py,
      if decide (inside (mkRect cx cy 8 16) px py ∧ (py < cy + k ∨ py = cy + k ∧ px < cx + j))
      then Some (ink c (px - cx) (py - cy) fg bg) else f px py))).
    + lia.
    + eapply repainted_ext; [exact Hre|]. intros px py _ _. apply decide_iff. unfold inside. simpl. lia.
    + intros j s2 Hj Hre2. destruct (zget_lt g k) as [b Hb]; [lia|].
      apply wp_bind, wp_of_option. exists b. split; [done|]. cbv zeta. rewrite ink_bit by done.
      wp_run. pose proof Hre2 as (Hw2 & Hh2 & _). rewrite Hw2, Hh2, !(i32_id (_ + _)) by lia.
      rewrite !Z.geb_leb.
      assert (ink c j k fg bg = if Z.testbit b (7 - j) then fg else bg) as Hink
        by (unfold ink; by rewrite Hg, Hb).
      rewrite <- Hink.
      destruct (decide (0 ≤ cx + j < sw s0 ∧ 0 ≤ cy + k < sh s0)) as [[Hx Hy]|Hout].
      * rewrite (proj2 (Z.leb_le 0 (cx + j))), (proj2 (Z.ltb_lt (cx + j) _)),
          (proj2 (Z.leb_le 0 (cy + k))), (proj2 (Z.ltb_lt (cy + k) _)) by lia. cbn [andb].
        pose proof (pixel_index s0 _ _ Hok Hx Hy).
        rewrite (i32_id ((cy + k) * sw s0)) by nia. rewrite i32_id by lia.
        eapply wp_mono; [apply (wp_put_pixel s2 _ (cx + j) (cy + k) _ s0 Hok Hre2 Hx Hy)|].
        intros [] s3 Hre3. eapply repainted_ext; [exact Hre3|]. intros px py _ _. cbv beta.
        destruct (decide (px = cx + j ∧ py = cy + k)) as [[-> ->]|Hne].
        -- rewrite decide_True by (unfold inside; simpl; lia). by rewrite !Z.add_simpl_l.
        -- apply decide_iff. unfold inside. simpl. lia.
      * assert ((0 <=? cx + j) && (cx + j <? sw s0) && (0 <=? cy + k) && (cy + k <? sh s0) = false)
          as -> by (destruct (Z.leb_spec 0 (cx + j)), (Z.ltb_spec (cx + j) (sw s0)),
                      (Z.leb_spec 0 (cy + k)), (Z.ltb_spec (cy + k) (sh s0)); simpl; done || lia).
        wp_run. eapply repainted_ext; [exact Hre2|]. intros px py Hpx Hpy.
        apply decide_iff. unfold inside. simpl. lia.
    + intros s2 Hre2. eapply repainted_ext; [exact Hre2|]. intros px py _ _.
      apply decide_iff. unfold inside. simpl. lia.
  - intros s1 Hre. eapply repainted_ext; [exact Hre|]. intros px py _ _.
    apply decide_iff. unfold inside. simpl. lia.
Qed.

(** How many characters of [str] are drawn from column [cx]. *)
Fixpoint drawn (wd cx : Z) (str : list Z) : Z :=
  match str with
  | [] => 0
  | c :: str => if (c =? 0) || (cx + FONT_W >? wd) then 0 else 1 + drawn wd (cx + FONT_W) str
  end.

Lemma drawn_nonneg wd cx str : 0 ≤ drawn wd cx str.
Proof.
  revert cx. induction str as [|c str IH]; intros cx; simpl; [done|].
  destruct (_ || _); [done|]. specialize (IH (cx + FONT_W)). lia.
Qed.

(** The text cell [px] falls in. *)
Definition text_pixel (cx cy : Z) (str : list Z) (fg bg px py : Z) : option Z :=
  c ← zget str ((px - cx) / FONT_W);
  Some (ink c ((px - cx) mod FONT_W) (py - cy) fg bg).

Lemma wp_draw_string s s0 f cx cy str fg bg :
  font_ok → Forall (λ c, 0 ≤ c < 256) str → surface_ok s0 → sw s0 < 2 ^ 29 → near (sh s0) →
  - 2 ^ 29 ≤ cx < 2 ^ 29 → near cy → repainted s0 s f →
  wp (draw_string cx cy str fg bg) (λ _ s', repainted s0 s' (λ px py,
    if decide (inside (mkRect cx cy (FONT_W * drawn (sw s0) cx str) FONT_H) px py)
    then text_pixel cx cy str fg bg px py else f px py)) s.
Proof.
  intros Hf Hstr Hok Hsw Hsh Hcx Hcy. revert cx s f Hcx.
  pose proof (su_w _ Hok) as Hw0.
  induction Hstr as [|c str Hc Hstr IH]; intros cx s f Hcx Hre; simpl.
  { wp_run. eapply repainted_ext; [exact Hre|]. intros px py _ _.
    rewrite decide_False; [done|]. unfold inside. simpl. lia. }
  wp_run. pose proof Hre as (Hw & _). rewrite Hw. unfold FONT_W in *.
  rewrite i32_id by (lia). destruct ((c =? 0) || (cx + 8 >? sw s0)) eqn:Hstop.
  { wp_run. eapply repainted_ext; [exact Hre|]. intros px py _ _.
    rewrite decide_False; [done|]. unfold inside. simpl. lia. }
  apply orb_false_iff in Hstop as [_ Hfit]. rewrite Z.gtb_ltb in Hfit.
  apply Z.ltb_ge in Hfit. wp_run.
  eapply wp_mono.
  { apply (wp_draw_char s s0 f cx cy c fg bg); try done; unfold near in *; lia. }
  intros [] s1 Hre1. eapply wp_mono; [apply (IH (cx + 8) s1 _ ltac:(lia) Hre1)|].
  intros [] s2 Hre2. eapply repainted_ext; [exact Hre2|]. intros px py _ _. cbv beta.
  pose proof (drawn_nonneg (sw s0) (cx + 8) str) as Hd. unfold FONT_W, FONT_H in *.
  set (n := drawn _ _ str) in *.
  unfold inside, text_pixel. simpl. unfold FONT_W.
  destruct (decide (px < cx + 8)) as [Hlo|Hhi].
  - rewrite decide_False by lia.
    destruct (decide (cx ≤ px < cx + 8 ∧ cy ≤ py < cy + 16)).
    + rewrite decide_True by lia. rewrite Z.div_small, Z.mod_small by lia. done.
    + by rewrite decide_False by lia.
  - rewrite (decide_False (P := cx ≤ px < cx + 8 ∧ _)) by lia.
    assert ((px - (cx + 8)) / 8 = (px - cx) / 8 - 1 ∧ (px - (cx + 8)) mod 8 = (px - cx) mod 8)
      as [Hq Hm] by dlia.
    destruct (decide (cx + 8 ≤ px < cx + 8 + 8 * n ∧ cy ≤ py < cy + 16)).
    + rewrite decide_True by lia. rewrite Hq, Hm.
      assert (0 < (px - cx) / 8) by dlia.
      unfold zget. rewrite !decide_True by lia.
      replace (Z.to_nat ((px - cx) / 8)) with (S (Z.to_nat ((px - cx) / 8 - 1))) by lia. done.
    + by rewrite decide_False by lia.
Qed.
End font.

(** ** Allocation

    [create] and [drop] over any page allocator; the header page holds the
    sizes and the address of the pixels.  [div_ceil] on [usize]. *)
Section alloc.
Context {P : Type} `{PageAllocatorLaws P}.

Record gui_mem := mkGui { alloc : P; phys : memory }.
Definition set_alloc (p : P) (s : gui_mem) : gui_mem := mkGui p (phys s).
Definition alloc_call {A} (m : M P A) : M gui_mem A := zoom alloc set_alloc m.

(** [&mut Surface] in the header page: its page and its fields. *)
Record handle := mkHandle { hdr_pa : Z; hw : Z; hh : Z; px_pa : Z }.

Definition pixel_pages (wd ht : Z) : Z := (u64 (wd * ht * 4) + PAGE_SIZE - 1) / PAGE_SIZE.

Definition create (wd ht : Z) : M gui_mem (option handle) :=
  if (wd <=? 0) || (ht <=? 0) then mret None
  else
    hdr ← alloc_call (alloc_pages 1 PAGE_SIZE);
    if hdr =? 0 then mret None
    else
      px ← alloc_call (alloc_pages (pixel_pages wd ht) PAGE_SIZE);
      if px =? 0 then alloc_call (free_page hdr);; mret None
      else
        modify (λ s, mkGui (alloc s) (fill (phys s) px (pixel_pages wd ht * PAGE_SIZE) 0));;
        mret (Some (mkHandle hdr wd ht px)).

Definition drop (d : handle) : M gui_mem unit :=
  for_each 0 (pixel_pages (hw d) (hh d)) (λ i,
    alloc_call (free_page (px_pa d + i * PAGE_SIZE)));;
  alloc_call (free_page (hdr_pa d)).

Lemma wp_alloc_call {A} (m : M P A) (Q : A → gui_mem → Prop) s :
  wp m (λ a p, Q a (set_alloc p s)) (alloc s) → wp (alloc_call m) Q s.
Proof. intros Hm. unfold alloc_call. by apply wp_zoom. Qed.

(** Loops of allocator calls are allocator loops. *)
Lemma alloc_call_loop n (body : Z → M P unit) s :
  for_each 0 n (λ i, alloc_call (body i)) s = alloc_call (for_each 0 n body) s.
Proof.
  unfold for_each, for_range. rewrite Z.sub_0_r.
  assert (∀ k i s, for_from (R := unit) k i (λ i, _ ← alloc_call (body i); mret None) s =
    alloc_call (for_from k i (λ i, _ ← body i; mret None)) s) as Hloop.
  { induction k as [|k IH]; intros i [a m]; [done|]. cbn [for_from].
    unfold alloc_call, zoom, mbind, M_bind, mret, M_ret in *. simpl.
    destruct (body i a) as [[[] a1]| |]; [|done|done]. by rewrite IH. }
  unfold mbind, M_bind. rewrite Hloop. unfold alloc_call, zoom. destruct s as [a m]. simpl.
  by destruct (for_from (Z.to_nat n) 0 _ a) as [[[r|] p]| |].
Qed.

Lemma pixel_pages_pos wd ht :
  0 < wd < 2 ^ 31 → 0 < ht < 2 ^ 31 → wd * ht < 2 ^ 61 → 0 < pixel_pages wd ht < 2 ^ 63.
Proof.
  intros Hw Hh Hs. unfold pixel_pages, PAGE_SIZE. rewrite u64_id by nia.
  assert (1 ≤ wd * ht) by nia. dlia.
Qed.

Lemma wp_surface_create s wd ht :
  alloc_inv (alloc s) → wd < 2 ^ 31 → ht < 2 ^ 31 → wd * ht < 2 ^ 61 →
  wp (create wd ht) (λ r s', alloc_inv (alloc s') ∧
    match r with
    | None => ∀ b, avail (alloc s') b ↔ avail (alloc s) b
    | Some d =>
        0 < wd ∧ 0 < ht ∧ hw d = wd ∧ hh d = ht ∧ 0 < hdr_pa d ∧ 0 < px_pa d ∧
        (∀ i, 0 ≤ i < 4 * (wd * ht) → phys s' (px_pa d + i) = 0) ∧
        ∃ p1, alloc_inv p1 ∧ 
          (∀ k, 0 ≤ k < 1 → avail (alloc s) (hdr_pa d + k * PAGE_SIZE)) ∧
          (∀ b, avail p1 b ↔ avail (alloc s) b ∧ ∀ k, 0 ≤ k < 1 → b ≠ hdr_pa d + k * PAGE_SIZE) ∧
          (∀ k, 0 ≤ k < pixel_pages wd ht → avail p1 (px_pa d + k * PAGE_SIZE)) ∧
          (∀ b, avail (alloc s') b ↔ avail p1 b ∧
                ∀ k, 0 ≤ k < pixel_pages wd ht → b ≠ px_pa d + k * PAGE_SIZE)
    end) s.
Proof.
  intros Hinv Hw Hh Hs. unfold create.
  destruct (Z.leb_spec wd 0) as [|Hw0]; cbn [orb]; [by wp_run|].
  destruct (Z.leb_spec ht 0) as [|Hh0]; [by wp_run|].
  pose proof (pixel_pages_pos wd ht ltac:(lia) ltac:(lia) Hs) as Hpp.
  wp_run. apply wp_alloc_call. wp_use (alloc_pages_law (alloc s) 1 Hinv); [lia|].
  intros hdr p1 [Hinv1 [(-> & -> & _)|(Hhdr & Hav1 & Hset1)]]; [by destruct s; simpl; wp_run|].
  rewrite (proj2 (Z.eqb_neq hdr 0)) by lia. wp_run. apply wp_alloc_call.
  wp_use (alloc_pages_law p1 (pixel_pages wd ht) Hinv1); [lia|].
  intros px p2 [Hinv2 [(-> & -> & _)|(Hpx & Hav2 & Hset2)]].
  - cbn [Z.eqb]. wp_run. apply wp_alloc_call. wp_use (free_page_law p1 hdr Hinv1); [done|].
    intros [] p3 (Hinv3 & Hfree & Hkeep & Hnew). wp_run. split; [done|]. simpl.
    assert (avail (alloc s) hdr) as Hhav by (rewrite <- (Z.add_0_r hdr); by apply (Hav1 0)).
    intros b. split.
    + intros [Hb | ->]%Hnew; [by apply Hset1 in Hb as [? _]|done].
    + intros Hb. destruct (decide (b = hdr)) as [->|Hne].
      * apply Hfree. by apply (avail_page (alloc s)).
      * apply Hkeep, Hset1. split; [done|]. intros k Hk Heq. assert (k = 0) as -> by lia. lia.
  - rewrite (proj2 (Z.eqb_neq px 0)) by lia. wp_run. split_and!; try done.
    + intros i Hi. simpl. apply fill_in. unfold pixel_pages, PAGE_SIZE in *.
      rewrite u64_id in * by nia. dlia.
    + exists p1. split_and!; try done.
Qed.

Lemma wp_drop s d :
  alloc_inv (alloc s) → 0 < hdr_pa d → 0 < px_pa d → 0 < pixel_pages (hw d) (hh d) →
  wp (drop d) (λ _ s', alloc_inv (alloc s') ∧ ∃ p1,
    (∀ b, page_run (px_pa d) (pixel_pages (hw d) (hh d)) b → phys_page b → avail p1 b) ∧
    (∀ b, avail (alloc s) b → avail p1 b) ∧
    (∀ b, avail p1 b → avail (alloc s) b ∨ page_run (px_pa d) (pixel_pages (hw d) (hh d)) b) ∧
    (phys_page (hdr_pa d) → avail (alloc s') (hdr_pa d)) ∧
    (∀ b, avail p1 b → avail (alloc s') b) ∧
    (∀ b, avail (alloc s') b → avail p1 b ∨ b = hdr_pa d)) s.
Proof.
  intros Hinv Hhdr Hpx Hn. unfold drop. apply wp_bind. unfold wp at 1.
  rewrite (alloc_call_loop _ (λ i, free_page (px_pa d + i * PAGE_SIZE))).
  change (wp (alloc_call (for_each 0 (pixel_pages (hw d) (hh d))
    (λ i, free_page (px_pa d + i * PAGE_SIZE)))) (λ _ s', wp (alloc_call (free_page (hdr_pa d)))
      (λ _ s', alloc_inv (alloc s') ∧ ∃ p1,
    (∀ b, page_run (px_pa d) (pixel_pages (hw d) (hh d)) b → phys_page b → avail p1 b) ∧
    (∀ b, avail (alloc s) b → avail p1 b) ∧
    (∀ b, avail p1 b → avail (alloc s) b ∨ page_run (px_pa d) (pixel_pages (hw d) (hh d)) b) ∧
    (phys_page (hdr_pa d) → avail (alloc s') (hdr_pa d)) ∧
    (∀ b, avail p1 b → avail (alloc s') b) ∧
    (∀ b, avail (alloc s') b → avail p1 b ∨ b = hdr_pa d)) s') s).
  apply wp_alloc_call.
  wp_use (wp_free_run (alloc s) (px_pa d) (pixel_pages (hw d) (hh d)) Hinv Hpx); [lia|].
  intros [] p1 (Hinv1 & H1 & H2 & H3). apply wp_alloc_call. simpl.
  wp_use (free_page_law p1 (hdr_pa d) Hinv1 Hhdr).
  intros [] p2 (Hinv2 & H4 & H5 & H6). split; [done|]. by exists p1.
Qed.
End alloc.
Arguments gui_mem : clear implicits.

(** ** Properties *)

(** [fill_rect] never touches memory outside the pixel buffer, whatever
    the rectangle: it returns, the pixels of the surface inside the rectangle
    have the colour and all others are unchanged. *)
Theorem fill_rect_exact s r color :
  surface_ok s → near (sw s) → near (sh s) → rect_near r →
  wp (fill_rect r color) (λ _ s', sw s' = sw s ∧ sh s' = sh s ∧
    ∀ px py, 0 ≤ px < sw s → 0 ≤ py < sh s →
      pixel s' px py = if decide (inside r px py) then Some color else pixel s px py) s.
Proof.
  intros Hok Hw Hh Hr. wp_use wp_fill_rect; [done..|]. by intros [] s' (H1 & H2 & _ & H3).
Qed.

(** [blit] reads only inside the source and writes only inside the
    destination: every destination pixel covered by the source placed at
    ([dx], [dy]) gets the source's pixel, all others are unchanged. *)
Theorem blit_exact s dx dy src :
  surface_ok s → surface_ok src → near (sw s) → near (sh s) →
  near dx → near dy → near (sw src) → near (sh src) →
  wp (blit dx dy src) (λ _ s', sw s' = sw s ∧ sh s' = sh s ∧
    ∀ px py, 0 ≤ px < sw s → 0 ≤ py < sh s →
      pixel s' px py =
      if decide (inside (mkRect dx dy (sw src) (sh src)) px py)
      then pixel src (px - dx) (py - dy) else pixel s px py) s.
Proof.
  intros Hok Hoks H1 H2 H3 H4 H5 H6. wp_use wp_blit; [done..|].
  by intros [] s' (? & ? & _ & ?).
Qed.

(** [draw_string] draws the characters up to the first NUL or the first
    one that would not fit, 8 pixels apart, each by its glyph in the two
    colours, and touches no other pixel; positions off the surface are
    clipped. *)
Theorem draw_string_exact font s cx cy str fg bg :
  font_ok font → Forall (λ c, 0 ≤ c < 256) str → surface_ok s → sw s < 2 ^ 29 → near (sh s) →
  - 2 ^ 29 ≤ cx < 2 ^ 29 → near cy →
  wp (draw_string font cx cy str fg bg) (λ _ s', sw s' = sw s ∧ sh s' = sh s ∧
    ∀ px py, 0 ≤ px < sw s → 0 ≤ py < sh s →
      pixel s' px py =
      if decide (inside (mkRect cx cy (FONT_W * drawn (sw s) cx str) FONT_H) px py)
      then text_pixel font cx cy str fg bg px py else pixel s px py) s.
Proof.
  intros Hf Hstr Hok Hw Hh Hcx Hcy.
  wp_use (wp_draw_string font s s (pixel s)); [done..|apply repainted_refl|].
  by intros [] s' (? & ? & _ & ?).
Qed.

(** creating a surface and dropping it gives back exactly the pages it
    took; a failed creation takes none. *)
Theorem create_drop_balanced {P} `{PageAllocatorLaws P} (s : gui_mem P) wd ht :
  alloc_inv (alloc s) → wd < 2 ^ 31 → ht < 2 ^ 31 → wd * ht < 2 ^ 61 →
  wp (r ← create wd ht; match r with Some d => drop d | None => mret tt end)
    (λ _ s', ∀ b, avail (alloc s') b ↔ avail (alloc s) b) s.
Proof.
  intros Hinv Hw Hh Hs. wp_run. wp_use wp_surface_create; [done..|].
  intros [d|] s1 [Hinv1 Hr]; [|by wp_run].
  destruct Hr as (Hw0 & Hh0 & Ew & Eh & Hhdr & Hpx & _ & p1 & Hp1 & Hav1 & Hset1 & Hav2 & Hset2).
  pose proof (pixel_pages_pos wd ht ltac:(lia) ltac:(lia) Hs).
  wp_use wp_drop; [done|done|done|rewrite Ew, Eh; lia|].
  intros [] s2 (Hinv2 & p2 & H2 & H3 & H4 & H5 & H6 & H7). rewrite Ew, Eh in *.
  pose proof (avail_restored p1 (alloc s1) p2 _ _ Hp1 Hav2 Hset2 H2 H3 H4) as Hmid.
  apply (avail_restored (alloc s) p2 (alloc s2) (hdr_pa d) 1); try done.
  - intros b. rewrite Hmid. apply Hset1.
  - intros b (k & Hk & ->) Hph. assert (k = 0) as -> by lia. rewrite Z.add_0_r in *. auto.
  - intros b [Hb | ->]%H7; [by left|]. right. exists 0. split; lia.
Qed.

(** ** Witnesses *)
Definition demo_surface : surface := mkSurf 3 2 [1; 2; 3; 4; 5; 6].
Lemma demo_surface_ok : surface_ok demo_surface.
Proof. by split. Qed.

Lemma fill_rect_exact_witness :
  wp (fill_rect (mkRect 1 (-1) 9 2) 7) (λ _ s', pixel s' 2 0 = Some 7 ∧ pixel s' 2 1 = Some 6)
    demo_surface.
Proof.
  eapply wp_mono; [apply (fill_rect_exact demo_surface _ _ demo_surface_ok); done|].
  intros [] s' (_ & _ & H). split; by rewrite H.
Defined.

Lemma blit_exact_witness :
  wp (blit (-1) 1 (mkSurf 2 2 [10; 11; 12; 13])) (λ _ s',
    pixel s' 0 1 = Some 11 ∧ pixel s' 1 1 = Some 5) demo_surface.
Proof.
  eapply wp_mono; [apply (blit_exact demo_surface); [exact demo_surface_ok|by split|done..]|].
  intros [] s' (_ & _ & H). split; by rewrite H.
Defined.

(** A font of solid left halves. *)
Definition demo_font : list (list Z) := replicate 256 (replicate 16 0xF0).
Definition demo_canvas : surface := mkSurf 12 1 (replicate 12 0).

Lemma draw_string_exact_witness :
  wp (draw_string demo_font 1 (-3) [65; 66] 1 2) (λ _ s',
    pixel s' 4 0 = Some 1 ∧ pixel s' 5 0 = Some 2 ∧ pixel s' 9 0 = Some 0) demo_canvas.
Proof.
  eapply wp_mono.
  - apply (draw_string_exact demo_font demo_canvas 1 (-3) [65; 66] 1 2); try done.
    + split; [done|]. intros c g Hg. unfold demo_font in Hg. rewrite zget_replicate in Hg.
      case_decide; [|done]. by injection Hg as <-.
    + by repeat constructor.
  - intros [] s' (_ & _ & H). split_and!; by rewrite H.
Defined.

Lemma create_drop_balanced_witness :
  let s := mkGui Pmm.boot_pmm (λ _, 1) in
  wp (r ← create 30 40; match r with Some d => drop d | None => mret tt end)
    (λ _ s', ∀ b, avail (alloc s') b ↔ avail (alloc s) b) s.
Proof.
  intros s. apply (create_drop_balanced s 30 40); [exact Pmm.boot_pmm_ok|lia..].
Defined.
End Surface.
