(* ===== verification/Dirty.v ===== *)
(** * Dirty regions ([kernel-rs/src/gui/dirty.rs])

    At most sixteen rectangles, clipped to the screen, the first [n] of the
    array live. *)
From S2P Require Import Prelude Surface.
Import Surface (rect, mkRect, inside, near, rect_near, rect_default, x, y, w, h).

Module Dirty.

Definition DIRTY_MAX_RECTS : Z := 16.

Record region := mkRegion { r : list rect; n : Z; bw : Z; bh : Z }.
Definition new : region :=
  mkRegion (replicate (Z.to_nat DIRTY_MAX_RECTS) (mkRect 0 0 0 0)) 0 0 0.
Definition set_n (k : Z) (s : region) : region := mkRegion (r s) k (bw s) (bh s).
Definition set_rect (i : Z) (a : rect) (s : region) : region :=
  mkRegion (zset (r s) i a) (n s) (bw s) (bh s).

Definition init (bounds_w bounds_h : Z) : M region unit :=
  modify (λ s, mkRegion (r s) 0 bounds_w bounds_h).
Definition clear : M region unit := modify (set_n 0).
Definition empty : M region bool := gets (λ s, n s =? 0).

Definition union (a b : rect) : rect :=
  let x0 := Z.min (x a) (x b) in
  let y0 := Z.min (y a) (y b) in
  let x1 := Z.max (i32 (x a + w a)) (i32 (x b + w b)) in
  let y1 := Z.max (i32 (y a + h a)) (i32 (y b + h b)) in
  mkRect x0 y0 (i32 (x1 - x0)) (i32 (y1 - y0)).

Definition touching (a b : rect) : bool :=
  (x a <=? i32 (x b + w b)) && (x b <=? i32 (x a + w a)) &&
  (y a <=? i32 (y b + h b)) && (y b <=? i32 (y a + h a)).

(** [clip]: the answer and the clipped rectangle. *)
Definition clip (a : rect) (s : region) : bool * rect :=
  let x1 := i32 (x a + w a) in
  let y1 := i32 (y a + h a) in
  let x0 := if x a <? 0 then 0 else x a in
  let y0 := if y a <? 0 then 0 else y a in
  let x1 := if x1 >? bw s then bw s else x1 in
  let y1 := if y1 >? bh s then bh s else y1 in
  let w0 := i32 (x1 - x0) in
  let h0 := i32 (y1 - y0) in
  ((w0 >? 0) && (h0 >? 0), mkRect x0 y0 w0 h0).

(** A turn of the merging loop; its locals are [i] and [r]. *)
Definition merge_step (st : Z * rect) : M region ((Z * rect) + rect) :=
  let '(i, a) := st in
  k ← gets n;
  if i <? k then
    b ← aget r i;
    if touching b a then
      modify (set_n (k - 1));;
      last ← aget r (k - 1);
      modify (set_rect i last);;
      mret (inl (0, union b a))
    else mret (inl (i + 1, a))
  else mret (inr a).

Fixpoint collapse (m : nat) (i : Z) (a : rect) : M region rect :=
  match m with
  | O => mret a
  | S m => b ← aget r i; collapse m (i + 1) (union b a)
  end.

(** The merging loop restarts at most once per live rectangle: 16 restarts of
    at most 17 turns. *)
Definition merge_fuel : nat := 400.

Definition add (a : rect) : M region unit :=
  s ← gets (λ s, s);
  let '(ok, a) := clip a s in
  if negb ok then mret tt
  else
    a ← loop merge_fuel merge_step (0, a);
    k ← gets n;
    if k <? DIRTY_MAX_RECTS then
      _ ← aget r k;
      modify (set_rect k a);;
      modify (set_n (k + 1))
    else
      a ← collapse (Z.to_nat k) 0 a;
      _ ← aget r 0;
      modify (set_rect 0 a);;
      modify (set_n 1).

Definition add_xywh (px py pw ph : Z) : M region unit := add (mkRect px py pw ph).

Definition add_all : M region unit :=
  modify (set_n 1);;
  modify (λ s, set_rect 0 (mkRect 0 0 (bw s) (bh s)) s).

(** The count and the caller's buffer afterwards. *)
Definition flush (out : list rect) : M region (Z * list rect) :=
  k ← gets n;
  let k := Z.min k (zlen out) in
  l ← gets r;
  modify (set_n 0);;
  mret (k, slice 0 k l ++ drop (Z.to_nat k) out).

(** [selftest] on a region of its own; the number of failed cases. *)
Definition case (ok : region → bool) : M region Z :=
  s ← gets (λ s, s); mret (if ok s then 0 else 1).
Definition rect_at (s : region) (i : Z) : rect := default (mkRect 0 0 0 0) (zget (r s) i).
Definition selftest : M region Z :=
  init 100 100;; add_xywh 0 0 10 10;; add_xywh 5 5 10 10;;
  c1 ← case (λ s, (n s =? 1) && (x (rect_at s 0) =? 0) && (y (rect_at s 0) =? 0) &&
    (w (rect_at s 0) =? 15) && (h (rect_at s 0) =? 15));
  init 100 100;; add_xywh 0 0 10 10;; add_xywh 50 50 10 10;;
  c2 ← case (λ s, n s =? 2);
  init 100 100;; add_xywh 90 90 50 50;;
  c3 ← case (λ s, (n s =? 1) && (w (rect_at s 0) =? 10) && (h (rect_at s 0) =? 10));
  init 100 100;; add_xywh (-50) (-50) 10 10;; add_xywh 200 200 10 10;;
  c4 ← case (λ s, n s =? 0);
  init 100 100;; add_xywh 0 0 10 10;; add_xywh 20 20 10 10;; add_xywh 5 5 20 20;;
  c5 ← case (λ s, (n s =? 1) && (w (rect_at s 0) =? 30) && (h (rect_at s 0) =? 30));
  init 100 100;; add_xywh 0 0 10 10;; add_xywh 10 0 10 10;;
  c6 ← case (λ s, (n s =? 1) && (w (rect_at s 0) =? 20));
  init 1000 1000;;
  for_each 0 (DIRTY_MAX_RECTS + 4) (λ i, add_xywh (i32 (i * 60)) (i32 (i * 60)) 10 10);;
  c7 ← case (λ s, (n s =? 1) && (x (rect_at s 0) =? 0) && (y (rect_at s 0) =? 0) &&
    (w (rect_at s 0) =? 970) && (h (rect_at s 0) =? 970));
  init 100 100;; add_xywh 0 0 10 10;;
  d ← flush (replicate (Z.to_nat DIRTY_MAX_RECTS) rect_default);
  e ← empty;
  c8 ← case (λ s, (d.1 =? 1) && (n s =? 0) && e);
  mret (c1 + c2 + c3 + c4 + c5 + c6 + c7 + c8).

(** ** What a region means *)
Definition live (s : region) (i : Z) : option rect :=
  if decide (0 ≤ i < n s) then zget (r s) i else None.
Definition covers (s : region) (px py : Z) : Prop := ∃ i a, live s i = Some a ∧ inside a px py.
Definition screen (s : region) : rect := mkRect 0 0 (bw s) (bh s).

(** A non-empty rectangle of the screen. *)
Definition on_screen (s : region) (a : rect) : Prop :=
  0 ≤ x a ∧ 0 ≤ y a ∧ 0 < w a ∧ 0 < h a ∧ x a + w a ≤ bw s ∧ y a + h a ≤ bh s.

(** Apart: not even sharing an edge. *)
Definition apart (a b : rect) : Prop :=
  x b + w b < x a ∨ x a + w a < x b ∨ y b + h b < y a ∨ y a + h a < y b.

Record region_ok (s : region) : Prop := {
  rk_len : zlen (r s) = DIRTY_MAX_RECTS;
  rk_n : 0 ≤ n s ≤ DIRTY_MAX_RECTS;
  rk_bounds : 0 ≤ bw s < 2 ^ 30 ∧ 0 ≤ bh s < 2 ^ 30;
  rk_screen i a : live s i = Some a → on_screen s a;
  rk_apart i j a b : live s i = Some a → live s j = Some b → i ≠ j → apart a b;
}.

Lemma apart_sym a b : apart a b → apart b a.
Proof. unfold apart. lia. Qed.

Lemma touching_spec s a b :
  region_ok s → on_screen s a → on_screen s b → touching a b = false ↔ apart a b.
Proof.
  intros [_ _ [] _ _] (?&?&?&?&?&?) (?&?&?&?&?&?). unfold touching, apart.
  rewrite !i32_id by lia.
  destruct (Z.leb_spec (x a) (x b + w b)), (Z.leb_spec (x b) (x a + w a)),
    (Z.leb_spec (y a) (y b + h b)), (Z.leb_spec (y b) (y a + h a)); simpl; split; try done; lia.
Qed.

Lemma union_on_screen s a b :
  region_ok s → on_screen s a → on_screen s b →
  on_screen s (union a b) ∧ ∀ px py, inside a px py ∨ inside b px py → inside (union a b) px py.
Proof.
  intros [_ _ [] _ _] (?&?&?&?&?&?) (?&?&?&?&?&?). unfold union, on_screen, inside. simpl.
  rewrite (i32_id (x a + w a)), (i32_id (x b + w b)), (i32_id (y a + h a)),
    (i32_id (y b + h b)) by lia. rewrite !i32_id by lia. split; [lia|]. intros px py. lia.
Qed.

Lemma dirty_clip_spec s a :
  0 ≤ bw s < 2 ^ 30 → 0 ≤ bh s < 2 ^ 30 → rect_near a →
  match clip a s with
  | (true, c) => on_screen s c ∧
      ∀ px py, inside c px py ↔ inside a px py ∧ inside (screen s) px py
  | (false, _) => ∀ px py, ¬ (inside a px py ∧ inside (screen s) px py)
  end.
Proof.
  intros Hw Hh (Hx & Hy & Hrw & Hrh). unfold near in *. unfold clip.
  rewrite (i32_id (x a + w a)), (i32_id (y a + h a)) by lia. rewrite !Z.gtb_ltb.
  set (x0 := if x a <? 0 then 0 else x a). set (y0 := if y a <? 0 then 0 else y a).
  set (x1 := if bw s <? x a + w a then bw s else x a + w a).
  set (y1 := if bh s <? y a + h a then bh s else y a + h a).
  assert (x0 = Z.max 0 (x a)) as Ex0 by (unfold x0; destruct (Z.ltb_spec (x a) 0); lia).
  assert (y0 = Z.max 0 (y a)) as Ey0 by (unfold y0; destruct (Z.ltb_spec (y a) 0); lia).
  assert (x1 = Z.min (bw s) (x a + w a)) as Ex1
    by (unfold x1; destruct (Z.ltb_spec (bw s) (x a + w a)); lia).
  assert (y1 = Z.min (bh s) (y a + h a)) as Ey1
    by (unfold y1; destruct (Z.ltb_spec (bh s) (y a + h a)); lia).
  clearbody x0 y0 x1 y1. rewrite (i32_id (x1 - x0)), (i32_id (y1 - y0)) by lia.
  rewrite ?Z.gtb_ltb. unfold on_screen, inside, screen. simpl.
  destruct (Z.ltb_spec 0 (x1 - x0)), (Z.ltb_spec 0 (y1 - y0)); simpl; try (split; [lia|]);
    intros px py; lia.
Qed.

Lemma live_some s i a : live s i = Some a → 0 ≤ i < n s ∧ zget (r s) i = Some a.
Proof. unfold live. case_decide; [done|by intros]. Qed.

Lemma live_get s i : region_ok s → 0 ≤ i < n s → ∃ a, zget (r s) i = Some a ∧ live s i = Some a.
Proof.
  intros [] Hi. destruct (zget_lt (r s) i) as [a Ha]; [lia|]. exists a. split; [done|].
  unfold live. by rewrite decide_True.
Qed.

(** Same screen. *)
Definition same_screen (s s' : region) : Prop := bw s' = bw s ∧ bh s' = bh s.
Lemma on_screen_same s s' a : same_screen s s' → on_screen s a → on_screen s' a.
Proof. intros [H1 H2]. unfold on_screen. by rewrite H1, H2. Qed.

(** Swap-with-last removal of live rectangle [i]. *)
Definition remove (i : Z) (last : rect) (s : region) : region := set_rect i last (set_n (n s - 1) s).

Lemma remove_live s i last j a :
  region_ok s → 0 ≤ i < n s → zget (r s) (n s - 1) = Some last →
  live (remove i last s) j = Some a →
  ∃ k, live s k = Some a ∧ k ≠ i ∧ (j = i ∧ k = n s - 1 ∨ j = k).
Proof.
  intros Hok Hi Hlast (Hj & Ha)%live_some. simpl in *. destruct Hok as [Hl Hn _ _ _].
  rewrite zget_zset in Ha by lia. case_decide as Hij.
  - injection Ha as <-. exists (n s - 1). unfold live. rewrite decide_True by lia.
    split_and!; [done|lia|]. by left.
  - exists j. unfold live. rewrite decide_True by lia. split_and!; [done|lia|]. by right.
Qed.

Lemma remove_ok s i last :
  region_ok s → 0 ≤ i < n s → zget (r s) (n s - 1) = Some last → region_ok (remove i last s).
Proof.
  intros Hok Hi Hlast. pose proof Hok as [Hl Hn Hb Hs Ha]. split; simpl.
  - by rewrite zlen_zset.
  - lia.
  - done.
  - intros j a Hj. destruct (remove_live _ _ _ _ _ Hok Hi Hlast Hj) as (k & Hk & _).
    by apply (Hs k).
  - intros j k a b Hj Hk Hne.
    destruct (remove_live _ _ _ _ _ Hok Hi Hlast Hj) as (j' & Hj' & Hji & Hj2).
    destruct (remove_live _ _ _ _ _ Hok Hi Hlast Hk) as (k' & Hk' & Hki & Hk2).
    apply live_some in Hj as [Hj _]. apply live_some in Hk as [Hk _]. simpl in *.
    apply (Ha j' k'); [done|done|]. lia.
Qed.

Lemma remove_covers s i b last px py :
  region_ok s → live s i = Some b → zget (r s) (n s - 1) = Some last →
  covers s px py → covers (remove i last s) px py ∨ inside b px py.
Proof.
  intros Hok Hi Hlast (k & a & Hk & Hin).
  apply live_some in Hi as [Hi Hib]. apply live_some in Hk as [Hk Hka].
  pose proof Hok as [Hl Hn _ _ _].
  destruct (decide (k = i)) as [->|Hki]; [right; congruence|left].
  destruct (decide (k = n s - 1)) as [->|Hkl].
  - exists i, a. split; [|done]. unfold live. simpl. rewrite decide_True by lia.
    rewrite zget_zset_eq by lia. congruence.
  - exists k, a. split; [|done]. unfold live. simpl. rewrite decide_True by lia.
    by rewrite zget_zset_ne by lia.
Qed.

(** Invariant of the merging loop: nothing of the old damage and of the new
    rectangle [a0] is lost, the live rectangles before [i] are apart from the
    current one. *)
Record merging (s0 : region) (a0 : rect) (st : Z * rect) (s : region) : Prop := {
  mg_ok : region_ok s;
  mg_same : same_screen s0 s;
  mg_rect : on_screen s st.2;
  mg_i : 0 ≤ st.1 ≤ n s;
  mg_before j b : 0 ≤ j < st.1 → live s j = Some b → apart b st.2;
  mg_covers px py : covers s0 px py ∨ inside a0 px py → covers s px py ∨ inside st.2 px py;
  mg_kept : n s ≤ n s0;
  mg_same_rects : n s = n s0 → s = s0 ∧ st.2 = a0;
}.

Lemma merge_step_ok s0 a0 st s :
  merging s0 a0 st s →
  wp (merge_step st) (λ r s', match r with
    | inl st' => merging s0 a0 st' s' ∧
        (Z.to_nat (17 * n s' + (17 - st'.1)) < Z.to_nat (17 * n s + (17 - st.1)))%nat
    | inr a => region_ok s' ∧ same_screen s0 s' ∧ on_screen s' a ∧
        (∀ j b, live s' j = Some b → apart b a) ∧
        (∀ px py, covers s0 px py ∨ inside a0 px py → covers s' px py ∨ inside a px py) ∧
        n s' ≤ n s0 ∧ (n s' = n s0 → s' = s0 ∧ a = a0)
    end) s.
Proof.
  destruct st as [i a]. intros [Hok Hsame Ha Hi Hb Hc Hk Hr]. simpl in *.
  unfold merge_step. wp_run. destruct (Z.ltb_spec i (n s)).
  2: { wp_run. split_and!; try done. intros j b Hj. apply (Hb j); [|done].
       apply live_some in Hj as [? _]. lia. }
  destruct (live_get s i Hok) as (b & Hgb & Hlb); [lia|]. wp_run.
  apply wp_aget. exists b. split; [done|].
  pose proof (rk_screen _ Hok i b Hlb) as Hbs. pose proof (rk_n _ Hok) as Hn.
  unfold DIRTY_MAX_RECTS in Hn. destruct (touching b a) eqn:Ht.
  - destruct (live_get s (n s - 1) Hok) as (last & Hgl & _); [lia|].
    wp_run. apply wp_aget. exists last. split; [done|]. wp_run.
    change (set_rect i last (set_n (n s - 1) s)) with (remove i last s).
    destruct (union_on_screen s b a Hok Hbs Ha) as [Hu Hin].
    split.
    + split; simpl; try done; try lia.
      * by apply remove_ok; [|lia|].
      * intros px py Hold. destruct (Hc px py Hold) as [Hcov|Hina].
        -- destruct (remove_covers s i b last px py Hok Hlb Hgl Hcov); [by left|].
           right. apply Hin. by left.
        -- right. apply Hin. by right.
    + simpl. lia.
  - wp_run. apply (touching_spec s) in Ht; [|done..]. split.
    + split; simpl; try done; try lia.
      intros j c Hj Hl. destruct (decide (j = i)) as [->|].
      * rewrite Hlb in Hl. by injection Hl as <-.
      * apply (Hb j); [lia|done].
    + simpl. lia.
Qed.

Lemma wp_merge s0 a0 :
  region_ok s0 → on_screen s0 a0 →
  wp (loop merge_fuel merge_step (0, a0)) (λ a s,
    region_ok s ∧ same_screen s0 s ∧ on_screen s a ∧ (∀ j b, live s j = Some b → apart b a) ∧
    (∀ px py, covers s0 px py ∨ inside a0 px py → covers s px py ∨ inside a px py) ∧
    n s ≤ n s0 ∧ (n s = n s0 → s = s0 ∧ a = a0)) s0.
Proof.
  intros Hok Ha. pose proof (rk_n _ Hok) as Hn. unfold DIRTY_MAX_RECTS in Hn.
  apply (wp_loop_state (merging s0 a0) (λ st s, Z.to_nat (17 * n s + (17 - st.1)))).
  - split; try done; simpl; lia.
  - simpl. unfold merge_fuel. lia.
  - intros st s Hm. by apply merge_step_ok.
Qed.

Lemma wp_collapse s a m i :
  region_ok s → on_screen s a → 0 ≤ i → i + Z.of_nat m = n s →
  wp (collapse m i a) (λ c s', s' = s ∧ on_screen s c ∧
    ∀ px py, inside a px py ∨ (∃ j b, i ≤ j ∧ live s j = Some b ∧ inside b px py) →
      inside c px py) s.
Proof.
  intros Hok. revert i a. induction m as [|m IH]; intros i a Ha Hi Hm; simpl.
  - wp_run. split_and!; [done|done|]. intros px py [|(j & b & Hj & Hl & _)]; [done|].
    apply live_some in Hl as [? _]. lia.
  - destruct (live_get s i Hok) as (b & Hgb & Hlb); [lia|]. wp_run. apply wp_aget.
    exists b. split; [done|]. pose proof (rk_screen _ Hok i b Hlb) as Hbs.
    destruct (union_on_screen s b a Hok Hbs Ha) as [Hu Hin].
    wp_use IH; [done|lia|lia|]. intros c s' (-> & Hc & Hcov). split_and!; [done|done|].
    intros px py [Hina|(j & b' & Hj & Hl & Hinb)].
    + apply Hcov. left. apply Hin. by right.
    + destruct (decide (j = i)) as [->|].
      * apply Hcov. left. apply Hin. left. rewrite Hlb in Hl. by injection Hl as <-.
      * apply Hcov. right. exists j, b'. split; [lia|done].
Qed.

(** Appending a rectangle apart from the live ones. *)
Lemma dirty_push_ok s a :
  region_ok s → on_screen s a → (∀ j b, live s j = Some b → apart b a) →
  n s < DIRTY_MAX_RECTS →
  let s' := set_n (n s + 1) (set_rect (n s) a s) in
  region_ok s' ∧ (∀ i, live s' i = if decide (i = n s) then Some a else live s i) ∧
  ∀ px py, covers s' px py ↔ covers s px py ∨ inside a px py.
Proof.
  intros Hok Ha Hap Hn s'. pose proof Hok as [Hl Hn0 Hb Hs Hpa].
  assert (∀ i, live s' i = if decide (i = n s) then Some a else live s i) as Hlive.
  { intros i. unfold live, s'. simpl. destruct (decide (i = n s)) as [->|Hne].
    - rewrite decide_True by lia. apply zget_zset_eq. lia.
    - destruct (decide (0 ≤ i < n s)).
      + rewrite decide_True by lia. apply zget_zset_ne; lia.
      + by rewrite decide_False by lia. }
  split_and!; [|done|].
  - split; [unfold s'; simpl; by rewrite zlen_zset|unfold s'; simpl; lia|done| |].
    + intros i b. rewrite Hlive. case_decide; [by intros [= <-]|apply Hs].
    + intros i j b c. rewrite !Hlive. repeat case_decide; subst; try done.
      * intros [= <-] Hj _. apply apart_sym. by eapply Hap.
      * intros Hi [= <-] _. by eapply Hap.
      * apply Hpa.
  - intros px py. unfold covers. split.
    + intros (i & b & Hi & Hin). rewrite Hlive in Hi. case_decide.
      * injection Hi as <-. by right.
      * left. by exists i, b.
    + intros [(i & b & Hi & Hin)|Hin].
      * exists i, b. rewrite Hlive. apply live_some in Hi as [Hi Hg].
        rewrite decide_False by lia. split; [|done]. unfold live. by rewrite decide_True.
      * exists (n s), a. by rewrite Hlive, decide_True.
Qed.

Lemma single_ok s a :
  region_ok s → on_screen s a →
  let s' := set_n 1 (set_rect 0 a s) in
  region_ok s' ∧ ∀ px py, covers s' px py ↔ inside a px py.
Proof.
  intros Hok Ha s'. pose proof Hok as [Hl Hn0 Hb Hs Hpa]. unfold DIRTY_MAX_RECTS in *.
  assert (∀ i, live s' i = if decide (i = 0) then Some a else None) as Hlive.
  { intros i. unfold live, s'. simpl. destruct (decide (i = 0)) as [->|].
    - rewrite decide_True by lia. apply zget_zset_eq. lia.
    - by rewrite decide_False by lia. }
  split.
  - split; [unfold s'; simpl; by rewrite zlen_zset|done|done| |].
    + intros i b. rewrite Hlive. case_decide; [by intros [= <-]|done].
    + intros i j b c. rewrite !Hlive. repeat case_decide; subst; done.
  - intros px py. split.
    + intros (i & b & Hi & Hin). rewrite Hlive in Hi. case_decide; [by injection Hi as <-|done].
    + intros Hin. exists 0, a. by rewrite Hlive.
Qed.

Lemma wp_add s a :
  region_ok s → rect_near a →
  wp (add a) (λ _ s', region_ok s' ∧ same_screen s s' ∧
    (∀ px py, covers s px py ∨ inside a px py ∧ inside (screen s) px py → covers s' px py) ∧
    (∀ c, clip a s = (true, c) → n s' = n s + 1 →
       ∀ px py, covers s' px py ↔ covers s px py ∨ inside c px py)) s.
Proof.
  intros Hok Ha. pose proof Hok as [_ _ [Hbw Hbh] _ _].
  pose proof (dirty_clip_spec s a Hbw Hbh Ha) as Hclip. unfold add. apply wp_bind, wp_gets.
  destruct (clip a s) as [[] c]; cbn [negb].
  2: { wp_run. split_and!; [done|done| |done]. intros px py [|Hin]; [done|].
       by destruct (Hclip px py Hin). }
  destruct Hclip as [Hc Hcin]. wp_run. wp_use wp_merge; [done|done|].
  intros a1 s1 (Hok1 & Hsame & Ha1 & Hap & Hcov & Hn1 & Hkept). wp_run.
  pose proof (rk_n _ Hok1) as Hn. pose proof (rk_len _ Hok1) as Hl. unfold DIRTY_MAX_RECTS in *.
  destruct (Z.ltb_spec (n s1) 16).
  - wp_run. destruct (zget_lt (r s1) (n s1)) as [o Ho]; [lia|]. apply wp_aget. exists o.
    split; [done|]. wp_run.
    destruct (dirty_push_ok s1 a1 Hok1 Ha1 Hap) as (Hok2 & _ & Hcov2); [done|].
    split_and!; [done|done| |].
    + intros px py Hin. apply Hcov2, Hcov. rewrite <- Hcin in Hin. done.
    + intros c' [= <-] Heq. simpl in Heq. destruct Hkept as [-> ->]; [lia|]. exact Hcov2.
  - wp_run. wp_use wp_collapse; [done|done|done|lia|].
    intros c2 s2 (-> & Hc2 & Hcov2). wp_run. destruct (zget_lt (r s1) 0) as [o Ho]; [lia|].
    apply wp_aget. exists o. split; [done|]. wp_run.
    destruct (single_ok s1 c2 Hok1 Hc2) as (Hok2 & Hcov3). split_and!; [done|done| |].
    + intros px py Hin. apply Hcov3, Hcov2. rewrite <- Hcin in Hin.
      destruct (Hcov px py Hin) as [(j & b & Hj & Hb)|]; [right|by left].
      exists j, b. split; [|done]. apply live_some in Hj as [? _]. lia.
    + intros c' _ Heq. simpl in Heq. pose proof (rk_n _ Hok). lia.
Qed.

(** ** A frame: reset, damage, drain *)
Fixpoint add_list (l : list rect) : M region unit :=
  match l with
  | [] => mret tt
  | a :: l => add a;; add_list l
  end.

Lemma wp_add_list s l :
  region_ok s → Forall rect_near l →
  wp (add_list l) (λ _ s', region_ok s' ∧ same_screen s s' ∧
    ∀ px py, covers s px py ∨ (∃ a, a ∈ l ∧ inside a px py ∧ inside (screen s) px py) →
      covers s' px py) s.
Proof.
  intros Hok Hl. revert s Hok. induction Hl as [|a l Ha Hl IH]; intros s Hok; simpl.
  - wp_run. split_and!; [done|done|]. intros px py [|(a & Ha & _)]; [done|].
    by apply elem_of_nil in Ha.
  - wp_run. wp_use wp_add; [done|done|]. intros [] s1 (Hok1 & Hs1 & Hc1 & _).
    wp_use IH; [done|]. intros [] s2 (Hok2 & Hs2 & Hc2). split_and!; [done| |].
    + destruct Hs1 as [E1 E2], Hs2 as [E3 E4]. split; congruence.
    + destruct Hs1 as [E1 E2]. unfold screen in *. rewrite E1, E2 in Hc2.
      intros px py [Hold|(b & Hb & Hin & Hsc)].
      * apply Hc2. left. apply Hc1. by left.
      * apply Hc2. apply elem_of_cons in Hb as [->|Hb].
        -- left. apply Hc1. by right.
        -- right. by exists b.
Qed.

(** [flush] hands the live rectangles over. *)
Definition rects (s : region) : list rect := take (Z.to_nat (n s)) (r s).

Lemma rects_get s i : zget (rects s) i = live s i.
Proof.
  unfold rects, live. case_decide; [by rewrite zget_take by lia|].
  unfold zget. case_decide; [|done]. apply lookup_take_None. lia.
Qed.
Lemma rects_covers s px py : Exists (λ a, inside a px py) (rects s) ↔ covers s px py.
Proof.
  unfold covers. rewrite Exists_exists. split.
  - intros (a & [k Hk]%list_elem_of_lookup & Hin). exists (Z.of_nat k), a. rewrite <- rects_get.
    unfold zget. rewrite decide_True by lia. by rewrite Nat2Z.id.
  - intros (i & a & Hi & Hin). rewrite <- rects_get in Hi. unfold zget in Hi. case_decide; [|done].
    exists a. split; [by eapply list_elem_of_lookup_2|done].
Qed.
Lemma rects_on_screen s : region_ok s → Forall (on_screen s) (rects s).
Proof.
  intros Hok. apply Forall_lookup. intros k a Hk. apply (rk_screen _ Hok (Z.of_nat k)).
  rewrite <- rects_get. unfold zget. rewrite decide_True by lia. by rewrite Nat2Z.id.
Qed.

Lemma clear_ok s : region_ok s → region_ok (set_n 0 s) ∧ ∀ px py, ¬ covers (set_n 0 s) px py.
Proof.
  intros [H1 H2 H3 _ _].
  assert (∀ i, live (set_n 0 s) i = None) as Hno by (intros i; unfold live; simpl; by rewrite decide_False by lia).
  split; [split; try done|].
  - intros i a. by rewrite Hno.
  - intros i j a b. by rewrite Hno.
  - intros px py (i & a & Hi & _). by rewrite Hno in Hi.
Qed.

Lemma wp_flush s out :
  region_ok s → DIRTY_MAX_RECTS ≤ zlen out →
  wp (flush out) (λ d s', s' = set_n 0 s ∧ d.1 = n s ∧ take (Z.to_nat d.1) d.2 = rects s) s.
Proof.
  intros Hok Hout. pose proof (rk_n _ Hok). pose proof (rk_len _ Hok) as Hl.
  unfold flush. wp_run. rewrite Z.min_l by lia. split_and!; [done|done|]. cbn [fst snd].
  unfold slice, rects. rewrite drop_0. rewrite take_app_le, take_take.
  - by rewrite Nat.min_id.
  - rewrite length_take. unfold zlen in Hl. lia.
Qed.

Lemma init_ok s bounds_w bounds_h :
  zlen (r s) = DIRTY_MAX_RECTS → 0 ≤ bounds_w < 2 ^ 30 → 0 ≤ bounds_h < 2 ^ 30 →
  region_ok (mkRegion (r s) 0 bounds_w bounds_h).
Proof.
  intros Hl Hw Hh. split; simpl; try done.
  - intros i a [Hi _]%live_some. simpl in Hi. lia.
  - intros i j a b [Hi _]%live_some. simpl in Hi. lia.
Qed.

(** ** Properties *)

(** [add] returns (its merging loop terminates), keeps the region well
    formed - at most sixteen non-empty rectangles of the screen, no two
    overlapping or touching - and loses nothing: what was damaged and the
    part of the new rectangle on the screen are covered; when nothing had to
    be merged, nothing else is. *)
Theorem add_tracks_damage s a :
  region_ok s → rect_near a →
  wp (add a) (λ _ s', region_ok s' ∧
    (∀ px py, covers s px py ∨ inside a px py ∧ inside (screen s) px py → covers s' px py) ∧
    (∀ c, clip a s = (true, c) → n s' = n s + 1 →
       ∀ px py, covers s' px py ↔ covers s px py ∨ inside c px py)) s.
Proof.
  intros Hok Ha. wp_use wp_add; [done|done|]. by intros [] s' (H1 & _ & H2 & H3).
Qed.

(** C38: a frame's damage reaches the compositor: after [init] and any number of
    [add]s, [flush] into a buffer of at least sixteen rectangles empties the
    region and reports rectangles of the screen that cover every added pixel
    on the screen, no two of them overlapping or touching. *)
Theorem flush_reports_damage s bounds_w bounds_h l out :
  zlen (r s) = DIRTY_MAX_RECTS → 0 ≤ bounds_w < 2 ^ 30 → 0 ≤ bounds_h < 2 ^ 30 →
  Forall rect_near l → DIRTY_MAX_RECTS ≤ zlen out →
  wp (init bounds_w bounds_h;; add_list l;; flush out) (λ '(k, out') s',
    n s' = 0 ∧ zlen out' = zlen out ∧ 0 ≤ k ≤ DIRTY_MAX_RECTS ∧
    (∀ a px py, a ∈ l → inside a px py → inside (mkRect 0 0 bounds_w bounds_h) px py →
       ∃ i b, 0 ≤ i < k ∧ zget out' i = Some b ∧ inside b px py) ∧
    (∀ i j a b, 0 ≤ i < k → 0 ≤ j < k → i ≠ j →
       zget out' i = Some a → zget out' j = Some b → apart a b)) s.
Proof.
  intros Hl Hw Hh Hrs Hout. unfold init, flush. wp_run.
  pose proof (init_ok s bounds_w bounds_h Hl Hw Hh) as Hok.
  wp_use wp_add_list; [done|done|]. intros [] s1 (Hok1 & [E1 E2] & Hcov). wp_run.
  pose proof (rk_len _ Hok1) as Hl1. pose proof (rk_n _ Hok1) as Hn.
  rewrite Z.min_l by lia.
  assert (zlen (slice 0 (n s1) (r s1)) = n s1) as Hsl by (apply zlen_slice; lia).
  assert (∀ i, 0 ≤ i < n s1 →
    zget (slice 0 (n s1) (r s1) ++ drop (Z.to_nat (n s1)) out) i = live s1 i) as Hget.
  { intros i Hi. rewrite zget_app_l by lia. unfold slice. rewrite drop_0.
    rewrite zget_take by lia. unfold live. by rewrite decide_True. }
  split_and!; [done| |lia|lia| |].
  - rewrite zlen_app, Hsl, zlen_drop by lia. lia.
  - intros a px py Ha Hin Hsc. destruct (Hcov px py) as (i & b & Hi & Hb); [right; by exists a|].
    pose proof Hi as [Hr _]%live_some. exists i, b. by rewrite Hget.
  - intros i j a b Hi Hj Hne. rewrite !Hget by done. intros Ha Hb. by apply (rk_apart _ Hok1 i j).
Qed.

(** ** Witnesses: cases of [dirty::selftest] *)
Definition demo_region : region := mkRegion (r new) 0 100 100.

(** The boot-time check passes. *)
Example selftest_passes : wp selftest (λ k _, k = 0) new.
Proof. by vm_compute. Qed.

Lemma add_tracks_damage_witness :
  wp (add (mkRect 90 90 50 50)) (λ _ s', region_ok s' ∧ covers s' 99 99 ∧ ¬ covers s' 89 99)
    demo_region.
Proof.
  assert (region_ok demo_region) as Hok by (by apply (init_ok new)).
  assert (wp (add (mkRect 90 90 50 50)) (λ _ s', n s' = 1) demo_region) as Hn by (by vm_compute).
  eapply wp_mono.
  - eapply wp_and; [exact Hn|apply (add_tracks_damage demo_region _ Hok); done].
  - intros [] s' (Hn' & Hok' & Hcov & Hex). split_and!; [done|apply Hcov; right; done|].
    rewrite (Hex (mkRect 90 90 10 10)) by (done || by vm_compute).
    intros [(i & a & [Hi _]%live_some & _)|[Hx _]]; simpl in *; lia.
Defined.

(** Two rectangles bridged by a third. *)
Lemma flush_reports_damage_witness :
  let l := [mkRect 0 0 10 10; mkRect 20 20 10 10; mkRect 5 5 20 20] in
  wp (init 100 100;; add_list l;; flush (replicate 16 rect_default))
    (λ '(k, out) s', n s' = 0 ∧ ∃ i b, 0 ≤ i < k ∧ zget out i = Some b ∧ inside b 29 29) new.
Proof.
  intros l. eapply wp_mono.
  - apply (flush_reports_damage new 100 100 l (replicate 16 rect_default)); try done.
    by repeat constructor.
  - intros [k out] s' (Hn & _ & _ & Hcov & _). split; [done|].
    apply (Hcov (mkRect 20 20 10 10)); [|done|done]. right. left.
Defined.
End Dirty.
