(* ===== verification/Mouse.v ===== *)
(** * PS/2 mouse decoder ([kernel-rs/src/gui/mouse.rs], [irq_handler])

    One interrupt delivers one byte of a three-byte packet.  The
    controller's set-up is in [Ports], the pointer's start in [Machine]; the
    screen size is the framebuffer's. *)
From S2P Require Import Prelude.

Module Mouse.

Record mouse := mkMouse {
  X : Z; Y : Z; BUTTONS : Z;
  CYCLE : Z;
  PACKET : list Z;
}.
Definition set_packet (l : list Z) (s : mouse) : mouse :=
  mkMouse (X s) (Y s) (BUTTONS s) (CYCLE s) l.
Definition set_cycle (c : Z) (s : mouse) : mouse :=
  mkMouse (X s) (Y s) (BUTTONS s) c (PACKET s).
Definition set_pos (px py : Z) (s : mouse) : mouse :=
  mkMouse px py (BUTTONS s) (CYCLE s) (PACKET s).
Definition set_buttons (b : Z) (s : mouse) : mouse :=
  mkMouse (X s) (Y s) b (CYCLE s) (PACKET s).

Section screen.
(** [fb::width() as i32], [fb::height() as i32]. *)
Variables width height : Z.

Definition irq_handler (b : Z) : M mouse unit :=
  c ← gets CYCLE;
  let idx := c mod 3 in
  _ ← aget PACKET idx;
  modify (λ s, set_packet (zset (PACKET s) idx b) s);;
  if (idx =? 0) && (Z.land b 0x08 =? 0) then modify (set_cycle 0)
  else
    modify (λ s, set_cycle (u8 (CYCLE s + 1)) s);;
    c ← gets CYCLE;
    if c <? 3 then mret tt
    else
      modify (set_cycle 0);;
      p1 ← aget PACKET 1;
      p2 ← aget PACKET 2;
      p0 ← aget PACKET 0;
      let dx := if negb (Z.land p0 0x40 =? 0) then 0 else i8 p1 in
      let dy := if negb (Z.land p0 0x80 =? 0) then 0 else i8 p2 in
      modify (λ s, set_pos (i32 (X s + dx)) (i32 (Y s - dy)) s);;
      modify (λ s, if X s <? 0 then set_pos 0 (Y s) s else s);;
      modify (λ s, if Y s <? 0 then set_pos (X s) 0 s else s);;
      modify (λ s, if X s >=? width then set_pos (i32 (width - 1)) (Y s) s else s);;
      modify (λ s, if Y s >=? height then set_pos (X s) (i32 (height - 1)) s else s);;
      modify (set_buttons (Z.land p0 0x07)).

Fixpoint feed (l : list Z) : M mouse unit :=
  match l with
  | [] => mret tt
  | b :: l => irq_handler b;; feed l
  end.

(** ** The packets of a byte stream *)
Definition synced (b : Z) : bool := negb (Z.land b 0x08 =? 0).

(** Bytes without the sync bit are dropped between packets; an unfinished
    packet is left over. *)
Fixpoint packets (l : list Z) : list (Z * Z * Z) :=
  match l with
  | b0 :: l0 =>
      if synced b0 then
        match l0 with
        | b1 :: b2 :: l => (b0, b1, b2) :: packets l
        | _ => []
        end
      else packets l0
  | [] => []
  end.

Definition clamp (lim v : Z) : Z := Z.max 0 (Z.min (lim - 1) v).
Definition delta (b0 flag b : Z) : Z := if Z.land b0 flag =? 0 then i8 b else 0.

(** Position and buttons after a packet. *)
Definition apply_packet (p : Z * Z * Z) (st : Z * Z * Z) : Z * Z * Z :=
  let '(b0, b1, b2) := p in
  let '(px, py, _) := st in
  (clamp width (px + delta b0 0x40 b1), clamp height (py - delta b0 0x80 b2),
   Z.land b0 0x07).
Definition apply_all (l : list Z) (st : Z * Z * Z) : Z * Z * Z :=
  fold_left (λ st p, apply_packet p st) (packets l) st.

Definition view (s : mouse) : Z * Z * Z := (X s, Y s, BUTTONS s).
Definition on_screen (st : Z * Z * Z) : Prop :=
  0 ≤ st.1.1 < width ∧ 0 ≤ st.1.2 < height.

Record mouse_ok (s : mouse) : Prop := {
  mo_len : zlen (PACKET s) = 3;
  mo_x : 0 ≤ X s < 2 ^ 30;
  mo_y : 0 ≤ Y s < 2 ^ 30;
}.

Hypothesis width_pos : 0 < width < 2 ^ 30.
Hypothesis height_pos : 0 < height < 2 ^ 30.

Lemma i8_range v : -128 ≤ i8 v < 128.
Proof. unfold i8. pose proof (Z.mod_pos_bound (v + 2 ^ 7) (2 ^ 8)). lia. Qed.
Lemma delta_range b0 flag b : -128 ≤ delta b0 flag b < 128.
Proof. unfold delta. destruct (_ =? _); [apply i8_range|lia]. Qed.

(** A byte that does not finish a packet. *)
Lemma wp_irq_partial s b :
  zlen (PACKET s) = 3 → 0 ≤ CYCLE s < 2 →
  wp (irq_handler b) (λ _ s',
    view s' = view s ∧ PACKET s' = zset (PACKET s) (CYCLE s) b ∧
    CYCLE s' = if (CYCLE s =? 0) && negb (synced b) then 0 else CYCLE s + 1) s.
Proof.
  intros Hl Hc. unfold irq_handler, synced. wp_run. rewrite Z.mod_small by lia.
  destruct (zget_lt (PACKET s) (CYCLE s)) as [o Ho]; [lia|]. apply wp_aget. exists o.
  split; [done|]. wp_run. rewrite negb_involutive. destruct (_ && _) eqn:E; wp_run; [done|].
  cbn [CYCLE set_packet set_cycle]. unfold u8. rewrite Z.mod_small by lia.
  rewrite (proj2 (Z.ltb_lt _ 3)) by lia. by wp_run.
Qed.

(** The third byte. *)
Lemma wp_irq_last s b0 b1 b2 :
  mouse_ok s → CYCLE s = 2 → zget (PACKET s) 0 = Some b0 → zget (PACKET s) 1 = Some b1 →
  wp (irq_handler b2) (λ _ s', mouse_ok s' ∧ CYCLE s' = 0 ∧
    view s' = apply_packet (b0, b1, b2) (view s)) s.
Proof.
  intros [Hl Hx Hy] Hc H0 H1. unfold irq_handler. wp_run. rewrite Hc.
  change (2 mod 3) with 2. destruct (zget_lt (PACKET s) 2) as [o Ho]; [lia|].
  apply wp_aget. exists o. split; [done|]. cbn [Z.eqb andb]. wp_run.
  cbn [CYCLE set_packet set_cycle]. rewrite Hc. change (u8 (2 + 1)) with 3.
  cbn [Z.ltb Z.compare Pos.compare Pos.compare_cont]. wp_run.
  apply wp_aget. exists b1. split; [cbn [PACKET set_packet set_cycle]; by rewrite zget_zset_ne|].
  wp_run. apply wp_aget. exists b2. split; [cbn [PACKET set_packet set_cycle]; apply zget_zset_eq; lia|].
  wp_run. apply wp_aget. exists b0. split; [cbn [PACKET set_packet set_cycle]; by rewrite zget_zset_ne|].
  wp_run. cbn [X Y set_pos set_cycle set_packet].
  set (dx := if negb (Z.land b0 64 =? 0) then 0 else i8 b1).
  set (dy := if negb (Z.land b0 128 =? 0) then 0 else i8 b2).
  assert (dx = delta b0 0x40 b1) as Hdx by (unfold dx, delta; by destruct (Z.land b0 64 =? 0)).
  assert (dy = delta b0 0x80 b2) as Hdy by (unfold dy, delta; by destruct (Z.land b0 128 =? 0)).
  clearbody dx dy. pose proof (delta_range b0 0x40 b1). pose proof (delta_range b0 0x80 b2).
  rewrite (i32_id (X s + dx)), (i32_id (Y s - dy)) by lia.
  rewrite (i32_id (width - 1)), (i32_id (height - 1)) by lia. rewrite !Z.geb_leb.
  set (px := clamp width (X s + dx)). set (py := clamp height (Y s - dy)).
  assert (0 ≤ px < width ∧ 0 ≤ py < height) as [Hpx Hpy] by (unfold px, py, clamp; lia).
  match goal with |- mouse_ok ?s' ∧ _ =>
    assert (s' = mkMouse px py (Z.land b0 7) 0 (zset (PACKET s) 2 b2)) as -> end.
  { unfold px, py, clamp, set_buttons, set_pos, set_cycle, set_packet.
    destruct (Z.ltb_spec (X s + dx) 0); cbn [X Y CYCLE PACKET BUTTONS];
      destruct (Z.ltb_spec (Y s - dy) 0); cbn [X Y CYCLE PACKET BUTTONS];
      (match goal with |- context [width <=? ?v] => destruct (Z.leb_spec width v) end);
      cbn [X Y CYCLE PACKET BUTTONS];
      (match goal with |- context [height <=? ?v] => destruct (Z.leb_spec height v) end);
      cbn [X Y CYCLE PACKET BUTTONS]; f_equal; lia. }
  split_and!; [|done|].
  - split; simpl; [by rewrite zlen_zset|lia|lia].
  - unfold view, apply_packet. simpl. by rewrite <- Hdx, <- Hdy.
Qed.

(** Between packets, with part of one read: [partial] are its bytes. *)
Definition reading (partial : list Z) (s : mouse) : Prop :=
  mouse_ok s ∧
  match partial with
  | [] => CYCLE s = 0
  | [b0] => CYCLE s = 1 ∧ zget (PACKET s) 0 = Some b0 ∧ synced b0 = true
  | [b0; b1] => CYCLE s = 2 ∧ zget (PACKET s) 0 = Some b0 ∧ zget (PACKET s) 1 = Some b1 ∧
                synced b0 = true
  | _ => False
  end.

Lemma mouse_ok_view s s' : mouse_ok s → view s' = view s → zlen (PACKET s') = 3 → mouse_ok s'.
Proof. intros [] [= Hx Hy _] Hl. split; congruence. Qed.

Lemma wp_feed l : ∀ s partial,
  reading partial s →
  wp (feed l) (λ _ s', (∃ p, reading p s') ∧
    view s' = apply_all (partial ++ l) (view s)) s.
Proof.
  induction l as [|b l IH]; intros s partial Hr; cbn [feed].
  - wp_run. split; [by exists partial|]. rewrite app_nil_r. unfold apply_all.
    destruct partial as [|b0 [|b1 [|]]]; [done| | |by destruct Hr].
    + simpl. by destruct (synced b0).
    + simpl. destruct Hr as (_ & _ & _ & _ & ->). done.
  - wp_run. pose proof Hr as [Hok Hp].
    destruct partial as [|b0 [|b1 [|]]]; [| | |done].
    + eapply wp_mono; [apply wp_irq_partial; [apply (mo_len _ Hok)|lia]|].
      intros [] s1 (Hv & Hpk & Hc). rewrite Hp in *. cbn [Z.eqb andb] in Hc.
      assert (mouse_ok s1) as Hok1.
      { apply (mouse_ok_view s); [done|done|]. rewrite Hpk, zlen_zset. apply (mo_len _ Hok). }
      destruct (synced b) eqn:Hs; cbn [negb] in Hc.
      * eapply wp_mono; [apply (IH s1 [b])|].
        -- split; [done|]. split_and!; [done| |done]. rewrite Hpk.
           apply zget_zset_eq. rewrite (mo_len _ Hok). lia.
        -- intros [] s2 [? ->]. by rewrite Hv.
      * eapply wp_mono; [by apply (IH s1 [])|]. intros [] s2 [? ->]. split; [done|].
        rewrite Hv. unfold apply_all. simpl. by rewrite Hs.
    + destruct Hp as (Hc0 & Hg0 & Hs).
      eapply wp_mono; [apply wp_irq_partial; [apply (mo_len _ Hok)|lia]|].
      intros [] s1 (Hv & Hpk & Hc). rewrite Hc0 in *. cbn [Z.eqb andb] in Hc.
      eapply wp_mono; [apply (IH s1 [b0; b])|].
      * split.
        { apply (mouse_ok_view s); [done|done|]. rewrite Hpk, zlen_zset. apply (mo_len _ Hok). }
        rewrite Hpk. split_and!; [done| | |done].
        -- by rewrite zget_zset_ne.
        -- apply zget_zset_eq. rewrite (mo_len _ Hok). lia.
      * intros [] s2 [? ->]. by rewrite Hv.
    + destruct Hp as (Hc0 & Hg0 & Hg1 & Hs).
      eapply wp_mono; [by eapply wp_irq_last|]. intros [] s1 (Hok1 & Hc & Hv).
      eapply wp_mono; [by apply (IH s1 [])|]. intros [] s2 [? ->]. split; [done|].
      rewrite Hv. unfold apply_all. simpl. by rewrite Hs.
Qed.

Lemma apply_packet_on_screen p st : on_screen (apply_packet p st).
Proof.
  destruct p as [[b0 b1] b2], st as [[px py] b]. unfold apply_packet, on_screen, clamp. simpl. lia.
Qed.

Lemma fold_on_screen ps st :
  ps ≠ [] → on_screen (fold_left (λ st p, apply_packet p st) ps st).
Proof.
  intros Hne. destruct ps as [|p ps _] using rev_ind; [done|].
  rewrite fold_left_app. simpl. apply apply_packet_on_screen.
Qed.

(** C39: whatever bytes the mouse sends, the decoder never fails and moves the
    pointer exactly by the packets of the stream (bytes without the sync bit
    between packets are skipped, so it recovers from lost bytes); once a packet
    has been read the pointer is on the screen. *)
Theorem mouse_decodes_stream s l :
  mouse_ok s → CYCLE s = 0 →
  wp (feed l) (λ _ s', view s' = apply_all l (view s) ∧
    (packets l ≠ [] → on_screen (view s'))) s.
Proof.
  intros Hok Hc. eapply wp_mono; [by apply (wp_feed l s [])|].
  intros [] s' [_ ->]. split; [done|]. apply fold_on_screen.
Qed.
End screen.

(** The nine-bit sign of a movement (bits 4 and 5 of the first byte) is not
    looked at: 200 to the right is 56 to the left. *)
Example delta_sign_ignored : delta 0x08 0x40 200 = -56.
Proof. done. Qed.

(** A stray byte, then right 5, up 2 with the left button. *)
Lemma mouse_decodes_stream_witness :
  let s := mkMouse 640 400 0 0 [0; 0; 0] in
  wp (feed 1280 800 [0x03; 0x09; 5; 2]) (λ _ s', view s' = (645, 398, 1)) s.
Proof.
  intros s. eapply wp_mono.
  - apply (mouse_decodes_stream 1280 800); [lia|lia|by split|done].
  - intros [] s' [-> _]. by vm_compute.
Defined.
End Mouse.
