(* ===== verification/Fb.v ===== *)
(** * The framebuffer ([kernel-rs/src/fb.rs])

    A linear buffer of [pitch * height] bytes from the boot loader; an access
    outside of it, undefined behaviour in the source, is [Panic] here.  Sizes
    and coordinates are [u32] and wrap. *)
From S2P Require Import Prelude Mem.

Module Fb.

(** [limine::Framebuffer], the fields [init] reads. *)
Record fb_info := mkInfo {
  width : Z; height : Z; pitch : Z; bpp : Z;
  red_mask_shift : Z; green_mask_shift : Z; blue_mask_shift : Z;
}.

(** [buf] is the memory at [FB_ADDR]. *)
Record fb := mkFb {
  buf : memory;
  FB_PITCH : Z; FB_W : Z; FB_H : Z; FB_BPP : Z;
  R_SHIFT : Z; G_SHIFT : Z; B_SHIFT : Z;
  FB_READY : bool;
}.
Definition set_buf (m : memory) (s : fb) : fb :=
  mkFb m (FB_PITCH s) (FB_W s) (FB_H s) (FB_BPP s) (R_SHIFT s) (G_SHIFT s) (B_SHIFT s) (FB_READY s).

(** [resp]: the framebuffers of the response, if there is one. *)
Definition init (resp : option (list fb_info)) : M fb Z :=
  match resp with
  | None => mret (-1)
  | Some [] => mret (-1)
  | Some (f :: _) =>
      modify (λ s, mkFb (buf s) (pitch f) (u32 (width f)) (u32 (height f)) (u8 (bpp f))
        (red_mask_shift f) (green_mask_shift f) (blue_mask_shift f) true);;
      mret 0
  end.

Definition available : M fb bool := gets FB_READY.
Definition fb_width : M fb Z := gets FB_W.
Definition fb_height : M fb Z := gets FB_H.
Definition pitch_bytes : M fb Z := gets (λ s, u32 (FB_PITCH s)).

(** [u32 << u8]: the shift count is taken modulo 32. *)
Definition shl32 (v k : Z) : Z := u32 (Z.shiftl v (k mod 32)).
Definition rgb (r g b : Z) : M fb Z :=
  gets (λ s, Z.lor (Z.lor (shl32 r (R_SHIFT s)) (shl32 g (G_SHIFT s))) (shl32 b (B_SHIFT s))).

(** A store of [n] bytes at [FB_ADDR + off]. *)
Definition store (n : nat) (off v : Z) : M fb unit :=
  s ← gets (λ s, s);
  if (0 <=? off) && (off + Z.of_nat n <=? FB_PITCH s * FB_H s)
  then modify (set_buf (store_le n (buf s) off v)) else panic.

Definition put_pixel (x y c : Z) : M fb unit :=
  s ← gets (λ s, s);
  if negb (FB_READY s) || (x >=? FB_W s) || (y >=? FB_H s) then mret tt
  else
    let row := y * FB_PITCH s in
    if FB_BPP s =? 32 then store 4 (row + x * 4) c
    else if FB_BPP s =? 24 then
      let p := row + x * 3 in
      store 1 p (u8 (Z.land c 0xFF));;
      store 1 (p + 1) (u8 (Z.land (Z.shiftr c 8) 0xFF));;
      store 1 (p + 2) (u8 (Z.land (Z.shiftr c 16) 0xFF))
    else mret tt.

Definition fill_rect (x y w h c : Z) : M fb unit :=
  s ← gets (λ s, s);
  if negb (FB_READY s) then mret tt
  else if (x >=? FB_W s) || (y >=? FB_H s) then mret tt
  else
    let w := if u32 (x + w) >? FB_W s then u32 (FB_W s - x) else w in
    let h := if u32 (y + h) >? FB_H s then u32 (FB_H s - y) else h in
    for_each 0 h (λ j,
      let row := u32 (y + j) * FB_PITCH s in
      if FB_BPP s =? 32 then
        for_each 0 w (λ i, store 4 (row + x * 4 + i * 4) c)
      else
        for_each 0 w (λ i, put_pixel (u32 (x + i)) (u32 (y + j)) c)).

Definition clear (c : Z) : M fb unit :=
  w ← fb_width; h ← fb_height; fill_rect 0 0 w h c.

Definition BARS : list (Z * Z * Z) :=
  [(255, 255, 255); (255, 255, 0); (0, 255, 255); (0, 255, 0);
   (255, 0, 255); (255, 0, 0); (0, 0, 255); (0, 0, 0)].

Fixpoint draw_bars (i bar_w bar_h : Z) (bars : list (Z * Z * Z)) : M fb unit :=
  match bars with
  | [] => mret tt
  | (r, g, b) :: bars =>
      c ← rgb r g b;
      fill_rect (u32 (i * bar_w)) 0 bar_w bar_h c;;
      draw_bars (i + 1) bar_w bar_h bars
  end.

(** The two [while] loops of the gradient. *)
Definition gradient_cell (fb_w fb_h bar_h y x : Z) : M fb (Z + unit) :=
  if x <? fb_w then
    c ← rgb 0 (u8 (u32 (x * 255) / fb_w)) (u8 (u32 ((y - bar_h) * 255) / (fb_h - bar_h)));
    fill_rect x y 64 2 c;;
    mret (inl (u32 (x + 64)))
  else mret (inr tt).
Definition gradient_row (fb_w fb_h bar_h y : Z) : M fb (Z + unit) :=
  if y <? fb_h then
    loop (S (Z.to_nat fb_w)) (gradient_cell fb_w fb_h bar_h y) 0;;
    mret (inl (u32 (y + 2)))
  else mret (inr tt).

Definition test_pattern : M fb unit :=
  ok ← available;
  if negb ok then mret tt
  else
    c ← rgb 16 16 24; clear c;;
    fb_w ← fb_width; fb_h ← fb_height;
    let bar_w := fb_w / 8 in
    let bar_h := fb_h / 2 in
    draw_bars 0 bar_w bar_h BARS;;
    loop (S (Z.to_nat fb_h)) (gradient_row fb_w fb_h bar_h) bar_h;;
    c ← rgb 255 255 255;
    fill_rect (u32 (fb_w / 2 - 1)) 0 2 fb_h c;;
    fill_rect 0 (u32 (fb_h / 2 - 1)) fb_w 2 c.

(** ** Pixels *)
(** Bytes per pixel; other depths are not drawn. *)
Definition depth (s : fb) : nat := if FB_BPP s =? 32 then 4%nat else 3%nat.
Definition offset (s : fb) (x y : Z) : Z := y * FB_PITCH s + x * Z.of_nat (depth s).
Definition pixel (s : fb) (x y : Z) : Z := load_le (depth s) (buf s) (offset s x y).
Definition visible (s : fb) (x y : Z) : Prop := 0 ≤ x < FB_W s ∧ 0 ≤ y < FB_H s.

Record fb_ok (s : fb) : Prop := {
  fo_ready : FB_READY s = true;
  fo_bpp : FB_BPP s = 32 ∨ FB_BPP s = 24;
  fo_size : 0 ≤ FB_W s < 2 ^ 24 ∧ 0 ≤ FB_H s < 2 ^ 24;
  fo_pitch : FB_W s * Z.of_nat (depth s) ≤ FB_PITCH s;
}.

(** Same mode, the visible pixels given by [f], the bytes between the rows as
    they were. *)
Record repainted (s s' : fb) (f : Z → Z → Z) : Prop := {
  rp_mode : s' = set_buf (buf s') s;
  rp_pixels x y : visible s x y → pixel s' x y = f x y;
  rp_rest o : (∀ x y, visible s x y → ¬ (offset s x y ≤ o < offset s x y + Z.of_nat (depth s))) →
    buf s' o = buf s o;
}.

Lemma redrawn_refl s : repainted s s (pixel s).
Proof. split; [by destruct s|done|done]. Qed.
Lemma redrawn_ext s s' f g :
  repainted s s' f → (∀ x y, visible s x y → f x y = g x y) → repainted s s' g.
Proof. intros [R1 R2 R3] Hfg. split; [done| |done]. intros x y Hv. by rewrite R2, Hfg. Qed.
Lemma repainted_trans s s1 s2 f g : repainted s s1 f → repainted s1 s2 g → repainted s s2 g.
Proof.
  intros [A1 A2 A3] [B1 B2 B3].
  assert (∀ x y, visible s1 x y ↔ visible s x y) as Hv by (by rewrite A1).
  assert (∀ x y, offset s1 x y = offset s x y) as Ho by (by rewrite A1).
  assert (depth s1 = depth s) as Hd by (by rewrite A1).
  split.
  - rewrite B1, A1. done.
  - intros x y Hx. apply B2. by apply Hv.
  - intros o Hout. rewrite B3; [by apply A3|]. intros x y Hx. rewrite Ho, Hd. by apply Hout, Hv.
Qed.
Lemma redrawn_ok s s' f : fb_ok s → repainted s s' f → fb_ok s'.
Proof. intros [] [-> _ _]. by split. Qed.

Lemma offset_inj s x y x' y' :
  fb_ok s → visible s x y → visible s x' y' → (x, y) ≠ (x', y') →
  offset s x y + Z.of_nat (depth s) ≤ offset s x' y' ∨
  offset s x' y' + Z.of_nat (depth s) ≤ offset s x y.
Proof.
  intros Hok [Hx Hy] [Hx' Hy'] Hne. pose proof (fo_pitch _ Hok) as Hp.
  unfold offset. set (d := Z.of_nat (depth s)) in *. assert (0 ≤ d) by (unfold d; lia).
  destruct (Z.lt_trichotomy y y') as [Hlt|[->|Hlt]].
  - left. assert (x * d + d ≤ FB_W s * d) by nia. assert ((y + 1) * FB_PITCH s ≤ y' * FB_PITCH s) by nia. nia.
  - assert (x ≠ x') by congruence. destruct (Z.lt_ge_cases x x'); [left|right]; nia.
  - right. assert (x' * d + d ≤ FB_W s * d) by nia. assert ((y' + 1) * FB_PITCH s ≤ y * FB_PITCH s) by nia. nia.
Qed.

Lemma offset_in s x y :
  fb_ok s → visible s x y →
  0 ≤ offset s x y ∧ offset s x y + Z.of_nat (depth s) ≤ FB_PITCH s * FB_H s.
Proof.
  intros Hok [Hx Hy]. pose proof (fo_pitch _ Hok) as Hp. unfold offset.
  set (d := Z.of_nat (depth s)) in *. assert (0 ≤ d) by (unfold d; lia).
  assert (x * d + d ≤ FB_W s * d) by nia.
  assert (0 ≤ FB_PITCH s) by nia. assert ((y + 1) * FB_PITCH s ≤ FB_H s * FB_PITCH s) by nia.
  split; nia.
Qed.

(** The pixel value [c] leaves behind: 24-bit modes drop the top byte. *)
Definition shown (s : fb) (c : Z) : Z := c mod 2 ^ (8 * Z.of_nat (depth s)).

(** A whole pixel stored into a repainted buffer. *)
Lemma store_repainted s0 s f x y c m :
  fb_ok s0 → repainted s0 s f → visible s0 x y →
  (∀ o, m o = store_le (depth s0) (buf s) (offset s0 x y) c o) →
  repainted s0 (set_buf m s) (λ px py, if decide (px = x ∧ py = y) then shown s0 c else f px py).
Proof.
  intros Hok [R1 R2 R3] Hv Hm.
  assert (∀ px py, pixel (set_buf m s) px py = load_le (depth s0) m (offset s0 px py)) as Hp
    by (intros; by rewrite R1).
  assert (∀ px py, pixel s px py = load_le (depth s0) (buf s) (offset s0 px py)) as Hp0
    by (intros; unfold pixel, offset; by rewrite R1).
  split.
  - rewrite R1. done.
  - intros px py Hpv. rewrite Hp, (load_le_ext _ m _ _ (λ o _, Hm o)).
    destruct (decide (px = x ∧ py = y)) as [[-> ->]|Hne].
    + by rewrite load_store_le.
    + rewrite load_store_le_ne, <- Hp0 by (apply offset_inj; [done..|congruence || naive_solver]).
      by apply R2.
  - intros o Ho. cbn [buf set_buf]. rewrite Hm. rewrite store_le_out by (by apply Ho). by apply R3.
Qed.

Lemma wp_store n off v s (Q : unit → fb → Prop) :
  0 ≤ off → off + Z.of_nat n ≤ FB_PITCH s * FB_H s →
  Q tt (set_buf (store_le n (buf s) off v) s) → wp (store n off v) Q s.
Proof.
  intros H0 H1 HQ. unfold store. wp_run. rewrite (proj2 (Z.leb_le 0 off)), (proj2 (Z.leb_le _ _)) by done.
  cbn [andb]. by wp_run.
Qed.

(** Three single bytes are a three-byte store. *)
Lemma store_three m a c o :
  store_le 1 (store_le 1 (store_le 1 m a (u8 (Z.land c 0xFF))) (a + 1)
    (u8 (Z.land (Z.shiftr c 8) 0xFF))) (a + 2) (u8 (Z.land (Z.shiftr c 16) 0xFF)) o =
  store_le 3 m a c o.
Proof.
  change 0xFF with (Z.ones 8). rewrite !Z.land_ones, !Z.shiftr_div_pow2 by lia.
  unfold store_le, u8. change (Z.of_nat 1) with 1. change (Z.of_nat 3) with 3.
  rewrite !Z.mod_mod by done.
  destruct (decide (o = a)) as [->|H0]; [|destruct (decide (o = a + 1)) as [->|H1];
    [|destruct (decide (o = a + 2)) as [->|H2]]].
  - rewrite (proj2 (Z.leb_gt (a + 2) a)), (proj2 (Z.leb_gt (a + 1) a)), Z.leb_refl,
      (proj2 (Z.ltb_lt a (a + 1))), (proj2 (Z.ltb_lt a (a + 3))) by lia. cbn [andb].
    rewrite Z.sub_diag. change (2 ^ (8 * 0)) with 1. by rewrite !Z.div_1_r, Z.mod_mod.
  - rewrite (proj2 (Z.leb_gt (a + 2) (a + 1))), Z.leb_refl, (proj2 (Z.leb_le a (a + 1))),
      (proj2 (Z.ltb_lt (a + 1) (a + 1 + 1))), (proj2 (Z.ltb_lt (a + 1) (a + 3))) by lia. cbn [andb].
    rewrite Z.sub_diag, Z.add_simpl_l. change (2 ^ (8 * 0)) with 1. change (8 * 1) with 8.
    by rewrite !Z.div_1_r, Z.mod_mod.
  - rewrite Z.leb_refl, (proj2 (Z.leb_le a (a + 2))),
      (proj2 (Z.ltb_lt (a + 2) (a + 2 + 1))), (proj2 (Z.ltb_lt (a + 2) (a + 3))) by lia. cbn [andb].
    rewrite Z.sub_diag, Z.add_simpl_l. change (2 ^ (8 * 0)) with 1. change (8 * 2) with 16.
    by rewrite !Z.div_1_r, Z.mod_mod.
  - destruct (Z.leb_spec (a + 2) o), (Z.ltb_spec o (a + 2 + 1)), (Z.leb_spec (a + 1) o),
      (Z.ltb_spec o (a + 1 + 1)), (Z.leb_spec a o), (Z.ltb_spec o (a + 1)), (Z.ltb_spec o (a + 3));
      cbn [andb]; done || lia.
Qed.

Lemma wp_fb_put_pixel s0 s f x y c :
  fb_ok s0 → repainted s0 s f → visible s0 x y →
  wp (put_pixel x y c) (λ _ s',
    repainted s0 s' (λ px py, if decide (px = x ∧ py = y) then shown s0 c else f px py)) s.
Proof.
  intros Hok Hr Hv. pose proof (redrawn_ok _ _ _ Hok Hr) as [E1 E2 E3 _].
  assert (FB_PITCH s = FB_PITCH s0 ∧ FB_H s = FB_H s0 ∧ FB_W s = FB_W s0 ∧ FB_BPP s = FB_BPP s0)
    as (P1 & P2 & P3 & P4) by (rewrite (rp_mode _ _ _ Hr); done).
  pose proof (offset_in s0 x y Hok Hv) as [Ho1 Ho2]. pose proof Hv as [Hx Hy].
  unfold put_pixel. wp_run. rewrite E1, !Z.geb_leb, !(proj2 (Z.leb_gt _ _)) by lia.
  cbn [negb orb]. cbv zeta. rewrite P4. unfold offset, depth in *.
  destruct (fo_bpp _ Hok) as [Hb|Hb]; rewrite Hb in *; cbn [Z.eqb Pos.eqb] in *.
  - rewrite P1. apply wp_store; [lia|rewrite P1, P2; lia|].
    apply (store_repainted s0 s f x y); [done|done|done|]. intros o.
    unfold offset, depth. by rewrite Hb.
  - rewrite P1. wp_run. apply wp_store; [lia|rewrite P1, P2; lia|]. wp_run.
    apply wp_store; [lia|cbn [FB_PITCH FB_H set_buf]; rewrite P1, P2; lia|].
    apply wp_store; [lia|cbn [FB_PITCH FB_H set_buf]; rewrite P1, P2; lia|].
    cbn [buf set_buf].
    apply (store_repainted s0 s f x y c (store_le 1 _ _ _)); [done|done|done|]. intros o.
    unfold offset, depth. rewrite Hb. cbn [Z.eqb Pos.eqb]. apply store_three.
Qed.

(** The part of a rectangle on the screen. *)
Definition in_rect (x y w h px py : Z) : Prop := x ≤ px < x + w ∧ y ≤ py < y + h.
#[global] Instance in_rect_dec x y w h px py : Decision (in_rect x y w h px py).
Proof. apply _. Defined.

(** Whatever the depth, an inner loop is a row of pixels. *)
Lemma wp_fill_row s0 s f x y w c :
  fb_ok s0 → repainted s0 s f → 0 ≤ x → 0 ≤ w → x + w ≤ FB_W s0 → 0 ≤ y < FB_H s0 →
  wp (if FB_BPP s0 =? 32 then
        for_each 0 w (λ i, store 4 (y * FB_PITCH s0 + x * 4 + i * 4) c)
      else for_each 0 w (λ i, put_pixel (u32 (x + i)) y c))
    (λ _ s', repainted s0 s' (λ px py, if decide (in_rect x y w 1 px py) then shown s0 c else f px py)) s.
Proof.
  intros Hok Hr Hx Hw Hxw Hy.
  set (I := λ i s', repainted s0 s' (λ px py,
    if decide (in_rect x y i 1 px py) then shown s0 c else f px py)).
  assert (I 0 s) as HI0.
  { eapply redrawn_ext; [exact Hr|]. intros px py _. rewrite decide_False; [done|].
    unfold in_rect. lia. }
  assert (∀ i s', 0 ≤ i < w → I i s' → ∀ s'',
    repainted s0 s'' (λ px py, if decide (px = x + i ∧ py = y) then shown s0 c
      else if decide (in_rect x y i 1 px py) then shown s0 c else f px py) → I (i + 1) s'') as Hstep.
  { intros i s' Hi _ s'' Hs. eapply redrawn_ext; [exact Hs|]. intros px py _. cbv beta.
    unfold in_rect. repeat case_decide; done || lia. }
  destruct (fo_size _ Hok) as [Hw0 Hh0].
  assert (FB_BPP s0 = 32 → ∀ i s', 0 ≤ i < w → I i s' →
    wp (store 4 (y * FB_PITCH s0 + x * 4 + i * 4) c) (λ _, I (i + 1)) s') as Hfast.
  { intros Hb i s' Hi HI. assert (visible s0 (x + i) y) as Hv by (split; lia).
    pose proof (offset_in s0 (x + i) y Hok Hv) as Ho. unfold offset, depth in Ho. rewrite Hb in Ho.
    cbn [Z.eqb Pos.eqb] in Ho. change (Z.of_nat 4) with 4 in Ho.
    apply wp_store; [lia|rewrite (rp_mode _ _ _ HI); cbn [FB_PITCH FB_H set_buf]; lia|].
    eapply Hstep; [exact Hi|exact HI|]. apply (store_repainted s0 s' _ (x + i) y); [done|exact HI|done|].
    intros o. unfold offset, depth. rewrite Hb. cbn [Z.eqb Pos.eqb]. change (Z.of_nat 4) with 4.
    by replace (y * FB_PITCH s0 + x * 4 + i * 4) with (y * FB_PITCH s0 + (x + i) * 4) by lia. }
  destruct (Z.eqb_spec (FB_BPP s0) 32) as [Hb|_]; apply (wp_for_each I); try done; [by apply Hfast|].
  intros i s' Hi HI. unfold u32. rewrite Z.mod_small by lia.
  eapply wp_mono; [apply (wp_fb_put_pixel s0 s' _ (x + i) y c Hok HI); split; lia|].
  intros [] s'' Hs. eapply Hstep; [exact Hi|exact HI|exact Hs].
Qed.

Lemma wp_fb_fill_rect s x y w h c :
  fb_ok s → 0 ≤ x < 2 ^ 31 → 0 ≤ y < 2 ^ 31 → 0 ≤ w < 2 ^ 31 → 0 ≤ h < 2 ^ 31 →
  wp (fill_rect x y w h c) (λ _ s', repainted s s' (λ px py,
    if decide (in_rect x y w h px py) then shown s c else pixel s px py)) s.
Proof.
  intros Hok Hx Hy Hw Hh. pose proof Hok as [E1 E2 [E3 E4] _]. unfold fill_rect. wp_run. rewrite E1.
  cbn [negb]. rewrite !Z.geb_leb.
  destruct (Z.leb_spec (FB_W s) x) as [Hxo|Hxi]; cbn [orb].
  { wp_run. eapply redrawn_ext; [apply redrawn_refl|]. intros px py [Hp _].
    rewrite decide_False; [done|]. unfold in_rect. lia. }
  destruct (Z.leb_spec (FB_H s) y) as [Hyo|Hyi]; cbn [orb].
  { wp_run. eapply redrawn_ext; [apply redrawn_refl|]. intros px py [_ Hp].
    rewrite decide_False; [done|]. unfold in_rect. lia. }
  unfold u32. rewrite (Z.mod_small (x + w)), (Z.mod_small (y + h)), (Z.mod_small (FB_W s - x)),
    (Z.mod_small (FB_H s - y)) by lia. rewrite !Z.gtb_ltb. cbv zeta.
  set (w' := if FB_W s <? x + w then FB_W s - x else w).
  set (h' := if FB_H s <? y + h then FB_H s - y else h).
  assert (w' = Z.min w (FB_W s - x)) as Ew by (unfold w'; destruct (Z.ltb_spec (FB_W s) (x + w)); lia).
  assert (h' = Z.min h (FB_H s - y)) as Eh by (unfold h'; destruct (Z.ltb_spec (FB_H s) (y + h)); lia).
  clearbody w' h'.
  apply (wp_for_each (λ j s', repainted s s' (λ px py,
    if decide (in_rect x y w' j px py) then shown s c else pixel s px py))).
  - lia.
  - eapply redrawn_ext; [apply redrawn_refl|]. intros px py _. rewrite decide_False; [done|].
    unfold in_rect. lia.
  - intros j s1 Hj Hr. rewrite (Z.mod_small (y + j)) by lia.
    eapply wp_mono; [apply (wp_fill_row s s1 _ x (y + j) w' c Hok Hr); lia|].
    intros [] s2 Hr2. eapply redrawn_ext; [exact Hr2|]. intros px py _. cbv beta.
    unfold in_rect. repeat case_decide; done || lia.
  - intros s1 Hr. eapply redrawn_ext; [exact Hr|]. intros px py [Hpx Hpy]. cbv beta.
    unfold in_rect. repeat case_decide; done || lia.
Qed.

(** *** The test pattern stays in the buffer and ends *)
Definition drawn (s s' : fb) : Prop := ∃ f, repainted s s' f.
Lemma drawn_refl s : drawn s s.
Proof. eexists. apply redrawn_refl. Qed.
Lemma drawn_trans s s1 s2 : drawn s s1 → drawn s1 s2 → drawn s s2.
Proof. intros [f Hf] [g Hg]. exists g. by eapply repainted_trans. Qed.
Lemma drawn_mode s s' : drawn s s' → s' = set_buf (buf s') s.
Proof. intros [f Hf]. apply Hf. Qed.
Lemma drawn_ok s s' : fb_ok s → drawn s s' → fb_ok s'.
Proof. intros Hok [f Hf]. by eapply redrawn_ok. Qed.

Lemma wp_fill_drawn s0 s x y w h c :
  fb_ok s0 → drawn s0 s → 0 ≤ x < 2 ^ 32 → 0 ≤ y < 2 ^ 31 → 0 ≤ w < 2 ^ 31 → 0 ≤ h < 2 ^ 31 →
  x < 2 ^ 31 ∨ FB_W s0 ≤ x → wp (fill_rect x y w h c) (λ _ s', drawn s0 s') s.
Proof.
  intros Hok Hd Hx Hy Hw Hh Hc. pose proof (drawn_ok _ _ Hok Hd) as Hok'.
  destruct (decide (x < 2 ^ 31)).
  - eapply wp_mono; [apply wp_fb_fill_rect; [done|lia|lia|lia|lia]|].
    intros [] s' Hr. eapply drawn_trans; [exact Hd|]. by eexists.
  - unfold fill_rect. wp_run. rewrite (fo_ready _ Hok'). cbn [negb]. rewrite Z.geb_leb.
    rewrite (drawn_mode _ _ Hd) at 1. cbn [FB_W set_buf]. rewrite (proj2 (Z.leb_le _ _)) by lia.
    cbn [orb]. by wp_run.
Qed.

Lemma wp_bars s0 s i bw bh bars :
  fb_ok s0 → drawn s0 s → 0 ≤ i → 0 ≤ bw < 2 ^ 24 → 0 ≤ bh < 2 ^ 24 → i + zlen bars ≤ 8 →
  wp (draw_bars i bw bh bars) (λ _ s', drawn s0 s') s.
Proof.
  intros Hok. revert i s. induction bars as [|[[r g] b] bars IH]; intros i s Hd Hi Hbw Hbh Hl; cbn [draw_bars].
  { by wp_run. }
  rewrite zlen_cons in Hl. pose proof (zlen_nonneg bars). wp_step. unfold rgb. wp_run.
  assert (0 ≤ i * bw < 2 ^ 28) by nia. unfold u32. rewrite Z.mod_small by lia.
  wp_use wp_fill_drawn; [exact Hok|exact Hd|lia|lia|lia|lia|lia|].
  intros [] s1 Hd1. apply IH; [done|lia|lia|lia|lia].
Qed.

Lemma wp_gradient s0 s bh y :
  fb_ok s0 → drawn s0 s → 0 ≤ y < FB_H s0 →
  wp (loop (S (Z.to_nat (FB_W s0))) (gradient_cell (FB_W s0) (FB_H s0) bh y) 0)
    (λ _ s', drawn s0 s') s.
Proof.
  intros Hok Hd Hy. destruct (fo_size _ Hok) as [Hw Hh].
  apply (wp_loop (λ x s', 0 ≤ x < 2 ^ 25 ∧ drawn s0 s') (λ x, Z.to_nat (FB_W s0 - x))).
  - done.
  - lia.
  - intros x s1 [Hx Hd1]. unfold gradient_cell. destruct (Z.ltb_spec x (FB_W s0)); [|by wp_run].
    unfold rgb. wp_run. wp_use wp_fill_drawn; [exact Hok|exact Hd1|lia|lia|lia|lia|lia|].
    intros [] s2 Hd2. wp_run. unfold u32. rewrite Z.mod_small by lia.
    split_and!; [lia|lia|done|lia].
Qed.

Lemma wp_test_pattern s :
  fb_ok s → wp test_pattern (λ _ s', drawn s s') s.
Proof.
  intros Hok. destruct (fo_size _ Hok) as [Hw Hh]. pose proof (drawn_refl s) as Hd.
  unfold test_pattern, available, clear, fb_width, fb_height, rgb. wp_run.
  rewrite (fo_ready _ Hok). cbn [negb]. wp_run.
  wp_use wp_fill_drawn; [exact Hok|exact Hd|lia|lia|lia|lia|lia|]. intros [] s1 Hd1. wp_run.
  pose proof (drawn_mode _ _ Hd1) as E1. rewrite E1. cbn [FB_W FB_H set_buf]. rewrite <- E1.
  assert (0 ≤ FB_W s / 8 < 2 ^ 24 ∧ 0 ≤ FB_H s / 2 < 2 ^ 24 ∧
    (FB_H s = 0 ∨ FB_H s / 2 < FB_H s)) as (Hbw & Hbh & _) by dlia.
  wp_use wp_bars; [exact Hok|exact Hd1|lia|lia|lia|done|]. intros [] s2 Hd2.
  wp_step. eapply wp_mono; [apply (wp_loop (λ y s', 0 ≤ y < 2 ^ 25 ∧ drawn s s') (λ y, Z.to_nat (FB_H s - y)) _ _
    (λ _ s', drawn s s'))|].
  - split; [lia|done].
  - lia.
  - intros y s3 [Hy Hd3]. unfold gradient_row. destruct (Z.ltb_spec y (FB_H s)); [|by wp_run].
    wp_step. wp_use wp_gradient; [exact Hok|exact Hd3|lia|]. intros [] s4 Hd4. wp_run.
    unfold u32. rewrite Z.mod_small by lia. split_and!; [lia|lia|done|lia].
  - intros [] s3 Hd3. wp_run.
    assert (0 ≤ FB_W s / 2 < 2 ^ 24) as Hbw2 by dlia.
    pose proof (Z.mod_pos_bound (FB_W s / 2 - 1) (2 ^ 32) eq_refl).
    pose proof (Z.mod_pos_bound (FB_H s / 2 - 1) (2 ^ 32) eq_refl).
    wp_use wp_fill_drawn; [exact Hok|exact Hd3|unfold u32; lia|lia|lia|lia| |].
    { unfold u32. destruct (decide (FB_W s / 2 = 0)) as [->|]; [right|left; rewrite Z.mod_small; lia].
      change ((0 - 1) mod 2 ^ 32) with (2 ^ 32 - 1). lia. }
    intros [] s4 Hd4. unfold u32. destruct (decide (FB_H s / 2 = 0)) as [->|].
    + change ((0 - 1) mod 2 ^ 32) with (2 ^ 32 - 1). unfold fill_rect. wp_run.
      pose proof (drawn_mode _ _ Hd4) as E4. rewrite E4. cbn [FB_READY FB_W FB_H set_buf].
      rewrite <- E4, (fo_ready _ Hok). cbn [negb]. rewrite !Z.geb_leb, (proj2 (Z.leb_le (FB_H s) _)) by lia.
      rewrite orb_true_r. by wp_run.
    + rewrite Z.mod_small by lia. apply (wp_fill_drawn s); [done|done|lia|lia|lia|lia|lia].
Qed.

(** ** Properties *)

(** [fill_rect] paints exactly the visible part of the rectangle, at 32
    and at 24 bits per pixel: every visible pixel inside it has the colour,
    every other one and every byte between the rows is what it was, and no
    byte outside the buffer is touched. *)
Theorem fb_fill_rect_exact s x y w h c :
  fb_ok s → 0 ≤ x < 2 ^ 31 → 0 ≤ y < 2 ^ 31 → 0 ≤ w < 2 ^ 31 → 0 ≤ h < 2 ^ 31 →
  wp (fill_rect x y w h c) (λ _ s', s' = set_buf (buf s') s ∧
    (∀ px py, visible s px py →
       pixel s' px py = if decide (in_rect x y w h px py) then shown s c else pixel s px py) ∧
    (∀ o, (∀ px py, visible s px py → ¬ (offset s px py ≤ o < offset s px py + Z.of_nat (depth s))) →
       buf s' o = buf s o)) s.
Proof.
  intros Hok Hx Hy Hw Hh. wp_use wp_fb_fill_rect; [done..|]. intros [] s' [H1 H2 H3]. done.
Qed.

(** the boot screen: whatever the size of the framebuffer, the test
    pattern ends and writes visible pixels only. *)
Theorem test_pattern_in_buffer s :
  fb_ok s →
  wp test_pattern (λ _ s', s' = set_buf (buf s') s ∧
    ∀ o, (∀ px py, visible s px py → ¬ (offset s px py ≤ o < offset s px py + Z.of_nat (depth s))) →
      buf s' o = buf s o) s.
Proof. intros Hok. wp_use wp_test_pattern; [done|]. intros [] s' (f & [H1 _ H3]). done. Qed.

(** A 3 x 2 screen at 24 bits, rows of 10 bytes. *)
Definition demo_fb : fb := mkFb (λ _, 9) 10 3 2 24 16 8 0 true.
Lemma demo_fb_ok : fb_ok demo_fb.
Proof. split; try done. by right. Qed.

Lemma fb_fill_rect_exact_witness :
  wp (fill_rect 1 1 5 5 0x010203) (λ _ s',
    pixel s' 2 1 = 0x010203 ∧ pixel s' 0 1 = 0x090909 ∧ buf s' 9 = 9) demo_fb.
Proof.
  eapply wp_mono.
  - apply (fb_fill_rect_exact demo_fb 1 1 5 5 0x010203 demo_fb_ok); lia.
  - intros [] s' (_ & H2 & H3). split_and!.
    + by rewrite (H2 2 1).
    + by rewrite (H2 0 1).
    + apply H3. intros px py [Hx Hy]. unfold offset, depth. simpl in *. lia.
Defined.

Lemma test_pattern_in_buffer_witness : wp test_pattern (λ _ s', buf s' 19 = 9) demo_fb.
Proof.
  eapply wp_mono; [apply (test_pattern_in_buffer demo_fb demo_fb_ok)|].
  intros [] s' [_ H]. apply H. intros px py [Hx Hy]. unfold offset, depth. simpl in *. lia.
Defined.
End Fb.
