(* ===== verification/Desk.v ===== *)
(** * The window table ([kernel-rs/src/gui/wm.rs])

    The windows with their cached surfaces, the keyboard focus and the damage
    region: the state that [hit_test], [mark_dirty] and the painting of a
    single window work on.  A surface is owned by its window, so it is a value
    of the window here; where it was allocated is [Wm]'s business. *)
From S2P Require Import Prelude Surface Dirty.
Import Surface (rect, mkRect, inside, near, rect_near, surface, mkSurf, sw, sh, pixels).

Module Desk.

Definition GUI_MAX_WINDOWS : Z := 8.
Definition GUI_TITLE_H : Z := 20.
Definition C_TITLE_ACT : Z := 0xFF3A6EA5.
Definition C_TITLE_INA : Z := 0xFF555B66.
Definition C_TITLE_TXT : Z := 0xFFFFFFFF.
Definition C_BORDER : Z := 0xFF0B0F17.
Definition FRAME_BX : Z := 1.
Definition FRAME_BY : Z := GUI_TITLE_H + 1.

(** The functions stored in [on_paint]. *)
Inductive hook := PaintTerminal | PaintDemo.

Record window := mkWin {
  title : list Z;
  wx : Z; wy : Z; ww : Z; wh : Z;
  body : option surface;
  frame : option surface;
  used : bool;
  focused : bool;
  content_dirty : bool;
  chrome_dirty : bool;
  animate : bool;
  vt : Z;
  on_paint : option hook;
}.
Definition empty : window :=
  mkWin (replicate 24 0) 0 0 0 0 None None false false false false false (-1) None.

Definition with_pos (a b : Z) (v : window) : window :=
  mkWin (title v) a b (ww v) (wh v) (body v) (frame v) (used v) (focused v) (content_dirty v)
    (chrome_dirty v) (animate v) (vt v) (on_paint v).
Definition with_body (b : option surface) (v : window) : window :=
  mkWin (title v) (wx v) (wy v) (ww v) (wh v) b (frame v) (used v) (focused v) (content_dirty v)
    (chrome_dirty v) (animate v) (vt v) (on_paint v).
Definition with_frame (b : option surface) (v : window) : window :=
  mkWin (title v) (wx v) (wy v) (ww v) (wh v) (body v) b (used v) (focused v) (content_dirty v)
    (chrome_dirty v) (animate v) (vt v) (on_paint v).
Definition with_focus (b : bool) (v : window) : window :=
  mkWin (title v) (wx v) (wy v) (ww v) (wh v) (body v) (frame v) (used v) b (content_dirty v)
    (chrome_dirty v) (animate v) (vt v) (on_paint v).
Definition with_content (b : bool) (v : window) : window :=
  mkWin (title v) (wx v) (wy v) (ww v) (wh v) (body v) (frame v) (used v) (focused v) b
    (chrome_dirty v) (animate v) (vt v) (on_paint v).
Definition with_chrome (b : bool) (v : window) : window :=
  mkWin (title v) (wx v) (wy v) (ww v) (wh v) (body v) (frame v) (used v) (focused v)
    (content_dirty v) b (animate v) (vt v) (on_paint v).
Definition with_animate (b : bool) (v : window) : window :=
  mkWin (title v) (wx v) (wy v) (ww v) (wh v) (body v) (frame v) (used v) (focused v)
    (content_dirty v) (chrome_dirty v) b (vt v) (on_paint v).
Definition with_vt (i : Z) (v : window) : window :=
  mkWin (title v) (wx v) (wy v) (ww v) (wh v) (body v) (frame v) (used v) (focused v)
    (content_dirty v) (chrome_dirty v) (animate v) i (on_paint v).

Definition title_str (v : window) : list Z :=
  take (Z.to_nat (default (zlen (title v)) (position (λ b, b =? 0) (title v)))) (title v).

Record desk := mkDesk {
  WINS : list window;
  FOCUSED_IDX : Z;
  DIRTY : Dirty.region;
}.
Definition set_wins (l : list window) (s : desk) : desk := mkDesk l (FOCUSED_IDX s) (DIRTY s).
Definition set_focused (i : Z) (s : desk) : desk := mkDesk (WINS s) i (DIRTY s).
Definition set_dirty (r : Dirty.region) (s : desk) : desk := mkDesk (WINS s) (FOCUSED_IDX s) r.

(** [WINS[i].field = ..] *)
Definition update_win (i : Z) (f : window → window) : M desk unit :=
  v ← aget WINS i; modify (λ s, set_wins (zset (WINS s) i (f v)) s).
Definition dirty_call {A} (m : M Dirty.region A) : M desk A := zoom DIRTY set_dirty m.

Definition window_rect_screen (v : window) : rect :=
  mkRect (i32 (wx v - 1)) (i32 (i32 (wy v - GUI_TITLE_H) - 1))
    (i32 (ww v + 2)) (i32 (i32 (wh v + GUI_TITLE_H) + 2)).

Definition damage_footprint (v : window) : M desk unit :=
  dirty_call (Dirty.add (window_rect_screen v)).

Definition window_by_id (id : Z) : M desk (option window) :=
  if (id >=? 0) && (id <? GUI_MAX_WINDOWS) then
    v ← aget WINS id;
    mret (if used v then Some v else None)
  else mret None.

Definition mark_dirty (id : Z) : M desk unit :=
  v ← window_by_id id;
  match v with
  | Some v => update_win id (with_content true);; damage_footprint (with_content true v)
  | None => mret tt
  end.

(** From the top window down. *)
Definition hit_test (mx my : Z) : M desk Z :=
  r ← for_range 0 GUI_MAX_WINDOWS (λ k,
    let i := GUI_MAX_WINDOWS - 1 - k in
    v ← aget WINS i;
    if negb (used v) then mret None
    else if (mx >=? wx v) && (mx <? i32 (wx v + ww v)) &&
            (my >=? i32 (wy v - GUI_TITLE_H)) && (my <? i32 (wy v + wh v))
    then mret (Some i) else mret None);
  mret (default (-1) r).

(** ** Painting one window's caches *)
Definition on_body {A} (m : M surface A) : M window A := λ v,
  match body v with
  | Some b => zoom (λ _, b) (λ b v, with_body (Some b) v) m v
  | None => Panic
  end.
Definition on_frame {A} (m : M surface A) : M window A := λ v,
  match frame v with
  | Some b => zoom (λ _, b) (λ b v, with_frame (Some b) v) m v
  | None => Panic
  end.

Section font.
Variable FONT8X16 : list (list Z).

Definition frame_render_chrome (fw fh : Z) : M window unit :=
  v ← gets (λ v, v);
  let bar := if focused v then C_TITLE_ACT else C_TITLE_INA in
  on_frame (
    Surface.fill_rect (mkRect 0 0 fw fh) C_BORDER;;
    Surface.fill_rect (mkRect FRAME_BX FRAME_BX (ww v) GUI_TITLE_H) bar;;
    Surface.draw_string FONT8X16 (FRAME_BX + 6) (FRAME_BX + 2) (title v) C_TITLE_TXT bar;;
    Surface.fill_rect (mkRect (i32 (i32 (FRAME_BX + ww v) - 22)) (FRAME_BX + 4) 12 12)
      (if focused v then 0xFFC0505D else 0xFF777777)).

Definition clear_body (color : Z) : M window unit :=
  v ← gets (λ v, v); on_body (Surface.fill_rect (mkRect 0 0 (ww v) (wh v)) color).
(** One line of [paint_terminal]. *)
Definition paint_row (i : Z) (line : list Z) : M window unit :=
  on_body (Surface.draw_string FONT8X16 4 (i32 (4 + i32 (i * Surface.FONT_H))) line
    0xFFD0FFD0 0xFF101418).

(** [u32] of an [i32] remainder, shifted into a colour byte. *)
Definition demo_colour (i phase : Z) : Z :=
  Z.lor (Z.lor 0xFF000000 (u32 (Z.shiftl (u32 (Z.rem (i32 (i * 32 + phase)) 256)) 16)))
    (u32 (Z.shiftl (u32 (255 - Z.rem (i32 (i * 24 + phase)) 256)) 8)).

(** [paint_demo] at [PHASE = phase], after the tick. *)
Definition demo_text : list Z := [97; 110; 105; 109; 97; 116; 101; 100; 32; 100; 101; 109; 111].
Definition paint_bars (phase : Z) : M window unit :=
  v ← gets (λ v, v);
  clear_body 0xFF202028;;
  for_each 0 8 (λ i,
    on_body (Surface.fill_rect
      (mkRect (i32 (12 + Z.quot (i32 (i * i32 (ww v - 40))) 8)) 20
         (i32 (Z.quot (i32 (ww v - 40)) 8 - 4)) (i32 (wh v - 40)))
      (demo_colour i phase)));;
  on_body (Surface.draw_string FONT8X16 12 (i32 (wh v - 20)) demo_text 0xFFFFFFFF 0xFF202028).

(** The last lines of [frame_render]. *)
Definition blit_body : M window unit :=
  b ← gets body;
  b ← of_option b;
  on_frame (Surface.blit FRAME_BX FRAME_BY b).
End font.

(** ** What the desk looks like *)
(** The screen positions of the frame. *)
Definition footprint (v : window) (px py : Z) : Prop := inside (window_rect_screen v) px py.
#[global] Instance footprint_dec v px py : Decision (footprint v px py).
Proof. apply _. Defined.

Definition frame_pixel (v : window) (px py : Z) : option Z :=
  f ← frame v; Surface.pixel f px py.
(** One window over [acc]. *)
Definition layer (px py : Z) (acc : option Z) (v : window) : option Z :=
  if decide (used v = true ∧ footprint v px py)
  then frame_pixel v (px - (wx v - 1)) (py - (wy v - GUI_TITLE_H - 1)) else acc.
(** The topmost window's cached pixel. *)
Definition look (s : desk) (px py : Z) : option Z := fold_left (layer px py) (WINS s) None.

Definition screen (s : desk) (px py : Z) : Prop := inside (Dirty.screen (DIRTY s)) px py.
Definition covers (s : desk) (px py : Z) : Prop := Dirty.covers (DIRTY s) px py.

(** A buffer of the given size. *)
Definition buffer (o : option surface) (bw bh : Z) : Prop :=
  ∃ f, o = Some f ∧ Surface.surface_ok f ∧ sw f = bw ∧ sh f = bh.
(** Sizes and positions are far from the [i32] limits. *)
Record window_ok (v : window) : Prop := {
  wo_x : - 2 ^ 28 ≤ wx v < 2 ^ 28;
  wo_y : - 2 ^ 28 ≤ wy v < 2 ^ 28;
  wo_w : 0 < ww v < 2 ^ 14;
  wo_h : 0 < wh v < 2 ^ 14;
  wo_title : zlen (title v) = 24 ∧ Forall (λ c, 0 ≤ c < 256) (title v);
  wo_body : buffer (body v) (ww v) (wh v);
  wo_frame : buffer (frame v) (ww v + 2) (wh v + GUI_TITLE_H + 2);
}.

(** The window table: eight slots, caches of their windows' sizes. *)
Record desk_wf (s : desk) : Prop := {
  dk_len : zlen (WINS s) = GUI_MAX_WINDOWS;
  dk_win i v : zget (WINS s) i = Some v → used v = true → window_ok v;
  dk_dirty : Dirty.region_ok (DIRTY s);
}.
(** Exactly the window [FOCUSED_IDX], if any, is drawn as focused. *)
Record focus_ok (s : desk) : Prop := {
  fc_idx : FOCUSED_IDX s = -1 ∨ ∃ v, zget (WINS s) (FOCUSED_IDX s) = Some v ∧ used v = true;
  fc_win i v : zget (WINS s) i = Some v → used v = true →
    focused v = bool_decide (i = FOCUSED_IDX s);
}.

(** A window whose cache is out of date is damaged all over. *)
Definition stale (v : window) : bool := content_dirty v || chrome_dirty v.
Definition stale_damaged (s : desk) : Prop := ∀ i v, zget (WINS s) i = Some v →
  used v = true → stale v = true → ∀ px py, footprint v px py → screen s px py → covers s px py.

(** Whatever looks different is damaged, and no damage is forgotten. *)
Record tracked (s s' : desk) : Prop := {
  tr_screen : Dirty.same_screen (DIRTY s) (DIRTY s');
  tr_covers px py : covers s px py → covers s' px py;
  tr_look px py : screen s px py → look s' px py = look s px py ∨ covers s' px py;
}.

Lemma tracked_screen s s' px py : tracked s s' → screen s' px py ↔ screen s px py.
Proof. intros [[Hw Hh] _ _]. unfold screen, Dirty.screen. by rewrite Hw, Hh. Qed.
Lemma tracked_refl s : tracked s s.
Proof. split; [done|done|by left]. Qed.
Lemma tracked_trans s1 s2 s3 : tracked s1 s2 → tracked s2 s3 → tracked s1 s3.
Proof.
  intros T1 T2. split.
  - destruct (tr_screen _ _ T1), (tr_screen _ _ T2). split; congruence.
  - intros px py Hc. by apply T2, T1.
  - intros px py Hs. destruct (tr_look _ _ T2 px py) as [E2|]; [by eapply tracked_screen| |by right].
    destruct (tr_look _ _ T1 px py Hs) as [E1|Hc]; [left; congruence|right; by apply T2].
Qed.

Lemma window_rect_ok v :
  window_ok v →
  window_rect_screen v =
    mkRect (wx v - 1) (wy v - GUI_TITLE_H - 1) (ww v + 2) (wh v + GUI_TITLE_H + 2).
Proof.
  intros [Hx Hy Hw Hh _ _ _]. unfold window_rect_screen, GUI_TITLE_H. by narrow.
Qed.
Lemma window_rect_near v : window_ok v → rect_near (window_rect_screen v).
Proof.
  intros Hv. rewrite window_rect_ok by done. destruct Hv as [Hx Hy Hw Hh _ _ _].
  unfold rect_near, near, GUI_TITLE_H. simpl. lia.
Qed.

(** Replacing a window by one that is drawn the same. *)
Lemma layers_zset px py l i v v' acc :
  zget l i = Some v → (∀ acc, layer px py acc v' = layer px py acc v) →
  fold_left (layer px py) (zset l i v') acc = fold_left (layer px py) l acc.
Proof.
  unfold zget, zset. case_decide; [|done]. generalize (Z.to_nat i). clear.
  intros k. revert l acc. induction k as [|k IH]; intros [|u l] acc Hk Hl; try done.
  - simpl in *. injection Hk as ->. by rewrite Hl.
  - simpl in *. by apply IH.
Qed.
Lemma look_zset s i v v' px py :
  zget (WINS s) i = Some v → (∀ acc, layer px py acc v' = layer px py acc v) →
  look (set_wins (zset (WINS s) i v') s) px py = look s px py.
Proof. intros Hv Hl. unfold look. simpl. by eapply layers_zset. Qed.

(** Drawn alike: only flags differ. *)
Definition drawn_alike (v v' : window) : Prop :=
  used v' = used v ∧ wx v' = wx v ∧ wy v' = wy v ∧ ww v' = ww v ∧ wh v' = wh v ∧ frame v' = frame v.
Lemma layer_alike px py v v' acc : drawn_alike v v' → layer px py acc v' = layer px py acc v.
Proof.
  destruct v, v'. unfold drawn_alike. simpl. intros (-> & -> & -> & -> & -> & ->). done.
Qed.
(** ** Steps that keep the desk in order *)
Record good (s : desk) : Prop := {
  gd_wf : desk_wf s;
  gd_stale : stale_damaged s;
}.
(** [s'] is in order, and what changed since [s] is damaged. *)
Definition kept (s s' : desk) : Prop := good s' ∧ tracked s s'.

Lemma kept_refl s : good s → kept s s.
Proof. intros Hg. split; [done|apply tracked_refl]. Qed.
Lemma kept_trans s1 s2 s3 : kept s1 s2 → kept s2 s3 → kept s1 s3.
Proof. intros [_ T1] [G2 T2]. split; [done|by eapply tracked_trans]. Qed.

Lemma good_window s i v : good s → zget (WINS s) i = Some v → used v = true → window_ok v.
Proof. intros [[] _]. eauto. Qed.
Lemma good_slot s i : good s → 0 ≤ i < GUI_MAX_WINDOWS → ∃ v, zget (WINS s) i = Some v.
Proof. intros [[Hl _ _] _] Hi. apply zget_lt. by rewrite Hl. Qed.

Lemma wp_update_win i f s v (Q : unit → desk → Prop) :
  zget (WINS s) i = Some v → Q tt (set_wins (zset (WINS s) i (f v)) s) → wp (update_win i f) Q s.
Proof. intros Hv HQ. unfold update_win. wp_run. apply wp_aget. exists v. split; [done|]. by wp_run. Qed.

(** Damage alone. *)
Definition damaged (a : rect) (s s' : desk) : Prop :=
  ∃ d, s' = set_dirty d s ∧ ∀ px py, inside a px py → screen s px py → covers s' px py.
Lemma wp_add_damage a s :
  good s → rect_near a →
  wp (Dirty.add a) (λ _ d, kept s (set_dirty d s) ∧ damaged a s (set_dirty d s)) (DIRTY s).
Proof.
  intros [[H1 H2 H3] Hst] Ha. wp_use Dirty.wp_add; [done|done|].
  intros [] d (Hd & Hs & Hc & _).
  assert (∀ px py, covers s px py → Dirty.covers d px py) as Hmono by (intros; apply Hc; by left).
  split.
  - split; [|split; [done|done|by left]]. split; [by split|].
    intros i v Hv Hu Hstale px py Hf Hsc. apply Hmono. eapply Hst; [done..|].
    destruct Hs as [E1 E2]. unfold screen, Dirty.screen in *. simpl in Hsc. by rewrite E1, E2 in Hsc.
  - exists d. split; [done|]. intros px py Hin Hsc. apply Hc. by right.
Qed.

Lemma wp_damage a s :
  good s → rect_near a →
  wp (dirty_call (Dirty.add a)) (λ _ s', kept s s' ∧ damaged a s s') s.
Proof. intros Hg Ha. unfold dirty_call. wp_step. by apply wp_add_damage. Qed.

(** Replacing window [i]: it stays well-formed, and where it is drawn
    differently or has become stale it is damaged. *)
Lemma kept_win s s' i v v' :
  good s → zget (WINS s) i = Some v → WINS s' = zset (WINS s) i v' →
  Dirty.region_ok (DIRTY s') → Dirty.same_screen (DIRTY s) (DIRTY s') →
  (used v' = true → window_ok v') →
  (∀ px py, covers s px py → covers s' px py) →
  (∀ px py, screen s px py → covers s' px py ∨ ∀ acc, layer px py acc v' = layer px py acc v) →
  (used v' = true → stale v' = true →
    (used v = true ∧ stale v = true ∧ window_rect_screen v' = window_rect_screen v) ∨
    ∀ px py, footprint v' px py → screen s px py → covers s' px py) → kept s s'.
Proof.
  intros [[Hl Hw Hd] Hst] Hv Hz Hd' Hs Hok Hmono Hlook Hstale. pose proof (zget_Some_lt _ _ _ Hv) as Hi.
  assert (∀ j, zget (WINS s') j = if decide (i = j) then Some v' else zget (WINS s) j) as Hget
    by (intros j; rewrite Hz; by apply zget_zset).
  assert (∀ px py, screen s' px py ↔ screen s px py) as Hsc.
  { intros px py. destruct Hs as [E1 E2]. unfold screen, Dirty.screen. by rewrite E1, E2. }
  split; [split; [split|]|split].
  - by rewrite Hz, zlen_zset.
  - intros j u. rewrite Hget. case_decide; [intros [= <-]; auto|eauto].
  - done.
  - intros j u. rewrite Hget. intros Hu Hused Hst' px py Hf Hp. apply Hsc in Hp. case_decide.
    + injection Hu as <-. destruct (Hstale Hused Hst') as [(A1 & A2 & A3)|Hc]; [|by apply Hc].
      apply Hmono. eapply (Hst i v); [done..| |done]. unfold footprint in *. by rewrite <- A3.
    + by apply Hmono, (Hst j u).
  - done.
  - done.
  - intros px py Hp. destruct (Hlook px py Hp) as [|Hla]; [by right|left].
    unfold look. rewrite Hz. by apply (layers_zset px py _ i v).
Qed.

(** A change of flags, not to stale. *)
Lemma kept_flags s i v f :
  good s → zget (WINS s) i = Some v → drawn_alike v (f v) →
  (used v = true → window_ok (f v)) →
  (used v = true → stale (f v) = true → stale v = true ∨
    ∀ px py, footprint v px py → screen s px py → covers s px py) →
  kept s (set_wins (zset (WINS s) i (f v)) s).
Proof.
  intros Hg Hv Ha Hok Hst. pose proof Ha as (E1 & E2 & E3 & E4 & E5 & E6).
  assert (window_rect_screen (f v) = window_rect_screen v) as Hr
    by (unfold window_rect_screen; by rewrite E2, E3, E4, E5).
  eapply (kept_win s _ i v (f v)); try done.
  - apply Hg.
  - rewrite E1. done.
  - intros px py _. right. intros acc. by apply layer_alike.
  - rewrite E1. intros Hu Hs. destruct (Hst Hu Hs) as [|Hc]; [by left|right].
    intros px py. unfold footprint. rewrite Hr. apply Hc.
Qed.

(** [mark_dirty]: damage first in the proof, the flag is only seen with it. *)
Lemma kept_stale_damaged s i v f d :
  good s → zget (WINS s) i = Some v → drawn_alike v (f v) →
  (used v = true → window_ok (f v)) →
  kept s (set_dirty d s) → damaged (window_rect_screen v) s (set_dirty d s) →
  kept s (set_dirty d (set_wins (zset (WINS s) i (f v)) s)).
Proof.
  intros Hg Hv Ha Hok Hk (d' & Hd' & Hc). injection Hd' as <-.
  eapply kept_trans; [exact Hk|]. apply (kept_flags (set_dirty d s) i v f); try done; [apply Hk|].
  intros _ _. right. intros px py Hf Hs. apply Hc; [done|].
  by apply (tracked_screen _ _ px py (proj2 Hk)).
Qed.

(** The lookup [window_by_id] makes. *)
Definition win_at (s : desk) (id : Z) : option window :=
  v ← zget (WINS s) id; if used v then Some v else None.

Lemma wp_window_by_id s id (Q : option window → desk → Prop) :
  desk_wf s → Q (win_at s id) s → wp (window_by_id id) Q s.
Proof.
  intros [Hl _ _] HQ. unfold window_by_id. rewrite Z.geb_leb. unfold win_at in HQ.
  destruct (Z.leb_spec 0 id), (Z.ltb_spec id GUI_MAX_WINDOWS); cbn [andb].
  { destruct (zget_lt (WINS s) id) as [v Hv]; [lia|]. wp_run. apply wp_aget. exists v.
    split; [done|]. rewrite Hv in HQ. by wp_run. }
  all: wp_run; rewrite (proj2 (zget_None (WINS s) id)) in HQ by lia; done.
Qed.

Lemma wp_mark_dirty s id :
  good s →
  wp (mark_dirty id) (λ _ s', kept s s' ∧ FOCUSED_IDX s' = FOCUSED_IDX s ∧
    match win_at s id with
    | Some v => WINS s' = zset (WINS s) id (with_content true v) ∧
        ∀ px py, footprint v px py → screen s px py → covers s' px py
    | None => s' = s
    end) s.
Proof.
  intros Hg. unfold mark_dirty. wp_step. apply wp_window_by_id; [apply Hg|].
  unfold win_at. destruct (zget (WINS s) id) as [v|] eqn:Hv; simpl; [|wp_run; by split_and!; [apply kept_refl|..]].
  destruct (used v) eqn:Hu; [|wp_run; by split_and!; [apply kept_refl|..]].
  pose proof (good_window _ _ _ Hg Hv Hu) as Hw. wp_step. apply (wp_update_win id _ s v); [done|].
  pose proof (wp_add_damage (window_rect_screen v) s Hg (window_rect_near v Hw)) as Hd.
  unfold damage_footprint, dirty_call. wp_step. cbn [DIRTY set_wins].
  change (window_rect_screen (with_content true v)) with (window_rect_screen v).
  eapply wp_mono; [exact Hd|]. cbv beta. clear Hd.
  intros [] d (Hk & Hdam). pose proof Hdam as (d' & Hd' & Hc). injection Hd' as <-.
  split_and!; [|done|done|done].
  apply (kept_stale_damaged s id v (with_content true) d); [exact Hg|exact Hv|by split_and!| |exact Hk|exact Hdam].
  intros _. destruct Hw. by constructor.
Qed.
End Desk.
