(* ===== verification/Desc.v ===== *)
(** * Descriptor tables and the interrupt controller ([gdt.rs], [idt.rs], [pic.rs])

    The values the kernel writes into the GDT, the TSS, the IDT and the PIC's
    mask registers ([Ports] has the port accesses); the instructions that load
    them ([lgdt], [ltr], [lidt]) are not modelled.  The decoders at the end of each part are the
    processor's reading of the entries. *)
From S2P Require Import Prelude Sched.

Module Desc.

(** ** GDT *)
Definition KERNEL_CS : Z := 0x08.
Definition KERNEL_DS : Z := 0x10.
Definition USER_DS : Z := 0x18.
Definition USER_CS : Z := 0x20.
Definition TSS_SEL : Z := 0x28.
Definition TSS_SIZE : Z := 104.

(** [base >> 24 & 0xFF] is [(base >> 24) & 0xFF] in Rust. *)
Definition make_tss_desc_low (base limit : Z) : Z :=
  Z.lor (Z.lor (Z.lor (Z.lor
    (Z.land limit 0xFFFF)
    (u64 (Z.shiftl (Z.land base 0xFFFFFF) 16)))
    (u64 (Z.shiftl 0x89 40)))
    (u64 (Z.shiftl (Z.land (Z.shiftr limit 16) 0xF) 48)))
    (u64 (Z.shiftl (Z.land (Z.shiftr base 24) 0xFF) 56)).

(** The seven entries [init] writes, for a TSS at [base]. *)
Definition gdt_entries (base : Z) : list Z :=
  [0x0000000000000000; 0x00AF9A000000FFFF; 0x00AF92000000FFFF; 0x00AFF2000000FFFF;
   0x00AFFA000000FFFF; make_tss_desc_low base (TSS_SIZE - 1); Z.shiftr base 32].

(** A bit field of an entry. *)
Definition bits (e lo n : Z) : Z := Z.shiftr e lo mod 2 ^ n.

Definition desc_base (lo hi : Z) : Z :=
  bits lo 16 24 + 2 ^ 24 * bits lo 56 8 + 2 ^ 32 * bits hi 0 32.
Definition desc_limit (lo : Z) : Z := bits lo 0 16 + 2 ^ 16 * bits lo 48 4.
Definition desc_type (lo : Z) : Z := bits lo 40 4.
Definition desc_system (lo : Z) : bool := negb (Z.testbit lo 44).
Definition desc_dpl (lo : Z) : Z := bits lo 45 2.
Definition desc_present (lo : Z) : bool := Z.testbit lo 47.
Definition desc_long (lo : Z) : bool := Z.testbit lo 53.

(** The entry a selector designates, and its requested privilege. *)
Definition selected (gdt : list Z) (sel : Z) : Z := default 0 (zget gdt (Z.shiftr sel 3)).
Definition rpl (sel : Z) : Z := Z.land sel 3.

(** ** IDT *)
Definition GATE_INT : Z := 0x8E.
Record idt_entry := mkGate {
  off_low : Z; sel : Z; ist : Z; flags : Z; off_mid : Z; off_high : Z; zero : Z;
}.
Definition idt_set (handler fl : Z) : idt_entry :=
  mkGate (Z.land handler 0xFFFF) KERNEL_CS 0 fl
    (Z.land (Z.shiftr handler 16) 0xFFFF) (u32 (Z.shiftr handler 32)) 0.

Definition IDT_ENTRIES : Z := 129.
Definition null_gate : idt_entry := mkGate 0 0 0 0 0 0 0.

(** The table after [init]: 48 stubs and the system call gate. *)
Definition idt_init (isr_stub_table : list Z) (isr_stub_128 : Z) : M (list idt_entry) unit :=
  for_each 0 48 (λ i,
    h ← of_option (zget isr_stub_table i);
    _ ← aget (λ t, t) i;
    modify (λ t, zset t i (idt_set h GATE_INT)));;
  _ ← aget (λ t, t) 0x80;
  modify (λ t, zset t 0x80 (idt_set isr_stub_128 0xEE)).

Definition gate_offset (g : idt_entry) : Z :=
  off_low g + 2 ^ 16 * off_mid g + 2 ^ 32 * off_high g.
Definition gate_dpl (g : idt_entry) : Z := bits (flags g) 5 2.
Definition gate_present (g : idt_entry) : bool := Z.testbit (flags g) 7.

(** ** PIC masks *)
Record pic := mkPic { imr1 : Z; imr2 : Z }.
Definition get_imr (irq : Z) (p : pic) : Z := if irq <? 8 then imr1 p else imr2 p.
Definition set_imr (irq v : Z) (p : pic) : pic :=
  if irq <? 8 then mkPic v (imr2 p) else mkPic (imr1 p) v.
Definition pic_bit (irq : Z) : Z := if irq <? 8 then irq else irq - 8.
Definition unmask (irq : Z) (p : pic) : pic :=
  set_imr irq (Z.land (get_imr irq p) (255 - u8 (Z.shiftl 1 (pic_bit irq)))) p.
Definition mask (irq : Z) (p : pic) : pic :=
  set_imr irq (Z.lor (get_imr irq p) (u8 (Z.shiftl 1 (pic_bit irq)))) p.
Definition pic_init (_ : pic) : pic := mkPic 0xFF 0xFF.

(** The commands [eoi] sends: to the slave too from line 8 on. *)
Definition eoi (irq : Z) : list (Z * Z) :=
  (if irq >=? 8 then [(0xA0, 0x20)] else []) ++ [(0x20, 0x20)].

Definition masked (p : pic) (irq : Z) : bool := Z.testbit (get_imr irq p) (pic_bit irq).

(** ** Bit fields *)
Lemma bits_spec e lo n k :
  0 ≤ lo → 0 ≤ n → 0 ≤ k → Z.testbit (bits e lo n) k = (k <? n) && Z.testbit e (k + lo).
Proof.
  intros Hlo Hn Hk. unfold bits. destruct (Z.ltb_spec k n).
  - by rewrite Z.mod_pow2_bits_low, Z.shiftr_spec by lia.
  - by rewrite Z.mod_pow2_bits_high by lia.
Qed.

Lemma land_low x n k :
  0 ≤ n → 0 ≤ k → Z.testbit (Z.land x (2 ^ n - 1)) k = Z.testbit x k && (k <? n).
Proof.
  intros Hn Hk. rewrite Z.land_spec. f_equal.
  replace (2 ^ n - 1) with (Z.ones n) by (rewrite Z.ones_equiv; lia).
  destruct (Z.ltb_spec k n); [by apply Z.ones_spec_low; lia|by apply Z.ones_spec_high; lia].
Qed.

Lemma u64_shiftl_bits x n k :
  0 ≤ n → 0 ≤ k → Z.testbit (u64 (Z.shiftl x n)) k = (k <? 64) && (n <=? k) && Z.testbit x (k - n).
Proof.
  intros Hn Hk. unfold u64. destruct (Z.ltb_spec k 64); simpl.
  - rewrite Z.mod_pow2_bits_low, Z.shiftl_spec by lia.
    destruct (Z.leb_spec n k); [done|]. by rewrite Z.testbit_neg_r by lia.
  - by rewrite Z.mod_pow2_bits_high by lia.
Qed.

(** Decide every comparison of a bit-field identity. *)
Ltac bit_cases :=
  repeat match goal with
  | |- context [?a <? ?b] => destruct (Z.ltb_spec a b); try lia
  | |- context [?a <=? ?b] => destruct (Z.leb_spec a b); try lia
  end;
  rewrite ?andb_true_l, ?andb_true_r, ?andb_false_l, ?andb_false_r, ?orb_false_l, ?orb_false_r.

Lemma tss_desc_bit base limit k :
  0 ≤ k →
  Z.testbit (make_tss_desc_low base limit) k =
  (Z.testbit limit k && (k <? 16)) ||
  ((k <? 64) && (16 <=? k) && (Z.testbit base (k - 16) && (k - 16 <? 24))) ||
  ((k <? 64) && (40 <=? k) && Z.testbit 0x89 (k - 40)) ||
  ((k <? 64) && (48 <=? k) && (Z.testbit limit (k - 48 + 16) && (k - 48 <? 4))) ||
  ((k <? 64) && (56 <=? k) && (Z.testbit base (k - 56 + 24) && (k - 56 <? 8))).
Proof.
  intros Hk. unfold make_tss_desc_low. rewrite !Z.lor_spec.
  change 0xFFFF with (2 ^ 16 - 1). change 0xFFFFFF with (2 ^ 24 - 1).
  change 0xFF with (2 ^ 8 - 1). change 0xF with (2 ^ 4 - 1).
  rewrite !u64_shiftl_bits, land_low by lia.
  assert (∀ lo x n, 0 ≤ lo → 0 ≤ n → (k <? 64) && (lo <=? k) && Z.testbit (Z.land x (2 ^ n - 1)) (k - lo) =
    (k <? 64) && (lo <=? k) && (Z.testbit x (k - lo) && (k - lo <? n))) as Hfield.
  { intros lo x n Hlo Hn. destruct (Z.leb_spec lo k); [|by rewrite andb_false_r].
    by rewrite land_low by lia. }
  rewrite !Hfield by lia.
  assert (∀ lo x n m, 0 ≤ lo → 0 ≤ m →
    (k <? 64) && (lo <=? k) && (Z.testbit (Z.shiftr x m) (k - lo) && (k - lo <? n)) =
    (k <? 64) && (lo <=? k) && (Z.testbit x (k - lo + m) && (k - lo <? n))) as Hshift.
  { intros lo x n m Hlo Hm. destruct (Z.leb_spec lo k); [|by rewrite andb_false_r].
    by rewrite Z.shiftr_spec by lia. }
  by rewrite !Hshift by lia.
Qed.

Lemma testbit_89_high k : 8 ≤ k → Z.testbit 0x89 k = false.
Proof. intros Hk. change 0x89 with (0x89 mod 2 ^ 8). by apply Z.mod_pow2_bits_high. Qed.

Lemma tss_base_low base limit :
  bits (make_tss_desc_low base limit) 16 24 = base mod 2 ^ 24.
Proof.
  apply Z.bits_inj'. intros k Hk. rewrite bits_spec by lia. destruct (Z.ltb_spec k 24); simpl.
  - rewrite tss_desc_bit, Z.mod_pow2_bits_low by lia. bit_cases. f_equal. lia.
  - by rewrite Z.mod_pow2_bits_high by lia.
Qed.

Lemma tss_base_mid base limit :
  bits (make_tss_desc_low base limit) 56 8 = base / 2 ^ 24 mod 2 ^ 8.
Proof.
  apply Z.bits_inj'. intros k Hk. rewrite bits_spec by lia. destruct (Z.ltb_spec k 8); simpl.
  - rewrite tss_desc_bit, Z.mod_pow2_bits_low, Z.div_pow2_bits by lia.
    rewrite testbit_89_high by lia. bit_cases. f_equal. lia.
  - by rewrite Z.mod_pow2_bits_high by lia.
Qed.

Lemma tss_limit_low base limit :
  bits (make_tss_desc_low base limit) 0 16 = limit mod 2 ^ 16.
Proof.
  apply Z.bits_inj'. intros k Hk. rewrite bits_spec by lia. destruct (Z.ltb_spec k 16); simpl.
  - rewrite tss_desc_bit, Z.mod_pow2_bits_low by lia. bit_cases. f_equal. lia.
  - by rewrite Z.mod_pow2_bits_high by lia.
Qed.

Lemma tss_limit_high base limit :
  bits (make_tss_desc_low base limit) 48 4 = limit / 2 ^ 16 mod 2 ^ 4.
Proof.
  apply Z.bits_inj'. intros k Hk. rewrite bits_spec by lia. destruct (Z.ltb_spec k 4); simpl.
  - rewrite tss_desc_bit, Z.mod_pow2_bits_low, Z.div_pow2_bits by lia.
    rewrite testbit_89_high by lia. bit_cases. f_equal. lia.
  - by rewrite Z.mod_pow2_bits_high by lia.
Qed.

Lemma tss_attr base limit :
  bits (make_tss_desc_low base limit) 40 8 = 0x89.
Proof.
  apply Z.bits_inj'. intros k Hk. rewrite bits_spec by lia. destruct (Z.ltb_spec k 8); simpl.
  - rewrite tss_desc_bit by lia. bit_cases. f_equal. lia.
  - by rewrite testbit_89_high.
Qed.

Lemma bits_of_bits e lo n lo' n' :
  0 ≤ lo → 0 ≤ n → 0 ≤ lo' → 0 ≤ n' → lo' + n' ≤ n →
  bits (bits e lo n) lo' n' = bits e (lo + lo') n'.
Proof.
  intros. apply Z.bits_inj'. intros k Hk. rewrite !bits_spec by lia. bit_cases; f_equal; lia.
Qed.

Lemma testbit_bits e lo n k :
  0 ≤ lo → 0 ≤ k < n → Z.testbit e (lo + k) = Z.testbit (bits e lo n) k.
Proof. intros. rewrite bits_spec by lia. bit_cases. f_equal. lia. Qed.

(** ** Properties *)

(** the processor reads back from the TSS descriptor the 64-bit base and
    the 20-bit limit it was built from, and a present system descriptor of
    type 9 (available 64-bit TSS) with privilege 0. *)
Theorem tss_descriptor_roundtrip base limit :
  0 ≤ base < 2 ^ 64 → 0 ≤ limit < 2 ^ 20 →
  let lo := make_tss_desc_low base limit in
  desc_base lo (Z.shiftr base 32) = base ∧ desc_limit lo = limit ∧
  desc_type lo = 9 ∧ desc_system lo = true ∧ desc_dpl lo = 0 ∧ desc_present lo = true.
Proof.
  intros Hb Hl lo. pose proof (tss_attr base limit) as Hattr. fold lo in Hattr.
  assert (∀ k, 0 ≤ k < 8 → Z.testbit lo (40 + k) = Z.testbit 0x89 k) as Hbit
    by (intros k Hk; by rewrite (testbit_bits lo 40 8), Hattr by lia).
  split_and!.
  - unfold desc_base, lo. rewrite tss_base_low, tss_base_mid. unfold bits.
    rewrite Z.shiftr_0_r, Z.shiftr_div_pow2 by lia. dlia.
  - unfold desc_limit, lo. rewrite tss_limit_low, tss_limit_high. dlia.
  - unfold desc_type. transitivity (bits (bits lo 40 8) 0 4); [by rewrite bits_of_bits by lia|by rewrite Hattr].
  - unfold desc_system. change 44 with (40 + 4). by rewrite Hbit by lia.
  - unfold desc_dpl. transitivity (bits (bits lo 40 8) 5 2); [by rewrite bits_of_bits by lia|by rewrite Hattr].
  - unfold desc_present. change 47 with (40 + 7). by rewrite Hbit by lia.
Qed.

Lemma tss_descriptor_roundtrip_witness :
  desc_base (make_tss_desc_low 0xFFFFFFFF80123456 103) (Z.shiftr 0xFFFFFFFF80123456 32) =
  0xFFFFFFFF80123456.
Proof. apply (tss_descriptor_roundtrip 0xFFFFFFFF80123456 103); lia. Defined.

(** the frames the scheduler fabricates agree with the GDT: a user frame's
    selectors designate present ring-3 code (64-bit) and data segments at
    privilege 3, a kernel thread's the ring-0 ones. *)
Theorem frame_selectors_match_gdt base entry sp tramp f arg fr :
  let gdt := gdt_entries base in
  let u := Sched.user_frame entry sp fr in
  let k := Sched.kthread_frame tramp f arg sp fr in
  (∀ d, d ∈ [(Sched.cs u, 3, 10); (Sched.ss u, 3, 2); (Sched.cs k, 0, 10); (Sched.ss k, 0, 2)] →
     let '(s, privilege, ty) := d in
     rpl s = privilege ∧ desc_dpl (selected gdt s) = privilege ∧
     desc_type (selected gdt s) = ty ∧ desc_system (selected gdt s) = false ∧
     desc_present (selected gdt s) = true ∧ desc_long (selected gdt s) = true).
Proof.
  intros gdt u k d Hd. repeat (apply elem_of_cons in Hd as [->|Hd]; [by split_and!|]).
  by apply elem_of_nil in Hd.
Qed.

(** after [idt::init], gate [i] of the 48 stubs leads to its handler
    address, present and privilege 0; gate 0x80 leads to the system call stub
    and is callable from ring 3; all other gates are absent. *)
Theorem idt_gates stubs h :
  zlen stubs = 48 → Forall (λ a, 0 ≤ a < 2 ^ 64) stubs → 0 ≤ h < 2 ^ 64 →
  wp (idt_init stubs h) (λ _ t,
    zlen t = IDT_ENTRIES ∧ ∀ i g, zget t i = Some g →
      sel g = (if gate_present g then KERNEL_CS else 0) ∧
      (if decide (0 ≤ i < 48) then
         zget stubs i = Some (gate_offset g) ∧ gate_present g = true ∧ gate_dpl g = 0
       else if decide (i = 0x80) then
         gate_offset g = h ∧ gate_present g = true ∧ gate_dpl g = 3
       else gate_present g = false))
    (replicate (Z.to_nat IDT_ENTRIES) null_gate).
Proof.
  intros Hl Hs Hh. unfold idt_init. wp_run.
  assert (∀ a fl, 0 ≤ a < 2 ^ 64 → gate_offset (idt_set a fl) = a) as Hoff.
  { intros a fl Ha. unfold gate_offset, idt_set. simpl. unfold u32.
    change 0xFFFF with (Z.ones 16). rewrite !Z.land_ones, !Z.shiftr_div_pow2 by lia. dlia. }
  apply (wp_for_each (λ k t, zlen t = IDT_ENTRIES ∧ ∀ i g, zget t i = Some g →
    if decide (0 ≤ i < k) then ∃ a, zget stubs i = Some a ∧ g = idt_set a GATE_INT
    else g = null_gate)).
  - lia.
  - split; [done|]. intros i g Hg. rewrite decide_False by lia.
    rewrite zget_replicate in Hg. case_decide; [|done]. by injection Hg as <-.
  - intros k t Hk [Hlt Ht]. destruct (zget_lt stubs k) as [a Ha]; [lia|].
    wp_run. apply wp_of_option. exists a. split; [done|]. wp_run. unfold IDT_ENTRIES in *.
    destruct (zget_lt t k) as [o Ho]; [lia|]. apply wp_aget. exists o. split; [done|]. wp_run.
    split; [by rewrite zlen_zset|]. intros i g. rewrite zget_zset by lia.
    destruct (decide (k = i)) as [<-|Hne].
    + intros [= <-]. rewrite decide_True by lia. by exists a.
    + intros Hg. specialize (Ht i g Hg). destruct (decide (0 ≤ i < k)).
      * by rewrite decide_True by lia.
      * by rewrite decide_False by lia.
  - intros t [Hlt Ht]. wp_run. unfold IDT_ENTRIES in *.
    destruct (zget_lt t 0x80) as [o Ho]; [lia|]. apply wp_aget. exists o. split; [done|]. wp_run.
    split; [by rewrite zlen_zset|]. intros i g. rewrite zget_zset by lia.
    destruct (decide (128 = i)) as [<-|Hne].
    + intros [= <-]. rewrite decide_False, decide_True by lia. by rewrite Hoff.
    + intros Hg. specialize (Ht i g Hg). destruct (decide (0 ≤ i < 48)).
      * destruct Ht as (a0 & Ha0 & ->). rewrite Forall_forall in Hs.
        rewrite Hoff; [done|]. apply Hs. unfold zget in Ha0. rewrite decide_True in Ha0 by lia.
        by eapply list_elem_of_lookup_2.
      * rewrite decide_False by lia. by subst g.
Qed.

Lemma idt_gates_witness :
  wp (idt_init (replicate 48 0xFFFFFFFF80001000) 0xFFFFFFFF80002000) (λ _ t, ∀ g,
    zget t 0x80 = Some g → gate_offset g = 0xFFFFFFFF80002000 ∧ gate_dpl g = 3)
    (replicate (Z.to_nat IDT_ENTRIES) null_gate).
Proof.
  eapply wp_mono.
  - apply (idt_gates (replicate 48 0xFFFFFFFF80001000) 0xFFFFFFFF80002000); [done| |lia].
    apply Forall_replicate. lia.
  - intros [] t [_ H] g Hg. destruct (H 0x80 g Hg) as [_ H1].
    rewrite decide_False, decide_True in H1 by lia. tauto.
Defined.

(** [unmask] and [mask] of a line change that line's mask bit only. *)
Theorem pic_masks_one_line p irq j :
  0 ≤ irq < 16 → 0 ≤ j < 16 →
  masked (unmask irq p) j = (if decide (j = irq) then false else masked p j) ∧
  masked (mask irq p) j = (if decide (j = irq) then true else masked p j).
Proof.
  intros Hi Hj.
  assert (∀ b k, 0 ≤ b < 8 → 0 ≤ k < 8 → Z.testbit (u8 (Z.shiftl 1 b)) k = (k =? b)) as Hbit.
  { intros b k Hb Hk. unfold u8. rewrite Z.mod_pow2_bits_low, Z.shiftl_1_l by lia.
    rewrite Z.pow2_bits_eqb by lia. apply Z.eqb_sym. }
  assert (∀ b k, 0 ≤ b < 8 → 0 ≤ k < 8 →
    Z.testbit (255 - u8 (Z.shiftl 1 b)) k = negb (k =? b)) as Hnot.
  { intros b k Hb Hk. rewrite <- Hbit by done.
    rewrite (complement_spec 8), (proj2 (Z.ltb_lt k 8)), andb_true_r; try done; try lia.
    by apply Z.mod_pos_bound. }
  unfold masked, unmask, mask, get_imr, set_imr, pic_bit.
  destruct (Z.ltb_spec irq 8), (Z.ltb_spec j 8); simpl;
    rewrite ?Z.land_spec, ?Z.lor_spec, ?Hbit, ?Hnot by lia;
    try (rewrite !decide_False by lia; done);
    destruct (decide (j = irq)) as [->|Hne];
    rewrite ?Z.eqb_refl, ?orb_true_r, ?andb_false_r; try done;
    rewrite (proj2 (Z.eqb_neq _ _)) by lia; by rewrite ?orb_false_r, ?andb_true_r.
Qed.

Lemma pic_masks_one_line_witness :
  masked (unmask 12 (pic_init (mkPic 0 0))) 12 = false ∧
  masked (unmask 12 (pic_init (mkPic 0 0))) 2 = true.
Proof.
  split.
  - apply (pic_masks_one_line (pic_init (mkPic 0 0)) 12 12); lia.
  - apply (pic_masks_one_line (pic_init (mkPic 0 0)) 12 2); lia.
Defined.
End Desc.
