(* ===== verification/Kernel.v ===== *)
(** * The kernel's state as the system calls see it

    Threads and memory ([Sched], which holds [Vmm]), the file system, the
    keyboard and terminals, and the bytes sent to the serial port.  A user
    pointer is dereferenced through the address space in CR3; an access to an
    unmapped page, or a write to a read-only one, is a page fault taken in the
    kernel, which [idt.rs] answers by halting for good. *)
From S2P Require Import Prelude PageAlloc Pmm Mem Vmm UserMem Tmpfs Sched Ring Vterm Kbd.

Module Kernel.

Record kern (P : Type) := mkKern {
  sc : Sched.sched P;
  fs : Tmpfs.tmpfs;
  kb : Kbd.kbd;
  com1 : list Z;
}.
Arguments mkKern {P}.
Arguments sc {P}.
Arguments fs {P}.
Arguments kb {P}.
Arguments com1 {P}.

(** [pmm::total_count] and [pmm::free_count]. *)
Class PageCounter (P : Type) := { total_count : M P Z; free_count : M P Z }.
#[global] Instance pmm_counter : PageCounter Pmm.pmm := {
  total_count := Pmm.total_count;
  free_count := Pmm.free_count;
}.

Section kern.
Context {P : Type} `{PageAllocator P}.
Implicit Types s : kern P.

Definition set_sc (x : Sched.sched P) s : kern P := mkKern x (fs s) (kb s) (com1 s).
Definition set_fs (x : Tmpfs.tmpfs) s : kern P := mkKern (sc s) x (kb s) (com1 s).
Definition set_kb (x : Kbd.kbd) s : kern P := mkKern (sc s) (fs s) x (com1 s).
(** [uart.rs], [putc]: the byte goes out. *)
Definition uart_out (c : Z) s : kern P := mkKern (sc s) (fs s) (kb s) (com1 s ++ [c]).

Definition sched_call {A} (m : M (Sched.sched P) A) : M (kern P) A := zoom sc set_sc m.
Definition vm_call {A} (m : M (Vmm.vmm P) A) : M (kern P) A := sched_call (Sched.vm_call m).
Definition fs_call {A} (m : M Tmpfs.tmpfs A) : M (kern P) A := zoom fs set_fs m.
Definition kb_call {A} (m : M Kbd.kbd A) : M (kern P) A := zoom kb set_kb m.
Definition vt_call {A} (m : M Vterm.vterms A) : M (kern P) A := kb_call (Kbd.vt_call m).

Definition mem s : memory := Vmm.phys (Sched.vm (sc s)).
Definition active_space s : Z := Z.land (Vmm.cr3 (Sched.vm (sc s))) Vmm.PTE_ADDR_MASK.
Definition set_mem (m : memory) s : kern P :=
  set_sc (Sched.set_vm (Vmm.set_phys m (Sched.vm (sc s))) (sc s)) s.

(** The leaf entry the processor uses for [va]. *)
Definition user_entry s (va : Z) : option Z := Vmm.lookup_page (mem s) (active_space s) va.

(** A load and a store through a user pointer. *)
Definition uread (va : Z) : M (kern P) Z := λ s,
  match UserMem.user_byte (mem s) (active_space s) va with
  | Some b => Done (b, s)
  | None => hang s
  end.
Definition uwrite (va b : Z) : M (kern P) unit := λ s,
  match user_entry s va with
  | Some e =>
      if Vmm.has e Vmm.PTE_RW then
        Done (tt, set_mem (store_bytes (mem s) (UserMem.page_frame e + va mod PAGE_SIZE) [b]) s)
      else hang s
  | None => hang s
  end.

(** [slice::from_raw_parts] read front to back, [copy_nonoverlapping] to a
    user address, and a little-endian load. *)
Fixpoint uread_bytes (n : nat) (va : Z) : M (kern P) (list Z) :=
  match n with
  | O => mret []
  | S n => b ← uread va; bs ← uread_bytes n (va + 1); mret (b :: bs)
  end.
Fixpoint uwrite_bytes (va : Z) (bs : list Z) : M (kern P) unit :=
  match bs with
  | [] => mret tt
  | b :: bs => uwrite va b;; uwrite_bytes (va + 1) bs
  end.
Definition uread64 (va : Z) : M (kern P) Z :=
  bs ← uread_bytes 8 va; mret (load_le 8 (store_bytes (λ _, 0) 0 bs) 0).
Definition le_bytes (n : nat) (v : Z) : list Z :=
  load_bytes (store_le n (λ _, 0) 0 v) 0 (Z.of_nat n).
End kern.

(** ** What a user pointer denotes *)
Section user.
Context {P : Type} `{PageAllocatorLaws P}.
Implicit Types s : kern P.

(** The user bytes [bs] at [va], and a NUL-terminated string there. *)
Definition user_at s (va : Z) (bs : list Z) : Prop :=
  ∀ i b, zget bs i = Some b → UserMem.user_byte (mem s) (active_space s) (va + i) = Some b.
Definition user_string s (va : Z) (str : list Z) : Prop :=
  nul_free str ∧ user_at s va (str ++ [0]).

Lemma user_at_app s va bs bs' :
  user_at s va (bs ++ bs') ↔ user_at s va bs ∧ user_at s (va + zlen bs) bs'.
Proof.
  pose proof (zlen_nonneg bs). split.
  - intros Hu. split; intros i b Hb; pose proof (zget_Some_lt _ _ _ Hb).
    + apply Hu. by rewrite zget_app_l by lia.
    + rewrite <- Z.add_assoc. apply Hu. rewrite zget_app_r by lia.
      by rewrite Z.add_simpl_l.
  - intros [Ha Hb0] i b Hb. destruct (Z.lt_ge_cases i (zlen bs)).
    + apply Ha. by rewrite zget_app_l in Hb by lia.
    + rewrite zget_app_r in Hb by lia. specialize (Hb0 _ _ Hb).
      by replace (va + zlen bs + (i - zlen bs)) with (va + i) in Hb0 by lia.
Qed.

Lemma wp_uread s va b (Q : Z → kern P → Prop) :
  UserMem.user_byte (mem s) (active_space s) va = Some b → Q b s → wp (uread va) Q s.
Proof. intros Hb HQ. unfold wp, uread. by rewrite Hb. Qed.

Lemma wp_uread_bytes s va bs n :
  user_at s va bs → n = length bs → wp (uread_bytes n va) (λ r s', r = bs ∧ s' = s) s.
Proof.
  intros Hu ->. revert va Hu. induction bs as [|b bs IH]; intros va Hu; simpl; [by wp_run|].
  wp_run. eapply (wp_uread _ _ b).
  { rewrite <- (Z.add_0_r va). by apply Hu. }
  wp_run. wp_use IH.
  - change (b :: bs) with ([b] ++ bs) in Hu. by apply user_at_app in Hu as [_ Hu].
  - intros r s' [-> ->]. by wp_run.
Qed.
End user.

(** ** Stores through a user pointer *)
Section stores.
Context {P : Type} `{PageAllocatorLaws P}.
Implicit Types s : kern P.

Definition memory_ok s : Prop := UserMem.data_ok (active_space s) (Sched.vm (sc s)).
Definition writable s (va n : Z) : Prop := ∀ x, va ≤ x < va + n →
  UserMem.low_half x ∧ ∃ e, user_entry s x = Some e ∧ Vmm.has e Vmm.PTE_RW = true.

(** [m'] is the memory of [s] with [bs] at the user address [va]. *)
Definition wrote s (va : Z) (bs : list Z) (m' : memory) : Prop :=
  let v := Sched.vm (sc s) in
  UserMem.poked (active_space s) v va bs (Vmm.set_phys m' v).

Lemma set_mem_id s : set_mem (mem s) s = s.
Proof. by destruct s as [[? ? ? ? ? ? ? ? []] ? ? ?]. Qed.

Lemma wr_ok s va bs m' : wrote s va bs m' → memory_ok (set_mem m' s).
Proof. intros W. exact (UserMem.pk_ok _ _ _ _ _ W). Qed.
Lemma wr_lookup s va bs m' x : wrote s va bs m' → user_entry (set_mem m' s) x = user_entry s x.
Proof. intros W. exact (UserMem.pk_lookup _ _ _ _ _ W x). Qed.
Lemma wr_bytes s va bs m' x :
  wrote s va bs m' → UserMem.low_half x →
  UserMem.user_byte m' (active_space s) x =
    match zget bs (x - va) with
    | Some b => Some b
    | None => UserMem.user_byte (mem s) (active_space s) x
    end.
Proof. intros W. exact (UserMem.pk_bytes _ _ _ _ _ W x). Qed.

Lemma wp_uwrite s va b :
  memory_ok s → writable s va 1 → 0 ≤ b < 2 ^ 8 →
  wp (uwrite va b) (λ _ s', ∃ m', s' = set_mem m' s ∧ wrote s va [b] m') s.
Proof.
  intros Hok Hw Hb. destruct (Hw va) as (Hlow & e & He & Hrw); [lia|].
  unfold wp, uwrite. rewrite He, Hrw. simpl. eexists. split; [done|].
  apply (UserMem.poke_page (active_space s) (Sched.vm (sc s)) va e [b]); [done..|by constructor|].
  change (zlen [b]) with 1. pose proof (Z.mod_pos_bound va PAGE_SIZE eq_refl). lia.
Qed.

Lemma writable_sub s va n a k :
  writable s va n → va ≤ a → a + k ≤ va + n → writable s a k.
Proof. intros Hw Ha Hk x Hx. apply Hw. lia. Qed.
Lemma writable_set_mem s va n a bs m' :
  wrote s a bs m' → writable s va n → writable (set_mem m' s) va n.
Proof.
  intros Hwr Hw x Hx. destruct (Hw x Hx) as (Hlow & e & He & Hrw). split; [done|].
  exists e. by rewrite (wr_lookup _ _ _ _ _ Hwr).
Qed.

Lemma wrote_nil s va : memory_ok s → wrote s va [] (mem s).
Proof.
  intros Hok. unfold wrote. cbv zeta.
  replace (Vmm.set_phys (mem s) _) with (Sched.vm (sc s)) by (by destruct s as [[? ? ? ? ? ? ? ? []] ? ? ?]).
  by apply UserMem.poked_nil.
Qed.

Lemma wrote_cons s va b bs m1 m2 :
  wrote s va [b] m1 → wrote (set_mem m1 s) (va + 1) bs m2 → wrote s va (b :: bs) m2.
Proof. intros W1 W2. exact (UserMem.poked_app _ _ _ [b] _ _ _ W1 W2). Qed.

Lemma wp_uwrite_bytes s va bs :
  memory_ok s → writable s va (zlen bs) → Forall (λ b, 0 ≤ b < 2 ^ 8) bs →
  wp (uwrite_bytes va bs) (λ _ s', ∃ m', s' = set_mem m' s ∧ wrote s va bs m') s.
Proof.
  intros Hok Hw Hbs. revert s va Hok Hw.
  induction Hbs as [|b bs Hb Hbs IH]; intros s va Hok Hw; simpl.
  { wp_run. exists (mem s). split; [by rewrite set_mem_id|by apply wrote_nil]. }
  rewrite zlen_cons in Hw. pose proof (zlen_nonneg bs). wp_step.
  wp_use wp_uwrite; [done|eapply writable_sub; [done|lia..]|done|].
  intros [] s1 (m1 & -> & W1). wp_use (IH (set_mem m1 s) (va + 1)).
  - by eapply wr_ok.
  - eapply writable_set_mem; [exact W1|]. eapply writable_sub; [done|lia..].
  - intros [] s2 (m2 & -> & W2). exists m2. split; [done|]. by eapply wrote_cons.
Qed.
End stores.
End Kernel.
