(* ===== verification/Log.v ===== *)
(** * The kernel's log ([kernel-rs/src/log.rs], [uart.rs])

    A formatted line goes to the serial port, byte by byte with its line ends,
    and, when the window manager has installed its sink, to terminal 0 as
    well.  The line is given as the bytes its format string yields. *)
From S2P Require Import Prelude Lines PageAlloc Mem Vmm Sched Ring Vterm Kbd Kernel.
Import Kernel.

Module Log.
Import Lines.

Definition SINK_MAX : Z := 192.

Section log.
Context {P : Type} `{PageAllocator P}.
(** A sink is installed. *)
Variable mirror : bool.
Implicit Types s : kern P.

Definition putc (c : Z) : M (kern P) unit := modify (uart_out c).
Definition write_bytes (s : list Z) : M (kern P) unit :=
  each (λ b, (if b =? 10 then putc 13 else mret tt);; putc b) s.

(** [Sink], with the bytes kept for the mirror. *)
Definition push_byte (b : Z) (buf : list Z) : M (kern P) (list Z) :=
  putc b;; mret (if zlen buf <? SINK_MAX - 1 then buf ++ [b] else buf).
Fixpoint write_str (s buf : list Z) : M (kern P) (list Z) :=
  match s with
  | [] => mret buf
  | b :: s =>
      buf ← (if b =? 10 then push_byte 13 buf else mret buf);
      buf ← push_byte b buf;
      write_str s buf
  end.
(** The sink, [gui/wm.rs]. *)
Definition term_put (s : list Z) : M (kern P) unit := each (λ b, vt_call (Vterm.putc_vt 0 (u8 b))) s.
Definition klog (s : list Z) : M (kern P) unit :=
  buf ← write_str s [];
  if mirror && (zlen buf >? 0) && utf8_valid buf then term_put buf else mret tt.
(** [klog_info!] *)
Definition klog_info (s : list Z) : M (kern P) unit :=
  klog (str "[info] ");; klog s;; klog [10].

(** ** What a line leaves *)
(** The terminals and the serial line have changed, the terminals only with
    the mirror. *)
Definition logged s s' : Prop := ∃ t,
  s' = mkKern (sc s) (fs s) (Kbd.set_vts t (kb s)) (com1 s') ∧ Vterm.terms_sound t ∧
  (mirror = false → t = Kbd.vts (kb s)).
Lemma logged_refl s : Vterm.terms_sound (Kbd.vts (kb s)) → logged s s.
Proof. intros Ht. exists (Kbd.vts (kb s)). split; [by destruct s as [? ? [] ?]|done]. Qed.
Lemma logged_trans s1 s2 s3 : logged s1 s2 → logged s2 s3 → logged s1 s3.
Proof.
  intros (t & -> & Ht & E) (u & -> & Hu & F). exists u. split; [done|]. split; [done|].
  intros Hm. rewrite F by done. by apply E.
Qed.
Lemma logged_sound s s' : logged s s' → Vterm.terms_sound (Kbd.vts (kb s')).
Proof. by intros (t & -> & Ht & _). Qed.

Lemma wp_write_str_com1 l buf s : wp (write_str l buf) (λ _ s', s' = mkKern (sc s) (fs s) (kb s) (com1 s')) s.
Proof.
  revert buf s. induction l as [|b l IH]; intros buf s; cbn [write_str]; [wp_run; by destruct s|].
  unfold push_byte, putc in *. wp_step.
  destruct (b =? 10); wp_run; (wp_use IH; intros r s2 E2; by rewrite E2).
Qed.
Lemma wp_term_put l s : mirror = true → Vterm.terms_sound (Kbd.vts (kb s)) → wp (term_put l) (λ _, logged s) s.
Proof.
  intros Hm. unfold term_put. revert s. induction l as [|b l IH]; intros s Hs; cbn [each]; [wp_run; by apply logged_refl|].
  wp_step. unfold vt_call, kb_call, Kbd.vt_call. do 2 apply wp_zoom.
  wp_use Vterm.wp_putc_sound; [done|done|by apply Z.mod_pos_bound|]. intros [] t [Ht _]. wp_use IH; [exact Ht|]. intros [] s' H'.
  eapply logged_trans; [|exact H']. exists t. split; [by destruct s as [? ? [] ?]|]. split; [done|]. by rewrite Hm.
Qed.
Lemma wp_klog_sound l s : Vterm.terms_sound (Kbd.vts (kb s)) → wp (klog l) (λ _, logged s) s.
Proof.
  intros Hs. unfold klog. wp_step. wp_use wp_write_str_com1. intros buf s1 E.
  assert (logged s s1) as H1 by (exists (Kbd.vts (kb s)); split; [rewrite E; by destruct s as [? ? [] ?]|done]).
  destruct (mirror && (zlen buf >? 0) && utf8_valid buf) eqn:Hm; [|by wp_run].
  apply andb_true_iff in Hm as [[Hm _]%andb_true_iff _].
  wp_use wp_term_put; [done|by eapply logged_sound|]. intros [] s2 H2. by eapply logged_trans.
Qed.
Lemma wp_klog_info l s : Vterm.terms_sound (Kbd.vts (kb s)) → wp (klog_info l) (λ _, logged s) s.
Proof.
  intros Hs. unfold klog_info. wp_step. wp_use wp_klog_sound; [done|]. intros [] s1 H1.
  wp_step. wp_use wp_klog_sound; [by eapply logged_sound|]. intros [] s2 H2.
  wp_use wp_klog_sound; [by eapply logged_sound|]. intros [] s3 H3.
  eapply logged_trans; [exact H1|by eapply logged_trans].
Qed.
End log.
End Log.
