(* ===== verification/Proc.v ===== *)
(** * Processes ([kernel-rs/src/proc.rs])

    [spawn_elf] builds an address space, loads the image, builds the initial
    user stack and creates the thread; [spawn_path] finds the image in the
    file system. *)
From S2P Require Import Prelude PageAlloc Pmm Mem Vmm UserMem Elf Tmpfs Sched Kernel.

Module Proc.
Import Vmm UserMem Sched.

Definition USER_STACK_TOP : Z := 0x0000700000000000.
Definition USER_STACK_PAGES : Z := 4.
Definition USER_HEAP_BASE : Z := 0x0000600000000000.
Definition ARG_MAX : Z := 16.

Section proc.
Context {P : Type} `{PageAllocator P}.

(** One turn of [while len > 0]; the locals are [(dst, p, len)]. *)
Definition ustack_write_step (space : Z) (src : list Z) (st : Z * Z * Z)
    : M (vmm P) ((Z * Z * Z) + bool) :=
  let '(dst, p, len) := st in
  if len >? 0 then
    pa ← translate space dst;
    if pa =? 0 then mret (inr false)
    else
      let chunk := PAGE_SIZE - Z.land dst (PAGE_SIZE - 1) in
      let chunk := if chunk >? len then len else chunk in
      modify (λ s, set_phys (store_bytes (phys s) pa (slice p chunk src)) s);;
      mret (inl (u64 (dst + chunk), p + chunk, len - chunk))
  else mret (inr true).

Definition ustack_write (space dst : Z) (src : list Z) : M (vmm P) bool :=
  loop (S (length src)) (ustack_write_step space src) (dst, 0, zlen src).

(** [for i in (0..argc).rev()]: the argument strings, top down. *)
Fixpoint push_args (space : Z) (argv : list (list Z)) (n : nat) (sp : Z) (user_argv : list Z)
    : M (vmm P) (option (Z * list Z)) :=
  match n with
  | O => mret (Some (sp, user_argv))
  | S n =>
      bytes ← of_option (argv.[Z.of_nat n]);
      let sp := u64 (sp - (zlen bytes + 1)) in
      ok ← ustack_write space sp bytes;
      if negb ok then mret None
      else
        ok ← ustack_write space (u64 (sp + zlen bytes)) [0];
        if negb ok then mret None
        else push_args space argv n sp (zset user_argv (Z.of_nat n) sp)
  end.

Definition bytemuck_slice (v : list Z) : list Z := v ≫= Kernel.le_bytes 8.

(** The stack pages; [Some (-1)] when one is missing. *)
Definition map_stack (space : Z) : M (vmm P) (option Z) :=
  for_range 0 USER_STACK_PAGES (λ i,
    let va := USER_STACK_TOP - (USER_STACK_PAGES - i) * PAGE_SIZE in
    ok ← fresh_page space va (Z.lor (Z.lor PTE_US PTE_RW) PTE_NX);
    if (ok : bool) then mret None else destroy_space space;; mret (Some (-1))).

(** Strings, then [[argc][argv0..argvN][NULL]]; the entry [rsp], or [None]. *)
Definition build_stack (space : Z) (argv : list (list Z)) : M (vmm P) (option Z) :=
  let argc := Z.min (zlen argv) ARG_MAX in
  r ← push_args space argv (Z.to_nat argc) USER_STACK_TOP (replicate 17 0);
  match r with
  | None => destroy_space space;; mret None
  | Some (sp, user_argv) =>
      let block := Z.land (u64 ((argc + 2) * 8 + 15)) (u64_not 15) in
      let sp := u64 (Z.land sp (u64_not 15) - block) in
      let live := argc :: slice 0 (argc + 1) user_argv in
      ok ← ustack_write space sp (bytemuck_slice live);
      if negb ok then destroy_space space;; mret None
      else mret (Some sp)
  end.

Definition spawn_elf (nm elf_data : list Z) (argv : list (list Z)) : M (sched P) Z :=
  space ← vm_call new_space;
  if space =? 0 then mret (-1)
  else
    entry ← vm_call (Elf.elf_load space elf_data);
    if entry =? 0 then vm_call (destroy_space space);; mret (-1)
    else
      r ← vm_call (map_stack space);
      match r with
      | Some x => mret x
      | None =>
          r ← vm_call (build_stack space argv);
          match r with
          | None => mret (-1)
          | Some sp =>
              tid ← thread_create_user nm entry sp space;
              if tid <? 0 then vm_call (destroy_space space);; mret (-1)
              else
                t ← thread_at tid;
                (match t with
                 | Some _ => update_thread tid (with_brk USER_HEAP_BASE)
                 | None => mret tt
                 end);;
                mret tid
          end
      end.

(** [path.rsplit('/').next()] *)
Fixpoint last_component (acc path : list Z) : list Z :=
  match path with
  | [] => acc
  | c :: path => if Tmpfs.is_slash c then last_component [] path
                 else last_component (acc ++ [c]) path
  end.

Definition spawn_path (path : list Z) (argv : list (list Z)) : M (Kernel.kern P) Z :=
  id ← Kernel.fs_call (Tmpfs.lookup path);
  ty ← (if id <? 0 then mret (-1) else Kernel.fs_call (Tmpfs.node_type id));
  if negb (ty =? Tmpfs.VN_FILE) then mret (-1)
  else
    d ← Kernel.fs_call (Tmpfs.node_data id);
    match d with
    | None => mret (-1)
    | Some [] => mret (-1)
    | Some data =>
        let base := last_component [] path in
        let base := match base with [] => path | _ => base end in
        Kernel.sched_call (spawn_elf base data argv)
    end.
End proc.
End Proc.
