(* ===== verification/Spawn.v ===== *)
(** * What [spawn_elf] builds

    The initial stack of a process, the whole address space and the thread
    that starts in it; and what its end gives back. *)
From stdpp Require Import relations.
From S2P Require Import Prelude PageAlloc Pmm Mem Vmm UserMem Teardown Elf Tmpfs Sched Kernel Proc.

Module Spawn.
Import Vmm UserMem Teardown Proc.

(** ** Writing into an inactive space *)
Section stack.
Context {P : Type} `{PageAllocatorLaws P}.
Context (s0 : vmm P) (space : Z).
Implicit Types (v : vmm P).

Definition mapped v (lo hi : Z) : Prop :=
  ∀ x, lo ≤ x < hi → low_half x ∧ is_Some (lookup_page (phys v) space x).

Lemma mapped_poked v va bs v' lo hi :
  poked space v va bs v' → mapped v lo hi → mapped v' lo hi.
Proof.
  intros Hp Hm x Hx. rewrite (pk_lookup _ _ _ _ _ Hp). by apply Hm.
Qed.
Lemma mapped_sub v lo hi a b : mapped v lo hi → lo ≤ a → b ≤ hi → mapped v a b.
Proof. intros Hm Ha Hb x Hx. apply Hm. lia. Qed.

(** One chunk. *)
Lemma wp_ustack_write_step src v dst p len :
  data_ok space v → within s0 space v → alloc_inv (allocator s0) →
  Forall (λ b, 0 ≤ b < 2 ^ 8) src →
  0 ≤ p → 0 < len → p + len = zlen src → mapped v dst (dst + len) →
  wp (ustack_write_step space src (dst, p, len)) (λ r v', ∃ chunk, 0 < chunk ≤ len ∧
    r = inl (dst + chunk, p + chunk, len - chunk) ∧
    poked space v dst (slice p chunk src) v') v.
Proof.
  intros Hd W Hs0 Hsrc Hp Hlen Htot Hm. unfold ustack_write_step.
  destruct (Hm dst) as [Hlow [e He]]; [lia|].
  destruct (Hm (dst + len - 1)) as [Hend _]; [lia|]. unfold low_half in *.
  rewrite Z.gtb_ltb, (proj2 (Z.ltb_lt 0 len)) by lia. wp_step.
  wp_use wp_translate; [apply Hd|by apply user_va_half|]. intros pa v' [-> ->].
  rewrite He, page_offset. fold (page_frame e).
  pose proof (wi_data _ _ _ W dst e Hlow He) as Hav.
  apply avail_page in Hav; [|done]. apply phys_page_bounds in Hav.
  pose proof (Z.mod_pos_bound dst PAGE_SIZE eq_refl) as Hoff.
  rewrite (proj2 (Z.eqb_neq (page_frame e + _) 0)) by lia. cbv zeta.
  set (chunk := if PAGE_SIZE - dst mod PAGE_SIZE >? len then len else PAGE_SIZE - dst mod PAGE_SIZE).
  assert (0 < chunk ≤ len ∧ dst mod PAGE_SIZE + chunk ≤ PAGE_SIZE) as [Hc Hfit].
  { unfold chunk. rewrite Z.gtb_ltb. destruct (Z.ltb_spec len (PAGE_SIZE - dst mod PAGE_SIZE)); lia. }
  wp_run. exists chunk. split; [done|]. rewrite u64_id by lia. split; [done|].
  assert (zlen (slice p chunk src) = chunk) as Hsl by (apply zlen_slice; lia).
  apply poke_page; [done|done|done|by apply Forall_take, Forall_drop|lia].
Qed.

Lemma take_slice (l : list Z) p n :
  0 ≤ p → 0 ≤ n → p + n ≤ zlen l →
  take (Z.to_nat p) l ++ slice p n l = take (Z.to_nat (p + n)) l.
Proof.
  intros Hp Hn Hl. unfold slice. rewrite Z2Nat.inj_add by done. by rewrite take_take_drop.
Qed.

Lemma wp_ustack_write dst src v :
  data_ok space v → within s0 space v → alloc_inv (allocator s0) →
  Forall (λ b, 0 ≤ b < 2 ^ 8) src → mapped v dst (dst + zlen src) →
  wp (ustack_write space dst src) (λ r v', r = true ∧ poked space v dst src v') v.
Proof.
  intros Hd W Hs0 Hsrc Hm. pose proof (zlen_nonneg src) as Hl0. unfold ustack_write.
  apply (wp_loop (λ '(d, p, len) v', 0 ≤ p ∧ 0 ≤ len ∧ p + len = zlen src ∧ d = dst + p ∧
      poked space v dst (take (Z.to_nat p) src) v') (λ '(_, _, len), Z.to_nat len)).
  { split_and!; [done|done|lia|lia|]. by apply poked_nil. }
  { unfold zlen. lia. }
  intros [[d p] len] v1 (Hp & Hlen & Htot & -> & Hpk).
  assert (zlen (take (Z.to_nat p) src) = p) as Htp by (rewrite zlen_take; lia).
  destruct (decide (len = 0)) as [->|Hne].
  { unfold ustack_write_step. cbn [Z.gtb Z.compare]. wp_run. split; [done|].
    rewrite take_ge in Hpk by (unfold zlen in *; lia). done. }
  wp_use wp_ustack_write_step; [apply Hpk|by apply Hpk|done|done|done|lia|done| |].
  { eapply mapped_sub; [by eapply mapped_poked|lia|lia]. }
  intros r v2 (chunk & Hc & -> & Hpk2). split; [|lia].
  split_and!; [lia|lia|lia|lia|]. rewrite <- take_slice by lia.
  eapply poked_app; [exact Hpk|]. by rewrite Htp.
Qed.

(** ** The argument strings *)
Definition strings (argv : list (list Z)) : list Z := concat ((λ a, a ++ [0]) <$> argv).

Lemma strings_snoc l a : strings (l ++ [a]) = strings l ++ (a ++ [0]).
Proof. unfold strings. rewrite fmap_app, concat_app. simpl. by rewrite app_nil_r. Qed.
Lemma strings_app l l' : strings (l ++ l') = strings l ++ strings l'.
Proof. unfold strings. by rewrite fmap_app, concat_app. Qed.
Lemma strings_bytes l :
  Forall (Forall (λ b, 0 ≤ b < 2 ^ 8)) l → Forall (λ b, 0 ≤ b < 2 ^ 8) (strings l).
Proof.
  intros Hl. unfold strings. induction Hl as [|a l Ha Hl IH]; simpl; [done|].
  apply Forall_app. split; [|done]. apply Forall_app. split; [done|by constructor].
Qed.

(** The first [n] of [argv] below [sp]: pointer [i] is where the strings from
    [i] on begin. *)
Definition arg_ptr (argv : list (list Z)) (sp i : Z) : Z :=
  sp - zlen (strings (drop (Z.to_nat i) argv)).

Lemma wp_push_args argv n sp ua v :
  data_ok space v → within s0 space v → alloc_inv (allocator s0) →
  Forall (Forall (λ b, 0 ≤ b < 2 ^ 8)) argv → (n ≤ length argv)%nat → (n ≤ length ua)%nat →
  mapped v (sp - zlen (strings (take n argv))) sp → 0 ≤ sp - zlen (strings (take n argv)) →
  sp < 2 ^ 64 →
  wp (push_args space argv n sp ua) (λ r v', ∃ ua',
    r = Some (sp - zlen (strings (take n argv)), ua') ∧
    poked space v (sp - zlen (strings (take n argv))) (strings (take n argv)) v' ∧
    zlen ua' = zlen ua ∧
    (∀ i, 0 ≤ i < Z.of_nat n → zget ua' i = Some (arg_ptr (take n argv) sp i)) ∧
    (∀ i, Z.of_nat n ≤ i → zget ua' i = zget ua i)) v.
Proof.
  intros Hd W Hs0 Hbytes. revert sp ua v Hd W.
  induction n as [|n IH]; intros sp ua v Hd W Hn Hua Hm Hsp Hhi; cbn [push_args].
  { wp_run. exists ua. change (strings (take 0 argv)) with (@nil Z).
    change (zlen []) with 0. rewrite Z.sub_0_r.
    split_and!; [done|by apply poked_nil|done|lia|done]. }
  destruct (lookup_lt_is_Some_2 argv n) as [a Ha]; [lia|].
  assert (zget argv (Z.of_nat n) = Some a) as Hza.
  { unfold zget. rewrite decide_True by lia. by rewrite Nat2Z.id. }
  rewrite (take_S_r _ _ a Ha), strings_snoc in *.
  assert (zlen (strings (take n argv) ++ a ++ [0]) =
          zlen (strings (take n argv)) + (zlen a + 1)) as Hzl
    by (rewrite !zlen_app; change (zlen [0]) with 1; lia).
  rewrite Hzl in *. pose proof (zlen_nonneg a) as Ha0.
  pose proof (zlen_nonneg (strings (take n argv))) as Hs.
  assert (Forall (λ b, 0 ≤ b < 2 ^ 8) a) as Hab by (by eapply Forall_lookup_1).
  wp_step. apply wp_of_option. exists a. split; [done|]. cbv zeta.
  rewrite !(u64_id (sp - _)) by lia. set (sp1 := sp - (zlen a + 1)) in *. wp_step.
  wp_use wp_ustack_write; [done|done|done|done|eapply mapped_sub; [done|lia|lia]|].
  intros b v1 [-> Hp1]. cbn [negb]. rewrite u64_id by lia. wp_step.
  wp_use wp_ustack_write; [apply Hp1|by apply Hp1|done|by constructor| |].
  { eapply mapped_sub; [by eapply mapped_poked|lia|change (zlen [0]) with 1; lia]. }
  intros b v2 [-> Hp2]. cbn [negb].
  pose proof (poked_app _ _ _ _ _ _ _ Hp1 Hp2) as Hp12.
  wp_use IH; [apply Hp12|by apply Hp12|lia| | |lia|lia|].
  { unfold zset. rewrite length_insert. lia. }
  { eapply mapped_sub; [by eapply mapped_poked|lia|lia]. }
  intros r v3 (ua' & -> & Hp3 & Hzua & Hlow & Hhigh). exists ua'.
  replace (sp - (zlen (strings (take n argv)) + (zlen a + 1)))
    with (sp1 - zlen (strings (take n argv))) by lia.
  split_and!; [done|by eapply poked_below| | |].
  - by rewrite Hzua, zlen_zset.
  - intros i Hi. assert (Z.of_nat n < zlen ua) as Hnl by (unfold zlen; lia).
    unfold arg_ptr. destruct (decide (i = Z.of_nat n)) as [->|Hne].
    + rewrite Hhigh, zget_zset_eq by lia. rewrite Nat2Z.id, drop_app_ge by (rewrite length_take; lia).
      rewrite length_take. replace (n - n `min` length argv)%nat with 0%nat by lia.
      cbn [drop]. change (strings [a]) with ((a ++ [0]) ++ []). rewrite app_nil_r, zlen_app. done.
    + rewrite Hlow by lia. f_equal. unfold arg_ptr.
      rewrite drop_app_le by (rewrite length_take; lia). rewrite strings_snoc, !zlen_app.
      change (zlen [0]) with 1. unfold sp1. lia.
  - intros i Hi. rewrite Hhigh by lia. apply zget_zset_ne; lia.
Qed.
End stack.

(** ** The space before anything is loaded *)
Section build.
Context {P : Type} `{PageAllocatorLaws P}.
Implicit Types (v : vmm P).

(** A fresh space has nothing in its lower half. *)
Lemma fresh_empty k a v v' : fresh_root k a v v' → Elf.unmapped a (λ _, True) v' ∧ data_ok a v'.
Proof.
  intros [_ Hok _ _ Hl Ht _ _ Hent].
  assert (∀ va, low_half va → lookup_page (phys v') a va = None) as Hno.
  { intros va Hva. rewrite Hl. by rewrite decide_True by (by apply user_va_half). }
  split; [intros va Hva _; unfold Elf.page_rights; by rewrite Hno|]. split; [done| | |].
  - intros va e Hva. by rewrite Hno.
  - intros va1 va2 e1 e2 H1 H2. by rewrite Hno.
  - intros p i t Hv Hu Hd. pose proof (valid_prefix _ _ Hv) as [Hp Hi].
    assert (t = a) as -> by (eapply Ht; [done|by eapply user_prefix|done]).
    assert (p = []) as ->.
    { eapply (so_inj _ _ Hok); [done|by eapply user_prefix| |done|done].
      by split; [simpl; lia|constructor]. }
    simpl in Hu. unfold huge. by rewrite Hent by lia.
Qed.
Lemma wp_empty_space v :
  space_ok (kernel_space v) v →
  wp new_space (λ a v', (a = 0 ∧ v' = v ∧ Elf.exhausted v) ∨
    (0 < a ∧ data_ok a v' ∧ within v a v' ∧ avail (allocator v) a ∧
     Elf.unmapped a (λ _, True) v' ∧
     ∀ b, avail (allocator v) b → avail (allocator v') b ∨ owned (phys v') a b)) v.
Proof.
  intros Hk. wp_use wp_new_space; [done|]. intros a v' [(-> & -> & Hno)|[Hav Hf]]; [by left|right].
  pose proof (avail_page _ _ (so_alloc _ _ Hk) Hav) as Hpb%phys_page_bounds.
  destruct (fresh_empty _ _ _ _ Hf) as [Hun Hd]. destruct Hf as [_ Hok Hc Hks Hl Ht Hmem Hav' Hent].
  split_and!; [lia|done| |done|done|].
  - split; [done|done| | | |].
    + intros b [Hb _]%Hav'. done.
    + intros p t Hp Hu Hd'. by rewrite (Ht p t Hp Hu Hd').
    + intros va e Hva. rewrite Hl. by rewrite decide_True by (by apply user_va_half).
    + intros x Hx. apply Hmem. by apply Hx.
  - intros b Hb. destruct (decide (b = a)) as [->|Hne]; [right; left|left; by apply Hav'].
    exists []. split; [split; [simpl; lia|constructor]|done].
Qed.

(** ** The stack pages *)
Definition STACK_BOTTOM : Z := USER_STACK_TOP - USER_STACK_PAGES * PAGE_SIZE.
Definition stack_flags : Z := Z.lor (Z.lor PTE_US PTE_RW) PTE_NX.
Definition no_stack space v : Prop := ∀ x, STACK_BOTTOM ≤ x < USER_STACK_TOP →
  lookup_page (phys v) space x = None.

Lemma wp_map_stack v0 space v :
  data_ok space v → within v0 space v → alloc_inv (allocator v0) →
  wp (map_stack space) (λ r v',
    match r with
    | None => zero_pages space STACK_BOTTOM USER_STACK_TOP stack_flags v v' ∧
              (no_stack space v → keeps space v v')
    | Some x => x = -1 ∧ ∃ v1, data_ok space v1 ∧ within v0 space v1 ∧ Elf.exhausted v1 ∧
                (no_stack space v → ∃ a, keeps_but space a v v1) ∧
                freed (owned (phys v1) space) v1 v'
    end) v.
Proof.
  intros Hd W H0'. unfold map_stack. set (at_ := λ i, USER_STACK_TOP - (USER_STACK_PAGES - i) * PAGE_SIZE).
  apply (wp_for_range (λ i v', zero_pages space STACK_BOTTOM (at_ i) stack_flags v v' ∧
    (no_stack space v → keeps space v v'))).
  - done.
  - split; [by apply zero_pages_none|by intros _ b].
  - intros i v1 Hi [Hz Hk]. fold (at_ i). pose proof (zp_ok _ _ _ _ _ _ Hz) as Hd1.
    assert (STACK_BOTTOM ≤ at_ i ∧ at_ i < USER_STACK_TOP ∧ at_ i mod PAGE_SIZE = 0 ∧
            at_ (i + 1) = at_ i + PAGE_SIZE) as (B1 & B2 & B3 & B4).
    { unfold at_, STACK_BOTTOM, USER_STACK_PAGES, USER_STACK_TOP, PAGE_SIZE in *. dlia. }
    assert (low_half (at_ i)) as Hlow.
    { unfold low_half. change STACK_BOTTOM with 123145302294528 in B1.
      change USER_STACK_TOP with 123145302310912 in B2. lia. }
    wp_step. wp_use wp_fresh_page; [done|done|done|done|]. intros ok v2 Hadd.
    destruct ok; wp_run.
    + rewrite B4. split; [by eapply zero_pages_more|]. intros Hno.
      eapply zero_pages_keeps; [exact Hz|done|apply Hno; lia|exact Hadd|by apply Hk].
    + pose proof (zero_pages_stop _ _ _ _ _ _ _ Hz Hadd) as Hz2.
      pose proof (zp_ok _ _ _ _ _ _ Hz2) as Hd2.
      wp_use wp_destroy_within; [done|by apply (zp_within _ _ _ _ _ _ Hz2)|done|].
      intros [] v3 Hf. wp_run. split; [done|]. exists v2.
      split_and!; [done|by apply (zp_within _ _ _ _ _ _ Hz2)| | |done].
      { exact (pa_fail _ _ _ _ _ _ Hadd eq_refl). }
      intros Hno. destruct (pa_lost _ _ _ _ _ _ Hadd eq_refl) as [a Ha]. exists a.
      eapply keeps_but_trans; [by apply Hk|done].
  - intros v1 [Hz Hk]. unfold at_ in Hz. rewrite Z.sub_diag, Z.mul_0_l, Z.sub_0_r in Hz. done.
Qed.
End build.

(** ** The initial stack *)
Definition stack_args (argv : list (list Z)) : list (list Z) := take 16 argv.
Definition strings_at (argv : list (list Z)) : Z :=
  USER_STACK_TOP - zlen (strings (stack_args argv)).
(** [argc], the pointers to the strings, NULL. *)
Definition arg_words (argv : list (list Z)) : list Z :=
  let args := stack_args argv in
  zlen args :: (arg_ptr args USER_STACK_TOP <$> seqZ 0 (zlen args)) ++ [0].
Definition initial_sp (argv : list (list Z)) : Z :=
  strings_at argv / 16 * 16 - ((zlen (stack_args argv) + 2) * 8 + 15) / 16 * 16.

(** What the process finds in its stack pages. *)
Definition stack_byte (argv : list (list Z)) (x : Z) : Z :=
  match zget (bytemuck_slice (arg_words argv)) (x - initial_sp argv) with
  | Some b => b
  | None => default 0 (zget (strings (stack_args argv)) (x - strings_at argv))
  end.

Record args_ok (argv : list (list Z)) : Prop := {
  ao_bytes : Forall (Forall (λ b, 0 ≤ b < 2 ^ 8)) argv;
  ao_fit : zlen (strings (stack_args argv)) + 174 ≤ USER_STACK_PAGES * PAGE_SIZE;
}.

Lemma align16 x : 0 ≤ x < 2 ^ 64 → Z.land x (u64_not 15) = x / 16 * 16.
Proof.
  intros Hx. change 15 with (2 ^ 4 - 1). rewrite land_not_ones by lia.
  change (2 ^ 4) with 16. pose proof (Z.div_mod x 16). lia.
Qed.

Lemma le_bytes_ok n v : zlen (Kernel.le_bytes n v) = Z.of_nat n ∧ Forall (λ b, 0 ≤ b < 2 ^ 8) (Kernel.le_bytes n v).
Proof.
  unfold Kernel.le_bytes. split.
  - apply zlen_load_bytes. lia.
  - apply load_bytes_range, mem_ok_store. intros x. lia.
Qed.
Lemma bytemuck_ok v :
  zlen (bytemuck_slice v) = 8 * zlen v ∧ Forall (λ b, 0 ≤ b < 2 ^ 8) (bytemuck_slice v).
Proof.
  unfold bytemuck_slice. induction v as [|x v [IH1 IH2]]; [done|].
  destruct (le_bytes_ok 8 x) as [L1 L2]. rewrite bind_cons. split.
  - autorewrite with zlen. rewrite L1, IH1. lia.
  - by apply Forall_app.
Qed.

Lemma zlen_seqZ_fmap (f : Z → Z) n : 0 ≤ n → zlen (f <$> seqZ 0 n) = n.
Proof. intros Hn. unfold zlen. rewrite length_fmap, length_seqZ. lia. Qed.
Lemma zget_seqZ_fmap (f : Z → Z) n i : 0 ≤ i < n → zget (f <$> seqZ 0 n) i = Some (f i).
Proof.
  intros Hi. unfold zget. rewrite decide_True by lia. rewrite list_lookup_fmap.
  rewrite lookup_seqZ_lt by lia. simpl. do 2 f_equal. lia.
Qed.

(** The words the loop over the arguments leaves in [user_argv]. *)
Lemma live_words (argv : list (list Z)) ua :
  let args := stack_args argv in
  zlen ua = 17 → zlen args ≤ 16 →
  (∀ i, 0 ≤ i < zlen args → zget ua i = Some (arg_ptr args USER_STACK_TOP i)) →
  (∀ i, zlen args ≤ i → zget ua i = zget (replicate 17 0) i) →
  zlen args :: slice 0 (zlen args + 1) ua = arg_words argv.
Proof.
  intros args Hl Hn Hlow Hhigh. pose proof (zlen_nonneg args) as H0.
  unfold arg_words. fold args. f_equal.
  assert (zlen (slice 0 (zlen args + 1) ua) = zlen args + 1) as Hs by (apply zlen_slice; lia).
  apply list_eq_zget.
  { autorewrite with zlen. rewrite Hs, zlen_seqZ_fmap by done. done. }
  intros i. rewrite Hs. intros Hi. rewrite zget_slice by lia. rewrite Z.add_0_l.
  destruct (decide (i = zlen args)) as [->|Hne].
  - rewrite Hhigh by lia. rewrite zget_app_r by (rewrite zlen_seqZ_fmap; lia).
    rewrite zlen_seqZ_fmap, Z.sub_diag by done. rewrite zget_replicate. by rewrite decide_True by lia.
  - rewrite Hlow by lia. rewrite zget_app_l by (rewrite zlen_seqZ_fmap; lia).
    by rewrite zget_seqZ_fmap by lia.
Qed.

Section stack_built.
Context {P : Type} `{PageAllocatorLaws P}.
Implicit Types (v : vmm P).

Lemma sp_bounds argv :
  args_ok argv →
  STACK_BOTTOM ≤ initial_sp argv ∧ initial_sp argv mod 16 = 0 ∧
  initial_sp argv + 8 * (zlen (stack_args argv) + 2) ≤ strings_at argv ∧
  0 ≤ zlen (stack_args argv) ≤ 16 ∧ strings_at argv ≤ USER_STACK_TOP.
Proof.
  intros [_ Hfit]. pose proof (zlen_nonneg (strings (stack_args argv))) as Hs.
  assert (0 ≤ zlen (stack_args argv) ≤ 16) as Hn.
  { unfold stack_args, zlen. rewrite length_take. lia. }
  unfold STACK_BOTTOM, initial_sp, strings_at, USER_STACK_TOP, USER_STACK_PAGES, PAGE_SIZE in *.
  split_and!; dlia.
Qed.

Lemma wp_build_stack v0 space argv v :
  data_ok space v → within v0 space v → alloc_inv (allocator v0) → args_ok argv →
  mapped space v STACK_BOTTOM USER_STACK_TOP →
  wp (build_stack space argv) (λ r v', r = Some (initial_sp argv) ∧ ∃ v1,
    poked space v (strings_at argv) (strings (stack_args argv)) v1 ∧
    poked space v1 (initial_sp argv) (bytemuck_slice (arg_words argv)) v') v.
Proof.
  intros Hd W H0' Ha Hm. pose proof (sp_bounds argv Ha) as (B1 & B2 & B3 & B4 & B5).
  pose proof Ha as [Hbytes Hfit]. pose proof (zlen_nonneg (strings (stack_args argv))) as Hs.
  unfold build_stack, ARG_MAX.
  assert (Z.min (zlen argv) 16 = zlen (stack_args argv)) as ->.
  { unfold stack_args, zlen. rewrite length_take. lia. }
  assert (take (Z.to_nat (zlen (stack_args argv))) argv = stack_args argv) as Htake.
  { unfold zlen, stack_args. rewrite Nat2Z.id, length_take.
    destruct (Nat.le_ge_cases 16 (length argv)).
    - by rewrite Nat.min_l by done.
    - rewrite Nat.min_r by done. by rewrite !take_ge by lia. }
  cbv zeta. wp_step. wp_use (wp_push_args v0 space argv); [done|done|done|done| | | | | |].
  - unfold zlen, stack_args. rewrite length_take. lia.
  - rewrite length_replicate. lia.
  - rewrite Htake. eapply mapped_sub; [exact Hm|unfold strings_at in *; lia|done].
  - rewrite Htake. change USER_STACK_TOP with 123145302310912.
    unfold USER_STACK_PAGES, PAGE_SIZE in Hfit. lia.
  - done.
  - rewrite Htake. fold (strings_at argv).
    intros r v1 (ua & -> & Hp1 & Hzua & Hlow & Hhigh). cbv iota.
    assert (0 ≤ STACK_BOTTOM ∧ USER_STACK_TOP < 2 ^ 47) as [Hb0 Hb1] by done.
    rewrite (align16 (strings_at argv)) by lia.
    rewrite (u64_id ((zlen (stack_args argv) + 2) * 8 + 15)) by lia. rewrite align16 by lia.
    assert (u64 (strings_at argv / 16 * 16 - ((zlen (stack_args argv) + 2) * 8 + 15) / 16 * 16) =
      initial_sp argv) as -> by (apply u64_id; unfold initial_sp in *; lia).
    rewrite live_words; [|by rewrite Hzua|lia|intros i Hi; apply Hlow; lia|intros i Hi; apply Hhigh; lia].
    destruct (bytemuck_ok (arg_words argv)) as [Hbl Hbb].
    assert (zlen (arg_words argv) = zlen (stack_args argv) + 2) as Hwl.
    { unfold arg_words. cbv zeta. autorewrite with zlen. rewrite zlen_seqZ_fmap by lia.
      change (zlen (@nil Z)) with 0. lia. }
    wp_step. wp_use (wp_ustack_write v0); [apply Hp1|by apply Hp1|done|done| |].
    { eapply mapped_sub; [by eapply mapped_poked|lia|lia]. }
    intros ok v2 [-> Hp2]. cbn [negb]. wp_run. split; [done|]. by exists v1.
Qed.
End stack_built.
(** ** The address space of the new process *)

(** No two segments share a page, and none lies in the stack. *)
Definition tidy (data : list Z) : Prop :=
  Elf.segments_apart data ∧
  ∀ x, STACK_BOTTOM ≤ x < USER_STACK_TOP →
    Elf.owner data (Z.to_nat (Elf.e_phnum (Elf.read_ehdr data))) x = None.

Section image.
Context {P : Type} `{PageAllocatorLaws P}.
Context (data : list Z) (argv : list (list Z)).
Implicit Types (v : vmm P).

Let owner_of (x : Z) := Elf.owner data (Z.to_nat (Elf.e_phnum (Elf.read_ehdr data))) x.

(** The stack over the segments, and nothing else. *)
Record process_image (space : Z) v : Prop := {
  pi_ok : data_ok space v;
  pi_bytes x : low_half x → user_byte (phys v) space x =
    if decide (STACK_BOTTOM ≤ x < USER_STACK_TOP) then Some (stack_byte argv x)
    else (λ ph, Elf.seg_content data ph x) <$> owner_of x;
  pi_rights x : low_half x → Elf.page_rights (phys v) space x =
    if decide (STACK_BOTTOM ≤ x < USER_STACK_TOP) then Some (true, true, true)
    else Elf.asked_rights <$> owner_of x;
}.

Lemma unmapped_byte v space Q x :
  Elf.unmapped space Q v → low_half x → Q x → user_byte (phys v) space x = None.
Proof.
  intros Hu Hx HQ. unfold user_byte. by rewrite (Elf.unmapped_lookup space Q v x Hu Hx HQ).
Qed.

Lemma stack_zero_rights v v' space x :
  zero_pages space STACK_BOTTOM USER_STACK_TOP stack_flags v v' → low_half x →
  Elf.page_rights (phys v') space x =
    if decide (STACK_BOTTOM ≤ x < USER_STACK_TOP) then Some (true, true, true)
    else Elf.page_rights (phys v) space x.
Proof.
  intros Hz Hx. unfold Elf.page_rights. case_decide as Hin.
  - destruct (zp_entry _ _ _ _ _ _ Hz x Hx Hin) as (e & -> & Hbits). simpl.
    unfold Elf.rights. by rewrite !Hbits by lia.
  - by rewrite (zp_others _ _ _ _ _ _ Hz).
Qed.

Lemma image_built space v1 v2 v3 v4 v5 :
  args_ok argv → Elf.unmapped space (λ _, True) v1 →
  Elf.shows_image space data (Z.to_nat (Elf.e_phnum (Elf.read_ehdr data))) v1 v2 →
  zero_pages space STACK_BOTTOM USER_STACK_TOP stack_flags v2 v3 →
  poked space v3 (strings_at argv) (strings (stack_args argv)) v4 →
  poked space v4 (initial_sp argv) (bytemuck_slice (arg_words argv)) v5 →
  process_image space v5.
Proof.
  intros Ha Hu Hs Hz Hp4 Hp5. pose proof (sp_bounds argv Ha) as (B1 & B2 & B3 & B4 & B5).
  assert (zlen (bytemuck_slice (arg_words argv)) = 8 * (zlen (stack_args argv) + 2)) as Hwl.
  { rewrite (proj1 (bytemuck_ok _)). unfold arg_words. cbv zeta. autorewrite with zlen.
    rewrite zlen_seqZ_fmap by lia. change (zlen (@nil Z)) with 0. lia. }
  split.
  - apply Hp5.
  - intros x Hx. rewrite (pk_bytes _ _ _ _ _ Hp5), (pk_bytes _ _ _ _ _ Hp4), (zp_bytes _ _ _ _ _ _ Hz) by done.
    case_decide as Hin.
    + unfold stack_byte. destruct (zget (bytemuck_slice _) _); [done|].
      by destruct (zget (strings _) _).
    + rewrite (proj2 (zget_None (bytemuck_slice _) _)) by (rewrite Hwl; lia).
      rewrite (proj2 (zget_None (strings _) _)) by (unfold strings_at in *; lia).
      specialize (Hs x Hx). fold (owner_of x) in Hs. destruct (owner_of x) as [ph|]; simpl.
      * apply Hs.
      * destruct Hs as [-> _]. by apply (unmapped_byte v1 space (λ _, True)).
  - intros x Hx. unfold Elf.page_rights at 1.
    rewrite (pk_lookup _ _ _ _ _ Hp5), (pk_lookup _ _ _ _ _ Hp4).
    fold (Elf.page_rights (phys v3) space x). rewrite (stack_zero_rights v2 v3) by done.
    case_decide; [done|]. specialize (Hs x Hx). fold (owner_of x) in Hs.
    destruct (owner_of x) as [ph|]; simpl; destruct Hs as [_ ->]; [done|by apply Hu].
Qed.

(** Nothing is where the stack goes. *)
Lemma image_no_stack space v1 v2 :
  tidy data → Elf.unmapped space (λ _, True) v1 →
  Elf.shows_image space data (Z.to_nat (Elf.e_phnum (Elf.read_ehdr data))) v1 v2 →
  no_stack space v2.
Proof.
  intros [_ Hno] Hu Hs x Hx. assert (low_half x) as Hlow.
  { assert (0 ≤ STACK_BOTTOM ∧ USER_STACK_TOP < 2 ^ 47) by done. unfold low_half. lia. }
  specialize (Hs x Hlow). rewrite Hno in Hs by done. destruct Hs as [_ Hr].
  rewrite Hu in Hr by done. unfold Elf.page_rights in Hr. by destruct (lookup_page _ _ _).
Qed.

(** Taking further pages leaves the image alone. *)
Lemma process_image_alloc space v q :
  process_image space v → alloc_inv q → (∀ b, avail q b → avail (allocator v) b) →
  process_image space (set_allocator q v).
Proof.
  intros [[[A1 A2 A3 A4] B2 B3 B4] I2 I3] Hq Hsub. split; [|done|done]. split; [|..|done|done].
  - split; [done|done| |done]. intros p t Hp Ht. destruct (A3 p t Hp Ht) as [? Hn].
    split; [done|]. intros Ha. by apply Hn, Hsub.
  - intros va e Hva He. destruct (B2 va e Hva He) as [F1 F2 F3]. split; [done| |done].
    intros Ha. by apply F2, Hsub.
Qed.
End image.
(** ** Spawning *)
Section spawning.
Context {P : Type} `{PageAllocatorLaws P}.
Context (nm data : list Z) (argv : list (list Z)).
Implicit Types (s : Sched.sched P) (v : vmm P).

Definition no_run v : Prop := ∀ b, ¬ ∀ c, Sched.stack_page b c → avail (allocator v) c.
(** Of the pages [v] had, [v1] has all that are not in [space], but for one. *)
Definition one_lost space v v1 : Prop := ∃ lost, ∀ b, avail (allocator v) b →
  b = lost ∨ avail (allocator v1) b ∨ owned (phys v1) space b.
(** The kernel stack does not fit, at once or next to what was built. *)
Definition starved v : Prop := no_run v ∨ ∃ space v1,
  data_ok space v1 ∧ within v space v1 ∧ no_run v1 ∧ (tidy data → one_lost space v v1).

Record spawn_failed s s' : Prop := {
  sf_ok : Sched.sched_ok s' ∧ Sched.mem_inv s';
  sf_only : only_free (Sched.vm s) (Sched.vm s');
  sf_cur : Sched.current_idx s' = Sched.current_idx s;
  sf_threads : Sched.threads s' = Sched.threads s ∨ ∃ i, Sched.first_unused s = Some i ∧
    Sched.threads s' = zset (Sched.threads s) i (Sched.user_thread_slot i nm);
  sf_pages : tidy data → ∃ lost, ∀ b, Sched.page_set s b → b = lost ∨ Sched.page_set s' b;
  sf_why : Sched.first_unused s = None ∨ starved (Sched.vm s);
}.

Record spawned s r space pa s' : Prop := {
  sd_ok : Sched.sched_ok s' ∧ Sched.mem_inv s';
  sd_slot : Sched.first_unused s = Some r;
  sd_cur : Sched.current_idx s' = Sched.current_idx s;
  sd_threads : Sched.threads s' = zset (Sched.threads s) r (Sched.with_brk USER_HEAP_BASE
    (Sched.user_thread s r nm (Elf.e_entry (Elf.read_ehdr data)) (initial_sp argv) space pa));
  sd_only : only_free (Sched.vm s) (Sched.vm s');
  sd_space : 0 < space ∧ 0 < pa;
  sd_image : process_image data argv space (Sched.vm s');
  sd_own b : owned (phys (Sched.vm s')) space b ∨ Sched.stack_page pa b →
    Sched.page_set s b ∧ ¬ Sched.page_set s' b;
  sd_apart b : owned (phys (Sched.vm s')) space b → ¬ Sched.stack_page pa b;
  sd_pages b : tidy data → Sched.page_set s b →
    Sched.page_set s' b ∨ owned (phys (Sched.vm s')) space b ∨ Sched.stack_page pa b;
}.

Lemma exhausted_no_run v : Elf.exhausted v → no_run v.
Proof. intros Hx b Hb. apply (Hx b), Hb. exists 0. lia. Qed.

Lemma owned_used space v b : data_ok space v → owned (phys v) space b → ¬ avail (allocator v) b.
Proof.
  intros Hd [(p & Hp & Hu & Ht)|(va & e & Hva & He & ->)].
  - by destruct (so_table _ _ (do_space _ _ Hd) p b Hp Ht).
  - by destruct (do_frame _ _ Hd va e Hva He).
Qed.

(** After [destroy_space] on the way out. *)
Lemma gave_up s s' space v1 :
  data_ok space v1 → within (Sched.vm s) space v1 →
  freed (owned (phys v1) space) v1 (Sched.vm s') →
  Sched.sched_ok s' → Sched.current_idx s' = Sched.current_idx s →
  (Sched.threads s' = Sched.threads s ∨ ∃ i, Sched.first_unused s = Some i ∧
    Sched.threads s' = zset (Sched.threads s) i (Sched.user_thread_slot i nm)) →
  Sched.first_unused s = None ∨ no_run v1 →
  (tidy data → one_lost space (Sched.vm s) v1) → spawn_failed s s'.
Proof.
  intros Hd W Hf Hok Hc Ht Hwhy Hl. pose proof Hf as (_ & _ & _ & Hinv & Hav).
  split; [by split|by eapply only_free_freed|done|done| |].
  - intros T. destruct (Hl T) as [lost Hlost]. exists lost. intros b Hb.
    destruct (Hlost b Hb) as [|Hb']; [by left|right]. by apply Hav.
  - destruct Hwhy as [|Hr]; [by left|]. right. right. by exists space, v1.
Qed.

Lemma wp_start_thread s space v sp :
  Sched.sched_ok s → Sched.mem_inv s → 0 < space → within (Sched.vm s) space v →
  process_image data argv space v → sp = initial_sp argv →
  (tidy data → ∀ b, avail (allocator (Sched.vm s)) b → avail (allocator v) b ∨ owned (phys v) space b) →
  wp (tid ← Sched.thread_create_user nm (Elf.e_entry (Elf.read_ehdr data)) sp space;
      if tid <? 0 then Sched.vm_call (destroy_space space);; mret (-1)
      else
        t ← Sched.thread_at tid;
        (match t with
         | Some _ => Sched.update_thread tid (Sched.with_brk USER_HEAP_BASE)
         | None => mret tt
         end);;
        mret tid)
    (λ r s', (r = -1 ∧ spawn_failed s s') ∨ ∃ space pa, spawned s r space pa s')
    (Sched.set_vm v s).
Proof.
  intros Hok Hm Hsp W Hi -> Hk. pose proof (pi_ok _ _ _ _ Hi) as Hd.
  pose proof (so_alloc _ _ (do_space _ _ Hd)) as Hv.
  wp_step. wp_use Sched.wp_thread_create_user; [by apply Sched.sched_ok_vm|done|].
  change (Sched.first_unused (Sched.set_vm v s)) with (Sched.first_unused s).
  intros r s' (Hok' & Hm' & Hr).
  assert (tidy data → one_lost space (Sched.vm s) v) as Hone.
  { intros T. exists 0. intros b Hb. right. by apply Hk. }
  destruct (Sched.first_unused s) as [i|] eqn:Hf.
  2: { destruct Hr as [-> ->]. cbn [Z.ltb Z.compare]. unfold Sched.vm_call. wp_run.
       wp_use wp_destroy_within; [done|exact W|exact Hm|]. intros [] v' Hfr. wp_run. left.
       split; [done|]. eapply (gave_up s _ space v); try done; [by repeat apply Sched.sched_ok_vm|by left|by left]. }
  destruct (Sched.first_unused_some _ _ Hf) as (Hir & t & Ht & _).
  destruct Hr as [(-> & Hth & Hc & Hvm & Hno)|(-> & pa & Hpa & Hth & Hc & [q Hq] & Hst & Hset)].
  { cbn [Z.ltb Z.compare]. unfold Sched.vm_call. wp_run. rewrite Hvm.
    wp_use wp_destroy_within; [done|exact W|exact Hm|]. intros [] v' Hfr. wp_run. left.
    split; [done|]. eapply (gave_up s _ space v); try done.
    - by apply Sched.sched_ok_vm.
    - right. by exists i.
    - by right. }
  rewrite (proj2 (Z.ltb_ge i 0)) by lia.
  set (th := Sched.user_thread _ i nm _ _ space pa) in *.
  assert (zget (Sched.threads s') i = Some th) as Hthi.
  { rewrite Hth. apply zget_zset_eq.
    change (Sched.threads (Sched.set_vm v s)) with (Sched.threads s). rewrite (Sched.so_len _ Hok). lia. }
  unfold Sched.thread_at. rewrite Z.geb_leb, (proj2 (Z.leb_gt _ _)) by lia. wp_run.
  apply wp_aget. exists th. split; [done|]. wp_run. apply Sched.wp_update_thread.
  exists th. split; [done|]. wp_run. right. exists space, pa.
  assert (phys (Sched.vm s') = phys v) as Hph by (rewrite Hq; done).
  assert (∀ b, Sched.page_set s' b ↔ avail (allocator v) b ∧ ¬ Sched.stack_page pa b) as Hset' by done.
  assert (∀ b, owned (phys v) space b → ¬ avail (allocator v) b) as Hused by (intros b; by apply owned_used).
  assert (∀ b, Sched.stack_page pa b → avail (allocator v) b) as Hst' by done.
  assert (process_image data argv space (Sched.vm s')) as Hi'.
  { rewrite Hq. apply process_image_alloc; [done| |].
    - unfold Sched.mem_inv in Hm'. by rewrite Hq in Hm'.
    - intros b Hb. unfold Sched.page_set in Hset'. rewrite Hq in Hset'. by apply Hset' in Hb as [? _]. }
  split; cbn [Sched.threads Sched.set_threads Sched.current_idx Sched.vm]; try done.
  - split; [|exact Hm']. destruct (Sched.so_thread _ Hok' i th Hthi).
    eapply (Sched.sched_ok_set s' i (Sched.with_brk USER_HEAP_BASE th)); [done|exact Hir|by split| |done].
    intros _. by apply (Sched.so_used _ Hok' i th).
  - rewrite Hth, zset_zset. done.
  - pose proof (only_free_within _ _ _ Hd W) as [O1 O2 O3 O4 O5 O6].
    split; [by rewrite Hq|by rewrite Hq|exact Hm'|by rewrite Hph| |by rewrite Hph].
    intros a Ha. apply O5. by apply Hset' in Ha as [? _].
  - rewrite Hph. intros b [Hb|Hb].
    + split; [by eapply owned_within|]. intros [Hb2 _]%Hset'. by apply (Hused b).
    + split; [by apply (wi_avail _ _ _ W), Hst'|]. by intros [_ Hb2]%Hset'.
  - rewrite Hph. intros b Hb Hs. by apply (Hused b), Hst'.
  - rewrite Hph. intros b T Hb. destruct (decide (Sched.stack_page pa b)); [by right; right|].
    destruct (Hk T b Hb) as [Hb2|Hb2]; [left; by apply Hset'|by right; left].
Qed.
End spawning.
Section theorems.
Context {P : Type} `{PageAllocatorLaws P}.
Context (nm data : list Z) (argv : list (list Z)).
Implicit Types (s : Sched.sched P) (v : vmm P).

Definition spawn_ready s : Prop :=
  Sched.sched_ok s ∧ Sched.mem_inv s ∧ space_ok (kernel_space (Sched.vm s)) (Sched.vm s).

Lemma mapped_zero_pages v v' space flags :
  zero_pages space STACK_BOTTOM USER_STACK_TOP flags v v' →
  mapped space v' STACK_BOTTOM USER_STACK_TOP.
Proof.
  intros Hz x Hx. assert (low_half x) as Hlow.
  { assert (0 ≤ STACK_BOTTOM ∧ USER_STACK_TOP < 2 ^ 47) by done. unfold low_half. lia. }
  split; [done|]. destruct (zp_entry _ _ _ _ _ _ Hz x Hlow Hx) as (e & -> & _). by eexists.
Qed.

(** From a loaded image on. *)
Lemma wp_spawn_stack s space v1 v2 :
  args_ok argv → spawn_ready s → 0 < space →
  data_ok space v2 → within (Sched.vm s) space v2 →
  Elf.unmapped space (λ _, True) v1 →
  Elf.shows_image space data (Z.to_nat (Elf.e_phnum (Elf.read_ehdr data))) v1 v2 →
  (tidy data → ∀ b, avail (allocator (Sched.vm s)) b → avail (allocator v2) b ∨ owned (phys v2) space b) →
  wp (r ← Sched.vm_call (map_stack space);
      match r with
      | Some x => mret x
      | None =>
          r ← Sched.vm_call (build_stack space argv);
          match r with
          | None => mret (-1)
          | Some sp =>
              tid ← Sched.thread_create_user nm (Elf.e_entry (Elf.read_ehdr data)) sp space;
              if tid <? 0 then Sched.vm_call (destroy_space space);; mret (-1)
              else
                t ← Sched.thread_at tid;
                (match t with
                 | Some _ => Sched.update_thread tid (Sched.with_brk USER_HEAP_BASE)
                 | None => mret tt
                 end);;
                mret tid
          end
      end)
    (λ r s', (r = -1 ∧ spawn_failed nm data s s') ∨ ∃ space pa, spawned nm data argv s r space pa s')
    (Sched.set_vm v2 s).
Proof.
  intros Ha (Hok & Hm & Hks) Hsp Hd2 W2 Hu Hs Hk. wp_step. apply wp_zoom.
  wp_use wp_map_stack; [exact Hd2|exact W2|exact Hm|]. intros [x|] v3 Hr; cbv beta iota in Hr.
  - destruct Hr as (-> & v & Hd & W & Hx & Hl & Hf). wp_run. left. split; [done|].
    eapply (gave_up nm data s _ space v); try done; [by repeat apply Sched.sched_ok_vm|by left| |].
    + right. by apply exhausted_no_run.
    + intros T. destruct Hl as [lost Hl]; [by eapply image_no_stack|]. exists lost.
      intros b Hb. by apply Hl, Hk.
  - destruct Hr as [Hz Hkeep]. wp_step. apply wp_zoom. pose proof (zp_ok _ _ _ _ _ _ Hz) as Hd3.
    pose proof (zp_within _ _ _ _ _ _ Hz _ W2) as W3.
    wp_use (wp_build_stack (Sched.vm s) space argv); [exact Hd3|exact W3|exact Hm|done|by eapply mapped_zero_pages|].
    intros r v5 (-> & v4 & Hp4 & Hp5). cbv iota.
    apply (wp_start_thread nm data argv s space v5); [done|done|done| | |done|].
    + by apply (pk_within _ _ _ _ _ Hp5), (pk_within _ _ _ _ _ Hp4).
    + by eapply image_built.
    + intros T b Hb. apply (pk_keeps _ _ _ _ _ Hp5), (pk_keeps _ _ _ _ _ Hp4), Hkeep.
      * by eapply image_no_stack.
      * by apply Hk.
Qed.

Lemma wp_spawn_elf s :
  Elf.header_ok data = true → Elf.image_ok data → Elf.e_entry (Elf.read_ehdr data) ≠ 0 →
  args_ok argv → spawn_ready s →
  wp (spawn_elf nm data argv) (λ r s',
    (r = -1 ∧ spawn_failed nm data s s') ∨ ∃ space pa, spawned nm data argv s r space pa s') s.
Proof.
  intros Hh Him He Ha Hrdy. pose proof Hrdy as (Hok & Hm & Hks).
  unfold spawn_elf. wp_step. apply wp_zoom.
  wp_use wp_empty_space; [done|]. intros space v1 [(-> & -> & Hx)|(Hsp & Hd1 & W1 & Hav & Hu & Hk1)].
  { cbn [Z.eqb]. wp_run. left. split; [done|]. split; try done.
    - split; [by apply Sched.sched_ok_vm|done].
    - split; try done. apply Hks.
    - by left.
    - intros _. exists 0. intros b Hb. by right.
    - right. left. by apply exhausted_no_run. }
  rewrite (proj2 (Z.eqb_neq space 0)) by lia. wp_step. apply wp_zoom.
  wp_use (Elf.wp_elf_load (Sched.vm s)); [apply Him|apply Him|done|done|exact Hd1|exact W1|].
  intros entry v2 (Hd2 & W2 & [(-> & Hx & Hl)|(-> & Hs & Hk2)]).
  - cbn [Z.eqb]. wp_step. apply wp_zoom. wp_use wp_destroy_within; [exact Hd2|exact W2|exact Hm|].
    intros [] v3 Hf. wp_run. left. split; [done|].
    eapply (gave_up nm data s _ space v2); try done; [by repeat apply Sched.sched_ok_vm|by left| |].
    + right. by apply exhausted_no_run.
    + intros [T _]. destruct (Hl T Hu) as [lost Hlost]. exists lost. intros b Hb. by apply Hlost, Hk1.
  - rewrite (proj2 (Z.eqb_neq _ 0)) by done.
    apply (wp_spawn_stack s space v1 v2); try done.
    intros [T _] b Hb. by apply Hk2, Hk1.
Qed.
End theorems.
(** ** The end of a process *)
Section reaping.
Context {P : Type} `{PageAllocatorLaws P}.
Implicit Types (s : Sched.sched P).

(** Thread [i] has ended, and its pages are its own. *)
Record ended s (i : Z) (t : Sched.thread) : Prop := {
  en_thread : zget (Sched.threads s) i = Some t;
  en_zombie : Sched.state t = Sched.Zombie;
  en_user : Sched.is_user t = true;
  en_space : Sched.space t ≠ 0 ∧ Sched.space t ≠ kernel_space (Sched.vm s);
  en_ok : data_ok (Sched.space t) (Sched.vm s);
  en_pages b : owned (phys (Sched.vm s)) (Sched.space t) b ∨ Sched.stack_page (Sched.kstack_pa t) b →
    phys_page b;
  en_stack : 0 < Sched.kstack_pa t;
}.

Lemma wp_reap_process s i t :
  Sched.sched_ok s → Sched.mem_inv s → ended s i t →
  wp (Sched.sched_reap i) (λ _ s', Sched.sched_ok s' ∧ Sched.mem_inv s' ∧
    Sched.threads s' = zset (Sched.threads s) i Sched.zeroed ∧
    Sched.current_idx s' = Sched.current_idx s ∧
    ∀ b, Sched.page_set s' b ↔ Sched.page_set s b ∨
      owned (phys (Sched.vm s)) (Sched.space t) b ∨ Sched.stack_page (Sched.kstack_pa t) b) s.
Proof.
  intros Hok Hm [Ht Hz Hu [Hs0 Hsk] Hd Hpg Hst]. pose proof (zget_Some_lt _ _ _ Ht) as Hi.
  pose proof (Sched.so_len _ Hok) as Hlen. unfold Sched.sched_reap. wp_run.
  apply wp_aget. exists t. split; [done|]. rewrite bool_decide_true by done. rewrite Hu.
  rewrite (proj2 (Z.eqb_neq _ 0) Hs0), (proj2 (Z.eqb_neq _ _) Hsk). cbn [negb andb].
  rewrite (proj2 (Z.eqb_neq (Sched.kstack_pa t) 0)) by lia. cbn [negb].
  wp_step. apply wp_zoom. wp_use wp_destroy_space; [done|auto|].
  intros [] v (Hph & Hc & Hk & Hinv & Hav). wp_run.
  wp_use Sched.wp_free_stack; [exact Hinv|done|].
  intros [] s' (Hm' & (v' & ->) & Hin & Hmono & Hout). apply Sched.wp_update_thread.
  exists t. split; [done|]. split_and!; try done.
  - eapply (Sched.sched_ok_set (Sched.set_vm v' s) i Sched.zeroed); [by apply Sched.sched_ok_vm|lia| |done|done].
    by split.
  - unfold Sched.page_set in *. cbn [Sched.vm Sched.set_vm Sched.set_threads] in *. intros b. split.
    + intros [Hb|Hb]%Hout; [apply Hav in Hb; tauto|tauto].
    + intros [Hb|[Hb|Hb]]; [apply Hmono, Hav; tauto|apply Hmono, Hav; tauto|apply Hin; auto].
Qed.

(** Reaping a process that has ended frees exactly its pages: the tables
    and frames of the lower half of its address space, its root and the four
    pages of its kernel stack become available, nothing else does, the slot is
    cleared and every other thread is untouched. *)
Theorem reap_process s i t :
  Sched.sched_ok s → Sched.mem_inv s → ended s i t →
  wp (Sched.sched_reap i) (λ _ s', Sched.sched_ok s' ∧ Sched.mem_inv s' ∧
    Sched.threads s' = zset (Sched.threads s) i Sched.zeroed ∧
    Sched.current_idx s' = Sched.current_idx s ∧
    ∀ b, Sched.page_set s' b ↔ Sched.page_set s b ∨
      owned (phys (Sched.vm s)) (Sched.space t) b ∨ Sched.stack_page (Sched.kstack_pa t) b) s.
Proof. apply wp_reap_process. Qed.

(** The new process, were it to end at once. *)
Lemma spawned_ends nm data argv s r space pa s' :
  Sched.sched_ok s → Sched.mem_inv s → space_ok (kernel_space (Sched.vm s)) (Sched.vm s) →
  spawned nm data argv s r space pa s' →
  let t := Sched.with_state Sched.Zombie (Sched.with_brk USER_HEAP_BASE
    (Sched.user_thread s r nm (Elf.e_entry (Elf.read_ehdr data)) (initial_sp argv) space pa)) in
  ended (Sched.set_threads (zset (Sched.threads s') r t) s') r t.
Proof.
  intros Hok Hm Hks [_ A1 A2 A3 A4 [A5 A5'] A6 A7 A8 A9] t.
  destruct (Sched.first_unused_some _ _ A1) as (Hr & _).
  split; try done.
  - simpl. apply zget_zset_eq. rewrite A3, zlen_zset, (Sched.so_len _ Hok). lia.
  - simpl. rewrite (of_kernel _ _ A4). split; [lia|]. intros Heq.
    destruct (so_table _ _ Hks [] space) as [_ Hn].
    { split; [simpl; lia|constructor]. }
    { by rewrite Heq. }
    apply Hn. apply (A7 space). left. left. exists []. split; [split; [simpl; lia|constructor]|done].
  - simpl. apply (pi_ok _ _ _ _ A6).
  - intros b Hb. apply A7 in Hb as [Hb _]. by eapply avail_page.
Qed.
End reaping.
(** ** From the spawn to the reaping

    Process [r] runs in [space] and others with it: the processor goes through
    the scheduler, and while [r] is current it writes its memory and its heap
    grows by a page at the break. *)
Section life.
Context {P : Type} `{PageAllocatorLaws P}.
Implicit Types (s : Sched.sched P) (t : Sched.thread).






End life.
Section properties.
Context {P : Type} `{PageAllocatorLaws P}.
Implicit Types (s : Sched.sched P).

(** C4: Spawning a well-formed executable.  Either [spawn_elf] answers the
    first unused slot, which then holds a runnable user thread that starts at
    the image's entry point on a stack laid out as the System V convention
    asks, in a space that reads as the image and the argument block and nothing
    else; its pages were free and are its own, and every page that was free
    still is or belongs to the process.  Or it answers -1 because no slot was
    unused or pages ran out; every thread is as it was, but the first unused
    slot may stay taken by a runnable thread with an empty frame (the stack is
    looked for after the slot is taken), and all pages are free again, but at
    most one when the image is tidy.
    In both cases CR3, the kernel space, the running thread and every byte
    outside free pages are untouched. *)
Theorem spawn_elf_starts nm data argv s :
  Elf.header_ok data = true → Elf.image_ok data → Elf.e_entry (Elf.read_ehdr data) ≠ 0 →
  args_ok argv → spawn_ready s →
  wp (spawn_elf nm data argv) (λ r s',
    (r = -1 ∧ spawn_failed nm data s s') ∨ ∃ space pa, spawned nm data argv s r space pa s') s.
Proof. apply wp_spawn_elf. Qed.

End properties.
(** *** A machine with 31 free pages, and a program run with two arguments *)
Definition demo_map : list Pmm.memmap_entry := [Pmm.mkEntry 4096 (31 * 4096) 0].
Definition demo_pmm : Pmm.pmm :=
  match Pmm.init (Some demo_map) (Some (2 ^ 63)) Pmm.pmm_zero with
  | Done (_, s) => s
  | _ => Pmm.pmm_zero
  end.
Definition demo_machine : Sched.sched Pmm.pmm :=
  Sched.booted 0 (mkVmm demo_pmm (λ _, 0) 0x100000 0x100000).
Definition demo_argv : list (list Z) := [[115; 104]; [45; 99]].

Lemma demo_pmm_spec :
  Pmm.pmm_inv demo_pmm ∧ ∀ j, Pmm.page_free demo_pmm j = true ↔ 1 ≤ j ≤ 31.
Proof.
  assert (∀ i k e f j, demo_map !! i = Some e → demo_map !! k = Some f → i ≠ k →
    Pmm.usable_page e j → ¬ Pmm.usable_page f j) as Hdis.
  { intros [|i] [|k] e f j; try done. }
  assert (Forall Pmm.entry_ok demo_map) as Hok.
  { unfold demo_map, Pmm.entry_ok, PAGE_SIZE. repeat constructor; simpl; lia. }
  pose proof (Pmm.wp_pmm_init demo_map (2 ^ 63) Pmm.pmm_zero eq_refl Hok Hdis) as Hw.
  unfold wp in Hw. unfold demo_pmm.
  destruct (Pmm.init _ _ _) as [[[] s]| |]; [|done|done].
  destruct Hw as (Hinv & _ & _ & Hfree). split; [done|].
  intros j. rewrite Hfree. unfold demo_map. rewrite !Exists_cons, Exists_nil.
  unfold Pmm.usable_page, Pmm.LIMINE_MEMMAP_USABLE, PAGE_SIZE. simpl.
  pose proof Pmm.BITMAP_PAGES_val. lia.
Qed.

Lemma demo_ready : spawn_ready demo_machine.
Proof.
  destruct demo_pmm_spec as [Hinv Hf].
  assert (Pmm.pmm_ok demo_pmm) as Hq.
  { split; [done|]. destruct (Pmm.page_free demo_pmm 0) eqn:E; [|done]. apply Hf in E. lia. }
  split_and!; [apply Sched.booted_ok|exact Hq|].
  apply empty_root_ok; [done|exact Hq|done|].
  intros [_ Hfree]. apply Hf in Hfree. change (1 ≤ 256 ≤ 31) in Hfree. lia.
Qed.

Lemma demo_args_ok : args_ok demo_argv.
Proof.
  split; [|vm_compute; discriminate].
  apply (bool_decide_unpack _). vm_compute. exact I.
Qed.


(** What the process finds: the code, [argc], the first argument's pointer
    and its first byte. *)
Example spawn_demo :
  match spawn_elf [115; 104] Elf.demo_image demo_argv demo_machine with
  | Done (r, s) =>
      match zget (Sched.threads s) r with
      | Some t =>
          let v := Sched.vm s in
          let sp := Sched.rsp (Sched.saved t) in
          (r, Sched.rip (Sched.saved t), sp mod 16, initial_sp demo_argv - sp,
           user_byte (phys v) (Sched.space t) 0x400000,
           user_byte (phys v) (Sched.space t) sp,
           load_le 8 (store_bytes (λ _, 0) 0
             (default 0 <$> user_bytes (phys v) (Sched.space t) (sp + 8) 8)) 0)
      | None => (r, 0, 0, 0, None, None, 0)
      end
  | _ => (-2, 0, 0, 0, None, None, 0)
  end = (1, 0x400000, 0, 0, Some 0x90, Some 2, USER_STACK_TOP - 6).
Proof. vm_compute. reflexivity. Qed.

Lemma spawn_elf_starts_witness :
  wp (spawn_elf [115; 104] Elf.demo_image demo_argv) (λ r s',
    (r = -1 ∧ spawn_failed [115; 104] Elf.demo_image demo_machine s') ∨
    ∃ space pa, spawned [115; 104] Elf.demo_image demo_argv demo_machine r space pa s') demo_machine.
Proof.
  apply spawn_elf_starts; [reflexivity|exact Elf.demo_image_ok|by vm_compute|exact demo_args_ok|exact demo_ready].
Defined.

(** It runs through a timer interrupt, a yield and a second one, ends, and the
    kernel thread reaps it: every page is back. *)
Example life_demo :
  match (r ← spawn_elf [115; 104] Elf.demo_image demo_argv;
         f1 ← Sched.sched_yield Sched.zero_frame;
         c1 ← gets Sched.current_idx;
         f2 ← Sched.on_timer f1;
         f3 ← Sched.sched_thread_exit f2;
         c2 ← gets Sched.current_idx;
         Sched.sched_reap r;;
         mret (r, c1, c2)) demo_machine with
  | Done (cs, s) => cs = (1, 1, 0) ∧ Pmm.bitmap (Vmm.allocator (Sched.vm s)) = Pmm.bitmap demo_pmm
  | _ => False
  end.
Proof. vm_compute. by split. Qed.
(** A process with an empty space in page 40 that has ended. *)
Definition demo_zombie : Sched.thread :=
  Sched.with_state Sched.Zombie (Sched.user_thread demo_machine 1 [115; 104] 0x400000 0 (40 * PAGE_SIZE) (41 * PAGE_SIZE)).
Definition demo_ended : Sched.sched Pmm.pmm :=
  Sched.set_nr 2 (Sched.set_threads (zset (Sched.threads demo_machine) 1 demo_zombie) demo_machine).

Lemma demo_ended_ok : ended demo_ended 1 demo_zombie.
Proof.
  destruct demo_pmm_spec as [Hinv Hf].
  assert (Pmm.pmm_ok demo_pmm) as Hq by apply demo_ready.
  assert (∀ p t, descend (phys (Sched.vm demo_ended)) (40 * PAGE_SIZE) p = Some t →
    p = [] ∧ t = 40 * PAGE_SIZE) as Hd by (intros p t; apply zero_descend).
  assert (∀ va, lookup_page (phys (Sched.vm demo_ended)) (40 * PAGE_SIZE) va = None) as Hl.
  { intros va. unfold lookup_page. destruct (descend _ _ _) as [t|] eqn:E; [|done].
    by apply Hd in E as [? _]. }
  split; try done.
  - split; [| | |].
    + apply empty_root_ok; [done|exact Hq|done|]. intros [_ Hfree]. apply Hf in Hfree.
      change (1 ≤ 40 ≤ 31) in Hfree. lia.
    + intros va e _. by rewrite Hl.
    + intros va1 va2 e1 e2 _ _. by rewrite Hl.
    + intros p i t _ _ [_ ->]%Hd. unfold huge, entry. by rewrite load64_zero.
  - assert (∀ j, 1 ≤ j < 100 → phys_page (j * PAGE_SIZE)) as Hpp.
    { intros j Hj. change (Pmm.pmm_page (j * PAGE_SIZE)). unfold Pmm.pmm_page.
      rewrite Z.mod_mul, Z.div_mul by done. pose proof Pmm.BITMAP_PAGES_val. unfold PAGE_SIZE. lia. }
    intros b [[(p & _ & _ & [_ ->]%Hd)|(va & e & _ & He & _)]|(k & Hk & ->)].
    + apply (Hpp 40). lia.
    + by rewrite Hl in He.
    + change (Sched.kstack_pa demo_zombie) with (41 * PAGE_SIZE).
      rewrite <- Z.mul_add_distr_r. apply Hpp. lia.
Qed.

Lemma reap_process_witness :
  wp (Sched.sched_reap 1) (λ _ s', Sched.sched_ok s' ∧ Sched.mem_inv s' ∧
    Sched.threads s' = zset (Sched.threads demo_ended) 1 Sched.zeroed ∧
    Sched.current_idx s' = Sched.current_idx demo_ended ∧
    ∀ b, Sched.page_set s' b ↔ Sched.page_set demo_ended b ∨
      owned (phys (Sched.vm demo_ended)) (Sched.space demo_zombie) b ∨
      Sched.stack_page (Sched.kstack_pa demo_zombie) b) demo_ended.
Proof.
  apply reap_process; [|apply demo_ready|exact demo_ended_ok].
  apply (Sched.sched_ok_add demo_machine 1 demo_zombie); [apply demo_ready|done|by split].
Defined.
End Spawn.
