(* ===== verification/Wm.v ===== *)
(** * The window manager ([kernel-rs/src/gui/wm.rs])

    The mouse handler, window creation and the compositor thread, over the
    whole kernel state: it allocates surfaces from the page allocator, reads
    the terminals it shows, starts [/bin/sh] and routes the keyboard.  Its two
    hooks run in other threads and in interrupt handlers; their calls are
    recorded by [Vterm] and [Kbd] and take effect in [deliver].  The log lines
    of a frame and of [init] are here, because [init] installs the sink that
    prints them on terminal 0; those of windows and terminals being made are
    left out: they are printed before the turn that makes them draws. *)
From S2P Require Import Prelude Lines PageAlloc Pmm Mem Vmm Sched Ring Vterm Kbd Surface Dirty Mouse Fb Desk Kernel Log Proc.
Import Surface (rect, mkRect, x, y, w, h, inside, surface, mkSurf, sw, sh, pixels).

Module Wm.
Import Desk.

Definition C_WALLPAPER : Z := 0xFF1A2B4A.
Definition C_CURSOR_FG : Z := 0xFFFFFFFF.
Definition C_CURSOR_BG : Z := 0xFF000000.

(** The statics of [wm_update_mouse]. *)
Record input := mkInput { PREV_BUTTONS : Z; DRAG_WIN : Z; DRAG_OFFX : Z; DRAG_OFFY : Z }.
Record stats := mkStats { FLIPPED_PX : Z; FRAMES : Z; PAINT_CALLS : Z; LOG_TICK : Z }.

Record wm (P : Type) := mkWm {
  sys : Kernel.kern P;
  ms : Mouse.mouse;
  fbs : Fb.fb;
  dk : desk;
  BACKBUFFER : surface;
  CURSOR_PREV_X : Z;
  CURSOR_PREV_Y : Z;
  stat : stats;
  VT_WIN : list Z;
  WANT_NEW_TERM : bool;
  inp : input;
  PHASE : Z;
  GUI_UART_SINK : bool;
}.
Arguments mkWm {P}. Arguments sys {P}. Arguments ms {P}. Arguments fbs {P}. Arguments dk {P}.
Arguments BACKBUFFER {P}. Arguments CURSOR_PREV_X {P}. Arguments CURSOR_PREV_Y {P}.
Arguments stat {P}. Arguments VT_WIN {P}. Arguments WANT_NEW_TERM {P}. Arguments inp {P}.
Arguments PHASE {P}. Arguments GUI_UART_SINK {P}.

Definition CURSOR_BMP : list (list Z) := [
  [2;0;0;0;0;0;0;0;0;0;0;0];
  [2;2;0;0;0;0;0;0;0;0;0;0];
  [2;1;2;0;0;0;0;0;0;0;0;0];
  [2;1;1;2;0;0;0;0;0;0;0;0];
  [2;1;1;1;2;0;0;0;0;0;0;0];
  [2;1;1;1;1;2;0;0;0;0;0;0];
  [2;1;1;1;1;1;2;0;0;0;0;0];
  [2;1;1;1;1;1;1;2;0;0;0;0];
  [2;1;1;1;1;1;1;1;2;0;0;0];
  [2;1;1;1;1;1;1;1;1;2;0;0];
  [2;1;1;1;1;1;1;2;2;2;2;2];
  [2;1;1;2;1;1;2;0;0;0;0;0];
  [2;1;2;0;2;1;1;2;0;0;0;0];
  [2;2;0;0;2;1;1;2;0;0;0;0];
  [2;0;0;0;0;2;1;1;2;0;0;0];
  [0;0;0;0;0;0;2;2;0;0;0;0];
  [0;0;0;0;0;0;0;2;2;0;0;0];
  [0;0;0;0;0;0;0;0;0;0;0;0]].

Definition HDR : rect := mkRect 12 10 (72 * 8) 16.
(** "Shizuku GUI - F1: new terminal | click to focus, type into it" *)
Definition hdr_line : list Z :=
  [83; 104; 105; 122; 117; 107; 117; 32; 71; 85; 73; 32; 45; 32; 70; 49; 58; 32; 110; 101; 119;
  32; 116; 101; 114; 109; 105; 110; 97; 108; 32; 124; 32; 99; 108; 105; 99; 107; 32; 116; 111;
  32; 102; 111; 99; 117; 115; 44; 32; 116; 121; 112; 101; 32; 105; 110; 116; 111; 32; 105; 116].

Definition bin_sh : list Z := [47; 98; 105; 110; 47; 115; 104].
Definition term_titles : list (list Z) :=
  [[116; 101; 114; 109; 48]; [116; 101; 114; 109; 49]; [116; 101; 114; 109; 50]; [116; 101; 114; 109; 51]].

Definition rect_intersects (a b : rect) : bool :=
  (x a <? i32 (x b + w b)) && (x b <? i32 (x a + w a)) &&
  (y a <? i32 (y b + h b)) && (y b <? i32 (y a + h a)).

(** [blit_clipped] of [src] onto the state. *)
Definition blit_clipped (dx dy : Z) (src : surface) (clip : rect) : M surface unit :=
  let x0 := Z.max dx (x clip) in
  let y0 := Z.max dy (y clip) in
  let x1 := Z.min (i32 (dx + sw src)) (i32 (x clip + w clip)) in
  let y1 := Z.min (i32 (dy + sh src)) (i32 (y clip + h clip)) in
  if (x1 <=? x0) || (y1 <=? y0) then mret tt
  else
    for_each y0 y1 (λ y,
      wd ← gets sw;
      let s := i32 (i32 (i32 (y - dy) * sw src) + i32 (x0 - dx)) in
      let d := i32 (i32 (y * wd) + x0) in
      for_each 0 (i32 (x1 - x0)) (λ i,
        c ← of_option (zget (pixels src) (s + i));
        Surface.put_pixel (d + i) c)).

(** [draw_cursor] with the pointer at ([mx], [my]). *)
Definition draw_cursor_at (mx my : Z) : M surface unit :=
  for_each 0 18 (λ row,
    for_each 0 12 (λ col,
      bits ← of_option (zget CURSOR_BMP row);
      v ← of_option (zget bits col);
      if v =? 0 then mret tt
      else
        let px := i32 (mx + col) in
        let py := i32 (my + row) in
        bb ← gets (λ s, s);
        if (px <? 0) || (py <? 0) || (px >=? sw bb) || (py >=? sh bb) then mret tt
        else Surface.put_pixel (i32 (i32 (py * sw bb) + px)) (if v =? 2 then C_CURSOR_BG else C_CURSOR_FG))).

Section wm.
Context {P : Type} `{PageAllocator P}.
Variable FONT8X16 : list (list Z).
Implicit Types s : wm P.

Definition set_sys v (s : wm P) : wm P := mkWm v (ms s) (fbs s) (dk s) (BACKBUFFER s) (CURSOR_PREV_X s)
  (CURSOR_PREV_Y s) (stat s) (VT_WIN s) (WANT_NEW_TERM s) (inp s) (PHASE s) (GUI_UART_SINK s).
Definition set_ms v (s : wm P) : wm P := mkWm (sys s) v (fbs s) (dk s) (BACKBUFFER s) (CURSOR_PREV_X s)
  (CURSOR_PREV_Y s) (stat s) (VT_WIN s) (WANT_NEW_TERM s) (inp s) (PHASE s) (GUI_UART_SINK s).
Definition set_fbs v (s : wm P) : wm P := mkWm (sys s) (ms s) v (dk s) (BACKBUFFER s) (CURSOR_PREV_X s)
  (CURSOR_PREV_Y s) (stat s) (VT_WIN s) (WANT_NEW_TERM s) (inp s) (PHASE s) (GUI_UART_SINK s).
Definition set_dk v (s : wm P) : wm P := mkWm (sys s) (ms s) (fbs s) v (BACKBUFFER s) (CURSOR_PREV_X s)
  (CURSOR_PREV_Y s) (stat s) (VT_WIN s) (WANT_NEW_TERM s) (inp s) (PHASE s) (GUI_UART_SINK s).
Definition set_backbuffer v (s : wm P) : wm P := mkWm (sys s) (ms s) (fbs s) (dk s) v (CURSOR_PREV_X s)
  (CURSOR_PREV_Y s) (stat s) (VT_WIN s) (WANT_NEW_TERM s) (inp s) (PHASE s) (GUI_UART_SINK s).
Definition set_cursor_prev a b (s : wm P) : wm P := mkWm (sys s) (ms s) (fbs s) (dk s) (BACKBUFFER s) a b
  (stat s) (VT_WIN s) (WANT_NEW_TERM s) (inp s) (PHASE s) (GUI_UART_SINK s).
Definition set_stat v (s : wm P) : wm P := mkWm (sys s) (ms s) (fbs s) (dk s) (BACKBUFFER s) (CURSOR_PREV_X s)
  (CURSOR_PREV_Y s) v (VT_WIN s) (WANT_NEW_TERM s) (inp s) (PHASE s) (GUI_UART_SINK s).
Definition set_vt_win v (s : wm P) : wm P := mkWm (sys s) (ms s) (fbs s) (dk s) (BACKBUFFER s) (CURSOR_PREV_X s)
  (CURSOR_PREV_Y s) (stat s) v (WANT_NEW_TERM s) (inp s) (PHASE s) (GUI_UART_SINK s).
Definition set_want v (s : wm P) : wm P := mkWm (sys s) (ms s) (fbs s) (dk s) (BACKBUFFER s) (CURSOR_PREV_X s)
  (CURSOR_PREV_Y s) (stat s) (VT_WIN s) v (inp s) (PHASE s) (GUI_UART_SINK s).
Definition set_inp v (s : wm P) : wm P := mkWm (sys s) (ms s) (fbs s) (dk s) (BACKBUFFER s) (CURSOR_PREV_X s)
  (CURSOR_PREV_Y s) (stat s) (VT_WIN s) (WANT_NEW_TERM s) v (PHASE s) (GUI_UART_SINK s).
Definition set_phase v (s : wm P) : wm P := mkWm (sys s) (ms s) (fbs s) (dk s) (BACKBUFFER s) (CURSOR_PREV_X s)
  (CURSOR_PREV_Y s) (stat s) (VT_WIN s) (WANT_NEW_TERM s) (inp s) v (GUI_UART_SINK s).
Definition set_sink v (s : wm P) : wm P := mkWm (sys s) (ms s) (fbs s) (dk s) (BACKBUFFER s) (CURSOR_PREV_X s)
  (CURSOR_PREV_Y s) (stat s) (VT_WIN s) (WANT_NEW_TERM s) (inp s) (PHASE s) v.

Definition kern_call {A} (m : M (Kernel.kern P) A) : M (wm P) A := zoom sys set_sys m.
Definition desk_call {A} (m : M desk A) : M (wm P) A := zoom dk set_dk m.
Definition bb_call {A} (m : M surface A) : M (wm P) A := zoom BACKBUFFER set_backbuffer m.
Definition fb_call {A} (m : M Fb.fb A) : M (wm P) A := zoom fbs set_fbs m.

(** [&mut WINS[i]] *)
Definition on_win {A} (i : Z) (m : M window A) : M (wm P) A := λ s,
  match zget (WINS (dk s)) i with
  | Some v => zoom (λ _, v) (λ v s, set_dk (set_wins (zset (WINS (dk s)) i v) (dk s)) s) m s
  | None => Panic
  end.

Definition get_win (i : Z) : M (wm P) window := aget (λ s, WINS (dk s)) i.

Definition timer_ticks : M (wm P) Z := gets (λ s, Sched.timer_ticks (Kernel.sc (sys s))).
(** [fb::width() as i32] *)
Definition screen_w : M (wm P) Z := gets (λ s, i32 (Fb.FB_W (fbs s))).
Definition screen_h : M (wm P) Z := gets (λ s, i32 (Fb.FB_H (fbs s))).
(** [kbd::ROUTE_VT = id] *)
Definition route_keyboard (id : Z) : M (wm P) unit :=
  kern_call (Kernel.kb_call (modify (Kbd.set_route id))).

(** ** The hooks *)
Definition on_vt_dirty (id : Z) : M (wm P) unit :=
  if (id >=? 0) && (id <? Vterm.VT_MAX) then
    i ← aget VT_WIN id;
    if i >=? 0 then desk_call (mark_dirty i) else mret tt
  else mret tt.
Definition on_fn_key (f : Z) : M (wm P) unit :=
  if f =? 1 then modify (set_want true) else mret tt.

Fixpoint each (f : Z → M (wm P) unit) (l : list Z) : M (wm P) unit :=
  match l with
  | [] => mret tt
  | a :: l => f a;; each f l
  end.
(** The recorded hook calls happen. *)
Definition deliver_dirty : M (wm P) unit :=
  d ← gets (λ s, Vterm.dirtied (Kbd.vts (Kernel.kb (sys s))));
  kern_call (Kernel.vt_call (modify (Vterm.set_dirtied [])));;
  each on_vt_dirty d.
Definition deliver_keys : M (wm P) unit :=
  f ← gets (λ s, Kbd.fn_calls (Kernel.kb (sys s)));
  kern_call (Kernel.kb_call (modify (Kbd.set_fn_calls [])));;
  each on_fn_key f.
Definition deliver : M (wm P) unit := deliver_dirty;; deliver_keys.

(** [klog_info!] *)
Definition klog_info (l : list Z) : M (wm P) unit :=
  sink ← gets GUI_UART_SINK;
  kern_call (Log.klog_info sink l);;
  if (sink : bool) then deliver_dirty else mret tt.

(** ** Painting *)
Definition paint_terminal (i : Z) : M (wm P) unit :=
  on_win i (clear_body 0xFF101418);;
  for_each 0 Vterm.VT_ROWS (λ r,
    v ← get_win i;
    line ← (if vt v >=? 0 then
              l ← kern_call (Kernel.vt_call (Vterm.row_of (vt v) r)); mret (default [] l)
            else mret []);
    on_win i (paint_row FONT8X16 r line)).

Definition paint_demo (i : Z) : M (wm P) unit :=
  t ← timer_ticks;
  (if Z.land t 7 =? 0 then modify (λ s, set_phase (i32 (PHASE s + 1)) s) else mret tt);;
  phase ← gets PHASE;
  on_win i (paint_bars FONT8X16 phase).

Definition run_hook (k : hook) (i : Z) : M (wm P) unit :=
  match k with PaintTerminal => paint_terminal i | PaintDemo => paint_demo i end.

Definition frame_render (i : Z) : M (wm P) unit :=
  v ← get_win i;
  let fw := i32 (ww v + 2) in
  let fh := i32 (i32 (wh v + GUI_TITLE_H) + 2) in
  on_win i (modify (with_content false);; modify (with_chrome false);;
            frame_render_chrome FONT8X16 fw fh);;
  (match on_paint v with
   | Some k =>
       run_hook k i;;
       modify (λ s, set_stat (mkStats (FLIPPED_PX (stat s)) (FRAMES (stat s))
         (u64 (PAINT_CALLS (stat s) + 1)) (LOG_TICK (stat s))) s)
   | None => mret tt
   end);;
  on_win i blit_body.

(** ** Windows *)
(** [Surface::create]: zeroed pixels in pages of their own. *)
Definition gui_mem s : Surface.gui_mem P :=
  Surface.mkGui (Vmm.allocator (Sched.vm (Kernel.sc (sys s)))) (Kernel.mem (sys s)).
Definition set_gui_mem (g : Surface.gui_mem P) s : wm P :=
  set_sys (Kernel.set_sc (Sched.set_vm
    (Vmm.set_phys (Surface.phys g) (Vmm.set_allocator (Surface.alloc g) (Sched.vm (Kernel.sc (sys s)))))
    (Kernel.sc (sys s))) (sys s)) s.
Definition create_surface (wd ht : Z) : M (wm P) (option surface) :=
  r ← zoom gui_mem set_gui_mem (Surface.create wd ht);
  mret (match r with
        | Some _ => Some (mkSurf wd ht (replicate (Z.to_nat (wd * ht)) 0))
        | None => None
        end).

(** [win.title[..tn].copy_from_slice(..); win.title[tn] = 0] *)
Definition with_title (str : list Z) (v : window) : window :=
  let tn := Z.min (zlen str) 23 in
  mkWin (zset (take (Z.to_nat tn) str ++ drop (Z.to_nat tn) (title v)) tn 0)
    (wx v) (wy v) (ww v) (wh v) (body v) (frame v) (used v) (focused v) (content_dirty v)
    (chrome_dirty v) (animate v) (vt v) (on_paint v).
Definition with_size (a b : Z) (v : window) : window :=
  mkWin (title v) (wx v) (wy v) a b (body v) (frame v) (used v) (focused v) (content_dirty v)
    (chrome_dirty v) (animate v) (vt v) (on_paint v).
Definition with_used (b : bool) (v : window) : window :=
  mkWin (title v) (wx v) (wy v) (ww v) (wh v) (body v) (frame v) b (focused v) (content_dirty v)
    (chrome_dirty v) (animate v) (vt v) (on_paint v).
Definition with_on_paint (k : option hook) (v : window) : window :=
  mkWin (title v) (wx v) (wy v) (ww v) (wh v) (body v) (frame v) (used v) (focused v)
    (content_dirty v) (chrome_dirty v) (animate v) (vt v) k.

(** The previously focused window loses the focus. *)
Definition unfocus (f : Z) : M desk unit :=
  update_win f (with_focus false);;
  update_win f (with_chrome true);;
  v ← aget WINS f;
  dirty_call (Dirty.add (window_rect_screen v)).

Definition create_window (str : list Z) (px py pw ph : Z) (k : option hook) : M (wm P) Z :=
  r ← for_range 0 GUI_MAX_WINDOWS (λ i,
    v ← get_win i;
    if used v then mret None
    else
      b ← create_surface pw ph;
      f ← create_surface (i32 (pw + 2)) (i32 (i32 (ph + GUI_TITLE_H) + 2));
      match b, f with
      | Some b, Some f =>
          on_win i (
            modify (with_body (Some b));; modify (with_frame (Some f));;
            modify (with_title str);; modify (with_pos px py);; modify (with_size pw ph);;
            modify (with_used true);; modify (with_vt (-1));; modify (with_on_paint k));;
          fi ← gets (λ s, FOCUSED_IDX (dk s));
          (if fi >=? 0 then desk_call (unfocus fi) else mret tt);;
          desk_call (modify (set_focused i));;
          on_win i (modify (with_focus true));;
          frame_render i;;
          v ← get_win i;
          desk_call (dirty_call (Dirty.add (window_rect_screen v)));;
          mret (Some i)
      | _, _ => mret (Some (-1))
      end);
  mret (default (-1) r).

Definition new_terminal : M (wm P) unit :=
  n ← kern_call (Kernel.vt_call Vterm.create);
  if n <? 0 then mret tt
  else
    str ← of_option (zget term_titles n);
    wid ← create_window str (i32 (100 + i32 (40 * n))) (i32 (120 + i32 (40 * n)))
      (Vterm.VT_COLS * Surface.FONT_W + 8) (Vterm.VT_ROWS * Surface.FONT_H + 8) (Some PaintTerminal);
    if wid <? 0 then mret tt
    else
      on_win wid (modify (with_vt n));;
      _ ← aget VT_WIN n;
      modify (λ s, set_vt_win (zset (VT_WIN s) n wid) s);;
      tid ← kern_call (Proc.spawn_path bin_sh [bin_sh]);
      (if tid >=? 0 then
         t ← kern_call (Kernel.sched_call (Sched.thread_at tid));
         match t with
         | Some _ =>
             kern_call (Kernel.sched_call (Sched.update_thread tid (Sched.with_vt n)));;
             kern_call (Kernel.sched_call (Sched.update_thread tid (Sched.set_cwd [47])))
         | None => mret tt
         end
       else mret tt);;
      route_keyboard n.

(** ** The mouse handler *)
Definition set_drag (a b c : Z) : M (wm P) unit :=
  modify (λ s, set_inp (mkInput (PREV_BUTTONS (inp s)) a b c) s).

(** A left press on window [hit]: the focus, then the keyboard, then the drag. *)
Definition focus_on (hit : Z) : M (wm P) unit :=
  f ← gets (λ s, FOCUSED_IDX (dk s));
  (if (f >=? 0) && negb (f =? hit) then desk_call (unfocus f) else mret tt);;
  desk_call (modify (set_focused hit));;
  v ← get_win hit;
  (if negb (focused v) then
     desk_call (update_win hit (with_chrome true);;
                v ← aget WINS hit;
                dirty_call (Dirty.add (window_rect_screen v)))
   else mret tt);;
  on_win hit (modify (with_focus true)).
Definition press (hit mx my : Z) : M (wm P) unit :=
  focus_on hit;;
  v ← get_win hit;
  (if vt v >=? 0 then route_keyboard (vt v) else mret tt);;
  if my <? wy v then set_drag hit (i32 (mx - wx v)) (i32 (my - wy v)) else mret tt.

(** The position limits of a dragged window. *)
Definition drag_to (sw sh mx my ox oy : Z) (v : window) : window :=
  let px := i32 (mx - ox) in
  let py := i32 (my - oy) in
  let px := if px <? i32 (- ww v + 40) then i32 (- ww v + 40) else px in
  let px := if px >? i32 (sw - 40) then i32 (sw - 40) else px in
  let py := if py <? GUI_TITLE_H then GUI_TITLE_H else py in
  let py := if py >? i32 (sh - 20) then i32 (sh - 20) else py in
  with_pos px py v.

Definition drag (mx my : Z) : M (wm P) unit :=
  d ← gets inp;
  v ← get_win (DRAG_WIN d);
  sw ← screen_w; sh ← screen_h;
  let v' := drag_to sw sh mx my (DRAG_OFFX d) (DRAG_OFFY d) v in
  on_win (DRAG_WIN d) (modify (λ _, v'));;
  if negb (wx v' =? wx v) || negb (wy v' =? wy v) then
    desk_call (dirty_call (Dirty.add
      (mkRect (i32 (wx v - 1)) (i32 (i32 (wy v - GUI_TITLE_H) - 1))
         (i32 (ww v' + 2)) (i32 (i32 (wh v' + GUI_TITLE_H) + 2)))));;
    desk_call (dirty_call (Dirty.add (window_rect_screen v')))
  else mret tt.

Definition wm_update_mouse : M (wm P) unit :=
  mx ← gets (λ s, Mouse.X (ms s));
  my ← gets (λ s, Mouse.Y (ms s));
  buttons ← gets (λ s, Mouse.BUTTONS (ms s));
  hit ← desk_call (hit_test mx my);
  prev ← gets (λ s, PREV_BUTTONS (inp s));
  let pressed := Z.land buttons (255 - prev) in
  (if negb (Z.land pressed 1 =? 0) then
     if hit >=? 0 then press hit mx my else mret tt
   else mret tt);;
  (if Z.land buttons 1 =? 0 then
     modify (λ s, set_inp (mkInput (PREV_BUTTONS (inp s)) (-1) (DRAG_OFFX (inp s)) (DRAG_OFFY (inp s))) s)
   else mret tt);;
  d ← gets (λ s, DRAG_WIN (inp s));
  (if negb (Z.land buttons 1 =? 0) && (d >=? 0) then drag mx my else mret tt);;
  modify (λ s, set_inp (mkInput buttons (DRAG_WIN (inp s)) (DRAG_OFFX (inp s)) (DRAG_OFFY (inp s))) s).

(** ** A turn of the compositor *)
(** Damage by the cursor and by animated windows. *)
Definition collect_damage : M (wm P) unit :=
  mx ← gets (λ s, Mouse.X (ms s));
  my ← gets (λ s, Mouse.Y (ms s));
  cx ← gets CURSOR_PREV_X;
  cy ← gets CURSOR_PREV_Y;
  (if negb (mx =? cx) || negb (my =? cy) then
     (if cx >=? 0 then desk_call (dirty_call (Dirty.add_xywh cx cy 12 18)) else mret tt);;
     desk_call (dirty_call (Dirty.add_xywh mx my 12 18));;
     modify (set_cursor_prev mx my)
   else mret tt);;
  for_each 0 GUI_MAX_WINDOWS (λ i,
    v ← get_win i;
    if used v && animate v then desk_call (mark_dirty i) else mret tt).

(** Stale frame caches are rendered again. *)
Definition refresh : M (wm P) unit :=
  for_each 0 GUI_MAX_WINDOWS (λ i,
    v ← get_win i;
    if used v && (content_dirty v || chrome_dirty v) then frame_render i else mret tt).

Definition take_damage : M (wm P) (Z * list rect) :=
  desk_call (dirty_call (Dirty.flush (replicate (Z.to_nat Dirty.DIRTY_MAX_RECTS) (mkRect 0 0 0 0)))).

(** One damaged rectangle: wallpaper, header line, windows bottom up. *)
Definition repaint_rect (r : rect) : M (wm P) unit :=
  bb_call (Surface.fill_rect r C_WALLPAPER);;
  (if rect_intersects r HDR then
     bb_call (Surface.draw_string FONT8X16 12 10 hdr_line 0xFF9BAEDC C_WALLPAPER)
   else mret tt);;
  for_each 0 GUI_MAX_WINDOWS (λ i,
    v ← get_win i;
    if negb (used v) then mret tt
    else if negb (rect_intersects r (window_rect_screen v)) then mret tt
    else
      f ← of_option (frame v);
      bb_call (blit_clipped (i32 (wx v - FRAME_BX)) (i32 (i32 (wy v - GUI_TITLE_H) - FRAME_BX)) f r)).
Fixpoint repaint (rs : list rect) : M (wm P) unit :=
  match rs with
  | [] => mret tt
  | r :: rs => repaint_rect r;; repaint rs
  end.

Definition draw_cursor : M (wm P) unit :=
  mx ← gets (λ s, Mouse.X (ms s));
  my ← gets (λ s, Mouse.Y (ms s));
  bb_call (draw_cursor_at mx my).

(** The damaged spans go to the screen. *)
Definition flip_rect (r : rect) : M (wm P) unit :=
  pitch ← fb_call Fb.pitch_bytes;
  bb ← gets BACKBUFFER;
  for_each (y r) (i32 (y r + h r)) (λ py,
    for_each 0 (w r) (λ i,
      c ← of_option (zget (pixels bb) (i32 (i32 (py * sw bb) + x r) + i));
      fb_call (Fb.store 4 (py * pitch + x r * 4 + i * 4) c)));;
  modify (λ s, set_stat (mkStats (u64 (FLIPPED_PX (stat s) + i32 (w r * h r))) (FRAMES (stat s))
    (PAINT_CALLS (stat s)) (LOG_TICK (stat s))) s).
Fixpoint flip (rs : list rect) : M (wm P) unit :=
  match rs with
  | [] => mret tt
  | r :: rs => flip_rect r;; flip rs
  end.

Definition frame_line (st : stats) : list Z :=
  Lines.str "gui: " ++ Lines.dec_u (FLIPPED_PX st) ++ Lines.str " px flipped, " ++ Lines.dec_u (PAINT_CALLS st) ++
  Lines.str " content paints in " ++ Lines.dec_u (FRAMES st) ++ Lines.str " damaged frames".
Definition count_frame : M (wm P) unit :=
  modify (λ s, set_stat (mkStats (FLIPPED_PX (stat s)) (u64 (FRAMES (stat s) + 1))
    (PAINT_CALLS (stat s)) (LOG_TICK (stat s))) s);;
  now ← timer_ticks;
  st ← gets stat;
  if u64 (now - LOG_TICK st) >=? 100 then
    klog_info (frame_line st);;
    modify (set_stat (mkStats 0 0 0 now))
  else mret tt.

(** What is done before the damage is taken, and with it. *)
Definition gather : M (wm P) unit :=
  want ← gets WANT_NEW_TERM;
  (if (want : bool) then modify (set_want false);; new_terminal else mret tt);;
  wm_update_mouse;;
  collect_damage;;
  refresh.
Definition present (d : Z * list rect) : M (wm P) unit :=
  if d.1 >? 0 then
    let rs := take (Z.to_nat d.1) d.2 in
    repaint rs;; draw_cursor;; flip rs;; count_frame
  else mret tt.
Definition compositor_turn : M (wm P) unit :=
  gather;;
  d ← take_damage;
  present d.

(** ** Boot *)
Definition set_mouse_at (px py : Z) : M (wm P) unit :=
  modify (λ s, set_ms (Mouse.set_pos px py (ms s)) s).
Definition set_mouse_buttons (b : Z) : M (wm P) unit :=
  modify (λ s, set_ms (Mouse.set_buttons b (ms s)) s).
Definition clear_flags (i : Z) : M (wm P) unit :=
  on_win i (modify (with_chrome false));;
  on_win i (modify (with_content false)).

(** A move of [drag_selftest]; the answer is its [pass]. *)
Definition drag_move (id sx sy step : Z) : M (wm P) bool :=
  set_mouse_at (i32 (sx + i32 (step * 12))) (i32 (sy + i32 (step * 6)));;
  desk_call (dirty_call Dirty.clear);;
  wm_update_mouse;;
  v ← get_win id;
  k ← gets (λ s, Dirty.n (DIRTY (dk s)));
  mret (negb (content_dirty v || chrome_dirty v) && negb ((k <? 1) || (k >? 4))).
Fixpoint drag_moves (id sx sy : Z) (n : nat) (step : Z) : M (wm P) bool :=
  match n with
  | O => mret true
  | S n =>
      ok ← drag_move id sx sy step;
      oks ← drag_moves id sx sy n (step + 1);
      mret (ok && oks)
  end.

Definition drag_selftest (id orig_x orig_y : Z) : M (wm P) bool :=
  let sx := i32 (orig_x + 20) in
  let sy := i32 (orig_y - 10) in
  set_mouse_at sx sy;;
  set_mouse_buttons 0;;
  wm_update_mouse;;
  set_mouse_buttons 1;;
  wm_update_mouse;;
  clear_flags id;;
  pass ← drag_moves id sx sy 8 1;
  set_mouse_buttons 0;;
  wm_update_mouse;;
  v ← get_win id;
  let pass := pass && ((wx v =? i32 (orig_x + 96)) && (wy v =? i32 (orig_y + 48))) in
  on_win id (modify (with_pos orig_x orig_y));;
  clear_flags id;;
  desk_call (dirty_call Dirty.clear);;
  desk_call (dirty_call Dirty.add_all);;
  mret pass.

Definition TERMINAL : list Z := [116; 101; 114; 109; 105; 110; 97; 108].
Definition DEMO : list Z := [100; 101; 109; 111].
Definition COMPOSITOR : list Z := [99; 111; 109; 112; 111; 115; 105; 116; 111; 114].

(** The back buffer: its pixels are what the memory held.  The answer of
    [alloc_pages] is not checked; a buffer at physical address 0 has no place
    in this model. *)
Definition create_backbuffer (w h : Z) : M (wm P) unit :=
  let npages := u64 (u64 (u64 (u64 w * u64 h) * 4) + PAGE_SIZE - 1) / PAGE_SIZE in
  pa ← zoom gui_mem set_gui_mem (Surface.alloc_call (alloc_pages npages PAGE_SIZE));
  if pa =? 0 then of_option None
  else
    modify (λ s, set_backbuffer (mkSurf w h
      (map (λ i, load_le 4 (Surface.phys (gui_mem s)) (pa + i * 4)) (seqZ 0 (w * h)))) s).

(** [tramp] is [thread_trampoline], [thread] the address of
    [compositor_thread]. *)
Definition init (tramp thread : Z) : M (wm P) unit :=
  w ← screen_w; h ← screen_h;
  create_backbuffer w h;;
  desk_call (dirty_call (Dirty.init w h));;
  _ ← zoom (λ _, Dirty.new) (λ _ s, s) Dirty.selftest;
  desk_call (dirty_call Dirty.add_all);;
  for_each 0 Vterm.VT_MAX (λ i, _ ← aget VT_WIN i; modify (λ s, set_vt_win (zset (VT_WIN s) i (-1)) s));;
  kern_call (Kernel.vt_call Vterm.set_dirty_hook);;
  kern_call (Kernel.kb_call (modify Kbd.set_fn_hook));;
  vt0 ← kern_call (Kernel.vt_call Vterm.create);
  wid ← create_window TERMINAL 60 90 (Vterm.VT_COLS * Surface.FONT_W + 8)
    (Vterm.VT_ROWS * Surface.FONT_H + 8) (Some PaintTerminal);
  (if (wid >=? 0) && (vt0 >=? 0) then
     on_win wid (modify (with_vt vt0));;
     _ ← aget VT_WIN vt0;
     modify (λ s, set_vt_win (zset (VT_WIN s) vt0 wid) s);;
     route_keyboard vt0
   else mret tt);;
  demo_id ← create_window DEMO 600 200 340 200 (Some PaintDemo);
  (if demo_id >=? 0 then on_win demo_id (modify (with_animate true)) else mret tt);;
  (if wid >=? 0 then drag_selftest wid 60 90;; mret tt else mret tt);;
  modify (set_sink true);;
  _ ← kern_call (Kernel.sched_call (Sched.kthread_create tramp COMPOSITOR thread 0));
  klog_info (Lines.str "gui: " ++ Lines.dec_i w ++ Lines.str "x" ++ Lines.dec_i h ++ Lines.str ", compositor running").
End wm.
End Wm.
