(* ===== verification/Compose.v ===== *)
(** * What the compositor paints

    The clipped blit and the cursor as pixel functions, and the repainting of
    a damaged rectangle as layers over the backdrop. *)
From S2P Require Import Prelude PageAlloc Mem Surface Dirty Mouse Fb Desk Kernel Wm.
Import Surface (rect, mkRect, inside, near, rect_near, surface, mkSurf, sw, sh, pixels, pixel, surface_ok, repainted).

Module Compose.
Import Desk Wm.

Lemma repainted_over s0 s s' f g : repainted s0 s f → repainted s s' g → repainted s0 s' g.
Proof.
  intros (A1 & A2 & A3 & A4) (B1 & B2 & B3 & B4). split_and!; [congruence..|].
  intros px py Hx Hy. apply B4; by rewrite ?A1, ?A2.
Qed.

(** [r] lies on the surface. *)
Definition within (s : surface) (r : rect) : Prop :=
  0 ≤ Surface.x r ∧ 0 ≤ Surface.y r ∧ 0 < Surface.w r ∧ 0 < Surface.h r ∧
  Surface.x r + Surface.w r ≤ sw s ∧ Surface.y r + Surface.h r ≤ sh s.

Lemma wp_blit_clipped s0 s f dx dy src c :
  surface_ok s0 → repainted s0 s f → surface_ok src → near (sw s0) → near (sh s0) →
  near dx → near dy → near (sw src) → near (sh src) → within s0 c →
  wp (blit_clipped dx dy src c) (λ _ s', repainted s0 s' (λ px py,
    if decide (inside c px py ∧ inside (mkRect dx dy (sw src) (sh src)) px py)
    then pixel src (px - dx) (py - dy) else f px py)) s.
Proof.
  intros Hok Hre Hoks Hsw Hsh Hdx Hdy Hssw Hssh (C1 & C2 & C3 & C4 & C5 & C6). unfold near in *.
  unfold blit_clipped. cbv zeta.
  rewrite (i32_id (dx + _)), (i32_id (Surface.x c + _)), (i32_id (dy + _)), (i32_id (Surface.y c + _)) by lia.
  set (x0 := Z.max dx (Surface.x c)). set (y0 := Z.max dy (Surface.y c)).
  set (x1 := Z.min (dx + sw src) (Surface.x c + Surface.w c)).
  set (y1 := Z.min (dy + sh src) (Surface.y c + Surface.h c)).
  assert (∀ px py, inside c px py ∧ inside (mkRect dx dy (sw src) (sh src)) px py ↔
    x0 ≤ px < x1 ∧ y0 ≤ py < y1) as Hin.
  { intros px py. unfold inside, x0, x1, y0, y1. simpl. lia. }
  assert (0 ≤ x0 ∧ x1 ≤ sw s0 ∧ 0 ≤ y0 ∧ y1 ≤ sh s0 ∧ dx ≤ x0 ∧ x1 ≤ dx + sw src ∧ dy ≤ y0 ∧
    y1 ≤ dy + sh src) as (B1 & B2 & B3 & B4 & B5 & B6 & B7 & B8) by (unfold x0, x1, y0, y1; lia).
  clearbody x0 x1 y0 y1.
  set (g := λ px py, pixel src (px - dx) (py - dy)).
  destruct (Z.leb_spec x1 x0); cbn [orb].
  { wp_run. eapply Surface.repainted_ext; [exact Hre|]. intros px py _ _.
    rewrite decide_False; [done|]. rewrite Hin. lia. }
  destruct (Z.leb_spec y1 y0).
  { wp_run. eapply Surface.repainted_ext; [exact Hre|]. intros px py _ _.
    rewrite decide_False; [done|]. rewrite Hin. lia. }
  pose proof (Surface.su_size _ Hok) as Hsize. pose proof (Surface.su_size _ Hoks) as Hssize.
  apply (wp_for_each (λ k s', repainted s0 s' (λ px py,
    if decide ((x0 ≤ px < x1 ∧ y0 ≤ py < y1) ∧ py < k) then g px py else f px py))).
  - lia.
  - eapply Surface.repainted_ext; [exact Hre|]. intros px py _ _. by rewrite decide_False by lia.
  - intros k s1 Hk Hre1. wp_run. pose proof Hre1 as (Hw1 & _). rewrite Hw1.
    assert (0 ≤ x0 < sw s0) as Hxr by lia. assert (0 ≤ k < sh s0) as Hyr by lia.
    assert (0 ≤ x0 - dx < sw src) as Hsx by lia. assert (0 ≤ k - dy < sh src) as Hsy by lia.
    pose proof (Surface.pixel_index s0 _ _ Hok Hxr Hyr).
    pose proof (Surface.pixel_index src _ _ Hoks Hsx Hsy).
    rewrite (i32_id (k * sw s0)) by nia. rewrite (i32_id (k - dy)), (i32_id (x0 - dx)) by lia.
    rewrite (i32_id ((k - dy) * sw src)) by nia. rewrite !i32_id by lia.
    apply (wp_for_each (λ j s', repainted s0 s' (λ px py,
      if decide ((x0 ≤ px < x1 ∧ y0 ≤ py < y1) ∧ (py < k ∨ py = k ∧ px < x0 + j))
      then g px py else f px py))).
    + lia.
    + eapply Surface.repainted_ext; [exact Hre1|]. intros px py _ _. apply Surface.decide_iff. lia.
    + intros j s2 Hj Hre2. apply wp_bind. rewrite <- Z.add_assoc.
      destruct (Surface.pixel_some src (x0 - dx + j) (k - dy) Hoks) as [p Hp]; [lia|done|].
      apply wp_of_option. exists p. split; [done|]. rewrite <- Z.add_assoc.
      eapply wp_mono; [apply (Surface.wp_put_pixel s2 _ (x0 + j) k p s0 Hok Hre2); lia|].
      intros [] s3 Hre3. eapply Surface.repainted_ext; [exact Hre3|]. intros px py _ _. cbv beta.
      assert (g (x0 + j) k = Some p) as Hg.
      { unfold g, pixel. rewrite decide_True by lia.
        by replace (x0 + j - dx) with (x0 - dx + j) by lia. }
      destruct (decide (px = x0 + j ∧ py = k)) as [[-> ->]|Hne].
      * by rewrite decide_True by lia.
      * apply Surface.decide_iff. lia.
    + intros s2 Hre2. eapply Surface.repainted_ext; [exact Hre2|]. intros px py _ _.
      apply Surface.decide_iff. lia.
  - intros s1 Hre1. eapply Surface.repainted_ext; [exact Hre1|]. intros px py _ _.
    apply Surface.decide_iff. rewrite Hin. lia.
Qed.

(** ** The cursor *)
(** The colour of the arrow with its tip at ([cx], [cy]), where it has one. *)
Definition cursor_pixel (cx cy px py : Z) : option Z :=
  bits ← zget CURSOR_BMP (py - cy);
  v ← zget bits (px - cx);
  if v =? 0 then None else Some (if v =? 2 then C_CURSOR_BG else C_CURSOR_FG).

Lemma cursor_shape row : 0 ≤ row < 18 → ∃ bits, zget CURSOR_BMP row = Some bits ∧ zlen bits = 12.
Proof.
  intros Hr. destruct (zget_lt CURSOR_BMP row Hr) as [bits Hb]. exists bits. split; [done|].
  assert (Forall (λ b, zlen b = 12) CURSOR_BMP) as Hf by (by repeat constructor).
  by apply (Forall_zget _ _ _ _ Hf Hb).
Qed.
Lemma cursor_pixel_in cx cy px py c :
  cursor_pixel cx cy px py = Some c → cx ≤ px < cx + 12 ∧ cy ≤ py < cy + 18.
Proof.
  unfold cursor_pixel. destruct (zget CURSOR_BMP (py - cy)) as [bits|] eqn:Hb; [|done]. simpl.
  pose proof (zget_Some_lt _ _ _ Hb) as Hr. change (zlen CURSOR_BMP) with 18 in Hr.
  destruct (cursor_shape _ Hr) as (bits' & Hb' & Hl). rewrite Hb in Hb'. injection Hb' as <-.
  destruct (zget bits (px - cx)) as [v|] eqn:Hv; [|done]. intros _.
  apply zget_Some_lt in Hv. lia.
Qed.

Lemma wp_draw_cursor_at s0 s f mx my :
  surface_ok s0 → repainted s0 s f → near (sw s0) → near (sh s0) → near mx → near my →
  wp (draw_cursor_at mx my) (λ _ s', repainted s0 s' (λ px py,
    match cursor_pixel mx my px py with Some c => Some c | None => f px py end)) s.
Proof.
  intros Hok Hre Hsw Hsh Hmx Hmy. unfold near in *. unfold draw_cursor_at.
  pose proof (Surface.su_size _ Hok) as Hsize.
  set (g := λ (k j px py : Z), if decide (py < my + k ∨ py = my + k ∧ px < mx + j) then
    match cursor_pixel mx my px py with Some c => Some c | None => f px py end else f px py).
  assert (∀ k j px py, (∀ c, cursor_pixel mx my px py = Some c →
    (py < my + k ∨ py = my + k ∧ px < mx + j)) → g k j px py =
    match cursor_pixel mx my px py with Some c => Some c | None => f px py end) as Hall.
  { intros k j px py Hc. unfold g. destruct (cursor_pixel mx my px py) as [c|].
    - by rewrite decide_True by (by apply (Hc c)).
    - by case_decide. }
  apply (wp_for_each (λ k s', repainted s0 s' (g k 0))).
  - lia.
  - eapply Surface.repainted_ext; [exact Hre|]. intros px py _ _. unfold g.
    case_decide as Hd; [|done]. destruct (cursor_pixel mx my px py) eqn:Hc; [|done].
    apply cursor_pixel_in in Hc. lia.
  - intros k s1 Hk Hre1. destruct (cursor_shape k Hk) as (bits & Hb & Hbl).
    apply (wp_for_each (λ j s', repainted s0 s' (g k j))); [lia|exact Hre1| |].
    + intros j s2 Hj Hre2. destruct (zget_lt bits j) as [v Hv]; [lia|].
      wp_step. apply wp_of_option. exists bits. split; [done|]. wp_step. apply wp_of_option.
      exists v. split; [done|].
      assert (cursor_pixel mx my (mx + j) (my + k) =
        if v =? 0 then None else Some (if v =? 2 then C_CURSOR_BG else C_CURSOR_FG)) as Hcp.
      { unfold cursor_pixel. rewrite !Z.add_simpl_l, Hb. simpl. by rewrite Hv. }
      assert (∀ px py, g k (j + 1) px py = if decide (px = mx + j ∧ py = my + k) then
        match cursor_pixel mx my px py with Some c => Some c | None => f px py end
        else g k j px py) as Hg.
      { intros px py. unfold g. repeat case_decide; done || lia. }
      assert (∀ px py, (px, py) = (mx + j, my + k) → g k j px py = f px py) as Hgf.
      { intros px py [= -> ->]. unfold g. by rewrite decide_False by lia. }
      destruct (v =? 0) eqn:Ev; wp_run.
      { eapply Surface.repainted_ext; [exact Hre2|]. intros px py _ _. rewrite Hg.
        case_decide as Hd; [|done]. destruct Hd as [-> ->]. by rewrite Hcp, Hgf. }
      pose proof Hre2 as (Hw2 & Hh2 & _). rewrite Hw2, Hh2, (i32_id (mx + j)), (i32_id (my + k)) by lia.
      rewrite !Z.geb_leb.
      destruct (decide (0 ≤ mx + j < sw s0 ∧ 0 ≤ my + k < sh s0)) as [[Hx Hy]|Hout].
      * rewrite (proj2 (Z.ltb_ge (mx + j) 0)), (proj2 (Z.ltb_ge (my + k) 0)),
          (proj2 (Z.leb_gt (sw s0) _)), (proj2 (Z.leb_gt (sh s0) _)) by lia. cbn [orb].
        pose proof (Surface.pixel_index s0 _ _ Hok Hx Hy).
        rewrite (i32_id ((my + k) * sw s0)) by nia. rewrite i32_id by lia.
        eapply wp_mono; [apply (Surface.wp_put_pixel s2 _ (mx + j) (my + k) _ s0 Hok Hre2 Hx Hy)|].
        intros [] s3 Hre3. eapply Surface.repainted_ext; [exact Hre3|]. intros px py _ _. cbv beta.
        rewrite Hg. case_decide as Hd; [|done]. destruct Hd as [-> ->]. by rewrite Hcp.
      * assert ((mx + j <? 0) || (my + k <? 0) || (sw s0 <=? mx + j) || (sh s0 <=? my + k) = true) as ->.
        { destruct (Z.ltb_spec (mx + j) 0), (Z.ltb_spec (my + k) 0), (Z.leb_spec (sw s0) (mx + j)),
            (Z.leb_spec (sh s0) (my + k)); simpl; done || lia. }
        wp_run. eapply Surface.repainted_ext; [exact Hre2|]. intros px py Hpx Hpy. rewrite Hg.
        case_decide as Hd; [|done]. lia.
    + intros s2 Hre2. eapply Surface.repainted_ext; [exact Hre2|]. intros px py _ _.
      unfold g. destruct (cursor_pixel mx my px py) eqn:Hc; [|by repeat case_decide].
      apply cursor_pixel_in in Hc. apply Surface.decide_iff. lia.
  - intros s1 Hre1. eapply Surface.repainted_ext; [exact Hre1|]. intros px py _ _.
    apply Hall. intros c Hc. apply cursor_pixel_in in Hc. lia.
Qed.
(** ** Layers *)
Definition HDR_FG : Z := 0xFF9BAEDC.

(** Wherever a window is, its cache has a pixel. *)
Lemma frame_pixel_some v px py :
  window_ok v → footprint v px py →
  ∃ c, frame_pixel v (px - (wx v - 1)) (py - (wy v - GUI_TITLE_H - 1)) = Some c.
Proof.
  intros Hok Hf. unfold footprint in Hf. rewrite (window_rect_ok v Hok) in Hf.
  destruct Hok as [_ _ _ _ _ _ (f & Hfr & Hsok & Hw & Hh)]. unfold frame_pixel. rewrite Hfr. simpl.
  unfold inside, GUI_TITLE_H in *. simpl in Hf. unfold pixel. rewrite decide_True by lia.
  apply Surface.pixel_some; [done|lia|lia].
Qed.

Lemma layers_base l px py acc :
  (∀ v, v ∈ l → used v = true → window_ok v) →
  fold_left (layer px py) l acc =
  match fold_left (layer px py) l None with Some c => Some c | None => acc end.
Proof.
  revert acc. induction l as [|v l IH]; intros acc Hl; simpl; [done|].
  assert (∀ u, u ∈ l → used u = true → window_ok u) as Hl' by (intros u Hu; apply Hl; by right).
  rewrite (IH (layer px py acc v)), (IH (layer px py None v)) by done.
  destruct (fold_left _ l None); [done|]. unfold layer. case_decide as Hd; [|done].
  destruct Hd as [Hu Hf]. assert (v ∈ v :: l) as Hin by left.
  by destruct (frame_pixel_some v px py (Hl v Hin Hu) Hf) as [c ->].
Qed.

(** Layering a window is blitting its cache at its place. *)
Lemma layer_blit v f px py acc :
  window_ok v → used v = true → frame v = Some f → sw f = ww v + 2 → sh f = wh v + GUI_TITLE_H + 2 →
  layer px py acc v =
    let dx := wx v - 1 in let dy := wy v - GUI_TITLE_H - 1 in
    if decide (inside (mkRect dx dy (sw f) (sh f)) px py) then pixel f (px - dx) (py - dy) else acc.
Proof.
  intros Hok Hu Hf Hw Hh. cbv zeta. unfold layer, frame_pixel. rewrite Hf, Hw, Hh. simpl.
  apply Surface.decide_iff. unfold footprint. rewrite (window_rect_ok v Hok). tauto.
Qed.

Section repaint.
Context {P : Type} `{PageAllocator P}.
Variable FONT8X16 : list (list Z).
Implicit Types s : wm P.

(** The header line as it is drawn on a screen [wd] wide. *)
Definition hdr_box (wd : Z) : rect :=
  mkRect 12 10 (Surface.FONT_W * Surface.drawn wd 12 hdr_line) Surface.FONT_H.
Definition hdr_pixel (px py : Z) : option Z :=
  Surface.text_pixel FONT8X16 12 10 hdr_line HDR_FG C_WALLPAPER px py.
Definition backdrop (wd px py : Z) : option Z :=
  if decide (inside (hdr_box wd) px py) then hdr_pixel px py else Some C_WALLPAPER.
(** The desk without the cursor. *)
Definition desk_pixel (d : desk) (wd px py : Z) : option Z :=
  match look d px py with Some c => Some c | None => backdrop wd px py end.

Lemma drawn_le wd cx str : Surface.drawn wd cx str ≤ zlen str.
Proof.
  revert cx. induction str as [|c str IH]; intros cx; simpl; [done|]. rewrite zlen_cons.
  pose proof (zlen_nonneg str). destruct (_ || _); [lia|]. specialize (IH (cx + Surface.FONT_W)). lia.
Qed.
Lemma hdr_box_in wd px py : inside (hdr_box wd) px py → inside HDR px py.
Proof.
  pose proof (drawn_le wd 12 hdr_line) as Hd. change (zlen hdr_line) with 61 in Hd.
  unfold inside, hdr_box, HDR, Surface.FONT_W, Surface.FONT_H.
  cbn [Surface.x Surface.y Surface.w Surface.h]. lia.
Qed.

Lemma rect_intersects_spec a b :
  rect_near a → rect_near b →
  rect_intersects a b = bool_decide (Surface.x a < Surface.x b + Surface.w b ∧
    Surface.x b < Surface.x a + Surface.w a ∧ Surface.y a < Surface.y b + Surface.h b ∧
    Surface.y b < Surface.y a + Surface.h a).
Proof.
  intros (A1 & A2 & A3 & A4) (B1 & B2 & B3 & B4). unfold near in *. unfold rect_intersects.
  narrow. apply eq_bool_prop_intro. rewrite bool_decide_spec, !andb_True, !Is_true_true, !Z.ltb_lt.
  tauto.
Qed.
Lemma intersects_inside a b px py :
  rect_near a → rect_near b → rect_intersects a b = false → inside a px py → ¬ inside b px py.
Proof.
  intros Ha Hb Hf Hin. rewrite rect_intersects_spec in Hf by done. apply bool_decide_eq_false in Hf.
  unfold inside in *. lia.
Qed.

Lemma wp_bb_call {A} (m : M surface A) (Q : A → wm P → Prop) s :
  wp m (λ a b, Q a (set_backbuffer b s)) (BACKBUFFER s) → wp (bb_call m) Q s.
Proof. intros Hm. unfold bb_call. by apply wp_zoom. Qed.

Lemma set_backbuffer_twice a b s : set_backbuffer a (set_backbuffer b s) = set_backbuffer a s.
Proof. done. Qed.

Context (s : wm P).
Let d := dk s.
Let bb := BACKBUFFER s.
Hypothesis Hfont : Surface.font_ok FONT8X16.
Hypothesis Hdesk : desk_wf d.
Hypothesis Hbb : surface_ok bb.
Hypothesis Hsize : sw bb < 2 ^ 29 ∧ sh bb < 2 ^ 29.

Lemma wins_ok v : v ∈ WINS d → used v = true → window_ok v.
Proof.
  intros (i & Hi)%list_elem_of_lookup. apply (dk_win _ Hdesk (Z.of_nat i)).
  unfold zget. rewrite decide_True by lia. by rewrite Nat2Z.id.
Qed.

Definition fill_paint (r : rect) (f : Z → Z → option Z) (px py : Z) : option Z :=
  if decide (inside r px py) then desk_pixel d (sw bb) px py
  else if decide (rect_intersects r HDR = true ∧ inside (hdr_box (sw bb)) px py)
       then hdr_pixel px py else f px py.

(** The backdrop of [r]. *)
Lemma wp_backdrop r b f :
  repainted bb b f → within bb r →
  wp (bb_call (Surface.fill_rect r C_WALLPAPER);;
      (if rect_intersects r HDR then
         bb_call (Surface.draw_string FONT8X16 12 10 hdr_line HDR_FG C_WALLPAPER)
       else mret tt))
    (λ _ s', ∃ b', s' = set_backbuffer b' s ∧ repainted bb b' (λ px py,
      if decide (inside r px py) then backdrop (sw bb) px py
      else if decide (rect_intersects r HDR = true ∧ inside (hdr_box (sw bb)) px py)
       then hdr_pixel px py else f px py)) (set_backbuffer b s).
Proof.
  intros Hre (R1 & R2 & R3 & R4 & R5 & R6). pose proof (Surface.repainted_ok _ _ _ Hbb Hre) as Hbok.
  pose proof Hre as (E1 & E2 & _ & E4). destruct Hsize as [Hsw Hsh]. destruct Hbb as [W1 W2 W3 W4].
  assert (rect_near r) as Hrn by (unfold rect_near, near; lia).
  wp_step. apply wp_bb_call. wp_use Surface.wp_fill_rect; [exact Hbok|cbn [BACKBUFFER set_backbuffer]; unfold near; rewrite E1; lia|
    cbn [BACKBUFFER set_backbuffer]; unfold near; rewrite E2; lia|exact Hrn|].
  cbn [BACKBUFFER set_backbuffer]. intros [] b1 Hre1. rewrite set_backbuffer_twice.
  pose proof (repainted_over _ _ _ _ _ Hre Hre1) as Hre2.
  destruct (rect_intersects r HDR) eqn:Hx.
  - apply wp_bb_call. wp_use (Surface.wp_draw_string FONT8X16 b1 bb); [exact Hfont| |done|exact Hsw|
      unfold near; lia|lia|unfold near; lia|exact Hre2|].
    { by repeat constructor. }
    intros [] b2 Hre3. exists b2. rewrite set_backbuffer_twice. split; [done|].
    eapply Surface.repainted_ext; [exact Hre3|]. intros px py Hpx Hpy. cbv beta.
    unfold backdrop. fold (hdr_box (sw bb)). fold (hdr_pixel px py).
    destruct (decide (inside (hdr_box (sw bb)) px py)).
    + rewrite (decide_True (P := true = true ∧ _)) by done. by destruct (decide (inside r px py)).
    + rewrite (decide_False (P := true = true ∧ _)) by tauto.
      destruct (decide (inside r px py)); [done|by apply E4].
  - wp_run. exists b1. split; [done|]. eapply Surface.repainted_ext; [exact Hre2|].
    intros px py Hpx Hpy. cbv beta. rewrite (decide_False (P := false = true ∧ _)) by (by intros [? _]).
    destruct (decide (inside r px py)) as [Hin|Hin]; [|by apply E4]. unfold backdrop. rewrite decide_False; [done|].
    intros Hb. apply hdr_box_in in Hb. by eapply (intersects_inside r HDR).
Qed.

(** The windows over it. *)
Lemma wp_layers r b f :
  repainted bb b f → within bb r →
  wp (for_each 0 GUI_MAX_WINDOWS (λ i,
    v ← get_win i;
    if negb (used v) then mret tt
    else if negb (rect_intersects r (window_rect_screen v)) then mret tt
    else
      f ← of_option (frame v);
      bb_call (blit_clipped (i32 (wx v - FRAME_BX)) (i32 (i32 (wy v - GUI_TITLE_H) - FRAME_BX)) f r)))
    (λ _ s', ∃ b', s' = set_backbuffer b' s ∧ repainted bb b' (λ px py,
      if decide (inside r px py) then fold_left (layer px py) (WINS d) (f px py) else f px py))
    (set_backbuffer b s).
Proof.
  intros Hre Hr. pose proof Hr as (R1 & R2 & R3 & R4 & R5 & R6).
  destruct Hsize as [Hsw Hsh]. pose proof Hbb as [W1 W2 W3 W4].
  assert (rect_near r) as Hrn by (unfold rect_near, near; lia).
  pose proof (dk_len _ Hdesk) as Hlen.
  apply (wp_for_each (λ k s', ∃ b', s' = set_backbuffer b' s ∧ repainted bb b' (λ px py,
      if decide (inside r px py) then fold_left (layer px py) (take (Z.to_nat k) (WINS d)) (f px py)
      else f px py))).
  - done.
  - exists b. split; [done|]. eapply Surface.repainted_ext; [exact Hre|]. intros px py _ _.
    by destruct (decide (inside r px py)).
  - intros k s1 Hk (b1 & -> & Hre1). unfold get_win.
    destruct (zget_lt (WINS d) k) as [v Hv]; [by rewrite Hlen|].
    wp_step. apply wp_aget. exists v. split; [exact Hv|].
    assert (take (Z.to_nat (k + 1)) (WINS d) = take (Z.to_nat k) (WINS d) ++ [v]) as Htake.
    { rewrite Z2Nat.inj_add by lia. change (Z.to_nat 1) with 1%nat. rewrite Nat.add_1_r.
      apply take_S_r. unfold zget in Hv. by rewrite decide_True in Hv by lia. }
    assert (∀ b', repainted bb b' (λ px py, if decide (inside r px py)
        then layer px py (fold_left (layer px py) (take (Z.to_nat k) (WINS d)) (f px py)) v else f px py) →
      ∃ b'', set_backbuffer b' s = set_backbuffer b'' s ∧ repainted bb b'' (λ px py,
      if decide (inside r px py) then fold_left (layer px py) (take (Z.to_nat (k + 1)) (WINS d)) (f px py)
      else f px py)) as Hfin.
    { intros b' Hb'. exists b'. split; [done|]. eapply Surface.repainted_ext; [exact Hb'|].
      intros px py _ _. cbv beta. destruct (decide (inside r px py)); [|done]. rewrite Htake, fold_left_app. done. }
    destruct (used v) eqn:Hu; cbn [negb].
    2: { wp_run. apply Hfin. eapply Surface.repainted_ext; [exact Hre1|]. intros px py _ _. cbv beta.
         destruct (decide (inside r px py)); [|done]. unfold layer at 2. rewrite Hu. by rewrite decide_False by (by intros [? _]). }
    pose proof (dk_win _ Hdesk k v Hv Hu) as Hw. pose proof (window_rect_near v Hw) as Hwn.
    destruct (rect_intersects r (window_rect_screen v)) eqn:Hx; cbn [negb].
    2: { wp_run. apply Hfin. eapply Surface.repainted_ext; [exact Hre1|]. intros px py _ _. cbv beta.
         destruct (decide (inside r px py)) as [Hin|]; [|done]. unfold layer at 2. rewrite decide_False; [done|].
         intros [_ Hf]. by eapply (intersects_inside r (window_rect_screen v)). }
    pose proof Hw as [X1 X2 X3 X4 X5 _ (fs & Hfs & Hfok & Hfw & Hfh)].
    pose proof (window_rect_ok v Hw) as Hwr. unfold GUI_TITLE_H, FRAME_BX in *.
    wp_step. apply wp_of_option. exists fs. split; [done|]. apply wp_bb_call.
    rewrite (i32_id (wx v - 1)), (i32_id (wy v - 20)), (i32_id (wy v - 20 - 1)) by lia.
    cbn [BACKBUFFER set_backbuffer].
    wp_use (wp_blit_clipped bb b1); [exact Hbb|exact Hre1|exact Hfok|..|exact Hr|]; [unfold near; lia..|].
    intros [] b2 Hre2. rewrite set_backbuffer_twice. apply Hfin.
    eapply Surface.repainted_ext; [exact Hre2|]. intros px py _ _. cbv beta.
    destruct (decide (inside r px py)) as [Hin|Hin].
    2: { by rewrite decide_False by (by intros [? _]). }
    rewrite (layer_blit v fs) by done. apply Surface.decide_iff. unfold GUI_TITLE_H. tauto.
  - intros s1 (b1 & -> & Hre1). exists b1. split; [done|].
    assert (take (Z.to_nat GUI_MAX_WINDOWS) (WINS d) = WINS d) as Ht.
    { apply take_ge. unfold zlen in Hlen. lia. }
    by rewrite Ht in Hre1.
Qed.

Lemma wp_repaint_rect r b f :
  repainted bb b f → within bb r →
  wp (repaint_rect FONT8X16 r) (λ _ s', ∃ b', s' = set_backbuffer b' s ∧
    repainted bb b' (fill_paint r f)) (set_backbuffer b s).
Proof.
  intros Hre Hr. unfold repaint_rect. apply wp_bind_assoc. wp_step.
  wp_use wp_backdrop; [exact Hre|exact Hr|]. intros [] s1 (b1 & -> & Hre1).
  wp_use wp_layers; [exact Hre1|exact Hr|]. intros [] s2 (b2 & -> & Hre2). exists b2.
  split; [done|]. eapply Surface.repainted_ext; [exact Hre2|]. intros px py _ _. cbv beta.
  unfold fill_paint. destruct (decide (inside r px py)); [|done].
  unfold desk_pixel, look. rewrite layers_base by exact wins_ok. done.
Qed.
End repaint.
(** ** All rectangles *)
Section frame.
Context {P : Type} `{PageAllocator P}.
Variable FONT8X16 : list (list Z).
Implicit Types s : wm P.

(** The header line is drawn without clipping: where a window is over it, a
    later rectangle's repaint may draw over the window. *)
Definition garbled (d : desk) (wd px py : Z) : Prop :=
  inside (hdr_box wd) px py ∧ look d px py ≠ None.
#[global] Instance garbled_dec d wd px py : Decision (garbled d wd px py).
Proof. apply _. Defined.

Lemma wp_repaint rs s b :
  Surface.font_ok FONT8X16 → desk_wf (dk s) → surface_ok (BACKBUFFER s) →
  sw (BACKBUFFER s) < 2 ^ 29 ∧ sh (BACKBUFFER s) < 2 ^ 29 →
  repainted (BACKBUFFER s) b (pixel b) → Forall (within (BACKBUFFER s)) rs →
  wp (repaint FONT8X16 rs) (λ _ s', ∃ b', s' = set_backbuffer b' s ∧
    repainted (BACKBUFFER s) b' (pixel b') ∧
    ∀ px py, 0 ≤ px < sw (BACKBUFFER s) → 0 ≤ py < sh (BACKBUFFER s) →
      ¬ garbled (dk s) (sw (BACKBUFFER s)) px py →
      Exists (λ r, inside r px py) rs ∨
        pixel b px py = desk_pixel FONT8X16 (dk s) (sw (BACKBUFFER s)) px py →
      pixel b' px py = desk_pixel FONT8X16 (dk s) (sw (BACKBUFFER s)) px py)
    (set_backbuffer b s).
Proof.
  intros Hfont Hd Hbb Hsz Hre Hrs. revert b Hre.
  induction Hrs as [|r rs Hr Hrs IH]; intros b Hre; cbn [repaint].
  { wp_run. exists b. split_and!; [done|done|]. intros px py _ _ _ [Hx|?]; [|done].
    by apply Exists_nil in Hx. }
  wp_step. wp_use (wp_repaint_rect FONT8X16 s Hfont Hd Hbb Hsz); [exact Hre|exact Hr|].
  intros [] s1 (b1 & -> & Hre1).
  assert (repainted (BACKBUFFER s) b1 (pixel b1)) as Hre1'.
  { destruct Hre1 as (A1 & A2 & A3 & _). by split_and!. }
  wp_use IH; [exact Hre1'|]. intros [] s2 (b2 & -> & Hre2 & Hp2). exists b2.
  split_and!; [done|done|]. intros px py Hx Hy Hng Hin. apply Hp2; [done..|].
  destruct Hre1 as (_ & _ & _ & Hpix). rewrite Hpix by done. unfold fill_paint.
  destruct (decide (inside r px py)) as [Hi|Ho]; [by right|].
  rewrite Exists_cons in Hin. destruct (decide (Exists (λ r, inside r px py) rs)); [by left|right].
  assert (pixel b px py = desk_pixel FONT8X16 (dk s) (sw (BACKBUFFER s)) px py) as Hb by tauto.
  case_decide as Hh; [|done]. destruct Hh as [_ Hh]. unfold desk_pixel, backdrop.
  destruct (look (dk s) px py) eqn:Hl; [|by rewrite decide_True].
  exfalso. apply Hng. split; [done|]. by rewrite Hl.
Qed.

Lemma wp_draw_cursor s b :
  surface_ok (BACKBUFFER s) → sw (BACKBUFFER s) < 2 ^ 29 → sh (BACKBUFFER s) < 2 ^ 29 →
  near (Mouse.X (ms s)) → near (Mouse.Y (ms s)) → repainted (BACKBUFFER s) b (pixel b) →
  wp draw_cursor (λ _ s', ∃ b', s' = set_backbuffer b' s ∧ repainted (BACKBUFFER s) b' (λ px py,
    match cursor_pixel (Mouse.X (ms s)) (Mouse.Y (ms s)) px py with
    | Some c => Some c | None => pixel b px py end)) (set_backbuffer b s).
Proof.
  intros Hok Hw Hh Hx Hy Hre. unfold draw_cursor. wp_run. pose proof Hok as []. apply wp_bb_call.
  wp_use (wp_draw_cursor_at (BACKBUFFER s) b); [done|exact Hre|unfold near; lia|unfold near; lia|exact Hx|exact Hy|].
  intros [] b' Hre'. by exists b'.
Qed.

(** ** The flip *)
Definition bb_value (bb : surface) (px py : Z) : Z := u32 (default 0 (pixel bb px py)).

Lemma wp_flip_row s0 s (bb : surface) r py f :
  Fb.fb_ok (fbs s0) → Fb.FB_BPP (fbs s0) = 32 → surface_ok bb →
  sw bb = Fb.FB_W (fbs s0) → sh bb = Fb.FB_H (fbs s0) → within bb r →
  Surface.y r ≤ py < Surface.y r + Surface.h r →
  (∃ g, s = set_fbs g s0 ∧ Fb.repainted (fbs s0) g f) →
  wp (for_each 0 (Surface.w r) (λ i,
      c ← of_option (zget (pixels bb) (i32 (i32 (py * sw bb) + Surface.x r) + i));
      fb_call (Fb.store 4 (py * Fb.FB_PITCH (fbs s0) + Surface.x r * 4 + i * 4) c)))
    (λ _ s', ∃ g, s' = set_fbs g s0 ∧ Fb.repainted (fbs s0) g (λ px qy,
      if decide (qy = py ∧ Surface.x r ≤ px < Surface.x r + Surface.w r) then bb_value bb px qy
      else f px qy)) s.
Proof.
  intros Hfb Hbpp Hbb Hw Hh (R1 & R2 & R3 & R4 & R5 & R6) Hpy (g0 & -> & Hg0).
  pose proof Hbb as [W1 W2 W3 W4]. assert (0 ≤ py < sh bb) as Hpyr by lia.
  assert (Fb.depth (fbs s0) = 4%nat) as Hdep by (unfold Fb.depth; by rewrite Hbpp).
  apply (wp_for_each (λ i s', ∃ g, s' = set_fbs g s0 ∧ Fb.repainted (fbs s0) g (λ px qy,
      if decide (qy = py ∧ Surface.x r ≤ px < Surface.x r + i) then bb_value bb px qy else f px qy))).
  - lia.
  - exists g0. split; [done|]. eapply Fb.redrawn_ext; [exact Hg0|]. intros px qy _.
    by rewrite decide_False by lia.
  - intros i s1 Hi (g & -> & Hg). assert (0 ≤ Surface.x r < sw bb) as Hxr by lia.
    assert (0 ≤ Surface.x r + i < sw bb) as Hxi by lia.
    pose proof (Surface.pixel_index bb _ _ Hbb Hxr Hpyr).
    rewrite (i32_id (py * sw bb)) by nia. rewrite i32_id by lia.
    replace (py * sw bb + Surface.x r + i) with (py * sw bb + (Surface.x r + i)) by lia.
    destruct (Surface.pixel_some bb (Surface.x r + i) py Hbb Hxi Hpyr) as [c Hc].
    wp_step. apply wp_of_option. exists c. split; [done|]. unfold fb_call. wp_step. cbn [fbs set_fbs].
    assert (Fb.visible (fbs s0) (Surface.x r + i) py) as Hv by (split; lia).
    pose proof (Fb.offset_in _ _ _ Hfb Hv) as [Ho1 Ho2]. unfold Fb.offset in *. rewrite Hdep in *.
    change (Z.of_nat 4) with 4 in *.
    replace (py * Fb.FB_PITCH (fbs s0) + Surface.x r * 4 + i * 4)
      with (py * Fb.FB_PITCH (fbs s0) + (Surface.x r + i) * 4) by lia.
    apply Fb.wp_store; [lia| |].
    { rewrite (Fb.rp_mode _ _ _ Hg). cbn [Fb.FB_PITCH Fb.FB_H Fb.set_buf]. lia. }
    eexists. split; [done|]. eapply Fb.redrawn_ext; [eapply (Fb.store_repainted (fbs s0) g _ (Surface.x r + i) py);
      [done|exact Hg|done|]|].
    { intros o. unfold Fb.offset. rewrite Hdep. done. }
    intros px qy _. cbv beta. destruct (decide (px = Surface.x r + i ∧ qy = py)) as [[-> ->]|Hne].
    + rewrite decide_True by lia. unfold bb_value, pixel. rewrite decide_True by lia. rewrite Hc.
      unfold Fb.shown. by rewrite Hdep.
    + apply Surface.decide_iff. lia.
  - done.
Qed.

Lemma wp_flip_rect s r f g0 :
  Fb.fb_ok (fbs s) → Fb.FB_BPP (fbs s) = 32 → Fb.FB_PITCH (fbs s) < 2 ^ 32 → surface_ok (BACKBUFFER s) →
  sw (BACKBUFFER s) = Fb.FB_W (fbs s) → sh (BACKBUFFER s) = Fb.FB_H (fbs s) →
  within (BACKBUFFER s) r → Fb.repainted (fbs s) g0 f →
  wp (flip_rect r) (λ _ s', ∃ g st, s' = set_stat st (set_fbs g s) ∧
    Fb.repainted (fbs s) g (λ px py, if decide (inside r px py) then bb_value (BACKBUFFER s) px py
      else f px py)) (set_fbs g0 s).
Proof.
  intros Hfb Hbpp Hp32 Hbb Hw Hh Hr Hg0. pose proof Hr as (R1 & R2 & R3 & R4 & R5 & R6).
  pose proof (Fb.fo_size _ Hfb) as [[] []]. pose proof (Fb.fo_pitch _ Hfb) as Hpitch.
  assert (u32 (Fb.FB_PITCH g0) = Fb.FB_PITCH (fbs s)) as Epitch.
  { rewrite (Fb.rp_mode _ _ _ Hg0). cbn [Fb.FB_PITCH Fb.set_buf]. apply u32_id. lia. }
  unfold flip_rect. wp_step. unfold fb_call at 1, Fb.pitch_bytes. wp_run. cbn [fbs set_fbs BACKBUFFER].
  rewrite Epitch. rewrite (i32_id (Surface.y r + Surface.h r)) by lia.
  apply (wp_for_each (λ k s', ∃ g, s' = set_fbs g s ∧ Fb.repainted (fbs s) g (λ px py,
    if decide (inside r px py ∧ py < k) then bb_value (BACKBUFFER s) px py else f px py))).
  - lia.
  - exists g0. split; [done|]. eapply Fb.redrawn_ext; [exact Hg0|]. intros px py _.
    rewrite decide_False; [done|]. unfold inside. lia.
  - intros k s1 Hk Hs1. eapply wp_mono; [apply (wp_flip_row s s1 (BACKBUFFER s) r k); try done; lia|].
    intros [] s2 (g & -> & Hg). exists g. split; [done|]. eapply Fb.redrawn_ext; [exact Hg|].
    intros px py _. cbv beta. unfold inside. repeat case_decide; done || lia.
  - intros s1 (g & -> & Hg). wp_run. eexists _, _. split; [done|].
    eapply Fb.redrawn_ext; [exact Hg|]. intros px py _. cbv beta.
    apply Surface.decide_iff. unfold inside. lia.
Qed.

Lemma wp_flip rs s g0 f :
  Fb.fb_ok (fbs s) → Fb.FB_BPP (fbs s) = 32 → Fb.FB_PITCH (fbs s) < 2 ^ 32 → surface_ok (BACKBUFFER s) →
  sw (BACKBUFFER s) = Fb.FB_W (fbs s) → sh (BACKBUFFER s) = Fb.FB_H (fbs s) →
  Forall (within (BACKBUFFER s)) rs → Fb.repainted (fbs s) g0 f →
  wp (flip rs) (λ _ s', ∃ g st, s' = set_stat st (set_fbs g s) ∧
    Fb.repainted (fbs s) g (λ px py,
      if decide (Exists (λ r, inside r px py) rs) then bb_value (BACKBUFFER s) px py
      else f px py)) (set_fbs g0 s).
Proof.
  intros Hfb Hbpp Hp Hbb Hw Hh Hrs. revert s g0 f Hfb Hbpp Hp Hbb Hw Hh Hrs.
  induction rs as [|r rs IH]; intros s g0 f Hfb Hbpp Hp Hbb Hw Hh Hrs Hg0; cbn [flip].
  { wp_run. exists g0, (stat s). split; [by destruct s|]. eapply Fb.redrawn_ext; [exact Hg0|].
    intros px py _. rewrite decide_False; [done|]. by intros ?%Exists_nil. }
  apply Forall_cons in Hrs as [Hr Hrs]. wp_step.
  wp_use wp_flip_rect; [done..|exact Hr|exact Hg0|]. intros [] s1 (g1 & st1 & -> & Hg1).
  change (set_stat st1 (set_fbs g1 s)) with (set_fbs g1 (set_stat st1 s)).
  wp_use (IH (set_stat st1 s) g1); [done..|exact Hg1|].
  intros [] s2 (g2 & st2 & -> & Hg2). exists g2, st2. split; [done|].
  eapply Fb.redrawn_ext; [exact Hg2|]. intros px py _. cbv beta. cbn [BACKBUFFER set_stat].
  destruct (decide (Exists _ rs)) as [He|He].
  - rewrite decide_True; [done|]. rewrite Exists_cons. by right.
  - apply Surface.decide_iff. rewrite Exists_cons. tauto.
Qed.
End frame.
End Compose.
