(* ===== verification/Gui.v ===== *)
(** * The window manager's invariants

    What every event of the GUI keeps, and what a turn of the compositor
    leaves on the screen. *)
From S2P Require Import Prelude PageAlloc Mem Vmm Sched Ring Vterm Kbd Surface Dirty Mouse Fb Desk Kernel Log Wm Compose.
Import Surface (rect, mkRect, inside, near, rect_near, surface, mkSurf, sw, sh, pixels, pixel, surface_ok, repainted).

Module Gui.
Import Desk Wm Compose.

(** ** Painting a window *)
Definition same_size (b b' : surface) : Prop := surface_ok b' ∧ sw b' = sw b ∧ sh b' = sh b.
Lemma same_size_repainted b b' f : surface_ok b → repainted b b' f → same_size b b'.
Proof. intros Hb Hr. split; [by eapply Surface.repainted_ok|]. by destruct Hr as (? & ? & _). Qed.
Lemma same_size_trans a b c : same_size a b → same_size b c → same_size a c.
Proof. intros (_ & ? & ?) (? & ? & ?). split; [done|]. split; congruence. Qed.

(** Only the caches' pixels differ. *)
Definition same_win (v v' : window) : Prop :=
  window_ok v' ∧ v' = with_body (body v') (with_frame (frame v') v).
Lemma same_win_refl v : window_ok v → same_win v v.
Proof. intros Hv. split; [done|by destruct v]. Qed.
Lemma same_win_trans u v w : same_win u v → same_win v w → same_win u w.
Proof. intros [_ E1] [H2 E2]. split; [done|]. rewrite E2, E1. done. Qed.

Lemma wp_on_body m v :
  window_ok v →
  (∀ b, surface_ok b → sw b = ww v → sh b = wh v → wp m (λ _ : unit, same_size b) b) →
  wp (on_body m) (λ _, same_win v) v.
Proof.
  intros Hok Hm. destruct (wo_body _ Hok) as (b & Hb & Hbok & Hbw & Hbh).
  unfold wp, on_body. rewrite Hb. specialize (Hm b Hbok Hbw Hbh). unfold wp, zoom in *.
  destruct (m b) as [[[] b']| |]; [|done|done]. destruct Hm as (B1 & B2 & B3). split; [|done].
  destruct Hok. split; try done. exists b'. cbn [ww wh with_body with_frame].
  split_and!; [done|done|by rewrite B2|by rewrite B3].
Qed.
Lemma wp_on_frame m v :
  window_ok v →
  (∀ b, surface_ok b → sw b = ww v + 2 → sh b = wh v + GUI_TITLE_H + 2 →
    wp m (λ _ : unit, same_size b) b) →
  wp (on_frame m) (λ _, same_win v) v.
Proof.
  intros Hok Hm. destruct (wo_frame _ Hok) as (b & Hb & Hbok & Hbw & Hbh).
  unfold wp, on_frame. rewrite Hb. specialize (Hm b Hbok Hbw Hbh). unfold wp, zoom in *.
  destruct (m b) as [[[] b']| |]; [|done|done]. destruct Hm as (B1 & B2 & B3). split; [|done].
  destruct Hok. split; try done. exists b'. cbn [ww wh with_body with_frame].
  split_and!; [done|done|by rewrite B2|by rewrite B3].
Qed.

(** The drawing operations keep the surface. *)
Lemma wp_fill_size b r c :
  surface_ok b → sw b < 2 ^ 20 → sh b < 2 ^ 20 → rect_near r →
  wp (Surface.fill_rect r c) (λ _, same_size b) b.
Proof.
  intros Hb Hw Hh Hr. pose proof Hb as []. wp_use Surface.wp_fill_rect; [done|unfold near; lia|unfold near; lia|done|].
  intros [] b' Hre. by eapply same_size_repainted.
Qed.
Lemma wp_string_size font b cx cy str fg bg :
  Surface.font_ok font → Forall (λ c, 0 ≤ c < 256) str → surface_ok b → sw b < 2 ^ 20 → sh b < 2 ^ 20 →
  - 2 ^ 20 ≤ cx < 2 ^ 20 → - 2 ^ 20 ≤ cy < 2 ^ 20 →
  wp (Surface.draw_string font cx cy str fg bg) (λ _, same_size b) b.
Proof.
  intros Hf Hs Hb Hw Hh Hx Hy. pose proof Hb as [].
  wp_use (Surface.wp_draw_string font b b (pixel b)); [done|done|done|lia|unfold near; lia|lia|unfold near; lia|
    apply Surface.repainted_refl|].
  intros [] b' Hre. by eapply same_size_repainted.
Qed.

Ltac rects := unfold rect_near, near, FRAME_BX, FRAME_BY, GUI_TITLE_H in *;
  cbn [Surface.x Surface.y Surface.w Surface.h]; narrow; lia.

Section font.
Variable font : list (list Z).
Hypothesis Hfont : Surface.font_ok font.

Lemma wp_chrome v :
  window_ok v →
  wp (frame_render_chrome font (i32 (ww v + 2)) (i32 (i32 (wh v + GUI_TITLE_H) + 2))) (λ _, same_win v) v.
Proof.
  intros Hok. pose proof Hok as [Hx Hy Hw Hh [_ Ht] _ _]. unfold frame_render_chrome.
  apply wp_bind, wp_gets. cbv zeta. apply wp_on_frame; [done|]. intros b Hb Hbw Hbh.
  assert (sw b < 2 ^ 20 ∧ sh b < 2 ^ 20) as [S1 S2] by (unfold GUI_TITLE_H in *; lia).
  wp_step. wp_use wp_fill_size; [done|done|done|rects|]. intros [] b1 (B1 & B2 & B3).
  wp_step. wp_use wp_fill_size; [done|lia|lia|rects|]. intros [] b2 (C1 & C2 & C3).
  wp_step. wp_use wp_string_size; [done|done|done|lia|lia|unfold FRAME_BX; lia|unfold FRAME_BX; lia|].
  intros [] b3 (D1 & D2 & D3).
  wp_use wp_fill_size; [done|lia|lia|rects|]. intros [] b4 (E1 & E2 & E3). split; [done|]. lia.
Qed.

Lemma wp_clear_body c v : window_ok v → wp (clear_body c) (λ _, same_win v) v.
Proof.
  intros Hok. pose proof Hok as [Hx Hy Hw Hh _ _ _]. unfold clear_body. apply wp_bind, wp_gets.
  apply wp_on_body; [done|]. intros b Hb Hbw Hbh. apply wp_fill_size; [done|lia|lia|rects].
Qed.
Lemma wp_paint_row i line v :
  window_ok v → 0 ≤ i < 14 → Forall (λ c, 0 ≤ c < 256) line →
  wp (paint_row font i line) (λ _, same_win v) v.
Proof.
  intros Hok Hi Hl. pose proof Hok as [Hx Hy Hw Hh _ _ _]. unfold paint_row, Surface.FONT_H.
  apply wp_on_body; [done|]. intros b Hb Hbw Hbh. narrow.
  apply wp_string_size; [done|done|done|lia..].
Qed.
Lemma wp_paint_bars phase v : window_ok v → wp (paint_bars font phase) (λ _, same_win v) v.
Proof.
  intros Hok. pose proof Hok as [Hx Hy Hw Hh _ _ _]. unfold paint_bars. apply wp_bind, wp_gets.
  wp_step. wp_use wp_clear_body; [done|]. intros [] v1 S1. wp_step.
  assert (∀ i, 0 ≤ i < 8 → -2 ^ 17 < i * (ww v - 40) < 2 ^ 18) as Hm by (intros; nia).
  eapply wp_mono; [apply (wp_for_each (λ _, same_win v) 0 8 _ (λ _, same_win v)); [lia|exact S1| |done]|].
  - intros i v2 Hi S2. eapply wp_mono; [apply wp_on_body; [apply S2|]|].
    + intros b Hb Hbw Hbh. specialize (Hm i Hi).
      assert (ww v2 = ww v ∧ wh v2 = wh v) as [E1 E2] by (by rewrite (proj2 S2)).
      pose proof (Z.quot_rem' (i * (ww v - 40)) 8). pose proof (Z.rem_bound_abs (i * (ww v - 40)) 8).
      pose proof (Z.quot_rem' (ww v - 40) 8). pose proof (Z.rem_bound_abs (ww v - 40) 8).
      apply wp_fill_size; [done|lia|lia|]. rects.
    + intros [] v3 S3. by eapply same_win_trans.
  - intros [] v2 S2. assert (ww v2 = ww v ∧ wh v2 = wh v) as [E1 E2] by (by rewrite (proj2 S2)).
    eapply wp_mono; [apply wp_on_body; [apply S2|]|].
    + intros b Hb Hbw Hbh. narrow. apply wp_string_size; [done| |done|lia..]. by repeat constructor.
    + intros [] v3 S3. by eapply same_win_trans.
Qed.
Lemma wp_blit_body v : window_ok v → wp blit_body (λ _, same_win v) v.
Proof.
  intros Hok. pose proof Hok as [Hx Hy Hw Hh _ (bo & Hbo & Hbok & Hbw & Hbh) _]. unfold blit_body.
  apply wp_bind, wp_gets. apply wp_bind, wp_of_option. exists bo. split; [done|].
  apply wp_on_frame; [done|]. intros b Hb Hfw Hfh. pose proof Hb as []. unfold GUI_TITLE_H in *.
  wp_use Surface.wp_blit; [done|done|unfold near, FRAME_BX, FRAME_BY, GUI_TITLE_H; lia..|].
  intros [] b' Hre. by eapply same_size_repainted.
Qed.
End font.
(** ** Rendering a frame *)
Section render.
Context {P : Type} `{PageAllocator P}.
Variable font : list (list Z).
Hypothesis Hfont : Surface.font_ok font.
Implicit Types s : wm P.

Definition set_win (i : Z) (v : window) s : wm P := set_dk (set_wins (zset (WINS (dk s)) i v) (dk s)) s.
Lemma set_win_twice i u v s : set_win i u (set_win i v s) = set_win i u s.
Proof. unfold set_win, set_wins. simpl. by rewrite zset_zset. Qed.
Lemma set_win_get i v s u : zget (WINS (dk s)) i = Some u → zget (WINS (dk (set_win i v s))) i = Some v.
Proof. intros Hu. simpl. apply zget_zset_eq. by eapply zget_Some_lt. Qed.
Lemma set_win_same i v s : zget (WINS (dk s)) i = Some v → set_win i v s = s.
Proof. intros Hv. unfold set_win. rewrite (zset_id _ _ _ Hv). by destruct s as [? ? ? []]. Qed.

Lemma wp_on_win {A} i (m : M window A) (Q : A → wm P → Prop) s v :
  zget (WINS (dk s)) i = Some v → wp m (λ a v', Q a (set_win i v' s)) v → wp (on_win i m) Q s.
Proof.
  intros Hv Hm. unfold wp, on_win in *. rewrite Hv. unfold zoom. by destruct (m v) as [[a v']| |].
Qed.
Lemma wp_get_win i (Q : window → wm P → Prop) s v :
  zget (WINS (dk s)) i = Some v → Q v s → wp (get_win i) Q s.
Proof. intros Hv HQ. unfold get_win. apply wp_aget. by exists v. Qed.

(** The terminals hold bytes. *)
Definition terms s : list Vterm.vterm := Vterm.terms (Kbd.vts (Kernel.kb (sys s))).
Definition terms_ok s : Prop := Vterm.terms_sound (Kbd.vts (Kernel.kb (sys s))).

(** Reading the terminals changes nothing. *)
Lemma wp_vt_read {A} (m : M Vterm.vterms A) (Q : A → Prop) s :
  wp m (λ a t, t = Kbd.vts (Kernel.kb (sys s)) ∧ Q a) (Kbd.vts (Kernel.kb (sys s))) →
  wp (kern_call (Kernel.vt_call m)) (λ a s', s' = s ∧ Q a) s.
Proof.
  intros Hm. unfold kern_call, Kernel.vt_call, Kernel.kb_call, Kbd.vt_call. apply wp_zoom, wp_zoom, wp_zoom.
  eapply wp_mono; [exact Hm|]. intros a t [-> HQ]. split; [|done].
  by destruct s as [[? ? [] ?]].
Qed.

Lemma wp_row_of s id r :
  terms_ok s → 0 ≤ id → 0 ≤ r < Vterm.VT_ROWS →
  wp (kern_call (Kernel.vt_call (Vterm.row_of id r))) (λ l s', s' = s ∧
    Forall (λ c, 0 ≤ c < 256) (default [] l)) s.
Proof.
  intros [Hl Hall] Hid Hr. fold (terms s) in *. apply wp_vt_read. unfold Vterm.row_of. rewrite !Z.geb_leb.
  destruct (Z.leb_spec Vterm.VT_MAX id); cbn [orb]; [by wp_run|].
  rewrite (proj2 (Z.leb_gt _ r)) by lia. fold (terms s) in *.
  destruct (zget_lt (terms s) id) as [v Hv]; [lia|]. wp_step. apply wp_aget. exists v. split; [exact Hv|].
  destruct (Forall_zget _ _ _ _ Hall Hv) as [[Hgl Hg] _].
  destruct (zget_lt (Vterm.grid v) r) as [g Hgr]; [lia|]. wp_step. apply wp_of_option. exists g.
  split; [done|]. wp_run. split; [done|]. simpl. apply Forall_take, Forall_drop.
  by eapply (Forall_zget _ _ _ _ Hg).
Qed.

Lemma wp_paint_terminal i s v :
  terms_ok s → zget (WINS (dk s)) i = Some v → window_ok v →
  wp (paint_terminal font i) (λ _ s', ∃ v', s' = set_win i v' s ∧ same_win v v') s.
Proof.
  intros Ht Hv Hok. unfold paint_terminal. wp_step. eapply wp_on_win; [exact Hv|].
  wp_use wp_clear_body; [done|]. intros [] v1 S1.
  apply (wp_for_each (λ _ s', ∃ v', s' = set_win i v' s ∧ same_win v v')); [done|by exists v1| |done].
  intros r s1 Hr (v2 & -> & S2). pose proof (set_win_get i v2 s v Hv) as Hv2.
  wp_step. eapply wp_get_win; [exact Hv2|].
  assert (∀ line, Forall (λ c, 0 ≤ c < 256) line →
    wp (on_win i (paint_row font r line)) (λ _ s', ∃ v', s' = set_win i v' s ∧ same_win v v') (set_win i v2 s)) as Hrow.
  { intros line Hline. eapply wp_on_win; [exact Hv2|]. unfold Vterm.VT_ROWS in Hr.
    wp_use wp_paint_row; [exact Hfont|apply S2|done|done|]. intros [] v3 S3. exists v3.
    rewrite set_win_twice. split; [done|by eapply same_win_trans]. }
  wp_step. rewrite Z.geb_leb. destruct (Z.leb_spec 0 (vt v2)).
  - wp_step. wp_use (wp_row_of (set_win i v2 s)); [exact Ht|done|done|]. intros l s2 [-> Hl]. wp_run. by apply Hrow.
  - wp_run. by apply Hrow.
Qed.

Lemma wp_paint_demo i s v :
  zget (WINS (dk s)) i = Some v → window_ok v →
  wp (paint_demo font i) (λ _ s', ∃ v' ph, s' = set_win i v' (set_phase ph s) ∧ same_win v v') s.
Proof.
  intros Hv Hok. unfold paint_demo, timer_ticks. wp_run.
  assert (∀ ph, wp (on_win i (paint_bars font ph)) (λ _ s', ∃ v' ph', s' = set_win i v' (set_phase ph' s) ∧ same_win v v')
    (set_phase ph s)) as Hb.
  { intros ph. eapply wp_on_win; [exact Hv|]. wp_use wp_paint_bars; [exact Hfont|done|].
    intros [] v' S. by exists v', ph. }
  destruct (_ =? 0); wp_run; [by apply Hb|]. replace s with (set_phase (PHASE s) s) at 1 by (by destruct s).
  by apply Hb.
Qed.

(** What rendering window [i] may change. *)
Definition rendered (i : Z) (v : window) s s' : Prop := ∃ v' ph st,
  s' = set_win i v' (set_phase ph (set_stat st s)) ∧ same_win (with_chrome false (with_content false v)) v'.

Lemma window_ok_flags a b v : window_ok v → window_ok (with_chrome a (with_content b v)).
Proof. intros []. by constructor. Qed.

Lemma wp_frame_render i s v :
  terms_ok s → zget (WINS (dk s)) i = Some v → window_ok v →
  wp (frame_render font i) (λ _, rendered i v s) s.
Proof.
  intros Ht Hv Hok. unfold frame_render. wp_step. eapply wp_get_win; [exact Hv|]. cbv beta zeta.
  wp_step. eapply wp_on_win; [exact Hv|]. wp_run.
  set (v0 := with_chrome false (with_content false v)).
  assert (window_ok v0) as Hok0 by (by apply window_ok_flags).
  wp_use (wp_chrome font Hfont v0); [done|]. intros [] v1 S1.
  pose proof (set_win_get i v1 s v Hv) as Hv1.
  assert (∀ s', (∃ v2 ph st, s' = set_win i v2 (set_phase ph (set_stat st s)) ∧ same_win v0 v2) →
    wp (on_win i blit_body) (λ _, rendered i v s) s') as Hend.
  { intros s' (v2 & ph & st & -> & S2).
    eapply (wp_on_win i _ _ _ v2); [by apply (set_win_get i v2 _ v)|].
    wp_use wp_blit_body; [apply S2|]. intros [] v3 S3. exists v3, ph, st. rewrite set_win_twice.
    split; [done|by eapply same_win_trans]. }
  assert (on_paint v = None → wp (on_win i blit_body) (λ _, rendered i v s) (set_win i v1 s)) as Hno.
  { intros _. apply Hend. exists v1, (PHASE s), (stat s). split; [by destruct s|done]. }
  destruct (on_paint v) as [[]|]; wp_run; [| |by apply Hno].
  - wp_use wp_paint_terminal; [exact Ht|exact Hv1|apply S1|]. intros [] s2 (v2 & -> & S2). wp_run.
    apply Hend. exists v2, (PHASE s). eexists. split; [|by eapply same_win_trans].
    rewrite set_win_twice. by destruct s.
  - wp_use wp_paint_demo; [exact Hv1|apply S1|]. intros [] s2 (v2 & ph & -> & S2). wp_run.
    apply Hend. exists v2, ph. eexists. split; [|by eapply same_win_trans].
    change (set_phase ph (set_win i v1 s)) with (set_win i v1 (set_phase ph s)). rewrite set_win_twice. done.
Qed.
End render.
(** ** The invariant *)
Section invariant.
Context {P : Type} `{PageAllocator P}.
Variable font : list (list Z).
Hypothesis Hfont : Surface.font_ok font.
Implicit Types s : wm P.

Definition on_screen s (px py : Z) : Prop := 0 ≤ px < Fb.FB_W (fbs s) ∧ 0 ≤ py < Fb.FB_H (fbs s).

(** The desk is in order, the screen, the back buffer and the damage region
    have the same size, the pointer is on the screen and only a window is
    dragged. *)
Record wm_ok s : Prop := {
  ok_desk : good (dk s);
  ok_focus : focus_ok (dk s);
  ok_terms : terms_ok s;
  ok_bb : surface_ok (BACKBUFFER s) ∧ sw (BACKBUFFER s) = Fb.FB_W (fbs s) ∧ sh (BACKBUFFER s) = Fb.FB_H (fbs s);
  ok_screen : Dirty.bw (DIRTY (dk s)) = Fb.FB_W (fbs s) ∧ Dirty.bh (DIRTY (dk s)) = Fb.FB_H (fbs s);
  ok_size : 0 < Fb.FB_W (fbs s) < 2 ^ 15 ∧ 0 < Fb.FB_H (fbs s) < 2 ^ 15;
  ok_fb : Fb.fb_ok (fbs s) ∧ Fb.FB_BPP (fbs s) = 32 ∧ Fb.FB_PITCH (fbs s) < 2 ^ 32;
  ok_mouse : on_screen s (Mouse.X (ms s)) (Mouse.Y (ms s));
  ok_cursor : CURSOR_PREV_X s = -1 ∨ on_screen s (CURSOR_PREV_X s) (CURSOR_PREV_Y s);
  ok_drag : DRAG_WIN (inp s) = -1 ∨ ∃ v, win_at (dk s) (DRAG_WIN (inp s)) = Some v;
  ok_vtwin : zlen (VT_WIN s) = Vterm.VT_MAX;
}.

Lemma on_screen_iff s px py : wm_ok s → screen (dk s) px py ↔ on_screen s px py.
Proof.
  intros Hok. destruct (ok_screen _ Hok) as [E1 E2]. unfold screen, Dirty.screen, inside, on_screen.
  simpl. rewrite E1, E2. lia.
Qed.

(** ** The picture *)
Definition cursor_at s (px py : Z) : option Z :=
  if CURSOR_PREV_X s <? 0 then None else cursor_pixel (CURSOR_PREV_X s) (CURSOR_PREV_Y s) px py.
(** The cursor over the windows over the header line over the wallpaper. *)
Definition scene s (px py : Z) : option Z :=
  match cursor_at s px py with
  | Some c => Some c
  | None => desk_pixel font (dk s) (Fb.FB_W (fbs s)) px py
  end.
Definition shows_scene s (px py : Z) : Prop :=
  Fb.pixel (fbs s) px py = u32 (default 0 (scene s px py)).
Definition hidden_header s (px py : Z) : Prop := garbled (dk s) (Fb.FB_W (fbs s)) px py.
(** The screen is right where no damage is pending, but for the header line
    where a window is over it. *)
Definition up_to_date s : Prop := ∀ px py, on_screen s px py →
  covers (dk s) px py ∨ hidden_header s px py ∨ shows_scene s px py.

(** An event: everything that looks different is damaged. *)
Record event s s' : Prop := {
  ev_desk : tracked (dk s) (dk s');
  ev_cursor px py : on_screen s px py → cursor_at s' px py = cursor_at s px py ∨ covers (dk s') px py;
  ev_fb : fbs s' = fbs s;
  ev_bb : BACKBUFFER s' = BACKBUFFER s;
}.
Lemma event_refl s : event s s.
Proof. split; [apply tracked_refl|by left|done|done]. Qed.
Lemma event_trans s1 s2 s3 : event s1 s2 → event s2 s3 → event s1 s3.
Proof.
  intros [A1 A2 A3 A4] [B1 B2 B3 B4]. split; [by eapply tracked_trans| |congruence|congruence].
  intros px py Hp. destruct (B2 px py) as [E|]; [by unfold on_screen in *; rewrite A3| |by right].
  rewrite E. destruct (A2 px py Hp); [by left|right; by apply B1].
Qed.

Lemma event_up_to_date s s' : wm_ok s → up_to_date s → event s s' → up_to_date s'.
Proof.
  intros Hok Hup [E1 E2 E3 _] px py Hp. unfold on_screen in Hp. rewrite E3 in Hp.
  destruct (E2 px py Hp) as [Hc|]; [|by left].
  pose proof (proj2 (on_screen_iff s px py Hok) Hp) as Hs.
  destruct (tr_look _ _ E1 px py Hs) as [Hl|]; [|by left].
  destruct (Hup px py Hp) as [Hcov|[Hg|Hsh]]; [left; by apply E1|right; left|right; right].
  - unfold hidden_header, garbled in *. by rewrite E3, Hl.
  - unfold shows_scene, scene, desk_pixel in *. by rewrite E3, Hc, Hl.
Qed.

(** [s'] is [s] but for the desk, the counters and the animation's phase. *)
Definition desk_step s s' : Prop := ∃ d ph st, s' = set_dk d (set_phase ph (set_stat st s)).
Lemma desk_step_refl s : desk_step s s.
Proof. exists (dk s), (PHASE s), (stat s). by destruct s. Qed.
Lemma desk_step_trans s1 s2 s3 : desk_step s1 s2 → desk_step s2 s3 → desk_step s1 s3.
Proof. intros (d1 & p1 & t1 & ->) (d2 & p2 & t2 & ->). by exists d2, p2, t2. Qed.

(** The windows are the same but for flags and caches. *)
Definition idle (v : window) : option window := if used v then None else Some v.
Definition ident (v : window) :=
  (title v, (wx v, wy v, ww v, wh v), (used v, focused v, animate v), vt v, on_paint v, idle v).
Definition same_table (d d' : desk) : Prop :=
  FOCUSED_IDX d' = FOCUSED_IDX d ∧ ∀ i, ident <$> zget (WINS d') i = ident <$> zget (WINS d) i.
Lemma same_table_refl d : same_table d d.
Proof. done. Qed.
Lemma same_table_trans d1 d2 d3 : same_table d1 d2 → same_table d2 d3 → same_table d1 d3.
Proof. intros [A1 A2] [B1 B2]. split; [congruence|]. intros i. by rewrite B2, A2. Qed.

Lemma same_table_get d d' i v' :
  same_table d d' → zget (WINS d') i = Some v' → ∃ v, zget (WINS d) i = Some v ∧ ident v' = ident v.
Proof.
  intros [_ Ht] Hv. specialize (Ht i). rewrite Hv in Ht. simpl in Ht.
  destruct (zget (WINS d) i) as [v|]; [|done]. injection Ht as E. exists v. split; [done|].
  unfold ident. congruence.
Qed.
Lemma same_table_sym d d' : same_table d d' → same_table d' d.
Proof. intros [A1 A2]. split; [done|]. intros i. by rewrite A2. Qed.

Lemma focus_ok_table d d' : same_table d d' → focus_ok d → focus_ok d'.
Proof.
  intros Ht [Hi Hw]. pose proof Ht as [E _]. split.
  - destruct Hi as [Hi|(v & Hv & Hu)]; [left; congruence|right].
    destruct (same_table_get d' d _ v (same_table_sym _ _ Ht) Hv) as (v' & Hv' & E').
    exists v'. rewrite E. split; [done|]. unfold ident in E'. congruence.
  - intros i v' Hv' Hu'. destruct (same_table_get d d' i v' Ht Hv') as (v & Hv & E').
    rewrite E. assert (used v' = used v ∧ focused v' = focused v) as [U F]
      by (unfold ident in E'; split; congruence).
    rewrite F. apply Hw; [done|congruence].
Qed.
Lemma win_at_table d d' i v : same_table d d' → win_at d i = Some v → ∃ v', win_at d' i = Some v'.
Proof.
  intros Ht. unfold win_at. destruct (zget (WINS d) i) as [u|] eqn:Hu; [|done]. simpl.
  destruct (used u) eqn:Hus; [|done]. intros _.
  destruct (same_table_get d' d i u (same_table_sym _ _ Ht) Hu) as (v' & -> & E). simpl.
  assert (used v' = true) as -> by (unfold ident in E; congruence). by exists v'.
Qed.
Lemma same_table_zset d i v v' d' :
  zget (WINS d) i = Some v → ident v' = ident v → FOCUSED_IDX d' = FOCUSED_IDX d →
  WINS d' = zset (WINS d) i v' → same_table d d'.
Proof.
  intros Hv E Hf Hw. split; [done|]. intros j. rewrite Hw.
  rewrite zget_zset by (by eapply zget_Some_lt). case_decide; [|done]. subst. rewrite Hv. simpl. by rewrite E.
Qed.

(** A step of the desk alone keeps the invariant. *)
Lemma wm_ok_step s s' :
  wm_ok s → desk_step s s' → kept (dk s) (dk s') → same_table (dk s) (dk s') → wm_ok s'.
Proof.
  intros Hok (d & ph & st & ->) [Hg T] Ht. cbn [dk set_dk] in *.
  pose proof Hok as [O1 O2 O3 O4 [O5 O5'] O6 O7 O8 O9 O10 O11].
  destruct (tr_screen _ _ T) as [E1 E2].
  split; try done.
  - by eapply focus_ok_table.
  - split; [exact (eq_trans E1 O5)|exact (eq_trans E2 O5')].
  - destruct O10 as [|[v Hv]]; [by left|right]. by eapply win_at_table.
Qed.
Lemma event_step s s' : desk_step s s' → kept (dk s) (dk s') → event s s'.
Proof. intros (d & ph & st & ->) [_ T]. split; [exact T|by left|done|done]. Qed.

(** What the operations on the desk alone promise. *)
Definition calm s s' : Prop := desk_step s s' ∧ kept (dk s) (dk s') ∧ same_table (dk s) (dk s').
Lemma calm_refl s : good (dk s) → calm s s.
Proof. intros Hg. split_and!; [apply desk_step_refl|by apply kept_refl|done]. Qed.
Lemma calm_trans s1 s2 s3 : calm s1 s2 → calm s2 s3 → calm s1 s3.
Proof.
  intros (A1 & A2 & A3) (B1 & B2 & B3).
  split_and!; [by eapply desk_step_trans|by eapply kept_trans|by eapply same_table_trans].
Qed.
Lemma calm_ok s s' : wm_ok s → calm s s' → wm_ok s' ∧ event s s'.
Proof. intros Hok (A1 & A2 & A3). split; [by eapply wm_ok_step|by eapply event_step]. Qed.

Lemma wp_desk_calm {A} (m : M desk A) s :
  wp m (λ _ d, kept (dk s) d ∧ same_table (dk s) d) (dk s) → wp (desk_call m) (λ _, calm s) s.
Proof.
  intros Hm. unfold desk_call. apply wp_zoom. eapply wp_mono; [exact Hm|]. intros a d [Hk Ht].
  split_and!; [|done|done]. exists d, (PHASE s), (stat s). by destruct s.
Qed.

Lemma wp_mark_calm s i : good (dk s) → wp (desk_call (mark_dirty i)) (λ _, calm s) s.
Proof.
  intros Hg. apply wp_desk_calm. wp_use wp_mark_dirty; [done|]. intros [] d (Hk & Hf & Hw). split; [done|].
  unfold win_at in Hw. destruct (zget (WINS (dk s)) i) as [v|] eqn:Hv; simpl in Hw; [|by subst].
  destruct (used v) eqn:Hu; [|by subst]. destruct Hw as [Hw _].
  apply (same_table_zset (dk s) i v (with_content true v)); [done| |done|done].
  unfold ident, idle. cbn [used with_content]. by rewrite Hu.
Qed.

(** Damage alone keeps the table. *)
Lemma wp_damage_calm a s :
  good (dk s) → rect_near a →
  wp (desk_call (dirty_call (Dirty.add a))) (λ _ s', calm s s' ∧ damaged a (dk s) (dk s')) s.
Proof.
  intros Hg Ha. unfold desk_call. apply wp_zoom. wp_use wp_damage; [done|done|]. intros [] d [Hk Hd].
  split; [|done]. split_and!; [|done|].
  - exists d, (PHASE s), (stat s). by destruct s.
  - destruct Hd as (r & -> & _). by split.
Qed.
End invariant.
(** ** A turn *)
Section turn.
Context {P : Type} `{PageAllocator P}.
Variable font : list (list Z).
Hypothesis Hfont : Surface.font_ok font.
Implicit Types s : wm P.

Lemma rendered_calm i v s s' :
  good (dk s) → zget (WINS (dk s)) i = Some v → used v = true →
  (∀ px py, footprint v px py → screen (dk s) px py → covers (dk s) px py) →
  rendered i v s s' →
  calm s s' ∧ ∃ v', WINS (dk s') = zset (WINS (dk s)) i v' ∧ stale v' = false.
Proof.
  intros Hg Hv Hu Hcov (v' & ph & st & -> & Hok' & Ev').
  assert (ident v' = ident v) as Hid by (rewrite Ev'; unfold ident, idle; cbn; rewrite Hu; reflexivity).
  assert (window_rect_screen v' = window_rect_screen v) as Hr by (by rewrite Ev').
  assert (stale v' = false) as Hst by (by rewrite Ev').
  assert (used v' = true) as Hu' by (by rewrite Ev'). split; [|by exists v'].
  split_and!; [by eexists _, _, _| |].
  - eapply (kept_win (dk s) _ i v v'); try done; [apply Hg| |by rewrite Hst].
    intros px py Hs. destruct (decide (footprint v px py)) as [Hf|Hf]; [left; by apply Hcov|right].
    intros acc. unfold layer. rewrite !decide_False; [done| |].
    + by intros [_ ?].
    + unfold footprint. rewrite Hr. by intros [_ ?].
  - by apply (same_table_zset (dk s) i v v').
Qed.

Definition fresh s : Prop := ∀ j v, zget (WINS (dk s)) j = Some v → used v = true → stale v = false.

Lemma wp_refresh s :
  wm_ok s → wp (refresh font) (λ _ s', calm s s' ∧ fresh s') s.
Proof.
  intros Hok. pose proof (ok_desk _ Hok) as Hg.
  apply (wp_for_each (λ k s', calm s s' ∧ ∀ j v, j < k → zget (WINS (dk s')) j = Some v →
    used v = true → stale v = false)); [done| | |].
  - split; [by apply calm_refl|]. intros j v Hj Hv. apply zget_Some_lt in Hv. lia.
  - intros k s1 Hk [C1 F1]. destruct (calm_ok _ _ Hok C1) as [Hok1 _].
    pose proof (ok_desk _ Hok1) as Hg1. destruct (good_slot _ k Hg1 Hk) as [v Hv].
    wp_step. eapply wp_get_win; [exact Hv|]. cbv beta. fold (stale v).
    assert (∀ j u, j < k + 1 → zget (WINS (dk s1)) j = Some u → used u = true →
      used v && stale v = false → stale u = false) as Hskip.
    { intros j u Hj Hu Hus Hf. destruct (decide (j = k)) as [->|]; [|apply (F1 j); [lia|done|done]].
      rewrite Hv in Hu. injection Hu as <-. by rewrite Hus in Hf. }
    destruct (used v && stale v) eqn:E; [|wp_run; split; [done|]; intros j u Hj Hu Hus; by eapply Hskip].
    apply andb_true_iff in E as [Hu Hst]. pose proof (good_window _ _ _ Hg1 Hv Hu) as Hw.
    wp_use (wp_frame_render font Hfont k s1 v); [apply Hok1|exact Hv|exact Hw|].
    intros [] s2 Hr. destruct (rendered_calm k v s1 s2 Hg1 Hv Hu) as [C2 (v' & Hz & Hf)]; [|done|].
    { intros px py. by eapply (gd_stale _ Hg1 k v). }
    split; [by eapply calm_trans|]. intros j u Hj. rewrite Hz, zget_zset by (by eapply zget_Some_lt).
    case_decide; [by intros [= <-]|]. intros Hu2 Hus. apply (F1 j); [lia|done|done].
  - intros s1 [C1 F1]. split; [done|]. intros j v Hv. apply (F1 j); [|done].
    apply zget_Some_lt in Hv. rewrite (dk_len _ (gd_wf _ (proj1 (proj1 (proj2 C1))))) in Hv. lia.
Qed.

(** The animated windows. *)
Lemma wp_animate s :
  good (dk s) →
  wp (for_each 0 GUI_MAX_WINDOWS (λ i,
    v ← get_win i;
    if used v && animate v then desk_call (mark_dirty i) else mret tt)) (λ _, calm s) s.
Proof.
  intros Hg. apply (wp_for_each (λ _, calm s)); [done|by apply calm_refl| |done].
  intros k s1 Hk C1. destruct C1 as (D1 & K1 & T1). destruct (good_slot _ k (proj1 K1) Hk) as [v Hv].
  wp_step. eapply wp_get_win; [exact Hv|]. destruct (_ && _); [|by wp_run].
  wp_use wp_mark_calm; [apply K1|]. intros [] s2 C2. by eapply calm_trans.
Qed.

Lemma cursor_rect_near s px py : wm_ok s → on_screen s px py → rect_near (mkRect px py 12 18).
Proof.
  intros Hok [Hx Hy]. destruct (ok_size _ Hok). unfold rect_near, near. simpl. lia.
Qed.

(** The cursor is where the mouse is, and damaged if it was elsewhere. *)
Lemma wp_collect_damage s :
  wm_ok s →
  wp collect_damage (λ _ s', wm_ok s' ∧ event s s' ∧ same_table (dk s) (dk s') ∧
    ms s' = ms s ∧ CURSOR_PREV_X s' = Mouse.X (ms s) ∧ CURSOR_PREV_Y s' = Mouse.Y (ms s)) s.
Proof.
  intros Hok. pose proof (ok_desk _ Hok) as Hg. pose proof (ok_mouse _ Hok) as Hm.
  unfold collect_damage. do 4 (apply wp_bind, wp_gets). cbv beta.
  assert (∀ s1, wm_ok s1 → event s s1 → same_table (dk s) (dk s1) → ms s1 = ms s →
    CURSOR_PREV_X s1 = Mouse.X (ms s) → CURSOR_PREV_Y s1 = Mouse.Y (ms s) →
    wp (for_each 0 GUI_MAX_WINDOWS (λ i,
      v ← get_win i;
      if used v && animate v then desk_call (mark_dirty i) else mret tt))
    (λ _ s', wm_ok s' ∧ event s s' ∧ same_table (dk s) (dk s') ∧
      ms s' = ms s ∧ CURSOR_PREV_X s' = Mouse.X (ms s) ∧ CURSOR_PREV_Y s' = Mouse.Y (ms s)) s1) as Hend.
  { intros s1 Hok1 E1 T1 M1 X1 Y1. wp_use wp_animate; [apply Hok1|]. intros [] s2 C2.
    destruct (calm_ok _ _ Hok1 C2) as [Hok2 E2]. destruct C2 as ((d & ph & st & ->) & _ & T2).
    split_and!; [done|by eapply event_trans|by eapply same_table_trans|done|done|done]. }
  apply wp_bind.
  destruct (negb (Mouse.X (ms s) =? CURSOR_PREV_X s) || negb (Mouse.Y (ms s) =? CURSOR_PREV_Y s)) eqn:Emv.
  2: { wp_run. apply orb_false_iff in Emv as [Ex Ey]. rewrite negb_false_iff, Z.eqb_eq in Ex, Ey.
       apply Hend; [done|apply event_refl|done|done|done|done]. }
  assert (wp (if CURSOR_PREV_X s >=? 0
      then desk_call (dirty_call (Dirty.add_xywh (CURSOR_PREV_X s) (CURSOR_PREV_Y s) 12 18)) else mret tt)
    (λ _ s', calm s s' ∧ ∀ px py c, cursor_at s px py = Some c → on_screen s px py → covers (dk s') px py) s) as Hold.
  { rewrite Z.geb_leb. destruct (Z.leb_spec 0 (CURSOR_PREV_X s)).
    - unfold Dirty.add_xywh. wp_use wp_damage_calm; [done| |].
      + destruct (ok_cursor _ Hok) as [|Hc]; [lia|]. by apply (cursor_rect_near s).
      + intros [] s1 [C1 (d & Hd & Hin)]. split; [done|]. intros px py c Hc Hs. apply Hin; [|by apply on_screen_iff].
        unfold cursor_at in Hc. destruct (_ <? 0); [done|]. apply cursor_pixel_in in Hc. exact Hc.
    - wp_run. split; [by apply calm_refl|]. intros px py c Hc. unfold cursor_at in Hc.
      by rewrite (proj2 (Z.ltb_lt _ 0)) in Hc by lia. }
  wp_step. wp_use Hold. intros [] s1 [C1 Hcov1]. destruct (calm_ok _ _ Hok C1) as [Hok1 E1].
  wp_step. unfold Dirty.add_xywh. wp_use wp_damage_calm; [apply Hok1|by apply (cursor_rect_near s)|].
  intros [] s2 [C2 (d & Hd & Hin2)]. destruct (calm_ok _ _ Hok1 C2) as [Hok2 E2].
  pose proof (calm_trans _ _ _ C1 C2) as C12. pose proof (event_trans _ _ _ E1 E2) as E12.
  destruct C12 as ((d' & ph & st & ->) & K & T). wp_run.
  destruct C1 as ((d1 & ph1 & st1 & ->) & K1 & T1).
  apply Hend; [| |done|done|done|done].
  - destruct Hok2. split; try done. by right.
  - destruct E12 as [V1 V2 V3 V4]. split; [done| |done|done]. intros px py Hp.
    pose proof (proj2 (on_screen_iff s px py Hok) Hp) as Hs.
    destruct (cursor_at s px py) as [c|] eqn:Hc.
    + right. apply (tr_covers _ _ (ev_desk _ _ E2)). by eapply Hcov1.
    + destruct (cursor_at (set_cursor_prev _ _ _) px py) as [c'|] eqn:Hc'; [right|by left].
      unfold cursor_at in Hc'. simpl in Hc'. destruct (_ <? 0); [done|].
      apply cursor_pixel_in in Hc'. apply Hin2; [exact Hc'|].
      apply (tracked_screen _ _ px py (ev_desk _ _ E1)). exact Hs.
Qed.
End turn.
(** ** The mouse *)
Section mouse.
Context {P : Type} `{PageAllocator P}.
Implicit Types s : wm P.

(** Where a click belongs to the window: title bar and body. *)
Definition clickable (v : window) (px py : Z) : Prop :=
  wx v ≤ px < wx v + ww v ∧ wy v - GUI_TITLE_H ≤ py < wy v + wh v.

(** [hit_test] finds the topmost window. *)
Lemma wp_hit_test d mx my :
  desk_wf d →
  wp (hit_test mx my) (λ r d', d' = d ∧
    ((r = -1 ∧ ∀ i v, win_at d i = Some v → ¬ clickable v mx my) ∨
     ∃ v, win_at d r = Some v ∧ clickable v mx my ∧
       ∀ i u, r < i → win_at d i = Some u → ¬ clickable u mx my)) d.
Proof.
  intros Hwf. unfold hit_test. apply wp_bind.
  assert (∀ i v, zget (WINS d) i = Some v → used v = true →
    ((mx >=? wx v) && (mx <? i32 (wx v + ww v)) && (my >=? i32 (wy v - GUI_TITLE_H)) &&
     (my <? i32 (wy v + wh v))) = bool_decide (clickable v mx my)) as Hb.
  { intros i v Hv Hu. destruct (dk_win _ Hwf i v Hv Hu) as [Hx Hy Hw Hh _ _ _].
    unfold clickable, GUI_TITLE_H. narrow. rewrite !Z.geb_leb. apply eq_bool_prop_intro.
    rewrite bool_decide_spec, !andb_True, !Is_true_true, !Z.leb_le, !Z.ltb_lt. tauto. }
  apply (wp_for_range (λ k d', d' = d ∧ ∀ i v, GUI_MAX_WINDOWS - 1 - k < i → win_at d i = Some v →
    ¬ clickable v mx my)); [done| | |].
  - split; [done|]. intros i v Hi Hv. unfold win_at in Hv.
    rewrite (proj2 (zget_None (WINS d) i)) in Hv; [done|]. rewrite (dk_len _ Hwf). lia.
  - intros k d' Hk [-> Hno]. destruct (zget_lt (WINS d) (GUI_MAX_WINDOWS - 1 - k)) as [v Hv];
      [rewrite (dk_len _ Hwf); lia|].
    wp_step. apply wp_aget. exists v. split; [done|].
    assert (¬ (used v = true ∧ clickable v mx my) → ∀ i u, GUI_MAX_WINDOWS - 1 - (k + 1) < i →
      win_at d i = Some u → ¬ clickable u mx my) as Hmore.
    { intros Hn i u Hi Hu. destruct (decide (i = GUI_MAX_WINDOWS - 1 - k)) as [->|]; [|apply (Hno i u); [lia|done]].
      unfold win_at in Hu. rewrite Hv in Hu. simpl in Hu. destruct (used v); [|done].
      injection Hu as <-. intros Hc. by apply Hn. }
    destruct (used v) eqn:Hu; cbn [negb].
    + rewrite (Hb _ v Hv Hu). case_bool_decide as Hc; wp_run.
      * split; [done|]. right. exists v. unfold win_at. simpl. rewrite Hv. simpl. rewrite Hu.
        split_and!; [done|done|]. exact Hno.
      * split; [done|]. apply Hmore. by intros [_ ?].
    + wp_run. split; [done|]. apply Hmore. by intros [? _].
  - intros d' [-> Hno]. wp_run. split; [done|]. left. split; [done|]. intros i v Hv.
    apply (Hno i v); [|done]. unfold win_at in Hv. destruct (zget (WINS d) i) eqn:E; [|done].
    apply zget_Some_lt in E. lia.
Qed.

(** *** The focus *)
(** The same windows up to flags and caches. *)
Definition shape (v : window) :=
  (title v, (wx v, wy v, ww v, wh v), (used v, animate v), vt v, on_paint v, idle v).
Lemma shape_alike v v' :
  used v = true →
  (title v', (wx v', wy v', ww v', wh v'), (used v', animate v'), vt v', on_paint v') =
  (title v, (wx v, wy v, ww v, wh v), (used v, animate v), vt v, on_paint v) → shape v' = shape v.
Proof.
  intros Hu E. assert (used v' = true) as Hu' by congruence. unfold shape, idle. rewrite E, Hu', Hu. done.
Qed.
Definition same_shapes (d d' : desk) : Prop := ∀ i, shape <$> zget (WINS d') i = shape <$> zget (WINS d) i.
Lemma same_shapes_zset d d' i v v' :
  zget (WINS d) i = Some v → shape v' = shape v → WINS d' = zset (WINS d) i v' → same_shapes d d'.
Proof.
  intros Hv E Hw j. rewrite Hw, zget_zset by (by eapply zget_Some_lt). case_decide; [|done]. subst.
  rewrite Hv. simpl. by rewrite E.
Qed.
Lemma same_shapes_trans d1 d2 d3 : same_shapes d1 d2 → same_shapes d2 d3 → same_shapes d1 d3.
Proof. intros A B i. by rewrite B, A. Qed.
Lemma win_at_shapes d d' i v :
  same_shapes d d' → win_at d i = Some v → ∃ v', win_at d' i = Some v' ∧ shape v' = shape v.
Proof.
  intros Hs Hv. unfold win_at in *. specialize (Hs i).
  destruct (zget (WINS d) i) as [u|]; [|done]. simpl in *. destruct (used u) eqn:Hu; [|done].
  injection Hv as <-. destruct (zget (WINS d') i) as [v'|]; [|done]. simpl in *. injection Hs as E.
  exists v'. assert (used v' = true) as -> by (unfold shape in *; congruence). split; [done|].
  unfold shape. congruence.
Qed.
Lemma win_at_get d i v : win_at d i = Some v ↔ zget (WINS d) i = Some v ∧ used v = true.
Proof.
  unfold win_at. destruct (zget (WINS d) i) as [u|]; simpl; [|by split; [|intros [? _]]].
  destruct (used u) eqn:Hu; split; [by intros [= <-]|by intros [[= <-] _]|done|intros [[= <-] ?]; congruence].
Qed.

(** A window's flags change, its title bar to be drawn again. *)
Lemma wp_stale_damage d i v f :
  good d → zget (WINS d) i = Some v → used v = true → drawn_alike v (f v) → window_ok (f v) →
  wp (dirty_call (Dirty.add (window_rect_screen v)))
    (λ _ d', kept d d' ∧ WINS d' = zset (WINS d) i (f v) ∧ FOCUSED_IDX d' = FOCUSED_IDX d)
    (set_wins (zset (WINS d) i (f v)) d).
Proof.
  intros Hg Hv Hu Ha Hok. pose proof (good_window _ _ _ Hg Hv Hu) as Hw.
  unfold dirty_call. apply wp_zoom. cbn [DIRTY set_wins].
  eapply wp_mono; [apply (wp_add_damage (window_rect_screen v) d Hg (window_rect_near v Hw))|].
  intros [] r [Hk Hd]. split_and!; [|done|done].
  apply (kept_stale_damaged d i v f r); [exact Hg|exact Hv|exact Ha|by intros|exact Hk|exact Hd].
Qed.

Lemma wp_unfocus d f v :
  good d → zget (WINS d) f = Some v → used v = true →
  wp (unfocus f) (λ _ d', kept d d' ∧ FOCUSED_IDX d' = FOCUSED_IDX d ∧
    WINS d' = zset (WINS d) f (with_chrome true (with_focus false v))) d.
Proof.
  intros Hg Hv Hu. pose proof (good_window _ _ _ Hg Hv Hu) as Hw. pose proof (zget_Some_lt _ _ _ Hv) as Hi.
  unfold unfocus. wp_step. eapply wp_update_win; [exact Hv|]. wp_step.
  eapply wp_update_win; [by apply zget_zset_eq|]. cbn [WINS set_wins]. rewrite zset_zset.
  wp_step. apply wp_aget. eexists. split; [by apply zget_zset_eq|].
  change (window_rect_screen (with_chrome true (with_focus false v))) with (window_rect_screen v).
  wp_use (wp_stale_damage d f v (λ v, with_chrome true (with_focus false v))); [done|done|done|by split_and!| |].
  - destruct Hw. by constructor.
  - intros [] d' (H1 & H2 & H3). by split_and!.
Qed.
End mouse.
(** *** Press and drag *)
Section press.
Context {P : Type} `{PageAllocator P}.
Implicit Types s : wm P.

Lemma kept_set_focused d i : good d → kept d (set_focused i d).
Proof. intros [[H1 H2 H3] Hst]. split; [|split; [done|done|by left]]. split; [by split|exact Hst]. Qed.

(** No window but [hit] is drawn as focused. *)
Definition others_blurred (hit : Z) (d : desk) : Prop := ∀ i u,
  zget (WINS d) i = Some u → used u = true → i ≠ hit → focused u = false.
Lemma others_blurred_zset hit d d' i v v' :
  others_blurred hit d → zget (WINS d) i = Some v → WINS d' = zset (WINS d) i v' →
  (i ≠ hit → focused v' = false) → others_blurred hit d'.
Proof.
  intros Ho Hv Hw Hf j u. rewrite Hw, zget_zset by (by eapply zget_Some_lt).
  case_decide; [intros [= <-] _; subst; auto|apply Ho].
Qed.

Lemma kept_used d d' i v : same_shapes d d' → win_at d i = Some v → win_at d' i ≠ None.
Proof. intros Hs Hv. by destruct (win_at_shapes d d' i v Hs Hv) as (v' & -> & _). Qed.

Lemma wp_blur s hit v :
  wm_ok s → win_at (dk s) hit = Some v →
  wp (f ← gets (λ s, FOCUSED_IDX (dk s));
      if (f >=? 0) && negb (f =? hit) then desk_call (unfocus f) else mret tt)
    (λ _ s', ∃ d, s' = set_dk d s ∧ kept (dk s) d ∧ same_shapes (dk s) d ∧ others_blurred hit d ∧
      zget (WINS d) hit = Some v) s.
Proof.
  intros Hok Hv. pose proof (ok_desk _ Hok) as Hg. pose proof (ok_focus _ Hok) as [Hfi Hfw].
  apply win_at_get in Hv as [Hv Hu]. pose proof (zget_Some_lt _ _ _ Hv) as Hh. wp_run. rewrite Z.geb_leb.
  destruct Hfi as [Hf|(vf & Hvf & Huf)].
  - rewrite (proj2 (Z.leb_gt 0 _)) by lia. wp_run. exists (dk s).
    split_and!; [by destruct s|by apply kept_refl|done| |done].
    intros i u Hi Hiu _. rewrite (Hfw i u Hi Hiu). apply bool_decide_eq_false.
    apply zget_Some_lt in Hi. lia.
  - pose proof (zget_Some_lt _ _ _ Hvf) as Hr. rewrite (proj2 (Z.leb_le 0 _)) by lia. cbn [andb].
    destruct (Z.eqb_spec (FOCUSED_IDX (dk s)) hit) as [He|Hne]; cbn [negb].
    + wp_run. exists (dk s). split_and!; [by destruct s|by apply kept_refl|done| |done].
      intros i u Hi Hiu Hih. rewrite (Hfw i u Hi Hiu). apply bool_decide_eq_false. congruence.
    + unfold desk_call. apply wp_zoom. wp_use wp_unfocus; [done|exact Hvf|done|].
      intros [] d (Hk & _ & Hw). exists d. split_and!; [done|done| | |].
      * exact (same_shapes_zset _ _ _ _ (with_chrome true (with_focus false vf)) Hvf (shape_alike vf (with_chrome true (with_focus false vf)) Huf eq_refl) Hw).
      * intros i u. rewrite Hw, zget_zset by done. case_decide; [by intros [= <-]|].
        intros Hi Hiu _. rewrite (Hfw i u Hi Hiu). by apply bool_decide_eq_false.
      * by rewrite Hw, zget_zset_ne by lia.
Qed.

(** The window that gets the focus has its title bar drawn again. *)
Lemma wp_redraw_title s d2 hit v :
  kept (dk s) d2 → same_shapes (dk s) d2 → others_blurred hit d2 → FOCUSED_IDX d2 = hit →
  zget (WINS d2) hit = Some v → used v = true →
  wp (if negb (focused v) then
     desk_call (update_win hit (with_chrome true);;
                v ← aget WINS hit;
                dirty_call (Dirty.add (window_rect_screen v)))
   else mret tt) (λ _ s', ∃ d v', s' = set_dk d s ∧ kept (dk s) d ∧ same_shapes (dk s) d ∧
     others_blurred hit d ∧ FOCUSED_IDX d = hit ∧ zget (WINS d) hit = Some v' ∧ used v' = true) (set_dk d2 s).
Proof.
  intros K2 S2 O2 F2 Hv2 Hu.
  destruct (focused v); cbn [negb]; [wp_run; by exists d2, v|].
  pose proof (good_window _ _ _ (proj1 K2) Hv2 Hu) as Hw. pose proof (zget_Some_lt _ _ _ Hv2) as Hi.
  unfold desk_call. apply wp_zoom. cbn [dk set_dk]. wp_step. eapply wp_update_win; [exact Hv2|].
  wp_step. apply wp_aget. eexists. split; [by apply zget_zset_eq|].
  change (window_rect_screen (with_chrome true v)) with (window_rect_screen v).
  wp_use (wp_stale_damage d2 hit v (with_chrome true)); [apply K2|done|done|by split_and!|by destruct Hw; constructor|].
  intros [] d (K3 & W3 & F3). exists d, (with_chrome true v).
  split_and!; [done|by eapply kept_trans|eapply same_shapes_trans; [exact S2|exact (same_shapes_zset _ _ _ _ (with_chrome true v) Hv2 (shape_alike v (with_chrome true v) Hu eq_refl) W3)]| | | |done].
  - by eapply others_blurred_zset.
  - by rewrite F3.
  - by rewrite W3, zget_zset_eq.
Qed.

Lemma wp_focus_on s hit v :
  wm_ok s → win_at (dk s) hit = Some v →
  wp (focus_on hit) (λ _ s', ∃ d, s' = set_dk d s ∧ kept (dk s) d ∧ same_shapes (dk s) d ∧
    focus_ok d ∧ FOCUSED_IDX d = hit) s.
Proof.
  intros Hok Hv. unfold focus_on. apply wp_bind_assoc. wp_step.
  wp_use wp_blur; [done|exact Hv|]. intros [] s1 (d1 & -> & K1 & S1 & O1 & Hv1).
  apply win_at_get in Hv as [_ Hu]. wp_step. apply (wp_zoom dk set_dk). wp_run.
  cbn [dk set_dk]. change (set_dk (set_focused hit d1) (set_dk d1 s)) with (set_dk (set_focused hit d1) s).
  pose proof (kept_trans _ _ _ K1 (kept_set_focused d1 hit (proj1 K1))) as K2.
  set (d2 := set_focused hit d1) in *. assert (zget (WINS d2) hit = Some v) as Hv2 by done.
  assert (same_shapes (dk s) d2) as S2 by done. assert (others_blurred hit d2) as O2 by done.
  assert (FOCUSED_IDX d2 = hit) as F2 by done. clearbody d2. clear d1 K1 S1 O1 Hv1.
  eapply wp_get_win; [exact Hv2|]. cbv beta. wp_step.
  wp_use (wp_redraw_title s d2); [exact K2|exact S2|exact O2|exact F2|exact Hv2|exact Hu|].
  intros [] s3 (d3 & v3 & -> & K3 & S3 & O3 & F3 & Hv3 & Hu3).
  eapply wp_on_win; [exact Hv3|]. wp_run. exists (set_wins (zset (WINS d3) hit (with_focus true v3)) d3).
  pose proof (good_window _ _ _ (proj1 K3) Hv3 Hu3) as Hw3. pose proof (zget_Some_lt _ _ _ Hv3) as Hi3.
  assert (others_blurred hit (set_wins (zset (WINS d3) hit (with_focus true v3)) d3)) as O4
    by (by eapply others_blurred_zset).
  split_and!; [done| | | |done].
  - eapply kept_trans; [exact K3|]. apply (kept_flags d3 hit v3 (with_focus true)); [apply K3|done|by split_and!| |].
    + intros _. destruct Hw3. by constructor.
    + by left.
  - eapply same_shapes_trans; [exact S3|]. exact (same_shapes_zset _ (set_wins _ d3) _ _ (with_focus true v3) Hv3 (shape_alike v3 (with_focus true v3) Hu3 eq_refl) eq_refl).
  - split.
    + right. exists (with_focus true v3). split; [|done]. simpl. rewrite F3. by apply zget_zset_eq.
    + simpl. rewrite F3. intros i u. destruct (decide (i = hit)) as [->|Hne].
      * rewrite zget_zset_eq by done. intros [= <-] _. by rewrite bool_decide_true.
      * rewrite bool_decide_false by done. intros Hi Hiu. by apply (O4 i u).
Qed.

(** What the mouse handler leaves alone. *)
Definition mouse_step s s' : Prop := ∃ d k ip, s' = set_inp ip (set_sys k (set_dk d s)) ∧
  terms s' = terms s ∧ kept (dk s) d ∧ focus_ok d ∧ (∀ i, is_Some (win_at (dk s) i) → is_Some (win_at d i)).

Lemma mouse_step_ok s s' :
  wm_ok s → mouse_step s s' →
  (DRAG_WIN (inp s') = -1 ∨ ∃ v, win_at (dk s') (DRAG_WIN (inp s')) = Some v) →
  wm_ok s' ∧ event s s'.
Proof.
  intros Hok (d & k & ip & -> & Ht & [Hg T] & Hf & Hw) Hd. cbn [dk inp set_inp set_sys set_dk] in *.
  pose proof Hok as [O1 O2 [O3 O3'] O4 [O5 O5'] O6 O7 O8 O9 O10 O11]. destruct (tr_screen _ _ T) as [E1 E2].
  split; [split; try done|split; [exact T|by left|done|done]].
  - unfold terms_ok, Vterm.terms_sound. fold (terms (set_inp ip (set_sys k (set_dk d s)))). by rewrite Ht.
  - split; [exact (eq_trans E1 O5)|exact (eq_trans E2 O5')].
Qed.
End press.
(** *** Drag *)
Section drag.
Context {P : Type} `{PageAllocator P}.
Implicit Types s : wm P.

(** A window moves, its old and its new place damaged. *)
Lemma kept_moved d i v v' r :
  good d → zget (WINS d) i = Some v → used v = true → used v' = true → window_ok v' →
  kept d (set_dirty r d) →
  (∀ px py, footprint v px py ∨ footprint v' px py → screen d px py → Dirty.covers r px py) →
  kept d (set_dirty r (set_wins (zset (WINS d) i v') d)).
Proof.
  intros Hg Hv Hu Hu' Hok [[[_ _ Hr] _] T] Hcov. destruct (tr_screen _ _ T) as [E1 E2].
  apply (kept_win d _ i v v'); try done.
  - apply T.
  - intros px py Hs. destruct (decide (footprint v px py)) as [Hf|Hf]; [left; apply Hcov; auto|].
    destruct (decide (footprint v' px py)) as [Hf'|Hf']; [left; apply Hcov; auto|right].
    intros acc. unfold layer. by rewrite !decide_False by tauto.
  - intros _ _. right. intros px py Hf Hs. apply Hcov; auto.
Qed.

(** The limits of a dragged position. *)
Definition clamp (lo hi a : Z) : Z := Z.min hi (Z.max lo a).
Lemma drag_to_at bw bh mx my ox oy v :
  window_ok v → 0 < bw < 2 ^ 15 → 0 < bh < 2 ^ 15 →
  drag_to bw bh mx my ox oy v =
    with_pos (clamp (40 - ww v) (bw - 40) (i32 (mx - ox))) (clamp GUI_TITLE_H (bh - 20) (i32 (my - oy))) v.
Proof.
  intros [Hx Hy Hw Hh _ _ _] Hbw Hbh. unfold drag_to, clamp, GUI_TITLE_H.
  pose proof (i32_range (mx - ox)). pose proof (i32_range (my - oy)).
  set (a := i32 (mx - ox)) in *. set (b := i32 (my - oy)) in *. narrow. cbv zeta.
  rewrite !Z.gtb_ltb. f_equal.
  - destruct (Z.ltb_spec a (- ww v + 40)); destruct (Z.ltb_spec (bw - 40) (- ww v + 40));
      try destruct (Z.ltb_spec (bw - 40) a); lia.
  - destruct (Z.ltb_spec b 20); destruct (Z.ltb_spec (bh - 20) 20); try destruct (Z.ltb_spec (bh - 20) b); lia.
Qed.

Lemma drag_to_ok bw bh mx my ox oy v :
  window_ok v → 0 < bw < 2 ^ 15 → 0 < bh < 2 ^ 15 → window_ok (drag_to bw bh mx my ox oy v).
Proof.
  intros Hok Hbw Hbh. rewrite drag_to_at by done. destruct Hok as [Hx Hy Hw Hh Ht Hb Hf].
  unfold clamp, GUI_TITLE_H. constructor; simpl; [lia|lia|exact Hw|exact Hh|exact Ht|exact Hb|exact Hf].
Qed.

(** The window follows the pointer; its caches stay as they are. *)
Definition dragged (v v' : window) s (mx my : Z) : Prop :=
  v' = drag_to (Fb.FB_W (fbs s)) (Fb.FB_H (fbs s)) mx my (DRAG_OFFX (inp s)) (DRAG_OFFY (inp s)) v.

Lemma wp_drag s mx my v :
  wm_ok s → win_at (dk s) (DRAG_WIN (inp s)) = Some v →
  wp (drag mx my) (λ _ s', ∃ d v', s' = set_dk d s ∧ kept (dk s) d ∧ dragged v v' s mx my ∧
    FOCUSED_IDX d = FOCUSED_IDX (dk s) ∧ WINS d = zset (WINS (dk s)) (DRAG_WIN (inp s)) v') s.
Proof.
  intros Hok Hv. pose proof (ok_desk _ Hok) as Hg. pose proof (ok_size _ Hok) as [S1 S2].
  apply win_at_get in Hv as [Hv Hu]. pose proof (good_window _ _ _ Hg Hv Hu) as Hw.
  unfold drag. wp_step. wp_step. cbv beta. wp_step. eapply wp_get_win; [exact Hv|]. cbv beta.
  unfold screen_w, screen_h. wp_run. rewrite !i32_id by lia. cbv zeta.
  pose proof (drag_to_ok _ _ mx my (DRAG_OFFX (inp s)) (DRAG_OFFY (inp s)) v Hw S1 S2) as Hw'.
  assert (dragged v (drag_to (Fb.FB_W (fbs s)) (Fb.FB_H (fbs s)) mx my (DRAG_OFFX (inp s)) (DRAG_OFFY (inp s)) v)
    s mx my) as Hd by done.
  set (v' := drag_to _ _ _ _ _ _ v) in *. assert (v' = with_pos (wx v') (wy v') v) as Ev by done.
  clearbody v'. eapply wp_on_win; [exact Hv|]. wp_run.
  destruct (Z.eqb_spec (wx v') (wx v)) as [Ex|]; destruct (Z.eqb_spec (wy v') (wy v)) as [Ey|]; cbn [negb orb].
  { wp_run. assert (v' = v) as -> by (rewrite Ev, Ex, Ey; by destruct v).
    rewrite (set_win_same _ _ _ Hv). exists (dk s), v. rewrite (zset_id _ _ _ Hv).
    split_and!; [by destruct s|by apply kept_refl|done..]. }
  all: assert (mkRect (i32 (wx v - 1)) (i32 (i32 (wy v - GUI_TITLE_H) - 1)) (i32 (ww v' + 2))
      (i32 (i32 (wh v' + GUI_TITLE_H) + 2)) = window_rect_screen v) as -> by (by rewrite Ev).
  all: wp_step; unfold desk_call, dirty_call; do 2 apply wp_zoom; cbn [DIRTY set_wins dk set_dk set_win].
  all: wp_use wp_add_damage; [exact Hg|by apply window_rect_near|].
  all: intros [] r1 (K1 & (? & [= <-] & D1)); do 2 apply wp_zoom; cbn [DIRTY set_wins dk set_dk set_dirty].
  all: wp_use (wp_add_damage (window_rect_screen v') (set_dirty r1 (dk s))); [apply K1|by apply window_rect_near|].
  all: intros [] r2 (K2 & (? & [= <-] & D2)).
  all: exists (set_dirty r2 (set_wins (zset (WINS (dk s)) (DRAG_WIN (inp s)) v') (dk s))), v'.
  all: split_and!; [done| |done|done|done].
  all: apply (kept_moved (dk s) _ v v'); [exact Hg|exact Hv|exact Hu|by rewrite Ev|exact Hw'|by eapply kept_trans|].
  all: intros px py [Hf|Hf] Hs; [by apply (tr_covers _ _ (proj2 K2)), D1|apply D2; [exact Hf|]; by apply (tracked_screen _ _ px py (proj2 K1))].
Qed.

(** *** Press *)
Lemma wp_press s hit mx my v :
  wm_ok s → win_at (dk s) hit = Some v →
  wp (press hit mx my) (λ _ s', mouse_step s s' ∧ same_shapes (dk s) (dk s') ∧
    FOCUSED_IDX (dk s') = hit ∧
    Kbd.route_vt (Kernel.kb (sys s')) = (if vt v >=? 0 then vt v else Kbd.route_vt (Kernel.kb (sys s))) ∧
    inp s' = (if my <? wy v then mkInput (PREV_BUTTONS (inp s)) hit (i32 (mx - wx v)) (i32 (my - wy v))
              else inp s)) s.
Proof.
  intros Hok Hv. unfold press. wp_step. wp_use wp_focus_on; [done|exact Hv|].
  intros [] s1 (d & -> & K & Sh & F & Hf).
  assert (∀ i, is_Some (win_at (dk s) i) → is_Some (win_at d i)) as Hall.
  { intros i [u Hu]. destruct (win_at_shapes _ d i u Sh Hu) as (u' & -> & _). by eexists. }
  destruct (win_at_shapes _ d hit v Sh Hv) as (v' & Hv' & Esh). apply win_at_get in Hv' as [Hv' _].
  wp_step. eapply wp_get_win; [exact Hv'|]. cbv beta.
  assert (vt v' = vt v ∧ wx v' = wx v ∧ wy v' = wy v) as (-> & -> & ->)
    by (unfold shape in Esh; split_and!; congruence).
  rewrite Z.geb_leb. destruct (0 <=? vt v); destruct (my <? wy v);
    unfold route_keyboard, kern_call, Kernel.kb_call, set_drag; wp_run;
    (split; [|split_and!; [exact Sh|exact Hf|done|done]]).
  all: match goal with |- mouse_step _ ?s' => exists d, (sys s'), (inp s') end.
  all: split_and!; [|done|exact K|exact F|exact Hall].
  all: by destruct s.
Qed.
End drag.
(** *** The handler *)
Section handler.
Context {P : Type} `{PageAllocator P}.
Implicit Types s : wm P.

Lemma wm_ok_inp s ip :
  wm_ok s → (DRAG_WIN ip = -1 ∨ ∃ v, win_at (dk s) (DRAG_WIN ip) = Some v) →
  wm_ok (set_inp ip s) ∧ event s (set_inp ip s).
Proof. intros [] Hd. split; [by constructor|]. split; [apply tracked_refl|by left|done|done]. Qed.

(** Nothing or the topmost window that the pointer is on. *)
Definition topmost (d : desk) (mx my hit : Z) : Prop :=
  (hit = -1 ∧ ∀ i v, win_at d i = Some v → ¬ clickable v mx my) ∨
  ∃ v, win_at d hit = Some v ∧ clickable v mx my ∧
    ∀ i u, hit < i → win_at d i = Some u → ¬ clickable u mx my.

(** The window is focused, gets the keyboard if it is a terminal, and is
    dragged from now on if it was hit in its title bar. *)
Definition chosen (hit mx my : Z) (v : window) s s' : Prop :=
  same_shapes (dk s) (dk s') ∧ FOCUSED_IDX (dk s') = hit ∧
  Kbd.route_vt (Kernel.kb (sys s')) = (if vt v >=? 0 then vt v else Kbd.route_vt (Kernel.kb (sys s))) ∧
  inp s' = (if my <? wy v then mkInput (PREV_BUTTONS (inp s)) hit (i32 (mx - wx v)) (i32 (my - wy v))
            else inp s).
Definition clicked (hit mx my : Z) s s' : Prop :=
  (hit = -1 → s' = s) ∧ ∀ v, win_at (dk s) hit = Some v → chosen hit mx my v s s'.

Lemma win_at_range d i v : desk_wf d → win_at d i = Some v → 0 ≤ i < GUI_MAX_WINDOWS.
Proof. intros Hwf Hv. apply win_at_get in Hv as [Hv%zget_Some_lt _]. by rewrite (dk_len _ Hwf) in Hv. Qed.

Lemma mouse_step_rest s s' : mouse_step s s' → ms s' = ms s ∧ fbs s' = fbs s.
Proof. by intros (d & k & ip & -> & _). Qed.

Lemma wp_click s hit mx my :
  wm_ok s → topmost (dk s) mx my hit →
  wp (if hit >=? 0 then press hit mx my else mret tt)
    (λ _ s', wm_ok s' ∧ event s s' ∧ ms s' = ms s ∧ fbs s' = fbs s ∧ clicked hit mx my s s') s.
Proof.
  intros Hok Hh. rewrite Z.geb_leb. destruct Hh as [[-> Hno]|(v & Hv & Hc & Hno)].
  - wp_run. split_and!; [done|apply event_refl|done|done|]. split; [done|]. intros v Hv.
    apply win_at_range in Hv; [lia|apply (ok_desk _ Hok)].
  - pose proof (win_at_range _ _ _ (gd_wf _ (ok_desk _ Hok)) Hv) as Hr.
    rewrite (proj2 (Z.leb_le 0 hit)) by lia. wp_use wp_press; [done|exact Hv|].
    intros [] s' (M & Sh & F & R & I). pose proof (mouse_step_rest _ _ M) as [E1 E2].
    pose proof (mouse_step_ok s s' Hok M) as Hms.
    destruct Hms as [Hok' He].
    { destruct M as (d & k & ip & -> & _ & _ & _ & Hall). cbn [inp set_inp set_sys set_dk dk] in *.
      rewrite I. destruct (my <? wy v); cbn [DRAG_WIN]; [right; by apply Hall; exists v|].
      destruct (ok_drag _ Hok) as [|[u Hu]]; [by left|right; by apply Hall; exists u]. }
    split_and!; [done|done|done|done|]. split; [lia|]. intros u Hu. rewrite Hv in Hu.
    injection Hu as <-. by split_and!.
Qed.

(** Only the dragged window's position changes. *)
Definition moved s s' (mx my : Z) : Prop := ∃ v v',
  win_at (dk s) (DRAG_WIN (inp s)) = Some v ∧ dragged v v' s mx my ∧
  WINS (dk s') = zset (WINS (dk s)) (DRAG_WIN (inp s)) v' ∧ FOCUSED_IDX (dk s') = FOCUSED_IDX (dk s) ∧
  sys s' = sys s ∧ inp s' = inp s ∧ ms s' = ms s.

Lemma focus_ok_moved d d' i v v' :
  zget (WINS d) i = Some v → used v' = used v → focused v' = focused v →
  FOCUSED_IDX d' = FOCUSED_IDX d → WINS d' = zset (WINS d) i v' → focus_ok d → focus_ok d'.
Proof.
  intros Hv Hu Hf F W [F1 F2]. pose proof (zget_Some_lt _ _ _ Hv) as Hi. split.
  - rewrite F, W. destruct F1 as [|(u & Hu1 & Hu2)]; [by left|right].
    rewrite zget_zset by done. case_decide as E; [|by exists u].
    exists v'. split; [done|]. rewrite E in Hv. congruence.
  - rewrite F, W. intros j u. rewrite zget_zset by done. case_decide as E; [|apply F2].
    intros [= <-]. rewrite Hu, Hf, <- E. by apply F2.
Qed.

Lemma wp_drag_ok s mx my :
  wm_ok s → 0 ≤ DRAG_WIN (inp s) →
  wp (drag mx my) (λ _ s', wm_ok s' ∧ event s s' ∧ moved s s' mx my) s.
Proof.
  intros Hok Hd. destruct (ok_drag _ Hok) as [?|[v Hv]]; [lia|].
  wp_use wp_drag; [done|exact Hv|]. intros [] s' (d & v' & -> & [Hg T] & Hdr & F & W).
  pose proof (proj1 (win_at_get _ _ _) Hv) as [Hv1 Hu]. pose proof (zget_Some_lt _ _ _ Hv1) as Hi.
  assert (used v' = used v ∧ focused v' = focused v) as [U Fo] by (by rewrite Hdr).
  pose proof Hok as [O1 O2 O3 O4 [O5 O5'] O6 O7 O8 O9 O10 O11]. destruct (tr_screen _ _ T) as [E1 E2].
  split_and!; [split; try done|split; [exact T|by left|done|done]|].
  - by eapply focus_ok_moved.
  - split; [exact (eq_trans E1 O5)|exact (eq_trans E2 O5')].
  - right. exists v'. apply win_at_get. cbn [dk set_dk inp]. rewrite W, zget_zset_eq by done. split; [done|congruence].
  - by exists v, v'.
Qed.

Definition left_down (b : Z) : Prop := Z.land b 1 ≠ 0.
Definition set_prev (b : Z) s : wm P :=
  set_inp (mkInput b (DRAG_WIN (inp s)) (DRAG_OFFX (inp s)) (DRAG_OFFY (inp s))) s.
Definition drop s : wm P :=
  set_inp (mkInput (PREV_BUTTONS (inp s)) (-1) (DRAG_OFFX (inp s)) (DRAG_OFFY (inp s))) s.

(** The handler in three parts: click, release, drag. *)
Definition click_part (hit : Z) s s1 : Prop :=
  if decide (left_down (Z.land (Mouse.BUTTONS (ms s)) (255 - PREV_BUTTONS (inp s))))
  then clicked hit (Mouse.X (ms s)) (Mouse.Y (ms s)) s s1 else s1 = s.
Definition release_part s1 s2 : Prop :=
  s2 = if decide (left_down (Mouse.BUTTONS (ms s1))) then s1 else drop s1.
Definition drag_part s2 s3 : Prop :=
  if decide (left_down (Mouse.BUTTONS (ms s2)) ∧ 0 ≤ DRAG_WIN (inp s2))
  then moved s2 s3 (Mouse.X (ms s2)) (Mouse.Y (ms s2)) else s3 = s2.
Definition mouse_event s s' : Prop := ∃ hit s1 s2 s3,
  topmost (dk s) (Mouse.X (ms s)) (Mouse.Y (ms s)) hit ∧
  click_part hit s s1 ∧ release_part s1 s2 ∧ drag_part s2 s3 ∧ ms s1 = ms s ∧ ms s2 = ms s ∧
  s' = set_prev (Mouse.BUTTONS (ms s)) s3.

(** An event after which the mouse is where it was. *)
Definition steps s s' : Prop := wm_ok s' ∧ event s s' ∧ ms s' = ms s.
Lemma steps_trans s1 s2 s3 : steps s1 s2 → steps s2 s3 → steps s1 s3.
Proof. intros (A1 & A2 & A3) (B1 & B2 & B3). split_and!; [done|by eapply event_trans|congruence]. Qed.

Lemma left_down_eqb b : (Z.land b 1 =? 0) = bool_decide (¬ left_down b).
Proof. unfold left_down. case_bool_decide; [apply Z.eqb_eq; lia|apply Z.eqb_neq; lia]. Qed.

Lemma wp_release s :
  wm_ok s →
  wp (if Z.land (Mouse.BUTTONS (ms s)) 1 =? 0 then
        modify (λ s, set_inp (mkInput (PREV_BUTTONS (inp s)) (-1) (DRAG_OFFX (inp s)) (DRAG_OFFY (inp s))) s)
      else mret tt) (λ _ s', steps s s' ∧ release_part s s') s.
Proof.
  intros Hok. rewrite left_down_eqb. unfold release_part. case_bool_decide; wp_run.
  - rewrite decide_False by done. split; [|done].
    destruct (wm_ok_inp s (mkInput (PREV_BUTTONS (inp s)) (-1) (DRAG_OFFX (inp s)) (DRAG_OFFY (inp s))) Hok); [by left|].
    by split_and!.
  - rewrite decide_True by tauto. split; [|done]. split_and!; [done|apply event_refl|done].
Qed.
Lemma wp_drag_part s :
  wm_ok s →
  wp (if negb (Z.land (Mouse.BUTTONS (ms s)) 1 =? 0) && (DRAG_WIN (inp s) >=? 0)
      then drag (Mouse.X (ms s)) (Mouse.Y (ms s)) else mret tt) (λ _ s', steps s s' ∧ drag_part s s') s.
Proof.
  intros Hok. rewrite left_down_eqb, Z.geb_leb. unfold drag_part.
  destruct (Z.leb_spec 0 (DRAG_WIN (inp s))); case_bool_decide; cbn [negb andb].
  2: { wp_use wp_drag_ok; [done|done|]. intros [] s' (A1 & A2 & A3). rewrite decide_True by tauto. split; [|done]. destruct A3 as (? & ? & ? & ? & ? & ? & ? & ? & ?). by split_and!. }
  all: wp_run; rewrite decide_False by (tauto || lia).
  all: split; [|done]; split_and!; [done|apply event_refl|done].
Qed.

Lemma wp_update_mouse s :
  wm_ok s → wp wm_update_mouse (λ _ s', steps s s' ∧ mouse_event s s') s.
Proof.
  intros Hok. unfold wm_update_mouse. do 3 (wp_step; wp_step; cbv beta). wp_step.
  unfold desk_call at 1. apply wp_zoom. wp_use wp_hit_test; [apply (ok_desk _ Hok)|].
  intros hit d [-> Hh]. change (topmost (dk s) (Mouse.X (ms s)) (Mouse.Y (ms s)) hit) in Hh.
  replace (set_dk (dk s) s) with s by (by destruct s). wp_step; wp_step; cbv beta zeta. wp_step.
  assert (wp (if negb (Z.land (Z.land (Mouse.BUTTONS (ms s)) (255 - PREV_BUTTONS (inp s))) 1 =? 0)
    then if hit >=? 0 then press hit (Mouse.X (ms s)) (Mouse.Y (ms s)) else mret tt else mret tt)
    (λ _ s1, steps s s1 ∧ click_part hit s s1) s) as Hc.
  { rewrite left_down_eqb. unfold click_part. case_bool_decide; cbn [negb].
    - wp_run. rewrite decide_False by done. split; [|done]. split_and!; [done|apply event_refl|done].
    - wp_use wp_click; [done|done|].
      intros [] s1 (A1 & A2 & A3 & _ & A5). rewrite decide_True by tauto. split; [by split_and!|done]. }
  wp_use Hc. intros [] s1 [S1 C1]. clear Hc. pose proof S1 as (Hok1 & _ & M1). rewrite <- M1.
  wp_step. wp_use wp_release; [done|]. intros [] s2 [S2 R2]. pose proof S2 as (Hok2 & _ & M2). rewrite <- M2.
  wp_step. wp_step. wp_step. wp_use wp_drag_part; [done|]. intros [] s3 [S3 D3]. wp_run.
  pose proof S3 as (Hok3 & _ & M3).
  pose proof (wm_ok_inp s3 (mkInput (Mouse.BUTTONS (ms s2)) (DRAG_WIN (inp s3)) (DRAG_OFFX (inp s3)) (DRAG_OFFY (inp s3)))
    Hok3 (ok_drag _ Hok3)) as [Hok4 E4].
  split; [|exists hit, s1, s2, s3; rewrite M2, M1; split_and!; congruence || done].
  eapply steps_trans; [exact S1|]. eapply steps_trans; [exact S2|]. eapply steps_trans; [exact S3|]. by split_and!.
Qed.
End handler.
(** ** Showing the damage *)
Section present.
Context {P : Type} `{PageAllocator P}.
Variable font : list (list Z).
Hypothesis Hfont : Surface.font_ok font.
Implicit Types s : wm P.

(** ** The log on terminal 0 *)
Lemma wp_on_vt_dirty s id : wm_ok s → wp (on_vt_dirty id) (λ _ s', calm s s') s.
Proof.
  intros Hok. pose proof (ok_desk _ Hok) as Hg. unfold on_vt_dirty. rewrite Z.geb_leb.
  destruct (Z.leb_spec 0 id), (Z.ltb_spec id Vterm.VT_MAX); cbn [andb];
    try (wp_run; by apply calm_refl).
  destruct (zget_lt (VT_WIN s) id) as [i Hi]; [by rewrite (ok_vtwin _ Hok)|].
  wp_step. apply wp_aget. exists i. split; [exact Hi|].
  destruct (i >=? 0); [by apply wp_mark_calm|]. wp_run. by apply calm_refl.
Qed.
(** [k'] is [k] but for the terminals and what went out on the serial line. *)
Definition speaks (k k' : Kernel.kern P) : Prop :=
  k' = Kernel.mkKern (Kernel.sc k) (Kernel.fs k) (Kbd.set_vts (Kbd.vts (Kernel.kb k')) (Kernel.kb k)) (Kernel.com1 k').
Lemma speaks_refl k : speaks k k.
Proof. by destruct k as [? ? [] ?]. Qed.
Lemma speaks_trans k1 k2 k3 : speaks k1 k2 → speaks k2 k3 → speaks k1 k3.
Proof. unfold speaks. intros E1 E2. rewrite E2, E1. done. Qed.
(** [s'] is [s] after something was printed on the terminals: their windows are
    out of date and damaged. *)
Definition printed s s' : Prop := ∃ d k ph st,
  s' = set_sys k (set_dk d (set_phase ph (set_stat st s))) ∧
  kept (dk s) d ∧ same_table (dk s) d ∧ Vterm.terms_sound (Kbd.vts (Kernel.kb k)) ∧ speaks (sys s) k.

Lemma printed_kern s k st : wm_ok s → Vterm.terms_sound (Kbd.vts (Kernel.kb k)) →
  speaks (sys s) k → printed s (set_sys k (set_stat st s)).
Proof.
  intros Hok Ht Hk. exists (dk s), k, (PHASE s), st. split; [by destruct s|].
  split; [by apply kept_refl, Hok|]. done.
Qed.
Lemma printed_sys s k : wm_ok s → Vterm.terms_sound (Kbd.vts (Kernel.kb k)) → speaks (sys s) k → printed s (set_sys k s).
Proof. intros Hok Ht Hk. pose proof (printed_kern s k (stat s) Hok Ht Hk). by destruct s. Qed.
Lemma printed_stat s st : wm_ok s → printed s (set_stat st s).
Proof. intros Hok. pose proof (printed_kern s (sys s) st Hok (ok_terms _ Hok) (speaks_refl _)). by destruct s. Qed.
Lemma printed_refl s : wm_ok s → printed s s.
Proof. intros Hok. pose proof (printed_stat s (stat s) Hok). by destruct s. Qed.
Lemma printed_trans s1 s2 s3 : printed s1 s2 → printed s2 s3 → printed s1 s3.
Proof.
  intros (d & k & ph & st & -> & K & T & _ & C) (d' & k' & ph' & st' & -> & K' & T' & S & C').
  exists d', k', ph', st'. cbn [dk sys set_sys set_dk set_phase set_stat] in *.
  split_and!; [done|by eapply kept_trans|by eapply same_table_trans|done|by eapply speaks_trans].
Qed.
Lemma calm_printed s s' : wm_ok s → calm s s' → printed s s'.
Proof.
  intros Hok ((d & ph & st & ->) & K & T). exists d, (sys s), ph, st.
  split; [by destruct s|]. split; [done|]. split; [done|]. split; [apply (ok_terms _ Hok)|apply speaks_refl].
Qed.
Lemma printed_ok s s' : wm_ok s → printed s s' → wm_ok s' ∧ event s s'.
Proof.
  intros Hok (d & k & ph & st & -> & K & T & S & _).
  destruct (calm_ok s (set_dk d (set_phase ph (set_stat st s))) Hok) as [[] []].
  { split; [by exists d, ph, st|done]. }
  split; [by constructor|by split].
Qed.

Lemma wp_each (I : wm P → Prop) (f : Z → M (wm P) unit) l s :
  (∀ a s, I s → wp (f a) (λ _, I) s) → I s → wp (each f l) (λ _, I) s.
Proof.
  intros Hf. revert s. induction l as [|a l IH]; intros s Hs; cbn [each]; [by wp_run|].
  wp_step. wp_use Hf; [exact Hs|]. intros [] s' Hs'. by apply IH.
Qed.
(** Whatever hook calls were recorded. *)
Lemma wp_deliver_dirty s : wm_ok s → wp deliver_dirty (λ _, printed s) s.
Proof.
  intros Hok. pose proof (ok_terms _ Hok) as Ht.
  unfold deliver_dirty, kern_call, Kernel.vt_call, Kernel.kb_call, Kbd.vt_call. wp_run.
  apply (wp_each (printed s)); [|by apply printed_sys].
  intros a s1 H1. destruct (printed_ok _ _ Hok H1) as [Hok1 _]. wp_use wp_on_vt_dirty; [done|].
  intros [] s2 C. eapply printed_trans; [exact H1|by apply calm_printed].
Qed.

(** Without the sink the line goes to the serial port alone. *)
Lemma wp_log_line l s :
  wm_ok s →
  wp (klog_info l) (λ _ s', printed s s' ∧ (GUI_UART_SINK s = false → dk s' = dk s)) s.
Proof.
  intros Hok. unfold klog_info. wp_step. wp_step. unfold kern_call. wp_step. apply wp_zoom.
  wp_use Log.wp_klog_info; [exact (ok_terms _ Hok)|]. intros [] k (t & Ek & Ht & _).
  assert (printed s (set_sys k s)) as H1.
  { by apply printed_sys; [|rewrite Ek..]. }
  destruct (printed_ok _ _ Hok H1) as [Hok1 _]. destruct (GUI_UART_SINK s); [|by wp_run].
  wp_use wp_deliver_dirty; [exact Hok1|]. intros [] s' H2. split; [by eapply printed_trans|done].
Qed.

(** A second has passed since the last line, and terminal 0 shows the log. *)
Definition line_due s : Prop :=
  GUI_UART_SINK s = true ∧ 100 ≤ u64 (Sched.timer_ticks (Kernel.sc (sys s)) - LOG_TICK (stat s)).
(** A frame has been counted: the desk is as it was unless the line was due. *)
Definition framed s s' : Prop := printed s s' ∧ (dk s' = dk s ∨ line_due s).
Lemma framed_refl s : wm_ok s → framed s s.
Proof. intros Hok. split; [by apply printed_refl|by left]. Qed.

Lemma wp_count_frame s : wm_ok s → wp count_frame (λ _, framed s) s.
Proof.
  intros Hok. unfold count_frame, timer_ticks. wp_run.
  set (s1 := set_stat _ s). set (due := _ >=? 100) in *.
  assert (printed s s1) as H1 by (by apply printed_stat).
  destruct (printed_ok _ _ Hok H1) as [Hok1 _]. destruct due eqn:Hd; [|wp_run; split; [done|by left]].
  wp_step. wp_use wp_log_line; [exact Hok1|]. intros [] s2 [H2 Q2]. wp_run.
  destruct (printed_ok _ _ Hok1 H2) as [Hok2 _]. set (s3 := set_stat _ s2).
  assert (printed s2 s3) as H3 by (by apply printed_stat).
  split; [eapply printed_trans; [exact H1|by eapply printed_trans]|].
  destruct (GUI_UART_SINK s) eqn:Hsink; [right|left; by apply Q2]. split; [done|].
  subst due. rewrite Z.geb_leb in Hd. by apply Z.leb_le in Hd.
Qed.

(** The pointer over the desk. *)
Definition pointed s (px py : Z) : option Z :=
  match cursor_pixel (Mouse.X (ms s)) (Mouse.Y (ms s)) px py with
  | Some c => Some c
  | None => desk_pixel font (dk s) (Fb.FB_W (fbs s)) px py
  end.

(** The damaged pixels are shown as they should be, the others are left. *)
Definition shown s (rs : list rect) s' : Prop := ∃ b g st,
  s' = set_stat st (set_fbs g (set_backbuffer b s)) ∧
  surface_ok b ∧ sw b = sw (BACKBUFFER s) ∧ sh b = sh (BACKBUFFER s) ∧
  g = Fb.set_buf (Fb.buf g) (fbs s) ∧
  (∀ px py, on_screen s px py →
    (¬ Exists (λ r, inside r px py) rs → Fb.pixel g px py = Fb.pixel (fbs s) px py) ∧
    (Exists (λ r, inside r px py) rs → ¬ hidden_header s px py →
      Fb.pixel g px py = u32 (default 0 (pointed s px py)))).

(** What [shown] leaves. *)
Lemma shown_ok s rs s' : wm_ok s → shown s rs s' → wm_ok s'.
Proof.
  intros [O1 O2 O3 (O4 & O4' & O4'') O5 O6 (O7 & O7' & O7'') O8 O9 O10 O11] (b & g & st & -> & B1 & B2 & B3 & Hg & _).
  assert (Fb.FB_W g = Fb.FB_W (fbs s) ∧ Fb.FB_H g = Fb.FB_H (fbs s) ∧ Fb.FB_BPP g = Fb.FB_BPP (fbs s) ∧
    Fb.FB_PITCH g = Fb.FB_PITCH (fbs s) ∧ Fb.FB_READY g = Fb.FB_READY (fbs s)) as (G1 & G2 & G3 & G4 & G5)
    by (rewrite Hg; done).
  split; cbn [fbs dk BACKBUFFER ms CURSOR_PREV_X CURSOR_PREV_Y inp VT_WIN sys set_stat set_fbs set_backbuffer] in *;
    unfold on_screen in *; cbn [fbs set_stat set_fbs set_backbuffer] in *; rewrite ?G1, ?G2, ?G3, ?G4; try done.
  - split_and!; [done|congruence|congruence].
  - split_and!; [|done|done]. destruct O7 as [A1 A2 A3 A4].
    split; rewrite ?G1, ?G2, ?G3, ?G4, ?G5; try done. unfold Fb.depth. by rewrite G3.
Qed.

Lemma wp_present s d :
  wm_ok s → ((d.1 >? 0) = false → take (Z.to_nat d.1) d.2 = []) →
  Forall (within (BACKBUFFER s)) (take (Z.to_nat d.1) d.2) →
  wp (present font d) (λ _ s', ∃ s1, shown s (take (Z.to_nat d.1) d.2) s1 ∧ framed s1 s') s.
Proof.
  intros Hok Hnil Hrs. pose proof (ok_bb _ Hok) as (Hbb & Hw & Hh). pose proof (ok_size _ Hok) as [S1 S2].
  pose proof (ok_fb _ Hok) as (F1 & F2 & F3). pose proof (ok_mouse _ Hok) as [Mx My].
  unfold present. destruct (d.1 >? 0) eqn:Hd.
  2: { wp_run. rewrite Hnil by done. exists s. split; [|by apply framed_refl].
       exists (BACKBUFFER s), (fbs s), (stat s).
       split_and!; [by destruct s|done..|by destruct (fbs s)|]. intros px py _.
       split; [done|]. by intros ?%Exists_nil. }
  cbv zeta. set (rs := take (Z.to_nat d.1) d.2) in *. clearbody rs. clear Hnil Hd d.
  assert (sw (BACKBUFFER s) < 2 ^ 29 ∧ sh (BACKBUFFER s) < 2 ^ 29) as Hsz by lia.
  pose proof (wp_repaint font rs s (BACKBUFFER s) Hfont (gd_wf _ (ok_desk _ Hok)) Hbb Hsz
    (Surface.repainted_refl _) Hrs) as Hr.
  replace (set_backbuffer (BACKBUFFER s) s) with s in Hr by (by destruct s).
  wp_step. wp_use Hr. clear Hr. intros [] s1 (b1 & -> & R1 & P1). wp_step.
  wp_use wp_draw_cursor; [done|lia|lia|unfold near; lia|unfold near; lia|exact R1|].
  intros [] s2 (b2 & -> & R2). wp_step. pose proof (Surface.repainted_ok _ _ _ Hbb R2) as Hb2.
  pose proof R2 as (W2 & H2 & _ & P2).
  pose proof (wp_flip rs (set_backbuffer b2 s) (fbs s) (Fb.pixel (fbs s))) as Hfl.
  change (set_fbs (fbs s) (set_backbuffer b2 s)) with (set_backbuffer b2 (set_fbs (fbs s) s)) in Hfl.
  replace (set_fbs (fbs s) s) with s in Hfl by (by destruct s).
  wp_use Hfl; [exact F1|exact F2|exact F3|exact Hb2| | | |apply Fb.redrawn_refl|].
  { cbn [BACKBUFFER set_backbuffer fbs]. congruence. }
  { cbn [BACKBUFFER set_backbuffer fbs]. congruence. }
  { eapply Forall_impl; [exact Hrs|]. intros r. unfold within. cbn [BACKBUFFER set_backbuffer]. by rewrite W2, H2. }
  intros [] s3 (g & st & -> & R3). set (s3 := set_stat st _).
  assert (shown s rs s3) as Hsh.
  2: { wp_use wp_count_frame; [by eapply shown_ok|]. intros [] s4 Hf. by exists s3. }
  exists b2, g, st. split_and!; [done|done|done|done|apply (Fb.rp_mode _ _ _ R3)|].
  intros px py Hp. rewrite (Fb.rp_pixels _ _ _ R3 px py) by exact Hp. cbn [BACKBUFFER set_backbuffer].
  split; [intros Hn; by rewrite decide_False|]. intros He Hng. rewrite decide_True by done.
  unfold bb_value, pointed. destruct Hp as [Hx Hy]. rewrite P2 by lia.
  destruct (cursor_pixel _ _ px py); [done|]. rewrite P1; [by rewrite Hw|lia|lia|by rewrite Hw|by left].
Qed.

(** Taking the damage. *)
Definition undamaged s : wm P := set_dk (set_dirty (Dirty.set_n 0 (DIRTY (dk s))) (dk s)) s.

Lemma wp_take_damage s :
  wm_ok s → fresh s →
  wp take_damage (λ d s', s' = undamaged s ∧ wm_ok s' ∧ ((d.1 >? 0) = false → take (Z.to_nat d.1) d.2 = []) ∧
    Forall (within (BACKBUFFER s)) (take (Z.to_nat d.1) d.2) ∧ (∀ px py, ¬ covers (dk s') px py) ∧
    (∀ px py, Exists (λ r, inside r px py) (take (Z.to_nat d.1) d.2) ↔ covers (dk s) px py)) s.
Proof.
  intros Hok Hf. pose proof (ok_desk _ Hok) as [[D1 D2 D3] _]. pose proof (ok_bb _ Hok) as (_ & Hw & Hh).
  pose proof (ok_screen _ Hok) as [Sw Sh]. destruct (Dirty.clear_ok _ D3) as [C1 C2].
  unfold take_damage, desk_call, dirty_call. do 2 apply wp_zoom. wp_use Dirty.wp_flush; [exact D3|done|].
  intros d r (-> & Hn & ->). change (set_dk _ s) with (undamaged s). split_and!; [done| | | |exact C2|].
  - destruct Hok as [_ [? ?]]. split; try done. split.
    + by split.
    + intros i v Hv Hu Hst. exfalso. by rewrite (Hf i v Hv Hu) in Hst.
  - rewrite Hn, Z.gtb_ltb. intros E%Z.ltb_ge. unfold Dirty.rects. by rewrite Z2Nat.nonpos.
  - eapply Forall_impl; [by apply Dirty.rects_on_screen|]. intros a. unfold Dirty.on_screen, within.
    by rewrite Hw, Hh, Sw, Sh.
  - intros px py. apply Dirty.rects_covers.
Qed.

(** Nothing is damaged, no cache is out of date, the pointer is drawn where
    it is, and every pixel shows the scene - but for those of the header line
    under a window. *)
Definition painted s : Prop :=
  wm_ok s ∧ (∀ px py, ¬ covers (dk s) px py) ∧ fresh s ∧
  CURSOR_PREV_X s = Mouse.X (ms s) ∧ CURSOR_PREV_Y s = Mouse.Y (ms s) ∧
  ∀ px py, on_screen s px py → hidden_header s px py ∨ shows_scene font s px py.

(** And the frame was counted, perhaps with a line of the log. *)
Definition presented s' : Prop := ∃ s, painted s ∧ framed s s'.
Lemma presented_ok s : presented s → wm_ok s ∧ up_to_date font s.
Proof.
  intros (s1 & (Hok & _ & _ & _ & _ & Hs) & [Hp _]). destruct (printed_ok _ _ Hok Hp) as [Hok' He]. split; [done|].
  eapply event_up_to_date; [exact Hok| |exact He]. intros px py Hpx. right. auto.
Qed.

Lemma wp_show s :
  wm_ok s → up_to_date font s → fresh s →
  CURSOR_PREV_X s = Mouse.X (ms s) → CURSOR_PREV_Y s = Mouse.Y (ms s) →
  wp (d ← take_damage; present font d) (λ _ s', presented s' ∧ same_table (dk s) (dk s') ∧ ms s' = ms s) s.
Proof.
  intros Hok Hup Hf Cx Cy. wp_step. wp_use wp_take_damage; [done|done|].
  intros d s1 (-> & Hok1 & Hnil & Hrs & Hnc & Hcov). wp_use wp_present; [exact Hok1|exact Hnil|exact Hrs|].
  intros [] s3 (s2 & Hsh & Hfr). pose proof (shown_ok _ _ _ Hok1 Hsh) as Hok2. pose proof (ok_mouse _ Hok) as [Mx My].
  assert (same_table (dk s2) (dk s3) ∧ ms s3 = ms s2) as [T3 M3] by (by destruct Hfr as [(? & ? & ? & ? & -> & _ & ? & _) _]).
  assert (painted s2 ∧ same_table (dk s) (dk s2) ∧ ms s2 = ms s) as (Hp & T2 & M2).
  2: { split; [by exists s2|]. split; [by eapply same_table_trans|congruence]. }
  clear Hfr T3 M3 s3.
  destruct Hsh as (b & g & st & -> & _ & _ & _ & Hg & Hpix).
  assert (Fb.FB_W g = Fb.FB_W (fbs s) ∧ Fb.FB_H g = Fb.FB_H (fbs s)) as [G1 G2] by (by rewrite Hg).
  split; [|by split]. split_and!; [done|exact Hnc|exact Hf|exact Cx|exact Cy|].
  intros px py Hp. unfold on_screen in Hp. cbn [fbs set_stat set_fbs] in Hp. rewrite G1, G2 in Hp.
  destruct (Hpix px py Hp) as [Hold Hnew].
  assert (hidden_header (set_stat st (set_fbs g (set_backbuffer b (undamaged s)))) px py ↔ hidden_header s px py)
    as -> by (unfold hidden_header; cbn [fbs set_stat set_fbs dk]; by rewrite G1).
  assert (shows_scene font (set_stat st (set_fbs g (set_backbuffer b (undamaged s)))) px py ↔
    Fb.pixel g px py = u32 (default 0 (scene font s px py))) as ->.
  { unfold shows_scene, scene, cursor_at. cbn [fbs set_stat set_fbs dk]. by rewrite G1. }
  destruct (decide (Exists (λ r, inside r px py) (take (Z.to_nat d.1) d.2))) as [He|He].
  - destruct (decide (hidden_header s px py)) as [|Hn]; [by left|right]. rewrite (Hnew He Hn).
    unfold pointed, scene, cursor_at. rewrite Cx, Cy, (proj2 (Z.ltb_ge _ 0)) by lia. done.
  - rewrite (Hold He). destruct (Hup px py Hp) as [Hc|[|]]; [|by left|by right]. by apply Hcov in Hc.
Qed.

(** A turn: the mouse is served, then the damage is shown. *)
Lemma wp_compositor_turn s :
  wm_ok s → up_to_date font s → WANT_NEW_TERM s = false →
  wp (compositor_turn font) (λ _ s', presented s' ∧ ms s' = ms s ∧
    ∃ s1, mouse_event s s1 ∧ same_table (dk s1) (dk s')) s.
Proof.
  intros Hok Hup Hwant. unfold compositor_turn, gather. wp_step. wp_step. wp_step. rewrite Hwant. wp_run.
  wp_use wp_update_mouse; [done|]. intros [] s1 [(Hok1 & E1 & M1) Hm]. wp_step.
  wp_use wp_collect_damage; [done|]. intros [] s2 (Hok2 & E2 & T2 & M2 & X2 & Y2).
  wp_use (wp_refresh font Hfont); [done|]. intros [] s3 [C3 F3]. pose proof C3 as (D3 & _ & T3).
  destruct (calm_ok _ _ Hok2 C3) as [Hok3 E3].
  assert (ms s3 = ms s2 ∧ CURSOR_PREV_X s3 = CURSOR_PREV_X s2 ∧ CURSOR_PREV_Y s3 = CURSOR_PREV_Y s2) as (M3 & X3 & Y3)
    by (by destruct D3 as (? & ? & ? & ->)).
  wp_use wp_show; [done| |done|congruence|congruence|].
  - eapply event_up_to_date; [exact Hok2| |exact E3]. eapply event_up_to_date; [exact Hok1| |exact E2].
    eapply event_up_to_date; [exact Hok|exact Hup|exact E1].
  - intros [] s4 (Hp & T4 & M4). split; [done|]. split; [congruence|]. exists s1. split; [done|].
    eapply same_table_trans; [exact T2|]. by eapply same_table_trans.
Qed.
End present.
End Gui.
