(* ===== verification/Windows.v ===== *)
(** * Opening windows

    [create_window] takes two surfaces from the page allocator, fills the
    first unused slot and focuses it. *)
From S2P Require Import Prelude PageAlloc Mem Vmm Sched Ring Vterm Kbd Surface Dirty Mouse Fb Desk Kernel Wm Compose Gui.
Import Surface (rect, mkRect, inside, near, rect_near, surface, mkSurf, sw, sh, pixels, pixel, surface_ok).

Module Windows.
Import Desk Wm Compose Gui.

(** ** Outside the new window *)
(** What looks different outside of [a] is damaged. *)
Record veiled (a : rect) (d d' : desk) : Prop := {
  ve_screen : Dirty.same_screen (DIRTY d) (DIRTY d');
  ve_covers px py : covers d px py → covers d' px py;
  ve_look px py : screen d px py → ¬ inside a px py → look d' px py = look d px py ∨ covers d' px py;
}.
Lemma veiled_tracked a d d' : tracked d d' → veiled a d d'.
Proof. intros [T1 T2 T3]. split; [done|done|]. intros px py Hs _. by apply T3. Qed.
Lemma veiled_trans a d1 d2 d3 : veiled a d1 d2 → veiled a d2 d3 → veiled a d1 d3.
Proof.
  intros [A1 A2 A3] [B1 B2 B3]. destruct A1 as [E1 E2], B1 as [F1 F2].
  split; [split; congruence|auto|]. intros px py Hs Ho.
  destruct (B3 px py) as [->|]; [|done| |by right].
  - unfold screen, Dirty.screen in *. by rewrite E1, E2.
  - destruct (A3 px py Hs Ho) as [->|]; [by left|right; auto].
Qed.
(** Damage to [a] lifts the veil. *)
Lemma veiled_damaged a d1 d2 d3 :
  veiled a d1 d2 → kept d2 d3 → damaged a d2 d3 → tracked d1 d3.
Proof.
  intros [[E1 E2] V2 V3] [_ T] (r & _ & Hd). pose proof (tr_screen _ _ T) as [F1 F2].
  assert (∀ px py, screen d1 px py → screen d2 px py) as Hsc
    by (intros px py; unfold screen, Dirty.screen; by rewrite E1, E2).
  split; [split; congruence|intros px py Hc; by apply T, V2|]. intros px py Hs.
  destruct (decide (inside a px py)) as [Hi|Ho]; [right; auto|].
  destruct (tr_look _ _ T px py (Hsc _ _ Hs)) as [->|]; [|by right].
  destruct (V3 px py Hs Ho) as [->|]; [by left|right; by apply T].
Qed.

(** A slot gets a window whose cache is up to date, in the old one's place if
    there was one. *)
Lemma placed d i v v' :
  good d → zget (WINS d) i = Some v →
  (used v = true → window_rect_screen v = window_rect_screen v') →
  window_ok v' → stale v' = false →
  good (set_wins (zset (WINS d) i v') d) ∧
  veiled (window_rect_screen v') d (set_wins (zset (WINS d) i v') d).
Proof.
  intros [[D1 D2 D3] Hst] Hv Hr Hok Hns. pose proof (zget_Some_lt _ _ _ Hv) as Hi.
  split; [split; [split|]|split; [done|done|]].
  - by rewrite <- D1; apply zlen_zset.
  - intros j u. cbn [WINS set_wins]. rewrite zget_zset by done. case_decide; [by intros [= <-]|apply D2].
  - done.
  - intros j u. cbn [WINS set_wins]. rewrite zget_zset by done.
    case_decide; [intros [= <-] _; congruence|apply Hst].
  - intros px py Hs Ho. left. apply look_zset with (v := v); [done|]. intros acc. unfold layer, footprint.
    rewrite !decide_False; [done| |]; intros [Hu Hin]; [|done].
    by rewrite (Hr Hu) in Hin.
Qed.

Section create.
Context {P : Type} `{PageAllocatorLaws P}.
Variable font : list (list Z).
Hypothesis Hfont : Surface.font_ok font.
Implicit Types s : wm P.

(** ** The surfaces *)
Definition pages_ok s : Prop := alloc_inv (Surface.alloc (gui_mem s)).
(** Only pages were taken or given back. *)
Definition mem_step s s' : Prop := pages_ok s' ∧ ∃ g, s' = set_gui_mem g s.
Lemma mem_step_trans s1 s2 s3 : mem_step s1 s2 → mem_step s2 s3 → mem_step s1 s3.
Proof. intros [_ [g1 ->]] [Hp [g2 ->]]. split; [done|]. by exists g2. Qed.
Lemma mem_step_ok s s' : wm_ok s → mem_step s s' → wm_ok s'.
Proof. intros [] [_ [g ->]]. by constructor. Qed.
Lemma mem_step_event s s' : mem_step s s' → event s s'.
Proof. intros [_ [g ->]]. split; [apply tracked_refl|by left|done|done]. Qed.

Lemma wp_create_surface s wd ht :
  pages_ok s → 0 < wd < 2 ^ 15 → 0 < ht < 2 ^ 15 →
  wp (create_surface wd ht) (λ r s', mem_step s s' ∧ (r = None ∨ buffer r wd ht)) s.
Proof.
  intros Hp Hw Hh. assert (0 < wd * ht < 2 ^ 30) as Hs by nia. unfold create_surface. wp_step. apply wp_zoom.
  wp_use Surface.wp_surface_create; [exact Hp|lia|lia|lia|].
  intros r g [Hinv Hr]. wp_step. split; [by split; [|exists g]|].
  destruct r as [d|]; [right|by left]. eexists. split_and!; [done| |done|done].
  split; cbn [sw sh pixels]; [lia|lia|lia|]. rewrite zlen_replicate. lia.
Qed.

(** ** The slot *)
Definition blank (v : window) : Prop :=
  zlen (title v) = 24 ∧ Forall (λ c, 0 ≤ c < 256) (title v) ∧ focused v = false ∧ stale v = false.
Definition blank_slots (d : desk) : Prop := ∀ i v,
  zget (WINS d) i = Some v → used v = false → blank v.

Lemma title_ok str v :
  blank v → Forall (λ c, 0 ≤ c < 256) str →
  zlen (title (with_title str v)) = 24 ∧ Forall (λ c, 0 ≤ c < 256) (title (with_title str v)).
Proof.
  intros (Hl & Hb & _) Hs. pose proof (zlen_nonneg str). unfold with_title. cbn [title]. split.
  - rewrite zlen_zset, zlen_app, zlen_take, zlen_drop by lia. lia.
  - unfold zset. apply Forall_insert; [|lia]. apply Forall_app. by split; [apply Forall_take|apply Forall_drop].
Qed.

(** What the new window's slot holds before it is painted. *)
Definition new_window (str : list Z) (px py pw ph : Z) (k : option hook) (b f : option surface)
    (v : window) : window :=
  with_on_paint k (with_vt (-1) (with_used true (with_size pw ph (with_pos px py
    (with_title str (with_frame f (with_body b v))))))).

(** Sizes and positions far from the limits. *)
Definition sane (str : list Z) (px py pw ph : Z) : Prop :=
  Forall (λ c, 0 ≤ c < 256) str ∧ - 2 ^ 28 ≤ px < 2 ^ 28 ∧ - 2 ^ 28 ≤ py < 2 ^ 28 ∧
  0 < pw < 2 ^ 14 ∧ 0 < ph < 2 ^ 14.

Lemma new_window_ok str px py pw ph k b f v :
  blank v → sane str px py pw ph → buffer b pw ph → buffer f (pw + 2) (ph + GUI_TITLE_H + 2) →
  window_ok (new_window str px py pw ph k b f v).
Proof.
  intros Hv (Hs & Hx & Hy & Hw & Hh) Hb Hf. split; [exact Hx|exact Hy|exact Hw|exact Hh| |exact Hb|exact Hf].
  by apply (title_ok str v).
Qed.

(** The window is in place: all but the focus and the screen. *)
Lemma wm_ok_placed s i v v' :
  wm_ok s → zget (WINS (dk s)) i = Some v → used v = false → used v' = true → focused v' = false →
  window_ok v' → stale v' = false →
  wm_ok (set_win i v' s) ∧ veiled (window_rect_screen v') (dk s) (dk (set_win i v' s)).
Proof.
  intros Hok Hv Hu Hu' Hf' Hw' Hst. pose proof (zget_Some_lt _ _ _ Hv) as Hi.
  destruct (placed (dk s) i v v') as [Hg Hve]; [apply (ok_desk _ Hok)|done|congruence|done|done|].
  split; [|exact Hve]. destruct Hok as [O1 [F1 F2] O3 O4 O5 O6 O7 O8 O9 O10 O11].
  split; try done; cbn [dk set_win set_dk inp]; [split|].
  - cbn [FOCUSED_IDX WINS set_wins]. destruct F1 as [|(u & Hu1 & Hu2)]; [by left|right].
    exists u. rewrite zget_zset_ne; [done|lia|]. intros ->. congruence.
  - intros j u. cbn [FOCUSED_IDX WINS set_wins]. rewrite zget_zset by done.
    case_decide; [|apply F2]. intros [= <-] _. subst. rewrite Hf'. symmetry. apply bool_decide_eq_false.
    destruct F1 as [E|(u & Hu1 & Hu2)]; [lia|]. intros ->. congruence.
  - destruct O10 as [|[u [Hu1 Hu2]%win_at_get]]; [by left|right]. exists u. apply win_at_get.
    cbn [WINS set_wins]. rewrite zget_zset_ne; [done|lia|]. intros ->. congruence.
Qed.
End create.
(** ** Focus and paint *)
Section open.
Context {P : Type} `{PageAllocatorLaws P}.
Variable font : list (list Z).
Hypothesis Hfont : Surface.font_ok font.
Implicit Types s : wm P.

(** ** The focus moves to it *)
Lemma wm_ok_desk s d :
  wm_ok s → kept (dk s) d → same_shapes (dk s) d → focus_ok d → wm_ok (set_dk d s) ∧ event s (set_dk d s).
Proof.
  intros Hok Hk Hs Hf. apply mouse_step_ok; [done| |].
  - exists d, (sys s), (inp s). split_and!; [by destruct s|done|done|done|].
    intros i [u Hu]. destruct (win_at_shapes _ d i u Hs Hu) as (u' & -> & _). by eexists.
  - destruct (ok_drag _ Hok) as [|[u Hu]]; [by left|right].
    destruct (win_at_shapes _ d _ u Hs Hu) as (u' & Hu' & _). by exists u'.
Qed.

Definition take_focus (i : Z) : M (wm P) unit :=
  fi ← gets (λ s, FOCUSED_IDX (dk s));
  (if fi >=? 0 then desk_call (unfocus fi) else mret tt);;
  desk_call (modify (set_focused i));;
  on_win i (modify (with_focus true)).

Lemma wp_take_focus s i v :
  wm_ok s → win_at (dk s) i = Some v → FOCUSED_IDX (dk s) ≠ i → stale v = false →
  wp (take_focus i) (λ _ s', ∃ d, s' = set_dk d s ∧ kept (dk s) d ∧ same_shapes (dk s) d ∧
    focus_ok d ∧ FOCUSED_IDX d = i ∧ zget (WINS d) i = Some (with_focus true v)) s.
Proof.
  intros Hok Hv Hne Hst. pose proof (proj1 (win_at_get _ _ _) Hv) as [Hv' Hu].
  pose proof (zget_Some_lt _ _ _ Hv') as Hi. pose proof (wp_blur s i v Hok Hv) as Hb.
  apply (proj1 (wp_bind _ _ _ _)), (proj1 (wp_gets _ _ _)) in Hb. cbv beta in Hb.
  rewrite (proj2 (Z.eqb_neq _ _) Hne), andb_true_r in Hb.
  unfold take_focus. wp_step. wp_step. cbv beta. wp_step. wp_use Hb. clear Hb.
  intros [] s1 (d1 & -> & K1 & S1 & O1 & Hv1).
  pose proof (good_window _ _ _ (proj1 K1) Hv1 Hu) as Hw.
  set (d2 := set_wins (zset (WINS d1) i (with_focus true v)) (set_focused i d1)).
  wp_step. apply (wp_zoom dk set_dk). wp_run. eapply wp_on_win; [exact Hv1|]. wp_run. exists d2.
  assert (zget (WINS d2) i = Some (with_focus true v)) as Hv2 by (apply zget_zset_eq; by eapply zget_Some_lt).
  split_and!; [done| | |split|done|exact Hv2].
  - eapply kept_trans; [exact K1|]. eapply kept_trans; [apply kept_set_focused; apply K1|].
    apply (kept_flags (set_focused i d1) i v (with_focus true)); [apply kept_set_focused, K1|done|by split_and!| |by left].
    intros _. destruct Hw. by constructor.
  - eapply same_shapes_trans; [exact S1|]. exact (same_shapes_zset d1 d2 i v (with_focus true v) Hv1 (shape_alike v (with_focus true v) Hu eq_refl) eq_refl).
  - right. by exists (with_focus true v).
  - intros j u Hj Huj. change (FOCUSED_IDX d2) with i. destruct (decide (j = i)) as [->|Hji].
    + rewrite Hv2 in Hj. injection Hj as <-. by rewrite bool_decide_true.
    + rewrite bool_decide_false by done. eapply O1; [|exact Huj|done].
      cbn [WINS d2 set_wins set_focused] in Hj. by rewrite zget_zset_ne in Hj by lia.
Qed.

(** ** Painted and damaged *)
Lemma wp_first_frame s i v :
  wm_ok s → win_at (dk s) i = Some v → stale v = false →
  wp (frame_render font i;; v ← get_win i; desk_call (dirty_call (Dirty.add (window_rect_screen v))))
    (λ _ s', wm_ok s' ∧ same_table (dk s) (dk s') ∧ desk_step s s' ∧
      (∃ v', win_at (dk s') i = Some v' ∧ stale v' = false) ∧
      ∀ s0, fbs s0 = fbs s → BACKBUFFER s0 = BACKBUFFER s → cursor_at s0 = cursor_at s →
        veiled (window_rect_screen v) (dk s0) (dk s) → event s0 s') s.
Proof.
  intros Hok Hv Hst. apply win_at_get in Hv as [Hv Hu]. pose proof (ok_desk _ Hok) as Hg.
  pose proof (good_window _ _ _ Hg Hv Hu) as Hw. wp_step.
  wp_use (wp_frame_render font Hfont i s v); [apply Hok|exact Hv|exact Hw|].
  intros [] s1 (v' & ph & st & -> & Hw' & Ev').
  assert (window_rect_screen v' = window_rect_screen v ∧ ident v' = ident v ∧ stale v' = false) as (Er & Ei & Es)
    by (rewrite Ev'; split_and!; [done|unfold ident, idle; cbn; rewrite Hu; reflexivity|done]).
  destruct (placed (dk s) i v v') as [Hg1 V1]; [done|done|done|done|done|].
  set (s1 := set_win i v' (set_phase ph (set_stat st s))) in *.
  assert (same_table (dk s) (dk s1)) as T1 by (by apply (same_table_zset (dk s) i v v')).
  assert (wm_ok s1) as Hok1.
  { destruct Hok as [O1 O2 O3 O4 O5 O6 O7 O8 O9 O10 O11]. split; try done.
    - by apply (focus_ok_table (dk s)).
    - destruct O10 as [|[u Hu']]; [by left|right]. by apply (win_at_table (dk s) (dk s1) _ u). }
  wp_step. eapply wp_get_win; [by apply (set_win_get i v' _ v)|]. cbv beta. rewrite Er.
  wp_use wp_damage_calm; [exact Hg1|by apply window_rect_near|]. intros [] s2 [C2 D2].
  pose proof C2 as (St2 & K2 & T2). destruct (calm_ok _ _ Hok1 C2) as [Hok2 [E1 E2 E3 E4]].
  split_and!; [exact Hok2|by eapply same_table_trans| | |].
  2: { exists v'. split; [|exact Es]. destruct D2 as (r & -> & _). apply win_at_get.
       split; [by apply (set_win_get i v' _ v)|]. by rewrite Ev'. }
  - eapply desk_step_trans; [|exact St2]. by eexists _, _, _.
  - intros s0 Hfb Hbb Hc V0. rewrite Er in V1. split.
    + eapply veiled_damaged; [eapply veiled_trans; [exact V0|exact V1]|exact K2|exact D2].
    + intros px py Hp. left. rewrite Hc. destruct St2 as (? & ? & ? & ->). done.
    + by rewrite E3.
    + by rewrite E4.
Qed.
End open.
(** ** [create_window] *)
Section create_window.
Context {P : Type} `{PageAllocatorLaws P}.
Variable font : list (list Z).
Hypothesis Hfont : Surface.font_ok font.
Variables (str : list Z) (px py pw ph : Z) (k : option hook).
Implicit Types s : wm P.

(** The first unused slot holds the new window, focused and painted; the
    others are the same windows. *)
Definition opened (r : Z) s s' : Prop := ∃ v v' b f,
  zget (WINS (dk s)) r = Some v ∧ used v = false ∧
  (∀ j u, j < r → zget (WINS (dk s)) j = Some u → used u = true) ∧
  FOCUSED_IDX (dk s') = r ∧ win_at (dk s') r = Some v' ∧
  shape v' = shape (new_window str px py pw ph k b f v) ∧ stale v' = false ∧
  ∀ j, j ≠ r → shape <$> zget (WINS (dk s')) j = shape <$> zget (WINS (dk s)) j.

Lemma take_focus_then {A} i (m : M (wm P) A) s :
  (fi ← gets (λ s, FOCUSED_IDX (dk s));
   (if fi >=? 0 then desk_call (unfocus fi) else mret tt);;
   desk_call (modify (set_focused i));;
   on_win i (modify (with_focus true));; m) s = (take_focus i;; m) s.
Proof.
  unfold take_focus, mbind, M_bind, gets.
  match goal with |- context [(if ?c then ?a else ?b) ?s] =>
    destruct ((if c then a else b) s) as [[[] s1]| |]; [|done|done] end.
  by destruct (desk_call (modify (set_focused i)) s1) as [[[] s2]| |].
Qed.

Lemma wp_take_focus_then {A} i (m : M (wm P) A) Q s :
  wp (take_focus i;; m) Q s →
  wp (fi ← gets (λ s, FOCUSED_IDX (dk s));
   (if fi >=? 0 then desk_call (unfocus fi) else mret tt);;
   desk_call (modify (set_focused i));;
   on_win i (modify (with_focus true));; m) Q s.
Proof. unfold wp. by rewrite take_focus_then. Qed.

Definition show_it (i : Z) : M (wm P) unit :=
  frame_render font i;; v ← get_win i; desk_call (dirty_call (Dirty.add (window_rect_screen v))).
Lemma show_it_then {A} i (m : M (wm P) A) s :
  (frame_render font i;; v ← get_win i;
   desk_call (dirty_call (Dirty.add (window_rect_screen v)));; m) s = (show_it i;; m) s.
Proof.
  unfold show_it, mbind, M_bind. destruct (frame_render font i s) as [[[] s1]| |]; [|done|done].
  by destruct (get_win i s1) as [[v s2]| |].
Qed.

Lemma wp_show_it_then {A} i (m : M (wm P) A) Q s :
  wp (show_it i;; m) Q s →
  wp (frame_render font i;; v ← get_win i;
   desk_call (dirty_call (Dirty.add (window_rect_screen v)));; m) Q s.
Proof. unfold wp. by rewrite show_it_then. Qed.

Lemma same_table_shapes d d' : same_table d d' → same_shapes d d'.
Proof.
  intros [_ Ht] i. specialize (Ht i).
  destruct (zget (WINS d') i) as [v'|], (zget (WINS d) i) as [v|]; try done. simpl in *.
  injection Ht as E. f_equal. unfold shape. congruence.
Qed.

Lemma rect_with_focus b v : window_rect_screen (with_focus b v) = window_rect_screen v.
Proof. unfold window_rect_screen. cbn [wx wy ww wh with_focus]. reflexivity. Qed.

(** From the filled slot on. *)
Lemma wp_open s0 s i v b f :
  mem_step s0 s → wm_ok s → blank v → zget (WINS (dk s)) i = Some v → used v = false →
  (∀ j u, j < i → zget (WINS (dk s)) j = Some u → used u = true) → sane str px py pw ph →
  buffer b pw ph → buffer f (pw + 2) (ph + GUI_TITLE_H + 2) →
  wp (take_focus i;; show_it i) (λ _ s', wm_ok s' ∧ pages_ok s' ∧ event s0 s' ∧ opened i s0 s')
    (set_win i (new_window str px py pw ph k b f v) s).
Proof.
  intros [Hp [g ->]] Hok Hbl Hv Hu Hfirst Hsane Hb Hf. set (v1 := new_window str px py pw ph k b f v).
  pose proof (new_window_ok str px py pw ph k b f v Hbl Hsane Hb Hf) as Hw1. fold v1 in Hw1.
  destruct Hbl as (_ & _ & Hfo & Hst). set (s := set_gui_mem g s0) in *.
  destruct (wm_ok_placed s i v v1) as [Hok1 V1]; [done..|].
  pose proof (zget_Some_lt _ _ _ Hv) as Hi.
  assert (win_at (dk (set_win i v1 s)) i = Some v1) as Hv1.
  { apply win_at_get. split; [by apply (set_win_get i v1 s v)|done]. }
  assert (FOCUSED_IDX (dk (set_win i v1 s)) ≠ i) as Hfi.
  { change (FOCUSED_IDX (dk s) ≠ i). destruct (fc_idx _ (ok_focus _ Hok)) as [|(u & Hu1 & Hu2)]; [lia|].
    intros E. rewrite E in Hu1. congruence. }
  wp_step. wp_use wp_take_focus; [done|exact Hv1|exact Hfi|exact Hst|].
  intros [] s2 (d & -> & K & Sh & Fo & Fi & Hv2).
  destruct (wm_ok_desk _ d Hok1 K Sh Fo) as [Hok2 E2].
  wp_use (wp_first_frame font Hfont _ i (with_focus true v1)); [exact Hok2| |exact Hst|].
  { apply win_at_get. by split. }
  intros [] s3 (Hok3 & T3 & D3 & (v3 & Hv3 & Hns) & Hev). split_and!; [exact Hok3| | |].
  - destruct D3 as (? & ? & ? & ->). exact Hp.
  - rewrite rect_with_focus in Hev. apply Hev; [reflexivity|reflexivity|reflexivity|]. eapply veiled_trans; [exact V1|]. apply veiled_tracked. exact (proj2 K).
  - destruct T3 as [T3 T3']. pose proof (same_table_shapes _ _ (conj T3 T3')) as S3.
    destruct (win_at_shapes _ (dk s3) i (with_focus true v1) S3) as (v3' & Hv3' & Es); [by apply win_at_get|].
    rewrite Hv3 in Hv3'. injection Hv3' as <-. exists v, v3, b, f.
    split_and!; [exact Hv|exact Hu|exact Hfirst|by rewrite T3|exact Hv3|exact Es|exact Hns|].
    intros j Hj. rewrite (S3 j). etrans; [exact (Sh j)|]. cbn [dk set_win set_dk WINS set_wins]. by rewrite zget_zset_ne by lia.
Qed.

(** No window is opened when there is no slot or no memory; then only pages
    were taken. *)
Lemma wp_create_window s :
  wm_ok s → blank_slots (dk s) → pages_ok s → sane str px py pw ph →
  wp (create_window font str px py pw ph k) (λ r s', wm_ok s' ∧ pages_ok s' ∧ event s s' ∧
    ((r = -1 ∧ mem_step s s') ∨ opened r s s')) s.
Proof.
  intros Hok Hbl Hp Hsane. pose proof Hsane as (_ & _ & _ & Hw & Hh). unfold GUI_TITLE_H in *.
  unfold create_window. wp_step.
  apply (wp_for_range (λ i s', s' = s ∧ ∀ j u, j < i → zget (WINS (dk s)) j = Some u → used u = true)).
  - done.
  - split; [done|]. intros j u Hj Hu%zget_Some_lt. lia.
  - intros i s' Hi [-> Hfirst]. destruct (good_slot _ i (ok_desk _ Hok) Hi) as [v Hv].
    wp_step. eapply wp_get_win; [exact Hv|]. cbv beta. destruct (used v) eqn:Hu.
    { wp_run. split; [done|]. intros j u Hj Huj. destruct (decide (j = i)) as [->|]; [congruence|].
      apply (Hfirst j u); [lia|done]. }
    wp_step. wp_use wp_create_surface; [done|lia|lia|]. intros b s1 [M1 Hb]. wp_step.
    unfold GUI_TITLE_H. narrow. wp_use wp_create_surface; [apply M1|lia|lia|]. intros f s2 [M2 Hf].
    pose proof (mem_step_trans _ _ _ M1 M2) as M. pose proof (mem_step_ok _ _ Hok M) as Hok2.
    assert (wp (mret (Some (-1))) (λ r s', wm_ok s' ∧ pages_ok s' ∧ event s s' ∧
      ((default (-1) r = -1 ∧ mem_step s s') ∨ opened (default (-1) r) s s')) s2) as Hno.
    { wp_run. split_and!; [exact Hok2|apply M|by apply mem_step_event|by left]. }
    destruct b as [b|]; [|exact Hno]. destruct f as [f|]; [|exact Hno].
    destruct Hb as [|Hb]; [done|]. destruct Hf as [|Hf]; [done|]. clear Hno.
    assert (dk s2 = dk s) as Ed by (by destruct M as [_ [g ->]]).
    wp_step. eapply wp_on_win; [rewrite Ed; exact Hv|]. do 15 (wp_step; cbv beta).
    apply wp_take_focus_then. rewrite <- Ed in Hv, Hfirst.
    pose proof (wp_open s s2 i v (Some b) (Some f) M Hok2) as Ho.
    apply (proj1 (wp_bind _ _ _ _)) in Ho; [|rewrite Ed in Hv; by eapply Hbl|exact Hv|exact Hu|exact Hfirst|exact Hsane|exact Hb|exact Hf].
    wp_step. eapply wp_mono; [exact Ho|]. cbv beta. intros [] s3 Hs3. apply wp_show_it_then. wp_step.
    eapply wp_mono; [exact Hs3|]. cbv beta. intros [] s4 (A1 & A2 & A3 & A4). wp_run.
    split_and!; [exact A1|exact A2|exact A3|by right].
  - intros s' [-> _]. wp_run. split_and!; [done|done|apply event_refl|left]. split; [done|].
    split; [done|]. exists (gui_mem s). by destruct s as [[[? ? ? ? ? ? ? ? []] ? ? ?] ? ? ? ? ? ? ? ? ? ? ?].
Qed.
End create_window.
End Windows.
