(* ===== verification/Session.v ===== *)
(** * A session with the GUI

    The invariant of a session, what the mouse handler and the creation of
    windows do to the screen, and how output can be lost. *)
From S2P Require Import Prelude PageAlloc Pmm Mem Vmm Sched Ring Vterm Kbd Surface Font Dirty Mouse Fb Desk Kernel Proc Spawn Tmpfs Wm Compose Gui Windows.
Import Surface (rect, mkRect, inside, surface, mkSurf, sw, sh, surface_ok).

Module Session.
Import Font Desk Wm Compose Gui Windows.

Section session.
Context {P : Type} `{PageAllocatorLaws P}.
Implicit Types s : wm P.

(** The desk as it is linked: with the program's font. *)
Definition turn : M (wm P) unit := compositor_turn FONT8X16.
Definition open_window := create_window (P := P) FONT8X16.

(** The pointer and the left button, held and just pressed. *)
Definition pointer_on s (v : window) : Prop := clickable v (Mouse.X (ms s)) (Mouse.Y (ms s)).
Definition left_held s : Prop := left_down (Mouse.BUTTONS (ms s)).
Definition left_pressed s : Prop := left_down (Z.land (Mouse.BUTTONS (ms s)) (255 - PREV_BUTTONS (inp s))).
(** Every pixel of the desk that looks different is damaged. *)
Definition no_damage_lost s s' : Prop := tracked (dk s) (dk s').

(** A byte from the mouse. *)
Definition mouse_irq (b : Z) : M (wm P) unit :=
  w ← screen_w; h ← screen_h; zoom ms set_ms (Mouse.irq_handler w h b).

(** In order, and between turns everything that is out of date is damaged. *)
Record session_ok s : Prop := {
  se_wm : wm_ok s;
  se_shown : up_to_date FONT8X16 s;
  se_mouse : ∃ l, Mouse.reading l (ms s);
}.

Lemma done_wp {S A} (m : M S A) (Q : A → S → Prop) (s : S) a (s' : S) : m s = Done (a, s') → wp m Q s → Q a s'.
Proof. unfold wp. by intros ->. Qed.

Lemma wp_mouse_irq s b :
  session_ok s → wp (mouse_irq b) (λ _ s', session_ok s' ∧ dk s' = dk s) s.
Proof.
  intros [Hok Hup [l Hl]]. pose proof (ok_size _ Hok) as [S1 S2]. pose proof (ok_mouse _ Hok) as [Mx My].
  unfold mouse_irq, screen_w, screen_h. wp_run. rewrite !i32_id by lia.
  pose proof (Mouse.wp_feed (Fb.FB_W (fbs s)) (Fb.FB_H (fbs s)) ltac:(lia) ltac:(lia) [b] (ms s) l Hl) as Hf.
  cbn [Mouse.feed] in Hf. apply (proj1 (wp_bind _ _ _ _)) in Hf. eapply wp_mono; [exact Hf|].
  intros [] m [[l' Hl'] Hv]. assert (on_screen s (Mouse.X m) (Mouse.Y m)) as Hm.
  { unfold Mouse.apply_all in Hv. destruct (decide (Mouse.packets (l ++ [b]) = [])) as [E|Hne].
    - rewrite E in Hv. injection Hv as -> -> _. by split.
    - pose proof (Mouse.fold_on_screen (Fb.FB_W (fbs s)) (Fb.FB_H (fbs s)) ltac:(lia) ltac:(lia)
        _ (Mouse.view (ms s)) Hne) as [A B]. rewrite <- Hv in A, B. by split. }
  split; [|done]. split; [|exact Hup|by exists l'].
  destruct Hok. by constructor.
Qed.

Lemma calm_session s s' : session_ok s → calm s s' → session_ok s'.
Proof.
  intros [Hok Hup Hm] C. destruct (calm_ok _ _ Hok C) as [Hok' He]. split; [done| |].
  - eapply event_up_to_date; [exact Hok|exact Hup|exact He].
  - by destruct C as ((d & ph & st & ->) & _).
Qed.

(** [wm_ok] and [up_to_date] do not look at the flag and the kernel. *)
Lemma want_session b s : session_ok s → session_ok (set_want b s).
Proof. intros [[] Hup Hm]. split; [by constructor|exact Hup|exact Hm]. Qed.
Lemma sys_session k s : session_ok s → terms_ok (set_sys k s) → session_ok (set_sys k s).
Proof. intros [[] Hup Hm] Ht. split; [by constructor|exact Hup|exact Hm]. Qed.

Lemma presented_session s : presented FONT8X16 s → (∃ l, Mouse.reading l (ms s)) → session_ok s.
Proof. intros Hp Hm. destruct (presented_ok _ _ Hp) as [Hok Hup]. by split. Qed.

(** ** Properties *)

(** C27: the mouse handler is well-formed and never loses damage: in any state
    it returns, the windows, the focus, the drag and the pointer stay
    consistent, and every pixel of the desk that looks different afterwards is
    damaged. *)
Theorem mouse_handler_ok s :
  wm_ok s → wp wm_update_mouse (λ _ s', wm_ok s' ∧ no_damage_lost s s' ∧ ms s' = ms s) s.
Proof.
  intros Hok. wp_use wp_update_mouse; [done|]. intros [] s' [(Hok' & [T _ _ _] & M) _]. done.
Qed.

(** a left click is for the topmost window at the pointer: it and only
    it gets the focus; if it shows a terminal, the keyboard is routed there;
    a click in the title bar starts a drag.  A click elsewhere changes
    nothing but the remembered buttons. *)
Theorem left_click_focuses s :
  wm_ok s → DRAG_WIN (inp s) = -1 → left_held s →
  left_pressed s →
  wp wm_update_mouse (λ _ s', focus_ok (dk s') ∧
    ((s' = set_prev (Mouse.BUTTONS (ms s)) s ∧
      ∀ i v, win_at (dk s) i = Some v → ¬ pointer_on s v) ∨
     ∃ hit v, win_at (dk s) hit = Some v ∧ pointer_on s v ∧
       (∀ i u, hit < i → win_at (dk s) i = Some u → ¬ pointer_on s u) ∧
       FOCUSED_IDX (dk s') = hit ∧
       Kbd.route_vt (Kernel.kb (sys s')) = (if 0 <=? vt v then vt v else Kbd.route_vt (Kernel.kb (sys s))) ∧
       DRAG_WIN (inp s') = (if Mouse.Y (ms s) <? wy v then hit else -1))) s.
Proof.
  intros Hok Hd Hl Hp. wp_use wp_update_mouse; [done|].
  intros [] s' [(Hok' & _ & _) (hit & s1 & s2 & s3 & Htop & Hc & Hr & Hdr & M1 & M2 & Es)]. split; [apply Hok'|].
  unfold click_part in Hc. rewrite decide_True in Hc by done. destruct Hc as [Hno Hch].
  destruct Htop as [[-> Hnone]|(v & Hv & Hcl & Htop)]; [left|right; exists hit, v].
  - specialize (Hno eq_refl) as ->. unfold release_part in Hr. rewrite decide_True in Hr by done. subst s2.
    unfold drag_part in Hdr. rewrite decide_False in Hdr by (rewrite Hd; lia). by subst s3.
  - destruct (Hch v Hv) as (_ & F & R & I). rewrite Z.geb_leb in R.
    unfold release_part in Hr. rewrite M1, decide_True in Hr by done. subst s2.
    assert (DRAG_WIN (inp s1) = if Mouse.Y (ms s) <? wy v then hit else -1) as D1.
    { rewrite I. destruct (_ <? _); [done|exact Hd]. }
    assert (FOCUSED_IDX (dk s3) = FOCUSED_IDX (dk s1) ∧ sys s3 = sys s1 ∧ inp s3 = inp s1) as (F3 & K3 & I3).
    { unfold drag_part in Hdr. case_decide; [|by subst s3].
      destruct Hdr as (u & u' & _ & _ & _ & A & B & C & _). done. }
    subst s'. cbn [dk sys inp set_prev set_inp DRAG_WIN]. rewrite F3, K3, I3. by split_and!.
Qed.

(** C28: while the button is held, the dragged window follows the pointer,
    kept within reach: 40 pixels of it stay on the screen and its title bar
    stays below the top and above the bottom edge.  Nothing else of any window
    changes - no flag, no cached pixel - and both its old and its new place
    are damaged. *)
Theorem drag_moves_window s v :
  wm_ok s → left_held s →
  ¬ left_pressed s →
  win_at (dk s) (DRAG_WIN (inp s)) = Some v →
  wp wm_update_mouse (λ _ s',
    let v' := with_pos
      (clamp (40 - ww v) (Fb.FB_W (fbs s) - 40) (i32 (Mouse.X (ms s) - DRAG_OFFX (inp s))))
      (clamp GUI_TITLE_H (Fb.FB_H (fbs s) - 20) (i32 (Mouse.Y (ms s) - DRAG_OFFY (inp s)))) v in
    WINS (dk s') = zset (WINS (dk s)) (DRAG_WIN (inp s)) v' ∧ FOCUSED_IDX (dk s') = FOCUSED_IDX (dk s) ∧
    DRAG_WIN (inp s') = DRAG_WIN (inp s) ∧ no_damage_lost s s') s.
Proof.
  intros Hok Hl Hnp Hv. wp_use wp_update_mouse; [done|].
  intros [] s' [(_ & [T _ _ _] & _) (hit & s1 & s2 & s3 & _ & Hc & Hr & Hdr & M1 & M2 & Es)].
  pose proof (win_at_range _ _ _ (gd_wf _ (ok_desk _ Hok)) Hv) as Hd.
  unfold click_part in Hc. rewrite decide_False in Hc by done. subst s1.
  unfold release_part in Hr. rewrite decide_True in Hr by done. subst s2.
  unfold drag_part in Hdr. rewrite decide_True in Hdr by (split; [done|lia]).
  destruct Hdr as (u & u' & Hu & Hdr & W & F & _ & I & _). rewrite Hv in Hu. injection Hu as <-.
  pose proof (ok_size _ Hok) as [S1 S2]. apply win_at_get in Hv as [Hv Hus].
  pose proof (good_window _ _ _ (ok_desk _ Hok) Hv Hus) as Hw.
  unfold dragged in Hdr. rewrite drag_to_at in Hdr by done.
  subst s'. cbn zeta. rewrite <- Hdr. split_and!; [exact W|exact F| |exact T].
  cbn [inp set_prev set_inp DRAG_WIN]. by rewrite I.
Qed.

(** [create_window] opens a window in the first unused slot, painted and
    focused, and leaves the others what they were, or answers -1, then only
    pages of the allocator changed hands; either way the GUI stays in order
    and everything that looks different is damaged. *)
Theorem create_window_opens s str px py pw ph k :
  wm_ok s → blank_slots (dk s) → pages_ok s → sane str px py pw ph →
  wp (open_window str px py pw ph k) (λ r s', wm_ok s' ∧ pages_ok s' ∧ no_damage_lost s s' ∧
    ((r = -1 ∧ dk s' = dk s) ∨
     (0 ≤ r ∧ opened str px py pw ph k r s s'))) s.
Proof.
  intros Hok Hbl Hp Hs. wp_use (wp_create_window FONT8X16 FONT8X16_ok); [done..|].
  intros r s' (Hok' & Hp' & [T _ _ _] & Hr). split_and!; [done..|].
  destruct Hr as [[-> [_ [g ->]]]|Ho]; [by left|right]. split; [|done].
  destruct Ho as (v & _ & _ & _ & Hv & _). apply zget_Some_lt in Hv. lia.
Qed.
End session.

(** ** Witnesses: a 64 x 48 screen with one terminal, all of it damaged *)
Definition demo_window : window :=
  mkWin (replicate 24 0) 10 24 30 16 (Some (mkSurf 30 16 (replicate 480 0)))
    (Some (mkSurf 32 38 (replicate 1216 0))) true true false false false 0 (Some PaintTerminal).
Definition demo_desk : desk :=
  mkDesk (demo_window :: replicate 7 empty) 0
    (Dirty.mkRegion (mkRect 0 0 64 48 :: replicate 15 (mkRect 0 0 0 0)) 1 64 48).
Definition demo_fbs : Fb.fb := Fb.mkFb (λ _, 0) 256 64 48 32 16 8 0 true.
Definition demo_sys : Kernel.kern Pmm.pmm :=
  Kernel.mkKern Spawn.demo_machine Tmpfs.demo_fs
    (Kbd.mkKbd (Ring.mkRing (replicate 128 0) 0 0) false (-1) true [] Vterm.demo_terms) [].
(** The pointer is in the title bar, [b] its buttons now, [prev] before, [dr]
    the dragged window. *)
Definition demo (b prev dr : Z) : wm Pmm.pmm :=
  mkWm demo_sys (Mouse.mkMouse 12 20 b 0 [0; 0; 0]) demo_fbs demo_desk (mkSurf 64 48 (replicate 3072 0))
    (-1) (-1) (mkStats 0 0 0 0) [0; -1; -1; -1] false (mkInput prev dr 2 (-4)) 0 true.

Lemma demo_win i v : zget (WINS demo_desk) i = Some v → (i = 0 ∧ v = demo_window) ∨ v = empty.
Proof.
  unfold zget. case_decide; [|done]. cbn [WINS demo_desk]. destruct (Z.to_nat i) as [|k] eqn:E.
  - intros [= <-]. left. split; [lia|done].
  - cbn [lookup list_lookup]. intros Hv%list_elem_of_lookup_2%elem_of_replicate_inv. by right.
Qed.
Lemma demo_window_ok : window_ok demo_window.
Proof. split; try done; [split; [done|by apply (bool_decide_unpack _)]|..]; by eexists. Qed.

Lemma demo_damage : Dirty.region_ok (DIRTY demo_desk) ∧
  ∀ px py, covers demo_desk px py ↔ inside (mkRect 0 0 64 48) px py.
Proof. apply (Dirty.single_ok (Dirty.mkRegion (Dirty.r Dirty.new) 0 64 48)); [by apply Dirty.init_ok|done]. Qed.

Lemma demo_wm_ok b prev dr : dr = -1 ∨ dr = 0 → wm_ok (demo b prev dr).
Proof.
  intros Hdr. split.
  - split; [split; [done| |]|].
    + intros i v Hv Hu. destruct (demo_win i v Hv) as [[_ ->]| ->]; [exact demo_window_ok|done].
    + exact (proj1 demo_damage).
    + intros i v Hv Hu Hst. by destruct (demo_win i v Hv) as [[_ ->]| ->].
  - split; [right; by exists demo_window|]. intros i v Hv Hu.
    by destruct (demo_win i v Hv) as [[-> ->]| ->].
  - split; [done|]. apply (bool_decide_unpack _). vm_compute. exact I.
  - by split_and!.
  - done.
  - done.
  - split_and!; [|done|done]. split; try done. by left.
  - done.
  - by left.
  - destruct Hdr as [-> | ->]; [by left|right]. by exists demo_window.
  - done.
Qed.
Lemma demo_shown b prev dr : up_to_date FONT8X16 (demo b prev dr).
Proof. intros px py Hp. left. apply demo_damage. unfold on_screen, inside in *. simpl in *. lia. Qed.
Lemma demo_session b prev dr : dr = -1 ∨ dr = 0 → session_ok (demo b prev dr).
Proof.
  intros Hdr. split; [by apply demo_wm_ok|apply demo_shown|]. exists []. by split.
Qed.
Lemma demo_pages b prev dr : pages_ok (demo b prev dr).
Proof. exact (proj1 (proj2 Spawn.demo_ready)). Qed.

Lemma mouse_handler_ok_witness :
  wp wm_update_mouse (λ _ s', wm_ok s' ∧ no_damage_lost (demo 1 0 (-1)) s' ∧ ms s' = ms (demo 1 0 (-1)))
    (demo 1 0 (-1)).
Proof. apply (mouse_handler_ok (demo 1 0 (-1))). by apply demo_wm_ok; left. Defined.

Lemma left_click_focuses_witness :
  wp wm_update_mouse (λ _ s', focus_ok (dk s') ∧ FOCUSED_IDX (dk s') = 0 ∧ DRAG_WIN (inp s') = 0) (demo 1 0 (-1)).
Proof.
  eapply wp_mono.
  - apply (left_click_focuses (demo 1 0 (-1))); [by apply demo_wm_ok; left|reflexivity|done|done].
  - intros [] s' [Hf [[_ Hno]|(hit & v & Hv & _ & _ & H1 & _ & H2)]].
    + exfalso. apply (Hno 0 demo_window); [reflexivity|]. unfold pointer_on, clickable, GUI_TITLE_H. simpl. lia.
    + split; [done|]. apply win_at_get in Hv as [Hv Hu].
      destruct (demo_win hit v Hv) as [[-> ->]| ->]; [by rewrite H1, H2|done].
Defined.

(** The pointer at (12, 20) with offset (2, -4) keeps the window where it is. *)
Lemma drag_moves_window_witness :
  wp wm_update_mouse (λ _ s', WINS (dk s') = zset (WINS demo_desk) 0 (with_pos 10 24 demo_window)) (demo 1 1 0).
Proof.
  eapply wp_mono.
  - apply (drag_moves_window (demo 1 1 0) demo_window);
      [by apply demo_wm_ok; right|done|by intros Hx; apply Hx|reflexivity].
  - intros [] s' (H1 & _). exact H1.
Defined.

Lemma demo_blank : blank_slots demo_desk.
Proof.
  intros i v Hv Hu. destruct (demo_win i v Hv) as [[_ ->]| ->]; [done|].
  split_and!; [done|by apply (bool_decide_unpack _)|done|done].
Qed.
Lemma create_window_opens_witness :
  wp (open_window [65] 5 30 20 10 None) (λ r s', wm_ok s' ∧
    tracked demo_desk (dk s') ∧ (r = -1 ∨ FOCUSED_IDX (dk s') = r)) (demo 0 0 (-1)).
Proof.
  eapply wp_mono.
  - apply (create_window_opens (demo 0 0 (-1)) [65] 5 30 20 10 None).
    + by apply demo_wm_ok; left.
    + apply demo_blank.
    + apply demo_pages.
    + split_and!; [by repeat constructor|lia..].
  - intros r s' (H1 & _ & H2 & [[H3 _]|[_ (v & v' & b & f & _ & _ & _ & H3 & _)]]); auto.
Defined.

(** ** The boot-time drag of a window *)
Definition wide : wm Pmm.pmm :=
  set_dk (set_dirty (Dirty.mkRegion (Dirty.r Dirty.new) 0 200 150) demo_desk)
    (set_fbs (Fb.mkFb (λ _, 0) 800 200 150 32 16 8 0 true) (demo 0 0 (-1))).
Example drag_selftest_passes :
  match drag_selftest 0 10 24 wide with
  | Done (pass, s) => Some (pass, WINS (dk s), DRAG_WIN (inp s), Dirty.n (DIRTY (dk s)))
  | _ => None
  end = Some (true, WINS demo_desk, -1, 1).
Proof. vm_compute. reflexivity. Qed.

(** ** A lost update

    The hook runs in the writing thread: when it preempts the compositor
    between [refresh] and [flush], the window is marked but its damage is taken
    with the old cache.  The next turn renders the window without damage, and
    the screen keeps the old picture. *)
Definition race_font : list (list Z) := zset (replicate 256 (replicate 16 0)) 65 (replicate 16 0xF0).
Definition print_A : M (wm Pmm.pmm) unit := kern_call (Kernel.vt_call (Vterm.putc_vt 0 65));; deliver.
Definition lost_update : M (wm Pmm.pmm) unit :=
  kern_call (Kernel.vt_call Vterm.set_dirty_hook);;
  gather race_font;; print_A;; _ ← take_damage;
  gather race_font.

(** The cached pixel has changed; nothing is damaged. *)
Example print_is_lost :
  match lost_update (demo 0 0 (-1)) with
  | Done (_, s) => Some (look (dk (demo 0 0 (-1))) 15 39, look (dk s) 15 39, Dirty.n (DIRTY (dk s)))
  | _ => None
  end = Some (Some 0, Some 0xFFD0FFD0, 0).
Proof. vm_compute. reflexivity. Qed.
End Session.
