(* ===== verification/Boot.v ===== *)
(** * Starting the GUI ([gui/wm.rs], [init], [drag_selftest])

    From the state the loader's framebuffer and the other parts' [init] leave,
    [wm::init] opens the boot terminal and the demo window, drags the terminal
    around once and starts the compositor thread: the session's invariant
    holds when it returns. *)
From S2P Require Import Prelude PageAlloc Pmm Mem Vmm Sched Spawn Ring Vterm Kbd Surface Font Dirty Mouse Fb Desk Kernel Wm Compose Gui Windows Session.
Import Surface (rect, mkRect, inside, surface, mkSurf, sw, sh, surface_ok).

Module Boot.
Import Font Desk Wm Compose Gui Windows Session.

(** ** What a computation leaves alone *)
Definition leaves {S A B} (f : S → B) (m : M S A) : Prop := ∀ s a s', m s = Done (a, s') → f s' = f s.
Section leaves.
Context {S B : Type} (f : S → B).

Lemma wp_leaves {A} (m : M S A) Q s : leaves f m → wp m Q s → wp m (λ a s', Q a s' ∧ f s' = f s) s.
Proof. unfold wp. intros Hl Hm. specialize (Hl s). destruct (m s) as [[a s']| |]; [|done|done]. split; [done|by eapply Hl]. Qed.
Lemma leaves_bind {A C} (m : M S A) (k : A → M S C) :
  leaves f m → (∀ a, leaves f (k a)) → leaves f (m ≫= k).
Proof.
  intros Hm Hk s c s'. unfold mbind, M_bind. specialize (Hm s).
  destruct (m s) as [[a s1]| |]; [|done|done]. intros E. rewrite (Hk a s1 c s' E). by apply (Hm a).
Qed.
Lemma leaves_ret {A} (a : A) : leaves f (mret a).
Proof. by intros s x s' [= <- <-]. Qed.
Lemma leaves_gets {A} (g : S → A) : leaves f (gets g).
Proof. by intros s x s' [= <- <-]. Qed.
Lemma leaves_modify (g : S → S) : (∀ s, f (g s) = f s) → leaves f (modify g).
Proof. intros Hg s x s' [= <- <-]. apply Hg. Qed.
Lemma leaves_panic {A} : leaves f (panic : M S A).
Proof. done. Qed.
Lemma leaves_of_option {A} (o : option A) : leaves f (of_option o).
Proof. destruct o; [apply leaves_ret|apply leaves_panic]. Qed.
Lemma leaves_if {A} (b : bool) (m1 m2 : M S A) : leaves f m1 → leaves f m2 → leaves f (if b then m1 else m2).
Proof. by destruct b. Qed.
Lemma leaves_zoom {T A} (get : S → T) (set : T → S → S) (m : M T A) :
  (∀ s t, f (set t s) = f s) → leaves f (zoom get set m).
Proof. intros Hs s a s'. unfold zoom. destruct (m (get s)) as [[x t]| |]; [|done|done]. intros [= <- <-]. apply Hs. Qed.
Lemma leaves_for_from {R} n i (body : Z → M S (option R)) :
  (∀ i, leaves f (body i)) → leaves f (for_from n i body).
Proof.
  intros Hb. revert i. induction n as [|n IH]; intros i; cbn [for_from]; [apply leaves_ret|].
  apply leaves_bind; [done|]. intros [r|]; [apply leaves_ret|apply IH].
Qed.
Lemma leaves_for_range {R} lo hi (body : Z → M S (option R)) :
  (∀ i, leaves f (body i)) → leaves f (for_range lo hi body).
Proof. intros Hb. by apply leaves_for_from. Qed.
Lemma leaves_for_each lo hi (body : Z → M S unit) : (∀ i, leaves f (body i)) → leaves f (for_each lo hi body).
Proof.
  intros Hb. apply leaves_bind; [apply leaves_for_range|intros ?; apply leaves_ret].
  intros i. apply leaves_bind; [done|intros ?; apply leaves_ret].
Qed.
Lemma leaves_aget {A} (g : S → list A) i : leaves f (aget g i).
Proof. apply leaves_bind; [apply leaves_gets|intros l; apply leaves_of_option]. Qed.
End leaves.
Create HintDb leaves.
#[export] Hint Resolve leaves_ret leaves_gets leaves_panic leaves_of_option leaves_aget leaves_zoom : leaves.
#[export] Hint Resolve leaves_modify : leaves.
(** Down to the pieces that are leaves already. *)
Ltac leaf := repeat first
  [ progress intros | progress cbv zeta | solve [auto with leaves] | apply leaves_for_range
  | apply leaves_for_each | apply leaves_if | apply leaves_bind | case_match ].

(** Everything but the desk, the pointer and buttons, the terminals and the
    memory. *)
Section rest.
Context {P : Type} `{PageAllocator P}.
Variable font : list (list Z).
Implicit Types s : wm P.
Definition rest s := (fbs s, (Mouse.CYCLE (ms s), Mouse.PACKET (ms s)), WANT_NEW_TERM s, λ v, Sched.set_vm v (Kernel.sc (sys s))).

Lemma rest_desk_call {A} (m : M desk A) : leaves rest (desk_call m).
Proof. by apply leaves_zoom. Qed.
Lemma leaves_on_win {A B} (f : wm P → B) i (m : M window A) :
  (∀ d s, f (set_dk d s) = f s) → leaves f (on_win i m).
Proof.
  intros Hf s a s'. unfold on_win, zoom. destruct (zget (WINS (dk s)) i) as [v|]; [|done].
  destruct (m v) as [[x v']| |]; [|done|done]. intros [= <- <-]. apply Hf.
Qed.
Lemma rest_on_win {A} i (m : M window A) : leaves rest (on_win i m).
Proof. by apply leaves_on_win. Qed.
Lemma rest_kb_call {A} (m : M Kbd.kbd A) : leaves rest (kern_call (Kernel.kb_call m)).
Proof.
  intros s a s'. unfold kern_call, Kernel.kb_call, zoom.
  destruct (m _) as [[x v']| |]; [|done|done]. by intros [= <- <-].
Qed.
Lemma rest_vt_call {A} (m : M Vterm.vterms A) : leaves rest (kern_call (Kernel.vt_call m)).
Proof.
  intros s a s'. unfold kern_call, Kernel.vt_call, Kernel.kb_call, Kbd.vt_call, zoom.
  destruct (m _) as [[x v']| |]; [|done|done]. by intros [= <- <-].
Qed.
Hint Resolve rest_desk_call rest_on_win rest_kb_call rest_vt_call : leaves.
Lemma rest_create_surface wd ht : leaves rest (create_surface (P := P) wd ht).
Proof. unfold create_surface. leaf. Qed.
Lemma rest_frame_render i : leaves rest (frame_render (P := P) font i).
Proof. unfold frame_render, run_hook, paint_terminal, paint_demo, timer_ticks, get_win. leaf. Qed.
Hint Resolve rest_create_surface rest_frame_render : leaves.
Lemma rest_create_window str px py pw ph k : leaves rest (create_window (P := P) font str px py pw ph k).
Proof. unfold create_window, get_win. leaf. Qed.
End rest.

(** The mouse handler and the self test only touch the desk, the pointer, the
    drag state and the keyboard's route. *)
Section handler.
Context {P : Type} `{PageAllocator P} {B : Type}.
Variable f : wm P → B.
Hypothesis leaves_dk : ∀ d s, f (set_dk d s) = f s.
Hypothesis leaves_inp : ∀ i s, f (set_inp i s) = f s.
Hypothesis leaves_kb : ∀ k s, f (set_sys (Kernel.set_kb k (sys s)) s) = f s.
Hypothesis leaves_at : ∀ x y s, f (set_ms (Mouse.set_pos x y (ms s)) s) = f s.
Hypothesis leaves_buttons : ∀ b s, f (set_ms (Mouse.set_buttons b (ms s)) s) = f s.

Lemma leaves_desk_call {A} (m : M desk A) : leaves f (desk_call m).
Proof. apply leaves_zoom. auto. Qed.
Lemma leaves_win_call {A} i (m : M window A) : leaves f (on_win i m).
Proof. by apply leaves_on_win. Qed.
Lemma leaves_kb_call {A} (m : M Kbd.kbd A) : leaves f (kern_call (Kernel.kb_call m)).
Proof.
  intros s a s'. unfold kern_call, Kernel.kb_call, zoom.
  destruct (m _) as [[x v']| |]; [|done|done]. intros [= <- <-]. apply leaves_kb.
Qed.
Hint Resolve leaves_desk_call leaves_win_call leaves_kb_call leaves_inp leaves_at leaves_buttons : leaves.
Lemma leaves_update_mouse : leaves f (wm_update_mouse (P := P)).
Proof.
  unfold wm_update_mouse, press, focus_on, drag, route_keyboard, set_drag, get_win, screen_w, screen_h. leaf.
Qed.
Hint Resolve leaves_update_mouse : leaves.
Lemma leaves_drag_selftest id ox oy : leaves f (drag_selftest (P := P) id ox oy).
Proof.
  assert (∀ n k sx sy, leaves f (drag_moves (P := P) id sx sy n k)) as Hm.
  { induction n as [|n IH]; intros k sx sy; cbn [drag_moves]; [apply leaves_ret|].
    unfold drag_move, set_mouse_at, get_win. leaf. }
  unfold drag_selftest, clear_flags, set_mouse_at, set_mouse_buttons, get_win. leaf.
Qed.
End handler.
Lemma rest_update_mouse {P : Type} `{PageAllocator P} : leaves rest (wm_update_mouse (P := P)).
Proof. by apply leaves_update_mouse. Qed.

(** The unused slots hold what they held. *)
Definition idles (d d' : desk) : Prop := ∀ i, idle <$> zget (WINS d') i = idle <$> zget (WINS d) i.
Lemma idles_trans d1 d2 d3 : idles d1 d2 → idles d2 d3 → idles d1 d3.
Proof. intros A B i. by rewrite B, A. Qed.
Lemma idles_of {B} (f : window → B) (g : B → option window) d d' :
  (∀ v, idle v = g (f v)) → (∀ i, f <$> zget (WINS d') i = f <$> zget (WINS d) i) → idles d d'.
Proof.
  intros Hg He i. specialize (He i). destruct (zget (WINS d') i) as [v'|], (zget (WINS d) i) as [v|]; try done.
  simpl in *. injection He as E. f_equal. by rewrite !Hg, E.
Qed.
Lemma shapes_idles d d' : same_shapes d d' → idles d d'.
Proof. by apply (idles_of shape (λ x, x.2)). Qed.
Lemma table_idles d d' : same_table d d' → idles d d'.
Proof. intros [_ Ht]. by apply (idles_of ident (λ x, x.2)). Qed.
Lemma idles_zset d d' i v v' :
  win_at d i = Some v → used v' = true → WINS d' = zset (WINS d) i v' → idles d d'.
Proof.
  intros [Hv Hu]%win_at_get Hu' Hw j. rewrite Hw, zget_zset by (by eapply zget_Some_lt).
  case_decide; [|done]. subst. rewrite Hv. simpl. unfold idle. by rewrite Hu, Hu'.
Qed.
Lemma idles_blank d d' : idles d d' → blank_slots d → blank_slots d'.
Proof.
  intros Hi Hb j u Hu Hun. specialize (Hi j). rewrite Hu in Hi. destruct (zget (WINS d) j) as [u0|] eqn:E; [|done].
  simpl in Hi. unfold idle in Hi. rewrite Hun in Hi. destruct (used u0) eqn:Hu0; [done|]. injection Hi as ->. by apply (Hb j).
Qed.
Lemma mouse_event_idles {P : Type} `{PageAllocator P} (s s' : wm P) : mouse_event s s' → idles (dk s) (dk s').
Proof.
  intros (hit & s1 & s2 & s3 & Htop & Hc & Hr & Hd & _ & _ & ->). cbn [dk set_prev set_inp].
  apply (idles_trans _ (dk s1)).
  { unfold click_part in Hc. case_decide; [|by subst]. destruct Hc as [C1 C2].
    destruct Htop as [[-> _]|(v & Hv & _)]; [by rewrite C1|]. by apply shapes_idles, (C2 v Hv). }
  assert (dk s2 = dk s1) as <- by (unfold release_part in Hr; case_decide; by subst).
  unfold drag_part in Hd. case_decide; [|by subst]. destruct Hd as (v & v' & Hv & Hdr & W & _).
  eapply idles_zset; [exact Hv| |exact W]. unfold dragged in Hdr. subst v'. by apply win_at_get in Hv as [_ ?].
Qed.
(** ** The drag self test *)
(** [wm_ok] but for the damage: the self test clears the region while windows
    are out of date. *)
Section rough.
Context {P : Type} `{PageAllocator P}.
Implicit Types s : wm P.

Record rough s : Prop := {
  ro_desk : desk_wf (dk s);
  ro_focus : focus_ok (dk s);
  ro_terms : terms_ok s;
  ro_bb : surface_ok (BACKBUFFER s) ∧ sw (BACKBUFFER s) = Fb.FB_W (fbs s) ∧ sh (BACKBUFFER s) = Fb.FB_H (fbs s);
  ro_screen : Dirty.bw (DIRTY (dk s)) = Fb.FB_W (fbs s) ∧ Dirty.bh (DIRTY (dk s)) = Fb.FB_H (fbs s);
  ro_size : 0 < Fb.FB_W (fbs s) < 2 ^ 15 ∧ 0 < Fb.FB_H (fbs s) < 2 ^ 15;
  ro_fb : Fb.fb_ok (fbs s) ∧ Fb.FB_BPP (fbs s) = 32 ∧ Fb.FB_PITCH (fbs s) < 2 ^ 32;
  ro_mouse : on_screen s (Mouse.X (ms s)) (Mouse.Y (ms s));
  ro_cursor : CURSOR_PREV_X s = -1 ∨ on_screen s (CURSOR_PREV_X s) (CURSOR_PREV_Y s);
  ro_drag : DRAG_WIN (inp s) = -1 ∨ ∃ v, win_at (dk s) (DRAG_WIN (inp s)) = Some v;
  ro_vtwin : zlen (VT_WIN s) = Vterm.VT_MAX;
  ro_blank : blank_slots (dk s);
}.
Lemma ok_rough s : wm_ok s → blank_slots (dk s) → rough s.
Proof. intros [[] ]. by constructor. Qed.
Lemma rough_ok s : rough s → stale_damaged (dk s) → wm_ok s.
Proof. intros [] Hs. by constructor. Qed.
Lemma rough_slot s i : rough s → 0 ≤ i < GUI_MAX_WINDOWS → ∃ v, zget (WINS (dk s)) i = Some v.
Proof. intros Hr Hi. apply zget_lt. by rewrite (dk_len _ (ro_desk _ Hr)). Qed.

(** When all of the screen is damaged nothing is out of order. *)
Definition all_damaged s : Prop := ∀ px py, screen (dk s) px py → covers (dk s) px py.
Lemma rough_all s : rough s → all_damaged s → wm_ok s.
Proof. intros Hr Ha. apply rough_ok; [done|]. intros i v _ _ _ px py _ Hs. by apply Ha. Qed.
Lemma all_session s font : wm_ok s → all_damaged s → up_to_date font s.
Proof. intros Hok Ha px py Hp. left. apply Ha. by apply (on_screen_iff s px py Hok). Qed.

(** *** The pointer and the buttons are set *)
Lemma rough_at s px py : rough s → on_screen s px py → rough (set_ms (Mouse.set_pos px py (ms s)) s).
Proof. intros [] Hp. by constructor. Qed.
Lemma rough_buttons s b : rough s → rough (set_ms (Mouse.set_buttons b (ms s)) s).
Proof. intros []. by constructor. Qed.
Lemma rough_dirty s r :
  rough s → Dirty.region_ok r → Dirty.same_screen (DIRTY (dk s)) r → rough (set_dk (set_dirty r (dk s)) s).
Proof.
  intros [[R1 R1' _] [R2 R2'] R3 R4 [R5 R5'] R6 R7 R8 R9 R10 R11 R12] Hr [E1 E2].
  constructor; try done; cbn [dk set_dk DIRTY set_dirty fbs]. split; [exact (eq_trans E1 R5)|exact (eq_trans E2 R5')].
Qed.

(** Window [i] is replaced by one in the same place of the focus. *)
Lemma rough_win s i v v' :
  rough s → zget (WINS (dk s)) i = Some v → used v' = used v → focused v' = focused v →
  (window_ok v → window_ok v') → (used v = false → blank v → blank v') → rough (set_win i v' s).
Proof.
  intros [[R1 R1' R1''] R2 R3 R4 R5 R6 R7 R8 R9 R10 R11 R12] Hv Hu Hf Hw Hb.
  pose proof (zget_Some_lt _ _ _ Hv) as Hi. constructor; try done; cbn [dk set_win set_dk inp].
  - split; [|intros j u; cbn [WINS set_wins]; rewrite zget_zset by done|done].
    + rewrite <- R1. apply zlen_zset.
    + case_decide; [|apply R1']. intros [= <-] Hu'. apply Hw, (R1' i); [done|congruence].
  - by apply (focus_ok_moved (dk s) _ i v v').
  - destruct R10 as [|[u [Hu1 Hu2]%win_at_get]]; [by left|right].
    destruct (decide (i = DRAG_WIN (inp s))) as [->|Hne].
    + exists v'. apply win_at_get. split; [by apply zget_zset_eq|congruence].
    + exists u. apply win_at_get. split; [|done]. cbn [WINS set_wins]. by rewrite zget_zset_ne by lia.
  - intros j u. cbn [WINS set_wins]. rewrite zget_zset by done. case_decide; [|apply R12].
    intros [= <-] Hn. apply Hb; [congruence|]. apply (R12 i); [done|congruence].
Qed.
Lemma wp_clear_flags s i v :
  rough s → zget (WINS (dk s)) i = Some v →
  wp (clear_flags i) (λ _ s', rough s') s.
Proof.
  intros Hr Hv. unfold clear_flags. wp_step. eapply wp_on_win; [exact Hv|]. wp_run.
  eapply wp_on_win; [by apply (set_win_get i _ s v)|]. wp_run.
  rewrite set_win_twice. apply (rough_win s i v); [done|done|done|done| |].
  - intros []. by constructor.
  - by intros _ (A & B & C & _).
Qed.
End rough.
Section drag_selftest.
Context {P : Type} `{PageAllocator P}.
Implicit Types s : wm P.

Lemma wp_add_rough s a :
  rough s → Surface.rect_near a → wp (desk_call (dirty_call (Dirty.add a))) (λ _ s', rough s' ∧
    ∃ r, s' = set_dk (set_dirty r (dk s)) s) s.
Proof.
  intros Hr Ha. unfold desk_call, dirty_call. do 2 apply wp_zoom.
  wp_use Dirty.wp_add; [apply Hr|done|]. intros [] r (R1 & R2 & _). split; [by apply rough_dirty|by exists r].
Qed.

Lemma wp_drag_rough s mx my v :
  rough s → win_at (dk s) (DRAG_WIN (inp s)) = Some v →
  wp (drag mx my) (λ _ s', rough s' ∧ ms s' = ms s ∧ inp s' = inp s) s.
Proof.
  intros Hr Hv. pose proof (ro_size _ Hr) as [S1 S2]. apply win_at_get in Hv as [Hv Hu].
  pose proof (dk_win _ (ro_desk _ Hr) _ _ Hv Hu) as Hw.
  unfold drag. wp_step. wp_step. cbv beta. wp_step. eapply wp_get_win; [exact Hv|]. cbv beta.
  unfold screen_w, screen_h. wp_run. rewrite !i32_id by lia. cbv zeta.
  pose proof (drag_to_ok _ _ mx my (DRAG_OFFX (inp s)) (DRAG_OFFY (inp s)) v Hw S1 S2) as Hw'.
  set (v' := drag_to _ _ _ _ _ _ v) in *. assert (v' = with_pos (wx v') (wy v') v) as Ev by done.
  clearbody v'. eapply wp_on_win; [exact Hv|]. wp_run.
  assert (rough (set_win (DRAG_WIN (inp s)) v' s)) as Hr1
    by (apply (rough_win s _ v v'); [done|done|by rewrite Ev|by rewrite Ev|done|congruence]).
  destruct (negb _ || negb _); [|by wp_run].
  assert (mkRect (i32 (wx v - 1)) (i32 (i32 (wy v - GUI_TITLE_H) - 1)) (i32 (ww v' + 2))
      (i32 (i32 (wh v' + GUI_TITLE_H) + 2)) = window_rect_screen v) as -> by (by rewrite Ev).
  wp_step. wp_use wp_add_rough; [exact Hr1|by apply window_rect_near|]. intros [] s2 [Hr2 [r2 ->]].
  wp_use wp_add_rough; [exact Hr2|by apply window_rect_near|]. intros [] s3 [Hr3 [r3 ->]]. done.
Qed.

Lemma rough_inp s ip :
  rough s → (DRAG_WIN ip = -1 ∨ ∃ v, win_at (dk s) (DRAG_WIN ip) = Some v) → rough (set_inp ip s).
Proof. intros [] Hd. by constructor. Qed.

(** The handler while no button goes down. *)
Lemma wp_hold s :
  rough s → ¬ left_down (Z.land (Mouse.BUTTONS (ms s)) (255 - PREV_BUTTONS (inp s))) →
  wp wm_update_mouse (λ _ s', rough s' ∧ ms s' = ms s ∧ PREV_BUTTONS (inp s') = Mouse.BUTTONS (ms s)) s.
Proof.
  intros Hr Hno. unfold wm_update_mouse. do 3 (wp_step; wp_step; cbv beta). wp_step.
  unfold desk_call at 1. apply wp_zoom. wp_use wp_hit_test; [apply (ro_desk _ Hr)|].
  intros hit d [-> _]. replace (set_dk (dk s) s) with s by (by destruct s). wp_step; wp_step; cbv beta zeta.
  rewrite (left_down_eqb (Z.land (Mouse.BUTTONS (ms s)) (255 - PREV_BUTTONS (inp s)))), bool_decide_true by done.
  cbn [negb]. wp_step. wp_step. wp_step.
  set (m := if Z.land (Mouse.BUTTONS (ms s)) 1 =? 0 then _ else _).
  assert (wp m (λ _ s1, rough s1 ∧ ms s1 = ms s) s) as Hm.
  { unfold m. destruct (_ =? 0); wp_run; [|split; [exact Hr|reflexivity]]. split; [|done]. apply rough_inp; [done|by left]. }
  wp_use Hm. clear m Hm. intros [] s1 [Hr1 M1]. wp_step; wp_step; cbv beta. wp_step.
  set (m := if negb _ && _ then _ else _).
  assert (wp m (λ _ s2, rough s2 ∧ ms s2 = ms s) s1) as Hm.
  { unfold m. destruct (negb _ && _) eqn:E; [|by wp_run]. apply andb_true_iff in E as [_ E].
    destruct (ro_drag _ Hr1) as [Hd|[v Hv]]; [lia|].
    wp_use wp_drag_rough; [done|exact Hv|]. intros [] s2 (Hr2 & M2 & _). split; [done|congruence]. }
  wp_use Hm. intros [] s2 [Hr2 M2]. wp_run. split_and!; [|done|done]. apply rough_inp; [done|apply Hr2].
Qed.
End drag_selftest.
Section selftest.
Context {P : Type} `{PageAllocator P}.
Implicit Types s : wm P.

Lemma wp_at s px py (Q : unit → wm P → Prop) :
  Q tt (set_ms (Mouse.set_pos px py (ms s)) s) → wp (set_mouse_at px py) Q s.
Proof. intros HQ. unfold set_mouse_at. by wp_run. Qed.
Lemma wp_buttons s b (Q : unit → wm P → Prop) :
  Q tt (set_ms (Mouse.set_buttons b (ms s)) s) → wp (set_mouse_buttons b) Q s.
Proof. intros HQ. unfold set_mouse_buttons. by wp_run. Qed.
Lemma wp_clear_rough s :
  rough s → wp (desk_call (dirty_call Dirty.clear)) (λ _ s', rough s' ∧ ms s' = ms s ∧ inp s' = inp s ∧ fbs s' = fbs s) s.
Proof.
  intros Hr. unfold desk_call, dirty_call, Dirty.clear. do 2 apply wp_zoom. wp_run. split_and!; [|done..].
  apply rough_dirty; [done|apply Dirty.clear_ok, (dk_dirty _ (ro_desk _ Hr))|done].
Qed.
Lemma leaves_clear_flags i : leaves (λ s, (fbs s, ms s, inp s)) (clear_flags (P := P) i).
Proof. apply leaves_bind; [by apply leaves_on_win|intros _; by apply leaves_on_win]. Qed.
Lemma wp_add_all s :
  rough s → wp (desk_call (dirty_call Dirty.add_all)) (λ _ s', wm_ok s' ∧ all_damaged s' ∧
    ∃ r, s' = set_dk (set_dirty r (dk s)) s) s.
Proof.
  intros Hr. unfold desk_call, dirty_call, Dirty.add_all. do 2 apply wp_zoom. wp_run.
  pose proof (dk_dirty _ (ro_desk _ Hr)) as Hreg. destruct (ro_screen _ Hr) as [E1 E2], (ro_size _ Hr) as [S1 S2].
  set (a := mkRect 0 0 (Dirty.bw (DIRTY (dk s))) (Dirty.bh (DIRTY (dk s)))).
  destruct (Dirty.single_ok (DIRTY (dk s)) a Hreg) as [Hok Hc]; [unfold Dirty.on_screen, a; simpl; lia|].
  set (s' := set_dk _ s). assert (all_damaged s') as Ha by (intros px py Hp; by apply Hc).
  split_and!; [|exact Ha|by eexists]. apply rough_all; [by apply (rough_dirty s)|exact Ha].
Qed.

(** In the middle of the drag. *)
Definition holding (f : Fb.fb) s : Prop :=
  rough s ∧ fbs s = f ∧ Mouse.BUTTONS (ms s) = 1 ∧ PREV_BUTTONS (inp s) = 1.

Lemma wp_drag_move f s id sx sy step :
  holding f s → 0 ≤ id < GUI_MAX_WINDOWS →
  0 ≤ sx + step * 12 < Fb.FB_W f → 0 ≤ sy + step * 6 < Fb.FB_H f → 0 ≤ step ≤ 8 → 0 ≤ sx < 2 ^ 15 → 0 ≤ sy < 2 ^ 15 →
  wp (drag_move id sx sy step) (λ _ s', holding f s') s.
Proof.
  intros (Hr & Hf & HB & HP) Hid Hx Hy Hst Hsx Hsy. unfold drag_move. narrow. wp_step. apply wp_at.
  set (s1 := set_ms _ s). assert (rough s1) as Hr1.
  { apply rough_at; [done|]. unfold on_screen. rewrite Hf. lia. }
  wp_step. wp_use wp_clear_rough; [exact Hr1|]. intros [] s2 (Hr2 & M2 & I2 & F2). wp_step.
  wp_use (wp_leaves rest wm_update_mouse); [apply rest_update_mouse|apply wp_hold; [exact Hr2|]|].
  { rewrite M2, I2. cbn. rewrite HB, HP. by intros Hx'. }
  intros [] s3 [(Hr3 & M3 & P3) R3]. injection R3 as F3 _ _ _.
  destruct (rough_slot s3 id Hr3 Hid) as [v Hv]. wp_step. eapply wp_get_win; [exact Hv|]. wp_run.
  split_and!; [done|by rewrite F3, F2|by rewrite M3, M2|by rewrite P3, M2].
Qed.
Lemma wp_drag_moves f s id sx sy n step :
  holding f s → 0 ≤ id < GUI_MAX_WINDOWS → 0 ≤ step → step + Z.of_nat n ≤ 9 →
  0 ≤ sx → sx + 96 < Fb.FB_W f → 0 ≤ sy → sy + 48 < Fb.FB_H f →
  wp (drag_moves id sx sy n step) (λ _ s', holding f s') s.
Proof.
  revert s step. induction n as [|n IH]; intros s step Hs Hid Hst Hn Hx Hx' Hy Hy'; cbn [drag_moves]; [by wp_run|].
  pose proof Hs as (Hr & Hf & _). destruct (ro_size _ Hr) as [S1 S2]. rewrite Hf in S1, S2.
  wp_step. wp_use (wp_drag_move f); [exact Hs|exact Hid|lia..|]. intros ok s1 Hs1. wp_step.
  wp_use IH; [exact Hs1|exact Hid|lia..|]. intros oks s2 Hs2. by wp_run.
Qed.

(** A button that does not change the number of windows. *)
Lemma wp_event s :
  wm_ok s → wp wm_update_mouse (λ _ s', wm_ok s' ∧ fbs s' = fbs s ∧ ms s' = ms s ∧
    PREV_BUTTONS (inp s') = Mouse.BUTTONS (ms s) ∧ idles (dk s) (dk s')) s.
Proof.
  intros Hok. wp_use (wp_leaves rest wm_update_mouse); [apply rest_update_mouse|by apply wp_update_mouse|].
  intros [] s' [[(Hok' & _ & M) Hm] R]. injection R as F _ _ _.
  split_and!; [done|done|done| |by apply mouse_event_idles].
  destruct Hm as (hit & s1 & s2 & s3 & _ & _ & _ & _ & _ & _ & Es). by rewrite Es.
Qed.
Lemma wm_ok_ms s m :
  wm_ok s → on_screen s (Mouse.X m) (Mouse.Y m) → wm_ok (set_ms m s).
Proof. intros [] Hm. by constructor. Qed.

(** Whatever the moves did, at the end everything is in order again. *)
Lemma wp_drag_selftest s id ox oy :
  wm_ok s → blank_slots (dk s) → 0 ≤ id < GUI_MAX_WINDOWS → 0 ≤ ox → ox + 116 < Fb.FB_W (fbs s) →
  10 ≤ oy → oy + 38 < Fb.FB_H (fbs s) →
  wp (drag_selftest id ox oy) (λ _ s', wm_ok s' ∧ all_damaged s' ∧ blank_slots (dk s')) s.
Proof.
  intros Hok Hbl Hid Hx Hx' Hy Hy'. destruct (ok_size _ Hok) as [S1 S2]. unfold drag_selftest. narrow. cbv zeta.
  wp_step. apply wp_at. wp_step. apply wp_buttons. set (s1 := set_ms _ _).
  assert (wm_ok s1) as Hok1 by (apply (wm_ok_ms s); [done|unfold on_screen; simpl; lia]).
  wp_step. wp_use wp_event; [exact Hok1|]. intros [] s2 (Hok2 & F2 & M2 & _ & I2). wp_step. apply wp_buttons.
  set (s3 := set_ms _ s2). assert (wm_ok s3) as Hok3.
  { apply (wm_ok_ms s2); [done|]. rewrite M2. unfold on_screen. rewrite F2. simpl. lia. }
  wp_step. wp_use wp_event; [exact Hok3|]. intros [] s4 (Hok4 & F4 & M4 & P4 & I4).
  assert (rough s4) as Hr4 by (apply ok_rough; [done|]; by eapply idles_blank; [|eapply idles_blank; [exact I2|]]).
  destruct (rough_slot s4 id Hr4 Hid) as [v4 Hv4]. wp_step.
  wp_use (wp_leaves (λ s, (fbs s, ms s, inp s)) (clear_flags id)); [by apply leaves_clear_flags|by eapply wp_clear_flags|].
  intros [] s5 [Hr5 R5]. injection R5 as F5 M5 I5.
  assert (holding (fbs s) s5) as Hh5
    by (split_and!; [done|by rewrite F5, F4; apply F2|by rewrite M5, M4|by rewrite I5, P4]).
  wp_step. wp_use (wp_drag_moves (fbs s)); [exact Hh5|exact Hid|lia..|]. intros pass s6 (Hr6 & F6 & B6 & P6).
  wp_step. apply wp_buttons. set (s7 := set_ms _ s6). assert (rough s7) as Hr7 by (by apply rough_buttons).
  wp_step. wp_use wp_hold; [exact Hr7|by intros Hn|]. intros [] s8 (Hr8 & _).
  destruct (rough_slot s8 id Hr8 Hid) as [v8 Hv8]. wp_step. eapply wp_get_win; [exact Hv8|]. cbv beta zeta.
  wp_step. eapply wp_on_win; [exact Hv8|]. wp_step.
  assert (rough (set_win id (with_pos ox oy v8) s8)) as Hr9.
  { apply (rough_win s8 id v8); [done..| |done]. intros []. constructor; try done; simpl; lia. }
  wp_step. wp_use wp_clear_flags; [exact Hr9|by eapply set_win_get|]. intros [] s10 Hr10. wp_step.
  wp_use wp_clear_rough; [exact Hr10|]. intros [] s11 (Hr11 & _). wp_step.
  wp_use wp_add_all; [exact Hr11|]. intros [] s12 (Hd1 & Hd2 & r & ->). wp_run. split_and!; [done|done|exact (ro_blank _ Hr11)].
Qed.
End selftest.
(** ** [init] *)
Section init.
Context {P : Type} `{PageAllocatorLaws P}.
Implicit Types s : wm P.

(** What the boot code leaves: empty statics, a framebuffer large enough for
    the self test, and memory for the back buffer. *)
Definition backbuffer_pages s : Z := (Fb.FB_W (fbs s) * Fb.FB_H (fbs s) * 4 + PAGE_SIZE - 1) / PAGE_SIZE.
Record powered s : Prop := {
  pw_wins : WINS (dk s) = replicate (Z.to_nat GUI_MAX_WINDOWS) empty;
  pw_focus : FOCUSED_IDX (dk s) = -1;
  pw_region : zlen (Dirty.r (DIRTY (dk s))) = Dirty.DIRTY_MAX_RECTS;
  pw_terms : terms_ok s;
  pw_size : 176 < Fb.FB_W (fbs s) < 2 ^ 15 ∧ 128 < Fb.FB_H (fbs s) < 2 ^ 15;
  pw_fb : Fb.fb_ok (fbs s) ∧ Fb.FB_BPP (fbs s) = 32 ∧ Fb.FB_PITCH (fbs s) < 2 ^ 32;
  pw_mouse : on_screen s (Mouse.X (ms s)) (Mouse.Y (ms s)) ∧ ∃ l, Mouse.reading l (ms s);
  pw_cursor : CURSOR_PREV_X s = -1;
  pw_drag : DRAG_WIN (inp s) = -1;
  pw_vtwin : zlen (VT_WIN s) = Vterm.VT_MAX;
  pw_want : WANT_NEW_TERM s = false;
  pw_pages : pages_ok s;
  pw_sched : Sched.sched_ok (Kernel.sc (sys s));
  pw_room : ∃ b, ∀ k, 0 ≤ k < backbuffer_pages s → avail (Surface.alloc (gui_mem s)) (b + k * PAGE_SIZE);
}.

Lemma wp_create_backbuffer s :
  powered s →
  wp (create_backbuffer (Fb.FB_W (fbs s)) (Fb.FB_H (fbs s))) (λ _ s', pages_ok s' ∧ ∃ g b,
    s' = set_backbuffer b (set_gui_mem g s) ∧ surface_ok b ∧ sw b = Fb.FB_W (fbs s) ∧ sh b = Fb.FB_H (fbs s)) s.
Proof.
  intros Hp. pose proof (pw_size _ Hp) as [S1 S2]. set (w := Fb.FB_W (fbs s)) in *. set (h := Fb.FB_H (fbs s)) in *.
  assert (0 < w * h < 2 ^ 30) as Hwh by nia. unfold create_backbuffer.
  rewrite (u64_id w), (u64_id h), (u64_id (w * h)), (u64_id (w * h * 4)), u64_id by (unfold PAGE_SIZE; lia).
  fold (backbuffer_pages s). wp_step. apply wp_zoom, Surface.wp_alloc_call.
  eapply wp_mono; [apply alloc_pages_law; [apply Hp|]|].
  { unfold backbuffer_pages. fold w h. unfold PAGE_SIZE. dlia. }
  intros pa p [Hinv [(_ & _ & Hno)|(Hpa & _)]].
  { destruct (pw_room _ Hp) as [b Hb]. by destruct (Hno b). }
  rewrite (proj2 (Z.eqb_neq pa 0)) by lia. wp_run. split; [exact Hinv|]. eexists _, _. split; [reflexivity|].
  split_and!; [|done|done]. split; cbn [sw sh Surface.pixels]; [lia|lia|lia|].
  unfold zlen. rewrite length_map, length_seqZ. lia.
Qed.

(** The windows can be opened: all of the screen is damaged. *)
Record opening s : Prop := {
  op_ok : wm_ok s;
  op_all : all_damaged s;
  op_blank : blank_slots (dk s);
  op_pages : pages_ok s;
}.

Lemma opened_blank str px py pw ph k r s s' :
  blank_slots (dk s) → opened str px py pw ph k r s s' → blank_slots (dk s').
Proof.
  intros Hb (v & v' & b & f & _ & _ & _ & _ & Hv' & _ & _ & Ho) j u Hu Hun.
  assert (j ≠ r) as Hj by (intros ->; apply win_at_get in Hv' as [? ?]; congruence).
  specialize (Ho j Hj). rewrite Hu in Ho. destruct (zget (WINS (dk s)) j) as [u0|] eqn:E; [|done].
  assert (idle u = idle u0) as Hi by (unfold shape in Ho; simpl in Ho; congruence).
  unfold idle in Hi. rewrite Hun in Hi. destruct (used u0) eqn:Hu0; [done|]. injection Hi as ->. by apply (Hb j).
Qed.

Lemma wp_open_window s str px py pw ph k :
  opening s → sane str px py pw ph →
  wp (open_window str px py pw ph k) (λ r s', opening s' ∧ rest s' = rest s ∧
    (0 ≤ r → r < GUI_MAX_WINDOWS ∧ ∃ v, win_at (dk s') r = Some v)) s.
Proof.
  intros [Hok Ha Hb Hp] Hs. unfold open_window.
  wp_use (wp_leaves rest (create_window FONT8X16 str px py pw ph k));
    [apply rest_create_window|by apply (wp_create_window FONT8X16 FONT8X16_ok)|].
  intros r s' [(Hok' & Hp' & [T _ _ _] & Hr) R]. split_and!; [|done|].
  - split; [done| | |done].
    + intros x y Hxy. apply T, Ha. by apply (tracked_screen _ _ x y T).
    + destruct Hr as [[_ [_ [g ->]]]|Ho]; [done|by eapply opened_blank].
  - intros Hr0. destruct Hr as [[-> _]|(v & v' & b & f & _ & _ & _ & _ & Hv & _)]; [lia|].
    split; [|by exists v']. apply win_at_range in Hv; [lia|apply (ok_desk _ Hok')].
Qed.

(** A flag of an open window. *)
Lemma opening_win s i v v' :
  opening s → win_at (dk s) i = Some v → used v' = true → focused v' = focused v →
  (window_ok v → window_ok v') → opening (set_win i v' s).
Proof.
  intros [Hok Ha Hb Hp] [Hv Hu]%win_at_get Hu' Hf Hw. pose proof (zget_Some_lt _ _ _ Hv) as Hi.
  assert (all_damaged (set_win i v' s)) as Ha' by exact Ha. split; [|done| |done].
  - apply rough_all; [|done]. apply (rough_win s i v v'); [by apply ok_rough|done|congruence|done|done|congruence].
  - intros j u. cbn [dk set_win set_dk WINS set_wins]. rewrite zget_zset by done.
    case_decide; [intros [= <-]; congruence|apply Hb].
Qed.
End init.
Section start.
Context {P : Type} `{PageAllocatorLaws P}.
Implicit Types s : wm P.

(** An empty desk, all of it damaged. *)
Lemma clean_rough s b g r :
  powered s → surface_ok b ∧ sw b = Fb.FB_W (fbs s) ∧ sh b = Fb.FB_H (fbs s) →
  Dirty.region_ok r → Dirty.bw r = Fb.FB_W (fbs s) ∧ Dirty.bh r = Fb.FB_H (fbs s) →
  let s' := set_dk (set_dirty r (dk s)) (set_backbuffer b (set_gui_mem g s)) in
  rough s' ∧ blank_slots (dk s').
Proof.
  intros Hp Hb Hr Hs s'. pose proof (pw_size _ Hp) as [S1 S2].
  assert (∀ i v, zget (WINS (dk s')) i = Some v → v = empty) as Hemp.
  { intros i v. cbn [s' dk set_dk WINS set_dirty]. rewrite (pw_wins _ Hp), zget_replicate.
    case_decide; [by intros [= <-]|done]. }
  assert (blank_slots (dk s')) as Hbl.
  { intros i v ->%Hemp _. split_and!; [done|by apply (bool_decide_unpack _)|done|done]. }
  split; [constructor|].
  - split; [|by intros i v ->%Hemp|exact Hr]. cbn [s' dk set_dk WINS set_dirty]. by rewrite (pw_wins _ Hp).
  - split; [left; exact (pw_focus _ Hp)|by intros i v ->%Hemp].
  - exact (pw_terms _ Hp).
  - exact Hb.
  - exact Hs.
  - cbn [s' fbs set_dk set_backbuffer set_gui_mem]. change (0 < Fb.FB_W (fbs s) < 2 ^ 15 ∧ 0 < Fb.FB_H (fbs s) < 2 ^ 15). lia.
  - exact (pw_fb _ Hp).
  - exact (proj1 (pw_mouse _ Hp)).
  - left. exact (pw_cursor _ Hp).
  - left. exact (pw_drag _ Hp).
  - exact (pw_vtwin _ Hp).
  - exact Hbl.
  - exact Hbl.
Qed.

Lemma wp_dirty_call {A} (m : M Dirty.region A) (Q : A → wm P → Prop) s :
  wp m (λ a r, Q a (set_dk (set_dirty r (dk s)) s)) (DIRTY (dk s)) → wp (desk_call (dirty_call m)) Q s.
Proof. intros Hm. unfold desk_call, dirty_call. by do 2 apply wp_zoom. Qed.

Lemma wp_clean_desk s (k : Z → Z → M (wm P) unit) (Q : unit → wm P → Prop) :
  powered s → (∀ w h s', opening s' → rest s' = rest s → wp (k w h) Q s') →
  wp (w ← screen_w; h ← screen_h;
      create_backbuffer w h;;
      desk_call (dirty_call (Dirty.init w h));;
      _ ← zoom (λ _, Dirty.new) (λ _ s, s) Dirty.selftest;
      desk_call (dirty_call Dirty.add_all);; k w h) Q s.
Proof.
  intros Hp Hk. pose proof (pw_size _ Hp) as [S1 S2]. unfold screen_w, screen_h. do 4 wp_step; cbv beta. rewrite !i32_id by lia.
  wp_step. wp_use wp_create_backbuffer; [exact Hp|]. intros [] s1 (Hpg & g & b & -> & Hb & Bw & Bh).
  wp_step. apply wp_dirty_call. unfold Dirty.init. wp_step.
  wp_step. wp_step. eapply wp_mono; [exact Dirty.selftest_passes|]. intros _ _ _.
  match goal with |- context [set_dirty ?r] => set (reg := r) end.
  destruct (clean_rough s b g reg Hp) as [Hr Hbl]; [done|by apply Dirty.init_ok; [exact (pw_region _ Hp)|lia|lia]|done|].
  wp_step. wp_use wp_add_all; [exact Hr|]. intros [] s' (Hok & Ha & r & ->). apply Hk; [by split|done].
Qed.
End start.
Section open_windows.
Context {P : Type} `{PageAllocatorLaws P}.
Implicit Types s : wm P.

(** Changes to the kernel's state that the desk does not see. *)
Lemma opening_sys s k :
  opening s → Kbd.vts (Kernel.kb k) = Kbd.vts (Kernel.kb (sys s)) ∨ terms_ok (set_sys k s) →
  alloc_inv (Surface.alloc (gui_mem (set_sys k s))) → opening (set_sys k s).
Proof.
  intros [[] Ha Hb Hp] Ht Hk. assert (terms_ok (set_sys k s)) as Ht'.
  { destruct Ht as [E|]; [|done]. unfold terms_ok, terms in *. cbn [sys set_sys]. by rewrite E. }
  split; [by constructor|done|done|exact Hk].
Qed.

Lemma wp_kb_call s (g : Kbd.kbd → Kbd.kbd) :
  opening s → (∀ k, Kbd.vts (g k) = Kbd.vts k) →
  wp (kern_call (Kernel.kb_call (modify g))) (λ _ s', opening s' ∧ rest s' = rest s) s.
Proof.
  intros Ho Hg. unfold kern_call, Kernel.kb_call. do 2 apply wp_zoom. wp_run. split; [|done].
  apply opening_sys; [done|left; apply Hg|apply Ho].
Qed.

(** No terminal is shown anywhere yet. *)
Lemma wp_no_terminals s :
  opening s →
  wp (for_each 0 Vterm.VT_MAX (λ i, _ ← aget VT_WIN i; modify (λ s, set_vt_win (zset (VT_WIN s) i (-1)) s)))
    (λ _ s', opening s' ∧ rest s' = rest s) s.
Proof.
  intros Ho. apply (wp_for_each (λ _ s', opening s' ∧ rest s' = rest s)); [done|done| |done].
  intros i s1 Hi [[[] Ha Hb Hp] R]. destruct (zget_lt (VT_WIN s1) i) as [x Hx]; [lia|].
  wp_step. apply wp_aget. exists x. split; [exact Hx|]. wp_run. split; [|done].
  split; [constructor; try done|done|done|done]. cbn [VT_WIN set_vt_win]. by rewrite zlen_zset.
Qed.

(** [vterm::create] hands out a blank terminal. *)
Lemma wp_vterm_create (t : Vterm.vterms) :
  zlen (Vterm.terms t) = Vterm.VT_MAX → Forall Vterm.term_ok (Vterm.terms t) →
  wp Vterm.create (λ r t', zlen (Vterm.terms t') = Vterm.VT_MAX ∧ Forall Vterm.term_ok (Vterm.terms t') ∧
    -1 ≤ r < Vterm.VT_MAX) t.
Proof.
  intros Hl Ht. unfold Vterm.create. wp_step.
  apply (wp_for_range (λ _ t', t' = t)); [done|done| |].
  - intros i t' Hi ->. destruct (zget_lt (Vterm.terms t) i) as [v Hv]; [lia|].
    wp_step. apply wp_aget. exists v. split; [exact Hv|]. destruct (Vterm.used v); [by wp_run|].
    assert (Forall Vterm.term_ok (zset (Vterm.terms t) i (Vterm.with_used true Vterm.empty))) as Hf.
    { unfold zset. apply Forall_insert; [done|]. apply Vterm.term_ok_used, Vterm.empty_ok. }
    unfold Vterm.put_term. wp_run.
    assert (zlen (zset (Vterm.terms t) i (Vterm.with_used true Vterm.empty)) = Vterm.VT_MAX) as Hz
      by (by rewrite zlen_zset).
    destruct (i =? 0); wp_run; (split_and!; [exact Hz|exact Hf|simpl; lia|simpl; lia]).
  - intros t' ->. by wp_run.
Qed.
Lemma wp_create_term s :
  opening s → wp (kern_call (Kernel.vt_call Vterm.create)) (λ r s', opening s' ∧ rest s' = rest s ∧ -1 ≤ r < Vterm.VT_MAX) s.
Proof.
  intros Ho. unfold kern_call, Kernel.vt_call, Kernel.kb_call, Kbd.vt_call. do 3 apply wp_zoom.
  destruct (ok_terms _ (op_ok _ Ho)) as [Hl Ht]. wp_use wp_vterm_create; [exact Hl|exact Ht|].
  intros r t (Hl' & Ht' & Hr). split_and!; [|done|lia|lia]. apply opening_sys; [done|by right|apply Ho].
Qed.
End open_windows.
Section boot.
Context {P : Type} `{PageAllocatorLaws P}.
Implicit Types s : wm P.

Definition start (tramp thread : Z) : M (wm P) unit := init FONT8X16 tramp thread.

Lemma wp_boot_thread s tramp nm f :
  wm_ok s → pages_ok s → Sched.sched_ok (Kernel.sc (sys s)) →
  wp (kern_call (Kernel.sched_call (Sched.kthread_create tramp nm f 0))) (λ _ s', wm_ok s' ∧
    Sched.sched_ok (Kernel.sc (sys s')) ∧ dk s' = dk s ∧ ms s' = ms s ∧ WANT_NEW_TERM s' = WANT_NEW_TERM s) s.
Proof.
  intros [] Hp Hs. unfold kern_call, Kernel.sched_call. do 2 apply wp_zoom.
  wp_use Sched.wp_kthread_create; [exact Hs|exact Hp|]. intros r c [Hc _]. split; [by constructor|done].
Qed.

(** A window with its index, after a field of it was set. *)
Lemma wp_set_flag s i v (g : window → window) (Q : unit → wm P → Prop) :
  opening s → win_at (dk s) i = Some v → used (g v) = used v → focused (g v) = focused v →
  (window_ok v → window_ok (g v)) →
  (opening (set_win i (g v) s) → rest (set_win i (g v) s) = rest s → win_at (dk (set_win i (g v) s)) i = Some (g v) →
   Q tt (set_win i (g v) s)) →
  wp (on_win i (modify g)) Q s.
Proof.
  intros Ho Hv Hu Hf Hw HQ. pose proof Hv as [Hv' Hu']%win_at_get.
  eapply wp_on_win; [exact Hv'|]. wp_run. apply HQ; [|done|].
  - apply (opening_win s i v); [done|done|congruence|done|done].
  - apply win_at_get. split; [by apply (set_win_get i _ s v)|congruence].
Qed.

(** The terminal's window is given its terminal. *)
Lemma wp_boot_terminal s wid vt0 :
  opening s → (0 ≤ wid → wid < GUI_MAX_WINDOWS ∧ ∃ v, win_at (dk s) wid = Some v) → vt0 < Vterm.VT_MAX →
  wp (if (wid >=? 0) && (vt0 >=? 0) then
     on_win wid (modify (with_vt vt0));;
     _ ← aget VT_WIN vt0;
     modify (λ s, set_vt_win (zset (VT_WIN s) vt0 wid) s);;
     route_keyboard vt0
   else mret tt) (λ _ s', opening s' ∧ rest s' = rest s) s.
Proof.
  intros Ho Hw Hvt. rewrite !Z.geb_leb. destruct (Z.leb_spec 0 wid); [|by wp_run].
  destruct (Z.leb_spec 0 vt0); [|by wp_run]. destruct Hw as [Hwid [v Hv]]; [done|]. cbn [andb].
  wp_step. eapply (wp_set_flag s wid v); [done|done|done|done|intros []; by constructor|].
  intros Ho1 R1 Hv1. set (s1 := set_win _ _ s) in *.
  pose proof (ok_vtwin _ (op_ok _ Ho1)) as Hl. destruct (zget_lt (VT_WIN s1) vt0) as [x Hx]; [lia|].
  wp_step. apply wp_aget. exists x. split; [exact Hx|]. wp_step. wp_step.
  set (s2 := set_vt_win _ s1). assert (opening s2) as Ho2.
  { destruct Ho1 as [[] Ha Hb Hp]. split; [constructor; try done|done|done|done]. cbn [VT_WIN s2 set_vt_win]. by rewrite zlen_zset. }
  unfold route_keyboard. wp_use wp_kb_call; [exact Ho2|done|]. intros [] s' [Ho' R]. split; [done|exact (eq_trans R R1)].
Qed.

Lemma wp_hook s :
  opening s → wp (kern_call (Kernel.vt_call Vterm.set_dirty_hook)) (λ _ s', opening s' ∧ rest s' = rest s) s.
Proof.
  intros Ho. unfold kern_call, Kernel.vt_call, Kernel.kb_call, Kbd.vt_call, Vterm.set_dirty_hook. do 3 apply wp_zoom.
  wp_run. split; [|done]. apply opening_sys; [done|right; exact (ok_terms _ (op_ok _ Ho))|apply Ho].
Qed.

Lemma sane_terminal : sane TERMINAL 60 90 (Vterm.VT_COLS * Surface.FONT_W + 8) (Vterm.VT_ROWS * Surface.FONT_H + 8).
Proof. split_and!; [by apply (bool_decide_unpack _)|..]; done. Qed.
Lemma sane_demo : sane DEMO 600 200 340 200.
Proof. split_and!; [by apply (bool_decide_unpack _)|..]; done. Qed.

Lemma rest_reading s s' l :
  rest s' = rest s → on_screen s' (Mouse.X (ms s')) (Mouse.Y (ms s')) → Fb.FB_W (fbs s') < 2 ^ 15 → Fb.FB_H (fbs s') < 2 ^ 15 →
  Mouse.reading l (ms s) → Mouse.reading l (ms s').
Proof.
  intros [= _ E1 E2 _ _] [X Y] W1 W2 [[Hl _ _] R]. split; [|by rewrite E1, E2].
  split; [by rewrite E2|lia|lia].
Qed.
Lemma rest_sched s s' : rest s' = rest s → Sched.sched_ok (Kernel.sc (sys s)) → Sched.sched_ok (Kernel.sc (sys s')).
Proof.
  intros R Hs. apply (f_equal (λ r, r.2 (Sched.vm (Kernel.sc (sys s'))))) in R. cbv beta in R.
  change (Sched.set_vm (Sched.vm (Kernel.sc (sys s'))) (Kernel.sc (sys s')) =
          Sched.set_vm (Sched.vm (Kernel.sc (sys s'))) (Kernel.sc (sys s))) in R.
  assert (Kernel.sc (sys s') = Sched.set_vm (Sched.vm (Kernel.sc (sys s'))) (Kernel.sc (sys s'))) as ->
    by (by destruct (Kernel.sc (sys s'))).
  rewrite R. by apply Sched.sched_ok_vm.
Qed.

(** The terminal window is dragged around once. *)
Lemma wp_try_drag s wid :
  opening s → (0 ≤ wid → wid < GUI_MAX_WINDOWS) → 176 < Fb.FB_W (fbs s) → 128 < Fb.FB_H (fbs s) →
  wp (if wid >=? 0 then drag_selftest wid 60 90;; mret tt else mret tt)
    (λ _ s', wm_ok s' ∧ all_damaged s' ∧ blank_slots (dk s') ∧ pages_ok s' ∧ rest s' = rest s) s.
Proof.
  intros Ho Hw S1 S2. rewrite Z.geb_leb. destruct (Z.leb_spec 0 wid); [|wp_run; by destruct Ho].
  wp_step. wp_use (wp_leaves (λ s, (rest s, gui_mem s)) (drag_selftest wid 60 90)).
  { by apply leaves_drag_selftest. }
  { apply wp_drag_selftest; [apply Ho|apply Ho|lia..]. }
  intros pass s' [(Hok & Ha & Hb) R]. apply pair_equal_spec in R as [R M]. wp_run. split_and!; [done|done|done| |exact R].
  unfold pages_ok. rewrite M. apply Ho.
Qed.

(** From the sum of its parts. *)
Lemma wp_start s tramp thread :
  powered s → wp (start tramp thread) (λ _ s', session_ok s' ∧ all_damaged s' ∧ WANT_NEW_TERM s' = false ∧
    Sched.sched_ok (Kernel.sc (sys s')) ∧ blank_slots (dk s')) s.
Proof.
  intros Hp. pose proof (pw_size _ Hp) as [S1 S2]. unfold start, init.
  apply (wp_clean_desk s (λ w h, _)); [exact Hp|]. intros w h s1 O1 R1. wp_step.
  wp_use wp_no_terminals; [exact O1|]. intros [] s2 [O2 R2]. wp_step.
  wp_use wp_hook; [exact O2|]. intros [] s3 [O3 R3]. wp_step.
  wp_use wp_kb_call; [exact O3|done|]. intros [] s4 [O4 R4]. wp_step.
  wp_use wp_create_term; [exact O4|]. intros vt0 s5 (O5 & R5 & Hvt). wp_step.
  wp_use wp_open_window; [exact O5|exact sane_terminal|]. intros wid s6 (O6 & R6 & Hw). wp_step.
  wp_use wp_boot_terminal; [exact O6|exact Hw|lia|]. intros [] s7 [O7 R7]. wp_step.
  wp_use wp_open_window; [exact O7|exact sane_demo|]. intros did s8 (O8 & R8 & Hd). wp_step.
  assert (wp (if did >=? 0 then on_win did (modify (with_animate true)) else mret tt)
    (λ _ s', opening s' ∧ rest s' = rest s8) s8) as Ha.
  { rewrite Z.geb_leb. destruct (Z.leb_spec 0 did); [|by wp_run]. destruct Hd as [_ [v Hv]]; [done|].
    eapply (wp_set_flag s8 did v); [done|done|done|done|intros []; by constructor|done]. }
  wp_use Ha. intros [] s9 [O9 R9]. clear Ha. wp_step.
  assert (rest s9 = rest s) as R by congruence. pose proof R as R'. injection R' as F _ _ _ _.
  wp_use wp_try_drag; [exact O9|intros Hw0; by apply Hw|rewrite F; lia..|].
  intros [] s10 (Hok & Hall & Hb10 & Hpg & R10). rewrite R in R10. wp_step.
  pose proof (rest_sched _ _ R10 (pw_sched _ Hp)) as Hsc.
  wp_step. set (sk := set_sink true s10).
  assert (wm_ok sk) as Hsk by (by destruct Hok).
  wp_step. wp_use (wp_boot_thread sk); [exact Hsk|exact Hpg|exact Hsc|].
  intros r s11 (Hok' & Hsc' & Hall' & E & Wn).
  assert (all_damaged s11) as Ha by (unfold all_damaged; by rewrite Hall').
  destruct (pw_mouse _ Hp) as [_ [l Hl]]. assert (Mouse.reading l (ms s11)) as Hrd.
  { rewrite E. destruct (ok_size _ Hok) as [W1 W2].
    apply (rest_reading s s10 l R10 (ok_mouse _ Hok)); [lia|lia|exact Hl]. }
  wp_use wp_log_line; [exact Hok'|]. intros [] s12 [Hpr _].
  destruct (printed_ok _ _ Hok' Hpr) as [Hok2 He].
  assert (all_damaged s12) as Ha2.
  { intros px py Hs. apply (tr_covers _ _ (ev_desk _ _ He)), Ha. by apply (tracked_screen _ _ px py (ev_desk _ _ He)). }
  destruct Hpr as (d & k & ph & st & -> & K & T & St & Ec).
  split_and!; [split; [done|by apply all_session|by exists l]|exact Ha2| | |].
  - cbn. rewrite Wn. pose proof (f_equal (λ r, r.1.2) R10) as Rw. cbv beta in Rw. etrans; [exact Rw|exact (pw_want _ Hp)].
  - cbn. by rewrite Ec.
  - eapply idles_blank; [by apply table_idles|]. by rewrite Hall'.
Qed.

(** Starting the GUI establishes the session's invariant: from the state
    the boot code leaves, with a framebuffer of at least 177 x 129 pixels and
    memory for the back buffer, [init] - boot terminal, demo window, drag self
    test, compositor thread - returns, whether or not there was memory for the
    windows, and the first turn of the compositor paints the whole screen. *)
Theorem start_opens_session s tramp thread :
  powered s →
  wp (start tramp thread) (λ _ s', session_ok s' ∧ all_damaged s' ∧
    wp turn (λ _ s'', presented FONT8X16 s'') s') s.
Proof.
  intros Hp. wp_use wp_start; [exact Hp|]. intros [] s' (Hs & Ha & Hw & _). split_and!; [done|done|].
  wp_use (wp_compositor_turn FONT8X16 FONT8X16_ok); [apply Hs|apply Hs|done|]. by intros [] s'' [? _].
Qed.
End boot.

(** ** Witness: a machine with memory and a 200 x 150 screen *)
Definition bare : wm Pmm.pmm :=
  mkWm demo_sys (Mouse.mkMouse 0 0 0 0 [0; 0; 0]) (Fb.mkFb (λ _, 0) 800 200 150 32 16 8 0 true)
    (mkDesk (replicate 8 empty) (-1) Dirty.new) (mkSurf 0 0 []) (-1) (-1) (mkStats 0 0 0 0) [0; 0; 0; 0] false
    (mkInput 0 (-1) 0 0) 0 false.

Lemma bare_powered : powered bare.
Proof.
  destruct Spawn.demo_ready as (Hsc & _ & _). destruct Spawn.demo_pmm_spec as [_ Hf].
  split.
  - reflexivity.
  - reflexivity.
  - reflexivity.
  - exact (ok_terms _ (demo_wm_ok 0 0 (-1) (or_introl eq_refl))).
  - split; split; reflexivity.
  - split_and!; [split; try done; by left|done|done].
  - split; [done|]. exists []. by split.
  - reflexivity.
  - reflexivity.
  - reflexivity.
  - reflexivity.
  - exact (demo_pages 0 0 (-1)).
  - exact Hsc.
  - exists PAGE_SIZE. intros k Hk. change (backbuffer_pages bare) with 30 in Hk.
    change (Pmm.page_avail Spawn.demo_pmm (PAGE_SIZE + k * PAGE_SIZE)).
    replace (PAGE_SIZE + k * PAGE_SIZE) with ((1 + k) * PAGE_SIZE) by lia.
    apply Pmm.page_avail_mul, Hf. lia.
Qed.

Lemma start_opens_session_witness :
  wp (start 0x1000 0x2000) (λ _ s', session_ok s' ∧ wp turn (λ _ s'', presented FONT8X16 s'') s') bare.
Proof.
  eapply wp_mono; [apply (start_opens_session bare 0x1000 0x2000 bare_powered)|].
  intros [] s' (H1 & _ & H2). by split.
Defined.
End Boot.
