(* ===== verification/Shell.v ===== *)
(** * The kernel's shell ([kernel-rs/src/shell.rs])

    A kernel thread that reads lines from the keyboard buffer, splits them into
    words and runs one of seven commands.  [shell_turn] is one turn of the loop
    of [readline], with what [shell_main] does when it ends a line; it answers
    [None] where the code waits for an interrupt.  What it prints goes through
    [Log]: with [mirror] (a sink is installed) also to terminal 0. *)
From S2P Require Import Prelude Lines PageAlloc Mem Vmm UserMem Elf Tmpfs Sched Ring Vterm Kbd Kernel Log Proc Spawn.
Import Kernel.

Module Shell.
Import Lines Log.

Definition LINE_MAX : Z := 128.
Definition MAX_ARGS : Z := 8.
Definition is_space (b : Z) : bool := b =? 32.
Definition backspace (b : Z) : bool := b =? 8.

Section shell.
Context {P : Type} `{PageAllocator P} `{PageCounter P}.
Variable mirror : bool.
Abbreviation klog := (Log.klog mirror).

(** ** Reading a line *)
Definition prompt : M (kern P) unit := klog (str "shizuku> ").

Inductive turn := Idle | More (line : list Z) (n : Z) | Entered (line : list Z) (n : Z).

Definition readline (line : list Z) (n : Z) : M (kern P) turn :=
  c ← kb_call Kbd.getchar;
  if c <? 0 then mret Idle
  else
    let c := u8 c in
    if c =? 10 then
      write_bytes [10];; line ← array_set line n 0; mret (Entered line n)
    else if c =? 8 then
      if n >? 0 then write_bytes rubout;; mret (More line (n - 1)) else mret (More line n)
    else if n + 1 <? zlen line - 1 then
      line ← array_set line n c; putc c;; mret (More line (n + 1))
    else mret (More line n).

(** ** Commands *)
Definition cmd_help : M (kern P) unit :=
  klog (text "commands: help clear ps mem ls cat run");;
  klog (text "  clear          clear the screen (ANSI)");;
  klog (text "  ps             list threads/processes");;
  klog (text "  mem            physical memory stats");;
  klog (text "  ls             list files in /");;
  klog (text "  cat <file>     print file contents");;
  klog (text "  run <file>     load ELF from tmpfs and run as user process").

(** [sched.rs], [list]. *)
Definition thread_line (t : Sched.thread) : list Z :=
  pad_left 3 (dec_i (Sched.tid t)) ++ str "  " ++ pad_right 12 (Sched.name_str t) ++ str " " ++
  (if decide (Sched.state t = Sched.Zombie) then str "zombie" else str "runnable") ++
  str "  0x" ++ hex_u (Sched.space t) ++ [10].
Definition list_threads (emit : list Z → M (kern P) unit) : M (kern P) unit :=
  emit (pad_left 3 (str "tid") ++ str "  " ++ pad_right 12 (str "name") ++ text " state  space");;
  n ← sched_call (gets Sched.nr_threads);
  for_each 0 n (λ i,
    t ← sched_call (aget Sched.threads i);
    if decide (Sched.state t = Sched.Unused) then mret tt else emit (thread_line t)).
Definition cmd_ps : M (kern P) unit := list_threads klog.

Definition cmd_mem : M (kern P) unit :=
  free ← vm_call (Vmm.pmm_call free_count);
  total ← vm_call (Vmm.pmm_call total_count);
  klog (str "memory: " ++ dec_u free ++ str "/" ++ dec_u total ++ str " pages free (" ++
    dec_u (u64 (u64 (total - free) * 4) / 1024) ++ str " MiB used, " ++
    dec_u (u64 (total * 4) / 1024) ++ text " MiB total)").

Definition entry_line (de : Tmpfs.dirent) : list Z :=
  pad_left 8 (dec_u (Tmpfs.de_size de)) ++ str "  " ++ Sched.str_or (str "?") (Tmpfs.de_name de) ++ [10].
(** A directory has fewer than [TN_MAX] entries. *)
Definition cmd_ls : M (kern P) unit :=
  loop (Z.to_nat Tmpfs.TN_MAX) (λ i,
    de ← fs_call (Tmpfs.list_dir (str "/") i);
    match de with
    | None => mret (inr tt)
    | Some de => klog (entry_line de);; mret (inl (i + 1))
    end) 0.

Definition pages_for (size : Z) : Z := u64 (u64 size + PAGE_SIZE - 1) / PAGE_SIZE.
(** [slice::from_raw_parts_mut(pa_to_va(pa), size)], filled by [read_path]. *)
Definition read_file (path : list Z) (pa size : Z) : M (kern P) Z :=
  buf ← gets (λ s, load_bytes (mem s) pa size);
  r ← fs_call (Tmpfs.read_path path 0 buf);
  modify (λ s, set_mem (store_bytes (mem s) pa r.2) s);;
  mret r.1.

Definition cmd_cat (path : list Z) : M (kern P) unit :=
  size ← fs_call (Tmpfs.path_size path);
  if size <? 0 then klog (str "cat: " ++ path ++ text ": not found")
  else
    buf_pa ← vm_call (Vmm.pmm_call (alloc_pages (pages_for size) PAGE_SIZE));
    got ← read_file path buf_pa size;
    for_each 0 (Z.max got 0) (λ i,
      b ← gets (λ s, mem s (buf_pa + i));
      putc b);;
    putc 10.

Definition cmd_run (path : list Z) : M (kern P) unit :=
  size ← fs_call (Tmpfs.path_size path);
  if size <? 0 then klog (str "run: " ++ path ++ text ": not found")
  else
    pa ← vm_call (Vmm.pmm_call (alloc_pages (pages_for size) PAGE_SIZE));
    got ← read_file path pa size;
    if negb (got =? size) then klog (str "run: " ++ path ++ text ": read error")
    else
      buf ← gets (λ s, load_bytes (mem s) pa size);
      tid ← sched_call (Proc.spawn_elf path buf []);
      if tid <? 0 then klog (str "run: " ++ path ++ text ": spawn failed (bad ELF?)")
      else klog (str "run: started '" ++ path ++ str "' as tid " ++ dec_i tid ++ [10]).

(** ** Dispatch *)
Definition utf8_or (alt s : list Z) : list Z := if utf8_valid s then s else alt.

Definition dispatch (argv : list (list Z)) : M (kern P) unit :=
  cmd ← of_option (argv.[0]);
  if bool_decide (cmd = str "help") then cmd_help
  else if bool_decide (cmd = str "clear") then
    write_bytes [27; 91; 50; 74; 27; 91; 72]
  else if bool_decide (cmd = str "ps") then cmd_ps
  else if bool_decide (cmd = str "mem") then cmd_mem
  else if bool_decide (cmd = str "ls") then cmd_ls
  else if bool_decide (cmd = str "cat") && (zlen argv =? 2) then
    a ← of_option (argv.[1]); cmd_cat (utf8_or [] a)
  else if bool_decide (cmd = str "run") && (zlen argv =? 2) then
    a ← of_option (argv.[1]); cmd_run (utf8_or [] a)
  else klog (str "unknown command '" ++ utf8_or (str "?") cmd ++ text "' -- try 'help'").

(** The tokenizer; the locals are [(p, argv)]. *)
Definition tokenize_step (line : list Z) (n : Z) (st : Z * list (list Z))
    : M (kern P) ((Z * list (list Z)) + list (list Z)) :=
  let '(p, argv) := st in
  if (p <? n) && (zlen argv <? MAX_ARGS) then
    let p := scan is_space (slice 0 n line) p in
    if p >=? n then mret (inr argv)
    else
      let start := p in
      let p := scan (not_sep is_space) (slice 0 n line) p in
      mret (inl (p, argv ++ [slice start (p - start) line]))
  else mret (inr argv).
Definition tokenize (line : list Z) (n : Z) : M (kern P) (list (list Z)) :=
  loop (Z.to_nat n + 1) (tokenize_step line n) (0, []).

Definition shell_turn (line : list Z) (n : Z) : M (kern P) (option (list Z * Z)) :=
  t ← readline line n;
  match t with
  | Idle => mret None
  | More line n => mret (Some (line, n))
  | Entered line n =>
      (if n =? 0 then mret tt
       else
         argv ← tokenize line n;
         if zlen argv >? 0 then dispatch argv else mret tt);;
      prompt;; mret (Some (line, 0))
  end.

(** The thread up to the next [hlt], and what it does first. *)
Definition shell_run (fuel : nat) (line : list Z) (n : Z) : M (kern P) (list Z * Z) :=
  loop fuel (λ st,
    r ← shell_turn st.1 st.2;
    mret (match r with None => inr st | Some st => inl st end)) (line, n).
Definition shell_start : M (kern P) (list Z * Z) :=
  klog (text "" ++ text "=== shizuku shell ===");;
  klog (text "type 'help' for commands");;
  prompt;;
  mret (replicate (Z.to_nat LINE_MAX) 0, 0).
End shell.

(** ** The shell as a machine on the characters typed

    [key] is what one character does to the line being typed, and [session]
    what a stream of them does: the shell's arrays, indices and loops against
    lists. *)
Definition CAPACITY : Z := LINE_MAX - 2.

Section reference.
Context {P : Type} `{PageAllocator P} `{PageCounter P}.
Variable mirror : bool.

Definition run_line (l : list Z) : M (kern P) unit :=
  match take (Z.to_nat MAX_ARGS) (words is_space l) with
  | [] => mret tt
  | argv => dispatch mirror argv
  end.
Definition key (l : list Z) (c : Z) : M (kern P) (list Z) :=
  if c =? 10 then write_bytes [10];; run_line l;; prompt mirror;; mret []
  else each putc (echo backspace CAPACITY l c);; mret (edit backspace CAPACITY l c).
Fixpoint session (l cs : list Z) : M (kern P) (list Z) :=
  match cs with
  | [] => mret l
  | c :: cs => l ← key l c; session l cs
  end.
End reference.

(** ** Commands do not look at the keyboard buffer *)
Section oblivious.
Context {P : Type} `{PageAllocator P} `{PageCounter P}.
Implicit Types s : kern P.

Definition requeue (q : Ring.ring) s : kern P := set_kb (Kbd.set_queue q (kb s)) s.
Definition queue_of s : Ring.ring := Kbd.queue (kb s).

Definition carry {A} (f : kern P → kern P) (o : outcome (A * kern P)) : outcome (A * kern P) :=
  match o with
  | Done (a, s) => Done (a, f s)
  | Panic => Panic
  | OutOfFuel => OutOfFuel
  end.
Definition oblivious {A} (m : M (kern P) A) : Prop :=
  ∀ q s, m (requeue q s) = carry (requeue q) (m s).

Lemma requeue_id s : requeue (queue_of s) s = s.
Proof. by destruct s as [? ? [] ?]. Qed.
Lemma requeue_requeue q q' s : requeue q (requeue q' s) = requeue q s.
Proof. done. Qed.

Lemma oblivious_queue {A} (m : M (kern P) A) s a s' :
  oblivious m → m s = Done (a, s') → queue_of s' = queue_of s.
Proof.
  intros Hm Hs. specialize (Hm (queue_of s) s). rewrite requeue_id, Hs in Hm.
  injection Hm as E. rewrite E. done.
Qed.

Lemma obl_ret {A} (a : A) : oblivious (mret a).
Proof. done. Qed.
Lemma obl_bind {A B} (m : M (kern P) A) (f : A → M (kern P) B) :
  oblivious m → (∀ a, oblivious (f a)) → oblivious (m ≫= f).
Proof.
  intros Hm Hf q s. unfold mbind, M_bind. rewrite Hm.
  destruct (m s) as [[a s']| |]; simpl; [apply Hf|done|done].
Qed.
Lemma obl_gets {A} (f : kern P → A) : (∀ q s, f (requeue q s) = f s) → oblivious (gets f).
Proof. intros Hf q s. unfold gets. by rewrite Hf. Qed.
Lemma obl_modify (f : kern P → kern P) :
  (∀ q s, f (requeue q s) = requeue q (f s)) → oblivious (modify f).
Proof. intros Hf q s. unfold modify. by rewrite Hf. Qed.
Lemma obl_of_option {A} (o : option A) : oblivious (of_option o).
Proof. by destruct o. Qed.
Lemma obl_sched {A} (m : M (Sched.sched P) A) : oblivious (sched_call m).
Proof.
  intros q s. unfold sched_call, zoom. destruct s as [a b c d]. simpl.
  by destruct (m a) as [[? ?]| |].
Qed.
Lemma obl_fs {A} (m : M Tmpfs.tmpfs A) : oblivious (fs_call m).
Proof.
  intros q s. unfold fs_call, zoom. destruct s as [a b c d]. simpl.
  by destruct (m b) as [[? ?]| |].
Qed.
Lemma obl_vt {A} (m : M Vterm.vterms A) : oblivious (vt_call m).
Proof.
  intros q s. unfold vt_call, kb_call, Kbd.vt_call, zoom. destruct s as [a b [] d]. simpl.
  by destruct (m _) as [[? ?]| |].
Qed.
Lemma obl_each (f : Z → M (kern P) unit) l : (∀ b, oblivious (f b)) → oblivious (each f l).
Proof.
  intros Hf. induction l as [|b l IH]; [apply obl_ret|]. by apply obl_bind; [|intros []].
Qed.
Lemma obl_for_from {R} n i (body : Z → M (kern P) (option R)) :
  (∀ i, oblivious (body i)) → oblivious (for_from n i body).
Proof.
  intros Hb. revert i. induction n as [|n IH]; intros i; [apply obl_ret|].
  apply obl_bind; [done|]. intros [x|]; [apply obl_ret|apply IH].
Qed.
Lemma obl_for_each lo hi (body : Z → M (kern P) unit) :
  (∀ i, oblivious (body i)) → oblivious (for_each lo hi body).
Proof.
  intros Hb. apply obl_bind; [|intros; apply obl_ret]. apply obl_for_from. intros i.
  apply obl_bind; [apply Hb|intros; apply obl_ret].
Qed.
Lemma obl_loop {T R} fuel (step : T → M (kern P) (T + R)) t :
  (∀ t, oblivious (step t)) → oblivious (loop fuel step t).
Proof.
  intros Hs. revert t. induction fuel as [|fuel IH]; intros t; [done|].
  apply obl_bind; [done|]. intros [t'|x]; [apply IH|apply obl_ret].
Qed.
End oblivious.

Create HintDb oblivious.
#[export] Hint Resolve obl_ret obl_of_option obl_sched obl_fs obl_vt : oblivious.
Ltac obl := repeat first
  [ solve [auto with oblivious]
  | apply obl_each; intros ? | apply obl_for_each; intros ? | apply obl_loop; intros ?
  | apply obl_gets; by intros q [? ? [] ?] | apply obl_modify; by intros q [? ? [] ?]
  | apply obl_bind; [|intros ?]
  | match goal with
    | |- oblivious (if ?b then _ else _) => destruct b
    | |- oblivious (match ?x with _ => _ end) => destruct x
    | |- oblivious (let _ := _ in _) => cbv zeta
    end ].

Section commands.
Context {P : Type} `{PageAllocator P} `{PageCounter P}.
Variable mirror : bool.

Lemma obl_putc c : oblivious (P := P) (putc c).
Proof. unfold putc. obl. Qed.
Hint Resolve obl_putc : oblivious.
Lemma obl_write_bytes l : oblivious (P := P) (write_bytes l).
Proof. unfold write_bytes. obl. Qed.
Lemma obl_write_str l buf : oblivious (P := P) (write_str l buf).
Proof. revert buf. induction l as [|b l IH]; intros buf; simpl; [obl|]. unfold push_byte. obl. Qed.
Hint Resolve obl_write_bytes obl_write_str : oblivious.
Lemma obl_klog l : oblivious (P := P) (klog mirror l).
Proof. unfold klog. obl. Qed.
Hint Resolve obl_klog : oblivious.
Lemma obl_vm {A} (m : M (Vmm.vmm P) A) : oblivious (vm_call m).
Proof. apply obl_sched. Qed.
Hint Resolve obl_vm : oblivious.
Lemma obl_read_file path pa size : oblivious (P := P) (read_file path pa size).
Proof. unfold read_file. obl. Qed.
Hint Resolve obl_read_file : oblivious.

Lemma obl_dispatch argv : oblivious (P := P) (dispatch mirror argv).
Proof.
  unfold dispatch, cmd_help, cmd_ps, list_threads, cmd_mem, cmd_ls, cmd_cat, cmd_run. obl.
Qed.
Lemma obl_key l c : oblivious (P := P) (key mirror l c).
Proof. pose proof obl_dispatch. unfold key, run_line, prompt. obl. Qed.
End commands.

(** ** The tokenizer, the line buffer and the keyboard *)
Section refinement.
Context {P : Type} `{PageAllocator P} `{PageCounter P}.
Variable mirror : bool.
Implicit Types s : kern P.

Lemma slice_text (line l : list Z) n p k :
  in_line line n l → 0 ≤ p → p + k ≤ n → slice p k line = slice p k l.
Proof.
  intros [-> Hr Ht] Hp Hk. pose proof (zlen_nonneg l). rewrite <- Ht. unfold slice.
  rewrite skipn_firstn_comm. rewrite take_take. f_equal. lia.
Qed.

Lemma wp_tokenize line n l s :
  in_line line n l →
  wp (tokenize line n) (λ argv s', s' = s ∧ argv = take (Z.to_nat MAX_ARGS) (words is_space l)) s.
Proof.
  intros Hl. pose proof Hl as [Hn Hr Ht]. pose proof (zlen_nonneg l).
  assert (slice 0 n line = l) as Htext by (unfold slice; simpl; by rewrite drop_0).
  apply (wp_loop (λ '(p, argv) s', s' = s ∧ 0 ≤ p ≤ n ∧ zlen argv ≤ MAX_ARGS ∧
      argv ++ take (Z.to_nat (MAX_ARGS - zlen argv)) (words is_space (drop (Z.to_nat p) l)) =
      take (Z.to_nat MAX_ARGS) (words is_space l)) (λ '(p, _), Z.to_nat (n - p))).
  { split_and!; [done|done|lia|done|]. simpl. by rewrite drop_0. }
  { lia. }
  intros [p argv] ? (-> & Hp & Ha & Hw). unfold tokenize_step. rewrite Htext.
  destruct (Z.ltb_spec p n) as [Hlt|Hge]; cbn [andb].
  2: { wp_run. split; [done|]. rewrite <- Hw, drop_ge by (unfold zlen in *; lia).
       rewrite (take_ge (words is_space [])) by (simpl; lia). by rewrite app_nil_r. }
  destruct (Z.ltb_spec (zlen argv) MAX_ARGS) as [Hroom|Hfull].
  2: { wp_run. split; [done|]. rewrite <- Hw. replace (Z.to_nat (MAX_ARGS - zlen argv)) with O by lia.
       by rewrite app_nil_r. }
  pose proof (words_scan is_space l p ltac:(lia)) as Hs. cbv zeta in *.
  pose proof (scan_bounds is_space l p ltac:(lia)) as Hq.
  set (q := scan is_space l p) in *. rewrite <- Hn in Hs. rewrite Z.geb_leb in *.
  destruct (Z.leb_spec n q).
  { wp_run. split; [done|]. rewrite <- Hw, Hs. by rewrite take_nil, app_nil_r. }
  destruct Hs as [Hqe Hs]. pose proof (scan_bounds (not_sep is_space) l q ltac:(lia)) as He.
  set (e := scan (not_sep is_space) l q) in *. wp_run. rewrite zlen_app. change (zlen [_]) with 1.
  split; [|lia]. split_and!; [done|lia|lia|lia|].
  rewrite <- Hw, Hs, (slice_text _ _ _ _ _ Hl) by lia.
  replace (Z.to_nat (MAX_ARGS - zlen argv)) with (S (Z.to_nat (MAX_ARGS - (zlen argv + 1)))) by lia.
  simpl. by rewrite <- app_assoc.
Qed.

(** Two runs that end alike: same outcome, same state, related results. *)
Definition agree {A B} (R : A → B → Prop) (o : outcome (A * kern P)) (o' : outcome (B * kern P)) : Prop :=
  match o, o' with
  | Done (a, s), Done (b, s') => s = s' ∧ R a b
  | Panic, Panic | OutOfFuel, OutOfFuel => True
  | _, _ => False
  end.

Lemma agree_bind {A B A' B'} (R : A → A' → Prop) (R' : B → B' → Prop) (m : M (kern P) A) f
    (m' : M (kern P) A') f' s s' :
  agree R (m s) (m' s') → (∀ a a' s, R a a' → agree R' (f a s) (f' a' s)) →
  agree R' ((m ≫= f) s) ((m' ≫= f') s').
Proof.
  intros Hm Hf. unfold mbind, M_bind. destruct (m s) as [[a s1]| |], (m' s') as [[a' s1']| |]; try done.
  destruct Hm as [-> Hr]. by apply Hf.
Qed.
Lemma agree_same {A} (m : M (kern P) A) s : agree eq (m s) (m s).
Proof. by destruct (m s) as [[a s']| |]. Qed.

(** The character the keyboard gives, and what it leaves. *)
Lemma getchar_key s c q :
  Ring.pop Kbd.KBD_BUF (queue_of s) = (Some c, q) → kb_call Kbd.getchar s = Done (c, requeue q s).
Proof.
  intros Hp. unfold kb_call, zoom, Kbd.getchar, mbind, M_bind, gets, modify. unfold queue_of in Hp.
  by rewrite Hp.
Qed.
Lemma getchar_empty s :
  Ring.pop Kbd.KBD_BUF (queue_of s) = (None, queue_of s) → kb_call Kbd.getchar s = Done (-1, s).
Proof.
  intros Hp. unfold kb_call, zoom, Kbd.getchar, mbind, M_bind, gets, modify. unfold queue_of in Hp.
  rewrite Hp. by destruct s as [? ? [] ?].
Qed.

Definition line_rel (r : option (list Z * Z)) (l : list Z) : Prop :=
  ∃ line n, r = Some (line, n) ∧ zlen line = LINE_MAX ∧ in_line line n l ∧ zlen l ≤ CAPACITY.

Lemma bind_done {A B} (m : M (kern P) A) (f : A → M (kern P) B) s a s' :
  m s = Done (a, s') → (m ≫= f) s = f a s'.
Proof. intros E. unfold mbind, M_bind. by rewrite E. Qed.

Lemma array_set_done (l : list Z) i v s :
  0 ≤ i < zlen l → array_set l i v s = Done (zset l i v, s).
Proof.
  intros Hi. unfold array_set. by rewrite (proj2 (Z.leb_le 0 i)), (proj2 (Z.ltb_lt i _)) by lia.
Qed.
Lemma bind_assoc {A B C} (m : M (kern P) A) (f : A → M (kern P) B) (g : B → M (kern P) C) s :
  ((m ≫= f) ≫= g) s = (m ≫= λ a, f a ≫= g) s.
Proof. unfold mbind, M_bind. by destruct (m s) as [[a s']| |]. Qed.

Lemma bind_ret {A B} (a : A) (f : A → M (kern P) B) s : (mret a ≫= f) s = f a s.
Proof. done. Qed.

(** The end of a line. *)
Lemma agree_run_line line n l s :
  in_line line n l →
  agree eq ((if n =? 0 then mret tt
             else argv ← tokenize line n; if zlen argv >? 0 then dispatch mirror argv else mret tt) s)
    (run_line mirror l s).
Proof.
  intros Hl. pose proof Hl as [Hn _ _]. unfold run_line. destruct (Z.eqb_spec n 0) as [E|E].
  { rewrite E in Hn. symmetry in Hn. apply zlen_nil_inv in Hn as ->. done. }
  pose proof (wp_tokenize line n l s Hl) as Ht. apply wp_returns in Ht as (argv & s' & Ht & -> & Ha).
  rewrite (bind_done _ _ _ _ _ Ht), <- Ha. rewrite Z.gtb_ltb. destruct argv as [|w argv]; [done|].
  rewrite zlen_cons. pose proof (zlen_nonneg argv). rewrite (proj2 (Z.ltb_lt 0 _)) by lia. apply agree_same.
Qed.

(** One key: the turn of the loop against [key]. *)
Lemma shell_turn_key s line n l c q :
  Ring.pop Kbd.KBD_BUF (queue_of s) = (Some c, q) → 0 ≤ c < 256 →
  zlen line = LINE_MAX → in_line line n l → zlen l ≤ CAPACITY →
  agree line_rel (shell_turn mirror line n s) (key mirror l c (requeue q s)).
Proof.
  intros Hp Hc Hlen Hl Hcap. pose proof Hl as [Hn Hr Ht]. pose proof (zlen_nonneg l).
  unfold CAPACITY in Hcap. unfold shell_turn, readline, key.
  rewrite bind_assoc, (bind_done _ _ _ _ _ (getchar_key s c q Hp)). rewrite (proj2 (Z.ltb_ge c 0)) by lia.
  rewrite u8_id by lia. cbv zeta. destruct (Z.eqb_spec c 10) as [->|Hc10].
  - rewrite bind_assoc. eapply agree_bind; [apply agree_same|]. intros [] ? s1 <-.
    rewrite bind_assoc, (bind_done _ _ _ _ _ (array_set_done line n 0 s1 ltac:(unfold LINE_MAX in *; lia))).
    rewrite bind_ret. cbv iota beta. eapply (agree_bind eq).
    + by apply agree_run_line, in_line_set.
    + intros [] ? s2 <-. apply (agree_bind eq); [apply agree_same|]. intros [] ? s3 <-.
      split; [done|]. exists (zset line n 0), 0. rewrite zlen_zset. split_and!; [done|done|apply in_line_nil|done].
  - unfold edit, echo, backspace. destruct (Z.eqb_spec c 8) as [->|Hc8].
    + rewrite Z.gtb_ltb. destruct (Z.ltb_spec 0 n) as [Hpos|Hzero].
      * destruct l as [|x l]; [change (zlen []) with 0 in Hn; lia|].
        rewrite bind_assoc. apply (agree_bind eq); [apply agree_same|]. intros [] ? s1 <-.
        split; [done|]. exists line, (n - 1). pose proof (zlen_removelast (x :: l)).
        split_and!; [done|done|by apply in_line_pop|unfold CAPACITY; lia].
      * assert (zlen l = 0) as ->%zlen_nil_inv by lia. split; [done|]. by exists line, n.
    + replace (n + 1 <? zlen line - 1) with (zlen l <? CAPACITY)
        by (unfold CAPACITY; rewrite Hlen, Hn; apply eq_bool_prop_intro; rewrite !Is_true_true, !Z.ltb_lt; lia).
      destruct (Z.ltb_spec (zlen l) CAPACITY) as [Hroom|Hfull].
      * rewrite bind_assoc, (bind_done _ _ _ _ _ (array_set_done line n c _ ltac:(unfold CAPACITY, LINE_MAX in *; lia))).
        rewrite bind_assoc. cbn [each]. rewrite bind_assoc. apply (agree_bind eq); [apply agree_same|].
        intros [] ? s1 <-. split; [done|]. exists (zset line n c), (n + 1).
        rewrite zlen_zset, zlen_app. change (zlen [c]) with 1.
        split_and!; [done|done|apply in_line_push; [done|]|]; unfold CAPACITY, LINE_MAX in *; lia.
      * split; [done|]. by exists line, n.
Qed.

End refinement.

(** ** Properties *)
Section properties.
Context {P : Type} `{PageAllocator P} `{PageCounter P}.
Variable mirror : bool.
Implicit Types s : kern P.

(** The keyboard buffer with everything read. *)
Definition drained (q : Ring.ring) : Ring.ring := Ring.mkRing (Ring.buf q) (Ring.head q) (Ring.head q).
Definition at_line (line : list Z) (n : Z) (l : list Z) : Prop :=
  zlen line = LINE_MAX ∧ in_line line n l ∧ zlen l ≤ CAPACITY.

Lemma pop_cases q :
  Ring.ring_ok Kbd.KBD_BUF q →
  match Ring.contents Kbd.KBD_BUF q with
  | [] => Ring.pop Kbd.KBD_BUF q = (None, q) ∧ drained q = q
  | c :: cs => ∃ q', Ring.pop Kbd.KBD_BUF q = (Some c, q') ∧ Ring.ring_ok Kbd.KBD_BUF q' ∧
      Ring.contents Kbd.KBD_BUF q' = cs ∧ drained q' = drained q
  end.
Proof.
  intros Hok. pose proof (Ring.contents_pop Kbd.KBD_BUF ltac:(done) q Hok) as Hp.
  pose proof (Ring.pop_ok Kbd.KBD_BUF ltac:(done) q Hok) as Ho.
  unfold Ring.pop in *. destruct (Z.eqb_spec (Ring.head q) (Ring.tail q)) as [E|E].
  - destruct Hp as [_ ->]. split; [done|]. unfold drained. rewrite E at 2. by destruct q.
  - destruct (zget_lt (Ring.buf q) (Ring.tail q)) as [c Hc]; [rewrite (Ring.rg_len _ _ Hok); apply Hok|].
    rewrite Hc in *. rewrite Hp. by eexists.
Qed.

(** The loop unrolled once. *)
Lemma shell_run_S fuel line n s :
  shell_run mirror (S fuel) line n s =
  (r ← shell_turn mirror line n;
   match r with None => mret (line, n) | Some st => shell_run mirror fuel st.1 st.2 end) s.
Proof.
  unfold shell_run. cbn [loop fst snd]. unfold mbind, M_bind.
  destruct (shell_turn mirror line n s) as [[[[line' n']|] s']| |]; reflexivity.
Qed.
Lemma shell_turn_idle line n s :
  Ring.pop Kbd.KBD_BUF (queue_of s) = (None, queue_of s) → shell_turn mirror line n s = Done (None, s).
Proof.
  intros Hp. unfold shell_turn, readline. by rewrite bind_assoc, (bind_done _ _ _ _ _ (getchar_empty s Hp)).
Qed.

Lemma typed_bytes sh scs : Forall (λ c, 0 ≤ c < 256) (Kbd.typed sh scs).
Proof.
  revert sh. induction scs as [|sc scs IH]; intros sh; [constructor|]. simpl. apply Forall_app. split; [|apply IH].
  unfold Kbd.decode. destruct (_ && _); [|constructor]. destruct (zget _ sc) as [c|] eqn:Hc; [|constructor].
  assert (0 ≤ c < 256) as Hb.
  { unfold zget in Hc. case_decide; [|done].
    eapply (Forall_lookup_1 (λ c, 0 ≤ c < 256)); [|exact Hc].
    apply (bool_decide_unpack _). by destruct sh; vm_compute. }
  destruct c; repeat constructor; lia.
Qed.

Lemma run_session cs fuel line n l s :
  Kbd.kbd_ok (kb s) → Kbd.pending (kb s) = cs → Forall (λ c, 0 ≤ c < 256) cs →
  (length cs < fuel)%nat → at_line line n l →
  agree (λ st l', at_line st.1 st.2 l') (shell_run mirror fuel line n s)
    (session mirror l cs (requeue (drained (queue_of s)) s)).
Proof.
  revert fuel line n l s. induction cs as [|c cs IH]; intros [|fuel] line n l s Hok Hcs Hbytes Hfuel Hl; [simpl in *; lia..| |simpl in *; lia|].
  all: pose proof (pop_cases (queue_of s) Hok) as Hp; unfold Kbd.pending in Hcs;
    change (Kbd.queue (kb s)) with (queue_of s) in Hcs; rewrite Hcs in Hp; rewrite shell_run_S.
  - destruct Hp as [Hp Hd]. rewrite (bind_done _ _ _ _ _ (shell_turn_idle line n s Hp)), Hd, requeue_id.
    by split.
  - destruct Hp as (q & Hp & Hq & Hcont & Hd). pose proof (Forall_inv Hbytes) as Hc. apply Forall_inv_tail in Hbytes.
    destruct Hl as (Hlen & Hin & Hcap). cbn [session].
    pose proof (shell_turn_key mirror s line n l c q Hp Hc Hlen Hin Hcap) as Ht.
    rewrite <- Hd. rewrite <- (requeue_requeue _ q s). unfold mbind, M_bind.
    rewrite (obl_key mirror l c). destruct (key mirror l c (requeue q s)) as [[l' s2]| |] eqn:Hk;
      destruct (shell_turn mirror line n s) as [[r s1]| |]; try done.
    destruct Ht as (-> & line' & n' & -> & Hlen' & Hin' & Hcap'). cbn [carry fst snd].
    pose proof (oblivious_queue _ _ _ _ (obl_key mirror l c) Hk) as Hq2.
    change (queue_of (requeue q s)) with q in Hq2. rewrite <- Hq2. apply IH; [|by rewrite <- Hq2 in Hcont|done|simpl in Hfuel; lia|done].
    unfold Kbd.kbd_ok. by rewrite <- Hq2 in Hq.
Qed.

(** C34: The shell reads lines.  Whatever was typed while it was waiting, with
    part [l] of a line already typed, the thread runs until the keyboard buffer
    is empty and ends as [session] does, with the same state of the kernel:
    keys edit the line (backspace takes the last one back, a full line takes
    no more) and are echoed, Enter runs the words of the line as a command.
    The keyboard is the shell's (no terminal has it), its buffer was empty and
    what was typed fits in it; how a command ends is the command's, on both
    sides. *)
Theorem shell_reads_lines s scs line n l :
  Kbd.kbd_ok (kb s) → Kbd.pending (kb s) = [] → Kbd.route_vt (kb s) < 0 →
  Forall (λ sc, 0 ≤ sc < 256) scs → zlen (Kbd.typed (Kbd.shift (kb s)) scs) < Kbd.KBD_BUF →
  at_line line n l →
  ∃ s1, kb_call (Kbd.type_all scs) s = Done (tt, s1) ∧
    agree (λ st l', at_line st.1 st.2 l') (shell_run mirror (Z.to_nat Kbd.KBD_BUF) line n s1)
      (session mirror l (Kbd.typed (Kbd.shift (kb s)) scs) (requeue (drained (queue_of s1)) s1)).
Proof.
  intros Hok He Hr Hscs Hfit Hl.
  pose proof (Kbd.wp_type_all (kb s) scs Hok Hscs Hr) as Ht. rewrite He in Ht.
  apply wp_returns in Ht as ([] & k & Hk & Hok' & Hp); [|simpl; exact Hfit].
  exists (set_kb k s). split; [unfold kb_call, zoom; by rewrite Hk|].
  apply run_session; [done|done|by apply typed_bytes|unfold zlen in Hfit; lia|done].
Qed.
End properties.
End Shell.
