(* ===== verification/ShellSpec.v ===== *)
(** * What the kernel shell's commands do

    The serial line gets the text of the log with its line ends; [cat] sends a
    file as it is, [ls] the root directory in node order, and [run] starts a
    process from a file ([Spawn] says what that process finds). *)
From S2P Require Import Prelude Lines PageAlloc Pmm Mem Vmm UserMem Teardown Elf Tmpfs Sched Ring Vterm Kbd Kernel Log Proc Spawn Shell.
Import Kernel Log Shell Lines.

Module ShellSpec.

(** ** The log *)
Section output.
Context {P : Type} `{PageAllocator P}.
Variable mirror : bool.
Implicit Types s : kern P.

(** Terminal 0 is there when the log is mirrored to it. *)
Definition console_ok s : Prop :=
  mirror = true → ∃ v p, Vterm.has_term (Kbd.vts (kb s)) 0 v ∧ Vterm.shows v p.
Definition crlf (l : list Z) : list Z := l ≫= λ b, if b =? 10 then [13; 10] else [b].
(** [s'] is [s] after [cs] was sent; only the serial line and the terminals
    have changed. *)
Definition sent (cs : list Z) s s' : Prop := ∃ vs,
  s' = mkKern (sc s) (fs s) (Kbd.set_vts vs (kb s)) (com1 s ++ cs) ∧ console_ok s'.

Lemma sent_nil s : console_ok s → sent [] s s.
Proof.
  intros Hc. exists (Kbd.vts (kb s)). rewrite app_nil_r. split; [by destruct s as [? ? [] ?]|done].
Qed.
Lemma sent_app a b s s1 s2 : sent a s s1 → sent b s1 s2 → sent (a ++ b) s s2.
Proof.
  intros (v1 & -> & _) (v2 & -> & Hc). exists v2. simpl in *. by rewrite app_assoc.
Qed.
Lemma sent_ok cs s s' : sent cs s s' → console_ok s'.
Proof. by intros (vs & -> & Hc). Qed.

Lemma wp_putc c s (Q : unit → kern P → Prop) : Q tt (uart_out c s) → wp (putc c) Q s.
Proof. done. Qed.

Lemma wp_write_str bs buf s :
  wp (write_str bs buf) (λ _ s', s' = mkKern (sc s) (fs s) (kb s) (com1 s ++ crlf bs)) s.
Proof.
  revert buf s. induction bs as [|b bs IH]; intros buf s; simpl.
  { wp_run. rewrite app_nil_r. by destruct s. }
  change (crlf (b :: bs)) with ((if b =? 10 then [13; 10] else [b]) ++ crlf bs).
  unfold push_byte. destruct (Z.eqb_spec b 10) as [->|Hb]; wp_run.
  all: repeat (apply wp_putc; wp_run); wp_use IH; intros buf' s' ->.
  all: unfold uart_out; cbn [sc fs kb com1]; by rewrite <- !app_assoc.
Qed.

Lemma wp_mirrored bs s :
  mirror = true → console_ok s →
  wp (term_put bs) (λ _ s', sent [] s s') s.
Proof.
  intros Hm. unfold term_put. revert s. induction bs as [|b bs IH]; intros s Hc; simpl.
  { wp_run. by apply sent_nil. }
  destruct (Hc Hm) as (v & p & Hv & Hp). wp_step. unfold vt_call, kb_call, Kbd.vt_call. wp_run.
  wp_use Vterm.wp_putc_vt; [exact Hv|exact Hp|]. intros [] t (v' & Ht & _ & _ & Hu & _ & Hs).
  assert (sent [] s (set_kb (Kbd.set_vts t (kb s)) s)) as H1.
  { exists t. rewrite app_nil_r. split; [done|]. intros _. exists v', (Vterm.type_char p (u8 b)).
    split; [|done]. by eapply Vterm.has_term_put. }
  wp_use IH; [by eapply sent_ok|]. intros [] s' H2. exact (sent_app [] [] _ _ _ H1 H2).
Qed.

Lemma wp_klog bs s : console_ok s → wp (klog mirror bs) (λ _ s', sent (crlf bs) s s') s.
Proof.
  intros Hc. unfold klog. wp_step. wp_use wp_write_str. intros buf s1 ->.
  assert (sent (crlf bs) s (mkKern (sc s) (fs s) (kb s) (com1 s ++ crlf bs))) as H1.
  { exists (Kbd.vts (kb s)). split; [by destruct s as [? ? [] ?]|done]. }
  destruct (mirror && (zlen buf >? 0) && utf8_valid buf) eqn:Hm; [|by wp_run].
  apply andb_true_iff in Hm as [[Hm _]%andb_true_iff _].
  wp_use wp_mirrored; [done|by eapply sent_ok|]. intros [] s2 H2.
  rewrite <- (app_nil_r (crlf bs)). by eapply sent_app.
Qed.

(** [ls] *)
Definition listing (x : Tmpfs.tmpfs) : list Tmpfs.dirent :=
  omap (Tmpfs.dirent_of x) (Tmpfs.entries x 0).

Lemma lookup_omap_total {A B} (f : A → option B) l i :
  Forall (λ x, is_Some (f x)) l → omap f l !! i = l !! i ≫= f.
Proof.
  intros Hl. revert i. induction Hl as [|x l [y Hy] Hl IH]; intros i; [done|].
  simpl. rewrite Hy. destruct i as [|i]; [done|]. apply IH.
Qed.
Lemma length_omap_le {A B} (f : A → option B) l : (length (omap f l) ≤ length l)%nat.
Proof.
  induction l as [|x l IH]; [done|].
  change (omap f (x :: l)) with (match f x with Some y => y :: omap f l | None => omap f l end).
  destruct (f x); cbn [length]; lia.
Qed.

Lemma entries_live x : Tmpfs.fs_ok x → Forall (λ i, is_Some (Tmpfs.dirent_of x i)) (Tmpfs.entries x 0).
Proof.
  intros Hok. apply Forall_forall. intros i Hi. apply list_elem_of_In, List.filter_In in Hi as [_ Hi].
  unfold Tmpfs.is_entry in Hi. unfold Tmpfs.dirent_of.
  destruct (zget (Tmpfs.nodes x) i); [by eexists|done].
Qed.

Lemma listing_get x i : Tmpfs.fs_ok x → Tmpfs.list_spec x (str "/") i = zget (listing x) i.
Proof.
  intros Hok. unfold Tmpfs.list_spec. change (Tmpfs.resolve_spec x (str "/")) with 0.
  destruct (Tmpfs.ok_root _ Hok) as (d & Hd & Ht & _). cbv zeta.
  rewrite (Tmpfs.node_typ_get _ _ _ Hd), Ht. change (Tmpfs.VN_DIR =? Tmpfs.VN_DIR) with true. cbv iota.
  unfold zget, listing. destruct (decide (0 ≤ i)); [|done].
  by rewrite lookup_omap_total by (by apply entries_live).
Qed.
Lemma listing_short x : zlen (listing x) < Tmpfs.TN_MAX.
Proof.
  unfold listing, zlen. pose proof (length_omap_le (Tmpfs.dirent_of x) (Tmpfs.entries x 0)).
  assert (length (Tmpfs.entries x 0) ≤ length (seqZ 1 (Tmpfs.TN_MAX - 1)))%nat as Hl
    by apply List.filter_length_le.
  rewrite length_seqZ in Hl. unfold Tmpfs.TN_MAX in *. lia.
Qed.

(** [ls] lists the root directory: a line per entry, in node order, with its
    size and name, and nothing else is changed. *)
Lemma wp_cmd_ls s :
  Tmpfs.fs_ok (fs s) → console_ok s →
  wp (cmd_ls mirror) (λ _ s', sent (crlf (listing (fs s) ≫= entry_line)) s s') s.
Proof.
  intros Hok Hc. pose proof (listing_short (fs s)) as Hlen.
  pose proof (zlen_nonneg (listing (fs s))). set (L := listing (fs s)) in *.
  apply (wp_loop (λ i s', 0 ≤ i ≤ zlen L ∧ sent (crlf (take (Z.to_nat i) L ≫= entry_line)) s s')
    (λ i, Z.to_nat (zlen L - i))).
  - split; [lia|]. by apply sent_nil.
  - lia.
  - intros i s1 [Hi Hs]. wp_step. unfold fs_call. wp_step.
    assert (fs s1 = fs s) as Hfs by (by destruct Hs as (vs & -> & _)). rewrite Hfs.
    wp_use Tmpfs.wp_list_dir; [done|lia|]. intros de x [-> ->]. rewrite listing_get by done. fold L.
    assert (set_fs (fs s) s1 = s1) as -> by (rewrite <- Hfs; by destruct s1).
    destruct (zget L i) as [de|] eqn:Hde.
    + wp_step. wp_use wp_klog; [by eapply sent_ok|]. intros [] s2 H2. wp_run.
      pose proof (zget_Some_lt _ _ _ Hde). split; [split; [lia|]|lia].
      rewrite (take_snoc L i de Hde). unfold crlf. rewrite !bind_app. eapply sent_app; [exact Hs|].
      unfold crlf in H2. simpl. by rewrite app_nil_r.
    + wp_run. apply zget_None in Hde. assert (i = zlen L) as -> by lia.
      rewrite take_ge in Hs by (unfold zlen; lia). exact Hs.
Qed.
End output.

(** ** A file in memory of its own *)
Section files.
Context {P : Type} `{PageAllocatorLaws P}.
Implicit Types s : kern P.

Definition file_at (x : Tmpfs.tmpfs) (path : list Z) : option (list Z) :=
  Tmpfs.file_data x (Tmpfs.resolve_spec x path).

Lemma wp_file_size s path :
  Tmpfs.fs_ok (fs s) →
  wp (fs_call (Tmpfs.path_size path)) (λ r s', s' = s ∧
    r = match file_at (fs s) path with Some data => zlen data | None => -1 end) s.
Proof.
  intros Hok. unfold fs_call. wp_step. wp_use Tmpfs.wp_path_size; [done|].
  intros r x [-> ->]. split; [by destruct s|]. unfold file_at, Tmpfs.file_data, Tmpfs.is_file.
  destruct (Tmpfs.ok_root _ Hok) as (root & Hr & Ht & _).
  destruct (zget (Tmpfs.nodes (fs s)) (Tmpfs.resolve_spec (fs s) path)) as [d|] eqn:Hd; [|done]. simpl.
  destruct (Z.eqb_spec (Tmpfs.typ d) Tmpfs.VN_FILE) as [E|E].
  2: { by rewrite andb_false_r. }
  destruct (Z.ltb_spec 0 (Tmpfs.resolve_spec (fs s) path)) as [Hpos|Hzero].
  - symmetry. apply zlen_load_bytes. by eapply Tmpfs.ok_file.
  - pose proof (zget_Some_lt _ _ _ Hd). assert (Tmpfs.resolve_spec (fs s) path = 0) as H0' by lia.
    rewrite H0', Hr in Hd. injection Hd as <-. by rewrite Ht in E.
Qed.

(** The pages of the buffer: taken, or none were found and the buffer lies at
    physical address 0. *)
Definition buffer (n : Z) (p : P) (pa : Z) (q : P) : Prop :=
  alloc_inv q ∧
  ((pa = 0 ∧ q = p ∧ (n = 0 ∨ ∀ b, ¬ ∀ k, 0 ≤ k < n → avail p (b + k * PAGE_SIZE))) ∨
   (0 < pa ∧ (∀ b, page_run pa n b → avail p b) ∧
    ∀ b, avail q b ↔ avail p b ∧ ¬ page_run pa n b)).
Definition pages_of s : P := Vmm.allocator (Sched.vm (sc s)).
Definition taken (q : P) s : kern P :=
  set_sc (Sched.set_vm (Vmm.set_allocator q (Sched.vm (sc s))) (sc s)) s.
(** [s] with [data] in the buffer. *)
Definition buffered (q : P) (pa : Z) (data : list Z) s : kern P :=
  set_mem (store_bytes (mem s) pa data) (taken q s).

Lemma wp_buffer s n :
  alloc_inv (pages_of s) → 0 ≤ n < 2 ^ 63 →
  wp (vm_call (Vmm.pmm_call (alloc_pages n PAGE_SIZE))) (λ pa s', ∃ q,
    buffer n (pages_of s) pa q ∧ s' = taken q s) s.
Proof.
  intros Hinv Hn. unfold vm_call, sched_call, Sched.vm_call, Vmm.pmm_call. do 3 wp_step.
  destruct (decide (n = 0)) as [->|Hne].
  - wp_use alloc_pages_none; [exact Hinv|]. intros pa q [-> ->]. exists (pages_of s).
    split; [split; [done|left; auto]|done].
  - wp_use alloc_pages_law; [exact Hinv|lia|]. intros pa q [Hq Hcase]. exists q. split; [|done].
    split; [exact Hq|]. destruct Hcase as [(-> & -> & Hno)|(Hpa & Hrun & Hset)]; [left; auto|].
    right. split; [done|]. split; [by intros b (k & Hk & ->); apply Hrun|].
    intros b. rewrite Hset. split; intros [Hb Hk]; split; try done.
    + intros (k & Hk' & ->). by apply (Hk k).
    + intros k Hk' ->. apply Hk. by exists k.
Qed.

Lemma wp_read_file s path pa data :
  Tmpfs.fs_ok (fs s) → file_at (fs s) path = Some data →
  wp (read_file path pa (zlen data)) (λ got s', got = zlen data ∧
    s' = set_mem (store_bytes (mem s) pa data) s) s.
Proof.
  intros Hok Hd. pose proof (Tmpfs.file_data_len _ _ _ Hok Hd) as Hlen. pose proof (zlen_nonneg data).
  unfold read_file. wp_step. wp_step. unfold fs_call, Tmpfs.read_path. do 3 wp_step.
  wp_use Tmpfs.wp_resolve; [done|]. intros r x [-> ->].
  assert (zlen (load_bytes (mem s) pa (zlen data)) = zlen data) as Hl by (by apply zlen_load_bytes).
  wp_use Tmpfs.wp_node_read; [done|lia|unfold Tmpfs.buf_ok; rewrite Hl; unfold Tmpfs.TN_POOL in Hlen; lia|].
  intros r x [-> ->]. unfold Tmpfs.read_spec. unfold file_at in Hd. rewrite Hd, Hl.
  rewrite Z.sub_0_r, Z.min_id. assert (slice 0 (zlen data) data = data) as ->.
  { unfold slice, zlen. simpl. rewrite drop_0, Nat2Z.id. by apply take_ge. }
  rewrite drop_ge by (apply Nat2Z.inj in Hl; lia). rewrite app_nil_r. cbn [fst snd].
  wp_run. split; [done|]. by destruct s.
Qed.
End files.

(** ** [cat] and [run] *)
Section programs.
Context {P : Type} `{PageAllocatorLaws P}.
Variable mirror : bool.
Implicit Types s : kern P.

Definition send (cs : list Z) s : kern P := mkKern (sc s) (fs s) (kb s) (com1 s ++ cs).

Lemma pages_for_range (data : list Z) : zlen data ≤ Tmpfs.TN_POOL →
  0 ≤ pages_for (zlen data) < 2 ^ 63 ∧ zlen data ≤ pages_for (zlen data) * PAGE_SIZE.
Proof.
  intros Hd. pose proof (zlen_nonneg data). unfold Tmpfs.TN_POOL in Hd. unfold pages_for, PAGE_SIZE.
  rewrite (u64_id (zlen data)) by lia. rewrite u64_id by lia. dlia.
Qed.

Lemma wp_print_buffer s pa data :
  (∀ i b, zget data i = Some b → mem s (pa + i) = b) →
  wp (for_each 0 (Z.max (zlen data) 0) (λ i, b ← gets (λ s, mem s (pa + i)); putc b))
    (λ _ s', s' = send data s) s.
Proof.
  intros Hm. pose proof (zlen_nonneg data).
  apply (wp_for_each (λ i s', s' = send (take (Z.to_nat i) data) s)).
  - lia.
  - unfold send. simpl. rewrite app_nil_r. by destruct s.
  - intros i s' Hi ->. destruct (zget_lt data i) as [b Hb]; [lia|]. wp_run. apply wp_putc.
    rewrite (take_snoc data i b Hb). change (mem (send _ s)) with (mem s). rewrite (Hm i b Hb).
    unfold uart_out, send. simpl. by rewrite app_assoc.
  - intros s' ->. rewrite take_ge by (unfold zlen; lia). done.
Qed.

Lemma not_found_message s name path :
  console_ok mirror s →
  wp (klog mirror (str name ++ path ++ text ": not found"))
    (λ _ s', sent mirror (crlf (str name ++ path ++ text ": not found")) s s') s.
Proof. apply wp_klog. Qed.

(** [cat] prints a file byte for byte and a line end.  Its buffer is a run
    of free pages, never given back; when there is none it is the memory from
    physical address 0 on, which the file overwrites.  A path that is not a
    file's gives the message and nothing else. *)
Theorem cat_prints s path :
  Tmpfs.fs_ok (fs s) → alloc_inv (pages_of s) → console_ok mirror s →
  wp (cmd_cat mirror path) (λ _ s',
    match file_at (fs s) path with
    | None => sent mirror (crlf (str "cat: " ++ path ++ text ": not found")) s s'
    | Some data => ∃ pa q, buffer (pages_for (zlen data)) (pages_of s) pa q ∧
        s' = send (data ++ [10]) (buffered q pa data s)
    end) s.
Proof.
  intros Hok Hinv Hc. unfold cmd_cat. wp_step. wp_use wp_file_size; [done|]. intros r s1 [-> ->].
  destruct (file_at (fs s) path) as [data|] eqn:Hd; [|by apply not_found_message].
  pose proof (zlen_nonneg data). rewrite (proj2 (Z.ltb_ge _ 0)) by lia.
  pose proof (pages_for_range data ltac:(by eapply Tmpfs.file_data_len)) as [Hn _].
  wp_step. wp_use wp_buffer; [done|done|]. intros pa s1 (q & Hq & ->).
  wp_step. wp_use wp_read_file; [done|exact Hd|]. intros got s1 [-> ->]. fold (buffered q pa data s).
  wp_step. wp_use (wp_print_buffer (buffered q pa data s) pa data).
  { intros i b Hb. by apply store_bytes_in. }
  intros [] s1 ->. apply wp_putc. exists pa, q. split; [done|].
  unfold uart_out, send. simpl. by rewrite app_assoc.
Qed.

(** Taking the buffer and filling it touches only free pages. *)
Lemma buffered_only_free s pa q data :
  Forall (λ b, 0 ≤ b < 2 ^ 8) data → zlen data ≤ pages_for (zlen data) * PAGE_SIZE →
  mem_ok (mem s) → buffer (pages_for (zlen data)) (pages_of s) pa q → 0 < pa →
  Teardown.only_free (Sched.vm (sc s)) (Sched.vm (sc (buffered q pa data s))).
Proof.
  intros Hb Hlen Hm [Hq Hrun] Hpa. destruct Hrun as [(-> & _)|(_ & Hrun & Hset)]; [lia|].
  split; [done|done|exact Hq|by apply mem_ok_store_bytes|by intros b [Hb' _]%Hset|].
  intros x Hx. apply store_bytes_out. intros Hin.
  apply (Hx (pa + (x - pa) / PAGE_SIZE * PAGE_SIZE)).
  - apply Hrun. exists ((x - pa) / PAGE_SIZE). split; [|done]. unfold PAGE_SIZE in *. dlia.
  - unfold PAGE_SIZE in *. dlia.
Qed.

Lemma spawn_ready_only_free (c : Sched.sched P) v :
  Spawn.spawn_ready c → Teardown.only_free (Sched.vm c) v → Spawn.spawn_ready (Sched.set_vm v c).
Proof.
  intros (Hok & Hm & Hk) Hof. split; [by apply Sched.sched_ok_vm|]. split; [apply Hof|].
  change (Sched.vm (Sched.set_vm v c)) with v. rewrite (Teardown.of_kernel _ _ Hof).
  by eapply Teardown.only_free_space_ok.
Qed.
End programs.

(** ** Starting a program *)
Section running.
Context {P : Type} `{PageAllocatorLaws P}.
Variable mirror : bool.
Implicit Types s : kern P.

(** Enough free pages in a row for the file. *)
Definition room_for s (data : list Z) : Prop :=
  ∃ b, ∀ k, 0 ≤ k < pages_for (zlen data) → avail (pages_of s) (b + k * PAGE_SIZE).

Definition started_msg (path : list Z) (tid : Z) : list Z :=
  str "run: started '" ++ path ++ str "' as tid " ++ dec_i tid ++ [10].
Definition failed_msg (path : list Z) : list Z := str "run: " ++ path ++ text ": spawn failed (bad ELF?)".

Lemma args_ok_nil : Spawn.args_ok [].
Proof. split; [constructor|]. by vm_compute. Qed.

Lemma header_nonempty data : Elf.header_ok data = true → 0 < zlen data.
Proof.
  intros Hh. unfold Elf.header_ok in Hh. rewrite !andb_true_iff in Hh.
  destruct Hh as [[[[Hh%Z.leb_le _] _] _] _]. unfold Elf.EHDR_SIZE in Hh. lia.
Qed.

(** What [run] does with a buffer: the message tells whether there is a new
    process. *)
Lemma wp_spawn_reported s path data :
  console_ok mirror s → Elf.header_ok data = true → Elf.image_ok data →
  Elf.e_entry (Elf.read_ehdr data) ≠ 0 → Spawn.spawn_ready (sc s) →
  wp (tid ← sched_call (Proc.spawn_elf path data []);
      if tid <? 0 then klog mirror (failed_msg path) else klog mirror (started_msg path tid))
    (λ _ s', ∃ c,
      (Spawn.spawn_failed path data (sc s) c ∧ sent mirror (crlf (failed_msg path)) (set_sc c s) s') ∨
      (∃ tid space stack, Spawn.spawned path data [] (sc s) tid space stack c ∧
        sent mirror (crlf (started_msg path tid)) (set_sc c s) s')) s.
Proof.
  intros Hc Hh Hi He Hr. wp_step. unfold sched_call. wp_step.
  wp_use Spawn.wp_spawn_elf; [exact Hh|exact Hi|exact He|exact args_ok_nil|exact Hr|].
  intros r c [[-> Hf]|(space & stack & Hs)].
  - change (-1 <? 0) with true. cbv iota. wp_use wp_klog; [exact Hc|]. intros [] s' Hs'.
    exists c. left. by split.
  - assert (0 ≤ r).
    { destruct (Sched.first_unused_some _ _ (Spawn.sd_slot _ _ _ _ _ _ _ _ Hs)) as [? _]. lia. }
    rewrite (proj2 (Z.ltb_ge r 0)) by lia. wp_use wp_klog; [exact Hc|]. intros [] s' Hs'.
    exists c. right. by exists r, space, stack.
Qed.

(** [run] starts a program from a file.  The file is loaded into pages that
    were free; then either a process of it is running, as [spawn_elf_starts]
    describes, and the message says its number, or there is none and the
    message says that. *)
Theorem run_starts s path data :
  Tmpfs.fs_ok (fs s) → console_ok mirror s → Spawn.spawn_ready (sc s) →
  file_at (fs s) path = Some data → Forall (λ b, 0 ≤ b < 2 ^ 8) data →
  Elf.header_ok data = true → Elf.image_ok data → Elf.e_entry (Elf.read_ehdr data) ≠ 0 →
  room_for s data →
  wp (cmd_run mirror path) (λ _ s', ∃ pa q c,
    let s1 := buffered q pa data s in
    0 < pa ∧ buffer (pages_for (zlen data)) (pages_of s) pa q ∧
    ((Spawn.spawn_failed path data (sc s1) c ∧ sent mirror (crlf (failed_msg path)) (set_sc c s1) s') ∨
     (∃ tid space stack, Spawn.spawned path data [] (sc s1) tid space stack c ∧
       sent mirror (crlf (started_msg path tid)) (set_sc c s1) s'))) s.
Proof.
  intros Hok Hc Hr Hd Hb Hh Hi He Hroom. pose proof (header_nonempty data Hh) as Hpos.
  pose proof (pages_for_range data ltac:(by eapply Tmpfs.file_data_len)) as [Hn Hfit].
  unfold cmd_run. wp_step. wp_use wp_file_size; [done|]. intros r s1 [-> ->]. rewrite Hd.
  rewrite (proj2 (Z.ltb_ge _ 0)) by lia. wp_step. wp_use wp_buffer; [apply Hr|done|]. intros pa s1 (q & Hq & ->).
  assert (0 < pa) as Hpa.
  { destruct Hq as [_ [(_ & _ & [E|Hno])|[? _]]]; [unfold PAGE_SIZE in *; lia| |done].
    destruct Hroom as [b Hroom]. by destruct (Hno b). }
  wp_step. wp_use wp_read_file; [done|exact Hd|]. intros got s1 [-> ->]. 
  change (set_mem _ (taken q s)) with (buffered q pa data s).
  rewrite Z.eqb_refl. cbn [negb]. do 2 wp_step. cbv beta.
  assert (load_bytes (mem (buffered q pa data s)) pa (zlen data) = data) as -> by apply load_store_bytes.
  pose proof (buffered_only_free s pa q data Hb Hfit) as Hof.
  assert (Spawn.spawn_ready (sc (buffered q pa data s))) as Hr1.
  { apply (spawn_ready_only_free (sc s)); [exact Hr|]. apply Hof; [|exact Hq|exact Hpa].
    destruct Hr as (_ & _ & Hk). apply Hk. }
  wp_use (wp_spawn_reported (buffered q pa data s) path data); [exact Hc|exact Hh|exact Hi|exact He|exact Hr1|].
  intros [] s' [c Hs']. exists pa, q, c. by split_and!.
Qed.
End running.

(** ** On a small machine *)
Definition shell_fs : Tmpfs.tmpfs :=
  match Tmpfs.run_ops [Tmpfs.OpCreate (str "/p") Elf.demo_image; Tmpfs.OpCreate (str "/t") (text "hi")]
      (Tmpfs.root_only (λ _, 0)) with
  | Done (_, s) => s
  | _ => Tmpfs.root_only (λ _, 0)
  end.
Definition shell_kbd : Kbd.kbd :=
  Kbd.mkKbd (Ring.mkRing (replicate 128 0) 126 126) false (-1) false [] Vterm.demo_terms.
Definition shell_machine : kern Pmm.pmm := mkKern Spawn.demo_machine shell_fs shell_kbd [].
Definition no_line : list Z := replicate (Z.to_nat LINE_MAX) 0.

Lemma shell_fs_ok : Tmpfs.fs_ok shell_fs.
Proof.
  assert (Forall Tmpfs.op_ok [Tmpfs.OpCreate (str "/p") Elf.demo_image; Tmpfs.OpCreate (str "/t") (text "hi")]) as Hops.
  { repeat constructor; try done; apply Tmpfs.nul_free_dec; by vm_compute. }
  pose proof (Tmpfs.wp_run_ops _ _ (Tmpfs.root_only_good (λ _, 0)) Hops) as H.
  unfold shell_fs. unfold wp in H. by destruct (Tmpfs.run_ops _ _) as [[a s]| |]; [apply H|done..].
Qed.
Lemma shell_file : file_at shell_fs (str "/p") = Some Elf.demo_image.
Proof. by vm_compute. Qed.
Lemma shell_console : console_ok true shell_machine.
Proof.
  intros _. exists (Vterm.with_used true Vterm.empty), Vterm.fresh_paper.
  split; [by vm_compute|apply Vterm.fresh_shown].
Qed.
Lemma shell_room : room_for shell_machine Elf.demo_image.
Proof.
  destruct Spawn.demo_pmm_spec as [_ Hf]. exists 4096. change (pages_for _) with 1. intros k Hk.
  assert (k = 0) as -> by lia. apply (Pmm.page_avail_mul _ 1), Hf. lia.
Qed.

(** "lx", backspace, "s", Enter. *)
Definition ls_keys : list Z := [0x26; 0x2D; 0x0E; 0x1F; 0x1C].
Example ls_typed :
  match (kb_call (Kbd.type_all ls_keys);; shell_run false 128 no_line 0) shell_machine with
  | Done ((line, n), s) => (n, com1 s, Kbd.pending (kb s))
  | _ => (0, [], [])
  end =
  (0, str "lx" ++ rubout ++ str "s" ++ crlf (text "" ++ text "     123  p" ++ text "       3  t") ++ str "shizuku> ", []).
Proof. by vm_compute. Qed.

Lemma shell_reads_lines_witness :
  Kbd.typed false ls_keys = [108; 120; 8; 115; 10] ∧
  ∃ s1, kb_call (Kbd.type_all ls_keys) shell_machine = Done (tt, s1) ∧
    agree (λ st l', at_line st.1 st.2 l') (shell_run true 128 no_line 0 s1)
      (session true [] [108; 120; 8; 115; 10] (requeue (drained (queue_of s1)) s1)).
Proof.
  split; [done|].
  apply (shell_reads_lines true shell_machine ls_keys no_line 0 []);
    [by split|done|done|by repeat constructor|done|].
  split; [done|]. split; [apply in_line_nil|done].
Defined.

Lemma cat_prints_witness :
  wp (cmd_cat true (str "/t")) (λ _ s', ∃ pa q, buffer (pages_for 3) (pages_of shell_machine) pa q ∧
    s' = send (text "hi" ++ [10]) (buffered q pa (text "hi") shell_machine)) shell_machine.
Proof.
  apply (cat_prints true shell_machine (str "/t")); [exact shell_fs_ok|apply Spawn.demo_ready|exact shell_console].
Defined.

Lemma run_starts_witness :
  wp (cmd_run true (str "/p")) (λ _ s', ∃ pa q c,
    let s1 := buffered q pa Elf.demo_image shell_machine in
    0 < pa ∧ buffer 1 (pages_of shell_machine) pa q ∧
    ((Spawn.spawn_failed (str "/p") Elf.demo_image (sc s1) c ∧
       sent true (crlf (failed_msg (str "/p"))) (set_sc c s1) s') ∨
     (∃ tid space stack, Spawn.spawned (str "/p") Elf.demo_image [] (sc s1) tid space stack c ∧
       sent true (crlf (started_msg (str "/p") tid)) (set_sc c s1) s'))) shell_machine.
Proof.
  apply (run_starts true shell_machine (str "/p") Elf.demo_image);
    [exact shell_fs_ok|exact shell_console|exact Spawn.demo_ready|exact shell_file| |reflexivity
    |exact Elf.demo_image_ok|by vm_compute|exact shell_room].
  apply (bool_decide_unpack _). by vm_compute.
Defined.
End ShellSpec.
