(* ===== verification/Syscall.v ===== *)
(** * System calls ([kernel-rs/src/syscall.rs])

    One definition per handler, over the trap frame [f] and the state of
    [Kernel].  A handler that waits does not return: it gives up the
    processor, either to another thread ([int 32], whose kernel-mode frame
    [kf] the scheduler saves) or to the next interrupt, and [resume] is what it
    does when it runs again. *)
From S2P Require Import Prelude PageAlloc Pmm Mem Vmm UserMem Elf Tmpfs Sched Ring Vterm Kbd.
From S2P Require Import Kernel Proc.

Module Syscall.
Import Sched Kernel.

Definition ENOSYS : Z := 38.
Definition SYS_WRITE : Z := 0.
Definition SYS_EXIT : Z := 1.
Definition SYS_READ : Z := 2.
Definition SYS_OPEN : Z := 3.
Definition SYS_CLOSE : Z := 4.
Definition SYS_STAT : Z := 5.
Definition SYS_MKDIR : Z := 6.
Definition SYS_UNLINK : Z := 7.
Definition SYS_RENAME : Z := 8.
Definition SYS_GETDENTS : Z := 9.
Definition SYS_GETCWD : Z := 10.
Definition SYS_CHDIR : Z := 11.
Definition SYS_SPAWN : Z := 12.
Definition SYS_WAITPID : Z := 13.
Definition SYS_GETPID : Z := 14.
Definition SYS_SBRK : Z := 15.
Definition SYS_SLEEP_MS : Z := 16.
Definition SYS_UPTIME_MS : Z := 17.
Definition SYS_UNAME : Z := 18.
Definition SYS_SYSINFO : Z := 19.
Definition SYS_YIELD : Z := 20.
Definition SYS_NEXTPROC : Z := 21.
Definition TICK_MS : Z := 10.

(** What is left to do when the caller runs again. *)
Inductive resume :=
  | RYield
  | RSleep (deadline : Z)
  | RWait (tid status : Z)
  | RStdin (vt buf : Z)
  | RDead.

(** A handler returns a value, or the processor goes on with the frame [g], or
    it halts until an interrupt. *)
Inductive sys_result :=
  | Ret (r : Z)
  | Switched (g : frame) (k : resume)
  | Halted (k : resume).

Section syscall.
Context {P : Type} `{PageAllocator P} `{PageCounter P}.

Definition current : M (kern P) thread := sched_call Sched.current.
Definition update_current (f : thread → thread) : M (kern P) unit :=
  i ← gets (λ s, current_idx (sc s)); sched_call (update_thread i f).

Definition bad_uaddr (p : Z) : bool := (p =? 0) || (p >=? 0x0000800000000000).

(** A checked array write. *)
Definition aset (out : list Z) (i v : Z) : M (kern P) (list Z) :=
  if (0 <=? i) && (i <? zlen out) then mret (zset out i v) else panic.
(** [out[a..a + src.len()].copy_from_slice(src)] *)
Definition copy_in (out : list Z) (a : Z) (src : list Z) : M (kern P) (list Z) :=
  if (0 <=? a) && (a + zlen src <=? zlen out) then mret (splice out a src) else panic.

(** The result and the kernel buffer after the call. *)
Definition copy_step (uptr : Z) (st : Z * list Z) : M (kern P) ((Z * list Z) + (Z * list Z)) :=
  let '(i, out) := st in
  if i + 1 <? zlen out then
    c ← uread (uptr + i);
    out ← aset out i c;
    mret (if c =? 0 then inr (i, out) else inl (i + 1, out))
  else
    c ← uread (uptr + i);
    if c =? 0 then out ← aset out i 0; mret (inr (i, out)) else mret (inr (-1, out)).

Definition copy_ustr (uptr : Z) (out : list Z) : M (kern P) (Z * list Z) :=
  if bad_uaddr uptr then mret (-1, out) else loop (S (length out)) (copy_step uptr) (0, out).

Definition abs_path (uptr : Z) (out : list Z) : M (kern P) (Z * list Z) :=
  r ← copy_ustr uptr (replicate 256 0);
  let '(code, raw) := r in
  if code <? 0 then mret (-1, out)
  else
    let raw_len := default (zlen raw) (position (λ b, b =? 0) raw) in
    t ← current;
    let cwd := cwd_str t in
    c0 ← of_option (raw.[0]);
    r ← (if c0 =? Tmpfs.slash then
           let n := Z.min raw_len (zlen out - 1) in
           out ← copy_in out 0 (slice 0 n raw);
           mret (n, out)
         else
           let cn := Z.min (zlen cwd) (zlen out - 1) in
           out ← copy_in out 0 (slice 0 cn cwd);
           r ← (if (cn + 1 <? zlen out) && (cn >? 0) then
                  c ← of_option (out.[cn - 1]);
                  if negb (c =? Tmpfs.slash) then out ← aset out cn Tmpfs.slash; mret (cn + 1, out)
                  else mret (cn, out)
                else mret (cn, out));
           let '(n, out) := r in
           let rem := Z.min (zlen out - n - 1) raw_len in
           out ← copy_in out n (slice 0 rem raw);
           mret (n + rem, out));
    let '(n, out) := r in
    out ← aset out (zlen out - 1) 0;
    out ← (if n <? zlen out then aset out n 0 else mret out);
    mret (0, out).

Definition buf_str (buf : list Z) : list Z := str_or [] buf.

(** [abs_path] into a fresh [[0u8; 256]]; [None] on failure. *)
Definition path_arg (uptr : Z) : M (kern P) (option (list Z)) :=
  r ← abs_path uptr (replicate 256 0);
  let '(code, path) := r in
  if code <? 0 then mret None else mret (Some (buf_str path)).

Definition fd_get (t : thread) (fd : Z) : M (kern P) (option ufd) :=
  if negb ((UFD_FIRST <=? fd) && (fd <? UFD_MAX)) then mret None
  else
    u ← of_option ((fds t).[fd]);
    if node u >=? 0 then mret (Some u) else mret None.
Definition set_fd (fd : Z) (u : ufd) (t : thread) : thread := with_fds (zset (fds t) fd u) t.

(** The caller's terminal, or console 0. *)
Definition stdio_vt : M (kern P) Z :=
  t ← current;
  up ← vt_call Vterm.console_up;
  mret (if (vt t <? 0) && up then 0 else vt t).

Definition sys_write (f : frame) : M (kern P) sys_result :=
  let fd := i32 (rdi f) in
  let buf := rsi f in
  let len := rdx f in
  if bad_uaddr buf && (len >? 0) then mret (Ret (-1))
  else
    let len := if len >? Z.shiftl 1 20 then Z.shiftl 1 20 else len in
    if (fd =? 1) || (fd =? 2) then
      v ← stdio_vt;
      for_each 0 len (λ i,
        c ← uread (buf + i);
        (if c =? 10 then modify (uart_out 13) else mret tt);;
        modify (uart_out c);;
        if v >=? 0 then vt_call (Vterm.putc_vt v (u8 c)) else mret tt);;
      mret (Ret len)
    else
      t ← current;
      u ← fd_get t (u64 fd);
      match u with
      | None => mret (Ret (-1))
      | Some u =>
          data ← uread_bytes (Z.to_nat len) buf;
          n ← fs_call (Tmpfs.node_write (node u) (pos u) data);
          (if n >? 0 then update_current (set_fd fd (mkUfd (node u) (u64 (pos u + n))))
           else mret tt);;
          mret (Ret n)
      end.

Definition read_stdin (v buf : Z) : M (kern P) sys_result :=
  c ← (if v >=? 0 then vt_call (Vterm.getc v) else kb_call Kbd.getchar);
  if c >=? 0 then uwrite buf (u8 c);; mret (Ret 1)
  else mret (Halted (RStdin v buf)).

(** [node_read] fills the front of the buffer: only that part is written. *)
Definition sys_read (f : frame) : M (kern P) sys_result :=
  let fd := i32 (rdi f) in
  let buf := rsi f in
  if bad_uaddr buf then mret (Ret (-1))
  else if fd =? 0 then v ← stdio_vt; read_stdin v buf
  else
    t ← current;
    u ← fd_get t (u64 fd);
    match u with
    | None => mret (Ret (-1))
    | Some u =>
        r ← fs_call (Tmpfs.node_read (node u) (pos u) (replicate (Z.to_nat (rdx f)) 0));
        let '(n, out) := r in
        uwrite_bytes buf (slice 0 n out);;
        (if n >? 0 then update_current (set_fd fd (mkUfd (node u) (u64 (pos u + n))))
         else mret tt);;
        mret (Ret n)
    end.

Definition sys_open (f : frame) : M (kern P) sys_result :=
  p ← path_arg (rdi f);
  match p with
  | None => mret (Ret (-1))
  | Some path =>
      let flags := i32 (rsi f) in
      id ← fs_call (Tmpfs.lookup path);
      id ← (if (id <? 0) && negb (Z.land flags 2 =? 0) then fs_call (Tmpfs.create path [])
            else mret id);
      ty ← (if id <? 0 then mret (-1) else fs_call (Tmpfs.node_type id));
      if negb (ty =? Tmpfs.VN_FILE) then mret (Ret (-1))
      else
        r ← for_range UFD_FIRST UFD_MAX (λ i,
          t ← current;
          u ← of_option ((fds t).[i]);
          if node u <? 0 then update_current (set_fd i (mkUfd id 0));; mret (Some i)
          else mret None);
        mret (Ret (default (-1) r))
  end.

Definition sys_close (f : frame) : M (kern P) sys_result :=
  let fd := i32 (rdi f) in
  if negb ((UFD_FIRST <=? fd) && (fd <? UFD_MAX)) then mret (Ret (-1))
  else
    t ← current;
    u ← of_option ((fds t).[fd]);
    update_current (set_fd fd (mkUfd (-1) (pos u)));;
    mret (Ret 0).

Definition sys_stat (f : frame) : M (kern P) sys_result :=
  if bad_uaddr (rsi f) then mret (Ret (-1))
  else
    p ← path_arg (rdi f);
    match p with
    | None => mret (Ret (-1))
    | Some path =>
        id ← fs_call (Tmpfs.lookup path);
        if id <? 0 then mret (Ret (-1))
        else
          sz ← fs_call (Tmpfs.node_size id);
          uwrite_bytes (rsi f) (le_bytes 8 sz);;
          ty ← fs_call (Tmpfs.node_type id);
          uwrite_bytes (rsi f + 8) (le_bytes 4 ty);;
          mret (Ret 0)
    end.

Definition with_path (uptr : Z) (op : list Z → M Tmpfs.tmpfs Z) : M (kern P) sys_result :=
  p ← path_arg uptr;
  match p with
  | None => mret (Ret (-1))
  | Some path => r ← fs_call (op path); mret (Ret r)
  end.
Definition sys_mkdir (f : frame) : M (kern P) sys_result := with_path (rdi f) Tmpfs.mkdir.
Definition sys_unlink (f : frame) : M (kern P) sys_result := with_path (rdi f) Tmpfs.unlink.
Definition sys_rename (f : frame) : M (kern P) sys_result :=
  p ← path_arg (rdi f);
  match p with
  | None => mret (Ret (-1))
  | Some oldp => with_path (rsi f) (Tmpfs.rename oldp)
  end.

Definition sys_getdents (f : frame) : M (kern P) sys_result :=
  let ud := rdx f in
  if bad_uaddr ud then mret (Ret (-1))
  else
    p ← path_arg (rdi f);
    match p with
    | None => mret (Ret (-1))
    | Some path =>
        de ← fs_call (Tmpfs.list_dir path (rsi f));
        match de with
        | None => mret (Ret 0)
        | Some de =>
            uwrite_bytes ud (replicate 64 0);;
            let nm := Tmpfs.de_name de in
            let n := Z.min (default (zlen nm) (position (λ b, b =? 0) nm)) 55 in
            uwrite_bytes ud (slice 0 n nm);;
            uwrite_bytes (ud + 56) (le_bytes 4 (Tmpfs.de_typ de));;
            mret (Ret 1)
        end
    end.

Definition sys_getcwd (f : frame) : M (kern P) sys_result :=
  if bad_uaddr (rdi f) || (rsi f =? 0) then mret (Ret (-1))
  else
    t ← current;
    let cwd := cwd_str t in
    let n := zlen cwd + 1 in
    if n >? rsi f then mret (Ret (-1))
    else
      uwrite_bytes (rdi f) cwd;;
      uwrite (rdi f + zlen cwd) 0;;
      mret (Ret n).

(** The textual rebuilding of the path: the locals are [(p, n, out)]. *)
Definition COMP_DOT : list Z := [46].
Definition COMP_DOTDOT : list Z := [46; 46].
(** [while n > 0 && out[n] != b'/' { n -= 1 }] *)
Fixpoint back_to_slash (out : list Z) (n : nat) : nat :=
  match n with
  | O => O
  | S m => if default 0 (out.[Z.of_nat n]) =? Tmpfs.slash then n else back_to_slash out m
  end.

Definition pop_component (n : Z) (out : list Z) : Z :=
  if n >? 0 then
    let n := Z.of_nat (back_to_slash out (Z.to_nat (n - 1))) in
    if n >? 0 then n + 1 else n
  else n.

Definition chdir_step (bytes : list Z) (st : Z * Z * list Z)
    : M (kern P) ((Z * Z * list Z) + option (Z * list Z)) :=
  let '(p, n, out) := st in
  if negb (p <? zlen bytes) then mret (inr (Some (n, out)))
  else
    let p := scan Tmpfs.is_slash bytes p in
    if p >=? zlen bytes then mret (inr (Some (n, out)))
    else
      let e := scan Tmpfs.not_slash bytes p in
      let comp := slice p (e - p) bytes in
      if bool_decide (comp = COMP_DOT) then mret (inl (e, n, out))
      else if bool_decide (comp = COMP_DOTDOT) then
        let n := pop_component n out in
        out ← aset out n 0;
        mret (inl (e, n, out))
      else
        out ← aset out n Tmpfs.slash;
        let n := n + 1 in
        if n + zlen comp >=? zlen out - 1 then mret (inr None)
        else
          out ← copy_in out n comp;
          out ← aset out (n + zlen comp) 0;
          mret (inl (e, n + zlen comp, out)).

Definition rebuild (bytes : list Z) : M (kern P) (option (list Z)) :=
  r ← loop (S (length bytes)) (chdir_step bytes) (1, 0, replicate 96 0);
  match r with
  | None => mret None
  | Some (n, out) =>
      if n =? 0 then
        out ← aset out 0 Tmpfs.slash; out ← aset out 1 0; mret (Some out)
      else mret (Some out)
  end.

Definition sys_chdir (f : frame) : M (kern P) sys_result :=
  p ← path_arg (rdi f);
  match p with
  | None => mret (Ret (-1))
  | Some path =>
      id ← fs_call (Tmpfs.lookup path);
      ty ← (if id <? 0 then mret (-1) else fs_call (Tmpfs.node_type id));
      if negb (ty =? Tmpfs.VN_DIR) then mret (Ret (-1))
      else
        r ← rebuild path;
        match r with
        | None => mret (Ret (-1))
        | Some out => update_current (set_cwd (buf_str out));; mret (Ret 0)
        end
  end.

(** [kf] is the frame [int 32] pushes in the kernel. *)
Definition yield (kf : frame) (k : resume) : M (kern P) sys_result :=
  g ← sched_call (sched_yield kf); mret (Switched g k).

Definition sys_exit (kf f : frame) : M (kern P) sys_result :=
  update_current (with_exit (i32 (rdi f)));;
  g ← sched_call (sched_thread_exit kf);
  mret (Switched g RDead).

(** The loop over the caller's [argv]; [None] is the early [return -1]. *)
Fixpoint copy_argv (n : nat) (up : Z) (acc : list (list Z)) : M (kern P) (option (list (list Z))) :=
  match n with
  | O => mret (Some acc)
  | S n =>
      s ← uread64 up;
      if s =? 0 then mret (Some acc)
      else if bad_uaddr s then mret None
      else
        r ← copy_ustr s (replicate 64 0);
        let '(len, store) := r in
        if len <? 0 then mret None
        else copy_argv n (up + 8) (acc ++ [buf_str store])
  end.

Definition sys_spawn (f : frame) : M (kern P) sys_result :=
  p ← path_arg (rdi f);
  match p with
  | None => mret (Ret (-1))
  | Some path =>
      argv ← (if bad_uaddr (rsi f) then mret (Some []) else copy_argv 16 (rsi f) []);
      match argv with
      | None => mret (Ret (-1))
      | Some argv =>
          tid ← Proc.spawn_path path argv;
          (if tid >=? 0 then
             t ← current;
             child ← sched_call (thread_at tid);
             match child with
             | Some _ =>
                 sched_call (update_thread tid (λ c,
                   with_vt (vt t) (with_cwd (c_array 96 (cwd_str t)) c)))
             | None => mret tt
             end
           else mret tt);;
          mret (Ret tid)
      end
  end.

Definition wait_loop (kf : frame) (tid status : Z) : M (kern P) sys_result :=
  t ← sched_call (thread_at (u64 tid));
  if (match t with Some t => negb (bool_decide (state t = Zombie)) | None => false end)
  then yield kf (RWait tid status)
  else
    (if negb (bad_uaddr status) then
       uwrite_bytes status (le_bytes 4 (match t with Some t => exit_status t | None => 0 end))
     else mret tt);;
    sched_call (sched_reap (u64 tid));;
    mret (Ret tid).

Definition sys_waitpid (kf f : frame) : M (kern P) sys_result :=
  let tid := i32 (rdi f) in
  t ← sched_call (thread_at (u64 tid));
  match t with
  | None => mret (Ret (-1))
  | Some t =>
      if decide (state t = Unused) then mret (Ret (-1)) else wait_loop kf tid (rsi f)
  end.

Definition sys_getpid (f : frame) : M (kern P) sys_result := t ← current; mret (Ret (tid t)).

(** One turn of [while va < newb]. *)
Definition sbrk_step (space newb va : Z) : M (kern P) (Z + bool) :=
  if va <? newb then
    ok ← vm_call (UserMem.fresh_page space va (Z.lor (Z.lor Vmm.PTE_US Vmm.PTE_RW) Vmm.PTE_NX));
    mret (if ok : bool then inl (u64 (va + PAGE_SIZE)) else inr false)
  else mret (inr true).

Definition sys_sbrk (f : frame) : M (kern P) sys_result :=
  let incr := i64 (rdi f) in
  t ← current;
  let old := brk t in
  if incr =? 0 then mret (Ret (i64 old))
  else
    let newb := u64 (i64 old + incr) in
    if (newb <? old) || (u64 (newb - 0x600000000000) >? Z.shiftl 64 20) then mret (Ret (-1))
    else
      let from := page_up old in
      ok ← loop (S (Z.to_nat ((newb - from) / PAGE_SIZE + 1))) (sbrk_step (space t) newb) from;
      if negb ok then mret (Ret (i64 (i64 old - 1)))
      else update_current (with_brk newb);; mret (Ret (i64 old)).

Definition sleep_loop (kf : frame) (deadline : Z) : M (kern P) sys_result :=
  ticks ← gets (λ s, timer_ticks (sc s));
  if ticks <? deadline then yield kf (RSleep deadline) else mret (Ret 0).

Definition sys_sleep_ms (kf f : frame) : M (kern P) sys_result :=
  ticks ← gets (λ s, timer_ticks (sc s));
  sleep_loop kf (u64 (ticks + u64 (rdi f + TICK_MS - 1) / TICK_MS)).

Definition sys_uptime (f : frame) : M (kern P) sys_result :=
  ticks ← gets (λ s, timer_ticks (sc s)); mret (Ret (i64 (u64 (ticks * TICK_MS)))).

(** "shizuku", "0.2-userspace" and "x86_64". *)
Definition sys_uname (f : frame) : M (kern P) sys_result :=
  let u := rdi f in
  if bad_uaddr u then mret (Ret (-1))
  else
    uwrite_bytes u (replicate 96 0);;
    uwrite_bytes u [115; 104; 105; 122; 117; 107; 117];;
    uwrite_bytes (u + 32) [48; 46; 50; 45; 117; 115; 101; 114; 115; 112; 97; 99; 101];;
    uwrite_bytes (u + 64) [120; 56; 54; 95; 54; 52];;
    mret (Ret 0).

Definition pmm_call {A} (m : M P A) : M (kern P) A := vm_call (Vmm.pmm_call m).

Definition sys_sysinfo (f : frame) : M (kern P) sys_result :=
  let si := rdi f in
  if bad_uaddr si then mret (Ret (-1))
  else
    total ← pmm_call total_count;
    uwrite_bytes si (le_bytes 8 (u64 (total * PAGE_SIZE)));;
    free ← pmm_call free_count;
    uwrite_bytes (si + 8) (le_bytes 8 (u64 (free * PAGE_SIZE)));;
    n ← sched_call count_running;
    uwrite_bytes (si + 16) (le_bytes 4 n);;
    ticks ← gets (λ s, timer_ticks (sc s));
    uwrite_bytes (si + 24) (le_bytes 8 (u64 (ticks * TICK_MS)));;
    mret (Ret 0).

Definition sys_yield (kf f : frame) : M (kern P) sys_result := yield kf RYield.

(** The loop over the slots; [seen] is its local counter. *)
Fixpoint nextproc_from (n : nat) (i want seen up : Z) : M (kern P) sys_result :=
  match n with
  | O => mret (Ret 0)
  | S n =>
      t ← sched_call (thread_at i);
      match t with
      | None => nextproc_from n (i + 1) want seen up
      | Some t =>
          if decide (state t = Unused) then nextproc_from n (i + 1) want seen up
          else if negb (seen =? want) then nextproc_from n (i + 1) want (seen + 1) up
          else
            uwrite_bytes up (replicate 32 0);;
            uwrite_bytes up (le_bytes 4 (u32 (tid t)));;
            let nm := name_str t in
            uwrite_bytes (up + 4) (slice 0 (Z.min (zlen nm) 23) nm);;
            uwrite_bytes (up + 28) (le_bytes 4 (if decide (state t = Zombie) then 1 else 0));;
            mret (Ret 1)
      end
  end.

Definition sys_nextproc (f : frame) : M (kern P) sys_result :=
  if bad_uaddr (rsi f) then mret (Ret (-1))
  else nextproc_from (Z.to_nat SCHED_MAX_THREADS) 0 (rdi f) 0 (rsi f).

Definition syscall_body (kf f : frame) : M (kern P) sys_result :=
  let n := rax f in
  if n =? SYS_WRITE then sys_write f
  else if n =? SYS_EXIT then sys_exit kf f
  else if n =? SYS_READ then sys_read f
  else if n =? SYS_OPEN then sys_open f
  else if n =? SYS_CLOSE then sys_close f
  else if n =? SYS_STAT then sys_stat f
  else if n =? SYS_MKDIR then sys_mkdir f
  else if n =? SYS_UNLINK then sys_unlink f
  else if n =? SYS_RENAME then sys_rename f
  else if n =? SYS_GETDENTS then sys_getdents f
  else if n =? SYS_GETCWD then sys_getcwd f
  else if n =? SYS_CHDIR then sys_chdir f
  else if n =? SYS_SPAWN then sys_spawn f
  else if n =? SYS_WAITPID then sys_waitpid kf f
  else if n =? SYS_GETPID then sys_getpid f
  else if n =? SYS_SBRK then sys_sbrk f
  else if n =? SYS_SLEEP_MS then sys_sleep_ms kf f
  else if n =? SYS_UPTIME_MS then sys_uptime f
  else if n =? SYS_UNAME then sys_uname f
  else if n =? SYS_SYSINFO then sys_sysinfo f
  else if n =? SYS_YIELD then sys_yield kf f
  else if n =? SYS_NEXTPROC then sys_nextproc f
  else mret (Ret (- ENOSYS)).

(** What the processor does next: return to the caller with [rax] set, or one
    of the two ways of waiting. *)
Inductive dispatched :=
  | ReturnTo (f : frame)
  | SwitchTo (g : frame) (k : resume)
  | HaltWith (k : resume).

Definition with_rax (v : Z) (f : frame) : frame :=
  mkFrame (r15 f) (r14 f) (r13 f) (r12 f) (r11 f) (r10 f) (r9 f) (r8 f)
    (rbp f) (rdi f) (rsi f) (rdx f) (rcx f) (rbx f) v (vector f) (err f)
    (rip f) (cs f) (rflags f) (rsp f) (ss f).
Definition finish (f : frame) (r : sys_result) : dispatched :=
  match r with
  | Ret v => ReturnTo (with_rax (u64 v) f)
  | Switched g k => SwitchTo g k
  | Halted k => HaltWith k
  end.

Definition syscall_dispatch (kf f : frame) : M (kern P) dispatched :=
  r ← syscall_body kf f; mret (finish f r).

(** The waiting handler runs again. *)
Definition resume_syscall (kf f : frame) (k : resume) : M (kern P) dispatched :=
  r ← match k with
      | RYield => mret (Ret 0)
      | RSleep deadline => sleep_loop kf deadline
      | RWait tid status => wait_loop kf tid status
      | RStdin v buf => read_stdin v buf
      | RDead => mret (Halted RDead)
      end;
  mret (finish f r).
End syscall.
End Syscall.
