(* ===== verification/SyscallSpec.v ===== *)
(** * What the system calls do

    Paths, file descriptors, the heap and the dispatcher, for a caller whose
    pointers denote readable (or writable) memory. *)
From S2P Require Import Prelude PageAlloc Pmm Mem Vmm UserMem Elf Tmpfs Sched Ring Vterm Kbd.
From S2P Require Import Kernel Proc Syscall.

Module SyscallSpec.
Import Sched Kernel Syscall.

Section strings.
Context {P : Type} `{PageAllocatorLaws P}.
Implicit Types s : kern P.

Lemma wp_aset s out i v (Q : list Z → kern P → Prop) :
  0 ≤ i < zlen out → Q (zset out i v) s → wp (aset out i v) Q s.
Proof.
  intros Hi HQ. unfold aset. rewrite (proj2 (Z.leb_le 0 i)), (proj2 (Z.ltb_lt i _)) by lia.
  exact HQ.
Qed.
Lemma wp_copy_in s out a src (Q : list Z → kern P → Prop) :
  0 ≤ a → a + zlen src ≤ zlen out → Q (splice out a src) s → wp (copy_in out a src) Q s.
Proof.
  intros Ha Hl HQ. unfold copy_in. rewrite (proj2 (Z.leb_le 0 a)), (proj2 (Z.leb_le _ _)) by lia.
  exact HQ.
Qed.

Lemma zset_splice out buf c :
  zlen buf < zlen out →
  zset (splice out 0 buf) (zlen buf) c = splice out 0 (buf ++ [c]).
Proof.
  intros Hl. pose proof (zlen_nonneg buf). apply list_eq_zget.
  { rewrite zlen_zset, !zlen_splice; rewrite ?zlen_app, ?zlen_cons; change (zlen []) with 0; lia. }
  intros i. rewrite zlen_zset, zlen_splice by lia. intros Hi.
  rewrite zget_zset by (rewrite zlen_splice; lia). unfold splice. simpl.
  rewrite <- app_assoc. destruct (decide (zlen buf = i)) as [<-|Hne].
  - rewrite zget_app_r by lia. by rewrite Z.sub_diag.
  - destruct (Z.lt_ge_cases i (zlen buf)); [by rewrite !zget_app_l by lia|].
    rewrite !zget_app_r by lia. change ([c] ++ ?l) with (c :: l).
    rewrite zlen_app. change (zlen [c]) with 1. rewrite zget_drop by lia.
    replace (i - zlen buf) with (1 + (i - zlen buf - 1)) by lia.
    change (c :: ?l) with ([c] ++ l). rewrite zget_app_r by (change (zlen [c]) with 1; lia).
    change (zlen [c]) with 1. rewrite zget_drop by lia. f_equal. lia.
Qed.

(** A NUL-terminated string that fits is copied with its terminator. *)
Lemma wp_copy_ustr s uptr str out :
  bad_uaddr uptr = false → user_string s uptr str → zlen str < zlen out →
  wp (copy_ustr uptr out) (λ r s', s' = s ∧ r = (zlen str, splice out 0 (str ++ [0]))) s.
Proof.
  intros Hb [Hnul Hu] Hl. unfold copy_ustr. rewrite Hb. pose proof (zlen_nonneg str).
  apply (wp_loop (λ '(i, o) s', s' = s ∧ 0 ≤ i ≤ zlen str ∧
      o = splice out 0 (take (Z.to_nat i) str)) (λ '(i, _), Z.to_nat (zlen out - i))).
  { split_and!; [done|lia..|]. unfold splice. simpl. by rewrite drop_0. }
  { unfold zlen. lia. }
  intros [i o] s' (-> & Hi & ->). unfold copy_step.
  assert (zlen (take (Z.to_nat i) str) = i) as Hti by (rewrite zlen_take; lia).
  assert (zlen (splice out 0 (take (Z.to_nat i) str)) = zlen out) as Hzl
    by (rewrite zlen_splice; lia).
  rewrite Hzl. destruct (Z.eq_dec i (zlen str)) as [->|Hne].
  - assert (UserMem.user_byte (mem s) (active_space s) (uptr + zlen str) = Some 0) as Hz.
    { apply Hu. rewrite zget_app_r by lia. by rewrite Z.sub_diag. }
    assert (take (Z.to_nat (zlen str)) str = str) as Htake
      by (apply take_ge; unfold zlen; lia).
    rewrite Htake in *.
    destruct (zlen str + 1 <? zlen out); wp_run; (eapply wp_uread; [exact Hz|]); simpl; wp_run;
      (apply wp_aset; [lia|]); wp_run; (split; [done|]); by rewrite zset_splice by lia.
  - destruct (zget_lt str i) as [c Hc]; [lia|].
    assert (c ≠ 0) as Hc0.
    { by apply (Forall_zget _ _ _ _ Hnul Hc). }
    assert (UserMem.user_byte (mem s) (active_space s) (uptr + i) = Some c) as Hi'.
    { apply Hu. by rewrite zget_app_l by lia. }
    rewrite (proj2 (Z.ltb_lt (i + 1) _)) by lia. wp_run. eapply wp_uread; [exact Hi'|].
    rewrite (proj2 (Z.eqb_neq c 0)) by done. wp_run. apply wp_aset; [lia|]. wp_run.
    split; [|lia]. split_and!; [done|lia..|].
    rewrite <- Hti at 2. rewrite zset_splice by lia. f_equal.
    replace (Z.to_nat (i + 1)) with (S (Z.to_nat i)) by lia.
    unfold zget in Hc. rewrite decide_True in Hc by lia. by rewrite (take_S_r _ _ c).
Qed.
End strings.

Lemma zset_mid (l : list Z) i c : 0 ≤ i < zlen l → zset l i c = splice l i [c].
Proof.
  intros Hi. apply list_eq_zget.
  { rewrite zlen_zset, zlen_splice; change (zlen [c]) with 1; lia. }
  intros j. rewrite zlen_zset. intros Hj. rewrite zget_zset by lia. unfold splice.
  assert (zlen (take (Z.to_nat i) l) = i) as Hti by (rewrite zlen_take; lia).
  destruct (decide (i = j)) as [<-|Hne].
  - rewrite zget_app_r by lia. by rewrite Hti, Z.sub_diag.
  - destruct (Z.lt_ge_cases j i).
    + rewrite zget_app_l, zget_take by lia. done.
    + rewrite zget_app_r, zget_app_r by (change (zlen [c]) with 1; lia).
      change (zlen [c]) with 1. rewrite zget_drop by lia. f_equal. lia.
Qed.

(** ** Paths *)
Definition ends_in_slash (l : list Z) : bool := bool_decide (last l = Some Tmpfs.slash).
(** The argument made absolute. *)
Definition join_path (cwd arg : list Z) : list Z :=
  if bool_decide (head arg = Some Tmpfs.slash) then arg
  else
    let base := if bool_decide (cwd = []) || ends_in_slash cwd then cwd
                else cwd ++ [Tmpfs.slash] in
    base ++ arg.
(** ... cut to the 255 bytes of the buffer, and to nothing if not UTF-8. *)
Definition path_of (cwd arg : list Z) : list Z :=
  let p := take 255 (join_path cwd arg) in if utf8_valid p then p else [].

Section paths.
Context {P : Type} `{PageAllocatorLaws P}.
Implicit Types s : kern P.

(** The calling thread. *)
Definition caller s (t : thread) : Prop := zget (threads (sc s)) (current_idx (sc s)) = Some t.

Lemma wp_current s t (Q : thread → kern P → Prop) :
  caller s t → Q t s → wp current Q s.
Proof.
  intros Ht HQ. unfold current, sched_call, Sched.current. wp_run. apply wp_aget.
  exists t. split; [done|]. by destruct s.
Qed.

Lemma last_zget (l : list Z) : last l = if decide (l = []) then None else zget l (zlen l - 1).
Proof.
  destruct l as [|x l]; [done|]. rewrite decide_False by done. rewrite last_lookup.
  unfold zget, zlen. rewrite decide_True by (simpl; lia). f_equal. simpl. lia.
Qed.

Lemma cwd_str_bounds t : zlen (cwd t) = CWD_LEN → zlen (cwd_str t) ≤ CWD_LEN.
Proof.
  intros Hl. unfold cwd_str, str_or. unfold CWD_LEN in *.
  destruct (utf8_valid _); [|unfold zlen; simpl; lia].
  unfold c_str, slice. simpl. rewrite drop_0, <- Hl. unfold zlen. rewrite length_take. lia.
Qed.
Lemma cwd_str_nul_free t : nul_free (cwd_str t).
Proof.
  unfold cwd_str, str_or. destruct (utf8_valid _); [apply c_str_nul_free|by repeat constructor].
Qed.

Lemma c_array_replicate max : 1 ≤ max → replicate (Z.to_nat max) 0 = c_array max [].
Proof. intros Hm. rewrite c_array_short by (unfold zlen; simpl; lia). simpl. f_equal. unfold zlen. simpl. lia. Qed.

Lemma splice_zeros max l : zlen l < max → splice (c_array max []) 0 l = c_array max l.
Proof. intros Hl. apply (splice_c_array max []). exact Hl. Qed.

Lemma take_short (l : list Z) : zlen l ≤ 255 → take 255 l = l.
Proof. intros Hl. apply take_ge. unfold zlen in *. lia. Qed.
Lemma slice_all (l : list Z) : slice 0 (zlen l) l = l.
Proof. unfold slice. simpl. rewrite drop_0. apply take_ge. unfold zlen. lia. Qed.

(** The directory prefix, with its separator. *)
Definition with_slash (cwd : list Z) : list Z :=
  if bool_decide (cwd = []) || ends_in_slash cwd then cwd else cwd ++ [Tmpfs.slash].

Lemma zlen_with_slash cwd : zlen cwd ≤ zlen (with_slash cwd) ≤ zlen cwd + 1.
Proof.
  unfold with_slash. destruct (_ || _); [lia|]. rewrite zlen_app. change (zlen [_]) with 1. lia.
Qed.

(** The body of the relative case: [n] and [out] after the separator. *)
Lemma wp_add_slash s cwd :
  zlen cwd + 1 < 256 →
  wp (if zlen cwd >? 0 then
        c ← of_option (zget (c_array 256 cwd) (zlen cwd - 1));
        if negb (c =? Tmpfs.slash) then
          out ← aset (c_array 256 cwd) (zlen cwd) Tmpfs.slash; mret (zlen cwd + 1, out)
        else mret (zlen cwd, c_array 256 cwd)
      else mret (zlen cwd, c_array 256 cwd))
     (λ r s', s' = s ∧ r = (zlen (with_slash cwd), c_array 256 (with_slash cwd))) s.
Proof.
  intros Hl. pose proof (zlen_nonneg cwd) as Hl0. unfold with_slash, ends_in_slash.
  rewrite last_zget, Z.gtb_ltb.
  destruct (decide (cwd = [])) as [->|Hne]; [by wp_run|].
  rewrite bool_decide_false by done. cbn [orb].
  assert (0 < zlen cwd) as Hpos.
  { destruct (Z.eq_dec (zlen cwd) 0) as [E|]; [by apply zlen_nil_inv in E|lia]. }
  rewrite (proj2 (Z.ltb_lt 0 _)) by lia. wp_run. apply wp_of_option.
  destruct (zget_lt cwd (zlen cwd - 1)) as [c Hc]; [lia|]. exists c.
  split; [by rewrite zget_c_array by lia|]. rewrite Hc.
  destruct (Z.eqb_spec c Tmpfs.slash) as [->|Hcs]; cbn [negb].
  - rewrite bool_decide_true by done. by wp_run.
  - rewrite bool_decide_false by congruence. wp_run.
    apply wp_aset; [rewrite zlen_c_array; lia|]. wp_run. split; [done|].
    rewrite zlen_app. change (zlen [Tmpfs.slash]) with 1.
    rewrite <- (splice_c_array 256 cwd) by (change (zlen [Tmpfs.slash]) with 1; lia).
    f_equal. apply zset_mid. rewrite zlen_c_array; lia.
Qed.

(** Terminating an array that is already padded with zeroes. *)
Lemma wp_terminate s full n :
  zlen full ≤ 255 → n = zlen full →
  wp (out ← aset (c_array 256 full) (zlen (c_array 256 full) - 1) 0;
      out ← (if n <? zlen out then aset out n 0 else mret out); mret (0, out))
    (λ r s', s' = s ∧ r = (0, c_array 256 full)) s.
Proof.
  intros Hf ->. pose proof (zlen_nonneg full). wp_run. rewrite zlen_c_array by done.
  apply wp_aset; [rewrite zlen_c_array; lia|]. rewrite c_array_clear by lia. wp_run.
  rewrite zlen_c_array by done. rewrite (proj2 (Z.ltb_lt _ _)) by lia.
  apply wp_aset; [rewrite zlen_c_array; lia|]. rewrite c_array_clear by lia. by wp_run.
Qed.

Lemma first_byte arg :
  zlen arg < 256 → ∃ c0, zget (c_array 256 arg) 0 = Some c0 ∧
    (c0 =? Tmpfs.slash) = bool_decide (head arg = Some Tmpfs.slash).
Proof.
  intros Hl. destruct arg as [|c arg]; [by exists 0|]. exists c. split.
  - pose proof (zlen_nonneg arg). rewrite zget_c_array by (rewrite ?zlen_cons in *; lia). done.
  - simpl. destruct (Z.eqb_spec c Tmpfs.slash) as [->|]; symmetry;
      [by apply bool_decide_true|apply bool_decide_false; congruence].
Qed.

Lemma wp_abs_path s t uptr arg :
  caller s t → zlen (cwd t) = CWD_LEN → bad_uaddr uptr = false → user_string s uptr arg →
  zlen arg < 256 →
  wp (abs_path uptr (replicate 256 0)) (λ r s', s' = s ∧
    r = (0, c_array 256 (take 255 (join_path (cwd_str t) arg)))) s.
Proof.
  intros Ht Hcwd Hbad Hstr Hl. pose proof (zlen_nonneg arg) as Hl0. unfold abs_path.
  change (replicate 256 0) with (replicate (Z.to_nat 256) 0). rewrite c_array_replicate by done.
  assert (zlen (c_array 256 []) = 256) as Hz by (by apply zlen_c_array).
  wp_step. wp_use wp_copy_ustr; [done|exact Hstr|lia|]. intros r s' [-> ->].
  assert (splice (c_array 256 []) 0 (arg ++ [0]) = c_array 256 arg) as ->.
  { rewrite <- zset_splice, splice_zeros by lia. apply c_array_clear. lia. }
  rewrite (proj2 (Z.ltb_ge (zlen arg) 0)) by lia.
  destruct Hstr as [Hnul _]. rewrite position_c_array by (done || lia). cbn [default from_option id].
  wp_step. eapply wp_current; [exact Ht|]. pose proof (cwd_str_bounds t Hcwd) as Hcb.
  pose proof (zlen_nonneg (cwd_str t)) as Hc0. unfold CWD_LEN in Hcb.
  generalize dependent (cwd_str t). intros cwd Hcb Hc0.
  cbv zeta. wp_step. apply wp_of_option.
  destruct (first_byte arg Hl) as (c0 & Hc & Hslash). exists c0. split; [exact Hc|].
  rewrite Hslash, Hz. unfold join_path. wp_step.
  destruct (bool_decide (head arg = _)).
  { rewrite (Z.min_l (zlen arg)) by lia. rewrite slice_c_array by lia. wp_step.
    apply wp_copy_in; [lia..|]. rewrite splice_zeros by lia. wp_step.
    rewrite take_short by lia. apply wp_terminate; lia. }
  rewrite (Z.min_l (zlen cwd)) by lia. rewrite slice_all. wp_step.
  apply wp_copy_in; [lia..|]. rewrite splice_zeros by lia. rewrite zlen_c_array by done.
  rewrite (proj2 (Z.ltb_lt (zlen cwd + 1) 256)) by lia. cbn [andb].
  wp_step. wp_use wp_add_slash; [lia|]. intros r s' [-> ->].
  cbv beta iota zeta. fold (with_slash cwd).
  pose proof (zlen_with_slash cwd) as Hws. rewrite zlen_c_array by done.
  set (base := with_slash cwd) in *. set (rem := Z.min (256 - zlen base - 1) (zlen arg)).
  assert (slice 0 rem (c_array 256 arg) = take (Z.to_nat rem) arg) as ->.
  { unfold slice. simpl. rewrite drop_0. rewrite c_array_short by lia.
    apply take_app_le. unfold rem, zlen in *. lia. }
  assert (zlen (take (Z.to_nat rem) arg) = rem) as Hrem by (rewrite zlen_take; lia).
  wp_step. apply wp_copy_in; [lia|rewrite zlen_c_array; lia|].
  rewrite splice_c_array by lia. wp_step.
  assert (take 255 (base ++ arg) = base ++ take (Z.to_nat rem) arg) as ->.
  { rewrite take_app_ge by (unfold zlen in *; lia). f_equal.
    destruct (Z.le_gt_cases (zlen arg) (255 - zlen base)).
    - rewrite !take_ge; [done|unfold zlen in *; lia..].
    - f_equal. unfold rem, zlen in *. lia. }
  apply wp_terminate; rewrite zlen_app; lia.
Qed.

(** The path a handler works on. *)
Lemma wp_path_arg s t uptr arg :
  caller s t → zlen (cwd t) = CWD_LEN → bad_uaddr uptr = false → user_string s uptr arg →
  zlen arg < 256 →
  wp (path_arg uptr) (λ r s', s' = s ∧ r = Some (path_of (cwd_str t) arg)) s.
Proof.
  intros Ht Hcwd Hbad Hstr Hl. unfold path_arg. wp_step.
  wp_use wp_abs_path; [done..|]. intros r s' [-> ->]. cbn. split; [done|].
  unfold buf_str, str_or, path_of.
  assert (nul_free (take 255 (join_path (cwd_str t) arg))) as Hn.
  { apply Forall_take. destruct Hstr as [Ha _]. pose proof (cwd_str_nul_free t).
    unfold join_path. destruct (bool_decide _); [done|].
    apply Forall_app. split; [|done]. destruct (_ || _); [done|].
    apply Forall_app. split; [done|by repeat constructor]. }
  rewrite c_str_c_array; [done|done|]. change 255%nat with (Z.to_nat 255).
  rewrite zlen_take. lia.
Qed.
End paths.

(** ** File descriptors *)
Section files.
Context {P : Type} `{PageAllocatorLaws P}.
Implicit Types s : kern P.

(** The caller's slot rewritten. *)
Definition put_caller (t : thread) s : kern P :=
  set_sc (set_threads (zset (threads (sc s)) (current_idx (sc s)) t) (sc s)) s.

Lemma wp_update_current s t f (Q : unit → kern P → Prop) :
  caller s t → Q tt (put_caller (f t) s) → wp (update_current f) Q s.
Proof.
  intros Ht HQ. unfold update_current, sched_call. wp_run. apply wp_update_thread.
  exists t. by split.
Qed.

Lemma wp_fs_call {A} s (m : M Tmpfs.tmpfs A) (Q : A → kern P → Prop) :
  wp m (λ r x, Q r (set_fs x s)) (fs s) → wp (fs_call m) Q s.
Proof. intros Hm. unfold fs_call. by wp_step. Qed.
Lemma set_fs_id s : set_fs (fs s) s = s.
Proof. by destruct s. Qed.

Definition fd_node (t : thread) (fd : Z) : option Z := node <$> zget (fds t) fd.
(** The lowest closed descriptor. *)
Definition free_fd (t : thread) : option Z :=
  find_first (λ i, match fd_node t i with Some nd => nd <? 0 | None => false end)
    UFD_FIRST UFD_MAX.

Lemma caller_set_fs s t x : caller s t → caller (set_fs x s) t.
Proof. done. Qed.

Lemma fd_slot t fd : zlen (fds t) = UFD_MAX → UFD_FIRST ≤ fd < UFD_MAX →
  ∃ u, zget (fds t) fd = Some u.
Proof. intros Hl Hfd. apply zget_lt. unfold UFD_FIRST in *. lia. Qed.

(** The scan for a free descriptor in [sys_open]. *)
Lemma wp_take_fd s t id :
  caller s t → zlen (fds t) = UFD_MAX →
  wp (r ← for_range UFD_FIRST UFD_MAX (λ i,
        t ← current;
        u ← of_option (zget (fds t) i);
        if node u <? 0 then update_current (set_fd i (mkUfd id 0));; mret (Some i)
        else mret None);
      mret (Ret (default (-1) r)))
     (λ r s', match free_fd t with
              | Some i => r = Ret i ∧ s' = put_caller (set_fd i (mkUfd id 0) t) s
              | None => r = Ret (-1) ∧ s' = s
              end) s.
Proof.
  intros Ht Hl. wp_step.
  eapply (wp_for_find (λ i, match fd_node t i with Some nd => nd <? 0 | None => false end)).
  - done.
  - intros i Hi. unfold fd_node. destruct (fd_slot t i Hl Hi) as [u Hu]. rewrite Hu. simpl.
    intros Hn. wp_run. eapply wp_current; [exact Ht|]. wp_run. apply wp_of_option.
    exists u. split; [done|]. rewrite Hn. by wp_run.
  - intros i Hi Hp Hbefore. unfold fd_node in Hp. destruct (fd_slot t i Hl Hi) as [u Hu].
    rewrite Hu in Hp. simpl in Hp. wp_run. eapply wp_current; [exact Ht|]. wp_run.
    apply wp_of_option. exists u. split; [done|]. rewrite Hp. wp_run.
    eapply wp_update_current; [exact Ht|]. wp_run. exists i. split; [done|]. wp_run.
    assert (free_fd t = Some i) as ->; [|done].
    apply find_first_Some. split_and!; [lia|lia| |done]. unfold fd_node. rewrite Hu. simpl. done.
  - intros Hno. wp_run. assert (free_fd t = None) as ->; [|done].
    apply find_first_None. exact Hno.
Qed.

(** The node [sys_open] opens, and the file system after the lookup. *)
Definition open_node (x : Tmpfs.tmpfs) (path : list Z) (flags : Z) : Z * Tmpfs.tmpfs :=
  let id := Tmpfs.resolve_spec x path in
  if (id <? 0) && negb (Z.land flags 2 =? 0) then Tmpfs.create_spec x path [] else (id, x).

Lemma open_node_ok x path flags : Tmpfs.fs_ok x → Tmpfs.fs_ok (open_node x path flags).2.
Proof.
  intros Hok. unfold open_node. cbv zeta. destruct (_ && _); [|done].
  by apply Tmpfs.create_spec_ok.
Qed.

Lemma wp_node_type x id :
  Tmpfs.fs_ok x →
  wp (Tmpfs.node_type id) (λ r x', x' = x ∧ r = Tmpfs.node_typ x id) x.
Proof.
  intros Hok. unfold Tmpfs.node_type, Tmpfs.node_typ. rewrite Z.geb_leb.
  destruct (Z.ltb_spec id 0), (Z.leb_spec Tmpfs.TN_MAX id); cbn [orb];
    try (wp_run; rewrite (proj2 (zget_None _ _)); [done|rewrite (Tmpfs.ok_len _ Hok); lia]).
  destruct (Tmpfs.node_at x id Hok) as [d Hd]; [lia|]. wp_run. apply wp_aget.
  exists d. split; [done|]. wp_run. by rewrite Hd.
Qed.

Lemma wp_open_node s path flags :
  Tmpfs.fs_ok (fs s) →
  wp (id ← fs_call (Tmpfs.lookup path);
      if (id <? 0) && negb (Z.land flags 2 =? 0) then fs_call (Tmpfs.create path [])
      else mret id)
     (λ id s', (id, s') =
        let '(id, x) := open_node (fs s) path flags in (id, set_fs x s)) s.
Proof.
  intros Hok. wp_step. apply wp_fs_call. wp_use Tmpfs.wp_resolve; [done|].
  intros id x [-> ->]. rewrite set_fs_id. unfold open_node. cbv zeta.
  destruct (_ && _).
  - apply wp_fs_call. wp_use Tmpfs.wp_create; [done|done|]. intros r x <-. done.
  - wp_run. by rewrite set_fs_id.
Qed.

(** [open] once the path is known. *)
Lemma wp_open_path s t path flags :
  caller s t → zlen (fds t) = UFD_MAX → Tmpfs.fs_ok (fs s) →
  wp (id ← fs_call (Tmpfs.lookup path);
      id ← (if (id <? 0) && negb (Z.land flags 2 =? 0) then fs_call (Tmpfs.create path []) else mret id);
      ty ← (if id <? 0 then mret (-1) else fs_call (Tmpfs.node_type id));
      if negb (ty =? Tmpfs.VN_FILE) then mret (Ret (-1))
      else
        r ← for_range UFD_FIRST UFD_MAX (λ i,
          t ← current;
          u ← of_option ((fds t).[i]);
          if node u <? 0 then update_current (set_fd i (mkUfd id 0));; mret (Some i)
          else mret None);
        mret (Ret (default (-1) r)))
    (λ r s', let '(id, x) := open_node (fs s) path flags in
      Tmpfs.fs_ok x ∧
      match free_fd t with
      | Some i =>
          if (0 <=? id) && (Tmpfs.node_typ x id =? Tmpfs.VN_FILE)
          then r = Ret i ∧ s' = put_caller (set_fd i (mkUfd id 0) t) (set_fs x s)
          else r = Ret (-1) ∧ s' = set_fs x s
      | None => r = Ret (-1) ∧ s' = set_fs x s
      end) s.
Proof.
  intros Ht Hfds Hok. apply (wp_bind_assoc (fs_call (Tmpfs.lookup path))).
  wp_step. wp_use wp_open_node; [done|]. intros id s1 Hs1.
  pose proof (open_node_ok (fs s) path flags Hok) as Hok'.
  destruct (open_node (fs s) path flags) as [id' x]. cbn in Hok'. apply pair_eq in Hs1 as [-> ->].
  wp_step.
  eapply (wp_mono _ (λ ty s', s' = set_fs x s ∧
    (ty =? Tmpfs.VN_FILE) = (0 <=? id') && (Tmpfs.node_typ x id' =? Tmpfs.VN_FILE))).
  { rewrite Z.leb_antisym. destruct (id' <? 0); [by wp_run|]. apply wp_fs_call.
    wp_use wp_node_type; [done|]. by intros ty x' [-> ->]. }
  intros ty s' [-> Hty]. rewrite Hty.
  destruct ((0 <=? id') && _); cbn [negb]; [|wp_run; split; [done|by destruct (free_fd t)]].
  wp_use (wp_take_fd (set_fs x s) t); [done|done|]. intros r s' Hr.
  split; [done|by destruct (free_fd t)].
Qed.

(** C19: [open] resolves the path against the caller's directory, creates an
    empty file exactly when nothing is there and O_CREAT is given, and for a
    file hands out the lowest closed descriptor, positioned at 0; for
    anything else, or when all five are open, it answers -1.  Nothing but that
    descriptor and the created file changes. *)
Theorem open_lowest_fd s t f arg :
  caller s t → zlen (cwd t) = CWD_LEN → zlen (fds t) = UFD_MAX → Tmpfs.fs_ok (fs s) →
  bad_uaddr (rdi f) = false → user_string s (rdi f) arg → zlen arg < 256 →
  wp (sys_open f) (λ r s',
    let '(id, x) := open_node (fs s) (path_of (cwd_str t) arg) (i32 (rsi f)) in
    Tmpfs.fs_ok x ∧
    match free_fd t with
    | Some i =>
        if (0 <=? id) && (Tmpfs.node_typ x id =? Tmpfs.VN_FILE)
        then r = Ret i ∧ s' = put_caller (set_fd i (mkUfd id 0) t) (set_fs x s)
        else r = Ret (-1) ∧ s' = set_fs x s
    | None => r = Ret (-1) ∧ s' = set_fs x s
    end) s.
Proof.
  intros Ht Hcwd Hfds Hok Hbad Hstr Hl. unfold sys_open. wp_step.
  wp_use wp_path_arg; [done..|]. intros r s' [-> ->]. by apply wp_open_path.
Qed.
End files.

(** ** Reading and writing open files *)
Section fileio.
Context {P : Type} `{PageAllocatorLaws P}.
Implicit Types s : kern P.

Record open_at (t : thread) (fd : Z) (u : ufd) : Prop := {
  oa_fd : UFD_FIRST ≤ fd < UFD_MAX;
  oa_get : zget (fds t) fd = Some u;
  oa_node : 0 ≤ node u;
}.

Lemma wp_fd_get s t fd u (Q : option ufd → kern P → Prop) :
  open_at t fd u → Q (Some u) s → wp (fd_get t (u64 fd)) Q s.
Proof.
  intros [Hfd Hget Hn] HQ. unfold UFD_FIRST, UFD_MAX in Hfd. unfold fd_get.
  rewrite u64_id by lia. unfold UFD_FIRST, UFD_MAX.
  rewrite (proj2 (Z.leb_le 3 fd)), (proj2 (Z.ltb_lt fd 8)) by lia. cbn [andb negb].
  wp_run. apply wp_of_option. exists u. split; [done|].
  rewrite (proj2 (Z.geb_le _ 0)) by lia. by wp_run.
Qed.

Lemma put_caller_id s t : caller s t → put_caller t s = s.
Proof.
  intros Ht. unfold put_caller. rewrite (zset_id _ _ _ Ht). by destruct s as [[] ? ? ?].
Qed.
Lemma set_fd_id t fd u : zget (fds t) fd = Some u → set_fd fd u t = t.
Proof. intros Hu. unfold set_fd. rewrite (zset_id _ _ _ Hu). by destruct t. Qed.

(** The descriptor moved on by [n] bytes. *)
Definition advance (fd : Z) (u : ufd) (n : Z) (t : thread) : thread :=
  set_fd fd (mkUfd (node u) (pos u + n)) t.

Lemma wp_advance s t fd u n r :
  caller s t → open_at t fd u → 0 ≤ n → 0 ≤ pos u → pos u + n < 2 ^ 64 →
  wp ((if n >? 0 then update_current (set_fd fd (mkUfd (node u) (u64 (pos u + n))))
       else mret tt);; mret (Ret r))
     (λ r' s', r' = Ret r ∧ s' = put_caller (advance fd u n t) s) s.
Proof.
  intros Ht Ho Hn Hp Hlt. rewrite Z.gtb_ltb. destruct (Z.ltb_spec 0 n).
  - rewrite u64_id by lia. wp_step. eapply wp_update_current; [exact Ht|]. by wp_run.
  - assert (n = 0) as -> by lia. wp_run. split; [done|]. unfold advance.
    rewrite Z.add_0_r. rewrite set_fd_id by (destruct u; apply Ho). by rewrite put_caller_id.
Qed.

(** [write] to an open file, up to the call of the file system. *)
Lemma wp_write_fd s t f fd u data (Q : sys_result → kern P → Prop) :
  caller s t → i32 (rdi f) = fd → open_at t fd u →
  rdx f = zlen data → zlen data ≤ 2 ^ 20 → user_at s (rsi f) data →
  (bad_uaddr (rsi f) = true → data = []) →
  wp (n ← fs_call (Tmpfs.node_write (node u) (pos u) data);
      (if n >? 0 then update_current (set_fd fd (mkUfd (node u) (u64 (pos u + n)))) else mret tt);;
      mret (Ret n)) Q s →
  wp (sys_write f) Q s.
Proof.
  intros Ht Hfd Ho Hlen Hmax Hu Hbad HQ. pose proof (zlen_nonneg data) as Hl0.
  pose proof (oa_fd _ _ _ Ho) as Hr. unfold UFD_FIRST, UFD_MAX in Hr.
  unfold sys_write. rewrite Hfd, Hlen.
  assert (bad_uaddr (rsi f) && (zlen data >? 0) = false) as ->.
  { destruct (bad_uaddr (rsi f)); [|done]. by rewrite Hbad. }
  change (Z.shiftl 1 20) with (2 ^ 20). rewrite (Z.gtb_ltb _ (2 ^ 20)), (proj2 (Z.ltb_ge (2 ^ 20) _)) by lia. cbv zeta.
  rewrite (proj2 (Z.eqb_neq fd 1)), (proj2 (Z.eqb_neq fd 2)) by lia. cbn [orb].
  wp_step. eapply wp_current; [exact Ht|]. wp_step. eapply wp_fd_get; [exact Ho|]. cbv iota.
  wp_step. wp_use wp_uread_bytes; [exact Hu|unfold zlen; lia|]. intros d s1 [-> ->]. exact HQ.
Qed.

(** C17: [write] to an open file puts the user's bytes into the file at the
    descriptor's position, growing it, and moves the position past them; no
    other file and nothing else of the kernel's state changes.  It answers -1,
    and changes nothing, only when the position is past the end or the pool is
    full. *)
Theorem write_at_position s t f fd u data old :
  caller s t → Tmpfs.fs_ok (fs s) → i32 (rdi f) = fd → open_at t fd u → 0 ≤ pos u →
  Tmpfs.file_data (fs s) (node u) = Some old →
  rdx f = zlen data → zlen data ≤ 2 ^ 20 → user_at s (rsi f) data →
  (bad_uaddr (rsi f) = true → data = []) →
  wp (sys_write f) (λ r s',
    (r = Ret (-1) ∧ s' = s ∧
      (zlen old < pos u ∨
       zlen old < pos u + zlen data ∧ Tmpfs.TN_POOL < Tmpfs.pool_used (fs s) + pos u + zlen data)) ∨
    (r = Ret (zlen data) ∧ ∃ x,
      s' = put_caller (advance fd u (zlen data) t) (set_fs x s) ∧
      Tmpfs.fs_ok x ∧ Tmpfs.same_tree (fs s) x ∧
      Tmpfs.file_data x (node u) = Some (splice old (pos u) data) ∧
      ∀ j, j ≠ node u → Tmpfs.file_data x j = Tmpfs.file_data (fs s) j)) s.
Proof.
  intros Ht Hok Hfd Ho Hpos Hold Hlen Hmax Hu Hbad. pose proof (zlen_nonneg data) as Hl0.
  eapply wp_write_fd; [done..|].
  wp_step. apply wp_fs_call.
  wp_use Tmpfs.wp_node_splice; [done|done|unfold Tmpfs.buf_ok; lia|exact Hold|].
  intros n x (Hx & Htree & Hcase). pose proof (zlen_nonneg old).
  destruct ((zlen old <? pos u) || _) eqn:Hrefused.
  - destruct Hcase as [-> ->]. rewrite set_fs_id. wp_run. left. split_and!; [done|done|].
    apply orb_true_iff in Hrefused as [Hr1%Z.ltb_lt|[Hr1%Z.ltb_lt Hr2%Z.ltb_lt]%andb_true_iff];
      [by left|by right].
  - apply orb_false_iff in Hrefused as [Hr1%Z.ltb_ge _].
    pose proof (Tmpfs.file_data_len (fs s) (node u) old Hok Hold) as Hlen'.
    unfold Tmpfs.TN_POOL in Hlen'. destruct Hcase as (-> & Hnew & Hothers).
    wp_use (wp_advance (set_fs x s) t); [done|exact Ho|lia..|].
    intros r s' [-> ->]. right. split; [done|]. exists x. by split_and!.
Qed.

(** The transfer of [read]. *)
Lemma wp_read_transfer s t fd u old buf len :
  caller s t → Tmpfs.fs_ok (fs s) → open_at t fd u → 0 ≤ pos u < 2 ^ 64 →
  Tmpfs.file_data (fs s) (node u) = Some old → Forall (λ b, 0 ≤ b < 2 ^ 8) old →
  0 ≤ len < 2 ^ 63 → memory_ok s →
  let got := slice (pos u) (Z.min len (zlen old - pos u)) old in
  writable s buf (zlen got) →
  wp (r ← fs_call (Tmpfs.node_read (node u) (pos u) (replicate (Z.to_nat len) 0));
      let '(n, out) := r in
      uwrite_bytes buf (slice 0 n out);;
      (if n >? 0 then update_current (set_fd fd (mkUfd (node u) (u64 (pos u + n)))) else mret tt);;
      mret (Ret n))
    (λ r s', r = Ret (zlen got) ∧ ∃ m',
      wrote s buf got m' ∧ s' = put_caller (advance fd u (zlen got) t) (set_mem m' s)) s.
Proof.
  intros Ht Hok Ho Hpos Hold Hbytes Hlen Hm got Hw.
  pose proof (Tmpfs.file_data_len (fs s) (node u) old Hok Hold) as Hlen'.
  pose proof (zlen_nonneg got) as Hg0. unfold Tmpfs.TN_POOL in Hlen'.
  assert (zlen (replicate (Z.to_nat len) 0) = len) as Hrl by (rewrite zlen_replicate; lia).
  wp_step. apply wp_fs_call.
  wp_use Tmpfs.wp_node_read; [done|lia|unfold Tmpfs.buf_ok; lia|].
  intros [n out] x [-> Hrd]. rewrite set_fs_id. unfold Tmpfs.read_spec in Hrd.
  rewrite Hold, Hrl in Hrd. fold got in Hrd. injection Hrd as -> ->. cbv iota zeta.
  assert (slice 0 (zlen got) (got ++ drop (length got) (replicate (Z.to_nat len) 0)) = got)
    as -> by (unfold slice, zlen; simpl; by rewrite drop_0, Nat2Z.id, take_app_length).
  wp_step. wp_use wp_uwrite_bytes; [done|done|by apply Forall_take, Forall_drop|].
  intros [] s1 (m' & -> & W).
  assert (pos u + zlen got ≤ Z.max (pos u) (zlen old)) as Hadv.
  { unfold got, slice, zlen in *. rewrite length_take, length_drop. lia. }
  wp_use (wp_advance (set_mem m' s) t); [done|exact Ho|lia|lia|lia|].
  intros r s' [-> ->]. split; [done|]. by exists m'.
Qed.

(** C18: [read] from an open file delivers the bytes at the descriptor's
    position, as many as were asked for and are there, to the user's buffer,
    moves the position past them, and changes nothing else: not the file
    system, and no other byte of the caller's memory. *)
Theorem read_at_position s t f fd u old :
  caller s t → Tmpfs.fs_ok (fs s) → i32 (rdi f) = fd → open_at t fd u → 0 ≤ pos u < 2 ^ 64 →
  Tmpfs.file_data (fs s) (node u) = Some old → Forall (λ b, 0 ≤ b < 2 ^ 8) old →
  0 ≤ rdx f < 2 ^ 63 → bad_uaddr (rsi f) = false → memory_ok s →
  let got := slice (pos u) (Z.min (rdx f) (zlen old - pos u)) old in
  writable s (rsi f) (zlen got) →
  wp (sys_read f) (λ r s', r = Ret (zlen got) ∧ ∃ m',
    wrote s (rsi f) got m' ∧
    s' = put_caller (advance fd u (zlen got) t) (set_mem m' s)) s.
Proof.
  intros Ht Hok Hfd Ho Hpos Hold Hbytes Hlen Hbad Hm got Hw.
  pose proof (oa_fd _ _ _ Ho) as Hr. unfold UFD_FIRST, UFD_MAX in Hr.
  unfold sys_read. rewrite Hfd, Hbad. rewrite (proj2 (Z.eqb_neq fd 0)) by lia. cbv zeta.
  wp_step. eapply wp_current; [exact Ht|]. wp_step. eapply wp_fd_get; [exact Ho|].
  by eapply wp_read_transfer.
Qed.
End fileio.

(** ** The heap *)
Section heap.
Context {P : Type} `{PageAllocatorLaws P}.
Implicit Types s : kern P.

Definition HEAP_BASE : Z := 0x600000000000.
Definition HEAP_LIMIT : Z := HEAP_BASE + Z.shiftl 64 20.

Definition set_vm (v : Vmm.vmm P) s : kern P := set_sc (Sched.set_vm v (sc s)) s.
Definition vm s : Vmm.vmm P := Sched.vm (sc s).
Lemma set_vm_id s : set_vm (vm s) s = s.
Proof. by destruct s as [[] ? ? ?]. Qed.

Lemma wp_vm_call {A} (m : M (Vmm.vmm P) A) s (Q : A → kern P → Prop) :
  wp m (λ r v, Q r (set_vm v s)) (vm s) → wp (vm_call m) Q s.
Proof. intros Hm. unfold vm_call, sched_call, Sched.vm_call. by do 2 wp_step. Qed.

Lemma page_up_spec x :
  0 ≤ x < 2 ^ 63 →
  page_up x mod PAGE_SIZE = 0 ∧ x ≤ page_up x < x + PAGE_SIZE.
Proof.
  intros Hx. unfold page_up. rewrite u64_id by (unfold PAGE_SIZE; lia).
  rewrite page_down_spec by (unfold PAGE_SIZE; lia). unfold PAGE_SIZE. dlia.
Qed.

Definition heap_flags : Z := Z.lor (Z.lor Vmm.PTE_US Vmm.PTE_RW) Vmm.PTE_NX.
(** [lo, va) is mapped, writable and zero, not executable. *)
Definition grown (space lo va : Z) (v0 v : Vmm.vmm P) : Prop :=
  UserMem.zero_pages space lo va heap_flags v0 v.

Lemma wp_sbrk_step space newb lo va v0 s :
  grown space lo va v0 (vm s) → lo ≤ va → va mod PAGE_SIZE = 0 → 0 ≤ va < 2 ^ 47 - PAGE_SIZE →
  wp (sbrk_step space newb va) (λ r s', ∃ v, s' = set_vm v s ∧
    match r with
    | inl va' => va < newb ∧ va' = va + PAGE_SIZE ∧ grown space lo va' v0 v
    | inr true => newb ≤ va ∧ v = vm s
    | inr false => va < newb ∧ grown space lo va v0 v ∧ ∀ b, ¬ avail (Vmm.allocator v) b
    end) s.
Proof.
  intros Hg Hlo Hal Hva. unfold sbrk_step. destruct (Z.ltb_spec va newb) as [Hlt|Hge].
  2: { wp_run. exists (vm s). by rewrite set_vm_id. }
  wp_step. apply wp_vm_call.
  pose proof (UserMem.zp_ok _ _ _ _ _ _ Hg).
  wp_use UserMem.wp_fresh_page; [done|unfold UserMem.low_half, PAGE_SIZE in *; lia|done|done|].
  intros ok v Hadd. wp_run. exists v. split; [done|].
  destruct ok.
  - rewrite u64_id by (unfold PAGE_SIZE in *; lia). split_and!; [done|done|].
    eapply UserMem.zero_pages_more; [exact Hg|done|done|unfold UserMem.low_half, PAGE_SIZE in *; lia|done].
  - split_and!; [done|by eapply UserMem.zero_pages_stop|exact (UserMem.pa_fail _ _ _ _ _ _ Hadd eq_refl)].
Qed.

Lemma wp_sbrk_loop s space old newb :
  UserMem.data_ok space (vm s) → 0 ≤ old < newb → newb < 2 ^ 47 - 2 * PAGE_SIZE →
  wp (loop (S (Z.to_nat ((newb - page_up old) / PAGE_SIZE + 1))) (sbrk_step space newb)
        (page_up old))
     (λ ok s', ∃ v va, s' = set_vm v s ∧ page_up old ≤ va ≤ page_up newb ∧
        grown space (page_up old) va (vm s) v ∧
        if ok : bool then va = page_up newb
        else va < newb ∧ ∀ b, ¬ avail (Vmm.allocator v) b) s.
Proof.
  intros Hd Hold Hnew.
  destruct (page_up_spec old) as [Hal Hup]; [unfold PAGE_SIZE in *; lia|].
  destruct (page_up_spec newb) as [Haln Hupn]; [unfold PAGE_SIZE in *; lia|].
  assert (page_up old ≤ page_up newb) as Hle.
  { clear -Hal Haln Hup Hupn Hold. unfold PAGE_SIZE in *. dlia. }
  apply (wp_loop (λ va s', ∃ v, s' = set_vm v s ∧
      page_up old ≤ va ≤ page_up newb ∧ va mod PAGE_SIZE = 0 ∧
      grown space (page_up old) va (vm s) v)
    (λ va, Z.to_nat ((newb - va) / PAGE_SIZE + 1))).
  - exists (vm s). rewrite set_vm_id. split_and!; [done|lia|lia|done|].
    by apply UserMem.zero_pages_none.
  - lia.
  - intros va s' (v & -> & Hva & Hvm & Hg).
    wp_use (wp_sbrk_step space newb (page_up old) va (vm s) (set_vm v s));
      [exact Hg|lia|done|unfold PAGE_SIZE in *; lia|].
    intros [va'|[]] s2 (v2 & -> & Hr).
    + destruct Hr as (Hlt & -> & Hg2).
      assert (va + PAGE_SIZE ≤ page_up newb) as Hn2.
      { clear -Hvm Haln Hlt Hupn. unfold PAGE_SIZE in *. dlia. }
      split.
      2: { replace (newb - va) with (newb - (va + PAGE_SIZE) + 1 * PAGE_SIZE) by lia.
           rewrite Z.div_add by done. assert (-1 ≤ (newb - (va + PAGE_SIZE)) / PAGE_SIZE); [|lia].
           apply Z.div_le_lower_bound; unfold PAGE_SIZE; lia. }
      exists v2. split_and!; [done|unfold PAGE_SIZE; lia|done| |done].
      rewrite <- Zplus_mod_idemp_r, Z.mod_same, Z.add_0_r by done. done.
    + destruct Hr as [Hge ->]. exists v, va. split_and!; [done|lia|lia|done|].
      clear -Hva Hvm Haln Hge Hupn. unfold PAGE_SIZE in *. dlia.
    + destruct Hr as (Hlt & Hg2 & Hno). exists v2, va. by split_and!; [|lia|lia|..].
Qed.

(** C20: growing the heap: [sbrk(n)] returns the old break and moves it up by
    [n]; the pages between the two breaks are mapped writable, not executable,
    and read as zeroes, and no other address of the process changed.  When memory runs out the break stays, the pages
    mapped so far stay mapped, and the answer is the old break less one (not
    a negative number). *)
Theorem sbrk_grows_heap s t f :
  caller s t → UserMem.data_ok (space t) (vm s) → HEAP_BASE ≤ brk t →
  let n := i64 (rdi f) in
  let newb := brk t + n in
  0 < n → newb ≤ HEAP_LIMIT →
  wp (sys_sbrk f) (λ r s', ∃ v va,
    page_up (brk t) ≤ va ≤ page_up newb ∧ grown (space t) (page_up (brk t)) va (vm s) v ∧
    ((r = Ret (brk t) ∧ va = page_up newb ∧ s' = put_caller (with_brk newb t) (set_vm v s)) ∨
     (r = Ret (brk t - 1) ∧ va < newb ∧ (∀ b, ¬ avail (Vmm.allocator v) b) ∧
      s' = set_vm v s))) s.
Proof.
  intros Ht Hd Hbase n newb Hn Hlim.
  change HEAP_LIMIT with (105553183375360) in Hlim. change HEAP_BASE with 105553116266496 in Hbase.
  assert (brk t < newb < 2 ^ 47) as Hnb by (unfold newb; lia).
  unfold sys_sbrk. wp_step. eapply wp_current; [exact Ht|]. cbv zeta. fold n.
  rewrite (proj2 (Z.eqb_neq n 0)) by lia. rewrite (i64_id (brk t)) by lia.
  fold newb. rewrite !u64_id by lia. rewrite (proj2 (Z.ltb_ge newb _)) by lia. cbn [orb].
  rewrite Z.gtb_ltb, (proj2 (Z.ltb_ge _ (newb - _))) by (change (Z.shiftl 64 20) with 67108864; lia).
  wp_step. wp_use wp_sbrk_loop; [done|lia|unfold PAGE_SIZE; lia|].
  intros ok s' (v & va & -> & Hva & Hg & Hr). destruct ok; cbn [negb].
  - subst va. wp_step. eapply wp_update_current; [exact Ht|]. wp_run.
    exists v, (page_up newb). split_and!; [lia|lia|done|]. by left.
  - wp_run. exists v, va. rewrite i64_id by lia. destruct Hr.
    split_and!; [lia|lia|done|]. by right.
Qed.
End heap.

(** *** A process with one page at 4 MiB

    The page is built by [fresh_page] in the tree of [demo_vmm], and [bs] is
    then stored in its frame. *)
Definition demo_va : Z := 0x400000.
Definition demo_flags : Z := Z.lor (Z.lor Vmm.PTE_US Vmm.PTE_RW) Vmm.PTE_NX.
Definition demo_paged : Vmm.vmm Pmm.pmm :=
  match UserMem.fresh_page 32768 demo_va demo_flags Vmm.demo_vmm with
  | Done (_, v) => v
  | _ => Vmm.demo_vmm
  end.
Definition demo_entry : Z :=
  default 0 (Vmm.lookup_page (Vmm.phys demo_paged) 32768 demo_va).
Definition demo_memory (bs : list Z) : memory :=
  store_bytes (Vmm.phys demo_paged) (UserMem.page_frame demo_entry) bs.
(** Directory "/", descriptor 3 open on node 2 at 1, an empty heap. *)
Definition demo_thread : thread :=
  with_brk HEAP_BASE (set_fd 3 (mkUfd 2 1) (set_cwd [47]
    (mkThread 0 (c_array NAME_LEN [97]) Runnable zero_frame 32768 0 0 true
       (fds zeroed) (cwd zeroed) 0 0 (-1)))).
Definition demo_kern (bs : list Z) : kern Pmm.pmm :=
  set_mem (demo_memory bs) (put_caller demo_thread
    (mkKern (booted 0 demo_paged) Tmpfs.demo_fs Kbd.demo_kbd [])).
Definition demo_call (di si dx : Z) : frame :=
  mkFrame 0 0 0 0 0 0 0 0 0 di si dx 0 0 0 0 0 0 0 0 0 0.

Lemma demo_paged_ok : UserMem.data_ok 32768 demo_paged.
Proof.
  pose proof (UserMem.wp_fresh_page 32768 demo_va demo_flags Vmm.demo_vmm
    UserMem.demo_data_ok) as W.
  unfold wp in W. unfold demo_paged.
  destruct (UserMem.fresh_page 32768 demo_va demo_flags Vmm.demo_vmm) as [[ok v]| |].
  - apply W; done.
  - by apply UserMem.demo_data_ok.
  - by apply UserMem.demo_data_ok.
Qed.

Lemma demo_has_entry :
  Vmm.lookup_page (Vmm.phys demo_paged) 32768 demo_va = Some demo_entry ∧
  Vmm.has demo_entry Vmm.PTE_RW = true.
Proof. split; vm_compute; reflexivity. Qed.

Section demo.
Context (bs : list Z).
Hypothesis Hbytes : Forall (λ b, 0 ≤ b < 2 ^ 8) bs.
Hypothesis Hlen : zlen bs ≤ PAGE_SIZE.

Lemma demo_written :
  UserMem.data_ok 32768 (Vmm.set_phys (demo_memory bs) demo_paged) ∧
  (∀ x, Vmm.lookup_page (demo_memory bs) 32768 x = Vmm.lookup_page (Vmm.phys demo_paged) 32768 x) ∧
  ∀ x, UserMem.low_half x → UserMem.user_byte (demo_memory bs) 32768 x =
    if decide (UserMem.same_page x demo_va)
    then Some (demo_memory bs (UserMem.page_frame demo_entry + x mod PAGE_SIZE))
    else UserMem.user_byte (Vmm.phys demo_paged) 32768 x.
Proof.
  apply UserMem.write_page; [exact demo_paged_ok|by split|apply demo_has_entry| |].
  - apply mem_ok_store_bytes; [apply demo_paged_ok|done].
  - intros x Hx. apply store_bytes_out. lia.
Qed.

Lemma demo_caller : caller (demo_kern bs) demo_thread.
Proof. unfold caller. by vm_compute. Qed.
Lemma demo_space : active_space (demo_kern bs) = 32768.
Proof. by vm_compute. Qed.
Lemma demo_memory_ok : memory_ok (demo_kern bs).
Proof. unfold memory_ok. rewrite demo_space. apply demo_written. Qed.
Lemma demo_bytes i : 0 ≤ i < PAGE_SIZE →
  UserMem.low_half (demo_va + i) ∧ UserMem.same_page (demo_va + i) demo_va ∧
  (demo_va + i) mod PAGE_SIZE = i.
Proof.
  intros Hi. unfold UserMem.low_half, UserMem.same_page, demo_va, PAGE_SIZE in *.
  split_and!; dlia.
Qed.
Lemma demo_user_at : user_at (demo_kern bs) demo_va bs.
Proof.
  intros i b Hb. pose proof (zget_Some_lt _ _ _ Hb) as Hi. rewrite demo_space.
  destruct (demo_bytes i) as (Hlow & Hs & Hm); [lia|].
  change (mem (demo_kern bs)) with (demo_memory bs).
  destruct demo_written as (_ & _ & Hw). rewrite Hw by done. rewrite decide_True by done.
  rewrite Hm. f_equal. by apply store_bytes_in.
Qed.
Lemma demo_writable n : n ≤ PAGE_SIZE → writable (demo_kern bs) demo_va n.
Proof.
  intros Hn x Hx. destruct (demo_bytes (x - demo_va)) as (Hlow & Hs & _); [lia|].
  rewrite Zplus_minus in Hlow, Hs. split; [done|]. exists demo_entry.
  unfold user_entry. rewrite demo_space.
  rewrite (UserMem.lookup_same_page _ _ demo_va) by done.
  change (mem (demo_kern bs)) with (demo_memory bs).
  destruct demo_written as (_ & Hl & _). rewrite Hl. apply demo_has_entry.
Qed.
End demo.

Ltac demo_side := first [done | by vm_compute | lia].

(** "/d/f" is open at 1: the two bytes [7; 8] go there. *)
Lemma write_at_position_witness :
  wp (sys_write (demo_call 3 demo_va 2)) (λ r s',
    r = Ret 2 ∧ Tmpfs.file_data (fs s') 2 = Some [1; 7; 8]) (demo_kern [7; 8]).
Proof.
  assert (Forall (λ b, 0 ≤ b < 2 ^ 8) [7; 8]) as Hb by (by repeat constructor).
  eapply wp_mono; [apply (write_at_position (demo_kern [7; 8]) demo_thread
    (demo_call 3 demo_va 2) 3 (mkUfd 2 1) [7; 8] [1; 2; 3])|].
  - by apply demo_caller.
  - apply Tmpfs.demo_ok.
  - by vm_compute.
  - by split.
  - done.
  - exact Tmpfs.demo_file.
  - done.
  - done.
  - by apply demo_user_at.
  - done.
  - intros r s' [(_ & _ & [Hbad|[Hbad _]])|(-> & x & -> & _ & _ & Hx & _)];
      [by vm_compute in Hbad..|done].
Defined.

(** Two of the bytes of "/d/f" from position 1. *)
Lemma read_at_position_witness :
  wp (sys_read (demo_call 3 demo_va 16)) (λ r s', r = Ret 2 ∧ user_at s' demo_va [2; 3])
    (demo_kern []).
Proof.
  assert (Forall (λ b, 0 ≤ b < 2 ^ 8) []) as Hb by constructor.
  eapply wp_mono; [apply (read_at_position (demo_kern []) demo_thread
    (demo_call 3 demo_va 16) 3 (mkUfd 2 1) [1; 2; 3])|].
  - by apply demo_caller.
  - apply Tmpfs.demo_ok.
  - by vm_compute.
  - by split.
  - done.
  - exact Tmpfs.demo_file.
  - by repeat constructor.
  - done.
  - done.
  - by apply demo_memory_ok.
  - by apply demo_writable.
  - intros r s' (-> & m' & W & ->). split; [done|]. intros i b Hib.
    pose proof (zget_Some_lt _ _ _ Hib) as Hi. change (zlen [2; 3]) with 2 in Hi.
    destruct (demo_bytes i) as (Hlow & _); [unfold PAGE_SIZE; lia|].
    pose proof (wr_bytes _ _ _ _ (demo_va + i) W Hlow) as E. cbn [rsi demo_call] in E.
    rewrite Z.add_simpl_l in E.
    change (zget (slice _ _ [1; 2; 3]) i) with (zget [2; 3] i) in E. by rewrite Hib in E.
Defined.

(** The heap grows by one page and a byte: two pages. *)
Lemma sbrk_grows_heap_witness :
  wp (sys_sbrk (demo_call 4097 0 0)) (λ r s', ∃ v,
    r = Ret HEAP_BASE ∧ s' = put_caller (with_brk (HEAP_BASE + 4097) demo_thread)
                               (set_vm v (demo_kern [])) ∧
    UserMem.user_byte (Vmm.phys v) 32768 (HEAP_BASE + 8191) = Some 0 ∨ r = Ret (HEAP_BASE - 1))
    (demo_kern []).
Proof.
  assert (Forall (λ b, 0 ≤ b < 2 ^ 8) []) as Hb by constructor.
  eapply wp_mono; [apply (sbrk_grows_heap (demo_kern []) demo_thread (demo_call 4097 0 0))|].
  - by apply demo_caller.
  - by apply demo_written.
  - done.
  - done.
  - done.
  - intros r s' (v & va & Hva & Hg & [(-> & -> & ->)|(-> & _ & _ & ->)]); exists v; [left|by right].
    split_and!; [done|done|]. change 32768 with (space demo_thread).
    rewrite (UserMem.zp_bytes _ _ _ _ _ _ Hg) by done. by vm_compute.
Defined.

(** "d/f" opened from "/": descriptor 4. *)
Lemma open_lowest_fd_witness :
  wp (sys_open (demo_call demo_va 0 0)) (λ r s', r = Ret 4) (demo_kern [100; 47; 102; 0]).
Proof.
  assert (Forall (λ b, 0 ≤ b < 2 ^ 8) [100; 47; 102; 0]) as Hb by (by repeat constructor).
  eapply wp_mono; [apply (open_lowest_fd (demo_kern [100; 47; 102; 0]) demo_thread
    (demo_call demo_va 0 0) [100; 47; 102])|].
  - by apply demo_caller.
  - by vm_compute.
  - done.
  - apply Tmpfs.demo_ok.
  - done.
  - split; [by repeat constructor|]. by apply (demo_user_at [100; 47; 102; 0]).
  - done.
  - intros r s'. change (fs (demo_kern _)) with Tmpfs.demo_fs.
    replace (open_node _ _ _) with (2, Tmpfs.demo_fs) by (by vm_compute).
    replace (free_fd demo_thread) with (Some 4) by (by vm_compute).
    replace ((0 <=? 2) && _) with true by (by vm_compute). by intros (_ & -> & _).
Defined.

(** ** [chdir] after ".."

    Dropping a component leaves its separator behind: "/a/b/../.." becomes
    "/a/", where the path resolves to "/", and "/a/b/../c" becomes "/a//c". *)
Definition p_up_up : list Z := [47; 97; 47; 98; 47; 46; 46; 47; 46; 46].
Definition p_up_c : list Z := [47; 97; 47; 98; 47; 46; 46; 47; 99].

Example chdir_drops_one_component :
  match rebuild p_up_up (demo_kern []), rebuild p_up_c (demo_kern []) with
  | Done (Some a, _), Done (Some b, _) => buf_str a = [47; 97; 47] ∧ buf_str b = [47; 97; 47; 47; 99]
  | _, _ => False
  end.
Proof. split; vm_compute; reflexivity. Qed.
End SyscallSpec.
