(* ===== verification/Machine.v ===== *)
(** * Boot and interrupts ([kernel-rs/src/main.rs], [idt.rs])

    [kernel_main] is the boot sequence from the loader's answers to the serial
    loop, [isr_handler] what an interrupt does, over the state of the whole
    kernel.  Interrupts are not taken while [kernel_main] runs. *)
From S2P Require Import Prelude Lines PageAlloc Pmm Mem Vmm Tmpfs Initrd Sched Ring Vterm Kbd Surface Font Dirty Mouse Fb Desk Desc.
From S2P Require Import Kernel Proc Wm Shell Syscall.

Module Machine.
Import Lines.

(** What the loader answers to the requests of [limine.rs]; [Limine] reads it
    from memory. *)
Record limine := mkLimine {
  memmap_response : option (list Pmm.memmap_entry);
  hhdm_response : option Z;
  framebuffer_response : option (list Fb.fb_info);
  module_response : option (list (list Z));
}.
(** The embedded executable, and where the linker puts things: code that runs
    as threads, the interrupt stubs, the TSS, the end of [BOOT_IRQ_STACK]. *)
Record image := mkImage {
  HELLO_ELF : list Z;
  kthread_trampoline : Z; ta : Z; tb : Z; shell_main : Z; compositor_thread : Z;
  isr_stub_table : list Z; isr_stub_128 : Z;
  TSS : Z; BOOT_IRQ_STACK : Z;
}.

(** [eois]: the end-of-interrupt commands sent so far. *)
Record machine (P : Type) := mkMachine {
  gui : Wm.wm P;
  GDT : list Z;
  IDT : list Desc.idt_entry;
  pics : Desc.pic;
  eois : list (Z * Z);
}.
Arguments mkMachine {P}.
Arguments gui {P}.
Arguments GDT {P}.
Arguments IDT {P}.
Arguments pics {P}.
Arguments eois {P}.

Section setters.
Context {P : Type}.
Implicit Types m : machine P.
Definition set_gui (g : Wm.wm P) m := mkMachine g (GDT m) (IDT m) (pics m) (eois m).
Definition set_gdt (l : list Z) m := mkMachine (gui m) l (IDT m) (pics m) (eois m).
Definition set_idt (l : list Desc.idt_entry) m := mkMachine (gui m) (GDT m) l (pics m) (eois m).
Definition set_pics (p : Desc.pic) m := mkMachine (gui m) (GDT m) (IDT m) p (eois m).
Definition send_eoi (irq : Z) m := mkMachine (gui m) (GDT m) (IDT m) (pics m) (eois m ++ Desc.eoi irq).
Definition kern_of m : Kernel.kern P := Wm.sys (gui m).

Definition gui_call {A} (c : M (Wm.wm P) A) : M (machine P) A := zoom gui set_gui c.
Definition kern_call {A} (c : M (Kernel.kern P) A) : M (machine P) A := gui_call (Wm.kern_call c).
Definition sched_call {A} (c : M (Sched.sched P) A) : M (machine P) A := kern_call (Kernel.sched_call c).
Definition vm_call {A} (c : M (Vmm.vmm P) A) : M (machine P) A := kern_call (Kernel.vm_call c).
Definition pic_call (f : Desc.pic → Desc.pic) : M (machine P) unit := modify (λ m, set_pics (f (pics m)) m).
End setters.

(** ** The self tests

    The answer is whether every check held; the code logs it. *)
Definition pmm_selftest : M Pmm.pmm bool :=
  before ← gets Pmm.free_pages;
  a ← Pmm.alloc_page;
  b ← Pmm.alloc_page;
  let ok1 := negb ((a =? 0) || (b =? 0) || (a =? b) || negb (a mod PAGE_SIZE =? 0) || negb (b mod PAGE_SIZE =? 0)) in
  n ← gets Pmm.free_pages;
  let ok2 := n =? u64 (before - 2) in
  Pmm.free_page a;;
  n ← gets Pmm.free_pages;
  let ok3 := n =? u64 (before - 1) in
  run ← Pmm.alloc_pages 4 PAGE_SIZE;
  let ok4 := negb ((run =? 0) || negb (run mod PAGE_SIZE =? 0)) in
  Pmm.free_page b;;
  mret (ok1 && ok2 && ok3 && ok4).

Section kernel.
Context {P : Type} `{PageAllocator P} `{Kernel.PageCounter P}.

Definition SELFTEST_VA : Z := 0x40000000.
Definition SELFTEST_WORD : Z := 0xDEADBEEF12345678.
(** The volatile store goes through the tables in CR3: on an unmapped page it
    faults. *)
Definition store_va (va v : Z) : M (Vmm.vmm P) unit :=
  c ← Vmm.current;
  a ← Vmm.translate c va;
  if a =? 0 then panic else modify (λ s, Vmm.set_phys (store_le 8 (Vmm.phys s) a v) s).
Definition vmm_selftest : M (Vmm.vmm P) bool :=
  pa ← Vmm.pmm_call alloc_page;
  space ← gets Vmm.kernel_space;
  mapped ← Vmm.map space SELFTEST_VA pa Vmm.PTE_RW;
  t ← Vmm.translate space SELFTEST_VA;
  store_va SELFTEST_VA SELFTEST_WORD;;
  d ← gets (λ s, load_le 8 (Vmm.phys s) pa);
  unmapped ← Vmm.unmap space SELFTEST_VA;
  t' ← Vmm.translate space SELFTEST_VA;
  Vmm.pmm_call (free_page pa);;
  mret (mapped && (t =? pa) && (d =? SELFTEST_WORD) && unmapped && (t' =? 0)).

(** Two threads that will count; their answers are ignored. *)
Definition sched_selftest (im : image) : M (Sched.sched P) unit :=
  _ ← Sched.kthread_create (kthread_trampoline im) (str "test-a") (ta im) 0;
  _ ← Sched.kthread_create (kthread_trampoline im) (str "test-b") (tb im) 0;
  mret tt.

(** ** The descriptor tables and the mouse *)
Definition gdt_init (im : image) : M (machine P) unit :=
  modify (set_gdt (Desc.gdt_entries (TSS im)));;
  sched_call (modify (Sched.set_rsp0 (BOOT_IRQ_STACK im))).
Definition idt_init (im : image) : M (machine P) unit :=
  zoom IDT set_idt (Desc.idt_init (isr_stub_table im) (isr_stub_128 im));;
  pic_call Desc.pic_init;;
  pic_call (Desc.unmask 0);;
  pic_call (Desc.unmask 1).
(** After the handshake with the controller. *)
Definition mouse_init : M (machine P) unit :=
  gui_call (modify (λ s, Wm.set_ms
    (Mouse.mkMouse 640 400 (Mouse.BUTTONS (Wm.ms s)) (Mouse.CYCLE (Wm.ms s)) (Mouse.PACKET (Wm.ms s))) s));;
  pic_call (Desc.unmask 2);;
  pic_call (Desc.unmask 12).

(** ** [kernel_main], from the scheduler on *)
Definition set_enabled (b : bool) (s : Sched.sched P) : Sched.sched P :=
  Sched.mkSched (Sched.threads s) (Sched.nr_threads s) (Sched.current_idx s) (Sched.last_slice s)
    (Sched.timer_ticks s) b (Sched.rsp0 s) (Sched.hhdm s) (Sched.vm s).
Definition boot_threads (im : image) : M (machine P) unit :=
  sched_call (Sched.init;; modify (set_enabled true);; sched_selftest im).
Definition boot_files (lm : limine) : M (machine P) Z :=
  kern_call (Kernel.fs_call (Tmpfs.init;; Initrd.unpack (module_response lm))).

Definition INIT : list Z := str "/sbin/init".
(** No initrd, or no [/sbin/init] that can be spawned. *)
Definition fallback (im : image) : M (Kernel.kern P) unit :=
  _ ← Kernel.fs_call (Tmpfs.create (str "/hello.elf") (HELLO_ELF im));
  _ ← Kernel.sched_call (Sched.kthread_create (kthread_trampoline im) (str "shell") (shell_main im) 0);
  _ ← Kernel.sched_call (Proc.spawn_elf (str "hello") (HELLO_ELF im) []);
  mret tt.
Definition boot_user (im : image) (unpacked : Z) : M (machine P) unit :=
  kern_call (
    started ← (if unpacked >? 0 then r ← Proc.spawn_path INIT []; mret (r >=? 0) else mret false);
    if started : bool then mret tt else fallback im).

Definition desktop (lm : limine) (im : image) : M (machine P) unit :=
  r ← gui_call (Wm.fb_call (Fb.init (framebuffer_response lm)));
  if r =? 0 then
    mouse_init;;
    gui_call (Wm.init Font.FONT8X16 (kthread_trampoline im) (compositor_thread im))
  else mret tt.

(** [uart::getc] on what the receiver holds. *)
Definition uart_getc (rx : option Z) : option Z :=
  match rx with
  | None => None
  | Some c => let c := if c =? 13 then 10 else c in Some (if c =? 127 then 8 else c)
  end.
(** One turn of the loop that ends [kernel_main]. *)
Definition serial_turn (rx : option Z) : M (machine P) unit :=
  match uart_getc rx with
  | None => mret tt
  | Some c =>
      up ← kern_call (Kernel.vt_call Vterm.console_up);
      if up : bool then kern_call (Kernel.vt_call (Vterm.push 0 c))
      else kern_call (Kernel.kb_call (Kbd.push_char c))
  end.

(** ** Interrupts *)
Inductive returned :=
  | Iret (f : Sched.frame)
  | InSyscall (d : Syscall.dispatched)
  | Stopped.

(** A system call is over, or waits: its output reaches the windows, and if it
    gave up the processor - [int 32] in [sched_yield] - so is that interrupt. *)
Definition syscall_done (d : Syscall.dispatched) : M (machine P) returned :=
  gui_call Wm.deliver;;
  (match d with Syscall.SwitchTo _ _ => modify (send_eoi 0) | _ => mret tt end);;
  mret (InSyscall d).
(** A thread that waits in a system call runs again. *)
Definition resume (kf f : Sched.frame) (k : Syscall.resume) : M (machine P) returned :=
  d ← kern_call (Syscall.resume_syscall kf f k); syscall_done d.
(** The kernel's shell runs up to the next character. *)
Definition shell_thread (line : list Z) (n : Z) : M (machine P) (option (list Z * Z)) :=
  sink ← gets (λ m, Wm.GUI_UART_SINK (gui m));
  r ← kern_call (Shell.shell_turn sink line n);
  gui_call Wm.deliver;;
  mret r.

(** The line [on_timer] prints once a second. *)
Definition timer_line (ticks : Z) : list Z :=
  str "timer: " ++ dec_u ticks ++ str " ticks (~" ++ dec_u (ticks / 100) ++ str "s)".
(** The line is printed between counting the tick and [sched_tick], neither of
    which it sees. *)
Definition timer_log : M (machine P) unit :=
  ticks ← gets (λ m, u64 (Sched.timer_ticks (Kernel.sc (kern_of m)) + 1));
  if ticks mod 100 =? 0 then gui_call (Wm.klog_info (timer_line ticks)) else mret tt.

(** [byte] is what port 0x60 gives. *)
Definition isr_handler (byte : Z) (kf f : Sched.frame) : M (machine P) returned :=
  let v := Sched.vector f in
  if v =? 0x80 then d ← kern_call (Syscall.syscall_dispatch kf f); syscall_done d
  else if v >=? 32 then
    if v =? 32 then
      timer_log;;
      f ← sched_call (Sched.on_timer f);
      modify (send_eoi 0);;
      mret (Iret f)
    else if v =? 33 then
      kern_call (Kernel.kb_call (Kbd.kbd_on_scancode byte));;
      gui_call Wm.deliver;;
      modify (send_eoi 1);;
      mret (Iret f)
    else if v =? 44 then
      gui_call (w ← Wm.screen_w; h ← Wm.screen_h; zoom Wm.ms Wm.set_ms (Mouse.irq_handler w h byte));;
      modify (send_eoi 12);;
      mret (Iret f)
    else modify (send_eoi (u8 (v - 32)));; mret (Iret f)
  else if v =? 3 then mret (Iret f)
  else mret Stopped.
(** The breakpoint of [kernel_main], with [f] its frame. *)
Definition int3 (f : Sched.frame) : M (machine P) unit :=
  r ← isr_handler 0 f f;
  match r with Iret _ => mret tt | _ => panic end.
End kernel.

(** ** The boot sequence *)
Definition pmm_call {A} (c : M Pmm.pmm A) : M (machine Pmm.pmm) A := vm_call (Vmm.pmm_call c).
(** The scheduler's copy of the HHDM offset is [pmm]'s. *)
Definition boot_memory (lm : limine) : M (machine Pmm.pmm) unit :=
  pmm_call (Pmm.init (memmap_response lm) (hhdm_response lm));;
  off ← pmm_call (gets Pmm.hhdm_offset);
  sched_call (modify (λ s, Sched.mkSched (Sched.threads s) (Sched.nr_threads s) (Sched.current_idx s)
    (Sched.last_slice s) (Sched.timer_ticks s) (Sched.sched_enabled s) (Sched.rsp0 s) off (Sched.vm s)));;
  _ ← pmm_call pmm_selftest;
  vm_call Vmm.init;;
  _ ← vm_call vmm_selftest;
  mret tt.
Definition boot_system (lm : limine) (im : image) (bp : Sched.frame) : M (machine Pmm.pmm) unit :=
  gdt_init im;;
  idt_init im;;
  boot_memory lm;;
  boot_threads im;;
  unpacked ← boot_files lm;
  boot_user im unpacked;;
  int3 bp.
(** Up to the serial loop. *)
Definition kernel_main (lm : limine) (im : image) (bp : Sched.frame) : M (machine Pmm.pmm) unit :=
  boot_system lm im bp;;
  desktop lm im.
End Machine.
