(* ===== verification/Stages.v ===== *)
(** * The stages of boot

    Each stage of [kernel_main] over the state it needs: the self tests, the
    scheduler, the first process.  [kernel_ok] is what they hand on. *)
From S2P Require Import Prelude Lines PageAlloc Pmm Mem Vmm UserMem Teardown Elf Tmpfs Initrd Sched Ring Vterm Kbd Surface Font Dirty Mouse Fb Desk Desc.
From S2P Require Import Kernel Proc Spawn Wm Compose Gui Windows Session Boot Syscall SyscallSpec Machine.

Module Stages.
Import Lines Boot Vmm UserMem Teardown Machine.


(** ** Counting pages *)
Section pages.
Context {P : Type} `{PageAllocatorLaws P}.
Implicit Types (p q : P).

(** At least [n] pages are left. *)
Definition spares (n : nat) p : Prop := ∃ l, NoDup l ∧ (n ≤ length l)%nat ∧ Forall (avail p) l.

Lemma spares_some n p : spares (S n) p → ∃ a, avail p a.
Proof. intros ([|a l] & _ & Hl & Ha); simpl in *; [lia|]. exists a. by inversion Ha. Qed.
Lemma spares_le n m p : (n ≤ m)%nat → spares m p → spares n p.
Proof. intros Hle (l & Hn & Hl & Ha). exists l. split_and!; [done|lia|done]. Qed.
Lemma spares_lose n p q (taken : list Z) :
  spares (n + length taken) p → (∀ b, avail p b → avail q b ∨ b ∈ taken) → spares n q.
Proof.
  intros (l & Hn & Hl & Ha) Hq. exists (list_difference l taken). split_and!.
  - by apply NoDup_list_difference.
  - assert (l ⊆+ list_difference l taken ++ taken) as Hs%submseteq_length.
    { apply NoDup_submseteq; [done|]. intros x Hx. apply elem_of_app.
      destruct (decide (x ∈ taken)); [by right|left; by apply list_elem_of_difference]. }
    rewrite length_app in Hs. lia.
  - apply Forall_forall. intros x [Hx Hnx]%list_elem_of_difference. rewrite Forall_forall in Ha.
    destruct (Hq x); [by apply Ha|done|done].
Qed.
Lemma spares_take n p q a :
  spares (S n) p → (∀ b, avail q b ↔ avail p b ∧ b ≠ a) → spares n q.
Proof.
  intros Hs Hq. apply (spares_lose n p q [a]); [by rewrite Nat.add_1_r|].
  intros b Hb. destruct (decide (b = a)) as [->|Hne]; [right; by left|left; by apply Hq].
Qed.


(** A walk takes a page for each of the three levels it may have to add. *)
Lemma wp_walk_takes space va (s : vmm P) k :
  alloc_inv (allocator s) → spares (3 + k) (allocator s) →
  wp (walk space va true 1) (λ _ s', alloc_inv (allocator s') ∧ spares k (allocator s')) s.
Proof.
  intros Hi Hs. unfold walk.
  apply (wp_loop (λ st s', alloc_inv (allocator s') ∧ 1 ≤ st.2 ≤ 4 ∧ spares (Z.to_nat (st.2 - 1) + k) (allocator s'))
    (λ st, Z.to_nat (st.2))); [split_and!; [done|done|done|exact Hs]|simpl; lia|].
  clear s Hi Hs. intros [tbl lvl] s (Hi & Hl & Hs). simpl in Hl, Hs. unfold walk_step, get_entry, set_entry, zero_table, Vmm.pmm_call.
  assert (spares k (allocator s)) as Hk by (eapply spares_le; [|exact Hs]; lia).
  rewrite Z.gtb_ltb. destruct (Z.ltb_spec 1 lvl) as [Hlt|_]; [|by wp_run].
  assert (spares (S (Z.to_nat (lvl - 1 - 1) + k)) (allocator s)) as Hs1 by (eapply spares_le; [|exact Hs]; lia).
  assert (spares (Z.to_nat (lvl - 1 - 1) + k) (allocator s)) as Hs0 by (eapply spares_le; [|exact Hs]; lia).
  wp_run. destruct (has _ PTE_P); cbn [negb].
  { destruct (_ && _); wp_run; [done|]. cbn. split_and!; [done|lia|lia|done|lia]. }
  wp_run. wp_use alloc_page_law; [done|]. intros a q [Hq [(-> & -> & Hno)|[Hav Hav']]].
  { destruct (spares_some _ _ Hs1) as [b Hb]. by destruct (Hno b). }
  pose proof (spares_take _ _ _ _ Hs1 Hav') as Hs2. destruct (a =? 0); wp_run.
  - split; [done|]. eapply spares_le; [|exact Hs2]. lia.
  - cbn. split_and!; [done|lia|lia|done|lia].
Qed.
Lemma wp_map_takes space va pa flags (s : vmm P) k :
  alloc_inv (allocator s) → spares (3 + k) (allocator s) →
  wp (map space va pa flags) (λ _ s', spares k (allocator s')) s.
Proof.
  intros Hi Hs. unfold map. wp_step. wp_use wp_walk_takes; [done|done|]. intros [t|] s' [_ Hk]; by wp_run.
Qed.

(** *** The self test of the page tables *)
Lemma wp_store_va space va v e (s : vmm P) :
  data_ok space s → Z.land (cr3 s) PTE_ADDR_MASK = space → low_half va → va mod PAGE_SIZE = 0 →
  lookup_page (phys s) space va = Some e → page_frame e ≠ 0 →
  let m := store_le 8 (phys s) (page_frame e) v in
  wp (store_va va v) (λ _ s', s' = set_phys m s ∧ data_ok space s' ∧
    ∀ va', lookup_page m space va' = lookup_page (phys s) space va') s.
Proof.
  intros Hd Hc Hva Hal He Hne m. unfold store_va, current. wp_run. rewrite Hc.
  wp_use wp_translate; [apply Hd|by apply user_va_half|]. intros a s' [-> ->]. rewrite He.
  rewrite page_offset, Hal, Z.add_0_r. fold (page_frame e). rewrite (proj2 (Z.eqb_neq _ 0)) by done. wp_run.
  assert (∀ x, ¬ (page_frame e ≤ x < page_frame e + PAGE_SIZE) → m x = phys s x) as Hout.
  { intros x Hx. apply store_le_out. unfold PAGE_SIZE in Hx. lia. }
  destruct (write_page space va e s m Hd Hva He) as (Hd' & Hl & _); [|exact Hout|].
  { apply mem_ok_store, (so_mem _ _ (do_space _ _ Hd)). }
  done.
Qed.

(** A page taken and mapped, with pages to spare for the tables. *)
Lemma wp_map_fresh k va flags (s : vmm P) a q :
  data_ok k s → low_half va → 0 ≤ flags < 2 ^ 64 → Z.land flags PTE_ADDR_MASK = 0 →
  avail (allocator s) a → alloc_inv q → (∀ b, avail q b ↔ avail (allocator s) b ∧ b ≠ a) → spares 4 q →
  let s1 := set_allocator q s in
  wp (map k va a flags) (λ ok s', ok = true ∧ data_ok k s' ∧ frame k s1 s' ∧
    ∃ e, lookup_page (phys s') k va = Some e ∧ page_frame e = a) s1.
Proof.
  intros Hd Hva Hfl Hmask Hav Hq Hav' Hs s1. pose proof (so_mem _ _ (do_space _ _ Hd)) as Hm.
  destruct (take_page k a s q (phys s) Hd Hav Hq Hav' Hm ltac:(done)) as (Hd1 & _).
  eapply wp_mono; [eapply wp_and; [exact (wp_map_taken k va flags s a q (phys s) Hd Hva Hfl Hmask Hav Hq Hav' Hm ltac:(done))|
    eapply wp_and; [apply (wp_map k va a flags s1); [exact (do_space _ _ Hd1)|by apply user_va_half|done]|
      exact (wp_map_takes k va a flags s1 1 Hq Hs)]]|].
  intros ok s2 ((Hd2 & _ & _ & He & _ & _ & Hfail & _) & (_ & Hfr & _) & Hs2).
  assert (ok = true) as ->.
  { destruct ok; [done|]. destruct (spares_some _ _ Hs2) as [b Hb]. by destruct (Hfail eq_refl b). }
  destruct (He eq_refl) as (e & Hl & Hpf & _). split; [done|]. split; [done|]. split; [done|]. by exists e.
Qed.

(** The data page can go back to the allocator after it was unmapped. *)
Lemma unmapped_space_ok k a (s s' : vmm P) (q : P) :
  data_frame k s a → frame k s s' → space_ok k s' → allocator s' = allocator s → alloc_inv q →
  (∀ b, avail q b → avail (allocator s) b ∨ b = a) → space_ok k (set_allocator q s').
Proof.
  intros [Ha Hn Ht] Hfr Hok Hal Hq Hav. split; [apply Hok|done| |exact (so_inj _ _ Hok)].
  intros p t Hp Hd. cbn [phys set_allocator] in Hd. destruct (so_table _ _ Hok p t Hp Hd) as [Htf Htn].
  split; [done|]. rewrite Hal in Htn. intros [?| ->]%Hav; [done|].
  destruct (fr_new _ _ _ Hfr p a Hp Hd) as [Hold|[_ Hnew]]; [|done]. by apply (Ht p a Hp Hold).
Qed.

Lemma wp_vmm_selftest (s : vmm P) :
  let k := kernel_space s in
  data_ok k s → Z.land (cr3 s) PTE_ADDR_MASK = k → spares 5 (allocator s) →
  wp vmm_selftest (λ r s', r = true ∧ space_ok k s' ∧ cr3 s' = cr3 s ∧ kernel_space s' = k) s.
Proof.
  intros k Hd Hc Hs. pose proof (do_space _ _ Hd) as Hok. unfold vmm_selftest, Vmm.pmm_call. wp_run.
  wp_use alloc_page_law; [apply Hok|]. intros a q [Hq [(-> & -> & Hnone)|[Hav Hav']]].
  { destruct (spares_some _ _ Hs) as [b Hb]. by destruct (Hnone b). }
  pose proof (avail_page _ _ (so_alloc _ _ Hok) Hav) as Hab%phys_page_bounds.
  pose proof (spares_take _ _ _ _ Hs Hav') as Hs1. wp_run. change (kernel_space (set_allocator q s)) with k.
  assert (low_half SELFTEST_VA) as Hva by done. pose proof (user_va_half _ Hva) as Hu.
  wp_use (wp_map_fresh k SELFTEST_VA PTE_RW s a q); [done..|]. intros ok s2 (-> & Hd2 & Hfr & e & He & Hpf). wp_run.
  wp_use wp_translate; [apply Hd2|done|]. intros t s' [-> ->]. rewrite He, page_offset, Z.add_0_r.
  fold (page_frame e). rewrite Hpf. wp_run. assert (Z.land (cr3 s2) PTE_ADDR_MASK = k) as Hc2 by (by rewrite (fr_cr3 _ _ _ Hfr)).
  wp_use (wp_store_va k SELFTEST_VA SELFTEST_WORD e); [done|done|done|done|done|lia|]. intros [] s3 (-> & Hd3 & Hl3). wp_run.
  set (s3 := set_phys _ s2) in *.
  assert (load_le 8 (phys s3) a = SELFTEST_WORD) as ->.
  { change (phys s3) with (store_le 8 (phys s2) (page_frame e) SELFTEST_WORD). rewrite Hpf, load_store_le. done. }
  wp_use wp_unmap; [apply Hd3|done|]. intros b s4 (Hok4 & Hfr4 & Hal4 & -> & Hl4).
  change (phys s3) with (store_le 8 (phys s2) (page_frame e) SELFTEST_WORD). rewrite Hl3, He. wp_run.
  wp_use wp_translate; [exact Hok4|done|]. intros t' s' [-> ->]. rewrite Hl4, decide_True by done. wp_run.
  wp_use free_page_law; [apply Hok4|lia|]. intros [] q' (Hq' & _ & _ & Hnew). wp_run.
  rewrite bool_decide_true by done. rewrite !Z.eqb_refl. split; [done|].
  assert (data_frame k s3 a) as Hdf by (rewrite <- Hpf; apply (do_frame _ _ Hd3 SELFTEST_VA e Hva); by rewrite Hl3).
  split_and!.
  - apply (unmapped_space_ok k a s3); [done..|]. intros b Hb. rewrite <- Hal4. by apply Hnew.
  - cbn. rewrite (fr_cr3 _ _ _ Hfr4). exact (fr_cr3 _ _ _ Hfr).
  - cbn. rewrite (fr_kernel _ _ _ Hfr4). exact (fr_kernel _ _ _ Hfr).
Qed.
End pages.

(** *** The self test of the page allocator *)
Section pmm.
Implicit Types p : Pmm.pmm.
Import Pmm.

(** The run of four pages that the test takes and keeps, if it found one. *)
Definition test_run p p' (run : Z) : Prop :=
  ∀ j, page_free p' j = negb (negb (run =? 0) && (run / PAGE_SIZE <=? j) && (j <? run / PAGE_SIZE + 4)) && page_free p j.

(** A page taken leaves one of two. *)
Lemma spares_two p p1 i :
  spares 2 p → (∀ j, page_free p1 j = negb (j =? i) && page_free p j) → ¬ (∀ j, page_free p1 j = false).
Proof.
  intros ([|x [|y l]] & Hn & Hl & Ha) F1 Hno; simpl in Hl; try lia.
  inversion Ha as [|? ? [Hxm Hx] Ha']; subst. inversion Ha' as [|? ? [Hym Hy] _]; subst.
  pose proof (Hno (x / PAGE_SIZE)) as Nx. pose proof (Hno (y / PAGE_SIZE)) as Ny.
  rewrite F1, Hx, andb_true_r in Nx. rewrite F1, Hy, andb_true_r in Ny.
  apply negb_false_iff, Z.eqb_eq in Nx, Ny. apply NoDup_cons in Hn as [Hn _]. apply Hn.
  rewrite (page_addr x Hxm), (page_addr y Hym), Nx, Ny. by left.
Qed.
(** The run misses a page that is still held. *)
Lemma run_misses p p3 p4 i c :
  page_free p 0 = false → page_free p i = true → (∀ j, page_free p3 j = negb (j =? i) && page_free p j) →
  (∀ k, 0 ≤ k < 4 → page_free p3 (c + k) = true) →
  (∀ j, page_free p4 j = negb ((c <=? j) && (j <? c + 4)) && page_free p3 j) →
  page_free p4 i = false ∧ c ≠ 0 ∧
  ∀ j, (j =? i) || page_free p4 j = negb ((c <=? j) && (j <? c + 4)) && page_free p j.
Proof.
  intros H0 Hi F3 Hr F4. split; [by rewrite F4, F3, Z.eqb_refl, andb_false_r|]. split.
  - intros ->. pose proof (Hr 0 ltac:(lia)) as Hf. change (0 + 0) with 0 in Hf. by rewrite F3, H0, andb_false_r in Hf.
  - intros j. rewrite F4, F3. destruct (Z.eqb_spec j i) as [->|]; [|done]. rewrite Hi.
    destruct ((c <=? i) && (i <? c + 4)) eqn:Hin; [|done]. apply andb_true_iff in Hin as [Hl%Z.leb_le Hu%Z.ltb_lt].
    pose proof (Hr (i - c) ltac:(lia)) as Hf. replace (c + (i - c)) with i in Hf by lia.
    by rewrite F3, Z.eqb_refl in Hf.
Qed.

Lemma wp_pmm_selftest p :
  pmm_ok p → spares 2 p →
  wp pmm_selftest (λ r p', pmm_ok p' ∧
    ∃ run, r = negb (run =? 0) ∧ run mod PAGE_SIZE = 0 ∧ test_run p p' run) p.
Proof.
  intros [Hp H0] Hs. unfold pmm_selftest. wp_run. wp_use wp_alloc_page; [done|].
  intros a p1 [Hp1 [(_ & -> & Hno)|(i & -> & Hi & _ & C1 & F1)]].
  { destruct (spares_some _ _ Hs) as [b [_ Hb]]. by rewrite Hno in Hb. }
  wp_run. wp_use wp_alloc_page; [done|]. intros b p2 [Hp2 [(_ & -> & Hno)|(i' & -> & Hi' & _ & C2 & F2)]].
  { by destruct (spares_two p p1 i Hs F1). }
  assert (i' ≠ i ∧ page_free p i' = true) as [Hne Hfi'].
  { rewrite F1 in Hi'. apply andb_true_iff in Hi' as [Hn Hf]. split; [|done]. intros ->. by rewrite Z.eqb_refl in Hn. }
  pose proof (page_free_range _ _ (proj1 Hp) Hi) as Ri. pose proof (page_free_range _ _ (proj1 Hp) Hfi') as Ri'.
  assert (i ≠ 0 ∧ i' ≠ 0) as [Z1 Z2] by (split; intros ->; congruence).
  pose proof (free_set_bound p2) as B2. pose proof (proj2 Hp2) as E2. pose proof (free_set_bound p) as B0.
  pose proof (proj2 Hp) as E0. pose proof BITMAP_PAGES_val. wp_run.
  wp_use wp_free_page; [done|unfold PAGE_SIZE; lia|]. rewrite !Z.div_mul by done.
  intros [] p3 [Hp3 [(_ & _ & _ & C3 & F3)|[[Hx|[Hx|Hx]] _]]]; [|by rewrite Z.mod_mul in Hx|lia|].
  2: { by rewrite F2, F1, Z.eqb_refl, andb_false_r in Hx. }
  wp_run. wp_use wp_alloc_pages; [done|lia|]. intros run p4 [Hp4 Hrun].
  assert (∀ j, page_free p3 j = negb (j =? i') && page_free p j) as F3'.
  { intros j. rewrite F3, F2, F1. destruct (Z.eqb_spec j i) as [->|]; [|done].
    rewrite (proj2 (Z.eqb_neq i i')) by done. by rewrite Hi. }
  assert (page_free p4 i' = false ∧ ∀ j, (j =? i') || page_free p4 j =
    negb (negb (run =? 0) && (run / PAGE_SIZE <=? j) && (j <? run / PAGE_SIZE + 4)) && page_free p j) as [H4 F4].
  { destruct Hrun as [(-> & -> & _)|(c & Hc & _ & -> & Hr & _ & _ & F4)].
    - split; [by rewrite F3', Z.eqb_refl|]. intros j. rewrite F3'. simpl.
      destruct (Z.eqb_spec j i') as [->|]; [by rewrite Hfi'|done].
    - destruct (run_misses p p3 p4 i' c H0 Hfi' F3' Hr F4) as (R1 & R2 & R3). split; [done|]. intros j.
      by rewrite R3, Z.div_mul, (proj2 (Z.eqb_neq (c * PAGE_SIZE) 0)) by (unfold PAGE_SIZE; lia). }
  wp_run. wp_use wp_free_page; [done|unfold PAGE_SIZE; lia|]. rewrite !Z.div_mul by done.
  intros [] p5 [Hp5 [(_ & _ & _ & _ & F5)|[[Hx|[Hx|Hx]] _]]]; [|by rewrite Z.mod_mul in Hx|lia|congruence].
  assert (test_run p p5 run) as Ht by (intros j; by rewrite F5, F4). wp_run. split.
  { split; [done|]. by rewrite Ht, H0, andb_false_r. }
  assert (run mod PAGE_SIZE = 0) as Hal.
  { destruct Hrun as [(-> & _)|(c & _ & _ & -> & _)]; [done|by apply Z.mod_mul]. }
  exists run. split; [|done]. rewrite !Z.mod_mul, Hal by done.
  rewrite (u64_id (free_pages p - 2)), (u64_id (free_pages p - 1)) by lia.
  rewrite (proj2 (Z.eqb_neq (i * PAGE_SIZE) 0)), (proj2 (Z.eqb_neq (i' * PAGE_SIZE) 0)),
    (proj2 (Z.eqb_neq (i * PAGE_SIZE) (i' * PAGE_SIZE))) by (unfold PAGE_SIZE; lia).
  rewrite (proj2 (Z.eqb_eq (free_pages p2) _)), (proj2 (Z.eqb_eq (free_pages p3) _)) by lia.
  cbn [Z.eqb negb orb andb]. by rewrite orb_false_r.
Qed.
End pmm.

(** ** The stages of boot *)
Section stages.
Context {P : Type} `{PageAllocatorLaws P} `{Kernel.PageCounter P}.
Implicit Types (m : machine P) (k : Kernel.kern P) (v : vmm P).

Definition put_kern k m : machine P := set_gui (Wm.set_sys k (gui m)) m.
Definition vm_of k : vmm P := Sched.vm (Kernel.sc k).

Lemma wp_kern_call {A} (c : M (Kernel.kern P) A) Q m :
  wp c (λ a k, Q a (put_kern k m)) (kern_of m) → wp (kern_call c) Q m.
Proof. intros Hc. unfold kern_call, gui_call, Wm.kern_call. by do 2 apply wp_zoom. Qed.
Lemma wp_sched_call {A} (c : M (Sched.sched P) A) Q m :
  wp c (λ a s, Q a (put_kern (Kernel.set_sc s (kern_of m)) m)) (Kernel.sc (kern_of m)) → wp (sched_call c) Q m.
Proof. intros Hc. apply wp_kern_call. unfold Kernel.sched_call. by apply wp_zoom. Qed.

(** The tables of the kernel: a well-formed space, loaded. *)
Record tables_ok v : Prop := {
  tb_space : space_ok (kernel_space v) v;
  tb_loaded : cr3 v = kernel_space v;
}.
(** Threads, memory and tables in order; the running thread in its space. *)
Record kernel_ok (s : Sched.sched P) : Prop := {
  kn_sched : Sched.sched_ok s;
  kn_tables : tables_ok (Sched.vm s);
  kn_loaded : Sched.space_loaded s;
  kn_running : ∃ t, zget (Sched.threads s) (Sched.current_idx s) = Some t ∧ Sched.state t ≠ Sched.Unused;
}.
Lemma kernel_ready s : kernel_ok s → Spawn.spawn_ready s.
Proof. intros [Hs [Hk _] _ _]. split_and!; [done|apply Hk|done]. Qed.
(** A thread in a slot that was free. *)
Lemma other_slot s r t :
  kernel_ok s → Sched.first_unused s = Some r →
  zget (zset (Sched.threads s) r t) (Sched.current_idx s) = zget (Sched.threads s) (Sched.current_idx s).
Proof.
  intros [Hs _ _ (u & Hu & Hst)] Hr. destruct (Sched.first_unused_some _ _ Hr) as (Hi & w & Hw & Hf).
  apply zget_zset_ne; [lia|]. congruence.
Qed.

Lemma data_ok_loaded a c r v : data_ok a v → data_ok a (set_cr3 c (set_kernel_space r v)).
Proof.
  intros [[] Hf Hi Hs]. split; [by split| |done|done]. intros va e Hva He. by destruct (Hf va e Hva He).
Qed.
(** [init] of the page tables, and their self test. *)
Lemma wp_boot_tables v :
  space_ok (Z.land (cr3 v) PTE_ADDR_MASK) v → spares 6 (allocator v) →
  wp (Vmm.init;; vmm_selftest) (λ r v', r = true ∧ tables_ok v') v.
Proof.
  intros Hk Hs. wp_step. wp_use Vmm.wp_vmm_init; [done|by eapply spares_some|]. intros [] v' (a & v1 & Hav & Hf & ->).
  destruct (Spawn.fresh_empty _ _ _ _ Hf) as [_ Hd]. pose proof (avail_page _ _ (so_alloc _ _ Hk) Hav) as [Hab Hal]%phys_page_bounds.
  assert (Z.land a PTE_ADDR_MASK = a) as Hmask by (apply mask_frame; eapply avail_frame; [apply Hk|done]).
  wp_use wp_vmm_selftest; [| | |].
  - by apply data_ok_loaded.
  - exact Hmask.
  - eapply spares_take; [exact Hs|apply Hf].
  - intros r v'' (-> & Hok & Hc & Hks). split; [done|]. split; [by rewrite Hks|]. by rewrite Hks, Hc.
Qed.

(** *** Threads *)
Definition core (s : Sched.sched P) :=
  (phys (Sched.vm s), cr3 (Sched.vm s), kernel_space (Sched.vm s), Sched.current_idx s, Sched.sched_enabled s).
Lemma core_pmm {A} (c : M P A) : Boot.leaves core (Sched.vm_call (Vmm.pmm_call c)).
Proof.
  intros s a s'. unfold Sched.vm_call, Vmm.pmm_call, zoom. destruct (c _) as [[x q]| |]; [|done|done]. by intros [= <- <-].
Qed.
Lemma core_kthread tramp nm f arg : Boot.leaves core (Sched.kthread_create (P := P) tramp nm f arg).
Proof.
  pose proof @core_pmm. unfold Sched.kthread_create, Sched.update_thread, Sched.grow_nr, Sched.pa_to_va. leaf.
Qed.

(** Creating a process does not touch the switch. *)
Lemma enabled_spawn nm data argv : Boot.leaves Sched.sched_enabled (Proc.spawn_elf (P := P) nm data argv).
Proof.
  assert (∀ A (c : M (vmm P) A), Boot.leaves Sched.sched_enabled (Sched.vm_call c)) as Hvm by (intros A c; by apply leaves_zoom).
  unfold Proc.spawn_elf, Sched.thread_create_user, Sched.alloc_thread_slot, Sched.thread_at, Sched.update_thread, Sched.grow_nr, Sched.pa_to_va.
  leaf.
Qed.
Definition clock (s : Sched.sched P) := (Sched.current_idx s, Sched.sched_enabled s).

(** [s'] still has the memory of [s], but for free pages. *)
Definition keeps_kernel (s s' : Sched.sched P) : Prop :=
  kernel_ok s' ∧ only_free (Sched.vm s) (Sched.vm s') ∧ clock s' = clock s.
Lemma only_free_refl v : tables_ok v → only_free v v.
Proof. intros [[] _]. by split. Qed.
Lemma only_free_trans v1 v2 v3 : only_free v1 v2 → only_free v2 v3 → only_free v1 v3.
Proof.
  intros [A1 A2 A3 A4 A5 A6] [B1 B2 B3 B4 B5 B6]. split; [congruence|congruence|done|done|auto|].
  intros x Hx. rewrite B6; [by apply A6|]. intros b Hb. by apply Hx, A5.
Qed.
Lemma keeps_only_free s s' :
  kernel_ok s → only_free (Sched.vm s) (Sched.vm s') → Sched.sched_ok s' →
  clock s' = clock s →
  zget (Sched.threads s') (Sched.current_idx s) = zget (Sched.threads s) (Sched.current_idx s) → keeps_kernel s s'.
Proof.
  intros [Hs [Hk Hc] Hl Hr] Hof Hs' Hcl Ht. pose proof Hcl as [= Hcur _]. split_and!; [|done|done]. pose proof (of_kernel _ _ Hof) as Ek.
  split; [done| | |by rewrite Hcur, Ht].
  - split; [rewrite Ek; by eapply only_free_space_ok|]. by rewrite Ek, (of_cr3 _ _ Hof).
  - intros t. rewrite Hcur, Ht, (of_cr3 _ _ Hof). apply Hl.
Qed.
Lemma wp_kthread_keeps s tramp nm f arg :
  kernel_ok s → wp (Sched.kthread_create tramp nm f arg) (λ _ s', keeps_kernel s s') s.
Proof.
  intros Hk. pose proof Hk as [Hs [Hsp Hc] _ _].
  wp_use (Boot.wp_leaves core); [apply core_kthread|apply Sched.wp_kthread_create; [done|apply Hsp]|].
  intros r s' [(Hs' & Hm' & Hcase) E]. unfold core in E. injection E as E1 E2 E3 E4 E5.
  apply keeps_only_free; [done| |done|unfold clock; congruence|].
  2: { destruct Hcase as [[_ ->]|(Hr & pa & _ & -> & _)]; [done|by apply other_slot]. }
  split; [done|done|done|rewrite E1; apply Hsp| |by rewrite E1].
  intros b Hb. destruct Hcase as [[_ ->]|(_ & pa & _ & _ & _ & _ & Hset)]; [done|]. by apply Hset in Hb as [? _].
Qed.

(** The table before [sched::init]. *)
Definition no_threads (r off : Z) v : Sched.sched P :=
  Sched.mkSched (replicate (Z.to_nat Sched.SCHED_MAX_THREADS) Sched.zeroed) 0 0 0 0 false r off v.
Lemma wp_boot_sched im r off v :
  tables_ok v →
  wp (Sched.init;; modify (set_enabled true);; sched_selftest im)
    (λ _ s', kernel_ok s' ∧ only_free v (Sched.vm s') ∧ clock s' = (0, true)) (no_threads r off v).
Proof.
  intros Hv. wp_step. set (b := Sched.mkSched (Sched.boot_thread v :: replicate 31 Sched.zeroed) 1 0 0 0 false r off v).
  assert (wp Sched.init (λ _ s', s' = b) (no_threads r off v)) as Hi by done.
  wp_use Hi. intros [] s ->. clear Hi. wp_run. set (s := set_enabled true b).
  assert (kernel_ok s) as Hk.
  { split; [by destruct (Sched.booted_ok off v)|exact Hv| |by eexists].
    intros t [= <-] _. cbn. apply Hv. }
  unfold sched_selftest. wp_step. wp_use wp_kthread_keeps; [done|]. intros _ s1 (K1 & O1 & C1).
  wp_step. wp_use wp_kthread_keeps; [done|]. intros _ s2 (K2 & O2 & C2). wp_run.
  split_and!; [done| |by rewrite C2, C1]. eapply only_free_trans; [exact O1|exact O2].
Qed.

(** *** The first process *)
Definition exe (data : list Z) : Prop :=
  Elf.header_ok data = true ∧ Elf.image_ok data ∧ Elf.e_entry (Elf.read_ehdr data) ≠ 0.
(** A process [nm] runs [data]. *)
Definition user_up (nm data : list Z) (s' : Sched.sched P) : Prop :=
  ∃ s1 r space pa, kernel_ok s1 ∧ Spawn.spawned nm data [] s1 r space pa s'.
(** A new process, or none for want of memory or threads. *)
Definition spawns (nm data : list Z) (argv : list (list Z)) (s : Sched.sched P) (r : Z) (s' : Sched.sched P) : Prop :=
  (r = -1 ∧ Spawn.spawn_failed nm data s s') ∨ (0 ≤ r ∧ ∃ space pa, Spawn.spawned nm data argv s r space pa s').

Lemma no_args : Spawn.args_ok [].
Proof. split; [constructor|done]. Qed.
Lemma wp_spawn_keeps nm data argv s :
  exe data → Spawn.args_ok argv → kernel_ok s →
  wp (Proc.spawn_elf nm data argv) (λ r s', keeps_kernel s s' ∧ spawns nm data argv s r s') s.
Proof.
  intros (Hh & Him & He) Hargs Hk. wp_use (wp_leaves Sched.sched_enabled);
    [apply enabled_spawn|apply Spawn.wp_spawn_elf; [done|done|done|exact Hargs|by apply kernel_ready]|].
  intros r s' [[[-> Hf]|(space & pa & Hs)] En].
  - pose proof Hf as [[Hok _] Hof Hc Ht _ _]. split; [apply keeps_only_free; [done|done|done|unfold clock; congruence|]|by left].
    destruct Ht as [->|(i & Hi & ->)]; [done|by apply other_slot].
  - pose proof Hs as [[Hok _] Hslot Hc Ht Hof _ _ _ _ _]. split; [apply keeps_only_free; [done|done|done|unfold clock; congruence|]|right].
    { rewrite Ht. by apply other_slot. }
    destruct (Sched.first_unused_some _ _ Hslot) as (Hr & _). split; [lia|]. by exists space, pa.
Qed.
Lemma spawns_up nm data s r s' : kernel_ok s → spawns nm data [] s r s' → 0 ≤ r → user_up nm data s'.
Proof. intros Hk [[-> _]|(_ & space & pa & Hs)] Hr; [lia|]. by exists s, r, space, pa. Qed.

Definition file_at (x : Tmpfs.tmpfs) (path : list Z) : option (list Z) := Tmpfs.file_data x (Tmpfs.resolve_spec x path).
Lemma wp_node_data (x : Tmpfs.tmpfs) id :
  Tmpfs.fs_ok x → wp (Tmpfs.node_data id) (λ r x', x' = x ∧ r = Tmpfs.file_data x id) x.
Proof.
  intros Hok. unfold Tmpfs.node_data, Tmpfs.file_data. wp_run. wp_use Tmpfs.wp_file_node; [done|]. intros r x' [-> ->].
  destruct (Tmpfs.is_file x id) as [d|] eqn:Hd; [|by wp_run]. cbn.
  destruct (Tmpfs.is_file_ok _ _ _ Hok Hd) as (_ & Ho & Hsz & He). wp_run.
  wp_use Tmpfs.wp_pool_slice; [lia|]. intros r x' [-> ->]. wp_run. unfold Tmpfs.contents. by rewrite Z.add_simpl_l.
Qed.
Lemma no_file (x : Tmpfs.tmpfs) id : id < 0 ∨ Tmpfs.node_typ x id ≠ Tmpfs.VN_FILE → Tmpfs.file_data x id = None.
Proof.
  unfold Tmpfs.file_data. intros Hn. destruct (Tmpfs.is_file x id) as [d|] eqn:E; [|done].
  apply Tmpfs.is_file_some in E as (Hd & Hi & Ht). destruct Hn as [|Hn]; [lia|]. unfold Tmpfs.node_typ in Hn. by rewrite Hd in Hn.
Qed.
Definition process_name (path : list Z) : list Z :=
  match Proc.last_component [] path with [] => path | _ => Proc.last_component [] path end.

Lemma wp_spawn_path k path argv :
  Tmpfs.fs_ok (Kernel.fs k) → kernel_ok (Kernel.sc k) → Spawn.args_ok argv →
  (∀ data, file_at (Kernel.fs k) path = Some data → data ≠ [] → exe data) →
  wp (Proc.spawn_path path argv) (λ r k', ∃ s', k' = Kernel.set_sc s' k ∧ keeps_kernel (Kernel.sc k) s' ∧
    ((r = -1 ∧ s' = Kernel.sc k ∧ (∀ data, file_at (Kernel.fs k) path = Some data → data = [])) ∨
     ∃ data, file_at (Kernel.fs k) path = Some data ∧ spawns (process_name path) data argv (Kernel.sc k) r s')) k.
Proof.
  intros Hfs Hk Hargs Hexe. assert (∃ s', k = Kernel.set_sc s' k ∧ keeps_kernel (Kernel.sc k) s' ∧ s' = Kernel.sc k) as Hsame.
  { exists (Kernel.sc k). split; [by destruct k|]. split; [|done]. split_and!; [done|apply only_free_refl, Hk|done]. }
  destruct Hsame as (s0 & E0 & K0 & Es0). unfold file_at in *. unfold Proc.spawn_path, Kernel.fs_call, Tmpfs.lookup. wp_step. apply wp_zoom.
  wp_use Tmpfs.wp_resolve; [done|]. intros id x [-> ->]. rewrite SyscallSpec.SyscallSpec.set_fs_id. set (id := Tmpfs.resolve_spec _ _) in *.
  assert (wp (if id <? 0 then mret (-1) else zoom Kernel.fs Kernel.set_fs (Tmpfs.node_type id))
    (λ ty k', k' = k ∧ ((ty =? Tmpfs.VN_FILE) = false → Tmpfs.file_data (Kernel.fs k) id = None)) k) as Hty.
  { destruct (Z.ltb_spec id 0); [wp_run; split; [done|]; intros _; by apply no_file; left|].
    apply wp_zoom. wp_use SyscallSpec.SyscallSpec.wp_node_type; [done|].
    intros ty x [-> ->]. rewrite SyscallSpec.SyscallSpec.set_fs_id. split; [done|]. intros Hne%Z.eqb_neq. apply no_file. by right. }
  wp_step. wp_use Hty. intros ty k' [-> Hno]. destruct (ty =? Tmpfs.VN_FILE); cbn [negb].
  2: { wp_run. exists s0. split; [done|]. split; [done|]. left. split; [done|]. split; [done|]. by rewrite Hno. }
  wp_step. apply wp_zoom. wp_use wp_node_data; [done|]. intros d x [-> ->]. rewrite SyscallSpec.SyscallSpec.set_fs_id.
  destruct (Tmpfs.file_data (Kernel.fs k) id) as [[|b data]|] eqn:Hd.
  - wp_run. exists s0. split; [done|]. split; [done|]. left. split; [done|]. split; [done|]. congruence.
  - unfold Kernel.sched_call. apply wp_zoom. wp_use wp_spawn_keeps; [by apply Hexe|done|done|].
    intros r s' [K Hs]. exists s'. split; [done|]. split; [done|]. right. by exists (b :: data).
  - wp_run. exists s0. split; [done|]. split; [done|]. left. done.
Qed.

(** The machine with a new kernel state, of which only threads and files
    differ. *)
Definition with_state (s : Sched.sched P) (x : Tmpfs.tmpfs) k : Kernel.kern P := Kernel.set_fs x (Kernel.set_sc s k).
(** What runs after the first programs were started: [init] if there is one,
    else the fallback; nothing only if there was no room. *)
Inductive userland (im : image) (x : Tmpfs.tmpfs) (s' : Sched.sched P) : Prop :=
  | up_init data : file_at x INIT = Some data → user_up (str "init") data s' → userland im x s'
  | up_hello : user_up (str "hello") (HELLO_ELF im) s' → userland im x s'
  | up_none s1 : kernel_ok s1 → Spawn.spawn_failed (str "hello") (HELLO_ELF im) s1 s' → userland im x s'.

Lemma keeps_trans_kernel s1 s2 s3 : keeps_kernel s1 s2 → keeps_kernel s2 s3 → keeps_kernel s1 s3.
Proof. intros (_ & O1 & C1) (K & O2 & C2). split_and!; [done|by eapply only_free_trans|congruence]. Qed.

Lemma wp_fallback im k :
  Tmpfs.fs_ok (Kernel.fs k) → kernel_ok (Kernel.sc k) → exe (HELLO_ELF im) → zlen (HELLO_ELF im) < 2 ^ 63 →
  wp (fallback im) (λ _ k', ∃ s' x, k' = with_state s' x k ∧ Tmpfs.fs_ok x ∧ keeps_kernel (Kernel.sc k) s' ∧ userland im x s') k.
Proof.
  intros Hfs Hk Hexe Hlen. unfold fallback, Kernel.fs_call, Kernel.sched_call. wp_step. apply wp_zoom.
  wp_use Tmpfs.wp_create; [done|exact Hlen|]. intros id x Heq. pose proof (Tmpfs.create_spec_ok (Kernel.fs k) (str "/hello.elf") (HELLO_ELF im) Hfs) as Hx.
  rewrite <- Heq in Hx. cbn [snd] in Hx. wp_step. apply wp_zoom. wp_use wp_kthread_keeps; [exact Hk|]. intros _ s1 K1.
  wp_step. apply wp_zoom. wp_use wp_spawn_keeps; [done|apply no_args|apply K1|]. intros r s2 [K2 Hcase]. wp_run.
  exists s2, x. split; [done|]. split; [done|]. split; [by eapply keeps_trans_kernel|].
  destruct Hcase as [[_ Hf]|[Hr Hu]]; [eapply up_none; [apply K1|exact Hf]|apply up_hello].
  eapply spawns_up; [apply K1|right; by split|exact Hr].
Qed.

Lemma wp_boot_user im n k :
  Tmpfs.fs_ok (Kernel.fs k) → kernel_ok (Kernel.sc k) → exe (HELLO_ELF im) → zlen (HELLO_ELF im) < 2 ^ 63 →
  (∀ data, file_at (Kernel.fs k) INIT = Some data → data ≠ [] → exe data) →
  wp (started ← (if n >? 0 then r ← Proc.spawn_path INIT []; mret (r >=? 0) else mret false);
      if started : bool then mret tt else fallback im)
    (λ _ k', ∃ s' x, k' = with_state s' x k ∧ Tmpfs.fs_ok x ∧ keeps_kernel (Kernel.sc k) s' ∧ userland im x s') k.
Proof.
  intros Hfs Hk Hexe Hlen Hinit. wp_step. destruct (n >? 0); [|wp_run; by apply wp_fallback].
  wp_step. wp_use wp_spawn_path; [done|done|apply no_args|done|]. intros r k' (s' & -> & K & Hcase). wp_run. rewrite Z.geb_leb.
  assert (r = -1 ∨ ∃ data, 0 ≤ r ∧ file_at (Kernel.fs k) INIT = Some data ∧ user_up (str "init") data s') as [->|(data & Hr & Hd & Hu)].
  { destruct Hcase as [[-> _]|(data & Hd & [[-> _]|Hs])]; [by left|by left|right]. exists data. split; [apply Hs|].
    split; [done|]. eapply spawns_up; [exact Hk|right; exact Hs|apply Hs]. }
  - cbn [Z.leb Z.compare]. wp_use wp_fallback; [done|apply K|done|done|]. intros [] k' (s2 & x & -> & Hx & K2 & Hul).
    exists s2, x. split; [done|]. split; [done|]. split; [by eapply keeps_trans_kernel|exact Hul].
  - rewrite (proj2 (Z.leb_le 0 r)) by done. wp_run. exists s', (Kernel.fs k). split; [by destruct k|].
    split; [done|]. split; [done|]. by apply (up_init _ _ _ data).
Qed.
End stages.

End Stages.
