(* ===== verification/Terminal.v ===== *)
(** * Opening a terminal ([gui/wm.rs], [new_terminal])

    The function key asks for a terminal; the compositor's next turn creates
    it: the terminal, its window, and [/bin/sh] in it.  The three components
    share the page allocator, so the kernel's tables stay apart from the
    window's pixels and the process's pages. *)
From S2P Require Import Prelude Lines PageAlloc Pmm Mem Vmm UserMem Teardown Elf Tmpfs Sched Ring Vterm Kbd Surface Font Dirty Mouse Fb Desk.
From S2P Require Import Kernel Log Proc Spawn Wm Compose Gui Windows Session Boot Stages.

Module Terminal.
Import Lines Font Desk Wm Compose Gui Windows Session Boot Vmm UserMem Teardown Stages.

(** ** Surfaces come from free pages *)
Section surfaces.
Context {P : Type} `{PageAllocatorLaws P}.
Import Surface.

(** Pages were taken, and nothing else was written. *)
Record taken (g g' : gui_mem P) : Prop := {
  ta_alloc : alloc_inv (alloc g');
  ta_mem : mem_ok (phys g');
  ta_avail a : avail (alloc g') a → avail (alloc g) a;
  ta_phys x : (∀ a, avail (alloc g) a → ¬ (a ≤ x < a + PAGE_SIZE)) → phys g' x = phys g x;
}.
Lemma wp_create_taken g wd ht :
  alloc_inv (alloc g) → mem_ok (phys g) → wd < 2 ^ 31 → ht < 2 ^ 31 → wd * ht < 2 ^ 61 →
  wp (create wd ht) (λ _ g', taken g g') g.
Proof.
  intros Hinv Hm Hw Hh Hs. unfold create.
  destruct (Z.leb_spec wd 0) as [|Hw0]; cbn [orb]; [by wp_run|].
  destruct (Z.leb_spec ht 0) as [|Hh0]; [by wp_run|].
  pose proof (pixel_pages_pos wd ht ltac:(lia) ltac:(lia) Hs) as Hpp.
  wp_run. apply wp_alloc_call. wp_use (alloc_pages_law (alloc g) 1 Hinv); [lia|].
  intros hdr p1 [Hinv1 [(-> & -> & _)|(Hhdr & Hav1 & Hset1)]]; [wp_run; by destruct g|].
  rewrite (proj2 (Z.eqb_neq hdr 0)) by lia. wp_run. apply wp_alloc_call.
  wp_use (alloc_pages_law p1 (pixel_pages wd ht) Hinv1); [lia|].
  assert (avail (alloc g) hdr) as Hhav by (rewrite <- (Z.add_0_r hdr); by apply (Hav1 0)).
  intros px p2 [Hinv2 [(-> & -> & _)|(Hpx & Hav2 & Hset2)]].
  - cbn [Z.eqb]. wp_run. apply wp_alloc_call. wp_use (free_page_law p1 hdr Hinv1); [done|].
    intros [] p3 (Hinv3 & _ & _ & Hnew). wp_run. split; [done|done| |done].
    intros b [Hb | ->]%Hnew; [by apply Hset1 in Hb as [? _]|done].
  - rewrite (proj2 (Z.eqb_neq px 0)) by lia. wp_run. split; [done|apply mem_ok_fill; [done|lia]| |].
    + cbn. intros a [Ha _]%Hset2. by apply Hset1 in Ha as [? _].
    + cbn. intros x Hx. apply fill_out. intros Hr.
      destruct (Hset1 (px + (x - px) / PAGE_SIZE * PAGE_SIZE)) as [Ha _].
      destruct Ha as [Ha _]; [apply Hav2; unfold PAGE_SIZE in *; dlia|].
      apply (Hx _ Ha). unfold PAGE_SIZE in *. dlia.
Qed.
End surfaces.

(** ** What opening a window does to memory *)
Section memory.
Context {P : Type} `{PageAllocatorLaws P}.
Implicit Types s : wm P.

Definition vm_at s : vmm P := vm_of (sys s).
(** Only free pages are used. *)
Definition spends {A} (m : M (wm P) A) : Prop := ∀ s a s',
  alloc_inv (allocator (vm_at s)) → mem_ok (phys (vm_at s)) → m s = Done (a, s') → only_free (vm_at s) (vm_at s').

Lemma only_free_same (v : vmm P) : alloc_inv (allocator v) → mem_ok (phys v) → only_free v v.
Proof. by split. Qed.
Lemma spends_leaves {A} (m : M (wm P) A) : leaves vm_at m → spends m.
Proof. intros Hl s a s' Ha Hm E. rewrite (Hl s a s' E). by apply only_free_same. Qed.
Lemma spends_bind {A C} (m : M (wm P) A) (k : A → M (wm P) C) : spends m → (∀ a, spends (k a)) → spends (m ≫= k).
Proof.
  intros Hm Hk s c s' Ha Hmem. unfold mbind, M_bind. specialize (Hm s).
  destruct (m s) as [[a s1]| |]; [|done|done]. intros E. specialize (Hm a s1 Ha Hmem eq_refl).
  eapply only_free_trans; [exact Hm|]. apply (Hk a s1 c s'); [apply Hm|apply Hm|exact E].
Qed.
Lemma spends_for_from {R} n i (body : Z → M (wm P) (option R)) : (∀ i, spends (body i)) → spends (for_from n i body).
Proof.
  intros Hb. revert i. induction n as [|n IH]; intros i; cbn [for_from]; [apply spends_leaves, leaves_ret|].
  apply spends_bind; [done|]. intros [r|]; [apply spends_leaves, leaves_ret|apply IH].
Qed.
Lemma wp_spends {A} (m : M (wm P) A) Q s :
  spends m → alloc_inv (allocator (vm_at s)) → mem_ok (phys (vm_at s)) →
  wp m Q s → wp m (λ a s', Q a s' ∧ only_free (vm_at s) (vm_at s')) s.
Proof.
  intros Hm Ha Hmem. unfold wp. specialize (Hm s). destruct (m s) as [[a s']| |]; [|done|done].
  intros HQ. split; [exact HQ|]. by eapply Hm.
Qed.
Lemma spends_create_surface wd ht : wd < 2 ^ 31 → ht < 2 ^ 31 → wd * ht < 2 ^ 61 → spends (create_surface wd ht).
Proof.
  intros Hw Hh Hs s a s' Ha Hm E. pose proof (wp_create_taken (gui_mem s) wd ht Ha Hm Hw Hh Hs) as Ht.
  unfold wp in Ht. unfold create_surface, mbind, M_bind, zoom in E.
  destruct (Surface.create wd ht (gui_mem s)) as [[r g]| |]; [|done|done]. injection E as _ <-.
  destruct Ht as [T1 T2 T3 T4]. by split.
Qed.
End memory.

(** ** What is left alone *)
Section left.
Context {P : Type} `{PageAllocatorLaws P}.
Implicit Types s : wm P.

Lemma leaves_sub {S A B C} (f : S → B) (g : S → C) (m : M S A) :
  (∀ s s' : S, f s' = f s → g s' = g s) → leaves f m → leaves g m.
Proof. intros Hfg Hf s a s' E. apply Hfg. by eapply Hf. Qed.

(** All but the desk and its statistics. *)
Definition frozen s := (ms s, inp s, VT_WIN s, WANT_NEW_TERM s, sys s).
(** And the memory. *)
Definition around s :=
  (ms s, inp s, VT_WIN s, WANT_NEW_TERM s, λ v, Kernel.set_sc (Sched.set_vm v (Kernel.sc (sys s))) (sys s)).
Lemma frozen_around s s' : frozen s' = frozen s → around s' = around s.
Proof. intros [= E1 E2 E3 E4 E5]. unfold around. by rewrite E1, E2, E3, E4, E5. Qed.
Lemma frozen_vm s s' : frozen s' = frozen s → vm_at s' = vm_at s.
Proof. intros [= _ _ _ _ E]. unfold vm_at. by rewrite E. Qed.
Lemma around_sys s s' :
  around s' = around s → sys s' = Kernel.set_sc (Sched.set_vm (vm_at s') (Kernel.sc (sys s))) (sys s).
Proof.
  intros E. apply (f_equal (λ r, r.2 (vm_at s'))) in E. etrans; [|exact E].
  unfold around, vm_at, vm_of. cbn [snd]. destruct (sys s') as [[] ? ? ?]. reflexivity.
Qed.

Lemma frozen_row id r : leaves frozen (kern_call (P := P) (Kernel.vt_call (Vterm.row_of id r))).
Proof.
  assert (leaves (λ t, t) (Vterm.row_of id r)) as Hr by (unfold Vterm.row_of; leaf).
  intros s a s'. unfold kern_call, Kernel.vt_call, Kernel.kb_call, Kbd.vt_call, zoom.
  specialize (Hr (Kbd.vts (Kernel.kb (sys s)))).
  destruct (Vterm.row_of id r _) as [[x t]| |]; [|done|done]. rewrite (Hr x t eq_refl). intros [= <- <-].
  by destruct s as [[? ? [] ?] ? ? ? ? ? ? ? ? ? ? ?].
Qed.
Lemma frozen_on_win {A} i (m : M window A) : leaves frozen (on_win (P := P) i m).
Proof. by apply leaves_on_win. Qed.
Lemma frozen_desk_call {A} (m : M desk A) : leaves frozen (desk_call (P := P) m).
Proof. by apply leaves_zoom. Qed.
Hint Resolve frozen_row frozen_on_win frozen_desk_call : leaves.
Lemma frozen_frame_render i : leaves frozen (frame_render (P := P) FONT8X16 i).
Proof. unfold frame_render, run_hook, paint_terminal, paint_demo, timer_ticks, get_win. leaf. Qed.
Lemma frozen_show_it i : leaves frozen (show_it (P := P) FONT8X16 i).
Proof. pose proof frozen_frame_render. unfold show_it, get_win. leaf. Qed.

Lemma around_create_surface wd ht : leaves around (create_surface (P := P) wd ht).
Proof. unfold create_surface. leaf. Qed.
Lemma around_of {A} (m : M (wm P) A) : leaves frozen m → leaves around m.
Proof. apply leaves_sub, frozen_around. Qed.
Lemma vm_of_frozen {A} (m : M (wm P) A) : leaves frozen m → leaves vm_at m.
Proof. apply leaves_sub, frozen_vm. Qed.

Lemma around_create_window str px py pw ph k : leaves around (open_window (P := P) str px py pw ph k).
Proof.
  pose proof around_create_surface as H1.
  assert (∀ i, leaves around (frame_render (P := P) FONT8X16 i)) as H2 by (intros i; apply around_of, frozen_frame_render).
  assert (∀ A i (m : M window A), leaves around (on_win (P := P) i m)) as H3 by (intros A i m; apply around_of, frozen_on_win).
  assert (∀ A (m : M desk A), leaves around (desk_call (P := P) m)) as H4 by (intros A m; apply around_of, frozen_desk_call).
  unfold open_window, create_window, get_win. leaf.
Qed.
Lemma spends_create_window str px py pw ph k :
  0 < pw < 2 ^ 14 → 0 < ph < 2 ^ 14 → spends (open_window (P := P) str px py pw ph k).
Proof.
  intros Hw Hh. assert (∀ A i (m : M window A), spends (on_win (P := P) i m)) as H3
    by (intros A i m; apply spends_leaves, vm_of_frozen, frozen_on_win).
  assert (∀ A (m : M desk A), spends (desk_call (P := P) m)) as H4 by (intros A m; apply spends_leaves, vm_of_frozen, frozen_desk_call).
  assert (∀ A (g : wm P → A), spends (gets g)) as H5 by (intros A g; apply spends_leaves, leaves_gets).
  assert (∀ i, spends (frame_render (P := P) FONT8X16 i)) as H2 by (intros i; apply spends_leaves, vm_of_frozen, frozen_frame_render).
  assert (∀ i, spends (get_win (P := P) i)) as H7 by (intros i; apply spends_leaves, leaves_aget).
  assert (∀ A (a : A), spends (P := P) (mret a)) as H6 by (intros A a; apply spends_leaves, leaves_ret).
  unfold open_window, create_window, GUI_TITLE_H. narrow. apply spends_bind; [|intros r; apply H6].
  apply spends_for_from. intros i. apply spends_bind; [apply spends_leaves, leaves_aget|]. intros v.
  destruct (used v); [apply H6|].
  apply spends_bind; [apply spends_create_surface; nia|]. intros b.
  apply spends_bind; [apply spends_create_surface; nia|]. intros f.
  destruct b, f; try apply H6.
  repeat first [apply H2|apply H3|apply H4|apply H5|apply H6|apply H7|apply spends_bind; [|intros ?]|case_match].
Qed.
End left.

(** ** The terminal and its shell *)
Section shell.
Context {P : Type} `{PageAllocatorLaws P}.
Implicit Types (k : Kernel.kern P) (c : Sched.sched P).

(** Kernel threads may start [/bin/sh]: their tables and the file tree are in
    order, and the file, if there is one, is an executable. *)
Record shell_ready k : Prop := {
  sr_fs : Tmpfs.fs_ok (Kernel.fs k);
  sr_kernel : kernel_ok (Kernel.sc k);
  sr_exe data : file_at (Kernel.fs k) bin_sh = Some data → data ≠ [] → exe data;
}.
Lemma shell_ready_keeps k c kb :
  shell_ready k → keeps_kernel (Kernel.sc k) c → shell_ready (Kernel.set_kb kb (Kernel.set_sc c k)).
Proof. intros [] [? _]. by split. Qed.

(** The process runs in terminal [n], in the root directory. *)
Definition in_terminal (n : Z) (t : Sched.thread) : Sched.thread := Sched.set_cwd [47] (Sched.with_vt n t).
Inductive shell_up (n : Z) k c' : Prop :=
  | no_shell : (∀ data, file_at (Kernel.fs k) bin_sh = Some data → data = []) → c' = Kernel.sc k → shell_up n k c'
  | shell_failed data : file_at (Kernel.fs k) bin_sh = Some data →
      Spawn.spawn_failed (str "sh") data (Kernel.sc k) c' → shell_up n k c'
  | shell_runs data r t space pa c : file_at (Kernel.fs k) bin_sh = Some data →
      Spawn.spawned (str "sh") data [bin_sh] (Kernel.sc k) r space pa c → zget (Sched.threads c) r = Some t →
      c' = Sched.set_threads (zset (Sched.threads c) r (in_terminal n t)) c → shell_up n k c'.

Lemma shell_args : Spawn.args_ok [bin_sh].
Proof. split; [by apply (bool_decide_unpack _)|done]. Qed.

(** A thread is changed but for what the scheduler looks at. *)
Lemma kernel_ok_thread c r t t' :
  kernel_ok c → zget (Sched.threads c) r = Some t →
  (Sched.state t', Sched.space t') = (Sched.state t, Sched.space t) → Sched.thread_ok r t' →
  keeps_kernel c (Sched.set_threads (zset (Sched.threads c) r t') c).
Proof.
  intros [Hs Ht Hl (u & Hu & Hu')] Hr [= Es Ep] Ht'. pose proof (zget_Some_lt _ _ _ Hr) as Hi.
  assert (∀ j, zget (zset (Sched.threads c) r t') j = if decide (r = j) then Some t' else zget (Sched.threads c) j) as Hget
    by (intros j; by apply zget_zset).
  split_and!; [split|by apply only_free_refl|done].
  - eapply Sched.sched_ok_set; [done|by rewrite <- (Sched.so_len _ Hs)|exact Ht'| |done].
    rewrite Es. by apply (Sched.so_used _ Hs).
  - exact Ht.
  - intros v. cbn [Sched.threads Sched.set_threads Sched.current_idx Sched.vm]. rewrite Hget. case_decide; [|apply Hl].
    intros [= <-]. rewrite Ep. apply Hl. by subst.
  - cbn [Sched.threads Sched.set_threads Sched.current_idx]. rewrite Hget. case_decide as E; [|by exists u].
    exists t'. split; [done|]. rewrite Es. subst r. congruence.
Qed.
(** The thread is put into terminal [n]. *)
Lemma wp_in_terminal n r c t :
  kernel_ok c → zget (Sched.threads c) r = Some t →
  wp (Sched.update_thread r (Sched.with_vt n);; Sched.update_thread r (Sched.set_cwd [47]))
    (λ _ c', c' = Sched.set_threads (zset (Sched.threads c) r (in_terminal n t)) c ∧ keeps_kernel c c') c.
Proof.
  intros Hc Ht. pose proof (zget_Some_lt _ _ _ Ht) as Hr. wp_step. apply Sched.wp_update_thread. exists t. split; [exact Ht|].
  apply Sched.wp_update_thread. exists (Sched.with_vt n t). split; [by apply zget_zset_eq|].
  cbn [Sched.threads Sched.set_threads]. rewrite zset_zset. split; [by destruct c|].
  replace (Sched.set_threads _ (Sched.set_threads _ c)) with (Sched.set_threads (zset (Sched.threads c) r (in_terminal n t)) c) by (by destruct c).
  apply (kernel_ok_thread c r t); [done|done|done|].
  destruct (Sched.so_thread _ (kn_sched _ Hc) r t Ht) as []. split; [done|done| |done].
  cbn. by apply zlen_c_array.
Qed.
End shell.

(** ** The slots *)
Section slots.
Context {P : Type} `{PageAllocatorLaws P}.
Implicit Types s : wm P.

Definition fresh_term : Vterm.vterm := Vterm.with_used true Vterm.empty.
Definition free_term (l : list Vterm.vterm) (n : Z) : Prop :=
  (∃ v, zget l n = Some v ∧ Vterm.used v = false) ∧ ∀ j v, j < n → zget l j = Some v → Vterm.used v = true.
Definition no_free_term (l : list Vterm.vterm) : Prop := ∀ j v, zget l j = Some v → Vterm.used v = true.

Lemma wp_vterm_first (t : Vterm.vterms) :
  zlen (Vterm.terms t) = Vterm.VT_MAX →
  wp Vterm.create (λ r t', (r = -1 ∧ t' = t ∧ no_free_term (Vterm.terms t)) ∨
    (free_term (Vterm.terms t) r ∧ Vterm.terms t' = zset (Vterm.terms t) r fresh_term)) t.
Proof.
  intros Hl. unfold Vterm.create. wp_step.
  apply (wp_for_range (λ i t', t' = t ∧ ∀ j v, j < i → zget (Vterm.terms t) j = Some v → Vterm.used v = true)); [done| | |].
  - split; [done|]. intros j v Hj Hv%zget_Some_lt. lia.
  - intros i t' Hi [-> Hb]. destruct (zget_lt (Vterm.terms t) i) as [v Hv]; [lia|].
    wp_step. apply wp_aget. exists v. split; [exact Hv|]. destruct (Vterm.used v) eqn:Hu.
    { wp_run. split; [done|]. intros j u Hj Huj. destruct (decide (j = i)) as [->|]; [congruence|]. apply (Hb j); [lia|done]. }
    unfold Vterm.put_term. wp_run.
    assert (free_term (Vterm.terms t) i) as Hf by (split; [by exists v|exact Hb]).
    destruct (i =? 0); wp_run; by right.
  - intros t' [-> Hb]. wp_run. left. split; [done|]. split; [done|]. intros j v Hv. apply (Hb j); [|done].
    apply zget_Some_lt in Hv. lia.
Qed.
Lemma free_term_range l n : zlen l = Vterm.VT_MAX → free_term l n → 0 ≤ n < Vterm.VT_MAX.
Proof. intros Hl [(v & Hv & _) _]. apply zget_Some_lt in Hv. lia. Qed.
Lemma fresh_term_ok : Vterm.term_ok fresh_term.
Proof. apply Vterm.term_ok_used, Vterm.empty_ok. Qed.

(** A kernel in which only the keyboard and the terminals are others. *)
Lemma wp_term_call {A} (m : M Vterm.vterms A) Q s :
  wp m (λ a t, Q a (set_sys (Kernel.set_kb (Kbd.set_vts t (Kernel.kb (sys s))) (sys s)) s)) (Kbd.vts (Kernel.kb (sys s))) →
  wp (kern_call (Kernel.vt_call m)) Q s.
Proof. intros Hm. unfold kern_call, Kernel.vt_call, Kernel.kb_call, Kbd.vt_call. by do 3 apply wp_zoom. Qed.

Lemma wp_take_term s :
  session_ok s →
  wp (kern_call (Kernel.vt_call Vterm.create)) (λ r s', session_ok s' ∧ ∃ t,
    s' = set_sys (Kernel.set_kb (Kbd.set_vts t (Kernel.kb (sys s))) (sys s)) s ∧
    ((r = -1 ∧ s' = s ∧ no_free_term (terms s)) ∨ (free_term (terms s) r ∧ Vterm.terms t = zset (terms s) r fresh_term))) s.
Proof.
  intros Hs. destruct (ok_terms _ (se_wm _ Hs)) as [Hl Ht]. apply wp_term_call.
  wp_use wp_vterm_first; [exact Hl|]. intros r t Hr. split.
  - apply sys_session; [exact Hs|]. unfold terms_ok, Vterm.terms_sound. cbn [sys set_sys Kernel.kb Kernel.set_kb Kbd.vts Kbd.set_vts].
    destruct Hr as [(_ & -> & _)|[_ ->]]; [done|]. split; [by rewrite zlen_zset|]. apply Forall_zset; [exact Ht|exact fresh_term_ok].
  - exists t. split; [done|]. destruct Hr as [(-> & -> & Hn)|Hr]; [left|by right]. split; [done|]. split; [|done].
    by destruct s as [[? ? [] ?] ? ? ? ? ? ? ? ? ? ? ?].
Qed.

(** The window is given its terminal. *)
Lemma wm_ok_vt s i v n :
  wm_ok s → blank_slots (dk s) → win_at (dk s) i = Some v →
  wm_ok (set_win i (with_vt n v) s) ∧ blank_slots (dk (set_win i (with_vt n v) s)) ∧ event s (set_win i (with_vt n v) s).
Proof.
  intros Hok Hb [Hv Hu]%win_at_get. set (s' := set_win i (with_vt n v) s).
  assert (kept (dk s) (dk s')) as K.
  { apply (kept_flags (dk s) i v (with_vt n)); [apply Hok|done|by split_and!| |].
    - intros _. destruct (good_window _ _ _ (ok_desk _ Hok) Hv Hu). by constructor.
    - by left. }
  assert (rough s') as Hr.
  { apply (rough_win s i v); [by apply ok_rough|done|done|done| |congruence]. intros []. by constructor. }
  split; [apply rough_ok; [exact Hr|apply K]|]. split; [apply Hr|]. split; [apply K|by left|done|done].
Qed.
Lemma session_window s i v n :
  session_ok s → blank_slots (dk s) → win_at (dk s) i = Some v →
  session_ok (set_win i (with_vt n v) s) ∧ blank_slots (dk (set_win i (with_vt n v) s)).
Proof.
  intros [Hok Hup Hm] Hb Hv. destruct (wm_ok_vt s i v n Hok Hb Hv) as (Hok' & Hb' & E).
  split; [|done]. split; [done|eapply event_up_to_date; [exact Hok|exact Hup|exact E]|exact Hm].
Qed.
Lemma session_vtwin s n i :
  session_ok s → 0 ≤ n < Vterm.VT_MAX → session_ok (set_vt_win (zset (VT_WIN s) n i) s).
Proof.
  intros [[] Hup Hm] Hn. split; [constructor; try done|exact Hup|exact Hm]. cbn [VT_WIN set_vt_win]. by rewrite zlen_zset.
Qed.
End slots.

(** ** [new_terminal] *)
Section terminal.
Context {P : Type} `{PageAllocatorLaws P}.
Implicit Types s : wm P.

(** A window opens, and the kernel's tables stay what they were. *)
Lemma wp_open_kernel s str px py pw ph k :
  session_ok s → blank_slots (dk s) → kernel_ok (Kernel.sc (sys s)) → sane str px py pw ph →
  wp (open_window str px py pw ph k) (λ r s', session_ok s' ∧ blank_slots (dk s') ∧ around s' = around s ∧
    keeps_kernel (Kernel.sc (sys s)) (Kernel.sc (sys s')) ∧ no_damage_lost s s' ∧
    ((r = -1 ∧ dk s' = dk s) ∨ (0 ≤ r ∧ opened str px py pw ph k r s s'))) s.
Proof.
  intros [Hok Hup Hm] Hb Hk Hs. pose proof Hk as [Hsc [Hsp _] _ _]. pose proof Hs as (_ & _ & _ & Hw & Hh).
  wp_use (wp_leaves around); [apply around_create_window|apply wp_spends; [by apply spends_create_window|apply Hsp|apply Hsp|]|].
  { apply (wp_create_window FONT8X16 FONT8X16_ok); [done|done|apply Hsp|exact Hs]. }
  intros r s' [[(Hok' & Hp' & E & Hr) Hof] A]. pose proof (around_sys _ _ A) as Esys. pose proof A as [= Em _ _ _ _].
  split_and!.
  - split; [done|eapply event_up_to_date; [exact Hok|exact Hup|exact E]|by rewrite Em].
  - destruct Hr as [[_ [_ [g ->]]]|Ho]; [done|by eapply opened_blank].
  - exact A.
  - rewrite Esys. cbn [Kernel.sc Kernel.set_sc]. apply keeps_only_free; [done|exact Hof|by apply Sched.sched_ok_vm|done|done].
  - apply E.
  - destruct Hr as [[-> [_ [g ->]]]|Ho]; [by left|right]. split; [|done].
    destruct Ho as (v & _ & _ & _ & Hv & _). apply zget_Some_lt in Hv. lia.
Qed.

Definition spawn_shell (n : Z) : M (wm P) unit :=
  tid ← kern_call (Proc.spawn_path bin_sh [bin_sh]);
  if tid >=? 0 then
    t ← kern_call (Kernel.sched_call (Sched.thread_at tid));
    match t with
    | Some _ =>
        kern_call (Kernel.sched_call (Sched.update_thread tid (Sched.with_vt n)));;
        kern_call (Kernel.sched_call (Sched.update_thread tid (Sched.set_cwd [47])))
    | None => mret tt
    end
  else mret tt.

Lemma wp_threads {A} (m : M (Sched.sched P) A) Q s :
  wp m (λ a c, Q a (set_sys (Kernel.set_sc c (sys s)) s)) (Kernel.sc (sys s)) → wp (kern_call (Kernel.sched_call m)) Q s.
Proof. intros Hm. unfold kern_call, Kernel.sched_call. by do 2 apply wp_zoom. Qed.
Lemma set_sc_twice s (c c' : Sched.sched P) :
  set_sys (Kernel.set_sc c' (sys (set_sys (Kernel.set_sc c (sys s)) s))) (set_sys (Kernel.set_sc c (sys s)) s) =
  set_sys (Kernel.set_sc c' (sys s)) s.
Proof. done. Qed.

Lemma wp_spawn_shell n s :
  shell_ready (sys s) →
  wp (spawn_shell n) (λ _ s', ∃ c, s' = set_sys (Kernel.set_sc c (sys s)) s ∧
    keeps_kernel (Kernel.sc (sys s)) c ∧ shell_up n (sys s) c) s.
Proof.
  intros [Hfs Hk Hexe]. unfold spawn_shell. wp_step. unfold kern_call at 1. apply wp_zoom.
  wp_use wp_spawn_path; [done|done|apply shell_args|done|]. intros r k' (c & -> & K & Hcase). rewrite Z.geb_leb.
  destruct Hcase as [(-> & -> & Hno)|(data & Hd & [[-> Hf]|[Hr (space & pa & Hs)]])].
  - wp_run. exists (Kernel.sc (sys s)). split; [done|]. split; [exact K|by apply no_shell].
  - wp_run. exists c. split; [done|]. split; [exact K|by eapply shell_failed].
  - rewrite (proj2 (Z.leb_le 0 r)) by done. pose proof (Spawn.sd_slot _ _ _ _ _ _ _ _ Hs) as Hslot.
    apply Sched.first_unused_some in Hslot as [Hr32 _].
    destruct (Sched.thread_at_lt c r (kn_sched _ (proj1 K)) Hr32) as [t Ht].
    wp_step. apply wp_threads. unfold Sched.thread_at. rewrite Z.geb_leb, (proj2 (Z.leb_gt _ _)) by lia.
    wp_step. apply wp_aget. exists t. split; [exact Ht|]. wp_run. rewrite set_sc_twice.
    pose proof (wp_in_terminal n r c t (proj1 K) Ht) as Hin. apply (proj1 (wp_bind _ _ _ _)) in Hin.
    apply wp_threads. eapply wp_mono; [exact Hin|]. intros [] c1 Hc1. cbv beta in Hc1. rewrite set_sc_twice.
    apply wp_threads. eapply wp_mono; [exact Hc1|]. intros [] c2 [E K2]. rewrite set_sc_twice. exists c2.
    split; [done|]. split; [by eapply keeps_trans_kernel|]. by eapply shell_runs.
Qed.

(** What follows once window [wid] is there. *)
Definition attach (n wid : Z) : M (wm P) unit :=
  on_win wid (modify (with_vt n));;
  _ ← aget VT_WIN n;
  modify (λ s, set_vt_win (zset (VT_WIN s) n wid) s);;
  tid ← kern_call (Proc.spawn_path bin_sh [bin_sh]);
  (if tid >=? 0 then
     t ← kern_call (Kernel.sched_call (Sched.thread_at tid));
     match t with
     | Some _ =>
         kern_call (Kernel.sched_call (Sched.update_thread tid (Sched.with_vt n)));;
         kern_call (Kernel.sched_call (Sched.update_thread tid (Sched.set_cwd [47])))
     | None => mret tt
     end
   else mret tt);;
  route_keyboard n.
(** The kernel when the keyboard belongs to terminal [n] and threads are [c]. *)
Definition routed (n : Z) c s : Kernel.kern P :=
  Kernel.set_kb (Kbd.set_route n (Kernel.kb (sys s))) (Kernel.set_sc c (sys s)).
Lemma wp_attach n wid v s :
  session_ok s → blank_slots (dk s) → shell_ready (sys s) → win_at (dk s) wid = Some v → 0 ≤ n < Vterm.VT_MAX →
  wp (attach n wid)
    (λ _ s', session_ok s' ∧ blank_slots (dk s') ∧ event s s' ∧ ∃ c,
      s' = set_sys (routed n c s) (set_vt_win (zset (VT_WIN s) n wid) (set_win wid (with_vt n v) s)) ∧
      keeps_kernel (Kernel.sc (sys s)) c ∧ shell_up n (sys s) c) s.
Proof.
  intros Hs Hb Hsh Hv Hn. pose proof Hv as [Hv' _]%win_at_get.
  destruct (session_window s wid v n Hs Hb Hv) as [Hs1 Hb1]. destruct (wm_ok_vt s wid v n (se_wm _ Hs) Hb Hv) as (_ & _ & E1).
  unfold attach. wp_step. eapply wp_on_win; [exact Hv'|]. wp_run.
  destruct (zget_lt (VT_WIN s) n) as [x Hx]; [by rewrite (ok_vtwin _ (se_wm _ Hs))|].
  apply wp_aget. exists x. split; [exact Hx|]. wp_step. wp_step.
  pose proof (session_vtwin _ n wid Hs1 Hn) as Hs2. set (s2 := set_vt_win _ _) in *.
  apply wp_bind_assoc. wp_step. wp_use (wp_spawn_shell n); [exact Hsh|]. intros [] s3 (c & -> & K & Hup).
  unfold route_keyboard, kern_call, Kernel.kb_call. do 2 apply wp_zoom. wp_run.
  split_and!; [|exact Hb1| |by exists c].
  - apply (sys_session (routed n c s) s2 Hs2). exact (ok_terms _ (se_wm _ Hs)).
  - destruct E1. by split.
Qed.

Lemma sane_title n title :
  zget term_titles n = Some title →
  sane title (100 + 40 * n) (120 + 40 * n) (Vterm.VT_COLS * Surface.FONT_W + 8) (Vterm.VT_ROWS * Surface.FONT_H + 8).
Proof.
  intros Ht. pose proof (zget_Some_lt _ _ _ Ht) as Hn. change (zlen term_titles) with 4 in Hn.
  split; [|split_and!; try lia; done].
  assert (Forall (Forall (λ c, 0 ≤ c < 256)) term_titles) as Hall by (by apply (bool_decide_unpack _)).
  exact (Forall_zget _ _ _ _ Hall Ht).
Qed.

(** Terminal [n] is shown in window [wid]. *)
Record term_shown (n wid : Z) s s' : Prop := {
  ts_window : ∃ v, win_at (dk s') wid = Some v ∧ vt v = n ∧ on_paint v = Some PaintTerminal ∧ stale v = false ∧
    (wx v, wy v) = (100 + 40 * n, 120 + 40 * n);
  ts_focus : FOCUSED_IDX (dk s') = wid;
  ts_others j : j ≠ wid → shape <$> zget (WINS (dk s')) j = shape <$> zget (WINS (dk s)) j;
  ts_vtwin : VT_WIN s' = zset (VT_WIN s) n wid;
  ts_route : Kbd.route_vt (Kernel.kb (sys s')) = n;
  ts_shell : ∃ c, keeps_kernel (Kernel.sc (sys s)) c ∧ shell_up n (Kernel.set_sc c (sys s)) (Kernel.sc (sys s'));
}.
Definition open_terminal : M (wm P) unit := new_terminal FONT8X16.

(** The window's part, terminal [n] just taken in [s1]. *)
Lemma wp_show_terminal s1 n title :
  session_ok s1 → blank_slots (dk s1) → shell_ready (sys s1) → zget term_titles n = Some title →
  wp (wid ← create_window FONT8X16 title (100 + 40 * n) (120 + 40 * n)
        (Vterm.VT_COLS * Surface.FONT_W + 8) (Vterm.VT_ROWS * Surface.FONT_H + 8) (Some PaintTerminal);
      if wid <? 0 then mret tt else attach n wid)
    (λ _ s', session_ok s' ∧ blank_slots (dk s') ∧ shell_ready (sys s') ∧ no_damage_lost s1 s' ∧
      (ms s', inp s', WANT_NEW_TERM s', Kernel.fs (sys s'), terms s') = (ms s1, inp s1, WANT_NEW_TERM s1, Kernel.fs (sys s1), terms s1) ∧
      ((dk s' = dk s1 ∧ VT_WIN s' = VT_WIN s1 ∧ Kernel.kb (sys s') = Kernel.kb (sys s1)) ∨ ∃ wid, term_shown n wid s1 s')) s1.
Proof.
  intros Hs Hb Hsh Ht. pose proof (zget_Some_lt _ _ _ Ht) as Hn. change (zlen term_titles) with 4 in Hn.
  wp_step. wp_use (wp_open_kernel s1); [exact Hs|exact Hb|apply Hsh|by apply sane_title|].
  intros wid s2 (Hs2 & Hb2 & A & K & D & Hcase). pose proof (around_sys _ _ A) as Esys. pose proof A as [= Em Ei Ev Ew _].
  assert (shell_ready (sys s2)) as Hsh2.
  { destruct Hsh as [Hfs _ Hx]. rewrite Esys in K |- *. split; [exact Hfs|apply K|exact Hx]. }
  destruct Hcase as [[-> Ed]|[Hw Ho]].
  - wp_run. split_and!; [done|done|done|done|unfold terms; rewrite Em, Ei, Ew, Esys; done|left; by rewrite Esys].
  - rewrite (proj2 (Z.ltb_ge wid 0)) by done. destruct Ho as (v0 & v & b & f & H1 & H2 & H3 & Hf & Hv & Hsp & Hst & Hj).
    wp_use wp_attach; [done|done|done|exact Hv|exact Hn|]. intros [] s3 (Hs3 & Hb3 & E3 & c & -> & K3 & Hup).
    split_and!; [done|done| | | |right; exists wid; split].
    + destruct Hsh2 as [Hfs _ Hx]. split; [exact Hfs|apply K3|exact Hx].
    + eapply tracked_trans; [exact D|apply E3].
    + unfold terms. cbn. rewrite Em, Ei, Ew, Esys. done.
    + exists (with_vt n v). injection Hsp as _ Ex Ey _ _ Eu _ _ Ep _. split_and!; [|done|exact Ep|exact Hst|cbn; by rewrite Ex, Ey].
      apply win_at_get in Hv as [Hv Hu]. apply win_at_get. split; [by apply (set_win_get wid _ s2 v)|done].
    + exact Hf.
    + intros j Hne. cbn. rewrite zget_zset_ne; [by apply Hj| |done]. apply win_at_get in Hv as [Hv%zget_Some_lt _]. lia.
    + cbn. by rewrite Ev.
    + done.
    + exists (Kernel.sc (sys s2)). split; [exact K|]. rewrite Esys in Hup |- *. exact Hup.
Qed.

(** What opening a terminal comes to. *)
Record terminal_opened s s' : Prop := {
  to_session : session_ok s';
  to_slots : blank_slots (dk s');
  to_ready : shell_ready (sys s');
  to_damage : no_damage_lost s s';
  to_rest : (ms s', inp s', WANT_NEW_TERM s', Kernel.fs (sys s')) = (ms s, inp s, WANT_NEW_TERM s, Kernel.fs (sys s));
  to_case : (no_free_term (terms s) ∧ s' = s) ∨
    ∃ n, free_term (terms s) n ∧ terms s' = zset (terms s) n fresh_term ∧
      ((dk s' = dk s ∧ VT_WIN s' = VT_WIN s ∧ Kbd.route_vt (Kernel.kb (sys s')) = Kbd.route_vt (Kernel.kb (sys s))) ∨
       ∃ wid, term_shown n wid s s');
}.
Lemma wp_new_terminal s :
  session_ok s → blank_slots (dk s) → shell_ready (sys s) → wp open_terminal (λ _ s', terminal_opened s s') s.
Proof.
  intros Hs Hb Hsh. unfold open_terminal, new_terminal. wp_step.
  wp_use wp_take_term; [exact Hs|]. intros n s1 (Hs1 & t & -> & Hcase).
  destruct Hcase as [(-> & -> & Hno)|[Hf Et]].
  { wp_run. split; [done|done|done|apply tracked_refl|done|by left]. }
  pose proof (free_term_range _ _ (proj1 (ok_terms _ (se_wm _ Hs))) Hf) as Hn. change Vterm.VT_MAX with 4 in Hn.
  rewrite (proj2 (Z.ltb_ge n 0)) by lia. destruct (zget_lt term_titles n) as [title Ht]; [exact Hn|].
  wp_step. apply wp_of_option. exists title. split; [exact Ht|]. narrow.
  set (s1 := set_sys _ s) in *. assert (shell_ready (sys s1)) as Hsh1 by (by destruct Hsh).
  eapply wp_mono; [exact (wp_show_terminal s1 n title Hs1 Hb Hsh1 Ht)|].
  intros [] s' (H1 & H2 & H3 & H4 & E & Hshow). injection E as E1 E2 E3 E4 E5.
  split; [done|done|done|done|by rewrite E1, E2, E3, E4|right]. exists n. split; [exact Hf|]. split; [by rewrite E5|].
  destruct Hshow as [(A & B & C)|[wid [W1 W2 W3 W4 W5 W6]]]; [left; by rewrite A, B, C|right]. exists wid. split; try done.
  destruct W6 as (c & K & U). exists c. split; [exact K|]. destruct U; [by apply no_shell|by eapply shell_failed|by eapply shell_runs].
Qed.

(** C13: a new terminal.  In a session, with the kernel's tables and the file
    tree in order and an executable [/bin/sh], if there is one, asking for a
    terminal returns and keeps all of that in order, and everything that looks
    different is damaged.  If a terminal is free the first free one is taken,
    blank; a focused window shows it, the keyboard is routed to it, and it runs
    a new process of [/bin/sh] in the root directory, or no process if there is
    no such file, memory or thread.  If there is no room for a window, the
    terminal is taken and nothing is shown; if no terminal is free, nothing
    happens. *)
Theorem new_terminal_opens s :
  session_ok s → blank_slots (dk s) → shell_ready (sys s) → wp open_terminal (λ _ s', terminal_opened s s') s.
Proof. apply wp_new_terminal. Qed.
End terminal.

(** ** A turn of the compositor *)
Section turns.
Context {P : Type} `{PageAllocatorLaws P}.
Implicit Types g : wm P.

(** Threads and files. *)
Definition threads_of g : Sched.sched P * Tmpfs.tmpfs := (Kernel.sc (Wm.sys g), Kernel.fs (Wm.sys g)).
Lemma threads_kb_call {A} (c : M Kbd.kbd A) : leaves threads_of (Wm.kern_call (P := P) (Kernel.kb_call c)).
Proof.
  intros g a g'. unfold Wm.kern_call, Kernel.kb_call, zoom.
  destruct (c _) as [[x v']| |]; [|done|done]. by intros [= <- <-].
Qed.
Lemma threads_vt_call {A} (c : M Vterm.vterms A) : leaves threads_of (Wm.kern_call (P := P) (Kernel.vt_call c)).
Proof. apply (threads_kb_call (Kbd.vt_call c)). Qed.
Lemma threads_on_win {A} i (c : M window A) : leaves threads_of (Wm.on_win (P := P) i c).
Proof. by apply leaves_on_win. Qed.
Lemma threads_desk_call {A} (c : M desk A) : leaves threads_of (Wm.desk_call (P := P) c).
Proof. by apply leaves_zoom. Qed.
Lemma threads_update_mouse : leaves threads_of (Wm.wm_update_mouse (P := P)).
Proof. by apply leaves_update_mouse. Qed.
Hint Resolve threads_kb_call threads_vt_call threads_on_win threads_desk_call threads_update_mouse : leaves.
Lemma threads_frame_render i : leaves threads_of (Wm.frame_render (P := P) Font.FONT8X16 i).
Proof. unfold Wm.frame_render, Wm.run_hook, Wm.paint_terminal, Wm.paint_demo, Wm.timer_ticks, Wm.get_win. leaf. Qed.
Lemma threads_repaint rs : leaves threads_of (Wm.repaint (P := P) Font.FONT8X16 rs).
Proof. induction rs; cbn [Wm.repaint]; unfold Wm.repaint_rect, Wm.bb_call, Wm.get_win; leaf. Qed.
Lemma threads_flip rs : leaves threads_of (Wm.flip (P := P) rs).
Proof. induction rs; cbn [Wm.flip]; unfold Wm.flip_rect, Wm.fb_call; leaf. Qed.
Hint Resolve threads_frame_render threads_repaint threads_flip : leaves.
(** A line of the log. *)
Definition kernel_threads (k : Kernel.kern P) : Sched.sched P * Tmpfs.tmpfs := (Kernel.sc k, Kernel.fs k).
Lemma kernel_write_str l buf : leaves kernel_threads (Log.write_str (P := P) l buf).
Proof. revert buf. induction l as [|b l IH]; intros buf; cbn [Log.write_str]; unfold Log.push_byte, Log.putc; leaf. Qed.
Lemma kernel_klog b l : leaves kernel_threads (Log.klog (P := P) b l).
Proof.
  assert (∀ l, leaves kernel_threads (Log.term_put (P := P) l)) as Hput.
  { intros l'. unfold Log.term_put. induction l' as [|c l' IH]; cbn [Lines.each]; [leaf|].
    apply leaves_bind; [by apply leaves_zoom|]. intros []. exact IH. }
  pose proof kernel_write_str. unfold Log.klog. leaf.
Qed.
Lemma threads_log b l : leaves threads_of (Wm.kern_call (P := P) (Log.klog_info b l)).
Proof.
  assert (leaves kernel_threads (Log.klog_info (P := P) b l)) as Hl.
  { pose proof (kernel_klog b). unfold Log.klog_info. leaf. }
  intros g a g'. unfold Wm.kern_call, zoom. destruct (Log.klog_info b l (Wm.sys g)) as [[x k]| |] eqn:E; [|done|done].
  intros [= <- <-]. exact (Hl _ _ _ E).
Qed.
Hint Resolve threads_log : leaves.
Lemma threads_deliver_dirty : leaves threads_of (Wm.deliver_dirty (P := P)).
Proof.
  unfold Wm.deliver_dirty. apply leaves_bind; [leaf|]. intros d. apply leaves_bind; [leaf|]. intros [].
  induction d as [|i d IH]; cbn [Wm.each]; [leaf|]. apply leaves_bind; [|by intros []]. unfold Wm.on_vt_dirty. leaf.
Qed.
Hint Resolve threads_deliver_dirty : leaves.
(** A turn that opens no terminal. *)
Definition shown : M (Wm.wm P) unit :=
  Wm.wm_update_mouse;; Wm.collect_damage;; Wm.refresh Font.FONT8X16;;
  d ← Wm.take_damage; Wm.present Font.FONT8X16 d.
Lemma threads_shown : leaves threads_of shown.
Proof.
  unfold shown, Wm.collect_damage, Wm.refresh, Wm.take_damage, Wm.present, Wm.draw_cursor, Wm.count_frame, Wm.klog_info, Wm.bb_call,
    Wm.timer_ticks, Wm.get_win. leaf.
Qed.
Lemma turn_shown g : Wm.WANT_NEW_TERM g = false → turn g = shown g.
Proof.
  intros Hw. unfold turn, shown, Wm.compositor_turn, Wm.gather, mbind, M_bind, gets. rewrite Hw. unfold mret, M_ret.
  destruct (Wm.wm_update_mouse g) as [[[] g1]| |]; [|done|done].
  by destruct (Wm.collect_damage g1) as [[[] g2]| |].
Qed.


(** A turn in which a terminal was asked for opens it first. *)
Lemma wp_turn_asked g (Q : unit → wm P → Prop) :
  WANT_NEW_TERM g = true →
  wp (open_terminal (P := P)) (λ _ g', WANT_NEW_TERM g' = false ∧ wp turn Q g') (set_want false g) → wp turn Q g.
Proof.
  intros Hw Ho. unfold turn, compositor_turn, gather in *. wp_step. wp_step. wp_step. rewrite Hw. wp_step. wp_step. wp_step.
  eapply wp_mono; [exact Ho|]. intros [] g' [Hw' Ht].
  apply (proj1 (wp_bind _ _ _ _)), (proj1 (wp_bind _ _ _ _)), (proj1 (wp_gets _ _ _)) in Ht. rewrite Hw' in Ht.
  exact Ht.
Qed.

Lemma ready_threads g g' : threads_of g' = threads_of g → shell_ready (sys g) → shell_ready (sys g').
Proof. intros [= E1 E2] []. split; by rewrite ?E1, ?E2. Qed.

Lemma wp_quiet_turn g :
  session_ok g → blank_slots (dk g) → WANT_NEW_TERM g = false →
  wp turn (λ _ g', presented FONT8X16 g' ∧ session_ok g' ∧ blank_slots (dk g') ∧ ms g' = ms g ∧ threads_of g' = threads_of g) g.
Proof.
  intros Hs Hb Hw. unfold wp. rewrite turn_shown by done.
  eapply wp_mono; [apply (wp_leaves threads_of shown); [apply threads_shown|]|].
  { unfold wp. rewrite <- turn_shown by done.
    exact (wp_compositor_turn FONT8X16 FONT8X16_ok _ (se_wm _ Hs) (se_shown _ Hs) Hw). }
  intros [] g' [(Hp & Hm & s1 & E1 & T1) Ht]. split_and!; [done| | |done|done].
  - apply presented_session; [done|]. rewrite Hm. apply Hs.
  - eapply idles_blank; [|exact Hb]. eapply idles_trans; [by apply mouse_event_idles|by apply table_idles].
Qed.
Lemma wp_any_turn g :
  session_ok g → blank_slots (dk g) → (WANT_NEW_TERM g = true → shell_ready (sys g)) → Sched.sched_ok (Kernel.sc (sys g)) →
  wp turn (λ _ g', presented FONT8X16 g' ∧ session_ok g' ∧ blank_slots (dk g') ∧ ms g' = ms g ∧
    Sched.sched_ok (Kernel.sc (sys g')) ∧ (shell_ready (sys g) → shell_ready (sys g'))) g.
Proof.
  intros Hs Hb Hsh Hsc. destruct (WANT_NEW_TERM g) eqn:Hw.
  2: { wp_use wp_quiet_turn; [done|done|done|]. intros [] g' (H1 & H2 & H3 & H4 & Et). split_and!; try done.
       - by injection Et as -> _.
       - by apply ready_threads. }
  apply wp_turn_asked; [done|].
  wp_use wp_new_terminal; [by apply want_session|done|exact (Hsh eq_refl)|].
  intros [] g1 [Hs1 Hb1 Hr1 _ E _]. injection E as Em _ Ew _. split; [by rewrite Ew|].
  wp_use wp_quiet_turn; [done|done|by rewrite Ew|]. intros [] g' (H1 & H2 & H3 & H4 & Et).
  pose proof (ready_threads _ _ Et Hr1) as Hr. split_and!; try done; [by rewrite H4, Em|apply Hr].
Qed.

(** C7: every turn of the compositor makes the screen right, whether or not
    a terminal was asked for: it always returns, whatever windows, damage and
    mouse state there are.  When the frame is on the screen no damage is
    pending, every frame cache is up to date, and every pixel of the screen
    shows the arrow, or else the topmost window's cached frame, or else the
    header line or the wallpaper - except that where the header line passes
    under a window ([hidden_header]) the line's pixels may show through.  The
    turn ends by counting the frame.  That leaves the desk as it is unless a
    second has passed since the last line of statistics and the log is shown on
    terminal 0: then the line is printed there and its window is out of date
    again, and damaged. *)
Theorem every_turn_shows g :
  session_ok g → blank_slots (dk g) → Sched.sched_ok (Kernel.sc (sys g)) → (WANT_NEW_TERM g = true → shell_ready (sys g)) →
  wp turn (λ _ g', session_ok g' ∧ blank_slots (dk g') ∧ ms g' = ms g ∧ ∃ g1,
    fresh g1 ∧ (∀ px py, ¬ covers (dk g1) px py) ∧
    (∀ px py, on_screen g' px py → hidden_header g1 px py ∨
      Fb.pixel (fbs g') px py = u32 (default 0
        match cursor_pixel (Mouse.X (ms g)) (Mouse.Y (ms g)) px py with
        | Some c => Some c
        | None => match look (dk g1) px py with
                  | Some c => Some c
                  | None => backdrop FONT8X16 (Fb.FB_W (fbs g')) px py
                  end
        end)) ∧
    printed g1 g' ∧ (dk g' = dk g1 ∨ line_due g1)) g.
Proof.
  intros Hs Hb Hsc Hsh. wp_use wp_any_turn; [done|done|done|done|].
  intros [] g' ((g1 & (Hok1 & Hnc & Hf & Cx & Cy & Hpix) & Hp & Hq) & Hs' & Hb' & M & _ & _).
  split_and!; [done|done|done|]. exists g1. destruct (printed_ok _ _ Hok1 Hp) as [_ He].
  assert (ms g1 = ms g) as M1.
  { rewrite <- M. by destruct Hp as (d & k & ph & st & -> & _). }
  split_and!; [done|done| |done|done]. intros px py Hpx. unfold on_screen in Hpx. rewrite (ev_fb _ _ He) in *.
  destruct (Hpix px py Hpx) as [|Hx]; [by left|right]. rewrite Hx.
  unfold scene, cursor_at. rewrite Cx, Cy, M1. pose proof (ok_mouse _ (se_wm _ Hs)) as [Mx My].
  by rewrite (proj2 (Z.ltb_ge _ 0)) by lia.
Qed.
End turns.

(** ** Witness: a terminal is asked for on a machine with 1000 free pages *)
Definition one_region (n : Z) : list Pmm.memmap_entry := [Pmm.mkEntry 4096 (n * 4096) 0].
Definition stocked : Pmm.pmm :=
  match Pmm.init (Some (one_region 1000)) (Some (2 ^ 63)) Pmm.pmm_zero with
  | Done (_, s) => s
  | _ => Pmm.pmm_zero
  end.
Definition stocked_machine : Sched.sched Pmm.pmm := Sched.booted 0 (mkVmm stocked (λ _, 0) 0x1000000 0x1000000).
Lemma stocked_spec : Pmm.pmm_ok stocked ∧ ∀ j, Pmm.page_free stocked j = true ↔ 1 ≤ j ≤ 1000.
Proof.
  pose proof (Pmm.wp_pmm_init (one_region 1000) (2 ^ 63) Pmm.pmm_zero eq_refl) as Hw.
  unfold wp in Hw. unfold stocked. destruct (Pmm.init _ _ _) as [[[] s]| |].
  - destruct Hw as (Hinv & _ & _ & Hfree).
    { unfold one_region, Pmm.entry_ok, PAGE_SIZE. repeat constructor; simpl; lia. }
    { by intros [|i] [|k] e f j. }
    assert (∀ j, Pmm.page_free s j = true ↔ 1 ≤ j ≤ 1000) as Hf.
    { intros j. rewrite Hfree. unfold one_region. rewrite Exists_cons, Exists_nil.
      unfold Pmm.usable_page, Pmm.LIMINE_MEMMAP_USABLE, PAGE_SIZE. simpl. pose proof Pmm.BITMAP_PAGES_val. lia. }
    split; [|exact Hf]. split; [exact Hinv|]. apply not_true_iff_false. rewrite Hf. lia.
  - destruct Hw; [unfold one_region, Pmm.entry_ok, PAGE_SIZE; repeat constructor; simpl; lia|by intros [|i] [|k] e f j].
  - destruct Hw; [unfold one_region, Pmm.entry_ok, PAGE_SIZE; repeat constructor; simpl; lia|by intros [|i] [|k] e f j].
Qed.
Lemma stocked_ok : kernel_ok stocked_machine.
Proof.
  destruct stocked_spec as [Hq Hf]. split.
  - apply Sched.booted_ok.
  - split; [|done]. apply empty_root_ok; [done|exact Hq|done|].
    intros [_ Hx]. apply Hf in Hx. change (1 ≤ 4096 ≤ 1000) in Hx. lia.
  - by intros t [= <-] _.
  - by eexists.
Qed.

Definition shell_ops : list Tmpfs.op := [Tmpfs.OpMkdir (str "/bin"); Tmpfs.OpCreate bin_sh Elf.demo_image].
Definition shell_fs : Tmpfs.tmpfs :=
  match Tmpfs.run_ops shell_ops (Tmpfs.root_only (λ _, 0)) with
  | Done (_, s) => s
  | _ => Tmpfs.root_only (λ _, 0)
  end.
Lemma shell_tree_ok : Tmpfs.fs_ok shell_fs.
Proof.
  assert (Forall Tmpfs.op_ok shell_ops) as Hops by (repeat constructor; done).
  pose proof (Tmpfs.wp_run_ops shell_ops (Tmpfs.root_only (λ _, 0)) (Tmpfs.root_only_good _) Hops) as Hw.
  unfold wp in Hw. unfold shell_fs. by destruct (Tmpfs.run_ops _ _) as [[a s]| |]; [apply Hw|..].
Qed.
Definition asked : wm Pmm.pmm :=
  set_want true (set_sys (Kernel.mkKern stocked_machine shell_fs (Kernel.kb demo_sys) []) (demo 0 0 (-1))).
Lemma asked_ready : session_ok asked ∧ blank_slots (dk asked) ∧ shell_ready (sys asked).
Proof.
  split; [apply want_session, sys_session; [by apply demo_session; left|]|split; [|split]].
  - exact (ok_terms _ (demo_wm_ok 0 0 (-1) (or_introl eq_refl))).
  - apply demo_blank.
  - exact shell_tree_ok.
  - exact stocked_ok.
  - intros data Hd _. assert (file_at shell_fs bin_sh = Some Elf.demo_image) as Hf by (vm_compute; reflexivity).
    change (file_at shell_fs bin_sh = Some data) in Hd. rewrite Hf in Hd. injection Hd as <-.
    split; [reflexivity|]. split; [exact Elf.demo_image_ok|by vm_compute].
Qed.
Lemma new_terminal_opens_witness :
  wp open_terminal (λ _ s', session_ok s' ∧ terms s' = zset (terms asked) 1 fresh_term ∧
    (dk s' = dk asked ∨ ∃ wid, term_shown 1 wid asked s')) asked.
Proof.
  destruct asked_ready as (Hs & Hb & Hr). eapply wp_mono; [apply (new_terminal_opens asked Hs Hb Hr)|].
  intros [] s' [Hs' _ _ _ _ Hc]. split; [exact Hs'|].
  assert (zget (terms asked) 1 = Some Vterm.empty) as H1 by reflexivity.
  destruct Hc as [[Hno _]|(n & [(v & Hv & Hu) Hlow] & Ht & Hc)]; [by specialize (Hno 1 _ H1)|].
  assert (n = 1) as ->.
  { destruct (decide (1 < n)) as [Hn|Hn]; [by specialize (Hlow 1 _ Hn H1)|]. pose proof (zget_Some_lt _ _ _ Hv).
    destruct (decide (n = 0)) as [->|]; [|lia]. by injection Hv as <-. }
  split; [exact Ht|]. destruct Hc as [(H2 & _)|Hc]; [by left|by right].
Defined.
Lemma every_turn_shows_witness :
  wp turn (λ _ g', session_ok g' ∧ ∃ g1 : wm Pmm.pmm, (∀ px py, ¬ covers (dk g1) px py) ∧ (dk g' = dk g1 ∨ line_due g1)) asked.
Proof.
  destruct asked_ready as (Hs & Hb & Hr). eapply wp_mono.
  - apply (every_turn_shows asked Hs Hb); [apply (kn_sched _ stocked_ok)|intros _; exact Hr].
  - intros [] g' (H1 & _ & _ & g1 & _ & H2 & _ & _ & H4). split; [exact H1|]. by exists g1.
Defined.
End Terminal.
