(* ===== verification/Safety.v ===== *)
(** * Whatever a system call does, if it comes back

    Partial correctness of everything a thread can make the kernel do: a
    system call with any arguments, a waiting call that goes on, and a turn of
    the kernel's shell.  Such a call may fault, wait for good or panic; when it
    comes back, the terminals hold bytes in their grids, and the thread table is
    well formed.  [keeps] composes along the code, so the proofs are one search
    ([keep]). *)
From S2P Require Import Prelude Lines PageAlloc Mem Vmm UserMem Teardown Elf Tmpfs Sched Ring Vterm Kbd Kernel Log Proc Shell Syscall.

Module Safety.
Import Lines Kernel.

(** ** The calculus *)
Section calculus.
Context {S : Type} (I : S → Prop).
Definition keeps {A} (m : M S A) : Prop := ∀ s a s', I s → m s = Done (a, s') → I s'.

Lemma keeps_wp {A} (m : M S A) : (∀ s, I s → wp m (λ _, I) s) → keeps m.
Proof. intros Hm s a s' Hs E. specialize (Hm s Hs). unfold wp in Hm. by rewrite E in Hm. Qed.
Lemma keeps_bind {A B} (m : M S A) (k : A → M S B) : keeps m → (∀ a, keeps (k a)) → keeps (m ≫= k).
Proof.
  intros Hm Hk s b s' Hs. unfold mbind, M_bind. destruct (m s) as [[a s1]| |] eqn:E; [|done|done].
  apply (Hk a). exact (Hm _ _ _ Hs E).
Qed.
Lemma keeps_ret {A} (a : A) : keeps (mret a).
Proof. by intros s b s' Hs [= _ <-]. Qed.
Lemma keeps_gets {A} (f : S → A) : keeps (gets f).
Proof. by intros s b s' Hs [= _ <-]. Qed.
Lemma keeps_modify (f : S → S) : (∀ s, I s → I (f s)) → keeps (modify f).
Proof. intros Hf s b s' Hs [= _ <-]. auto. Qed.
Lemma keeps_panic {A} : keeps (panic : M S A).
Proof. done. Qed.
Lemma keeps_of_option {A} (o : option A) : keeps (of_option o).
Proof. destruct o; [apply keeps_ret|apply keeps_panic]. Qed.
Lemma keeps_aget {A} (f : S → list A) i : keeps (aget f i).
Proof. apply keeps_bind; [apply keeps_gets|intros l; apply keeps_of_option]. Qed.
Lemma keeps_loop {T R} n (step : T → M S (T + R)) t : (∀ t, keeps (step t)) → keeps (loop n step t).
Proof.
  intros Hs. revert t. induction n as [|n IH]; intros t; cbn [loop]; [done|].
  apply keeps_bind; [done|]. intros [t'|r]; [apply IH|apply keeps_ret].
Qed.
Lemma keeps_for_range {R} lo hi (body : Z → M S (option R)) : (∀ i, keeps (body i)) → keeps (for_range lo hi body).
Proof.
  intros Hb. unfold for_range. generalize (Z.to_nat (hi - lo)). intros n. revert lo.
  induction n as [|n IH]; intros i; cbn [for_from]; [apply keeps_ret|].
  apply keeps_bind; [done|]. intros [r|]; [apply keeps_ret|apply IH].
Qed.
Lemma keeps_for_each lo hi (body : Z → M S unit) : (∀ i, keeps (body i)) → keeps (for_each lo hi body).
Proof.
  intros Hb. apply keeps_bind; [apply keeps_for_range|intros ?; apply keeps_ret].
  intros i. apply keeps_bind; [done|intros ?; apply keeps_ret].
Qed.
Lemma keeps_each f l : (∀ i, keeps (f i)) → keeps (each f l).
Proof. intros Hf. induction l as [|i l IH]; cbn [each]; [apply keeps_ret|]. by apply keeps_bind. Qed.
End calculus.
Lemma keeps_zoom {S T A} (I : S → Prop) (J : T → Prop) (get : S → T) put (m : M T A) :
  (∀ s, I s → J (get s)) → (∀ s t, I s → J t → I (put t s)) → keeps J m → keeps I (zoom get put m).
Proof.
  intros Hg Hp Hm s a s' Hs. unfold zoom. destruct (m (get s)) as [[b t]| |] eqn:E; [|done|done].
  intros [= _ <-]. apply Hp; [done|]. eapply Hm; [|exact E]. by apply Hg.
Qed.

Create HintDb keeps.
#[export] Hint Resolve keeps_ret keeps_gets keeps_panic keeps_of_option keeps_aget : keeps.
Ltac keep := repeat first
  [ progress intros | progress cbv zeta | solve [auto with keeps] | apply keeps_for_range | apply keeps_for_each
  | apply keeps_loop | apply keeps_each | apply keeps_bind | case_match ].

(** ** Threads *)
Section threads.
Context {P : Type} `{PageAllocatorLaws P}.
Import Sched.
Abbreviation sk := (keeps (sched_ok (P := P))).

Definition harmless (f : thread → thread) : Prop := ∀ i t,
  thread_ok i t → thread_ok i (f t) ∧ (state (f t) ≠ Unused → state t ≠ Unused).
Lemma keeps_update i f : harmless f → sk (update_thread i f).
Proof.
  intros Hf s a s' Hs. unfold update_thread, aget, gets, of_option, mbind, M_bind, modify.
  destruct (zget (threads s) i) as [t|] eqn:E; [|done]. intros [= _ <-].
  pose proof (zget_Some_lt _ _ _ E) as Hi. rewrite (so_len _ Hs) in Hi.
  destruct (Hf i t (so_thread _ Hs _ _ E)) as [Hok Hst].
  eapply sched_ok_set; [exact Hs|exact Hi|exact Hok| |done]. intros Hu. exact (so_used _ Hs _ _ E (Hst Hu)).
Qed.
Lemma harmless_alike f :
  (∀ t, state (f t) = state t) → (∀ t, tid (f t) = tid t) → (∀ t, name (f t) = name t) →
  (∀ t, cwd (f t) = cwd t ∨ zlen (cwd (f t)) = CWD_LEN) → (∀ t, zlen (fds (f t)) = zlen (fds t)) → harmless f.
Proof.
  intros E1 E2 E3 E4 E5 i t [H1 H2 H3 H4]. rewrite E1. split; [|done].
  split; rewrite ?E1, ?E2, ?E3, ?E5; try done. destruct (E4 t) as [E|E]; [by rewrite E|done].
Qed.
Lemma harmless_brk v : harmless (with_brk v).
Proof. apply harmless_alike; try done. by left. Qed.
Lemma harmless_exit v : harmless (with_exit v).
Proof. apply harmless_alike; try done. by left. Qed.
Lemma harmless_space v : harmless (with_space v).
Proof. apply harmless_alike; try done. by left. Qed.
Lemma harmless_user v : harmless (with_user v).
Proof. apply harmless_alike; try done. by left. Qed.
Lemma harmless_kstack a b : harmless (with_kstack a b).
Proof. apply harmless_alike; try done. by left. Qed.
Lemma harmless_saved g : harmless (λ t, with_saved (g t) t).
Proof. apply harmless_alike; try done. by left. Qed.
Lemma harmless_cwd l : harmless (set_cwd l).
Proof. apply harmless_alike; try done. intros t. right. by apply zlen_c_array. Qed.
Lemma harmless_child v l : harmless (λ c, with_vt v (with_cwd (c_array 96 l) c)).
Proof. apply harmless_alike; try done. intros t. right. by apply (zlen_c_array 96). Qed.
Lemma harmless_fd fd u : harmless (Syscall.set_fd fd u).
Proof. apply harmless_alike; try done; [by left|]. intros t. cbn. apply zlen_zset. Qed.
Lemma harmless_zeroed : harmless (λ _, zeroed).
Proof. intros i t _. split; [apply zeroed_ok|]. cbn. done. Qed.
Hint Resolve harmless_brk harmless_exit harmless_space harmless_user harmless_kstack harmless_saved harmless_cwd
  harmless_child harmless_fd harmless_zeroed keeps_update : keeps.

Lemma keeps_sched_vm {A} (m : M (Vmm.vmm P) A) : sk (Sched.vm_call m).
Proof. apply (keeps_zoom _ (λ _, True)); [done|intros s v Hs _; by apply sched_ok_vm|done]. Qed.
Lemma keeps_tick f : sk (on_timer f).
Proof. apply keeps_wp. intros s Hs. wp_use wp_resched_timer; [done|]. by intros f' s' R; apply R. Qed.
Lemma keeps_yield f : sk (sched_yield f).
Proof. apply keeps_wp. intros s Hs. wp_use wp_resched_yield; [done|]. by intros f' s' R; apply R. Qed.
Lemma keeps_alloc_slot nm : sk (alloc_thread_slot nm).
Proof. apply keeps_wp. intros s Hs. wp_use wp_alloc_thread_slot; [done|]. by intros r s' [? _]. Qed.
Hint Resolve keeps_sched_vm keeps_tick keeps_yield keeps_alloc_slot : keeps.
Lemma keeps_create nm entry sp space : sk (thread_create_user nm entry sp space).
Proof. unfold thread_create_user, pa_to_va. keep. Qed.
Lemma keeps_reap i : sk (sched_reap i).
Proof. unfold sched_reap. keep. Qed.
Lemma keeps_thread_at i : sk (thread_at i).
Proof. unfold thread_at. keep. Qed.
Hint Resolve keeps_create keeps_thread_at : keeps.
Lemma keeps_spawn_elf nm data argv : sk (Proc.spawn_elf nm data argv).
Proof. unfold Proc.spawn_elf. keep. Qed.
Lemma keeps_count_from n i acc : sk (count_from n i acc).
Proof. revert i acc. induction n as [|n IH]; intros i acc; cbn [count_from]; keep. Qed.
Lemma keeps_count_running : sk count_running.
Proof. pose proof keeps_count_from. unfold count_running. keep. Qed.
Lemma keeps_current : sk Sched.current.
Proof. unfold Sched.current. keep. Qed.
End threads.
#[export] Hint Resolve harmless_brk harmless_exit harmless_space harmless_user harmless_kstack harmless_saved harmless_cwd
  harmless_child harmless_fd harmless_zeroed keeps_update : keeps.
#[export] Hint Resolve keeps_sched_vm keeps_tick keeps_yield keeps_alloc_slot keeps_create keeps_thread_at
  keeps_spawn_elf keeps_reap keeps_count_running keeps_current : keeps.

(** ** System calls *)
Section kernel.
Context {P : Type} `{PageAllocatorLaws P} `{PageCounter P}.
Implicit Types k : kern P.

(** The terminals and the threads. *)
Definition sound k : Prop := Vterm.terms_sound (Kbd.vts (kb k)) ∧ Sched.sched_ok (sc k).
Abbreviation kk := (keeps sound).

Lemma keeps_sched {A} (m : M (Sched.sched P) A) : keeps Sched.sched_ok m → kk (sched_call m).
Proof. apply keeps_zoom; [by intros k []|]. intros k c [Ht _] Hc. by split. Qed.
Lemma keeps_vm {A} (m : M (Vmm.vmm P) A) : kk (vm_call m).
Proof. apply keeps_sched, keeps_sched_vm. Qed.
Lemma keeps_fs {A} (m : M Tmpfs.tmpfs A) : kk (fs_call m).
Proof. by apply (keeps_zoom _ (λ _, True)). Qed.
Lemma keeps_kb {A} (m : M Kbd.kbd A) : keeps (λ b, Vterm.terms_sound (Kbd.vts b)) m → kk (kb_call m).
Proof. apply keeps_zoom; [by intros k []|]. intros k b [_ Hs] Ht. by split. Qed.
Lemma keeps_vt {A} (m : M Vterm.vterms A) : keeps Vterm.terms_sound m → kk (vt_call m).
Proof. intros Hm. apply keeps_kb. by apply (keeps_zoom _ Vterm.terms_sound). Qed.
Lemma keeps_putc v c : kk (if v >=? 0 then vt_call (Vterm.putc_vt v (u8 c)) else mret tt).
Proof.
  rewrite Z.geb_leb. destruct (Z.leb_spec 0 v); [|apply keeps_ret]. apply keeps_vt, keeps_wp. intros t Ht.
  wp_use Vterm.wp_putc_sound; [done|done|by apply Z.mod_pos_bound|]. by intros [] t' [? _].
Qed.
Lemma keeps_getc v : kk (if v >=? 0 then vt_call (Vterm.getc v) else kb_call Kbd.getchar).
Proof.
  rewrite Z.geb_leb. destruct (Z.leb_spec 0 v).
  - apply keeps_vt, keeps_wp. intros t Ht. by apply Vterm.wp_getc_sound.
  - apply keeps_kb. unfold Kbd.getchar. keep. by apply keeps_modify.
Qed.
Lemma keeps_getchar : kk (kb_call Kbd.getchar).
Proof. exact (keeps_getc (-1)). Qed.
Lemma keeps_console_up : kk (vt_call Vterm.console_up).
Proof. apply keeps_vt, keeps_gets. Qed.
Lemma keeps_uart c : kk (modify (uart_out c)).
Proof. by apply keeps_modify. Qed.
Lemma keeps_uread va : kk (uread va).
Proof. intros k a k' Hk. unfold uread. case_match; [|done]. by intros [= _ <-]. Qed.
Lemma keeps_set_mem m k : sound k → sound (set_mem m k).
Proof. intros [Ht Hs]. split; [exact Ht|by apply Sched.sched_ok_vm]. Qed.
Lemma keeps_uwrite va b : kk (uwrite va b).
Proof.
  intros k a k' Hk. unfold uwrite. case_match; [|done]. case_match; [|done]. intros [= _ <-]. by apply keeps_set_mem.
Qed.
Hint Resolve keeps_sched keeps_vm keeps_fs keeps_putc keeps_getc keeps_getchar keeps_console_up keeps_uart keeps_uread
  keeps_uwrite : keeps.
Lemma keeps_uread_bytes n va : kk (uread_bytes n va).
Proof. revert va. induction n as [|n IH]; intros va; cbn [uread_bytes]; keep. Qed.
Lemma keeps_uwrite_bytes va bs : kk (uwrite_bytes va bs).
Proof. revert va. induction bs as [|b bs IH]; intros va; cbn [uwrite_bytes]; keep. Qed.
Hint Resolve keeps_uread_bytes keeps_uwrite_bytes : keeps.
Lemma keeps_spawn_path path argv : kk (Proc.spawn_path path argv).
Proof. unfold Proc.spawn_path. keep. Qed.
Hint Resolve keeps_spawn_path : keeps.

Import Syscall.
Lemma keeps_caller : kk current.
Proof. unfold current. keep. Qed.
Lemma keeps_update_current f : harmless f → kk (update_current f).
Proof. intros Hf. unfold update_current. keep. Qed.
Hint Resolve keeps_caller keeps_update_current : keeps.
Lemma keeps_aset out i v : kk (aset out i v).
Proof. unfold aset. keep. Qed.
Lemma keeps_copy_in out a src : kk (copy_in out a src).
Proof. unfold copy_in. keep. Qed.
Hint Resolve keeps_aset keeps_copy_in : keeps.
Lemma keeps_copy_ustr uptr out : kk (copy_ustr uptr out).
Proof. unfold copy_ustr, copy_step. keep. Qed.
Hint Resolve keeps_copy_ustr : keeps.
Lemma keeps_path_arg uptr : kk (path_arg uptr).
Proof. unfold path_arg, abs_path. keep. Qed.
Lemma keeps_fd_get t fd : kk (fd_get t fd).
Proof. unfold fd_get. keep. Qed.
Lemma keeps_yield_call kf r : kk (yield kf r).
Proof. unfold yield. keep. Qed.
Lemma keeps_argv n up acc : kk (copy_argv n up acc).
Proof. revert up acc. induction n as [|n IH]; intros up acc; cbn [copy_argv]; unfold uread64; keep. Qed.
Hint Resolve keeps_path_arg keeps_fd_get keeps_yield_call keeps_argv : keeps.
Lemma keeps_nextproc n i want seen up : kk (nextproc_from n i want seen up).
Proof. revert i seen. induction n as [|n IH]; intros i seen; cbn [nextproc_from]; keep. Qed.
Lemma keeps_wait kf tid status : kk (wait_loop kf tid status).
Proof. unfold wait_loop. keep. Qed.
Lemma keeps_sleep kf deadline : kk (sleep_loop kf deadline).
Proof. unfold sleep_loop. keep. Qed.
Lemma keeps_stdin v buf : kk (read_stdin v buf).
Proof. unfold read_stdin. keep. Qed.
Hint Resolve keeps_nextproc keeps_wait keeps_sleep keeps_stdin : keeps.

(** The running thread is in use, so it may end. *)
Definition awake k : Prop := Sched.runnable (sc k) (Sched.current_idx (sc k)) = true.
Lemma exit_sound kf f k r k' : sound k → awake k → sys_exit kf f k = Done (r, k') → sound k'.
Proof.
  intros [Ht Hs] Ha E. assert (wp (sys_exit kf f) (λ _, sound) k) as Hw.
  2: { unfold wp in Hw. by rewrite E in Hw. }
  destruct (Sched.thread_at_lt _ _ Hs (Sched.so_cur _ Hs)) as [t Hc]. unfold awake, Sched.runnable in Ha. rewrite Hc in Ha.
  apply bool_decide_eq_true in Ha. pose proof (zget_Some_lt _ _ _ Hc) as Hi.
  unfold sys_exit, update_current, sched_call. wp_run. apply Sched.wp_update_thread. exists t. split; [exact Hc|].
  set (c1 := Sched.set_threads _ _). assert (Sched.sched_ok c1) as Hs1.
  { destruct (harmless_exit (i32 (Sched.rdi f)) _ t (Sched.so_thread _ Hs _ _ Hc)) as [Hx _].
    eapply Sched.sched_ok_set; [exact Hs|apply (Sched.so_cur _ Hs)|exact Hx| |done].
    intros Hu. exact (Sched.so_used _ Hs _ _ Hc Hu). }
  wp_run. wp_use (Sched.wp_resched_exit kf c1 (Sched.with_exit (i32 (Sched.rdi f)) t)); [exact Hs1|by apply zget_zset_eq|cbn; congruence|].
  intros g c R. wp_run. split; [exact Ht|apply R].
Qed.
Lemma syscall_sound kf f k d k' :
  sound k → awake k → syscall_dispatch kf f k = Done (d, k') → sound k'.
Proof.
  intros Hk Ha. assert (kk (sys_write f)) as Hwr by (unfold sys_write, stdio_vt; keep).
  assert (kk (sys_read f)) by (unfold sys_read, stdio_vt; keep).
  assert (kk (sys_open f)) by (unfold sys_open; keep). assert (kk (sys_close f)) by (unfold sys_close; keep).
  assert (kk (sys_stat f)) by (unfold sys_stat; keep). assert (kk (sys_mkdir f)) by (unfold sys_mkdir, with_path; keep).
  assert (kk (sys_unlink f)) by (unfold sys_unlink, with_path; keep).
  assert (kk (sys_rename f)) by (unfold sys_rename, with_path; keep).
  assert (kk (sys_getdents f)) by (unfold sys_getdents; keep). assert (kk (sys_getcwd f)) by (unfold sys_getcwd; keep).
  assert (kk (sys_chdir f)) by (unfold sys_chdir, rebuild, chdir_step; keep).
  assert (kk (sys_spawn f)) by (unfold sys_spawn; keep). assert (kk (sys_waitpid kf f)) by (unfold sys_waitpid; keep).
  assert (kk (sys_getpid f)) by (unfold sys_getpid; keep). assert (kk (sys_sbrk f)) by (unfold sys_sbrk, sbrk_step; keep).
  assert (kk (sys_sleep_ms kf f)) by (unfold sys_sleep_ms; keep). assert (kk (sys_uptime f)) by (unfold sys_uptime; keep).
  assert (kk (sys_uname f)) by (unfold sys_uname; keep). assert (kk (sys_sysinfo f)) by (unfold sys_sysinfo, pmm_call; keep).
  assert (kk (sys_yield kf f)) by (unfold sys_yield; keep). assert (kk (sys_nextproc f)) by (unfold sys_nextproc; keep).
  unfold syscall_dispatch, mbind, M_bind. destruct (syscall_body kf f k) as [[r k1]| |] eqn:E; [|done|done].
  intros [= _ <-]. revert E. unfold syscall_body. cbv zeta.
  repeat (case_match; [lazymatch goal with
    | |- sys_exit _ _ _ = _ → _ => exact (exit_sound kf f k r k1 Hk Ha)
    | Hm : keeps sound ?m |- ?m k = _ → _ => exact (Hm k r k1 Hk)
    end|]).
  by intros [= _ <-].
Qed.
(** A call that waits goes on. *)
Lemma resume_sound kf f r k d k' : sound k → resume_syscall kf f r k = Done (d, k') → sound k'.
Proof.
  intros Hk. assert (kk (resume_syscall kf f r)) as Hr by (unfold resume_syscall; destruct r; keep). by apply Hr.
Qed.

(** ** The kernel's shell *)
Lemma keeps_klog b l : kk (Log.klog b l).
Proof.
  apply keeps_wp. intros k [Ht Hs]. wp_use Log.wp_klog_sound; [exact Ht|]. intros [] k' (t & -> & Ht' & _). by split.
Qed.
Hint Resolve keeps_klog : keeps.
Lemma keeps_write_bytes l : kk (Log.write_bytes l).
Proof. unfold Log.write_bytes, Log.putc. keep. Qed.
Lemma keeps_read_file path pa size : kk (Shell.read_file path pa size).
Proof.
  unfold Shell.read_file. keep. apply keeps_modify. intros k. apply keeps_set_mem.
Qed.
Hint Resolve keeps_write_bytes keeps_read_file : keeps.
Lemma keeps_dispatch b argv : kk (Shell.dispatch b argv).
Proof.
  unfold Shell.dispatch, Shell.cmd_help, Shell.cmd_ps, Shell.list_threads, Shell.cmd_mem, Shell.cmd_ls, Shell.cmd_cat, Shell.cmd_run, Log.putc.
  keep.
Qed.
Hint Resolve keeps_dispatch : keeps.
Lemma shell_sound b line n k r k' : sound k → Shell.shell_turn b line n k = Done (r, k') → sound k'.
Proof.
  intros Hk. assert (kk (Shell.shell_turn b line n)) as Hr; [|by apply Hr].
  unfold Shell.shell_turn, Shell.readline, Shell.tokenize, Shell.tokenize_step, Shell.prompt, Log.putc, array_set. keep.
Qed.
End kernel.
End Safety.
