(* ===== verification/MachineSpec.v ===== *)
(** * What boot and interrupts establish

    With a sane loader [kernel_main] leaves the memory, thread, file and screen
    invariants of the other files in force; the device interrupts keep them. *)
From stdpp Require Import relations.
From S2P Require Import Prelude Lines PageAlloc Pmm Mem Vmm UserMem Teardown Elf Tmpfs Initrd Sched Ring Vterm Kbd Surface Font Dirty Mouse Fb Desk Desc.
From S2P Require Import Kernel Proc Spawn Wm Compose Gui Windows Session Boot Shell Syscall SyscallSpec Machine Stages Terminal Safety.

Module MachineSpec.
Import Lines Boot Vmm UserMem Teardown Machine Stages.

(** ** Memory, with the real allocator *)
Section memory.
Implicit Types (m : machine Pmm.pmm) (v : vmm Pmm.pmm).
Import Pmm.

(** The loader's memory map and tables: entries apart and not around the end
    of memory, page 0 not usable, room for the boot, and tables that are none
    of the usable pages. *)
Definition usable (es : list memmap_entry) (j : Z) : Prop := Exists (λ e, usable_page e j) es.
Record loader_ok (lm : limine) v es off : Prop := {
  lo_map : memmap_response lm = Some es;
  lo_hhdm : hhdm_response lm = Some off;
  lo_entries : Forall entry_ok es;
  lo_apart i k e f j : es !! i = Some e → es !! k = Some f → i ≠ k → usable_page e j → ¬ usable_page f j;
  lo_zero : ¬ usable es 0;
  lo_room : ∃ js, NoDup js ∧ (10 ≤ length js)%nat ∧ Forall (usable es) js;
  lo_mem : mem_ok (phys v);
  lo_tables p t : valid_path p → descend (phys v) (Z.land (cr3 v) PTE_ADDR_MASK) p = Some t →
    frame_addr t ∧ ¬ usable es (t / PAGE_SIZE);
  lo_tree p1 p2 t : valid_path p1 → user_path p1 → valid_path p2 →
    descend (phys v) (Z.land (cr3 v) PTE_ADDR_MASK) p1 = Some t →
    descend (phys v) (Z.land (cr3 v) PTE_ADDR_MASK) p2 = Some t → p1 = p2;
}.

(** The machine before the scheduler runs. *)
Definition early (r off : Z) v m : machine pmm := put_kern (Kernel.set_sc (no_threads r off v) (kern_of m)) m.
Lemma wp_early_vm {A} (c : M (vmm pmm) A) Q r off v m :
  wp c (λ a v', Q a (early r off v' m)) v → wp (vm_call c) Q (early r off v m).
Proof.
  intros Hc. unfold vm_call, kern_call, gui_call, Wm.kern_call, Kernel.vm_call, Kernel.sched_call, Sched.vm_call.
  by do 4 apply wp_zoom.
Qed.
Lemma wp_early_pmm {A} (c : M pmm A) Q r off v m :
  wp c (λ a p, Q a (early r off (set_allocator p v) m)) (allocator v) → wp (pmm_call c) Q (early r off v m).
Proof. intros Hc. apply wp_early_vm. unfold Vmm.pmm_call. by apply wp_zoom. Qed.

Lemma test_run_avail p p' run b : test_run p p' run → avail p' b → avail p b.
Proof. intros Ht [Hal Hf]. split; [done|]. rewrite Ht in Hf. by apply andb_true_iff in Hf as [_ ?]. Qed.
Lemma test_run_spares n p p' run : run mod PAGE_SIZE = 0 → test_run p p' run → spares (n + 4) p → spares n p'.
Proof.
  intros Hr Ht Hs. apply (spares_lose n p p' ((λ i, run + i * PAGE_SIZE) <$> [0; 1; 2; 3])); [exact Hs|].
  intros b [Hal Hf]. destruct (page_free p' (b / PAGE_SIZE)) eqn:E; [by left; split|right].
  rewrite Ht, Hf, andb_true_r in E. apply negb_false_iff, andb_true_iff in E as [E Hu%Z.ltb_lt].
  apply andb_true_iff in E as [_ Hl%Z.leb_le]. apply list_elem_of_fmap. exists (b / PAGE_SIZE - run / PAGE_SIZE).
  split; [rewrite (page_addr b Hal) at 1; rewrite (page_addr run Hr) at 1; lia|].
  assert (b / PAGE_SIZE - run / PAGE_SIZE ∈ seqZ 0 4) as Hin; [apply elem_of_seqZ; lia|exact Hin].
Qed.

Lemma wp_boot_memory lm r off0 off v m es :
  loader_ok lm v es off → allocator v = pmm_zero →
  wp (boot_memory lm) (λ _ m', ∃ v', m' = early r off v' m ∧ tables_ok v') (early r off0 v m).
Proof.
  intros [Hmap Hhh Hes Hap Hz0 (js & Hn & Hl & Hjs) Hmem Htab Htree] Hz. unfold boot_memory. rewrite Hmap, Hhh.
  wp_step. apply wp_early_pmm. wp_use wp_pmm_init; [exact Hz|done|done|]. intros [] p1 (Hp1 & Hoff & _ & Hfree).
  assert (pmm_ok p1) as Hok1.
  { split; [done|]. apply not_true_iff_false. rewrite Hfree. exact Hz0. }
  assert (spares 10 p1) as Hs1.
  { exists ((λ j, j * PAGE_SIZE) <$> js). split_and!.
    - apply NoDup_fmap; [|done]. intros a b Hab. unfold PAGE_SIZE in Hab. lia.
    - by rewrite length_fmap.
    - apply Forall_fmap. eapply Forall_impl; [exact Hjs|]. intros j Hj. apply page_avail_mul. by apply Hfree. }
  wp_step. apply wp_early_pmm. cbn [allocator set_allocator]. wp_run.
  apply wp_sched_call. wp_run.
  lazymatch goal with |- wp ?c ?Q _ => change (wp c Q (early r (hhdm_offset p1) (set_allocator p1 v) m)) end.
  rewrite Hoff. apply wp_early_pmm. cbn [allocator set_allocator].
  wp_use wp_pmm_selftest; [done|by eapply spares_le; [|exact Hs1]; lia|]. intros ok p2 (Hok2 & run & _ & Hral & Hrun).
  pose proof (test_run_spares 6 p1 p2 run Hral Hrun Hs1) as Hs2. set (v2 := set_allocator p2 (set_allocator p1 v)).
  assert (space_ok (Z.land (cr3 v2) PTE_ADDR_MASK) v2) as Hsp.
  { split; [done|exact Hok2| |exact Htree]. intros p t Hp Hd. destruct (Htab p t Hp Hd) as [Hf Hu]. split; [done|].
    intros [_ Hav]%(test_run_avail p1 p2 run _ Hrun). by apply Hu, Hfree. }
  pose proof (proj1 (wp_bind _ _ _ _) (wp_boot_tables v2 Hsp Hs2)) as Hb. wp_step. apply wp_early_vm.
  eapply wp_mono; [exact Hb|]. intros [] v3 Hv3. wp_step. apply wp_early_vm.
  eapply wp_mono; [exact Hv3|]. intros ok' v4 [_ Ht]. wp_run. by exists v4.
Qed.
(** *** From the first instruction to the first processes *)
(** Gate [i] of the 48 stubs leads to its address for the kernel only, gate
    0x80 to the system call stub for everyone; there is no other. *)
Definition gates_ok (im : image) (t : list Desc.idt_entry) : Prop :=
  zlen t = Desc.IDT_ENTRIES ∧ ∀ i g, zget t i = Some g →
    Desc.sel g = (if Desc.gate_present g then Desc.KERNEL_CS else 0) ∧
    (if decide (0 ≤ i < 48) then
       zget (isr_stub_table im) i = Some (Desc.gate_offset g) ∧ Desc.gate_present g = true ∧ Desc.gate_dpl g = 0
     else if decide (i = 0x80) then
       Desc.gate_offset g = isr_stub_128 im ∧ Desc.gate_present g = true ∧ Desc.gate_dpl g = 3
     else Desc.gate_present g = false).
(** The linker's addresses fit, and the embedded program is an executable. *)
Record image_ok (im : image) : Prop := {
  im_stubs : zlen (isr_stub_table im) = 48 ∧ Forall (λ a, 0 ≤ a < 2 ^ 64) (isr_stub_table im);
  im_syscall : 0 ≤ isr_stub_128 im < 2 ^ 64;
  im_hello : exe (HELLO_ELF im) ∧ zlen (HELLO_ELF im) < 2 ^ 63;
}.
(** What [fs::vfs::init] and [initrd::unpack] make of the statics. *)
Definition unpacked (lm : limine) (x0 x : Tmpfs.tmpfs) : Prop :=
  ∃ r, (Tmpfs.init;; Initrd.unpack (module_response lm)) x0 = Done (r, x).
(** The initrd is of a sane size, and its [/sbin/init], if any, is an
    executable. *)
Record initrd_ok (lm : limine) (x0 : Tmpfs.tmpfs) : Prop := {
  in_size b bs : module_response lm = Some (b :: bs) → zlen b < 2 ^ 61;
  in_init x data : unpacked lm x0 x → file_at x INIT = Some data → data ≠ [] → exe data;
}.
(** The zeroed statics, with [v] for the memory and CR3 the loader left. *)
Record power_on v m : Prop := {
  po_sched : ∃ r off, Kernel.sc (kern_of m) = no_threads r off v;
  po_alloc : allocator v = pmm_zero;
  po_idt : IDT m = replicate (Z.to_nat Desc.IDT_ENTRIES) Desc.null_gate;
}.
(** The end of [boot_system]. *)
Definition system_up (im : image) (m m' : machine pmm) : Prop := ∃ t s x,
  m' = put_kern (with_state s x (kern_of m))
         (set_pics (Desc.mkPic 0xFC 0xFF) (set_idt t (set_gdt (Desc.gdt_entries (TSS im)) m))) ∧
  gates_ok im t ∧ kernel_ok s ∧ clock s = (0, true) ∧ Tmpfs.fs_ok x ∧ userland im x s.

Lemma wp_boot_descriptors im r off v m :
  image_ok im → IDT m = replicate (Z.to_nat Desc.IDT_ENTRIES) Desc.null_gate →
  Kernel.sc (kern_of m) = no_threads r off v →
  wp (gdt_init im;; idt_init im) (λ _ m', ∃ t, gates_ok im t ∧
    m' = early (BOOT_IRQ_STACK im) off v
      (set_pics (Desc.mkPic 0xFC 0xFF) (set_idt t (set_gdt (Desc.gdt_entries (TSS im)) m)))) m.
Proof.
  intros [[Hl Hs] Hh _] Hidt Hsc. unfold gdt_init, idt_init, pic_call. do 3 wp_step.
  apply wp_sched_call. wp_run. cbn [IDT set_gdt put_kern set_gui]. rewrite Hidt.
  wp_use Desc.idt_gates; [exact Hl|exact Hs|exact Hh|]. intros [] t Ht. wp_run. exists t. split; [exact Ht|].
  cbn [kern_of gui set_gdt] in *. unfold early, put_kern, kern_of. cbn [gui set_gdt set_idt set_pics set_gui pics].
  change (Wm.sys (gui m)) with (kern_of m). by rewrite Hsc.
Qed.

Lemma wp_unpack lm x0 :
  initrd_ok lm x0 → wp (Tmpfs.init;; Initrd.unpack (module_response lm)) (λ _ x, Tmpfs.fs_ok x ∧ unpacked lm x0 x) x0.
Proof.
  intros [Hsz _].
  assert (wp (Tmpfs.init;; Initrd.unpack (module_response lm)) (λ _ x, Tmpfs.fs_ok x) x0) as Hw.
  { wp_step. wp_use Tmpfs.wp_init. intros [] x1 ->. fold (Tmpfs.root_only (Tmpfs.pool x0)).
    pose proof (Tmpfs.root_only_ok (Tmpfs.pool x0)) as Hok. destruct (module_response lm) as [[|b bs]|]; [by wp_run| |by wp_run].
    wp_use Initrd.wp_tar_unpack; [exact Hok|by eapply Hsz|]. by intros r x [Hx _]. }
  unfold wp, unpacked in *. destruct ((Tmpfs.init;; _) x0) as [[r x]| |]; [|done|done]. split; [done|]. by exists r.
Qed.

Lemma wp_int3 (f : Sched.frame) m Q : Sched.vector f = 3 → Q tt m → wp (int3 f) Q m.
Proof. intros Hf HQ. unfold int3, isr_handler. rewrite Hf. by wp_run. Qed.

Lemma wp_boot_rest lm im bp r off v m :
  tables_ok v → image_ok im → initrd_ok lm (Kernel.fs (kern_of m)) → Sched.vector bp = 3 →
  wp (boot_threads im;; n ← boot_files lm; boot_user im n;; int3 bp)
    (λ _ m', ∃ s x, m' = put_kern (with_state s x (kern_of m)) m ∧ kernel_ok s ∧ clock s = (0, true) ∧ Tmpfs.fs_ok x ∧ userland im x s) (early r off v m).
Proof.
  intros Hv [_ _ [Hexe Hlen]] Hin Hbp. wp_step. apply wp_sched_call. eapply wp_mono; [apply wp_boot_sched, Hv|].
  intros [] s (Hk & _ & Hcl). wp_step. unfold boot_files. apply wp_kern_call. unfold Kernel.fs_call. apply wp_zoom.
  eapply wp_mono; [apply wp_unpack, Hin|]. intros n x [Hx Hun]. unfold boot_user. wp_step. apply wp_kern_call.
  eapply wp_mono; [apply (wp_boot_user im n); [exact Hx|exact Hk|exact Hexe|exact Hlen|]|].
  { intros data. by apply (in_init _ _ Hin). }
  intros [] k (s' & x' & -> & Hx' & (Hk' & _ & Hc') & Hul). apply wp_int3; [exact Hbp|]. exists s', x'. split; [reflexivity|].
  split; [exact Hk'|]. split; [rewrite <- Hcl; exact Hc'|done].
Qed.
Lemma wp_boot_system lm im bp v m es off :
  power_on v m → loader_ok lm v es off → image_ok im → initrd_ok lm (Kernel.fs (kern_of m)) → Sched.vector bp = 3 →
  wp (boot_system lm im bp) (λ _, system_up im m) m.
Proof.
  intros [(r & off0 & Hsc) Hz Hidt] Hlo Him Hin Hbp. unfold boot_system.
  apply wp_bind_assoc. wp_step. wp_use wp_boot_descriptors; [exact Him|exact Hidt|exact Hsc|].
  intros [] m1 (t & Ht & ->). set (m1 := set_pics _ _). wp_step.
  wp_use wp_boot_memory; [exact Hlo|exact Hz|]. intros [] m2 (v' & -> & Hv').
  eapply wp_mono; [apply (wp_boot_rest lm im); [exact Hv'|exact Him|exact Hin|exact Hbp]|].
  intros [] m' (s & x & -> & Hk & Hcl & Hx & Hul). by exists t, s, x.
Qed.
End memory.

(** ** The desktop *)
Section desktop.
Import Desk Wm Compose Gui Windows Session Terminal.
Context {P : Type} `{PageAllocatorLaws P} `{Kernel.PageCounter P}.
Implicit Types (m : machine P) (g : Wm.wm P).

(** The statics of the window manager before [wm::init]. *)
Record dark g : Prop := {
  da_wins : WINS (Wm.dk g) = replicate (Z.to_nat GUI_MAX_WINDOWS) Desk.empty;
  da_focus : FOCUSED_IDX (Wm.dk g) = -1;
  da_region : zlen (Dirty.r (DIRTY (Wm.dk g))) = Dirty.DIRTY_MAX_RECTS;
  da_terms : terms_ok g;
  da_mouse : Mouse.reading [] (Wm.ms g);
  da_cursor : Wm.CURSOR_PREV_X g = -1;
  da_drag : Wm.DRAG_WIN (Wm.inp g) = -1;
  da_vtwin : zlen (Wm.VT_WIN g) = Vterm.VT_MAX;
  da_want : Wm.WANT_NEW_TERM g = false;
}.
(** A 32-bit mode larger than where the pointer starts. *)
Record mode_ok (fi : Fb.fb_info) : Prop := {
  mo_size : 640 < Fb.width fi < 2 ^ 15 ∧ 400 < Fb.height fi < 2 ^ 15;
  mo_bpp : Fb.bpp fi = 32;
  mo_pitch : Fb.width fi * 4 ≤ Fb.pitch fi < 2 ^ 32;
}.
(** Consecutive free pages for the back buffer. *)
Definition backbuffer_room (fi : Fb.fb_info) m : Prop :=
  ∃ b, ∀ k, 0 ≤ k < (Fb.width fi * Fb.height fi * 4 + PAGE_SIZE - 1) / PAGE_SIZE →
    avail (allocator (vm_of (kern_of m))) (b + k * PAGE_SIZE).

(** The GUI after [fb::init] and [mouse::init]. *)
Definition lit (fi : Fb.fb_info) g : Wm.wm P :=
  Wm.set_ms (Mouse.mkMouse 640 400 (Mouse.BUTTONS (Wm.ms g)) (Mouse.CYCLE (Wm.ms g)) (Mouse.PACKET (Wm.ms g)))
    (Wm.set_fbs (Fb.mkFb (Fb.buf (Wm.fbs g)) (Fb.pitch fi) (u32 (Fb.width fi)) (u32 (Fb.height fi)) (u8 (Fb.bpp fi))
      (Fb.red_mask_shift fi) (Fb.green_mask_shift fi) (Fb.blue_mask_shift fi) true) g).
Lemma lit_powered fi m :
  dark (gui m) → mode_ok fi → backbuffer_room fi m → kernel_ok (Kernel.sc (kern_of m)) → powered (lit fi (gui m)).
Proof.
  intros [] [[Hw Hh] Hb Hp] Hroom [Hs [Hsp _] _ _].
  assert (Fb.FB_W (Wm.fbs (lit fi (gui m))) = Fb.width fi ∧ Fb.FB_H (Wm.fbs (lit fi (gui m))) = Fb.height fi) as [Ew Eh].
  { cbn [lit Wm.fbs Wm.set_ms Wm.set_fbs Fb.FB_W Fb.FB_H]. by rewrite !u32_id by lia. }
  assert (Fb.FB_BPP (Wm.fbs (lit fi (gui m))) = 32) as Eb by (cbn; by rewrite Hb).
  split; try done.
  - rewrite Ew, Eh. lia.
  - split; [|split; [exact Eb|exact (proj2 Hp)]]. split; [done|by left|lia|].
    unfold Fb.depth. rewrite Eb, Ew. exact (proj1 Hp).
  - split; [|exists []].
    + unfold on_screen. rewrite Ew, Eh. cbn. lia.
    + destruct da_mouse0 as [[] Hm]. split; [split|]; cbn; try done; lia.
  - exact (so_alloc _ _ Hsp).
  - destruct Hroom as [b Hroom]. exists b. intros k. unfold backbuffer_pages. rewrite Ew, Eh. apply Hroom.
Qed.

(** Everything the interrupt handlers rely on. *)
Record running m : Prop := {
  ru_session : session_ok (gui m);
  ru_sched : Sched.sched_ok (Kernel.sc (kern_of m));
  ru_slots : blank_slots (Wm.dk (gui m));
}.

Lemma wp_desktop lm im m fi rest :
  framebuffer_response lm = Some (fi :: rest) → mode_ok fi → backbuffer_room fi m →
  dark (gui m) → kernel_ok (Kernel.sc (kern_of m)) →
  wp (desktop lm im) (λ _ m', running m' ∧ all_damaged (gui m') ∧ Wm.WANT_NEW_TERM (gui m') = false ∧
    ∃ g, m' = set_gui g (set_pics (Desc.unmask 12 (Desc.unmask 2 (pics m))) m)) m.
Proof.
  intros Hfb Hmo Hroom Hdark Hk. pose proof (lit_powered fi m Hdark Hmo Hroom Hk) as Hp.
  unfold desktop, gui_call, Wm.fb_call, mouse_init, pic_call, Fb.init. rewrite Hfb. wp_run. apply wp_zoom.
  eapply wp_mono; [apply (wp_start (lit fi (gui m)) (kthread_trampoline im) (compositor_thread im) Hp)|].
  intros [] g (Hs & Ha & Hw & Hsc & Hb). split_and!; [by split|done|done|]. by exists g.
Qed.
End desktop.
(** ** Interrupts *)
Section interrupts.
Import Desk Wm Compose Gui Windows Session Terminal.
Context {P : Type} `{PageAllocatorLaws P} `{Kernel.PageCounter P}.
Implicit Types (m : machine P) (g : Wm.wm P).

(** The session and the threads, one given kernel state but for the keyboard. *)
Definition sound (c : Sched.sched P) g : Prop := (session_ok g ∧ blank_slots (Wm.dk g)) ∧ Kernel.sc (Wm.sys g) = c.
Lemma sound_terms c g k :
  sound c g → Kernel.sc k = c → Vterm.terms_sound (Kbd.vts (Kernel.kb k)) → sound c (Wm.set_sys k g).
Proof. intros [[Hs Hb] _] Hk Ht. split; [split; [by apply sys_session|exact Hb]|done]. Qed.

Lemma printed_sound c g g' : sound c g → printed g g' → sound c g'.
Proof.
  intros [[[Hok Hup Hms] Hb] Hc] Hp. destruct (printed_ok _ _ Hok Hp) as [Hok' He].
  pose proof (event_up_to_date _ _ _ Hok Hup He) as Hup'. destruct Hp as (d & k & ph & st & -> & _ & T & _ & Ek).
  split; [split; [by split|]|].
  - eapply idles_blank; [by apply table_idles|exact Hb].
  - cbn. by rewrite Ek.
Qed.
Lemma wp_deliver c g : sound c g → wp Wm.deliver (λ _, sound c) g.
Proof.
  intros Hs. unfold Wm.deliver. wp_step. wp_use wp_deliver_dirty; [apply Hs|]. intros [] g1 Hp.
  pose proof (printed_sound _ _ _ Hs Hp) as Hs1.
  unfold Wm.deliver_keys, Wm.kern_call, Kernel.kb_call. wp_run. apply (wp_each (sound c)).
  - intros a g2 [[Hs2 Hb] Hc]. unfold Wm.on_fn_key.
    destruct (a =? 1); wp_run; [|done]. split; [split; [by apply want_session|exact Hb]|exact Hc].
  - apply sound_terms; [exact Hs1|exact (proj2 Hs1)|]. exact (ok_terms _ (se_wm _ (proj1 (proj1 Hs1)))).
Qed.

Lemma wp_scancode_sound b k :
  0 ≤ b → Vterm.terms_sound (Kbd.vts k) → wp (Kbd.kbd_on_scancode b) (λ _ k', Vterm.terms_sound (Kbd.vts k')) k.
Proof.
  intros Hb Ht. unfold Kbd.kbd_on_scancode. do 5 (case_match; [wp_run; try done|]).
  { case_match; by wp_run. }
  wp_run. assert (∀ c, wp (if c =? 0 then mret tt else
     (r ← gets Kbd.route_vt; if r >=? 0 then Kbd.vt_call (Vterm.push r c) else Kbd.push_char c))
    (λ _ k', Vterm.terms_sound (Kbd.vts k')) k) as Hpush.
  { intros c. destruct (c =? 0); [by wp_run|]. wp_run. destruct (_ >=? 0).
    - unfold Kbd.vt_call. apply wp_zoom. wp_use Vterm.wp_push_sound; [exact Ht|]. by intros [] t Ht'.
    - unfold Kbd.push_char. by wp_run. }
  destruct (Z.ltb_spec b 64); wp_run; [|apply Hpush].
  destruct (zget_lt (if Kbd.shift k then Kbd.SHIFTED else Kbd.UNSHIFTED) b) as [c Hc].
  { destruct (Kbd.shift k); change (0 ≤ b < 128); lia. }
  apply wp_of_option. exists c. split; [exact Hc|]. apply Hpush.
Qed.
(** The scheduler's part of an interrupt: the timer ticks, and switches threads
    if that is enabled. *)
Definition clocked (v : Z) (c : Sched.sched P) (f f' : Sched.frame) (c' : Sched.sched P) : Prop :=
  let now := Sched.set_ticks (u64 (Sched.timer_ticks c + 1)) c in
  if v =? 32 then
    if Sched.sched_enabled c then Sched.ticked now f f' c' else f' = f ∧ c' = now
  else f' = f ∧ c' = c.

Lemma wp_timer c f :
  Sched.sched_ok c → wp (Sched.on_timer f) (λ f' c', Sched.sched_ok c' ∧ clocked 32 c f f' c') c.
Proof.
  intros Hc. unfold Sched.on_timer, clocked. wp_run. cbn [Sched.sched_enabled Sched.set_ticks].
  assert (Sched.sched_ok (Sched.set_ticks (u64 (Sched.timer_ticks c + 1)) c)) as Hn by (by destruct Hc).
  destruct (Sched.sched_enabled c); wp_run; [|by split].
  wp_use Sched.wp_sched_tick; [exact Hn|]. intros f' c' Ht. split; [by eapply Sched.ticked_ok|exact Ht].
Qed.

Lemma running_sound m m' : running m → sound (Kernel.sc (kern_of m)) (gui m') → running m'.
Proof. intros [_ Hc _] [[Hs Hb] E]. split; [exact Hs| |exact Hb]. unfold kern_of. rewrite E. exact Hc. Qed.
Lemma running_terms m : running m → Vterm.terms_sound (Kbd.vts (Kernel.kb (kern_of m))).
Proof. intros [Hs _ _]. exact (ok_terms _ (se_wm _ Hs)). Qed.

Lemma wp_timer_log m :
  running m → wp timer_log (λ _ m', ∃ g, m' = set_gui g m ∧ sound (Kernel.sc (kern_of m)) g) m.
Proof.
  intros Hm. assert (sound (Kernel.sc (kern_of m)) (gui m)) as Hs by (split; [split; apply Hm|done]).
  unfold timer_log. wp_run. destruct (_ =? 0); wp_run; [|exists (gui m); by destruct m].
  unfold gui_call. apply wp_zoom. wp_use Gui.wp_log_line; [apply Hm|]. intros [] g [Hp _].
  exists g. split; [done|by eapply printed_sound].
Qed.
Lemma wp_interrupt byte kf f m :
  running m → 0 ≤ byte → 32 ≤ Sched.vector f < 48 →
  wp (isr_handler byte kf f) (λ r m', running m' ∧
    (∃ g, m' = set_gui g (mkMachine (gui m) (GDT m) (IDT m) (pics m) (eois m ++ Desc.eoi (Sched.vector f - 32)))) ∧
    ∃ f', r = Iret f' ∧ clocked (Sched.vector f) (Kernel.sc (kern_of m)) f f' (Kernel.sc (kern_of m'))) m.
Proof.
  intros Hm Hb Hv. pose proof (running_terms _ Hm) as Ht. unfold isr_handler.
  rewrite (proj2 (Z.eqb_neq _ 128)), Z.geb_leb, (proj2 (Z.leb_le 32 _)) by lia.
  set (v := Sched.vector f) in *.
  destruct (Z.eqb_spec v 32) as [->|H32]; [|destruct (Z.eqb_spec v 33) as [->|H33]; [|destruct (Z.eqb_spec v 44) as [->|H44]]].
  - wp_step. wp_use wp_timer_log; [exact Hm|]. intros [] m1 (g & -> & [Hg Hb'] & E).
    wp_step. apply wp_sched_call.
    change (Kernel.sc (kern_of (set_gui g m))) with (Kernel.sc (Wm.sys g)). rewrite E.
    wp_use wp_timer; [apply Hm|]. intros f' c [Hc Hk]. wp_run.
    split_and!; [split; [|exact Hc|exact Hb']|by eexists|by exists f'].
    apply (sys_session _ g Hg). exact (ok_terms _ (se_wm _ Hg)).
  - wp_step. apply wp_kern_call. unfold Kernel.kb_call. apply wp_zoom.
    wp_use wp_scancode_sound; [exact Hb|exact Ht|]. intros [] k Hk. wp_step. unfold gui_call. apply wp_zoom.
    wp_use (wp_deliver (Kernel.sc (kern_of m))).
    { apply sound_terms; [split; [split; apply Hm|done]|done|exact Hk]. }
    intros [] g Hg. wp_run. split_and!; [by apply (running_sound m)|by eexists|exists f].
    split; [done|]. split; [done|exact (proj2 Hg)].
  - unfold gui_call. wp_step. apply wp_zoom. wp_use (wp_leaves (λ g, Wm.sys g) (mouse_irq byte)).
    { unfold mouse_irq, Wm.screen_w, Wm.screen_h. leaf. }
    { apply wp_mouse_irq, Hm. }
    intros [] g [[Hg Ed] Es]. wp_run.
    assert (sound (Kernel.sc (kern_of m)) g) as Hs by (split; [split; [done|rewrite Ed; apply Hm]|by rewrite Es]).
    split_and!; [by apply (running_sound m)|by eexists|exists f]. split; [done|]. split; [done|exact (proj2 Hs)].
  - wp_run. rewrite u8_id by lia. split_and!; [|exists (gui m); by destruct m|exists f].
    + by destruct Hm.
    + split; [done|]. unfold clocked. by rewrite (proj2 (Z.eqb_neq _ _)).
Qed.
(** *** The serial loop and the compositor *)
Lemma wp_serial rx m : running m → wp (serial_turn rx) (λ _ m', running m' ∧ ∃ g, m' = set_gui g m) m.
Proof.
  intros Hm. pose proof (running_terms _ Hm) as Ht. unfold serial_turn.
  destruct (uart_getc rx) as [c|]; [|wp_run; split; [done|exists (gui m); by destruct m]].
  assert (∀ (k : Kbd.kbd), Vterm.terms_sound (Kbd.vts k) → sound (Kernel.sc (kern_of m)) (Wm.set_sys (Kernel.set_kb k (kern_of m)) (gui m))) as Hk.
  { intros k Hk. apply sound_terms; [split; [split; apply Hm|done]|done|exact Hk]. }
  wp_step. apply wp_kern_call. unfold Kernel.vt_call, Kernel.kb_call, Kbd.vt_call. do 2 apply wp_zoom.
  unfold Vterm.console_up. wp_run.
  destruct (Vterm.console_flag _); apply wp_kern_call.
  - do 2 apply wp_zoom. wp_use Vterm.wp_push_sound; [exact Ht|]. intros [] t Ht'. split; [|by eexists].
    apply (running_sound m); [exact Hm|]. by apply (Hk (Kbd.set_vts t _)).
  - apply wp_zoom. unfold Kbd.push_char. wp_run. split; [|by eexists].
    apply (running_sound m); [exact Hm|]. apply (Hk (Kbd.set_queue _ _)). exact Ht.
Qed.

(** ** System calls, the shell and the log *)
Lemma kern_then {A B} (c : M (Kernel.kern P) A) (k : A → M (machine P) B) m b m' :
  (a ← Machine.kern_call c; k a) m = Done (b, m') →
  ∃ a x, c (kern_of m) = Done (a, x) ∧ k a (put_kern x m) = Done (b, m').
Proof.
  unfold mbind, M_bind, Machine.kern_call, gui_call, Wm.kern_call, zoom, kern_of.
  destruct (c (Wm.sys (gui m))) as [[a x]| |] eqn:E; [|done|done]. intros Hk. by exists a, x.
Qed.
Lemma running_kern m : running m → Safety.sound (kern_of m).
Proof. intros Hm. split; [by apply running_terms|apply Hm]. Qed.
Lemma wp_deliver_kern m k :
  running m → Safety.sound k → wp (gui_call Wm.deliver) (λ _, running) (put_kern k m).
Proof.
  intros Hm [Ht Hs]. unfold gui_call. apply wp_zoom. wp_use (wp_deliver (Kernel.sc k)).
  { split; [split; [|apply Hm]|done]. apply (sys_session k (gui m) (ru_session _ Hm)). exact Ht. }
  intros [] g [[Hg Hb] E]. split; [exact Hg| |exact Hb]. unfold kern_of. cbn [gui set_gui]. by rewrite E.
Qed.
Lemma wp_syscall_done m k d : running m → Safety.sound k → wp (syscall_done d) (λ _, running) (put_kern k m).
Proof.
  intros Hm Hk. unfold syscall_done. wp_step. wp_use wp_deliver_kern; [done|done|]. intros [] m' Hm'.
  destruct d; wp_run; [done| |done]. by destruct Hm'.
Qed.
Lemma wp_log l m : running m → wp (gui_call (Wm.klog_info l)) (λ _, running) m.
Proof.
  intros Hm. unfold gui_call. apply wp_zoom. wp_use Gui.wp_log_line; [apply Hm|]. intros [] g [Hp _].
  apply (running_sound m); [done|]. eapply printed_sound; [|exact Hp]. split; [split; apply Hm|done].
Qed.

(** ** Everything that happens to the machine

    Interrupts, bytes on the serial port, turns of the compositor; a system
    call by the running thread, or the rest of one that waited; the kernel's
    shell; a log line of any component (those printed by functions whose
    models leave them out come as steps here); a program's stores. *)
Inductive happens : machine P → machine P → Prop :=
  | by_interrupt byte kf f r m m' : 0 ≤ byte → 32 ≤ Sched.vector f < 48 →
      isr_handler byte kf f m = Done (r, m') → happens m m'
  | by_serial rx m m' : serial_turn rx m = Done (tt, m') → happens m m'
  | by_compositor m m' : (Wm.WANT_NEW_TERM (gui m) = true → shell_ready (kern_of m)) →
      gui_call turn m = Done (tt, m') → happens m m'
  | by_syscall kf f r m m' : Safety.awake (kern_of m) → Sched.vector f = 0x80 →
      isr_handler 0 kf f m = Done (r, m') → happens m m'
  | by_resume kf f k r m m' : resume kf f k m = Done (r, m') → happens m m'
  | by_shell line n r m m' : shell_thread line n m = Done (r, m') → happens m m'
  | by_log l m m' : gui_call (Wm.klog_info l) m = Done (tt, m') → happens m m'
  | by_program mem m : happens m (put_kern (Kernel.set_mem mem (kern_of m)) m).

Lemma wp_turn_running m :
  running m → (Wm.WANT_NEW_TERM (gui m) = true → shell_ready (kern_of m)) →
  wp (gui_call turn) (λ _ m', running m' ∧ presented Font.FONT8X16 (gui m')) m.
Proof.
  intros [Hs Hsc Hb] Hw. unfold gui_call. apply wp_zoom.
  wp_use wp_any_turn; [done|done|done|done|]. intros [] g (Hp & Hs' & Hb' & _ & Hsc' & _). split; [by split|done].
Qed.

Lemma happens_running m m' : running m → happens m m' → running m'.
Proof.
  intros Hm Hs. pose proof (running_kern _ Hm) as Hk.
  destruct Hs as [byte kf f r m m' Hb Hv E|rx m m' E|m m' Hw E|kf f r m m' Ha Hv E|kf f k r m m' E|line n r m m' E|l m m' E|mem m].
  - apply (done_wp _ _ _ _ _ E (wp_interrupt byte kf f m Hm Hb Hv)).
  - apply (done_wp _ _ _ _ _ E (wp_serial rx m Hm)).
  - apply (done_wp _ _ _ _ _ E (wp_turn_running m Hm Hw)).
  - unfold isr_handler in E. rewrite Hv in E. cbn [Z.eqb Pos.eqb] in E.
    apply kern_then in E as (d & x & Ed & E). apply (done_wp _ _ _ _ _ E (wp_syscall_done m x d Hm (Safety.syscall_sound _ _ _ _ _ Hk Ha Ed))).
  - apply kern_then in E as (d & x & Ed & E).
    apply (done_wp _ _ _ _ _ E (wp_syscall_done m x d Hm (Safety.resume_sound _ _ _ _ _ _ Hk Ed))).
  - unfold shell_thread in E. change ((r ← Machine.kern_call (Shell.shell_turn (Wm.GUI_UART_SINK (gui m)) line n);
      gui_call Wm.deliver;; mret r) m = Done (r, m')) in E.
    apply kern_then in E as (d & x & Ed & E). pose proof (Safety.shell_sound _ _ _ _ _ _ Hk Ed) as Hx.
    pose proof (wp_deliver_kern m x Hm Hx) as Hw. unfold mbind, M_bind in E.
    destruct (gui_call Wm.deliver (put_kern x m)) as [[[] m2]| |] eqn:E2; [|done|done].
    injection E as _ <-. exact (done_wp _ _ _ _ _ E2 Hw).
  - apply (done_wp _ _ _ _ _ E (wp_log l m Hm)).
  - destruct (Safety.keeps_set_mem mem _ Hk) as [Ht Hc]. split; [|exact Hc|apply Hm]. by apply sys_session; [apply Hm|].
Qed.
Lemma all_running m m' : running m → rtc happens m m' → running m'.
Proof. intros Hm Hr. induction Hr; [done|]. apply IHHr. by eapply happens_running. Qed.
End interrupts.
(** ** Properties *)
Section booting.
Implicit Types (m : machine Pmm.pmm) (v : vmm Pmm.pmm).

(** C1: booting reaches user space.  With a sane memory map and tables, ten
    usable pages and an executable fallback, [kernel_main] gets through the
    descriptor tables, the page allocator, its own page tables, both self
    tests, the scheduler and the file system; nothing panics.  Then: every
    gate leads to its stub, only 0x80 is open to ring 3; only the timer and
    the keyboard interrupt; CR3 holds the kernel's well-formed tables, which
    share no page with the free ones; the boot thread runs, preemptible; the
    file tree is well formed; and [/sbin/init] of the initrd is loaded and
    ready to run, or else the embedded program, unless memory or threads ran
    out.  Nothing of the GUI and the terminals was touched. *)
Theorem boot_reaches_user lm im bp v m es off :
  power_on v m → loader_ok lm v es off → image_ok im → initrd_ok lm (Kernel.fs (kern_of m)) →
  Sched.vector bp = 3 →
  wp (boot_system lm im bp) (λ _ m', ∃ t s x,
    m' = put_kern (with_state s x (kern_of m))
           (set_pics (Desc.mkPic 0xFC 0xFF) (set_idt t (set_gdt (Desc.gdt_entries (TSS im)) m))) ∧
    gates_ok im t ∧ kernel_ok s ∧ Sched.current_idx s = 0 ∧ Sched.sched_enabled s = true ∧
    Tmpfs.fs_ok x ∧ userland im x s ∧ (dark (gui m) → dark (gui m'))) m.
Proof.
  intros Hp Hl Hi Hn Hb. wp_use wp_boot_system; [exact Hp|exact Hl|exact Hi|exact Hn|exact Hb|].
  intros [] m' (t & s & x & -> & Ht & Hk & [= Hc He] & Hx & Hu). exists t, s, x.
  split_and!; try done. intros []. by constructor.
Qed.
End booting.

Section live.
Import Desk Wm Compose Gui Windows Session Terminal.
Context {P : Type} `{PageAllocatorLaws P} `{Kernel.PageCounter P}.
Implicit Types m : machine P.

(** C6: the desktop comes up.  On a machine that has booted, with a 32-bit
    framebuffer larger than 640 x 400 and memory for the back buffer,
    [fb::init], [mouse::init] and [wm::init] return, whether or not the
    windows could be opened; the lines of the mouse and of the cascade are
    open, all others as before; from then on the machine is [running], and
    the first turn of the compositor paints the whole screen. *)
Theorem desktop_starts lm im m fi fis :
  framebuffer_response lm = Some (fi :: fis) → mode_ok fi → backbuffer_room fi m →
  dark (gui m) → kernel_ok (Kernel.sc (kern_of m)) →
  wp (desktop lm im) (λ _ m', running m' ∧
    (∀ irq, 0 ≤ irq < 16 → Desc.masked (pics m') irq =
      (if decide (irq = 2 ∨ irq = 12) then false else Desc.masked (pics m) irq)) ∧
    wp (gui_call turn) (λ _ m'', running m'' ∧ presented Font.FONT8X16 (gui m'')) m') m.
Proof.
  intros Hfb Hmo Hroom Hd Hk. wp_use wp_desktop; [exact Hfb|exact Hmo|exact Hroom|exact Hd|exact Hk|].
  intros [] m' (Hr & _ & Hw & g & ->). split_and!; [exact Hr| |apply wp_turn_running; [exact Hr|by rewrite Hw]].
  intros irq Hirq. cbn [pics set_gui set_pics].
  rewrite (proj1 (Desc.pic_masks_one_line _ 12 irq ltac:(lia) Hirq)).
  rewrite (proj1 (Desc.pic_masks_one_line _ 2 irq ltac:(lia) Hirq)).
  repeat case_decide; done || lia.
Qed.

(** C2: a running machine keeps running.  In any order of interrupts, bytes
    from the serial port, turns of the compositor, system calls - with any
    registers, by a thread that is in use - and their continuations, turns of
    the kernel's shell, log lines and stores by programs, as far as each comes
    back, the invariants of the session and of the thread table hold.  In every
    state reached so, the next turn returns and shows the desk, after opening a
    terminal with a shell if one was asked for (then the kernel's tables must
    be loaded); and each interrupt of the controller returns after it was
    acknowledged exactly once, at both controllers from line 8 on.  It returns
    to the interrupted code with its registers as they were - unless it is the
    timer's and the slice is used up, which is when threads are switched - and
    leaves the descriptor tables and the masks alone. *)
Theorem machine_keeps_running m m1 byte kf f rx :
  running m → rtc happens m m1 → 0 ≤ byte < 256 → 32 ≤ Sched.vector f < 48 →
  running m1 ∧
  wp (isr_handler byte kf f) (λ r m2, running m2 ∧ eois m2 = eois m1 ++ Desc.eoi (Sched.vector f - 32) ∧
    (GDT m2, IDT m2, pics m2) = (GDT m1, IDT m1, pics m1) ∧
    ∃ f', r = Iret f' ∧ clocked (Sched.vector f) (Kernel.sc (kern_of m1)) f f' (Kernel.sc (kern_of m2))) m1 ∧
  wp (serial_turn rx) (λ _, running) m1 ∧
  ((Wm.WANT_NEW_TERM (gui m1) = true → shell_ready (kern_of m1)) →
   wp (gui_call turn) (λ _ m2, running m2 ∧ presented Font.FONT8X16 (gui m2)) m1).
Proof.
  intros Hm Hr Hb Hv. pose proof (all_running _ _ Hm Hr) as Hm1. split_and!; [exact Hm1| | |by apply wp_turn_running].
  - wp_use wp_interrupt; [exact Hm1|lia|exact Hv|]. intros r m2 (Hm2 & [g ->] & Hf). done.
  - wp_use wp_serial; [exact Hm1|]. by intros [] m2 [Hm2 _].
Qed.
End live.

(** ** Witnesses *)
(** A machine with [n] free pages, empty tables in page 4096, and nothing but
    the kernel. *)
Definition demo_linked : image :=
  mkImage Elf.demo_image 0x1000 0x2000 0x3000 0x4000 0x5000 (replicate 48 0xFFFFFFFF80001000) 0xFFFFFFFF80002000
    0xFFFFFFFF80003000 0xFFFFFFFF80008000.
Definition demo_limine : limine :=
  mkLimine (Some (Terminal.one_region 1000)) (Some (2 ^ 63)) (Some [Fb.mkInfo 700 450 2800 32 16 8 0]) None.
Definition cold_vmm : vmm Pmm.pmm := mkVmm Pmm.pmm_zero (λ _, 0) 0x1000000 0.
Definition cold_terms : Vterm.vterms := Vterm.mkTerms (replicate 4 Vterm.empty) false false [].
Definition machine_with (c : Sched.sched Pmm.pmm) : machine Pmm.pmm :=
  mkMachine
    (Wm.mkWm (Kernel.mkKern c Tmpfs.demo_fs (Kbd.mkKbd (Ring.mkRing (replicate 128 0) 0 0) false (-1) false [] cold_terms) [])
      (Mouse.mkMouse 0 0 0 0 [0; 0; 0]) (Fb.mkFb (λ _, 0) 0 0 0 0 0 0 0 false)
      (Desk.mkDesk (replicate 8 Desk.empty) (-1) Dirty.new) (Surface.mkSurf 0 0 []) (-1) (-1) (Wm.mkStats 0 0 0 0)
      [0; 0; 0; 0] false (Wm.mkInput 0 (-1) 0 0) 0 false)
    [] (replicate (Z.to_nat Desc.IDT_ENTRIES) Desc.null_gate) (Desc.mkPic 0 0) [].
Definition cold : machine Pmm.pmm := machine_with (no_threads 0 0 cold_vmm).

Lemma one_region_ok n :
  0 ≤ n < 2 ^ 40 → Forall Pmm.entry_ok (Terminal.one_region n) ∧
  (∀ i k e f j, Terminal.one_region n !! i = Some e → Terminal.one_region n !! k = Some f → i ≠ k →
    Pmm.usable_page e j → ¬ Pmm.usable_page f j) ∧
  ∀ j, n < 131072 → usable (Terminal.one_region n) j ↔ 1 ≤ j ≤ n.
Proof.
  intros Hn. split_and!.
  - unfold Terminal.one_region, Pmm.entry_ok, PAGE_SIZE. repeat constructor; simpl; lia.
  - intros [|i] [|k] e f j; try done.
  - intros j Hn'. unfold usable, Terminal.one_region. rewrite Exists_cons, Exists_nil.
    unfold Pmm.usable_page, Pmm.LIMINE_MEMMAP_USABLE, PAGE_SIZE. simpl. pose proof Pmm.BITMAP_PAGES_val. lia.
Qed.
Lemma cold_on : power_on cold_vmm cold.
Proof. split; [by exists 0, 0|done|done]. Qed.
Lemma demo_linked_ok : image_ok demo_linked.
Proof.
  split; [split; [done|]|done|split; [|done]].
  - apply Forall_replicate. lia.
  - split_and!; [reflexivity|exact Elf.demo_image_ok|by vm_compute].
Qed.
Lemma demo_loader_ok : loader_ok demo_limine cold_vmm (Terminal.one_region 1000) (2 ^ 63).
Proof.
  destruct (one_region_ok 1000) as (He & Ha & Hu); [lia|]. split; [done|done|exact He|exact Ha| | | | |].
  - rewrite Hu by lia. lia.
  - exists (seqZ 1 10). split_and!; [apply NoDup_seqZ|by rewrite length_seqZ|].
    apply Forall_seqZ. intros j Hj. apply Hu; lia.
  - intros x. cbn. lia.
  - intros p t _ [_ ->]%zero_descend. split; [done|]. rewrite Hu by lia.
    intros Hx. change (1 ≤ 4096 ≤ 1000) in Hx. lia.
  - intros p1 p2 t _ _ _ [-> _]%zero_descend [-> _]%zero_descend. done.
Qed.
Lemma root_only_file mem path : file_at (Tmpfs.root_only mem) path = None.
Proof.
  unfold file_at, Tmpfs.file_data. destruct (Tmpfs.is_file _ _) as [d|] eqn:E; [|done].
  apply Tmpfs.is_file_some in E as (Hd & Hj & Ht). apply Tmpfs.root_only_get in Hd as ->. by rewrite decide_False in Ht by lia.
Qed.
Lemma demo_initrd_ok x : initrd_ok demo_limine x.
Proof.
  split; [done|]. intros x' data [r Hr] Hf. exfalso.
  assert (wp (Tmpfs.init;; Initrd.unpack (module_response demo_limine)) (λ _ y, y = Tmpfs.root_only (Tmpfs.pool x)) x) as Hw
    by (wp_step; wp_use Tmpfs.wp_init; intros [] y ->; by wp_run).
  apply (wp_done _ _ _ _ _ Hr) in Hw as ->. by rewrite root_only_file in Hf.
Qed.

Lemma dark_with c : dark (gui (machine_with c)).
Proof.
  split; try done. split; [done|]. by apply (bool_decide_unpack _).
Qed.

(** A frame of vector [v]. *)
Definition irq_frame (v : Z) : Sched.frame :=
  Sched.mkFrame 0 0 0 0 0 0 0 0 0 0 0 0 0 0 0 v 0 0 0 0 0 0.

(** The embedded program runs. *)
Lemma boot_reaches_user_witness :
  wp (boot_system demo_limine demo_linked (irq_frame 3)) (λ _ m', kernel_ok (Kernel.sc (kern_of m')) ∧ dark (gui m') ∧
    userland demo_linked (Kernel.fs (kern_of m')) (Kernel.sc (kern_of m'))) cold.
Proof.
  eapply wp_mono.
  - apply (boot_reaches_user demo_limine demo_linked (irq_frame 3) cold_vmm cold (Terminal.one_region 1000) (2 ^ 63));
      [exact cold_on|exact demo_loader_ok|exact demo_linked_ok|apply demo_initrd_ok|done].
  - intros [] m' (t & s & x & E & _ & Hk & _ & _ & _ & Hu & Hd). split_and!; [by rewrite E|apply Hd, dark_with|by rewrite E].
Defined.

(** The same machine after boot, with 1000 free pages. *)
Definition warm : machine Pmm.pmm := machine_with Terminal.stocked_machine.

Lemma desktop_starts_witness :
  wp (desktop demo_limine demo_linked) (λ _ m', running m' ∧ Desc.masked (pics m') 12 = false) warm.
Proof.
  destruct Terminal.stocked_spec as [_ Hf]. eapply wp_mono.
  - apply (desktop_starts demo_limine demo_linked warm (Fb.mkInfo 700 450 2800 32 16 8 0) []).
    + reflexivity.
    + split; [split; split; reflexivity|reflexivity|split; done].
    + exists PAGE_SIZE. intros k Hk. change (0 ≤ k < 308) in Hk.
      change (Pmm.page_avail Terminal.stocked (PAGE_SIZE + k * PAGE_SIZE)).
      replace (PAGE_SIZE + k * PAGE_SIZE) with ((1 + k) * PAGE_SIZE) by lia.
      apply Pmm.page_avail_mul, Hf. lia.
    + apply dark_with.
    + exact Terminal.stocked_ok.
  - intros [] m' (Hr & Hm & _). split; [exact Hr|]. by rewrite (Hm 12) by lia.
Defined.

(** The GUI's demo machine: its thread yields, then a key is pressed. *)
Definition live_demo : machine Pmm.pmm := mkMachine (Session.demo 1 0 (-1)) [] [] (Desc.mkPic 0 0) [].
Definition yield_frame : Sched.frame := Syscall.with_rax Syscall.SYS_YIELD (irq_frame 0x80).
Lemma machine_keeps_running_witness :
  running live_demo ∧ match isr_handler 0 Sched.zero_frame yield_frame live_demo with
  | Done (_, m1) => wp (isr_handler 0x1E Sched.zero_frame (irq_frame 33))
      (λ r m', r = Iret (irq_frame 33) ∧ eois m' = [(0x20, 0x20); (0x20, 0x20)]) m1
  | _ => False
  end.
Proof.
  assert (running live_demo) as Hr by (split; [by apply Session.demo_session; left|apply Sched.booted_ok|apply Session.demo_blank]).
  split; [exact Hr|]. assert (match isr_handler 0 Sched.zero_frame yield_frame live_demo with Done (_, m1) => eois m1 = [(0x20, 0x20)] | _ => False end) as He
    by (vm_compute; reflexivity).
  destruct (isr_handler 0 Sched.zero_frame yield_frame live_demo) as [[r m1]| |] eqn:E; [|done|done].
  assert (rtc happens live_demo m1) as Hs.
  { eapply rtc_once, (by_syscall Sched.zero_frame yield_frame r live_demo m1); [by vm_compute|done|exact E]. }
  destruct (machine_keeps_running live_demo m1 0x1E Sched.zero_frame (irq_frame 33) None Hr Hs) as (_ & Hi & _);
    [lia|done|].
  eapply wp_mono; [exact Hi|]. intros r' m' (_ & He' & _ & f' & -> & [-> _]). split; [done|]. by rewrite He', He.
Defined.
End MachineSpec.
