(* ===== verification/Limine.v ===== *)
(** * The boot protocol ([kernel-rs/src/limine.rs])

    The requests in the kernel's image, the structures the loader leaves in
    memory, and their reading: from bytes to the answers [Machine] boots on.
    Memory is as the kernel addresses it, pointers are its addresses.  What the
    loader writes is stated by byte offsets, as the protocol documents them. *)
From S2P Require Import Prelude Mem Pmm Fb Machine.

Module Limine.

(** ** [#[repr(C)]]: sizes of the fields, which are all primitive or arrays of
    primitives; a field lies at the next multiple of its size *)
Definition align_up (o s : Z) : Z := (o + s - 1) / s * s.
Fixpoint offsets (o : Z) (l : list Z) : list Z :=
  match l with
  | [] => []
  | s :: l => align_up o s :: offsets (align_up o s + s) l
  end.
Definition fields (m : memory) (a : Z) (l : list Z) : list Z :=
  zip_with (λ o s, load_le (Z.to_nat s) m (a + o)) (offsets 0 l) l.
Definition field (m : memory) (a : Z) (l : list Z) (i : Z) : Z := default 0 (zget (fields m a l) i).

Definition LIMINE_COMMON_MAGIC : list Z := [0xc7b1dd30df4c8b88; 0x0a82e883a194f07b].
(** [id: [u64; 4], revision: u64, response: *const _] *)
Definition Request : list Z := [8; 8; 8; 8; 8; 8].
Definition MemmapEntry : list Z := [8; 8; 8].
Definition MemmapResponse : list Z := [8; 8; 8].
Definition HhdmResponse : list Z := [8; 8].
Definition Framebuffer : list Z :=
  [8; 8; 8; 8; 2; 1; 1; 1; 1; 1; 1; 1] ++ [1; 1; 1; 1; 1; 1; 1] ++ [8; 8; 8; 8].
Definition FramebufferResponse : list Z := [8; 8; 8].
Definition File : list Z := [8; 8; 8; 8; 8; 4; 4; 4; 4; 4; 4; 8; 8; 8; 8; 8; 8].
Definition ModuleResponse : list Z := [8; 8; 8].

Definition MEMMAP_ID : list Z := LIMINE_COMMON_MAGIC ++ [0x67cf3d9d378a806f; 0xe304acdfc50c3c62].
Definition HHDM_ID : list Z := LIMINE_COMMON_MAGIC ++ [0x48dcf1cb8ad2b852; 0x63984e959a98244b].
Definition FB_ID : list Z := LIMINE_COMMON_MAGIC ++ [0x9d5827dcd881dd75; 0xa3148604f6fab11b].
Definition MODULE_ID : list Z := LIMINE_COMMON_MAGIC ++ [0x3e7e279702be32af; 0xca1c4f3bd1280cee].

Section read.
Variable m : memory.
(** Where the linker puts the requests. *)
Variables MEMMAP_REQUEST HHDM_REQUEST FB_REQUEST MODULE_REQUEST : Z.

(** [addr_of!(REQUEST.response).read_volatile()], then [as_ref()]. *)
Definition response (request : Z) : option Z :=
  let p := field m request Request 5 in if p =? 0 then None else Some p.
(** [*const *const T]: [n] pointers. *)
Definition pointers (a n : Z) : list Z := (λ i, load64 m (a + 8 * i)) <$> seqZ 0 n.

Definition memmap_entry (a : Z) : Pmm.memmap_entry :=
  Pmm.mkEntry (field m a MemmapEntry 0) (field m a MemmapEntry 1) (field m a MemmapEntry 2).
Definition framebuffer (a : Z) : Fb.fb_info :=
  Fb.mkInfo (field m a Framebuffer 1) (field m a Framebuffer 2) (field m a Framebuffer 3) (field m a Framebuffer 4)
    (field m a Framebuffer 7) (field m a Framebuffer 9) (field m a Framebuffer 11).
Definition file (a : Z) : list Z := load_bytes m (field m a File 1) (field m a File 2).

Definition memmap_response : option Z := response MEMMAP_REQUEST.
Definition hhdm_response : option Z := response HHDM_REQUEST.
Definition framebuffer_response : option Z := response FB_REQUEST.
Definition module_response : option Z := response MODULE_REQUEST.

(** What the callers read through them. *)
Definition memory_map : option (list Pmm.memmap_entry) :=
  r ← memmap_response;
  Some (memmap_entry <$> pointers (field m r MemmapResponse 2) (field m r MemmapResponse 1)).
Definition hhdm_offset : option Z :=
  r ← hhdm_response;
  Some (field m r HhdmResponse 1).
Definition framebuffers : option (list Fb.fb_info) :=
  r ← framebuffer_response;
  Some (framebuffer <$> pointers (field m r FramebufferResponse 2) (field m r FramebufferResponse 1)).
Definition modules : option (list (list Z)) :=
  r ← module_response;
  Some (file <$> pointers (field m r ModuleResponse 2) (field m r ModuleResponse 1)).
Definition answers : Machine.limine := Machine.mkLimine memory_map hhdm_offset framebuffers modules.
End read.

Example framebuffer_offsets :
  offsets 0 Framebuffer = [0; 8; 16; 24; 32; 34; 35; 36; 37; 38; 39; 40; 41; 42; 43; 44; 45; 46; 47; 48; 56; 64; 72].
Proof. reflexivity. Qed.
Example file_offsets :
  offsets 0 File = [0; 8; 16; 24; 32; 40; 44; 48; 52; 56; 60; 64; 72; 80; 88; 96; 104].
Proof. reflexivity. Qed.

(** ** What the loader writes *)
(** Bytes, and the little-endian number of [n] bytes. *)
Definition holds (m : memory) (a : Z) (bs : list Z) : Prop := ∀ i b, zget bs i = Some b → m (a + i) = b.
Fixpoint le (n : nat) (v : Z) : list Z :=
  match n with
  | O => []
  | S n => v mod 2 ^ 8 :: le n (v / 2 ^ 8)
  end.
(** An unsigned field of [n] bytes. *)
Record stored (m : memory) (a : Z) (n : nat) (v : Z) : Prop := {
  st_range : 0 ≤ v < 2 ^ (8 * Z.of_nat n);
  st_bytes : holds m a (le n v);
}.

Lemma holds_app m a l l' : holds m a (l ++ l') → holds m a l ∧ holds m (a + zlen l) l'.
Proof.
  intros H. split; intros i b Hb.
  - apply H. pose proof (zget_Some_lt _ _ _ Hb). by rewrite zget_app_l by lia.
  - pose proof (zget_Some_lt _ _ _ Hb). rewrite <- Z.add_assoc. apply H.
    rewrite zget_app_r by lia. by rewrite Z.add_simpl_l.
Qed.
Lemma zlen_le n v : zlen (le n v) = Z.of_nat n.
Proof. revert v. induction n as [|n IH]; intros v; [done|]. cbn [le]. rewrite zlen_cons, IH. lia. Qed.
Lemma load_held n m a v : holds m a (le n v) → load_le n m a = v mod 2 ^ (8 * Z.of_nat n).
Proof.
  revert a v. induction n as [|n IH]; intros a v H; cbn [load_le le] in *; [by rewrite Z.mod_1_r|].
  apply (holds_app m a [v mod 2 ^ 8]) in H as [H0 H1]. rewrite (IH (a + 1) (v / 2 ^ 8) H1).
  specialize (H0 0 _ eq_refl). rewrite Z.add_0_r in H0. rewrite H0.
  replace (8 * Z.of_nat (S n)) with (8 + 8 * Z.of_nat n) by lia. rewrite Z.pow_add_r, Z.rem_mul_r by lia. done.
Qed.
Lemma load_stored n m a v : stored m a n v → load_le n m a = v.
Proof. intros [Hr Hb]. rewrite (load_held _ _ _ _ Hb). by apply Z.mod_small. Qed.
Lemma held_bytes m a bs : holds m a bs → load_bytes m a (zlen bs) = bs.
Proof.
  intros Hh. unfold load_bytes. revert a Hh. induction bs as [|b bs IH]; intros a Hh; [done|].
  apply (holds_app m a [b]) in Hh as [H0 H1]. rewrite zlen_cons, seqZ_cons by (pose proof (zlen_nonneg bs); lia).
  cbn [fmap list_fmap]. f_equal; [specialize (H0 0 b eq_refl); by rewrite Z.add_0_r in H0|].
  replace (Z.pred (1 + zlen bs)) with (zlen bs) by lia. exact (IH (a + 1) H1).
Qed.

(** ** The protocol *)
Module protocol.
(** The features, by the four words of their identifiers. *)
Definition magic : list Z := [0xc7b1dd30df4c8b88; 0x0a82e883a194f07b].
Definition memmap : list Z := magic ++ [0x67cf3d9d378a806f; 0xe304acdfc50c3c62].
Definition hhdm : list Z := magic ++ [0x48dcf1cb8ad2b852; 0x63984e959a98244b].
Definition framebuffer : list Z := magic ++ [0x9d5827dcd881dd75; 0xa3148604f6fab11b].
Definition module : list Z := magic ++ [0x3e7e279702be32af; 0xca1c4f3bd1280cee].

Definition entry_at (m : memory) (a : Z) (e : Pmm.memmap_entry) : Prop :=
  stored m a 8 (Pmm.base e) ∧ stored m (a + 8) 8 (Pmm.length_ e) ∧ stored m (a + 16) 8 (Pmm.typ e).
Definition offset_at (m : memory) (a off : Z) : Prop := stored m (a + 8) 8 off.
(** [address], three 64-bit numbers, [bpp] in two bytes, the memory model, then
    size and shift of red, green and blue in a byte each. *)
Record framebuffer_at (m : memory) (a : Z) (f : Fb.fb_info) : Prop := {
  fa_width : stored m (a + 8) 8 (Fb.width f);
  fa_height : stored m (a + 16) 8 (Fb.height f);
  fa_pitch : stored m (a + 24) 8 (Fb.pitch f);
  fa_bpp : stored m (a + 32) 2 (Fb.bpp f);
  fa_red : stored m (a + 36) 1 (Fb.red_mask_shift f);
  fa_green : stored m (a + 38) 1 (Fb.green_mask_shift f);
  fa_blue : stored m (a + 40) 1 (Fb.blue_mask_shift f);
}.
Definition file_at (m : memory) (a : Z) (bs : list Z) : Prop := ∃ p,
  stored m (a + 8) 8 p ∧ stored m (a + 16) 8 (zlen bs) ∧ holds m p bs.
(** A count and an array of pointers. *)
Definition listed {A} (P : memory → Z → A → Prop) (m : memory) (p : Z) (xs : list A) : Prop := ∃ a,
  stored m (p + 8) 8 (zlen xs) ∧ stored m (p + 16) 8 a ∧
  ∀ i x, zget xs i = Some x → ∃ q, stored m (a + 8 * i) 8 q ∧ P m q x.

(** Of the requests in the kernel's image, the loader looks for those with the
    feature's identifier, and fills in the pointer at offset 40 or leaves 0. *)
Definition served {A} (m : memory) (requests : list Z) (id : list Z) (P : memory → Z → A → Prop) (o : option A) : Prop :=
  ∀ r, r ∈ requests → holds m r (id ≫= le 8) →
    match o with
    | None => stored m (r + 40) 8 0
    | Some x => ∃ p, p ≠ 0 ∧ stored m (r + 40) 8 p ∧ P m p x
    end.
End protocol.

(** ** Reading the answers back *)
Section loader.
Variable m : memory.
Variables MEMMAP_REQUEST HHDM_REQUEST FB_REQUEST MODULE_REQUEST : Z.
Definition requests : list Z := [MEMMAP_REQUEST; HHDM_REQUEST; FB_REQUEST; MODULE_REQUEST].

(** The identifiers in the kernel's image, and the loader's work. *)
Record loader_wrote (lm : Machine.limine) : Prop := {
  im_map : holds m MEMMAP_REQUEST (MEMMAP_ID ≫= le 8);
  im_hhdm : holds m HHDM_REQUEST (HHDM_ID ≫= le 8);
  im_fb : holds m FB_REQUEST (FB_ID ≫= le 8);
  im_module : holds m MODULE_REQUEST (MODULE_ID ≫= le 8);
  lw_map : protocol.served m requests protocol.memmap (protocol.listed protocol.entry_at) (Machine.memmap_response lm);
  lw_hhdm : protocol.served m requests protocol.hhdm protocol.offset_at (Machine.hhdm_response lm);
  lw_fb : protocol.served m requests protocol.framebuffer (protocol.listed protocol.framebuffer_at) (Machine.framebuffer_response lm);
  lw_module : protocol.served m requests protocol.module (protocol.listed protocol.file_at) (Machine.module_response lm);
}.

Lemma response_read {A} r id (P : memory → Z → A → Prop) o (g : Z → A) :
  r ∈ requests → holds m r (id ≫= le 8) → protocol.served m requests id P o → (∀ p x, P m p x → g p = x) →
  (p ← response m r; Some (g p)) = o.
Proof.
  intros Hr Hid Ho Hg. specialize (Ho r Hr Hid).
  assert (∀ p, stored m (r + 40) 8 p → field m r Request 5 = p) as Hf by (intros p Hp; by apply (load_stored 8)).
  unfold response. destruct o as [x|]; [|by rewrite (Hf 0)].
  destruct Ho as (p & Hp & Hs & HP). rewrite (Hf p Hs), (proj2 (Z.eqb_neq p 0)) by done. cbn. by rewrite (Hg p x).
Qed.
Lemma pointers_read {A} (P : memory → Z → A → Prop) (g : Z → A) a xs :
  (∀ q x, P m q x → g q = x) →
  (∀ i x, zget xs i = Some x → ∃ q, stored m (a + 8 * i) 8 q ∧ P m q x) → g <$> pointers m a (zlen xs) = xs.
Proof.
  intros Hg. unfold pointers. revert a. induction xs as [|x xs IH]; intros a Hx; [done|].
  rewrite zlen_cons, seqZ_cons by (pose proof (zlen_nonneg xs); lia). cbn [fmap list_fmap]. f_equal.
  - destruct (Hx 0 x eq_refl) as (q & Hq & HP). apply Hg. unfold load64. by rewrite (load_stored 8 m _ q).
  - etrans; [|apply (IH (a + 8))].
    + replace (Z.pred (1 + zlen xs)) with (zlen xs) by lia. f_equal.
      change (Z.succ 0) with (1 + 0). rewrite <- (fmap_add_seqZ 1 0), <- list_fmap_compose.
      apply list_fmap_ext. intros k i _. unfold compose. f_equal. lia.
    + intros i y Hy. destruct (Hx (1 + i) y) as (q & Hq & HP).
      { pose proof (zget_Some_lt _ _ _ Hy). change (x :: xs) with ([x] ++ xs). rewrite zget_app_r; change (zlen [x]) with 1; [|lia].
        by replace (1 + i - 1) with i by lia. }
      exists q. split; [|done]. by replace (a + 8 + 8 * i) with (a + 8 * (1 + i)) by lia.
Qed.
(** The three lists have the same shape of response. *)
Lemma listed_read {A} (P : memory → Z → A → Prop) (g : Z → A) p xs :
  (∀ q x, P m q x → g q = x) → protocol.listed P m p xs →
  g <$> pointers m (load64 m (p + 16)) (load64 m (p + 8)) = xs.
Proof.
  intros Hg (a & Hn & Ha & Hx). unfold load64. rewrite (load_stored 8 m _ _ Hn), (load_stored 8 m _ _ Ha). by apply (pointers_read P).
Qed.

Lemma entry_read a e : protocol.entry_at m a e → memmap_entry m a = e.
Proof.
  intros (H1 & H2 & H3). replace a with (a + 0) in H1 by lia.
  change (memmap_entry m a) with (Pmm.mkEntry (load_le 8 m (a + 0)) (load_le 8 m (a + 8)) (load_le 8 m (a + 16))).
  rewrite (load_stored 8 m _ _ H1), (load_stored 8 m _ _ H2), (load_stored 8 m _ _ H3). by destruct e.
Qed.
Lemma fb_read a f : protocol.framebuffer_at m a f → framebuffer m a = f.
Proof.
  intros [H1 H2 H3 H4 H5 H6 H7].
  change (framebuffer m a) with (Fb.mkInfo (load_le 8 m (a + 8)) (load_le 8 m (a + 16)) (load_le 8 m (a + 24)) (load_le 2 m (a + 32))
    (load_le 1 m (a + 36)) (load_le 1 m (a + 38)) (load_le 1 m (a + 40))).
  rewrite (load_stored 8 m _ _ H1), (load_stored 8 m _ _ H2), (load_stored 8 m _ _ H3), (load_stored 2 m _ _ H4),
    (load_stored 1 m _ _ H5), (load_stored 1 m _ _ H6), (load_stored 1 m _ _ H7). by destruct f.
Qed.
Lemma file_read a bs : protocol.file_at m a bs → file m a = bs.
Proof.
  intros (p & Hp & Hn & Hb). change (file m a) with (load_bytes m (load_le 8 m (a + 8)) (load_le 8 m (a + 16))).
  rewrite (load_stored 8 m _ _ Hp), (load_stored 8 m _ _ Hn). by apply held_bytes.
Qed.

(** C22: the kernel reads the boot protocol as the protocol documents it.  When
    the loader finds the four requests of the image by the identifiers of the
    features and lays the answers [lm] out at the documented offsets - a pointer
    at byte 40 of a request, or 0; a count at 8 and an array of pointers at 16
    of a response; fields at their places in each structure - then reading them
    through the kernel's structures gives [lm]: every memory region, the offset,
    the mode of the framebuffer, and every byte of every module. *)
Theorem answers_read_back lm :
  loader_wrote lm → answers m MEMMAP_REQUEST HHDM_REQUEST FB_REQUEST MODULE_REQUEST = lm.
Proof.
  intros [I1 I2 I3 I4 H1 H2 H3 H4]. unfold answers.
  assert (∀ r, r ∈ requests ↔ r = MEMMAP_REQUEST ∨ r = HHDM_REQUEST ∨ r = FB_REQUEST ∨ r = MODULE_REQUEST) as Hin
    by (intros r; unfold requests; rewrite !elem_of_cons, elem_of_nil; tauto).
  assert (memory_map m MEMMAP_REQUEST = Machine.memmap_response lm) as ->.
  { apply (response_read MEMMAP_REQUEST protocol.memmap _ _ _ (proj2 (Hin MEMMAP_REQUEST) ltac:(tauto)) I1 H1). intros p x. apply (listed_read protocol.entry_at), entry_read. }
  assert (hhdm_offset m HHDM_REQUEST = Machine.hhdm_response lm) as ->.
  { apply (response_read HHDM_REQUEST protocol.hhdm _ _ (λ p, field m p HhdmResponse 1) (proj2 (Hin HHDM_REQUEST) ltac:(tauto)) I2 H2).
    intros p x Hx. by apply (load_stored 8). }
  assert (framebuffers m FB_REQUEST = Machine.framebuffer_response lm) as ->.
  { apply (response_read FB_REQUEST protocol.framebuffer _ _ _ (proj2 (Hin FB_REQUEST) ltac:(tauto)) I3 H3). intros p x. apply (listed_read protocol.framebuffer_at), fb_read. }
  assert (modules m MODULE_REQUEST = Machine.module_response lm) as ->.
  { apply (response_read MODULE_REQUEST protocol.module _ _ _ (proj2 (Hin MODULE_REQUEST) ltac:(tauto)) I4 H4). intros p x. apply (listed_read protocol.file_at), file_read. }
  by destruct lm.
Qed.
End loader.

(** ** A boot with one region, one mode and one file *)
Definition demo_answers : Machine.limine :=
  Machine.mkLimine (Some [Pmm.mkEntry 0x100000 0x8000 0]) (Some 0xffff800000000000)
    (Some [Fb.mkInfo 700 450 2800 32 16 8 0]) (Some [[104; 105; 33]]).
Definition demo_bytes : list (Z * list Z) :=
  [(0x1000, protocol.memmap ≫= le 8); (0x1028, le 8 0x2000); (0x1100, protocol.hhdm ≫= le 8); (0x1128, le 8 0x2100);
   (0x1200, protocol.framebuffer ≫= le 8); (0x1228, le 8 0x2200); (0x1300, protocol.module ≫= le 8); (0x1328, le 8 0x2300);
   (0x2008, le 8 1); (0x2010, le 8 0x3000); (0x2108, le 8 0xffff800000000000);
   (0x2208, le 8 1); (0x2210, le 8 0x3100); (0x2308, le 8 1); (0x2310, le 8 0x3200);
   (0x3000, le 8 0x4000); (0x3100, le 8 0x4100); (0x3200, le 8 0x4200);
   (0x4000, [0x100000; 0x8000; 0] ≫= le 8); (0x4108, [700; 450; 2800] ≫= le 8); (0x4120, [32; 0; 1; 8; 16; 8; 8; 8; 0]);
   (0x4208, [0x5000; 3] ≫= le 8); (0x5000, [104; 105; 33])].
Definition demo_memory : memory := foldr (λ x m, store_bytes m x.1 x.2) (λ _, 0) demo_bytes.

Lemma loaded_holds m a bs : load_bytes m a (zlen bs) = bs → holds m a bs.
Proof.
  intros H i b Hi. pose proof (zget_Some_lt _ _ _ Hi).
  assert (zget (load_bytes m a (zlen bs)) i = Some b) as Hl by (by rewrite H).
  unfold load_bytes, zget in Hl. rewrite decide_True, list_lookup_fmap, lookup_seqZ_lt in Hl by lia.
  injection Hl as <-. f_equal. lia.
Qed.
Lemma loaded_stored m a n v :
  0 ≤ v < 2 ^ (8 * Z.of_nat n) → load_bytes m a (zlen (le n v)) = le n v → stored m a n v.
Proof. intros Hr Hb. split; [exact Hr|by apply loaded_holds]. Qed.
Ltac in_memory := first
  [apply loaded_holds; vm_compute; reflexivity|apply loaded_stored; [split; vm_compute; [discriminate|reflexivity]|vm_compute; reflexivity]].
Lemma zget_single {A} (y x : A) i : zget [y] i = Some x → i = 0 ∧ x = y.
Proof.
  intros Hx. pose proof (zget_Some_lt _ _ _ Hx) as Hi. change (zlen [y]) with 1 in Hi.
  assert (i = 0) as -> by lia. by injection Hx as ->.
Qed.
(** Another request: the third word of the identifier is not there. *)
Lemma other_request m r id b : zget (id ≫= le 8) 16 = Some b → m (r + 16) ≠ b → ¬ holds m r (id ≫= le 8).
Proof. intros Hb Hm H. by destruct (Hm (H 16 b Hb)). Qed.
Ltac served := intros r Hr Hid; unfold requests in Hr; rewrite !elem_of_cons, elem_of_nil in Hr;
  destruct Hr as [->|[->|[->|[->|[]]]]];
  try (exfalso; eapply other_request; [..|exact Hid]; [reflexivity|vm_compute; discriminate]); clear Hid.

Lemma demo_wrote : loader_wrote demo_memory 0x1000 0x1100 0x1200 0x1300 demo_answers.
Proof.
  split; [in_memory..| | | |]; served.
  - exists 0x2000. split; [done|]. split; [in_memory|]. exists 0x3000. split_and!; [in_memory|in_memory|].
    intros i x [-> ->]%zget_single. exists 0x4000. split; [in_memory|]. split_and!; in_memory.
  - exists 0x2100. split; [done|]. split; [in_memory|]. unfold protocol.offset_at. in_memory.
  - exists 0x2200. split; [done|]. split; [in_memory|]. exists 0x3100. split_and!; [in_memory|in_memory|].
    intros i x [-> ->]%zget_single. exists 0x4100. split; [in_memory|]. split; in_memory.
  - exists 0x2300. split; [done|]. split; [in_memory|]. exists 0x3200. split_and!; [in_memory|in_memory|].
    intros i x [-> ->]%zget_single. exists 0x4200. split; [in_memory|]. exists 0x5000. split_and!; in_memory.
Qed.
Lemma answers_read_back_witness :
  loader_wrote demo_memory 0x1000 0x1100 0x1200 0x1300 demo_answers ∧
  answers demo_memory 0x1000 0x1100 0x1200 0x1300 = demo_answers.
Proof. split; [exact demo_wrote|]. exact (answers_read_back _ _ _ _ _ _ demo_wrote). Defined.
End Limine.
