(* ===== verification/Ports.v ===== *)
(** * Port I/O ([io.rs], and its users: [uart.rs], [pic.rs], [gui/mouse.rs])

    The devices are a parameter: what a port gives may depend on everything
    that was read and written before.  [sent] records the bytes written,
    [reads] counts the bytes read. *)
From S2P Require Import Prelude Pmm Vmm Tmpfs Sched Kbd Desc Kernel Log Shell Machine.

Module Ports.

(** [in] and [out]. *)
Class Device (D : Type) := {
  din : Z → D → Z * D;
  dout : Z → Z → D → D;
}.

Record io (D : Type) := mkIo { dev : D; sent : list (Z * Z); reads : Z }.
Arguments mkIo {D}.
Arguments dev {D}.
Arguments sent {D}.
Arguments reads {D}.

Section ports.
Context {D : Type} `{Device D}.
Implicit Types s : io D.

(** The port's answer is a byte register. *)
Definition inb (port : Z) : M (io D) Z :=
  r ← gets (λ s, din port (dev s));
  modify (λ s, mkIo (snd r) (sent s) (reads s + 1));;
  mret (u8 (fst r)).
Definition outb (port v : Z) : M (io D) unit :=
  modify (λ s, mkIo (dout port v (dev s)) (sent s ++ [(port, v)]) (reads s)).
Fixpoint outs (l : list (Z * Z)) : M (io D) unit :=
  match l with
  | [] => mret tt
  | (p, v) :: l => outb p v;; outs l
  end.

(** ** The serial port *)
Definition COM1 : Z := 0x3f8.
Definition uart_init : M (io D) unit :=
  outb (COM1 + 1) 0x00;; outb (COM1 + 3) 0x80;; outb (COM1 + 0) 0x03;; outb (COM1 + 1) 0x00;;
  outb (COM1 + 3) 0x03;; outb (COM1 + 2) 0xC7;; outb (COM1 + 4) 0x0B.
Definition tx_empty : M (io D) bool := b ← inb (COM1 + 5); mret (negb (Z.land b 0x20 =? 0)).
(** [while !tx_empty() {}] ends when the transmitter is empty: [fuel] bounds
    how long that takes. *)
Definition putc_step (_ : unit) : M (io D) (unit + unit) :=
  e ← tx_empty; mret (if e : bool then inr tt else inl tt).
Definition putc (fuel : nat) (c : Z) : M (io D) unit :=
  loop fuel putc_step tt;; outb COM1 c.
Fixpoint write_bytes (fuel : nat) (s : list Z) : M (io D) unit :=
  match s with
  | [] => mret tt
  | b :: s => (if b =? 10 then putc fuel 13 else mret tt);; putc fuel b;; write_bytes fuel s
  end.
Definition getc : M (io D) (option Z) :=
  st ← inb (COM1 + 5);
  if Z.land st 0x01 =? 0 then mret None
  else
    c ← inb COM1;
    let c := if c =? 13 then 10 else c in
    let c := if c =? 127 then 8 else c in
    mret (Some c).

(** ** The interrupt controllers *)
Definition PIC1_CMD : Z := 0x20.
Definition PIC1_DATA : Z := 0x21.
Definition PIC2_CMD : Z := 0xA0.
Definition PIC2_DATA : Z := 0xA1.
Definition PIC_IRQ_BASE : Z := 0x20.
Definition io_wait : M (io D) unit := outb 0x80 0.
Definition pic_init : M (io D) unit :=
  outb PIC1_CMD 0x11;; io_wait;;
  outb PIC2_CMD 0x11;; io_wait;;
  outb PIC1_DATA PIC_IRQ_BASE;; io_wait;;
  outb PIC2_DATA (PIC_IRQ_BASE + 8);; io_wait;;
  outb PIC1_DATA 0x04;; io_wait;;
  outb PIC2_DATA 0x02;; io_wait;;
  outb PIC1_DATA 0x01;; io_wait;;
  outb PIC2_DATA 0x01;; io_wait;;
  outb PIC1_DATA 0xFF;;
  outb PIC2_DATA 0xFF.
Definition eoi (irq : Z) : M (io D) unit :=
  (if irq >=? 8 then outb PIC2_CMD 0x20 else mret tt);;
  outb PIC1_CMD 0x20.
Definition data_port (irq : Z) : Z := if irq <? 8 then PIC1_DATA else PIC2_DATA.
(** [!(1 << bit)] is of type [u8]. *)
Definition unmask (irq : Z) : M (io D) unit :=
  cur ← inb (data_port irq);
  outb (data_port irq) (Z.land cur (255 - u8 (Z.shiftl 1 (Desc.pic_bit irq)))).
Definition mask (irq : Z) : M (io D) unit :=
  cur ← inb (data_port irq);
  outb (data_port irq) (Z.lor cur (u8 (Z.shiftl 1 (Desc.pic_bit irq)))).
End ports.

(** ** The mouse's controller *)
Record ctl (D : Type) := mkCtl { port : io D; IO_TIMEOUT : bool; IO_TIMEOUT_AT : Z }.
Arguments mkCtl {D}.
Arguments port {D}.
Arguments IO_TIMEOUT {D}.
Arguments IO_TIMEOUT_AT {D}.

Section mouse.
Context {D : Type} `{Device D}.
Definition set_port (p : io D) (s : ctl D) : ctl D := mkCtl p (IO_TIMEOUT s) (IO_TIMEOUT_AT s).
Definition on_port {A} (c : M (io D) A) : M (ctl D) A := zoom port set_port c.

Definition TRIES : Z := 1000000.
Definition wait_write_step (t : Z) : M (ctl D) (Z + unit) :=
  if t >? 0 then
    b ← on_port (inb 0x64);
    mret (if negb (Z.land b 2 =? 0) then inl (t - 1) else inr tt)
  else mret (inr tt).
Definition wait_write_at (_ : Z) : M (ctl D) unit :=
  loop (S (Z.to_nat TRIES)) wait_write_step TRIES.
Definition wait_read_step (t : Z) : M (ctl D) (Z + bool) :=
  if t >? 0 then
    b ← on_port (inb 0x64);
    mret (if negb (Z.land b 1 =? 0) then inr true else inl (t - 1))
  else mret (inr false).
Definition wait_read_at (line : Z) : M (ctl D) unit :=
  got ← loop (S (Z.to_nat TRIES)) wait_read_step TRIES;
  if negb got then modify (λ s, mkCtl (port s) true line) else mret tt.

Definition write (byte : Z) : M (ctl D) unit :=
  wait_write_at 52;; on_port (outb 0x64 0xD4);;
  wait_write_at 54;; on_port (outb 0x60 byte).
Definition read : M (ctl D) Z := wait_read_at 59;; on_port (inb 0x60).

(** Stale bytes are taken out, at most 100000. *)
Definition drain : M (ctl D) unit :=
  _ ← for_range 0 100000 (λ _,
    b ← on_port (inb 0x64);
    if Z.land b 1 =? 0 then mret (Some tt)
    else _ ← on_port (inb 0x60); mret None);
  mret tt.
(** The command byte that is written back. *)
Definition enabled (status : Z) : Z := Z.land (Z.lor status 2) (255 - 0x20).
(** [init], up to the pointer's start. *)
Definition handshake : M (ctl D) unit :=
  drain;;
  wait_write_at 74;; on_port (outb 0x64 0xA8);;
  wait_write_at 76;; on_port (outb 0x64 0x20);;
  wait_read_at 78;;
  status ← on_port (inb 0x60);
  wait_write_at 81;; on_port (outb 0x64 0x60);;
  wait_write_at 83;; on_port (outb 0x60 (enabled status));;
  write 0xF6;; _ ← read;
  write 0xF4;; _ ← read;
  mret tt.
End mouse.

(** ** What is sent *)
Section sent.
Context {D : Type} `{Device D}.
Implicit Types s : io D.

(** [n] reads at most, and nothing sent. *)
Definition polled (n : Z) s s' : Prop := sent s' = sent s ∧ reads s ≤ reads s' ≤ reads s + n.
(** The bytes [l], after [n] reads at most. *)
Definition sends (l : list (Z * Z)) (n : Z) s s' : Prop := sent s' = sent s ++ l ∧ reads s ≤ reads s' ≤ reads s + n.

Lemma wp_inb p s : wp (inb p) (λ b s', 0 ≤ b < 256 ∧ polled 1 s s') s.
Proof.
  unfold inb. wp_run. split; [unfold u8; apply Z.mod_pos_bound; done|]. split; cbn [sent reads]; [done|lia].
Qed.
Lemma wp_outs l s : wp (outs l) (λ _ s', sent s' = sent s ++ l ∧ reads s' = reads s ∧
  dev s' = fold_left (λ d pv, dout (fst pv) (snd pv) d) l (dev s)) s.
Proof.
  revert s. induction l as [|[p v] l IH]; intros s; cbn [outs]; [wp_run; by rewrite app_nil_r|].
  unfold outb. wp_run. wp_use IH. intros [] s' (E & R & Ed). cbn [sent reads dev] in *. by rewrite E, <- app_assoc.
Qed.
End sent.

Section handshake.
Context {D : Type} `{Device D}.
Implicit Types s : ctl D.
(** On the controller's state. *)
Definition csends (l : list (Z * Z)) (n : Z) s s' : Prop := sends l n (port s) (port s').

Lemma csends_trans l l' n n' s s1 s2 : csends l n s s1 → csends l' n' s1 s2 → csends (l ++ l') (n + n') s s2.
Proof. intros [E R] [E' R']. split; [by rewrite E', E, app_assoc|lia]. Qed.
Lemma csends_refl s : csends [] 0 s s.
Proof. split; [by rewrite app_nil_r|lia]. Qed.
Lemma wp_poll p s : wp (on_port (inb p)) (λ b s', 0 ≤ b < 256 ∧ csends [] 1 s s') s.
Proof.
  unfold on_port. apply wp_zoom. wp_use wp_inb. intros b p' (Hb & E & R). split; [exact Hb|].
  split; cbn [port set_port]; [by rewrite app_nil_r|lia].
Qed.
Lemma wp_send p v s : wp (on_port (outb p v)) (λ _ s', csends [(p, v)] 0 s s') s.
Proof. unfold on_port. apply wp_zoom. unfold outb. wp_run. split; cbn; [done|lia]. Qed.

(** Bit 1 on, bit 5 off. *)
Lemma enabled_bits st i :
  0 ≤ st < 256 → 0 ≤ i < 8 → Z.testbit (enabled st) i =
    (if decide (i = 1) then true else if decide (i = 5) then false else Z.testbit st i).
Proof.
  intros Hst Hi. unfold enabled. rewrite Z.land_spec, Z.lor_spec.
  assert (i ∈ seqZ 0 8) as Hin by (apply elem_of_seqZ; lia). cbn in Hin.
  repeat (apply elem_of_cons in Hin as [->|Hin]; [simpl; by rewrite ?orb_false_r, ?orb_true_r, ?andb_true_r, ?andb_false_r|]).
  by apply elem_of_nil in Hin.
Qed.
(** Waiting ends, whatever the controller answers. *)
Lemma wp_wait_write l s : wp (wait_write_at l) (λ _ s', csends [] TRIES s s') s.
Proof.
  unfold wait_write_at. apply (wp_loop (λ t s', 0 ≤ t ≤ TRIES ∧ csends [] (TRIES - t) s s') Z.to_nat).
  - split; [done|]. rewrite Z.sub_diag. apply csends_refl.
  - lia.
  - intros t s1 [Ht H1]. unfold wait_write_step. rewrite Z.gtb_ltb. destruct (Z.ltb_spec 0 t).
    2: { wp_run. destruct H1 as [E R]. split; [done|lia]. }
    wp_step. wp_use wp_poll. intros b s2 [_ H2]. wp_run. pose proof (csends_trans _ _ _ _ _ _ _ H1 H2) as [E R].
    destruct (negb _); [|split; [done|lia]]. split; [|lia]. split; [lia|]. split; [done|lia].
Qed.
Lemma wp_wait_read l s : wp (wait_read_at l) (λ _ s', csends [] TRIES s s') s.
Proof.
  unfold wait_read_at. wp_step.
  apply (wp_loop (λ t s', 0 ≤ t ≤ TRIES ∧ csends [] (TRIES - t) s s') Z.to_nat).
  - split; [done|]. rewrite Z.sub_diag. apply csends_refl.
  - lia.
  - intros t s1 [Ht H1]. unfold wait_read_step. rewrite Z.gtb_ltb. destruct (Z.ltb_spec 0 t).
    2: { wp_run. destruct H1 as [E R]. split; [done|cbn; lia]. }
    wp_step. wp_use wp_poll. intros b s2 [_ H2]. wp_run. pose proof (csends_trans _ _ _ _ _ _ _ H1 H2) as [E R].
    destruct (negb (Z.land b 1 =? 0)); [wp_run; split; [done|lia]|]. split; [|lia]. split; [lia|]. split; [done|lia].
Qed.
Lemma wp_drain s : wp drain (λ _ s', csends [] 200000 s s') s.
Proof.
  unfold drain. wp_step. apply (wp_for_range (λ i s', csends [] (2 * i) s s')).
  - done.
  - apply csends_refl.
  - intros i s1 Hi H1. wp_step. wp_use wp_poll. intros b s2 [_ H2].
    pose proof (csends_trans _ _ _ _ _ _ _ H1 H2) as H12. destruct (Z.land b 1 =? 0).
    + wp_run. destruct H12 as [E R]. split; [done|lia].
    + wp_step. wp_use wp_poll. intros b' s3 [_ H3]. wp_run.
      destruct (csends_trans _ _ _ _ _ _ _ H12 H3) as [E R]. split; [done|lia].
  - intros s1 H1. by wp_run.
Qed.
Lemma wp_after {A B} (c : M (ctl D) A) (k : A → M (ctl D) B) (R : A → Prop) Q l n l1 n1 s0 s :
  csends l n s0 s → wp c (λ a s', R a ∧ csends l1 n1 s s') s →
  (∀ a s', R a → csends (l ++ l1) (n + n1) s0 s' → wp (k a) Q s') → wp (c ≫= k) Q s.
Proof.
  intros H0 Hc Hk. wp_step. eapply wp_mono; [exact Hc|]. intros a s' [Ha H1]. apply Hk; [exact Ha|].
  by eapply csends_trans.
Qed.
Lemma wp_plain {A} (c : M (ctl D) A) l n s :
  wp c (λ _ s', csends l n s s') s → wp c (λ _ s', True ∧ csends l n s s') s.
Proof. intros Hc. by eapply wp_mono. Qed.

(** One command after those of [H]. *)
Ltac after H L := eapply wp_after; [exact H|apply wp_plain, L|clear H; intros _ ? _ H].

Lemma wp_mouse_write b s : wp (write b) (λ _ s', csends [(0x64, 0xD4); (0x60, b)] (2 * TRIES) s s') s.
Proof.
  pose proof (csends_refl s) as Hs. unfold write.
  after Hs wp_wait_write. after Hs wp_send. after Hs wp_wait_write.
  eapply wp_mono; [apply wp_send|]. intros [] ? H'. exact (csends_trans _ _ _ _ _ _ _ Hs H').
Qed.
Lemma wp_mouse_read s : wp read (λ _ s', csends [] (TRIES + 1) s s') s.
Proof.
  pose proof (csends_refl s) as Hs. unfold read. after Hs wp_wait_read.
  eapply wp_mono; [apply wp_poll|]. intros b ? [_ H']. exact (csends_trans _ _ _ _ _ _ _ Hs H').
Qed.

(** C29: the handshake with the mouse's controller ends, whatever the
    controller answers and however long it stays busy: after at most 11200003
    reads of a port it has sent its eight commands, in order; the command byte
    it writes back is the one it read with the mouse's interrupt enabled and
    its clock running. *)
Theorem handshake_returns s :
  wp handshake (λ _ s', ∃ status, 0 ≤ status < 256 ∧
    sent (port s') = sent (port s) ++
      [(0x64, 0xA8); (0x64, 0x20); (0x64, 0x60); (0x60, enabled status);
       (0x64, 0xD4); (0x60, 0xF6); (0x64, 0xD4); (0x60, 0xF4)] ∧
    (∀ i, 0 ≤ i < 8 → Z.testbit (enabled status) i =
      (if decide (i = 1) then true else if decide (i = 5) then false else Z.testbit status i)) ∧
    reads (port s') ≤ reads (port s) + 11200003) s.
Proof.
  pose proof (csends_refl s) as Hs. unfold handshake.
  after Hs wp_drain. after Hs wp_wait_write. after Hs wp_send. after Hs wp_wait_write. after Hs wp_send.
  after Hs wp_wait_read. eapply wp_after; [exact Hs|apply wp_poll|clear Hs; intros status ? Hst Hs]. cbv beta in Hst.
  after Hs wp_wait_write. after Hs wp_send. after Hs wp_wait_write. after Hs wp_send.
  after Hs wp_mouse_write. after Hs wp_mouse_read. after Hs wp_mouse_write. after Hs wp_mouse_read. destruct Hs as [E R].
  wp_run. exists status. split; [exact Hst|]. split; [exact E|]. split; [intros i; by apply enabled_bits|].
  unfold TRIES in R. lia.
Qed.
End handshake.

(** ** The serial port *)
Section uart.
Context {D : Type} `{Device D}.
Implicit Types s : io D.

(** Within [n] reads of the status the transmitter is empty. *)
Fixpoint ready (n : nat) (d : D) : Prop :=
  match n with
  | O => False
  | S n => Z.land (u8 (din (COM1 + 5) d).1) 0x20 ≠ 0 ∨ ready n (din (COM1 + 5) d).2
  end.
Definition to_com1 (bs : list Z) : list (Z * Z) := (λ b, (COM1, b)) <$> bs.
Definition crlf (l : list Z) : list Z := l ≫= λ b, if b =? 10 then [13; 10] else [b].

Lemma wp_wait_tx n s : ready n (dev s) → wp (loop n putc_step tt) (λ _ s', sent s' = sent s) s.
Proof.
  revert s. induction n as [|n IH]; intros s Hr; [done|]. cbn [loop ready] in *. wp_step.
  unfold putc_step at 1, tx_empty, inb. wp_run.
  destruct (Z.eqb_spec (Z.land (u8 (din (COM1 + 5) (dev s)).1) 32) 0) as [E|E]; cbn [negb]; [|by wp_run].
  destruct Hr as [Hr|Hr]; [done|]. exact (IH (mkIo _ (sent s) _) Hr).
Qed.
Lemma wp_port_putc n c s : ready n (dev s) → wp (putc n c) (λ _ s', sent s' = sent s ++ to_com1 [c]) s.
Proof.
  intros Hr. unfold putc. wp_step. wp_use wp_wait_tx; [exact Hr|]. intros [] s1 E.
  unfold outb. wp_run. cbn [sent]. by rewrite E.
Qed.
Lemma wp_write_bytes n l s :
  (∀ d, ready n d) → wp (write_bytes n l) (λ _ s', sent s' = sent s ++ to_com1 (crlf l)) s.
Proof.
  intros Hr. revert s. induction l as [|b l IH]; intros s; cbn [write_bytes]; [wp_run; by rewrite app_nil_r|].
  wp_step. assert (wp (if b =? 10 then putc n 13 else mret tt)
    (λ _ s', sent s' = sent s ++ to_com1 (if b =? 10 then [13] else [])) s) as Hcr.
  { destruct (b =? 10); [by apply wp_port_putc|]. wp_run. by rewrite app_nil_r. }
  wp_use Hcr. intros [] s1 E1. wp_step. wp_use wp_port_putc; [done|]. intros [] s2 E2.
  wp_use IH. intros [] s3 E3. rewrite E3, E2, E1. unfold crlf, to_com1. cbn [mbind list_bind]. rewrite fmap_app.
  by destruct (Z.eqb_spec b 10) as [->|]; cbn; rewrite <- ?app_assoc.
Qed.

(** The kernel's model of the output, [com1]. *)
Lemma wp_shell_bytes l (k : Kernel.kern Pmm.pmm) :
  wp (Log.write_bytes l) (λ _ k', Kernel.com1 k' = Kernel.com1 k ++ crlf l) k.
Proof.
  unfold Log.write_bytes. revert k. induction l as [|b l IH]; intros k; cbn [Lines.Lines.each]; [wp_run; by rewrite app_nil_r|].
  unfold Log.putc in *. wp_step. wp_step.
  assert (wp (if b =? 10 then modify (Kernel.uart_out 13) else mret tt)
    (λ _ k', Kernel.com1 k' = Kernel.com1 k ++ (if b =? 10 then [13] else [])) k) as Hcr
    by (destruct (b =? 10); wp_run; by rewrite ?app_nil_r).
  wp_use Hcr. intros [] k1 E1. wp_run. wp_use IH. intros [] k2 E2. rewrite E2. cbn [Kernel.com1 Kernel.uart_out]. rewrite E1.
  unfold crlf. cbn [mbind list_bind]. by destruct (Z.eqb_spec b 10) as [->|]; cbn; rewrite <- ?app_assoc.
Qed.

(** What the receiver holds when [getc] looks. *)
Definition received (d : D) : option Z :=
  let '(st, d') := din (COM1 + 5) d in
  if Z.land (u8 st) 0x01 =? 0 then None else Some (u8 (din COM1 d').1).
Lemma wp_getc s : wp getc (λ r s', r = Machine.uart_getc (received (dev s)) ∧ sent s' = sent s) s.
Proof.
  unfold getc, inb, received. wp_run. destruct (din (COM1 + 5) (dev s)) as [st d']. cbn [fst snd dev sent reads].
  destruct (Z.land (u8 st) 1 =? 0); wp_run; [done|]. cbn [fst snd dev sent]. split; [|done]. cbn.
  by destruct (din COM1 d').
Qed.

(** the serial port carries what the kernel's model says: with a
    transmitter that is empty again after at most [n] looks at its status,
    [write_bytes] returns and has sent, in order, the bytes by which the model
    extends [com1] - every line feed after a carriage return - and nothing
    else; [getc] answers what the boot code's loop makes of the receiver. *)
Theorem serial_matches_model n l s (k : Kernel.kern Pmm.pmm) :
  (∀ d, ready n d) →
  wp (write_bytes n l) (λ _ s', ∃ bs, sent s' = sent s ++ to_com1 bs ∧
    wp (Log.write_bytes l) (λ _ k', Kernel.com1 k' = Kernel.com1 k ++ bs) k ∧
    wp getc (λ r s'', r = Machine.uart_getc (received (dev s')) ∧ sent s'' = sent s') s') s.
Proof.
  intros Hr. wp_use wp_write_bytes; [exact Hr|]. intros [] s' E. exists (crlf l).
  split_and!; [exact E|apply wp_shell_bytes|apply wp_getc].
Qed.
End uart.

(** ** The interrupt controllers *)
(** The initialisation commands, with their waits. *)
Definition ICWS : list (Z * Z) :=
  [(PIC1_CMD, 0x11); (PIC2_CMD, 0x11); (PIC1_DATA, PIC_IRQ_BASE); (PIC2_DATA, PIC_IRQ_BASE + 8);
   (PIC1_DATA, 0x04); (PIC2_DATA, 0x02); (PIC1_DATA, 0x01); (PIC2_DATA, 0x01)] ≫= λ pv, [pv; (0x80, 0)].
Section pic.
Context {D : Type} `{Device D}.
Implicit Types s : io D.

(** What the code relies on of a pair of 8259s, [masks] their mask registers:
    once they have taken the four initialisation words ([up]), a data port
    reads back and writes its mask register, and an end of interrupt leaves
    the masks alone. *)
Record chips (masks : D → Desc.pic) (up : D → Prop) : Prop := {
  ch_init d : up (fold_left (λ d pv, dout pv.1 pv.2 d) ICWS d);
  ch_read irq d : up d → u8 (din (data_port irq) d).1 = Desc.get_imr irq (masks d) ∧
    masks (din (data_port irq) d).2 = masks d ∧ up (din (data_port irq) d).2;
  ch_write irq v d : up d → 0 ≤ v < 256 →
    masks (dout (data_port irq) v d) = Desc.set_imr irq v (masks d) ∧ up (dout (data_port irq) v d);
  ch_eoi port d : up d → port = PIC1_CMD ∨ port = PIC2_CMD → masks (dout port 0x20 d) = masks d ∧ up (dout port 0x20 d);
}.

Inductive line := Unmask (irq : Z) | Mask (irq : Z) | Eoi (irq : Z).
Definition run_line (l : line) : M (io D) unit :=
  match l with Unmask irq => unmask irq | Mask irq => mask irq | Eoi irq => eoi irq end.
Fixpoint run_lines (ls : list line) : M (io D) unit :=
  match ls with
  | [] => mret tt
  | l :: ls => run_line l;; run_lines ls
  end.
(** On the mask registers alone, and the commands that are sent. *)
Definition line_masks (p : Desc.pic) (l : line) : Desc.pic :=
  match l with Unmask irq => Desc.unmask irq p | Mask irq => Desc.mask irq p | Eoi _ => p end.
Definition line_eois (l : line) : list (Z * Z) := match l with Eoi irq => Desc.eoi irq | _ => [] end.
Definition commands (l : list (Z * Z)) : list (Z * Z) :=
  filter (λ pv, pv.1 = PIC1_CMD ∨ pv.1 = PIC2_CMD) l.
Lemma commands_app l l' : commands (l ++ l') = commands l ++ commands l'.
Proof. apply filter_app. Qed.

Section chips.
Variables (masks : D → Desc.pic) (up : D → Prop).
Hypothesis laws : chips masks up.

Lemma data_no_command irq v : commands [(data_port irq, v)] = [].
Proof. unfold data_port. by destruct (irq <? 8). Qed.
Lemma byte_land a b : 0 ≤ a < 256 → 0 ≤ Z.land a b < 256.
Proof.
  intros Ha. assert (a = Z.land a 255) as ->.
  { change 255 with (Z.ones 8). rewrite Z.land_ones by lia. by rewrite Z.mod_small. }
  rewrite <- Z.land_assoc, (Z.land_comm 255 b), Z.land_assoc. change 255 with (Z.ones 8).
  rewrite Z.land_ones by lia. apply Z.mod_pos_bound. lia.
Qed.
Lemma byte_lor a b : 0 ≤ a < 256 → 0 ≤ b < 256 → 0 ≤ Z.lor a b < 256.
Proof.
  intros Ha Hb. assert (Z.lor a b = Z.lor a b mod 2 ^ 8) as ->.
  { rewrite <- Z.land_ones, Z.land_lor_distr_l, !Z.land_ones by lia. by rewrite !Z.mod_small. }
  apply Z.mod_pos_bound. lia.
Qed.

Definition lines_at (p : Desc.pic) s : Prop := up (dev s) ∧ masks (dev s) = p.

(** Read a mask, write another. *)
Lemma wp_remask irq (f : Z → Z) p s :
  (∀ v, 0 ≤ v < 256 → 0 ≤ f v < 256) → lines_at p s →
  wp (cur ← inb (data_port irq); outb (data_port irq) (f cur))
    (λ _ s', lines_at (Desc.set_imr irq (f (Desc.get_imr irq p)) p) s' ∧ commands (sent s') = commands (sent s)) s.
Proof.
  intros Hf [Hu <-]. unfold inb, outb. wp_run. cbn [dev sent].
  destruct (ch_read _ _ laws irq (dev s) Hu) as (Hr & Hm & Hu').
  assert (0 ≤ u8 (din (data_port irq) (dev s)).1 < 256) as Hb by (unfold u8; by apply Z.mod_pos_bound).
  destruct (ch_write _ _ laws irq (f (u8 (din (data_port irq) (dev s)).1)) _ Hu' (Hf _ Hb)) as [Hw Hu''].
  split; [split; cbn [dev]; [exact Hu''|]|].
  - by rewrite Hw, Hm, Hr.
  - by rewrite commands_app, data_no_command, app_nil_r.
Qed.
Lemma wp_run_line l p s :
  lines_at p s → wp (run_line l) (λ _ s', lines_at (line_masks p l) s' ∧
    commands (sent s') = commands (sent s) ++ line_eois l) s.
Proof.
  intros Hs. destruct l as [irq|irq|irq]; cbn [run_line line_masks line_eois]; rewrite ?app_nil_r.
  - apply (wp_remask irq (λ v, Z.land v _)); [|exact Hs]. intros v. apply byte_land.
  - apply (wp_remask irq (λ v, Z.lor v _)); [|exact Hs]. intros v Hv. apply byte_lor; [exact Hv|].
    unfold u8. by apply Z.mod_pos_bound.
  - destruct Hs as [Hu <-]. unfold eoi, Desc.eoi.
    destruct (ch_eoi _ _ laws PIC2_CMD (dev s) Hu (or_intror eq_refl)) as [M2 U2].
    destruct (irq >=? 8); unfold outb; wp_run; (split; [split; cbn [dev sent]|cbn [sent]; by rewrite !commands_app, <- ?app_assoc]).
    + apply (ch_eoi _ _ laws); [exact U2|by left].
    + rewrite <- M2. apply (ch_eoi _ _ laws); [exact U2|by left].
    + apply (ch_eoi _ _ laws); [exact Hu|by left].
    + apply (ch_eoi _ _ laws); [exact Hu|by left].
Qed.
Lemma wp_run_lines ls p s :
  lines_at p s → wp (run_lines ls) (λ _ s', lines_at (fold_left line_masks ls p) s' ∧
    commands (sent s') = commands (sent s) ++ (ls ≫= line_eois)) s.
Proof.
  revert p s. induction ls as [|l ls IH]; intros p s Hs; cbn [run_lines]; [wp_run; by rewrite app_nil_r|].
  wp_step. wp_use wp_run_line; [exact Hs|]. intros [] s1 [H1 E1]. wp_use IH; [exact H1|]. intros [] s2 [H2 E2].
  split; [exact H2|]. by rewrite E2, E1, <- app_assoc.
Qed.
(** The device after [l] was written. *)
Definition written (l : list (Z * Z)) (d d' : D) : Prop := d' = fold_left (λ d pv, dout pv.1 pv.2 d) l d.
Lemma wp_out_after {B} (k : M (io D) B) l port v d Q s :
  written l d (dev s) → (∀ s', written (l ++ [(port, v)]) d (dev s') → wp k Q s') → wp (outb port v;; k) Q s.
Proof.
  intros Hd Hk. unfold outb. wp_run. apply Hk. unfold written in *. cbn [dev]. by rewrite Hd, fold_left_app.
Qed.
Lemma wp_pic_init s : wp pic_init (λ _ s', lines_at (Desc.mkPic 0xFF 0xFF) s') s.
Proof.
  assert (written [] (dev s) (dev s)) as Hd by done. unfold pic_init, io_wait.
  do 17 (eapply wp_out_after; [exact Hd|clear Hd; intros ? Hd]).
  unfold outb. wp_run. unfold written in Hd. rewrite fold_left_app in Hd.
  pose proof (ch_init _ _ laws (dev s)) as Hu. set (d := fold_left _ ICWS (dev s)) in Hu.
  match type of Hd with _ = fold_left _ _ ?x => change x with d in Hd end. cbn [fold_left fst snd] in Hd.
  destruct (ch_write _ _ laws 0 0xFF d Hu) as [M1 U1]; [done|].
  destruct (ch_write _ _ laws 8 0xFF _ U1) as [M2 U2]; [done|].
  split; cbn [dev]; rewrite Hd; [exact U2|]. etrans; [exact M2|]. by rewrite M1.
Qed.
End chips.

(** C30: at the ports the interrupt controllers do what the model of their mask
    registers says: after [pic::init], whatever state it found them in, and
    any sequence of [unmask], [mask] and [eoi] calls, the two mask registers
    are those of the model, and the commands that were sent are the model's
    ends of interrupt, in order. *)
Theorem pic_refines_masks masks up ls p s :
  chips masks up →
  wp pic_init (λ _ s1,
    masks (dev s1) = Desc.pic_init p ∧
    wp (run_lines ls) (λ _ s', masks (dev s') = fold_left line_masks ls (Desc.pic_init p) ∧
      commands (sent s') = commands (sent s1) ++ (ls ≫= line_eois)) s1) s.
Proof.
  intros Hc. wp_use (wp_pic_init masks up Hc). intros [] s1 H1. split; [apply H1|].
  wp_use (wp_run_lines masks up Hc); [exact H1|]. by intros [] s' [[_ ?] ?].
Qed.
End pic.

(** ** Witnesses *)
(** A transmitter that is busy for one look after every byte. *)
#[local] Instance lazy_uart : Device bool := {
  din port e := (if port =? COM1 + 5 then if e then 0x20 else 0 else 0, true);
  dout port _ e := if port =? COM1 then false else e;
}.
Lemma serial_matches_model_witness :
  (∀ d : bool, ready 2 d) ∧
  wp (write_bytes 2 [104; 105; 10]) (λ _ s', ∃ bs, sent s' = to_com1 bs ∧ bs = [104; 105; 13; 10]) (mkIo true [] 0).
Proof.
  assert (∀ d : bool, ready 2 d) as Hr by (intros []; [by left|by right; left]).
  split; [exact Hr|]. eapply wp_mono.
  - apply (serial_matches_model 2 [104; 105; 10] (mkIo true [] 0)
      (Kernel.mkKern (Sched.booted 0 (Vmm.mkVmm Pmm.pmm_zero (λ _, 0) 0 0)) Tmpfs.demo_fs Kbd.demo_kbd []) Hr).
  - intros [] s' (bs & E & Hk & _). exists bs. split; [exact E|].
    unfold wp in Hk. vm_compute in Hk. symmetry. exact Hk.
Defined.

(** A pair of 8259s: the mask registers, and how many initialisation words
    each still waits for. *)
Record chip := mkChip { imr1 : Z; imr2 : Z; icw1 : nat; icw2 : nat }.
#[local] Instance pair : Device chip := {
  din port c := (if port =? PIC1_DATA then imr1 c else if port =? PIC2_DATA then imr2 c else 0, c);
  dout port v c :=
    if port =? PIC1_CMD then if v =? 0x11 then mkChip 0 (imr2 c) 3 (icw2 c) else c
    else if port =? PIC2_CMD then if v =? 0x11 then mkChip (imr1 c) 0 (icw1 c) 3 else c
    else if port =? PIC1_DATA then
      match icw1 c with O => mkChip v (imr2 c) O (icw2 c) | S n => mkChip (imr1 c) (imr2 c) n (icw2 c) end
    else if port =? PIC2_DATA then
      match icw2 c with O => mkChip (imr1 c) v (icw1 c) O | S n => mkChip (imr1 c) (imr2 c) (icw1 c) n end
    else c;
}.
Definition chip_masks (c : chip) : Desc.pic := Desc.mkPic (imr1 c) (imr2 c).
Definition chip_up (c : chip) : Prop := (icw1 c = O ∧ icw2 c = O) ∧ 0 ≤ imr1 c < 256 ∧ 0 ≤ imr2 c < 256.
Lemma pair_chips : chips chip_masks chip_up.
Proof.
  split.
  - by intros [].
  - intros irq [a b i j] ([E1 E2] & Ha & Hb). cbn in *. unfold data_port, Desc.get_imr.
    destruct (irq <? 8); cbn; by rewrite u8_id.
  - intros irq v [a b i j] ([E1 E2] & Ha & Hb) Hv. cbn in E1, E2. subst i j. unfold data_port, Desc.set_imr.
    by destruct (irq <? 8).
  - by intros port c Hc [-> | ->].
Qed.

(** The boot sequence's calls: the lines of the timer, the keyboard, the
    cascade and the mouse are open. *)
Lemma pic_refines_masks_witness :
  wp pic_init (λ _ s1, wp (run_lines [Unmask 0; Unmask 1; Unmask 2; Unmask 12; Eoi 12])
    (λ _ s', chip_masks (dev s') = Desc.mkPic 0xF8 0xEF ∧
      commands (sent s') = commands (sent s1) ++ [(0xA0, 0x20); (0x20, 0x20)]) s1) (mkIo (mkChip 1 2 1 2) [] 0).
Proof.
  eapply wp_mono.
  - apply (pic_refines_masks chip_masks chip_up [Unmask 0; Unmask 1; Unmask 2; Unmask 12; Eoi 12] (Desc.mkPic 0 0)
      (mkIo (mkChip 1 2 1 2) [] 0) pair_chips).
  - intros [] s1 [_ Hr]. exact Hr.
Defined.
End Ports.
