(* ===== verification/Asm.v ===== *)
(** * The assembly: interrupt stubs and entry points ([asm.rs], [ulib.rs])

    The few instructions the stubs use, over registers and memory.  [frame] is
    [IrqFrame] of [idt.rs], which [isr_common] builds on the stack: the theorems
    show that the frames the Rust code sees are the interrupted processor, and
    that the processor goes on as the frame it leaves says. *)
From S2P Require Import Prelude Mem Sched Syscall.

Module Asm.

Inductive reg :=
  RAX | RBX | RCX | RDX | RSI | RDI | RBP | RSP | R8 | R9 | R10 | R11 | R12 | R13 | R14 | R15.
#[global] Instance reg_eq_dec : EqDecision reg.
Proof. solve_decision. Defined.

Record cpu := mkCpu {
  gpr : reg → Z;
  rip : Z; cs : Z; rflags : Z; ss : Z;
  mem : memory;
}.
Definition set_gpr (r : reg) (v : Z) (c : cpu) : cpu :=
  mkCpu (λ q, if decide (q = r) then v else gpr c q) (rip c) (cs c) (rflags c) (ss c) (mem c).
Definition set_mem (m : memory) (c : cpu) : cpu := mkCpu (gpr c) (rip c) (cs c) (rflags c) (ss c) m.

(** ** Instructions *)
Inductive symbol := isr_handler | sched_thread_exit | umain_shim.
Inductive instr :=
  | Push (r : reg)
  | PushI (n : Z)
  | Pop (r : reg)
  | Mov (d r : reg)
  | Load (d b : reg)            (* mov d, [b] *)
  | Lea (d b : reg) (n : Z)
  | AddI (r : reg) (n : Z)
  | AndI (r : reg) (n : Z)
  | Call (f : symbol)
  | CallR (r : reg)
  | Iretq.

Definition push (v : Z) : M cpu unit :=
  modify (λ c, let sp := u64 (gpr c RSP - 8) in set_mem (store64 (mem c) sp v) (set_gpr RSP sp c)).
Definition pop : M cpu Z :=
  sp ← gets (λ c, gpr c RSP);
  v ← gets (λ c, load64 (mem c) sp);
  modify (set_gpr RSP (u64 (sp + 8)));;
  mret v.

Section code.
(** The compiled functions, each up to and with its return; where the linker
    put them; and the return address of a call. *)
Variable code : Z → M cpu unit.
Variable address : symbol → Z.
Variable next : Z.

Definition call (a : Z) : M cpu unit := push next;; code a.
(** In 64-bit mode [iretq] always takes five words. *)
Definition iretq : M cpu unit :=
  a ← pop; s ← pop; fl ← pop; sp ← pop; st ← pop;
  modify (λ c, set_gpr RSP sp (mkCpu (gpr c) a (u16 s) fl (u16 st) (mem c))).
Definition exec (i : instr) : M cpu unit :=
  match i with
  | Push r => v ← gets (λ c, gpr c r); push v
  | PushI n => push n
  | Pop r => v ← pop; modify (set_gpr r v)
  | Mov d r => modify (λ c, set_gpr d (gpr c r) c)
  | Load d b => modify (λ c, set_gpr d (load64 (mem c) (gpr c b)) c)
  | Lea d b n => modify (λ c, set_gpr d (u64 (gpr c b + n)) c)
  | AddI r n => modify (λ c, set_gpr r (u64 (gpr c r + n)) c)
  | AndI r n => modify (λ c, set_gpr r (Z.land (gpr c r) (u64 n)) c)
  | Call f => call (address f)
  | CallR r => a ← gets (λ c, gpr c r); call a
  | Iretq => iretq
  end.
Fixpoint run (l : list instr) : M cpu unit :=
  match l with
  | [] => mret tt
  | i :: l => exec i;; run l
  end.

(** ** The stubs *)
(** [ISR_NOERR] and [ISR_ERR], and for which vectors the table has which. *)
Definition ISR_NOERR (n : Z) : list instr := [PushI 0; PushI n].
Definition ISR_ERR (n : Z) : list instr := [PushI n].
Definition isr_stub (n : Z) : list instr :=
  if bool_decide (n ∈ [8; 10; 11; 12; 13; 14; 17; 21; 29; 30]) then ISR_ERR n else ISR_NOERR n.
Definition saves : list reg := [RAX; RBX; RCX; RDX; RSI; RDI; RBP; R8; R9; R10; R11; R12; R13; R14; R15].
Definition restores : list reg := [R15; R14; R13; R12; R11; R10; R9; R8; RBP; RDI; RSI; RDX; RCX; RBX; RAX].
Definition isr_leave : list instr := map Pop restores ++ [AddI RSP 16; Iretq].
Definition isr_common : list instr := map Push saves ++ [Mov RDI RSP; Call isr_handler] ++ isr_leave.
Definition service (n : Z) : list instr := isr_stub n ++ isr_common.

(** A kernel thread's first instruction; the rest of the trampoline is the call
    of [sched_thread_exit], which does not return. *)
Definition kthread_trampoline : list instr := [CallR RBX; Call sched_thread_exit].
(** [_start] of a user program. *)
Definition start : list instr := [Load RDI RSP; Lea RSI RSP 8; AndI RSP (-16); Call umain_shim].

(** ** The processor's part *)
(** The exceptions with an error code, by the architecture. *)
Definition has_error_code (n : Z) : bool := bool_decide (n ∈ [8; 10; 11; 12; 13; 14; 17; 21; 29; 30]).
(** An interrupt is taken on the stack [top]: five words, always in 64-bit mode,
    and the error code. *)
Definition deliver (n e top : Z) : M cpu unit :=
  c ← gets (λ c, c);
  modify (set_gpr RSP top);;
  push (ss c);; push (gpr c RSP);; push (rflags c);; push (cs c);; push (rip c);;
  (if has_error_code n then push e else mret tt).

(** The frame that describes [c]. *)
Definition frame_of (c : cpu) (n e : Z) : Sched.frame :=
  Sched.mkFrame (gpr c R15) (gpr c R14) (gpr c R13) (gpr c R12) (gpr c R11) (gpr c R10) (gpr c R9) (gpr c R8)
    (gpr c RBP) (gpr c RDI) (gpr c RSI) (gpr c RDX) (gpr c RCX) (gpr c RBX) (gpr c RAX)
    n e (rip c) (cs c) (rflags c) (gpr c RSP) (ss c).
(** [#[repr(C)] struct IrqFrame]: 22 words in the order of its fields. *)
Definition frame_words (f : Sched.frame) : list Z :=
  [Sched.r15 f; Sched.r14 f; Sched.r13 f; Sched.r12 f; Sched.r11 f; Sched.r10 f; Sched.r9 f; Sched.r8 f;
   Sched.rbp f; Sched.rdi f; Sched.rsi f; Sched.rdx f; Sched.rcx f; Sched.rbx f; Sched.rax f;
   Sched.vector f; Sched.err f; Sched.rip f; Sched.cs f; Sched.rflags f; Sched.rsp f; Sched.ss f].
Fixpoint words_at (m : memory) (a : Z) (ws : list Z) : Prop :=
  match ws with
  | [] => True
  | w :: ws => load64 m a = w ∧ words_at m (a + 8) ws
  end.
Definition frame_at (m : memory) (a : Z) (f : Sched.frame) : Prop := words_at m a (frame_words f).

(** ** Registers and the stack *)
Lemma gpr_eq r v c : gpr (set_gpr r v c) r = v.
Proof. cbn. by rewrite decide_True. Qed.
Lemma gpr_ne r q v c : q ≠ r → gpr (set_gpr r v c) q = gpr c q.
Proof. intros Hq. cbn. by rewrite decide_False. Qed.

(** The words on the stack. *)
Definition stack (c : cpu) (ws : list Z) : Prop := words_at (mem c) (gpr c RSP) ws.
(** Everything but the stack is as it was. *)
Definition kept (c c' : cpu) : Prop :=
  (∀ r, r ≠ RSP → gpr c' r = gpr c r) ∧ (rip c', cs c', rflags c', ss c') = (rip c, cs c, rflags c, ss c).
Lemma same_regs_refl c : kept c c.
Proof. by split. Qed.
Lemma same_regs_trans c1 c2 c3 : kept c1 c2 → kept c2 c3 → kept c1 c3.
Proof. intros [A1 A2] [B1 B2]. split; [|congruence]. intros r Hr. by rewrite B1, A1. Qed.

Lemma words_at_store m a b v ws : b + 8 ≤ a → words_at m a ws → words_at (store64 m b v) a ws.
Proof.
  revert a. induction ws as [|w ws IH]; intros a Hb; [done|]. cbn [words_at]. intros [Hw Hs].
  split; [by rewrite load_store64_ne by lia|]. apply IH; [lia|done].
Qed.

Lemma wp_push v ws c (Q : unit → cpu → Prop) :
  stack c ws → 0 ≤ v < 2 ^ 64 → 8 ≤ gpr c RSP < 2 ^ 64 →
  (∀ c', stack c' (v :: ws) → gpr c' RSP = gpr c RSP - 8 → kept c c' → Q tt c') → wp (push v) Q c.
Proof.
  intros Hs Hv Hr HQ. unfold push. wp_run. rewrite u64_id by lia. apply HQ.
  - unfold stack. cbn [mem set_mem gpr]. rewrite gpr_eq. split; [rewrite load_store64; by apply u64_id|].
    apply words_at_store; [lia|]. by replace (gpr c RSP - 8 + 8) with (gpr c RSP) by lia.
  - cbn [set_mem gpr]. apply gpr_eq.
  - split; [|done]. intros r Hne. cbn [set_mem gpr]. by apply gpr_ne.
Qed.
Lemma wp_pushes rs ws c (Q : unit → cpu → Prop) :
  stack c ws → RSP ∉ rs → (∀ r, 0 ≤ gpr c r < 2 ^ 64) → 8 * zlen rs ≤ gpr c RSP →
  (∀ c', stack c' (rev (gpr c <$> rs) ++ ws) → gpr c' RSP = gpr c RSP - 8 * zlen rs → kept c c' → Q tt c') →
  wp (run (map Push rs)) Q c.
Proof.
  revert ws c. induction rs as [|r rs IH]; intros ws c Hs Hr Hc Hroom HQ.
  { cbn [map run]. wp_run. apply HQ; [done|change (zlen []) with 0; lia|apply same_regs_refl]. }
  apply not_elem_of_cons in Hr as [Hr Hrs]. rewrite zlen_cons in Hroom. pose proof (zlen_nonneg rs).
  cbn [map run exec]. wp_step. wp_step. wp_step. cbv beta.
  apply (wp_push _ ws); [done|apply Hc|specialize (Hc RSP); lia|]. intros c1 S1 R1 K1.
  assert (∀ q, q ≠ RSP → gpr c1 q = gpr c q) as E1 by apply K1.
  apply (IH (gpr c r :: ws)); [done|done| |lia|].
  - intros q. destruct (decide (q = RSP)) as [->|Hq]; [specialize (Hc RSP); lia|]. by rewrite E1.
  - intros c2 S2 R2 K2. apply HQ; [|rewrite zlen_cons; lia|by eapply same_regs_trans].
    cbn [fmap list_fmap rev]. rewrite <- app_assoc. cbn [app].
    assert (gpr c <$> rs = gpr c1 <$> rs) as ->; [|done].
    apply list_fmap_ext. intros k q Hq. symmetry. apply E1. intros ->. by apply list_elem_of_lookup_2 in Hq.
Qed.
Lemma wp_run_app l l' c Q : wp (run l) (λ _ c', wp (run l') Q c') c → wp (run (l ++ l')) Q c.
Proof.
  revert c. induction l as [|i l IH]; intros c Hl; cbn [app run] in *; [done|].
  wp_step. eapply wp_mono; [exact (proj1 (wp_bind _ _ _ _) Hl)|]. intros []. apply IH.
Qed.

Lemma wp_pop v ws c (Q : Z → cpu → Prop) :
  stack c (v :: ws) → 0 ≤ gpr c RSP < 2 ^ 64 - 8 → Q v (set_gpr RSP (gpr c RSP + 8) c) → wp pop Q c.
Proof. intros [Hv _] Hr HQ. unfold pop. wp_run. by rewrite Hv, u64_id by lia. Qed.
Lemma stack_popped v ws c : stack c (v :: ws) → stack (set_gpr RSP (gpr c RSP + 8) c) ws.
Proof. intros [_ Hs]. unfold stack. by rewrite gpr_eq. Qed.

(** ** Entry: the frame is the interrupted processor *)
Definition regs_ok (c : cpu) : Prop :=
  (∀ r, 0 ≤ gpr c r < 2 ^ 64) ∧ 0 ≤ rip c < 2 ^ 64 ∧ 0 ≤ cs c < 2 ^ 16 ∧ 0 ≤ rflags c < 2 ^ 64 ∧ 0 ≤ ss c < 2 ^ 16.
(** An aligned stack with room for a frame. *)
Definition stack_top (top : Z) : Prop := top mod 16 = 0 ∧ 4096 ≤ top < 2 ^ 64.
(** The error code in the frame. *)
Definition error_of (n e : Z) : Z := if has_error_code n then e else 0.

Lemma kept_words c c' : kept c c' → rip c' = rip c ∧ cs c' = cs c ∧ rflags c' = rflags c ∧ ss c' = ss c.
Proof. intros [_ [= -> -> -> ->]]. done. Qed.
(** [deliver], and the stub: seven words whatever the vector. *)
Lemma wp_enter n e top c (Q : unit → cpu → Prop) :
  regs_ok c → stack_top top → 0 ≤ n < 2 ^ 31 → 0 ≤ e < 2 ^ 64 →
  (∀ c', stack c' [n; error_of n e; rip c; cs c; rflags c; gpr c RSP; ss c] → gpr c' RSP = top - 56 → kept c c' → Q tt c') →
  wp (deliver n e top;; run (isr_stub n)) Q c.
Proof.
  intros (Hg & Hrip & Hcs & Hfl & Hss) [Ht Ht'] Hn He HQ. pose proof (Hg RSP) as Hsp. unfold deliver. wp_run.
  set (c0 := set_gpr RSP top c). assert (gpr c0 RSP = top) as R0 by apply gpr_eq.
  assert (kept c c0) as K0 by (split; [intros r Hr; by apply gpr_ne|done]).
  apply (wp_push _ []); [done|lia|lia|]. intros c1 S1 R1 K1. wp_step.
  apply (wp_push _ _ _ _ S1); [done|lia|]. intros c2 S2 R2 K2. wp_step.
  apply (wp_push _ _ _ _ S2); [done|lia|]. intros c3 S3 R3 K3. wp_step.
  apply (wp_push _ _ _ _ S3); [lia|lia|]. intros c4 S4 R4 K4. wp_step.
  apply (wp_push _ _ _ _ S4); [done|lia|]. intros c5 S5 R5 K5.
  assert (kept c c5) as K by (do 5 (eapply same_regs_trans; [|eassumption]); done).
  unfold has_error_code, error_of, has_error_code, isr_stub in *. destruct (bool_decide _).
  - apply (wp_push _ _ _ _ S5); [done|lia|]. intros c6 S6 R6 K6. unfold ISR_ERR. cbn [run exec]. wp_step.
    apply (wp_push _ _ _ _ S6); [lia|lia|]. intros c7 S7 R7 K7. wp_run. apply HQ; [exact S7|lia|].
    do 2 (eapply same_regs_trans; [|eassumption]). done.
  - wp_run. unfold ISR_NOERR. cbn [run exec]. wp_step.
    apply (wp_push _ _ _ _ S5); [done|lia|]. intros c6 S6 R6 K6. wp_step.
    apply (wp_push _ _ _ _ S6); [lia|lia|]. intros c7 S7 R7 K7. wp_run. apply HQ; [exact S7|lia|].
    do 2 (eapply same_regs_trans; [|eassumption]). done.
Qed.

(** [isr_common] up to the call. *)
Lemma wp_build_frame n e c0 c (Q : unit → cpu → Prop) top :
  regs_ok c0 → kept c0 c → stack_top top → gpr c RSP = top - 56 →
  stack c [n; e; rip c0; cs c0; rflags c0; gpr c0 RSP; ss c0] →
  (∀ c', frame_at (mem c') (gpr c' RSP) (frame_of c0 n e) → gpr c' RSP = top - 176 → Q tt c') →
  wp (run (map Push saves)) Q c.
Proof.
  intros Hr [Hg _] [Ht Ht'] Hsp Hs HQ. eapply wp_pushes; [exact Hs|by apply (bool_decide_unpack _)| |change (zlen saves) with 15; lia|].
  - intros r. destruct (decide (r = RSP)) as [->|Hne]; [lia|]. rewrite Hg by done. apply Hr.
  - intros c' S' R' _. apply HQ; [|change (zlen saves) with 15 in R'; lia].
    unfold frame_at, stack in *. cbn [saves fmap list_fmap rev app] in S'. by rewrite !Hg in S' by done.
Qed.

(** ** Exit: the processor goes on as the frame says *)
Definition resumes (f : Sched.frame) (c : cpu) : Prop :=
  frame_of c (Sched.vector f) (Sched.err f) =
  Sched.mkFrame (Sched.r15 f) (Sched.r14 f) (Sched.r13 f) (Sched.r12 f) (Sched.r11 f) (Sched.r10 f) (Sched.r9 f) (Sched.r8 f)
    (Sched.rbp f) (Sched.rdi f) (Sched.rsi f) (Sched.rdx f) (Sched.rcx f) (Sched.rbx f) (Sched.rax f)
    (Sched.vector f) (Sched.err f) (Sched.rip f) (u16 (Sched.cs f)) (Sched.rflags f) (Sched.rsp f) (u16 (Sched.ss f)).

(** The words go back into their registers. *)
Lemma wp_restores rs vs ws c (Q : unit → cpu → Prop) :
  length rs = length vs → NoDup rs → RSP ∉ rs → stack c (vs ++ ws) → 0 ≤ gpr c RSP → gpr c RSP + 8 * zlen rs < 2 ^ 64 →
  (∀ c', stack c' ws → gpr c' RSP = gpr c RSP + 8 * zlen rs → gpr c' <$> rs = vs →
     (∀ q, q ∉ rs → q ≠ RSP → gpr c' q = gpr c q) → mem c' = mem c → Q tt c') →
  wp (run (map Pop rs)) Q c.
Proof.
  revert vs c. induction rs as [|r rs IH]; intros [|v vs] c Hl Hn Hr Hs H0 Hsp HQ; try done; cbn [map run].
  { wp_run. apply HQ; [done|change (zlen []) with 0; lia|done|done|done]. }
  apply NoDup_cons in Hn as [Hnr Hn]. apply not_elem_of_cons in Hr as [Hr Hrs].
  rewrite zlen_cons in Hsp. pose proof (zlen_nonneg rs).
  cbn [exec]. wp_step. wp_step. apply (wp_pop v (vs ++ ws)); [done|lia|]. wp_run.
  set (c1 := set_gpr RSP (gpr c RSP + 8) c). set (c2 := set_gpr r v c1).
  assert (gpr c2 RSP = gpr c RSP + 8) as R2 by (unfold c2; rewrite gpr_ne by done; apply gpr_eq).
  apply (IH vs); [by injection Hl|done|done| |lia|lia|].
  { unfold stack. rewrite R2. exact (proj2 Hs). }
  intros c3 S3 R3 V3 O3 M3. apply HQ; [done|rewrite zlen_cons; lia| | |by rewrite M3].
  - cbn [fmap list_fmap]. rewrite V3, O3 by done. unfold c2. by rewrite gpr_eq.
  - intros q Hq Hq'. apply not_elem_of_cons in Hq as [Hq Hqs]. rewrite O3 by done. unfold c2, c1. by rewrite !gpr_ne.
Qed.
(** [iretq] takes what the frame holds. *)
Lemma wp_iretq a s fl sp st ws c (Q : unit → cpu → Prop) :
  stack c (a :: s :: fl :: sp :: st :: ws) → 0 ≤ gpr c RSP < 2 ^ 64 - 40 →
  (∀ c', (∀ r, r ≠ RSP → gpr c' r = gpr c r) → gpr c' RSP = sp → mem c' = mem c →
     rip c' = a → cs c' = u16 s → rflags c' = fl → ss c' = u16 st → Q tt c') →
  wp iretq Q c.
Proof.
  intros S Hsp HQ. unfold iretq.
  assert (∀ d, gpr (set_gpr RSP d c) RSP = d) as E by (intros d; apply gpr_eq).
  wp_step. apply (wp_pop _ _ _ _ S); [lia|]. apply stack_popped in S. set (c1 := set_gpr RSP _ c) in *. pose proof (gpr_eq RSP (gpr c RSP + 8) c : gpr c1 RSP = _) as R1.
  wp_step. apply (wp_pop _ _ _ _ S); [lia|]. apply stack_popped in S. set (c2 := set_gpr RSP _ c1) in *. pose proof (gpr_eq RSP (gpr c1 RSP + 8) c1 : gpr c2 RSP = _) as R2.
  wp_step. apply (wp_pop _ _ _ _ S); [lia|]. apply stack_popped in S. set (c3 := set_gpr RSP _ c2) in *. pose proof (gpr_eq RSP (gpr c2 RSP + 8) c2 : gpr c3 RSP = _) as R3.
  wp_step. apply (wp_pop _ _ _ _ S); [lia|]. apply stack_popped in S. set (c4 := set_gpr RSP _ c3) in *. pose proof (gpr_eq RSP (gpr c3 RSP + 8) c3 : gpr c4 RSP = _) as R4.
  wp_step. apply (wp_pop _ _ _ _ S); [lia|]. apply stack_popped in S. set (c5 := set_gpr RSP _ c4) in *.
  assert (∀ r, r ≠ RSP → gpr c5 r = gpr c r) as O by (intros r Hr; unfold c5, c4, c3, c2, c1; by rewrite !gpr_ne).
  wp_run. apply HQ; try done. intros r Hr. rewrite gpr_ne by done. by apply O.
Qed.
Lemma wp_leave c f (Q : unit → cpu → Prop) :
  frame_at (mem c) (gpr c RSP) f → 0 ≤ gpr c RSP < 2 ^ 64 - 176 →
  (∀ c', resumes f c' → mem c' = mem c → Q tt c') → wp (run isr_leave) Q c.
Proof.
  intros Hs Hsp HQ. unfold isr_leave. apply wp_run_app.
  apply (wp_restores restores (take 15 (frame_words f)) (drop 15 (frame_words f)));
    [done|by apply (bool_decide_unpack _)|by apply (bool_decide_unpack _)|exact Hs|lia|change (zlen restores) with 15; lia|].
  intros c1 S1 R1 V1 _ M1. change (zlen restores) with 15 in R1. cbn [frame_words drop] in S1.
  destruct S1 as (_ & _ & S1). cbn [run exec]. wp_step. wp_run. rewrite R1, u64_id by lia.
  set (c2 := set_gpr RSP _ c1). assert (gpr c2 RSP = gpr c RSP + 136) as R2 by (unfold c2; rewrite gpr_eq; lia).
  assert (stack c2 (drop 17 (frame_words f))) as S2.
  { unfold stack. rewrite R2. by replace (gpr c RSP + 136) with (gpr c1 RSP + 8 + 8) by lia. }
  apply (wp_iretq _ _ _ _ _ [] _ _ S2); [lia|]. intros c3 O R M E1 E2 E3 E4.
  wp_run. apply HQ; [|by rewrite M]. unfold resumes, frame_of. rewrite E1, E2, E3, E4, R, !O by done. unfold c2. rewrite !gpr_ne by done.
  cbn [restores frame_words take fmap list_fmap] in V1. injection V1 as -> -> -> -> -> -> -> -> -> -> -> -> -> -> ->.
  done.
Qed.

(** ** The handler between them *)
(** [isr_handler] as compiled: it is called on an aligned stack with the frame
    at [rdi], just above its return address; it returns, and has left in the
    frame's place one that [handled] relates to it. *)
Definition handler_law (handled : Sched.frame → Sched.frame → Prop) : Prop := ∀ c f,
  frame_at (mem c) (gpr c RDI) f → gpr c RDI = gpr c RSP + 8 → gpr c RSP mod 16 = 8 → 0 ≤ gpr c RSP →
  gpr c RDI < 2 ^ 64 - 176 →
  wp (code (address isr_handler)) (λ _ c', ∃ f', handled f f' ∧ frame_at (mem c') (gpr c RDI) f' ∧ gpr c' RSP = gpr c RDI) c.

Lemma wp_call_handler handled top f c :
  handler_law handled → stack_top top → 0 ≤ next < 2 ^ 64 → frame_at (mem c) (gpr c RSP) f → gpr c RSP = top - 176 →
  wp (run [Mov RDI RSP; Call isr_handler])
     (λ _ c', ∃ f', handled f f' ∧ frame_at (mem c') (gpr c' RSP) f' ∧ gpr c' RSP = top - 176) c.
Proof.
  intros Hlaw [Ht Ht'] Hnext Hf Hsp. cbn [run exec]. wp_step. wp_step. set (c1 := set_gpr RDI _ c).
  assert (gpr c1 RSP = gpr c RSP) as R1 by (unfold c1; by rewrite gpr_ne).
  assert (gpr c1 RDI = gpr c RSP) as D1 by apply gpr_eq.
  unfold call. wp_step. wp_step. apply (wp_push _ (frame_words f)); [unfold stack; by rewrite R1|done|lia|].
  intros c2 S2 R2 [K2 _]. assert (gpr c2 RDI = top - 176) as D2 by (rewrite K2 by done; lia). destruct S2 as [_ S2].
  replace (gpr c2 RSP + 8) with (gpr c2 RDI) in S2 by lia.
  eapply wp_mono; [apply (Hlaw c2 f S2); [lia|replace (gpr c2 RSP) with (top - 184) by lia; clear -Ht; dlia|lia|lia]|].
  intros [] c3 (f' & Hh & Hf' & R3). wp_run. exists f'. rewrite R3, D2. by rewrite D2 in Hf'.
Qed.

(** C16: An interrupt, from the processor's delivery to [iretq].  Whatever the
    vector, the stub builds on the aligned kernel stack the frame that describes
    the interrupted processor, every general register, the return point, the
    flags and the stack, with the error code the vector has or 0; the handler is
    called with it; and the processor goes on exactly as the frame the handler
    leaves there says, so an unchanged frame makes the interrupt transparent. *)
Theorem interrupt_resumes_frame handled n e top c :
  handler_law handled → 0 ≤ next < 2 ^ 64 → regs_ok c → stack_top top → 0 ≤ n < 2 ^ 31 → 0 ≤ e < 2 ^ 64 →
  wp (deliver n e top;; run (service n))
     (λ _ c', ∃ f', handled (frame_of c n (error_of n e)) f' ∧ resumes f' c') c.
Proof.
  intros Hlaw Hnext Hok Htop Hn He. wp_step.
  eapply wp_mono; [refine (proj1 (wp_bind _ _ _ _) (wp_enter n e top c (λ _ c1, wp (run isr_common) _ c1) Hok Htop Hn He _))|].
  2:{ intros [] c1 H1. unfold service. apply wp_run_app, H1. }
  intros c1 S1 R1 K1. unfold isr_common. apply wp_run_app. apply (wp_build_frame _ _ _ _ _ _ Hok K1 Htop R1 S1).
  intros c2 F2 R2. apply wp_run_app. wp_use wp_call_handler; [done|done|done|done|done|].
  intros [] c3 (f' & Hh & F3 & R3). destruct Htop as [_ Htop].
  apply (wp_leave _ f'); [done|lia|]. intros c4 H4 _. by exists f'.
Qed.

(** The first instructions of a kernel thread and of a user program: what runs
    first finds its arguments in [rdi] and [rsi] and the stack as a called
    function has it. *)
Lemma kthread_enters tramp f arg sp fr c (Q : unit → cpu → Prop) :
  resumes (Sched.kthread_frame tramp f arg sp fr) c → sp mod 16 = 0 → 4096 ≤ sp < 2 ^ 64 →
  (∀ c', gpr c' RDI = arg → gpr c' RSP = sp - 8 →
     wp (code f) (λ _ c'', gpr c'' RSP = sp ∧ wp (code (address sched_thread_exit)) Q
       (set_mem (store64 (mem c'') (sp - 8) next) (set_gpr RSP (sp - 8) c''))) c') →
  rip c = tramp ∧ wp (run kthread_trampoline) Q c.
Proof.
  intros H0 Hs Hs' HQ. unfold resumes, frame_of, Sched.kthread_frame in H0. cbn in H0.
  injection H0 as _ _ _ _ _ _ _ _ _ Hdi _ _ _ Hbx _ Hip _ _ Hsp _.
  split; [done|]. cbn [kthread_trampoline run exec]. wp_run. rewrite Hbx. unfold call, push. wp_run.
  eapply wp_mono; [apply HQ|].
  - cbn [set_mem gpr]. by rewrite gpr_ne.
  - cbn [set_mem gpr]. rewrite gpr_eq, Hsp. apply u64_id. lia.
  - intros [] c2 [R2 H2]. wp_run. rewrite R2, u64_id by lia.
    eapply wp_mono; [exact H2|]. intros [] c3 H3. by wp_run.
Qed.
Lemma start_enters argc ws c :
  stack c (argc :: ws) → 4096 ≤ gpr c RSP < 2 ^ 64 - 8 → 0 ≤ next < 2 ^ 64 →
  (∀ c', gpr c' RDI = argc → gpr c' RSI = gpr c RSP + 8 → gpr c' RSP mod 16 = 8 → gpr c' RSP < gpr c RSP →
     words_at (mem c') (gpr c RSP) (argc :: ws) → wp (code (address umain_shim)) (λ _ _, True) c') →
  wp (run start) (λ _ _, True) c.
Proof.
  intros Hs Hsp Hnext HQ. cbn [start run exec]. wp_run. set (c1 := set_gpr RSP _ _).
  assert (gpr c1 RSP = gpr c RSP - gpr c RSP mod 16) as R1.
  { unfold c1. rewrite gpr_eq, !gpr_ne by done. apply (land_not_ones _ 4); lia. }
  assert (gpr c1 RDI = argc) as D1 by (unfold c1; rewrite !gpr_ne, gpr_eq by done; exact (proj1 Hs)).
  assert (gpr c1 RSI = gpr c RSP + 8) as I1 by (unfold c1; rewrite gpr_ne, gpr_eq, gpr_ne by done; apply u64_id; lia).
  pose proof (Z.mod_pos_bound (gpr c RSP) 16 ltac:(lia)).
  unfold call, push. wp_run. rewrite R1, u64_id by lia.
  eapply wp_mono; [apply HQ; cbn [set_mem mem]|by intros []].
  - cbn [set_mem gpr]. by rewrite gpr_ne.
  - cbn [set_mem gpr]. by rewrite gpr_ne.
  - cbn [set_mem gpr]. rewrite gpr_eq. clear. dlia.
  - cbn [set_mem gpr]. rewrite gpr_eq. lia.
  - apply words_at_store; [lia|exact Hs].
Qed.
End code.

(** A system call that answers 7. *)
Definition demo_code (_ : Z) : M cpu unit :=
  modify (λ c, set_mem (store64 (mem c) (gpr c RDI + 112) 7) c);;
  modify (λ c, set_gpr RSP (gpr c RSP + 8) c).
Definition demo_address (_ : symbol) : Z := 0x1000.
Definition demo_cpu : cpu :=
  mkCpu (λ r, if decide (r = RSP) then 0x7FFFFF00 else if decide (r = RAX) then 2 else 5) 0x400010 0x23 0x202 0x1B (λ _, 0).

Lemma demo_handler : handler_law demo_code demo_address (λ f f', f' = Syscall.with_rax 7 f).
Proof.
  intros c f Hf Hd _ H0 Hb. unfold demo_code. wp_run. exists (Syscall.with_rax 7 f).
  split; [done|]. cbn [set_mem mem gpr]. split; [|rewrite gpr_eq; lia].
  unfold frame_at in *. destruct f. unfold Syscall.with_rax. set (a := gpr c RDI) in *. cbn -[load64 store64] in Hf |- *.
  decompose [and] Hf. split_and!; try done; try by rewrite load_store64_ne by lia.
  match goal with |- load64 (store64 _ ?b _) ?x = _ => replace x with b by lia end. apply load_store64.
Qed.
Lemma interrupt_resumes_frame_witness :
  wp (deliver 128 0 0x90000;; run demo_code demo_address 0x2000 (service 128))
     (λ _ c', resumes (Syscall.with_rax 7 (frame_of demo_cpu 128 0)) c') demo_cpu.
Proof.
  eapply wp_mono; [apply (interrupt_resumes_frame demo_code demo_address 0x2000 (λ f f', f' = Syscall.with_rax 7 f))|].
  - exact demo_handler.
  - lia.
  - split_and!; cbn; try lia. intros r. repeat case_decide; lia.
  - split; [done|lia].
  - lia.
  - lia.
  - intros [] c' (f' & -> & H'). exact H'.
Defined.
End Asm.
