(* ===== verification/Ulib.v ===== *)
(** * The user library ([userspace-rs/src/ulib.rs])

    The wrappers around [int 0x80], formatted output, [atoi], [malloc] and the
    program arguments.  A user program is a computation over a state [U] of
    which it knows one operation, [trap]: the number in [rax] and up to three
    arguments, which are integers or pointers to the program's own buffers.  A
    buffer is passed as its bytes, and one the kernel writes comes back with
    its new bytes.  [UserSys] is the kernel's side of [trap]. *)
From S2P Require Import Prelude Lines Mem.

Module Ulib.
Import Lines.

(** ** System call numbers and flags *)
Definition SYS_WRITE : Z := 0.
Definition SYS_EXIT : Z := 1.
Definition SYS_READ : Z := 2.
Definition SYS_OPEN : Z := 3.
Definition SYS_CLOSE : Z := 4.
Definition SYS_STAT : Z := 5.
Definition SYS_MKDIR : Z := 6.
Definition SYS_UNLINK : Z := 7.
Definition SYS_RENAME : Z := 8.
Definition SYS_GETDENTS : Z := 9.
Definition SYS_GETCWD : Z := 10.
Definition SYS_CHDIR : Z := 11.
Definition SYS_SPAWN : Z := 12.
Definition SYS_WAITPID : Z := 13.
Definition SYS_GETPID : Z := 14.
Definition SYS_SBRK : Z := 15.
Definition SYS_SLEEP_MS : Z := 16.
Definition SYS_UPTIME_MS : Z := 17.
Definition SYS_UNAME : Z := 18.
Definition SYS_SYSINFO : Z := 19.
Definition SYS_YIELD : Z := 20.
Definition SYS_NEXTPROC : Z := 21.

Definition O_RDONLY : Z := 0.
Definition O_WRONLY : Z := 1.
Definition O_RDWR : Z := 3.
Definition O_CREAT : Z := 2.

(** ** The structures both sides know, by their bytes *)
Record Ustat := mkUstat { st_size : Z; st_typ : Z }.
Record Udirent := mkUdirent { d_name : list Z; d_typ : Z }.
Record Utsname := mkUtsname { sysname : list Z; release : list Z; machine : list Z }.
Record Usysinfo := mkUsysinfo { mem_total : Z; mem_free : Z; nproc : Z; si_uptime_ms : Z }.
Record Uproc := mkUproc { p_tid : Z; p_name : list Z; p_state : Z }.

Definition field (n o : Z) (bs : list Z) : Z := load_le (Z.to_nat n) (store_bytes (λ _, 0) 0 bs) o.
Definition ustat_of (bs : list Z) : Ustat := mkUstat (field 8 0 bs) (field 4 8 bs).
Definition udirent_of (bs : list Z) : Udirent := mkUdirent (slice 0 56 bs) (field 4 56 bs).
Definition utsname_of (bs : list Z) : Utsname := mkUtsname (slice 0 32 bs) (slice 32 32 bs) (slice 64 32 bs).
Definition usysinfo_of (bs : list Z) : Usysinfo :=
  mkUsysinfo (field 8 0 bs) (field 8 8 bs) (field 4 16 bs) (field 8 24 bs).
Definition uproc_of (bs : list Z) : Uproc := mkUproc (i32 (field 4 0 bs)) (slice 4 24 bs) (field 4 28 bs).
(** [Default::default()] *)
Definition blank (n : Z) : list Z := replicate (Z.to_nat n) 0.

(** ** The trap *)
Inductive arg :=
  | Int (v : Z)                              (* a register *)
  | In (bs : list Z)                         (* a buffer the kernel reads *)
  | Out (bs : list Z)                        (* a buffer the kernel may write *)
  | Ptrs (ss : list (option (list Z))).      (* an array of pointers to strings *)

(** The answer is [rax] as an [i64] and the [Out] buffers afterwards. *)
Class Os (U : Type) := trap : Z → list arg → M U (Z * list (list Z)).

Section ulib.
Context {U : Type} `{Os U}.

Definition call (n : Z) (args : list arg) : M U Z := r ← trap n args; mret r.1.
(** A call with one [Out] buffer. *)
Definition call_out (n : Z) (args : list arg) : M U (Z * list Z) :=
  r ← trap n args; out ← of_option (r.2.[0]); mret (r.1, out).
Definition map_fst {A B C} (f : A → C) (p : A * B) : C * B := (f p.1, p.2).

(** ** Wrappers *)
Definition cstr (N : Z) (s : list Z) : list Z :=
  let n := Z.min (zlen s) (N - 1) in slice 0 n s ++ replicate (Z.to_nat (N - n)) 0.

Definition open (path : list Z) (flags : Z) : M U Z := r ← call SYS_OPEN [In path; Int flags]; mret (i32 r).
Definition read (fd : Z) (buf : list Z) : M U (Z * list Z) :=
  call_out SYS_READ [Int fd; Out buf; Int (zlen buf)].
Definition write (fd : Z) (buf : list Z) : M U Z := call SYS_WRITE [Int fd; In buf; Int (zlen buf)].
Definition close (fd : Z) : M U Z := r ← call SYS_CLOSE [Int fd]; mret (i32 r).
Definition stat (path st : list Z) : M U (Z * list Z) :=
  r ← call_out SYS_STAT [In path; Out st]; mret (map_fst i32 r).
Definition mkdir (path : list Z) : M U Z := r ← call SYS_MKDIR [In path]; mret (i32 r).
Definition unlink (path : list Z) : M U Z := r ← call SYS_UNLINK [In path]; mret (i32 r).
Definition rename (old new : list Z) : M U Z := r ← call SYS_RENAME [In old; In new]; mret (i32 r).
Definition getdents (path : list Z) (idx : Z) (d : list Z) : M U (Z * list Z) :=
  r ← call_out SYS_GETDENTS [In path; Int idx; Out d]; mret (map_fst i32 r).
Definition getcwd (buf : list Z) : M U (Z * list Z) := call_out SYS_GETCWD [Out buf; Int (zlen buf)].
Definition chdir (path : list Z) : M U Z := r ← call SYS_CHDIR [In path]; mret (i32 r).
Definition spawn (path : list Z) (argv : list (option (list Z))) : M U Z :=
  r ← call SYS_SPAWN [In path; Ptrs argv]; mret (i32 r).
Definition waitpid (tid : Z) (status : list Z) : M U (Z * list Z) :=
  r ← call_out SYS_WAITPID [Int tid; Out status]; mret (map_fst i32 r).
Definition getpid : M U Z := r ← call SYS_GETPID []; mret (i32 r).
Definition sbrk (incr : Z) : M U Z := r ← call SYS_SBRK [Int incr]; mret (u64 r).
Definition sleep_ms (ms : Z) : M U unit := _ ← call SYS_SLEEP_MS [Int (i64 ms)]; mret tt.
Definition uptime_ms : M U Z := r ← call SYS_UPTIME_MS []; mret (u64 r).
Definition uname (u : list Z) : M U (Z * list Z) := r ← call_out SYS_UNAME [Out u]; mret (map_fst i32 r).
Definition sysinfo (si : list Z) : M U (Z * list Z) := r ← call_out SYS_SYSINFO [Out si]; mret (map_fst i32 r).
Definition u_yield : M U unit := _ ← call SYS_YIELD []; mret tt.
Definition nextproc (idx : Z) (p : list Z) : M U (Z * list Z) :=
  r ← call_out SYS_NEXTPROC [Int idx; Out p]; mret (map_fst i32 r).
(** [exit] does not come back: a program is its [main], and [umain_shim] hands
    the answer over. *)
Definition exit (code : Z) : M U unit := _ ← call SYS_EXIT [Int code]; hang.
Definition umain_shim (umain : M U Z) : M U unit := code ← umain; exit code.

(** ** Output.  The formatting macros write the text in pieces; it is one
    [write] here. *)
Definition puts (s : list Z) : M U Z := _ ← write 1 s; _ ← write 1 [10]; mret 0.
Definition putchar (c : Z) : M U Z := _ ← write 1 [c]; mret 0.
Definition print (s : list Z) : M U unit := _ ← write 1 s; mret tt.
Definition println (s : list Z) : M U unit := _ ← write 1 s; _ ← write 1 [10]; mret tt.
Definition eprintln (s : list Z) : M U unit := _ ← write 2 s; _ ← write 2 [10]; mret tt.

(** ** Numbers and memory *)
(** The loop over the digits. *)
Fixpoint atoi_digits (s : list Z) (v : Z) : Z :=
  match s with
  | [] => v
  | c :: s => if is_digit c then atoi_digits s (i64 (i64 (v * 10) + (c - 48))) else v
  end.
Fixpoint skip_spaces (s : list Z) : list Z :=
  match s with
  | 32 :: s => skip_spaces s
  | _ => s
  end.
Definition atoi (s : list Z) : Z :=
  let s := skip_spaces s in
  let '(neg, s) := match s with 45 :: s => (true, s) | _ => (false, s) end in
  let v := atoi_digits s 0 in
  i32 (if neg : bool then i64 (- v) else v).

Definition malloc (size : Z) : M U Z :=
  let size := Z.land (u64 (Z.max size 1 + 15)) (u64_not 15) in
  p ← sbrk (i64 size);
  if i64 p <? 0 then mret 0 else mret p.

(** ** Arguments: the strings the kernel put on the stack *)
Definition argc (argv : list (list Z)) : Z := zlen argv.
Definition arg_str (argv : list (list Z)) (i : Z) : list Z :=
  match argv.[i] with
  | None => []
  | Some s => if utf8_valid s then s else []
  end.
(** [cstr_of] of several programs. *)
Definition cstr_of (b : list Z) : list Z := if utf8_valid (c_str b) then c_str b else str "?".
End ulib.
End Ulib.
