(* ===== verification/UlibSpec.v ===== *)
(** * Numbers in the user library

    [atoi] against the numbers that [println!] writes. *)
From S2P Require Import Prelude Lines Ulib.

Module UlibSpec.
Import Lines Ulib.

Lemma i64_congr a b : a mod 2 ^ 64 = b mod 2 ^ 64 → i64 a = i64 b.
Proof. intros E. unfold i64. by rewrite <- Zplus_mod_idemp_l, E, Zplus_mod_idemp_l. Qed.
Lemma i64_mod a : i64 a mod 2 ^ 64 = a mod 2 ^ 64.
Proof. unfold i64. rewrite Zminus_mod_idemp_l. f_equal. lia. Qed.
Lemma i32_congr a b : a mod 2 ^ 32 = b mod 2 ^ 32 → i32 a = i32 b.
Proof. intros E. unfold i32. by rewrite <- Zplus_mod_idemp_l, E, Zplus_mod_idemp_l. Qed.
Lemma i32_of_i64 a : i32 (i64 a) = i32 a.
Proof.
  apply i32_congr. pose proof (i64_mod a) as E. apply (f_equal (λ x, x mod 2 ^ 32)) in E.
  rewrite !Z.mod_mod_divide in E by (by exists (2 ^ 32)). done.
Qed.

(** [atoi] stops at [rest]. *)
Definition no_digit (rest : list Z) : Prop := ∀ c, head rest = Some c → is_digit c = false.
(** The loop over the digits computes in 64 bits what [value] is. *)
Lemma atoi_digits_value ds rest v :
  Forall (λ c, is_digit c = true) ds → no_digit rest →
  atoi_digits (ds ++ rest) (i64 v) = i64 (value v ds).
Proof.
  intros Hds Hrest. revert v. induction Hds as [|c ds Hc Hds IH]; intros v; simpl.
  - destruct rest as [|c rest]; [done|]. simpl. by rewrite Hrest.
  - rewrite Hc. rewrite <- (IH (v * 10 + (c - 48))). f_equal. apply i64_congr.
    rewrite <- Zplus_mod_idemp_l, i64_mod, <- Zmult_mod_idemp_l, i64_mod, Zmult_mod_idemp_l, Zplus_mod_idemp_l. done.
Qed.

Lemma skip_spaces_all k s : (∀ c, head s = Some c → c ≠ 32) → skip_spaces (replicate k 32 ++ s) = skip_spaces s.
Proof. intros _. induction k as [|k IH]; [done|]. exact IH. Qed.
Lemma skip_spaces_none s : (∀ c, head s = Some c → c ≠ 32) → skip_spaces s = s.
Proof.
  intros Hs. destruct s as [|c s]; [done|]. specialize (Hs c eq_refl). simpl.
  destruct c as [|p|]; try done. repeat (destruct p as [p|p|]; try done).
Qed.

Lemma digit_not c : is_digit c = true → c ≠ 32 ∧ c ≠ 45.
Proof. intros [H1%Z.leb_le H2%Z.leb_le]%andb_true_iff. lia. Qed.

(** A number after spaces and before something that is not a digit. *)
Lemma atoi_number k (neg : bool) ds rest :
  Forall (λ c, is_digit c = true) ds → ds ≠ [] → no_digit rest →
  atoi (replicate k 32 ++ (if neg then [45] else []) ++ ds ++ rest) =
  i32 (if neg then - value 0 ds else value 0 ds).
Proof.
  intros Hds Hne Hrest. destruct ds as [|d ds]; [done|].
  destruct (digit_not d (Forall_inv Hds)) as [Hd32 Hd45]. unfold atoi.
  assert (∀ c, head ((if neg then [45] else []) ++ (d :: ds) ++ rest) = Some c → c ≠ 32) as Hhead.
  { intros c. destruct neg; simpl; by intros [= <-]. }
  rewrite skip_spaces_all, skip_spaces_none by done. cbv zeta.
  pose proof (atoi_digits_value (d :: ds) rest 0 Hds Hrest) as Hv. change (i64 0) with 0 in Hv.
  destruct neg; cbn [app] in *.
  - rewrite Hv, i32_of_i64. apply i32_congr.
    assert ((- i64 (value 0 (d :: ds))) mod 2 ^ 64 = (- value 0 (d :: ds)) mod 2 ^ 64) as E.
    { rewrite <- (Z.sub_0_l (i64 _)), <- Zminus_mod_idemp_r, i64_mod, Zminus_mod_idemp_r. done. }
    apply (f_equal (λ x, x mod 2 ^ 32)) in E. rewrite !Z.mod_mod_divide in E by (by exists (2 ^ 32)). done.
  - assert (match d :: ds ++ rest with 45 :: s => (true, s) | _ => (false, d :: ds ++ rest) end = (false, d :: ds ++ rest)) as ->.
    { destruct d as [|p|]; try done. repeat (destruct p as [p|p|]; try done). }
    by rewrite Hv, i32_of_i64.
Qed.

Lemma dec_u_some n : dec_u n ≠ [].
Proof. unfold dec_u. cbn [digits]. by intros [_ E]%app_eq_nil. Qed.

(** C23: [atoi] reads back every 32-bit number the formatting macros write, after
    any spaces and up to the first character that is no digit. *)
Theorem atoi_reads_back k n rest :
  - 2 ^ 31 ≤ n < 2 ^ 31 → no_digit rest →
  atoi (replicate k 32 ++ dec_i n ++ rest) = n.
Proof.
  intros Hn Hrest. unfold dec_i. destruct (Z.ltb_spec n 0) as [Hneg|Hpos].
  - destruct (dec_u_value (- n)) as [Hv Hd]; [lia|]. rewrite <- app_comm_cons.
    pose proof (atoi_number k true (dec_u (- n)) rest Hd) as E. simpl in E. rewrite E; [|apply dec_u_some|done].
    rewrite Hv, Z.opp_involutive. by apply i32_id.
  - destruct (dec_u_value n) as [Hv Hd]; [lia|].
    pose proof (atoi_number k false (dec_u n) rest Hd) as E. simpl in E. rewrite E; [|apply dec_u_some|done].
    rewrite Hv. by apply i32_id.
Qed.
Lemma atoi_reads_back_witness :
  atoi (str "  -2147483648 s") = - 2147483648.
Proof. exact (atoi_reads_back 2 (- 2147483648) (str " s") ltac:(lia) ltac:(by intros c [= <-])). Defined.
End UlibSpec.
