(* ===== verification/Sh.v ===== *)
(** * The user's shell ([userspace-rs/src/bin/sh.rs])

    [readline] edits a line of standard input, [tokenize] splits it in place,
    [run_command] runs a built-in or the program of that name.  [sh_turn] is
    one turn of the loop of [main]; the built-in [exit] ends the loop with the
    code the process exits with. *)
From S2P Require Import Prelude Lines Ulib.

Module Sh.
Import Lines Ulib.

Definition LINE_MAX : Z := 200.
Definition ARG_MAX : Z := 12.

Definition blank (c : Z) : bool := (c =? 32) || (c =? 9).
Definition delete_key (c : Z) : bool := (c =? 8) || (c =? 127).

(** [trim_end_matches] of a NUL. *)
Fixpoint trim_nuls (s : list Z) : list Z :=
  match s with
  | [] => []
  | c :: s => match trim_nuls s with
              | [] => if c =? 0 then [] else [c]
              | s => c :: s
              end
  end.
Definition utf8_or (alt s : list Z) : list Z := if utf8_valid s then s else alt.

Section sh.
Context {U : Type} `{Os U}.

Definition prompt : M U unit :=
  r ← getcwd (replicate 96 0);
  if r.1 <? 0 then print (str "? # ")
  else print (trim_nuls (utf8_or (str "?") r.2) ++ str " # ").

(** One turn of the loop of [readline]: [inr None] is Ctrl-D, [inr] of the
    buffer and its length is the end of the line. *)
Definition readline_step (st : list Z * Z) : M U ((list Z * Z) + option (list Z * Z)) :=
  let '(buf, n) := st in
  r ← read 0 [0];
  if negb (r.1 =? 1) then mret (inl (buf, n))
  else
    c ← of_option (r.2.[0]);
    if c =? 10 then
      _ ← write 1 [10];
      buf ← array_set buf n 0;
      mret (inr (Some (buf, n)))
    else if delete_key c then
      if n >? 0 then _ ← write 1 rubout; mret (inl (buf, n - 1)) else mret (inl (buf, n))
    else if (c =? 4) && (n =? 0) then mret (inr None)
    else if n + 1 <? zlen buf then
      buf ← array_set buf n c;
      _ ← write 1 [c];
      mret (inl (buf, n + 1))
    else mret (inl (buf, n)).
Definition readline (fuel : nat) (buf : list Z) : M U (option (list Z * Z)) :=
  loop fuel readline_step (buf, 0).

Definition word_char (c : Z) : bool := negb (c =? 0) && negb (c =? 32) && negb (c =? 9).

(** [while n + 1 < ARG_MAX]: [k] turns are left; the answer is the line with
    the words ended by NULs, and where they lie. *)
Fixpoint tokenize_from (k : nat) (line : list Z) (i : Z) (spans : list (Z * Z)) : list Z * list (Z * Z) :=
  match k with
  | O => (line, spans)
  | S k =>
      let i := scan blank line i in
      if (i >=? zlen line) || (default 0 (line.[i]) =? 0) then (line, spans)
      else
        let start := i in
        let i := scan word_char line i in
        let spans := spans ++ [(start, i)] in
        if (i <? zlen line) && negb (default 0 (line.[i]) =? 0)
        then tokenize_from k (zset line i 0) (i + 1) spans
        else tokenize_from k line i spans
  end.
Definition tokenize (line : list Z) : list Z * list (Z * Z) :=
  tokenize_from (Z.to_nat (ARG_MAX - 1)) line 0 [].

(** [Some code] is the call of [exit]; otherwise the answer and [LAST_DIR]. *)
Definition run_builtin (args : list (list Z)) (last_dir : list Z) : M U (Z + (Z * list Z)) :=
  name ← of_option (args.[0]);
  if bool_decide (name = str "exit") then
    match args.[1] with
    | Some a => mret (inl (atoi (utf8_or (str "0") a)))
    | None => mret (inl 0)
    end
  else if bool_decide (name = str "cd") then
    let dst := default (str "/") (args.[1]) in
    let dst := if bool_decide (dst = str "-") then last_dir else dst in
    prev ← getcwd (replicate 96 0);
    let d := cstr 128 (trim_nuls (utf8_or (str "/") dst)) in
    r ← chdir d;
    if r <? 0 then
      eprintln (str "cd: " ++ utf8_or (str "?") dst ++ str ": no such directory");;
      mret (inr (1, last_dir))
    else mret (inr (0, prev.2))
  else if bool_decide (name = str "help") then
    _ ← puts (str "builtins: cd exit help   everything else runs from /bin");
    mret (inr (0, last_dir))
  else mret (inr (-1, last_dir)).

(** The path of an external command, in its 128 bytes, up to the NUL. *)
Definition command_path (name : list Z) : list Z :=
  (if bool_decide (47 ∈ name) then slice 0 (Z.min (zlen name) (128 - 1)) name
   else str "/bin/" ++ slice 0 (Z.min (zlen name) (128 - 6)) name) ++ [0].

Definition run_external (args : list (list Z)) (ptrs : list (option (list Z))) : M U unit :=
  name ← of_option (args.[0]);
  pid ← spawn (command_path name) ptrs;
  if pid <? 0 then eprintln (str "sh: " ++ utf8_or (str "?") name ++ str ": command not found")
  else
    r ← waitpid pid (replicate 4 0);
    let status := i32 (field 4 0 r.2) in
    if negb (status =? 0) then println (str "[exit " ++ dec_i status ++ str "]") else mret tt.

Definition run_command (args : list (list Z)) (ptrs : list (option (list Z))) (last_dir : list Z)
    : M U (list Z + Z) :=
  b ← run_builtin args last_dir;
  match b with
  | inl code => mret (inr code)
  | inr (r, last_dir) =>
      (if r >=? 0 then mret tt else run_external args ptrs);;
      mret (inl last_dir)
  end.

(** One turn of [main]; the locals are the line and [LAST_DIR]. *)
Definition sh_turn (fuel : nat) (st : list Z * list Z) : M U ((list Z * list Z) + Z) :=
  let '(line, last_dir) := st in
  prompt;;
  r ← readline fuel line;
  match r with
  | None => _ ← puts (str "bye"); mret (inr 0)
  | Some (line, n) =>
      if n =? 0 then mret (inl (line, last_dir))
      else
        let '(line, spans) := tokenize line in
        if zlen spans =? 0 then mret (inl (line, last_dir))
        else
          let args := (λ '(s, e), slice s (e - s) line) <$> spans in
          let ptrs := ((λ '(s, _), Some (c_str (drop (Z.to_nat s) line))) <$> spans) ++ [None] in
          r ← run_command args ptrs last_dir;
          mret (match r with inl last_dir => inl (line, last_dir) | inr code => inr code end)
  end.
Definition sh_main (fuel line_fuel : nat) : M U Z :=
  _ ← puts (str "shizuku shell — 'help' for builtins, 'ls /bin' for commands");
  loop fuel (sh_turn line_fuel) (replicate (Z.to_nat LINE_MAX) 0, replicate 96 0).
End sh.
End Sh.
