(* ===== verification/Progs.v ===== *)
(** * The user programs ([userspace-rs/src/bin])

    Every program is its [main] over the arguments [argv] (the name first).
    Loops that end when the kernel says so have fuel. *)
From S2P Require Import Prelude Lines Ulib.

Module Progs.
Import Lines Ulib.

Section progs.
Context {U : Type} `{Os U}.

Definition is_help (a : list Z) : bool := bool_decide (a = str "--help").
Definition usage (s : list Z) : M U Z := _ ← puts s; mret 0.
Definition complain (code : Z) (s : list Z) : M U Z := eprintln s;; mret code.

(** [for i in 1..argc]: the body answers [inl rc] to go on. *)
Fixpoint for_args {A} (body : A → list Z → M U (A + Z)) (argv : list (list Z)) (i : Z) (k : nat) (a : A)
    : M U (A + Z) :=
  match k with
  | O => mret (inl a)
  | S k =>
      r ← body a (arg_str argv i);
      match r with
      | inl a => for_args body argv (i + 1) k a
      | inr code => mret (inr code)
      end
  end.
Definition over_args {A} (body : A → list Z → M U (A + Z)) (argv : list (list Z)) (a : A) : M U (A + Z) :=
  for_args body argv 1 (Z.to_nat (argc argv - 1)) a.

(** ** [cat]; the locals of [main] are [(rc, have)] *)
Definition cat_copy_step (fd : Z) (a : list Z) (buf : list Z) : M U (list Z + bool) :=
  r ← read fd buf;
  let '(n, buf) := r in
  if n <=? 0 then
    (if n <? 0 then eprintln (str "cat: " ++ a ++ str ": read error") else mret tt);;
    mret (inr (n <? 0))
  else _ ← write 1 (slice 0 n buf); mret (inl buf).
Definition cat_arg (fuel : nat) (st : Z * bool) (a : list Z) : M U (Z * bool + Z) :=
  let '(rc, have) := st in
  if is_help a then r ← usage (str "usage: cat FILE..."); mret (inr r)
  else
    fd ← open (cstr 256 a) O_RDONLY;
    if fd <? 0 then eprintln (str "cat: " ++ a ++ str ": cannot open");; mret (inl (1, true))
    else
      failed ← loop fuel (cat_copy_step fd a) (replicate 4096 0);
      _ ← close fd;
      mret (inl (if failed : bool then 1 else rc, true)).
Definition cat_main (fuel : nat) (argv : list (list Z)) : M U Z :=
  r ← over_args (cat_arg fuel) argv (0, false);
  match r with
  | inr code => mret code
  | inl (rc, have) => if negb have then complain 1 (str "usage: cat FILE...") else mret rc
  end.

(** ** [cp] and [mv] *)
(** The first two arguments. *)
Definition two_args (help many : list Z) (st : option (list Z) * option (list Z)) (a : list Z)
    : M U (option (list Z) * option (list Z) + Z) :=
  let '(src, dst) := st in
  if is_help a then r ← usage help; mret (inr r)
  else match src, dst with
       | None, _ => mret (inl (Some a, dst))
       | Some _, None => mret (inl (src, Some a))
       | Some _, Some _ => r ← complain 1 many; mret (inr r)
       end.

Definition cp_copy_step (rin rout : Z) (dst : list Z) (buf : list Z) : M U (list Z + Z) :=
  r ← read rin buf;
  let '(n, buf) := r in
  if n <=? 0 then mret (inr 0)
  else
    w ← write rout (slice 0 n buf);
    if negb (w =? n) then r ← complain 1 (str "cp: " ++ dst ++ str ": write error"); mret (inr r)
    else mret (inl buf).
Definition cp_files (fuel : nat) (src dst : list Z) : M U Z :=
  let sp := cstr 256 src in
  let dp := cstr 256 dst in
  r ← stat sp (Ulib.blank 16);
  let '(rc, st) := r in
  if (rc <? 0) || negb (st_typ (ustat_of st) =? 1) then complain 1 (str "cp: " ++ src ++ str ": not a file")
  else
    rin ← open sp O_RDONLY;
    if rin <? 0 then complain 1 (str "cp: " ++ src ++ str ": cannot open")
    else
      r ← stat dp st;
      let '(rc, st) := r in
      if (rc =? 0) && negb (st_typ (ustat_of st) =? 1) then complain 1 (str "cp: " ++ dst ++ str ": is a directory")
      else
        rout ← open dp (Z.lor O_WRONLY O_CREAT);
        if rout <? 0 then complain 1 (str "cp: " ++ dst ++ str ": cannot create")
        else
          rc ← loop fuel (cp_copy_step rin rout dst) (replicate 512 0);
          _ ← close rin;
          _ ← close rout;
          mret rc.
Definition cp_main (fuel : nat) (argv : list (list Z)) : M U Z :=
  r ← over_args (two_args (str "usage: cp SRC DST") (str "cp: too many arguments")) argv (None, None);
  match r with
  | inr code => mret code
  | inl (Some src, Some dst) => cp_files fuel src dst
  | inl _ => complain 1 (str "usage: cp SRC DST")
  end.

Definition mv_files (src dst : list Z) : M U Z :=
  r ← rename (cstr 256 src) (cstr 256 dst);
  if r <? 0 then complain 1 (str "mv: cannot rename " ++ src ++ str " -> " ++ dst) else mret 0.
Definition mv_main (argv : list (list Z)) : M U Z :=
  r ← over_args (two_args (str "usage: mv OLD NEW") (str "mv: too many arguments")) argv (None, None);
  match r with
  | inr code => mret code
  | inl (Some src, Some dst) => mv_files src dst
  | inl _ => complain 1 (str "usage: mv OLD NEW")
  end.

(** ** [echo] *)
Fixpoint echo_help (argv : list (list Z)) (i : Z) (k : nat) : M U bool :=
  match k with
  | O => mret false
  | S k =>
      if is_help (arg_str argv i) then _ ← puts (str "usage: echo [-n] [TEXT...]"); mret true
      else echo_help argv (i + 1) k
  end.
Fixpoint echo_args (argv : list (list Z)) (i : Z) (k : nat) : M U unit :=
  match k with
  | O => mret tt
  | S k =>
      _ ← write 1 (arg_str argv i);
      (if i + 1 <? argc argv then _ ← putchar 32; mret tt else mret tt);;
      echo_args argv (i + 1) k
  end.
Definition echo_main (argv : list (list Z)) : M U Z :=
  helped ← echo_help argv 1 (Z.to_nat (argc argv - 1));
  if helped : bool then mret 0
  else
    let minus_n := (1 <? argc argv) && bool_decide (arg_str argv 1 = str "-n") in
    let i := if minus_n then 2 else 1 in
    echo_args argv i (Z.to_nat (argc argv - i));;
    (if minus_n then mret tt else _ ← putchar 10; mret tt);;
    mret 0.

(** ** [hexdump]; the locals of the loop are [(row, off)] *)
Definition HEX : list Z := str "0123456789abcdef".
Definition hex_cell (row : list Z) (n i : Z) : M U unit :=
  (if i <? n then
     b ← of_option (row.[i]);
     h ← of_option (HEX.[Z.shiftr b 4]);
     l ← of_option (HEX.[Z.land b 15]);
     print [h; l; 32]
   else print (str "   "));;
  (if i =? 7 then _ ← putchar 32; mret tt else mret tt).
Definition text_cell (row : list Z) (i : Z) : M U unit :=
  c ← of_option (row.[i]);
  _ ← putchar (if (c >=? 32) && (c <? 127) then c else 46);
  mret tt.
(** [{:08x}] of a [u32]. *)
Definition hex8 (v : Z) : list Z := replicate (8 - length (hex_u v)) 48 ++ hex_u v.
Definition hexdump_step (fd : Z) (st : list Z * Z) : M U (list Z * Z + Z) :=
  let '(row, off) := st in
  r ← read fd row;
  let '(n, row) := r in
  if n <? 0 then r ← complain 1 (str "hexdump: read error"); mret (inr r)
  else if n =? 0 then mret (inr 0)
  else
    print (hex8 (u32 off) ++ str "  ");;
    for_each 0 16 (hex_cell row n);;
    print (str " |");;
    for_each 0 n (text_cell row);;
    println (str "|");;
    mret (inl (row, u64 (off + n))).
(** The file named last. *)
Definition hexdump_arg (path : option (list Z)) (a : list Z) : M U (option (list Z) + Z) :=
  if is_help a then r ← usage (str "usage: hexdump FILE"); mret (inr r) else mret (inl (Some a)).
Definition hexdump_file (fuel : nat) (path : list Z) : M U Z :=
  fd ← open (cstr 256 path) O_RDONLY;
  if fd <? 0 then complain 1 (str "hexdump: " ++ path ++ str ": cannot open")
  else
    rc ← loop fuel (hexdump_step fd) (replicate 16 0, 0);
    if rc =? 0 then _ ← close fd; mret 0 else mret rc.
Definition hexdump_main (fuel : nat) (argv : list (list Z)) : M U Z :=
  r ← over_args hexdump_arg argv None;
  match r with
  | inr code => mret code
  | inl None => complain 1 (str "usage: hexdump FILE")
  | inl (Some path) => hexdump_file fuel path
  end.

(** ** [ls] *)
Definition ls_step (p : list Z) (st : list Z * Z) : M U (list Z * Z + Z) :=
  let '(d, i) := st in
  r ← getdents p i d;
  let '(more, d) := r in
  if negb (more =? 0) then
    let de := udirent_of d in
    println (cstr_of (d_name de) ++ (if d_typ de =? 2 then str "/" else []));;
    mret (inl (d, u32 (i + 1)))
  else mret (inr 0).
Definition ls_list (fuel : nat) (path : list Z) : M U Z :=
  let p := cstr 256 path in
  r ← stat p (Ulib.blank 16);
  let '(rc, st) := r in
  if rc <? 0 then complain 1 (str "ls: " ++ path ++ str ": not found")
  else if negb (st_typ (ustat_of st) =? 2) then println path;; mret 0
  else loop fuel (ls_step p) (Ulib.blank 64, 0).
Definition ls_arg (fuel : nat) (st : Z * Z) (a : list Z) : M U (Z * Z + Z) :=
  let '(rc, files) := st in
  if is_help a then r ← usage (str "usage: ls [DIR...]   (default: current directory)"); mret (inr r)
  else
    r ← ls_list fuel a;
    mret (inl (if negb (r =? 0) then 1 else rc, files + 1)).
Definition ls_main (fuel : nat) (argv : list (list Z)) : M U Z :=
  r ← over_args (ls_arg fuel) argv (0, 0);
  match r with
  | inr code => mret code
  | inl (rc, files) => if files =? 0 then ls_list fuel (str ".") else mret rc
  end.

(** ** [mkdir], [rm], [touch]; the locals of [main] are [(rc, have)] *)
Definition files_main (use : list Z) (body : Z → list Z → M U Z) (argv : list (list Z)) : M U Z :=
  r ← over_args (λ (st : Z * bool) a,
    if is_help a then r ← usage use; mret (inr r)
    else rc ← body st.1 a; mret (inl (rc, true))) argv (0, false);
  match r with
  | inr code => mret code
  | inl (rc, have) => if negb (have : bool) then complain 1 use else mret rc
  end.
Definition mkdir_arg (rc : Z) (a : list Z) : M U Z :=
  r ← mkdir (cstr 256 a);
  if r <? 0 then complain 1 (str "mkdir: " ++ a ++ str ": failed (exists or bad path)") else mret rc.
Definition mkdir_main : list (list Z) → M U Z := files_main (str "usage: mkdir DIR...") mkdir_arg.
Definition rm_arg (rc : Z) (a : list Z) : M U Z :=
  let p := cstr 256 a in
  r ← stat p (Ulib.blank 16);
  if r.1 <? 0 then complain 1 (str "rm: " ++ a ++ str ": not found")
  else if st_typ (ustat_of r.2) =? 2 then complain 1 (str "rm: " ++ a ++ str ": is a directory")
  else
    r ← unlink p;
    if r <? 0 then complain 1 (str "rm: " ++ a ++ str ": remove failed") else mret rc.
Definition rm_main : list (list Z) → M U Z := files_main (str "usage: rm FILE...") rm_arg.
Definition touch_arg (rc : Z) (a : list Z) : M U Z :=
  let p := cstr 256 a in
  r ← stat p (Ulib.blank 16);
  if r.1 =? 0 then mret rc
  else
    fd ← open p (Z.lor O_WRONLY O_CREAT);
    if fd <? 0 then complain 1 (str "touch: " ++ a ++ str ": cannot create")
    else _ ← close fd; mret rc.
Definition touch_main : list (list Z) → M U Z := files_main (str "usage: touch FILE...") touch_arg.

(** ** The rest *)
Definition asks_help (argv : list (list Z)) : bool := (1 <? argc argv) && is_help (arg_str argv 1).
Definition mem_main (argv : list (list Z)) : M U Z :=
  if asks_help argv then usage (str "usage: mem")
  else
    r ← sysinfo (Ulib.blank 32);
    if r.1 <? 0 then complain 1 (str "mem: sysinfo failed")
    else
      let si := usysinfo_of r.2 in
      println (str "total " ++ dec_u (mem_total si / 1024) ++ str " KiB  free " ++ dec_u (mem_free si / 1024) ++
        str " KiB  used " ++ dec_u (u64 (mem_total si - mem_free si) / 1024) ++ str " KiB");;
      println (str "procs " ++ dec_u (nproc si) ++ str "   uptime " ++ dec_u (si_uptime_ms si) ++ str " ms");;
      mret 0.
Definition ps_step (st : list Z * Z) : M U (list Z * Z + Z) :=
  let '(p, i) := st in
  r ← nextproc i p;
  let '(more, p) := r in
  if negb (more =? 0) then
    let pr := uproc_of p in
    println (str "  " ++ pad_right 4 (dec_i (p_tid pr)) ++ str " " ++ pad_right 20 (cstr_of (p_name pr)) ++
      str " " ++ (if p_state pr =? 1 then str "zombie" else str "runnable"));;
    mret (inl (p, u32 (i + 1)))
  else mret (inr 0).
Definition ps_main (fuel : nat) (argv : list (list Z)) : M U Z :=
  if asks_help argv then usage (str "usage: ps")
  else
    println (str "  TID  NAME                 STATE");;
    loop fuel ps_step (Ulib.blank 32, 0).
Definition pwd_main : M U Z :=
  r ← getcwd (replicate 256 0);
  if r.1 <? 0 then complain 1 (str "pwd: failed")
  else _ ← puts (cstr_of r.2); mret 0.
Definition sleep_main (argv : list (list Z)) : M U Z :=
  if asks_help argv then usage (str "usage: sleep SECONDS")
  else if argc argv <? 2 then complain 1 (str "usage: sleep SECONDS")
  else
    let s := atoi (arg_str argv 1) in
    sleep_ms (u64 ((if s <? 0 then 0 else s) * 1000));;
    mret 0.
Definition uname_arg (argc : Z) (st : bool * bool * bool) (a : list Z) : M U (bool * bool * bool + Z) :=
  if is_help a then r ← usage (str "usage: uname [-s] [-r] [-m] [-a]"); mret (inr r)
  else if bool_decide (a = str "-s") && (argc =? 2) then mret (inl (true, false, false))
  else if bool_decide (a = str "-r") && (argc =? 2) then mret (inl (false, true, false))
  else if bool_decide (a = str "-m") && (argc =? 2) then mret (inl (false, false, true))
  else mret (inl st).
Definition uname_main (argv : list (list Z)) : M U Z :=
  r ← over_args (uname_arg (argc argv)) argv (true, true, true);
  match r with
  | inr code => mret code
  | inl (s, r, m) =>
      res ← uname (Ulib.blank 96);
      if res.1 <? 0 then complain 1 (str "uname: failed")
      else
        let u := utsname_of res.2 in
        (if s : bool then print (cstr_of (sysname u)) else mret tt);;
        (if r : bool then print ((if s : bool then str " " else []) ++ cstr_of (release u)) else mret tt);;
        (if m : bool then print ((if (s || r) : bool then str " " else []) ++ cstr_of (machine u)) else mret tt);;
        _ ← putchar 10;
        mret 0
  end.
Definition clear_main (argv : list (list Z)) : M U Z :=
  if asks_help argv then usage (str "usage: clear")
  else _ ← write 1 [27; 91; 50; 74; 27; 91; 72]; mret 0.
Definition true_main (argv : list (list Z)) : M U Z :=
  if asks_help argv then usage (str "usage: true") else mret 0.
Definition hello_main (argv : list (list Z)) : M U Z :=
  println (str "[user] hello from ring3");;
  println (str "[user] argc=" ++ dec_i (argc argv) ++ str " argv0=" ++
    (if argc argv >? 0 then arg_str argv 0 else str "(none)"));;
  pid ← getpid;
  up ← uptime_ms;
  println (str "[user] pid=" ++ dec_i pid ++ str " uptime=" ++ dec_u up ++ str " ms");;
  mret 7.

(** [init]: one turn of the loop that keeps a shell running; [true] when the
    shell could not be started, after which it only yields. *)
Definition init_greeting : M U unit :=
  r ← uname (Ulib.blank 96);
  if r.1 =? 0 then
    let u := utsname_of r.2 in
    println (str "[init] " ++ cstr_of (sysname u) ++ str " " ++ cstr_of (release u) ++ str " (" ++
      cstr_of (machine u) ++ str ") — userspace up")
  else mret tt.
Definition init_turn : M U bool :=
  let sh_path := cstr 64 (str "/bin/sh") in
  pid ← spawn sh_path [Some (c_str sh_path); None];
  if pid <? 0 then _ ← puts (str "[init] cannot spawn /bin/sh"); mret true
  else
    r ← waitpid pid (Ulib.blank 4);
    println (str "[init] /bin/sh exited (" ++ dec_i (i32 (field 4 0 r.2)) ++ str "), restarting");;
    sleep_ms 200;;
    mret false.
Definition init_main (fuel : nat) : M U unit :=
  init_greeting;;
  loop fuel (λ _ : unit, stuck ← init_turn; mret (if stuck : bool then inr tt else inl tt)) tt;;
  loop fuel (λ _ : unit, u_yield;; mret (inl tt)) tt.
End progs.
End Progs.
