(* ===== verification/UserApi.v ===== *)
(** * What the kernel promises a user program

    [StdioLaws]: bytes written to descriptors 1 and 2 come out, in order, and
    what is typed comes in.  [FileLaws]: the calls on files, over the file
    system itself ([Tmpfs]), the caller's directory and its descriptors.  The
    programs are proved against these laws; [UserSys] discharges them for the
    system calls of [Syscall]. *)
From S2P Require Import Prelude Lines PageAlloc Mem Tmpfs Sched Kernel SyscallSpec Ulib.

Module UserApi.
Import Lines Ulib.

(** The largest buffer of the programs. *)
Definition BUF_MAX : Z := 4096.

(** ** Standard input and output *)
Class StdioLaws (U : Type) `{Os U} := {
  (** The process is running and its buffers are mapped. *)
  live : U → Prop;
  (** What has been typed and not read. *)
  input : U → list Z;
  (** [acts ins outs u u']: from [u] to [u'] the process has read [ins] and
      written [outs]. *)
  acts : list Z → list Z → U → U → Prop;
  acts_nil u : acts [] [] u u;
  acts_app i1 i2 o1 o2 u u1 u2 :
    acts i1 o1 u u1 → acts i2 o2 u1 u2 → acts (i1 ++ i2) (o1 ++ o2) u u2;
  acts_input i o u u' : acts i o u u' → input u = i ++ input u';
  live_input u : live u → Forall (λ b, 0 ≤ b < 2 ^ 8) (input u);
  (** Descriptors 3 and up; what the file calls below work on. *)
  files : U → Tmpfs.tmpfs * list Z * list Sched.ufd;
  write_law u fd bs :
    live u → fd = 1 ∨ fd = 2 → zlen bs ≤ BUF_MAX → Forall (λ b, 0 ≤ b < 2 ^ 8) bs →
    wp (trap SYS_WRITE [Int fd; In bs; Int (zlen bs)]) (λ r u',
      r = (zlen bs, []) ∧ acts [] bs u u' ∧ live u' ∧ files u' = files u) u;
  read_law u c cs :
    live u → input u = c :: cs →
    wp (trap SYS_READ [Int 0; Out [0]; Int 1]) (λ r u',
      r = (1, [[c]]) ∧ acts [c] [] u u' ∧ live u' ∧ files u' = files u) u;
}.

(** ** Files *)
Section view.
Context {U : Type} `{StdioLaws U}.
Definition tree (u : U) : Tmpfs.tmpfs := (files u).1.1.
Definition cwd (u : U) : list Z := (files u).1.2.
Definition fds (u : U) : list Sched.ufd := (files u).2.
Definition fd_at (u : U) (fd : Z) (nd pos : Z) : Prop :=
  Sched.UFD_FIRST ≤ fd < Sched.UFD_MAX ∧ zget (fds u) fd = Some (Sched.mkUfd nd pos) ∧ 0 ≤ nd.
(** The node a path names for the caller. *)
Definition node_of (u : U) (path : list Z) : Z :=
  Tmpfs.resolve_spec (tree u) (SyscallSpec.path_of (cwd u) path).
Definition lowest_fd (u : U) : option Z :=
  find_first (λ i, match zget (fds u) i with Some d => Sched.node d <? 0 | None => false end)
    Sched.UFD_FIRST Sched.UFD_MAX.
End view.

(** A path argument: a string and its NUL in a buffer. *)
Definition path_buf (bs path : list Z) : Prop :=
  ∃ rest, bs = path ++ 0 :: rest ∧ nul_free path ∧ zlen path < 256 ∧ zlen bs ≤ BUF_MAX ∧
    Forall (λ b, 0 ≤ b < 2 ^ 8) bs.

Lemma path_buf_cstr a : nul_free a → zlen a < 256 → Forall (λ b, 0 ≤ b < 2 ^ 8) a → path_buf (cstr 256 a) a.
Proof.
  intros Hn Hl Hb. pose proof (zlen_nonneg a). exists (replicate (Z.to_nat (255 - zlen a)) 0).
  assert (cstr 256 a = a ++ 0 :: replicate (Z.to_nat (255 - zlen a)) 0) as E.
  { unfold cstr. rewrite Z.min_l by lia.
    replace (Z.to_nat (256 - zlen a)) with (S (Z.to_nat (255 - zlen a))) by lia.
    f_equal. unfold slice, zlen. simpl. rewrite drop_0, Nat2Z.id. by apply take_ge. }
  split; [exact E|]. split; [done|]. split; [done|]. rewrite E. split.
  - rewrite zlen_app, zlen_cons, zlen_replicate. unfold BUF_MAX. lia.
  - apply Forall_app. split; [exact Hb|]. constructor; [lia|]. apply Forall_replicate. lia.
Qed.

Class FileLaws (U : Type) `{StdioLaws U} := {
  live_fs u : live u → Tmpfs.fs_ok (tree u);
  live_bytes u nd data :
    live u → Tmpfs.file_data (tree u) nd = Some data → Forall (λ b, 0 ≤ b < 2 ^ 8) data;
  live_cwd u : live u → nul_free (cwd u);
  live_cwd_text u : live u → Forall (λ b, 0 ≤ b < 2 ^ 8) (cwd u) ∧ utf8_valid (cwd u) = true;
  open_law u bs path flags :
    live u → path_buf bs path → - 2 ^ 31 ≤ flags < 2 ^ 31 →
    wp (trap SYS_OPEN [In bs; Int flags]) (λ r u', acts [] [] u u' ∧ live u' ∧
      let '(nd, x) := SyscallSpec.open_node (tree u) (SyscallSpec.path_of (cwd u) path) flags in
      match lowest_fd u with
      | Some fd =>
          if (0 <=? nd) && (Tmpfs.node_typ x nd =? Tmpfs.VN_FILE)
          then r = (fd, []) ∧ files u' = (x, cwd u, zset (fds u) fd (Sched.mkUfd nd 0))
          else r = (-1, []) ∧ files u' = (x, cwd u, fds u)
      | None => r = (-1, []) ∧ files u' = (x, cwd u, fds u)
      end) u;
  fread_law u fd nd pos data buf :
    live u → fd_at u fd nd pos → 0 ≤ pos < 2 ^ 63 → Tmpfs.file_data (tree u) nd = Some data →
    zlen buf ≤ BUF_MAX → Forall (λ b, 0 ≤ b < 2 ^ 8) buf →
    let got := slice pos (Z.min (zlen buf) (zlen data - pos)) data in
    wp (trap SYS_READ [Int fd; Out buf; Int (zlen buf)]) (λ r u',
      r = (zlen got, [got ++ drop (length got) buf]) ∧ acts [] [] u u' ∧ live u' ∧
      files u' = (tree u, cwd u, zset (fds u) fd (Sched.mkUfd nd (pos + zlen got)))) u;
  fwrite_law u fd nd pos old data :
    live u → fd_at u fd nd pos → 0 ≤ pos → Tmpfs.file_data (tree u) nd = Some old →
    zlen data ≤ BUF_MAX → Forall (λ b, 0 ≤ b < 2 ^ 8) data →
    wp (trap SYS_WRITE [Int fd; In data; Int (zlen data)]) (λ r u', acts [] [] u u' ∧ live u' ∧
      let '(n, x) := Tmpfs.write_spec (tree u) nd pos data in
      r = (n, []) ∧
      files u' = (x, cwd u, if 0 <? n then zset (fds u) fd (Sched.mkUfd nd (pos + n)) else fds u)) u;
  close_law u fd nd pos :
    live u → fd_at u fd nd pos →
    wp (trap SYS_CLOSE [Int fd]) (λ r u', r = (0, []) ∧ acts [] [] u u' ∧ live u' ∧
      files u' = (tree u, cwd u, zset (fds u) fd (Sched.mkUfd (-1) pos))) u;
  getcwd_law u buf :
    live u → 0 < zlen buf ≤ BUF_MAX → Forall (λ b, 0 ≤ b < 2 ^ 8) buf →
    wp (trap SYS_GETCWD [Out buf; Int (zlen buf)]) (λ r u', acts [] [] u u' ∧ live u' ∧ files u' = files u ∧
      let text := cwd u ++ [0] in
      if zlen buf <? zlen text then r = (-1, [buf])
      else r = (zlen text, [text ++ drop (length text) buf])) u;
  stat_law u bs path st :
    live u → path_buf bs path → zlen st = 16 → Forall (λ b, 0 ≤ b < 2 ^ 8) st →
    wp (trap SYS_STAT [In bs; Out st]) (λ r u', acts [] [] u u' ∧ live u' ∧ files u' = files u ∧
      let nd := node_of u path in
      if nd <? 0 then r = (-1, [st])
      else ∃ st', r = (0, [st']) ∧ zlen st' = 16 ∧ Forall (λ b, 0 ≤ b < 2 ^ 8) st' ∧
        st_typ (ustat_of st') = Tmpfs.node_typ (tree u) nd) u;
}.
End UserApi.
