(* ===== verification/UserSys.v ===== *)
(** * The kernel under the user programs

    [trap_kernel] is a system call of the running process: the program's
    buffers lie on its stack, one page each from the bottom up, and the call is
    [syscall_dispatch] on a frame that holds its registers.  A call that waits
    has no answer here.  The laws of [UserApi] are proved for it, so what
    [UserSpec], [CpSpec] and [ShSpec] prove of the programs holds on the
    kernel of [Syscall]. *)
From S2P Require Import Prelude Lines PageAlloc Pmm Mem Vmm UserMem Elf Tmpfs Sched Ring Vterm Kbd.
From S2P Require Import Kernel Proc Spawn ShellSpec Syscall SyscallSpec Ulib UserApi.

Module UserSys.
Import UserApi Lines Sched Kernel Syscall SyscallSpec ShellSpec.


(** ** The trap *)
Section trap.
Context {P : Type} `{PageAllocator P} `{PageCounter P}.

(** Pointers to strings that lie one after the other at [next]. *)
Fixpoint pointers (next : Z) (ss : list (option (list Z))) : list Z :=
  match ss with
  | [] => []
  | None :: ss => 0 :: pointers next ss
  | Some s :: ss => next :: pointers (next + zlen s + 1) ss
  end.
Definition ptr_bytes (a : Z) (ss : list (option (list Z))) : list Z :=
  (pointers (a + 8 * zlen ss) ss ≫= le_bytes 8) ++
  (ss ≫= λ s, match s with Some s => s ++ [0] | None => [] end).

(** What the program has at [a], and what it puts in a register. *)
Definition arg_bytes (a : Z) (x : Ulib.arg) : list Z :=
  match x with
  | Ulib.Int _ => []
  | Ulib.In bs | Ulib.Out bs => bs
  | Ulib.Ptrs ss => ptr_bytes a ss
  end.
Definition arg_reg (a : Z) (x : Ulib.arg) : Z := match x with Ulib.Int v => u64 v | _ => a end.

Fixpoint put_args (a : Z) (args : list Ulib.arg) : M (kern P) unit :=
  match args with
  | [] => mret tt
  | x :: args => uwrite_bytes a (arg_bytes a x);; put_args (a + PAGE_SIZE) args
  end.
Fixpoint take_outs (a : Z) (args : list Ulib.arg) : M (kern P) (list (list Z)) :=
  match args with
  | [] => mret []
  | x :: args =>
      out ← match x with
            | Ulib.Out bs => bs ← uread_bytes (length bs) a; mret [bs]
            | _ => mret []
            end;
      rest ← take_outs (a + PAGE_SIZE) args;
      mret (out ++ rest)
  end.

Definition slot (i : Z) : Z := Spawn.STACK_BOTTOM + i * PAGE_SIZE.
Definition reg (args : list Ulib.arg) (i : Z) : Z :=
  match zget args i with Some x => arg_reg (slot i) x | None => 0 end.
Definition trap_frame (n : Z) (args : list Ulib.arg) : frame :=
  mkFrame 0 0 0 0 0 0 0 0 0 (reg args 0) (reg args 1) (reg args 2) 0 0 n 0 0 0 0 0 0 0.
Definition trap_kernel (n : Z) (args : list Ulib.arg) : M (kern P) (Z * list (list Z)) :=
  put_args (slot 0) args;;
  d ← syscall_dispatch zero_frame (trap_frame n args);
  match d with
  | ReturnTo f => outs ← take_outs (slot 0) args; mret (i64 (rax f), outs)
  | _ => hang
  end.
End trap.

#[export] Instance kernel_os {P : Type} `{PageAllocator P} `{PageCounter P} : Ulib.Os (kern P) := trap_kernel.

(** ** Placing the buffers *)
Section buffers.
Context {P : Type} `{PageAllocatorLaws P} `{PageCounter P}.
Implicit Types s : kern P.

(** Only user memory has changed. *)
Definition touched s s' : Prop := ∃ m',
  s' = set_mem m' s ∧ memory_ok s' ∧ ∀ x, user_entry s' x = user_entry s x.
(** The program's buffers from [a] on. *)
Fixpoint placed s (a : Z) (args : list Ulib.arg) : Prop :=
  match args with
  | [] => True
  | x :: args => user_at s a (arg_bytes a x) ∧ placed s (a + PAGE_SIZE) args
  end.
Definition fits (bs : list Z) : Prop := zlen bs ≤ PAGE_SIZE ∧ Forall (λ b, 0 ≤ b < 2 ^ 8) bs.
Definition arg_fits (x : Ulib.arg) : Prop := ∀ a, fits (arg_bytes a x).

Lemma touched_refl s : memory_ok s → touched s s.
Proof. intros Hok. exists (mem s). by rewrite set_mem_id. Qed.
Lemma touched_trans s1 s2 s3 : touched s1 s2 → touched s2 s3 → touched s1 s3.
Proof.
  intros (m2 & -> & _ & E2) (m3 & -> & Hok & E3). exists m3. split; [done|]. split; [done|].
  intros x. by rewrite E3, E2.
Qed.
Lemma touched_wrote s va bs m' : wrote s va bs m' → touched s (set_mem m' s).
Proof.
  intros W. exists m'. split; [done|]. split; [by eapply wr_ok|]. intros x. by eapply wr_lookup.
Qed.
Lemma touched_writable s s' va n : touched s s' → writable s va n → writable s' va n.
Proof.
  intros (_ & _ & _ & E) Hw x Hx. destruct (Hw x Hx) as (Hl & e & He & Hrw). split; [done|]. exists e. by rewrite E.
Qed.

Lemma user_at_below s s' a bs hi :
  user_at s a bs → (∀ x, UserMem.low_half x → x < hi → 
    UserMem.user_byte (mem s') (active_space s') x = UserMem.user_byte (mem s) (active_space s) x) →
  (∀ x, a ≤ x < a + zlen bs → UserMem.low_half x) → a + zlen bs ≤ hi → user_at s' a bs.
Proof.
  intros Hu Hsame Hlow Hhi i b Hb. pose proof (zget_Some_lt _ _ _ Hb).
  rewrite Hsame by (apply Hlow || lia; lia). by apply Hu.
Qed.
Lemma user_at_wrote s a bs m' :
  wrote s a bs m' → (∀ x, a ≤ x < a + zlen bs → UserMem.low_half x) → user_at (set_mem m' s) a bs.
Proof.
  intros W Hlow i b Hb. pose proof (zget_Some_lt _ _ _ Hb). change (mem (set_mem m' s)) with m'.
  change (active_space (set_mem m' s)) with (active_space s).
  rewrite (wr_bytes _ _ _ _ (a + i) W) by (apply Hlow; lia). by rewrite Z.add_simpl_l, Hb.
Qed.

Lemma wp_put_args a args s :
  memory_ok s → writable s a (PAGE_SIZE * zlen args) → Forall arg_fits args →
  wp (put_args a args) (λ _ s', touched s s' ∧ placed s' a args ∧
    ∀ x, UserMem.low_half x → x < a →
      UserMem.user_byte (mem s') (active_space s') x = UserMem.user_byte (mem s) (active_space s) x) s.
Proof.
  revert a s. induction args as [|x args IH]; intros a s Hok Hw Hfit; cbn [put_args].
  { wp_run. split; [by apply touched_refl|done]. }
  inversion Hfit as [|? ? Hx Hfit']; subst. rewrite zlen_cons in Hw. pose proof (zlen_nonneg args). assert (0 < PAGE_SIZE) by done.
  destruct (Hx a) as [Hlen Hb].
  assert (∀ y, a ≤ y < a + PAGE_SIZE → UserMem.low_half y) as Hlow by (intros y Hy; apply (Hw y); lia).
  wp_step. wp_use wp_uwrite_bytes; [done|eapply writable_sub; [exact Hw|lia|lia]|done|].
  intros [] s1 (m1 & -> & W1). pose proof (touched_wrote _ _ _ _ W1) as T1.
  wp_use IH; [by eapply wr_ok| |done|].
  { eapply touched_writable; [exact T1|]. eapply writable_sub; [exact Hw|lia|lia]. }
  intros [] s2 (T2 & Hpl & Hbelow). split; [by eapply touched_trans|]. split; [split; [|done]|].
  - eapply (user_at_below (set_mem m1 s)); [|exact Hbelow| |lia].
    + apply user_at_wrote; [done|]. intros y Hy. apply Hlow. lia.
    + intros y Hy. apply Hlow. lia.
  - intros y Hy Hlt. rewrite Hbelow by (done || lia). change (mem (set_mem m1 s)) with m1.
    change (active_space (set_mem m1 s)) with (active_space s). rewrite (wr_bytes _ _ _ _ y W1) by done.
    by rewrite (proj2 (zget_None _ _)) by lia.
Qed.
End buffers.

(** ** The running process *)
Section process.
Context {P : Type} `{PageAllocatorLaws P} `{PageCounter P}.
Implicit Types s : kern P.

Definition vts s : Vterm.vterms := Kbd.vts (kb s).
(** The terminal of descriptors 0 to 2, or a negative number for the keyboard
    and the serial line alone. *)
Definition stdin_of s : Z :=
  match zget (threads (sc s)) (current_idx (sc s)) with
  | Some t => if (vt t <? 0) && Vterm.console_flag (vts s) then 0 else vt t
  | None => -1
  end.
Definition keys s : list Z :=
  if stdin_of s <? 0 then Kbd.pending (kb s)
  else match zget (Vterm.terms (vts s)) (stdin_of s) with
       | Some v => Ring.contents Vterm.VT_INQ (Vterm.inq v)
       | None => []
       end.
Definition view s : Tmpfs.tmpfs * list Z * list Sched.ufd :=
  match zget (threads (sc s)) (current_idx (sc s)) with
  | Some t => (fs s, cwd_str t, fds t)
  | None => (fs s, [], [])
  end.

Definition term_ok s : Prop := 0 ≤ stdin_of s → ∃ v p,
  Vterm.has_term (vts s) (stdin_of s) v ∧ Vterm.shows v p ∧ Ring.ring_ok Vterm.VT_INQ (Vterm.inq v).
Record stdio_ok s : Prop := {
  so_kbd : Kbd.kbd_ok (kb s);
  so_term : term_ok s;
  so_keys : Forall (λ b, 0 ≤ b < 2 ^ 8) (keys s);
}.
Record running s (t : thread) : Prop := {
  rn_caller : caller s t;
  rn_cwd : zlen (cwd t) = CWD_LEN;
  rn_fds : zlen (Sched.fds t) = UFD_MAX;
  rn_dir : Forall (λ b, 0 ≤ b < 2 ^ 8) (cwd t);
  rn_fs : Tmpfs.fs_ok (fs s);
  rn_pool : mem_ok (Tmpfs.pool (fs s));
  rn_memory : memory_ok s;
  rn_stack : writable s (slot 0) (3 * PAGE_SIZE);
  rn_stdio : stdio_ok s;
}.
Definition process_ok s : Prop := ∃ t, running s t.

(** From [s] to [s'] the process read [ins] and wrote [outs]: the serial line
    and, if there is one, its terminal got them. *)
Record did (ins outs : list Z) s s' : Prop := {
  di_keys : keys s = ins ++ keys s';
  di_com1 : com1 s' = com1 s ++ crlf outs;
  di_vt : stdin_of s' = stdin_of s;
  di_paper v p : Vterm.has_term (vts s) (stdin_of s) v → Vterm.shows v p →
    ∃ v', Vterm.has_term (vts s') (stdin_of s) v' ∧ Vterm.shows v' (fold_left Vterm.type_char outs p);
}.

Lemma did_nil s : did [] [] s s.
Proof. split; [done|by rewrite app_nil_r|done|]. intros v p Hv Hs. by exists v. Qed.
Lemma did_app i1 i2 o1 o2 s s1 s2 : did i1 o1 s s1 → did i2 o2 s1 s2 → did (i1 ++ i2) (o1 ++ o2) s s2.
Proof.
  intros [K1 C1 V1 P1] [K2 C2 V2 P2]. split.
  - by rewrite K1, K2, app_assoc.
  - unfold crlf in *. by rewrite C2, C1, bind_app, app_assoc.
  - congruence.
  - intros v p Hv Hs. destruct (P1 v p Hv Hs) as (v1 & Hv1 & Hs1). rewrite V1 in P2.
    destruct (P2 v1 _ Hv1 Hs1) as (v2 & Hv2 & Hs2). exists v2. by rewrite fold_left_app.
Qed.
(** Nothing read, nothing written. *)
Lemma did_same s s' : kb s' = kb s → com1 s' = com1 s → stdin_of s' = stdin_of s → did [] [] s s'.
Proof.
  intros K C V. split; [|by rewrite C, app_nil_r|done|].
  - simpl. unfold keys, vts. by rewrite V, K.
  - intros v p Hv Hs. exists v. unfold vts in *. by rewrite K.
Qed.

Lemma stdio_same s s' : stdio_ok s → kb s' = kb s → stdin_of s' = stdin_of s → stdio_ok s'.
Proof.
  intros [Hk Ht Hb] K V. assert (vts s' = vts s) as W by (unfold vts; by rewrite K). split.
  - by rewrite K.
  - unfold term_ok. by rewrite V, W.
  - unfold keys. by rewrite V, K, W.
Qed.
Lemma running_next s s' t t' :
  running s t → caller s' t' → cwd t' = cwd t → zlen (Sched.fds t') = UFD_MAX →
  Tmpfs.fs_ok (fs s') → mem_ok (Tmpfs.pool (fs s')) → memory_ok s' →
  (∀ x, user_entry s' x = user_entry s x) → stdio_ok s' → running s' t'.
Proof.
  intros [] Hc Hcw Hf Hx Hp Hm He Hio. split; try done; [by rewrite Hcw|by rewrite Hcw|].
  intros y Hy. destruct (rn_stack0 y Hy) as (Hl & e & Hey & Hrw). split; [done|]. exists e. by rewrite He.
Qed.
Lemma running_touched s s' t : running s t → touched s s' → running s' t.
Proof.
  intros R (m' & -> & Hm & He). pose proof R as [R1 _ R3 _ R4 R5 _ _ R8]. eapply running_next; try done. by eapply stdio_same.
Qed.
Lemma did_touched s s' : touched s s' → did [] [] s s'.
Proof. intros (m' & -> & _). by apply did_same. Qed.
Lemma view_caller s t : caller s t → view s = (fs s, cwd_str t, Sched.fds t).
Proof. intros Hc. unfold view. by rewrite Hc. Qed.

Lemma i64_of_u64 x : - 2 ^ 63 ≤ x < 2 ^ 63 → i64 (u64 x) = x.
Proof.
  intros Hx. unfold i64, u64. rewrite Z.add_mod_idemp_l by done. by apply i64_id.
Qed.

(** A call, once its buffers are in place. *)
Lemma wp_trap n args s t (Q : Z * list (list Z) → kern P → Prop) :
  running s t → zlen args ≤ 3 → Forall arg_fits args →
  (∀ s1, touched s s1 → running s1 t → placed s1 (slot 0) args →
    wp (syscall_body zero_frame (trap_frame n args)) (λ r s2, ∃ v, r = Ret v ∧ - 2 ^ 63 ≤ v < 2 ^ 63 ∧
      wp (take_outs (slot 0) args) (λ outs s3, Q (v, outs) s3) s2) s1) →
  wp (trap_kernel n args) Q s.
Proof.
  intros R Hlen Hfit Hbody. unfold trap_kernel. wp_step. assert (0 < PAGE_SIZE) by done.
  wp_use wp_put_args; [by apply rn_memory with t|eapply writable_sub; [apply (rn_stack _ _ R)|lia|nia]|done|].
  intros [] s1 (T1 & Hpl & _). unfold syscall_dispatch. wp_step. wp_step.
  wp_use Hbody; [done|by eapply running_touched|done|]. intros r s2 (v & -> & Hv & Hout). wp_step. cbn [finish]. wp_step.
  wp_use Hout. intros outs s3 HQ. wp_run. cbn [rax with_rax]. by rewrite i64_of_u64.
Qed.
End process.

(** ** Standard output *)
Section stdout.
Context {P : Type} `{PageAllocatorLaws P} `{PageCounter P}.
Implicit Types s : kern P.

Lemma wp_forall {S A B} (ok : B → Prop) (m : M S A) (Q : B → A → S → Prop) (x : S) :
  (∃ b, ok b) → (∀ b, ok b → wp m (Q b) x) → wp m (λ r x', ∀ b, ok b → Q b r x') x.
Proof.
  intros [b Hb] Hall. unfold wp in *. destruct (m x) as [[r x']| |]; [|by eapply Hall..].
  intros b' Hb'. by apply Hall.
Qed.

Lemma wp_stdio_vt s t : caller s t → wp stdio_vt (λ v s', s' = s ∧ v = stdin_of s) s.
Proof.
  intros Hc. unfold stdio_vt. wp_step. eapply wp_current; [exact Hc|].
  unfold vt_call, kb_call, Kbd.vt_call, Vterm.console_up. wp_run.
  split; [by destruct s as [? ? [] ?]|]. unfold stdin_of. by rewrite Hc.
Qed.

(** The terminal of the process shows [p], if it has one. *)
Definition paper_is s (p : Vterm.paper) : Prop :=
  0 ≤ stdin_of s → ∃ w, Vterm.has_term (vts s) (stdin_of s) w ∧ Vterm.shows w p.
(** [s'] is [s] after [cs] was printed. *)
Definition printed s (p : Vterm.paper) (cs : list Z) s' : Prop := ∃ ws,
  s' = mkKern (sc s) (fs s) (Kbd.set_vts ws (kb s)) (com1 s ++ crlf cs) ∧
  Vterm.console_flag ws = Vterm.console_flag (vts s) ∧
  (0 ≤ stdin_of s → ∃ w w', Vterm.has_term (vts s) (stdin_of s) w ∧
    Vterm.terms ws = zset (Vterm.terms (vts s)) (stdin_of s) w' ∧ Vterm.used w' = true ∧
    Vterm.inq w' = Vterm.inq w ∧ Vterm.shows w' (fold_left Vterm.type_char cs p)) ∧
  (stdin_of s < 0 → ws = vts s).

Lemma printed_nil s p : paper_is s p → printed s p [] s.
Proof.
  intros Hp. exists (vts s). split; [rewrite app_nil_r; by destruct s as [? ? [] ?]|].
  split; [done|]. split; [|done]. intros Hv. destruct (Hp Hv) as (w & Hw & Hs). exists w, w.
  destruct Hw as (Hl & Hg & Hu). by rewrite (zset_id _ _ _ Hg).
Qed.

Lemma wp_print_char s p cs c buf s1 :
  0 ≤ c < 2 ^ 8 → printed s p cs s1 → UserMem.user_byte (mem s) (active_space s) buf = Some c →
  wp (c ← uread buf;
      (if c =? 10 then modify (uart_out 13) else mret tt);;
      modify (uart_out c);;
      if stdin_of s >=? 0 then vt_call (Vterm.putc_vt (stdin_of s) (u8 c)) else mret tt)
    (λ _ s2, printed s p (cs ++ [c]) s2) s1.
Proof.
  intros Hc (ws & -> & Hflag & Hup & Hdown) Hb. wp_step. eapply wp_uread; [exact Hb|]. cbv beta.
  rewrite (u8_id c) by exact Hc.
  assert (∀ s2, s2 = mkKern (sc s) (fs s) (Kbd.set_vts ws (kb s)) (com1 s ++ crlf (cs ++ [c])) →
    wp (if stdin_of s >=? 0 then vt_call (Vterm.putc_vt (stdin_of s) c) else mret tt)
      (λ _ s3, printed s p (cs ++ [c]) s3) s2) as Hend.
  { intros s2 ->. rewrite Z.geb_leb. destruct (Z.leb_spec 0 (stdin_of s)) as [Hv|Hv].
    - destruct (Hup Hv) as (w & w' & Hw & Ht & Hu & Hq & Hs). unfold vt_call, kb_call, Kbd.vt_call. wp_run.
      wp_use Vterm.wp_putc_vt; [by eapply Vterm.has_term_put|exact Hs|].
      intros [] ws2 (w2 & Ht2 & Hf2 & _ & Hu2 & Hq2 & Hs2). exists ws2. split; [done|].
      split; [by rewrite Hf2|]. split; [|lia]. intros _. exists w, w2. cbn [Kbd.vts Kbd.set_vts kb] in Ht2.
      rewrite Ht2, Ht, zset_zset, fold_left_app. split; [done|]. split; [done|]. split; [done|].
      split; [congruence|done].
    - wp_run. exists ws. split; [done|]. split; [done|]. split; [lia|done]. }
  assert (crlf (cs ++ [c]) = crlf cs ++ (if c =? 10 then [13; 10] else [c])) as E.
  { unfold crlf. rewrite bind_app. simpl. by rewrite app_nil_r. }
  wp_step. destruct (Z.eqb_spec c 10) as [->|_]; wp_run; apply Hend; unfold uart_out; cbn [sc fs kb com1];
    by rewrite E, <- !app_assoc.
Qed.

Lemma wp_write_std s t f bs p :
  caller s t → paper_is s p → i32 (rdi f) = 1 ∨ i32 (rdi f) = 2 → bad_uaddr (rsi f) = false →
  rdx f = zlen bs → zlen bs ≤ 2 ^ 20 → Forall (λ b, 0 ≤ b < 2 ^ 8) bs → user_at s (rsi f) bs →
  wp (sys_write f) (λ r s', r = Ret (zlen bs) ∧ printed s p bs s') s.
Proof.
  intros Hc Hp Hfd Hbad Hlen Hmax Hby Hu. pose proof (zlen_nonneg bs). unfold sys_write. rewrite Hbad, Hlen.
  cbn [andb]. change (Z.shiftl 1 20) with (2 ^ 20). rewrite Z.gtb_ltb, (proj2 (Z.ltb_ge (2 ^ 20) _)) by lia. cbv zeta.
  assert ((i32 (rdi f) =? 1) || (i32 (rdi f) =? 2) = true) as ->.
  { destruct Hfd as [-> | ->]; done. }
  wp_step. wp_use wp_stdio_vt; [exact Hc|]. intros v s0 [-> ->]. wp_step.
  apply (wp_for_each (λ i s', printed s p (take (Z.to_nat i) bs) s')); [done|by apply printed_nil| |].
  - intros i s1 Hi Hpr. destruct (zget_lt bs i) as [c Hg]; [lia|].
    rewrite (take_snoc bs i c Hg). eapply wp_print_char; [exact (Forall_zget _ _ _ _ Hby Hg)|exact Hpr|]. by apply Hu.
  - intros s1 Hpr. wp_run. split; [done|]. rewrite take_ge in Hpr by (unfold zlen; lia). exact Hpr.
Qed.
End stdout.

(** ** Descriptors 0, 1 and 2 *)
Section stdio.
Context {P : Type} `{PageAllocatorLaws P} `{PageCounter P}.
Implicit Types s : kern P.

Lemma stdin_flag s ws com :
  Vterm.console_flag ws = Vterm.console_flag (vts s) →
  stdin_of (mkKern (sc s) (fs s) (Kbd.set_vts ws (kb s)) com) = stdin_of s.
Proof. intros Hf. unfold stdin_of. cbn [sc kb vts Kbd.vts Kbd.set_vts]. unfold vts. cbn [kb Kbd.vts Kbd.set_vts]. by rewrite Hf. Qed.

Lemma has_term_unique (x : Vterm.vterms) v w w' : Vterm.has_term x v w → Vterm.has_term x v w' → w' = w.
Proof. intros (_ & E1 & _) (_ & E2 & _). congruence. Qed.

Lemma printed_stdio s p cs s' : stdio_ok s → printed s p cs s' → stdin_of s' = stdin_of s ∧ keys s' = keys s ∧ stdio_ok s'.
Proof.
  intros [Hk Ht Hb] (ws & -> & Hf & Hup & Hdown). pose proof (stdin_flag s ws (com1 s ++ crlf cs) Hf) as V.
  assert (∀ w, 0 ≤ stdin_of s → Vterm.has_term (vts s) (stdin_of s) w → ∃ w',
    Vterm.has_term ws (stdin_of s) w' ∧ Vterm.inq w' = Vterm.inq w ∧ Vterm.shows w' (fold_left Vterm.type_char cs p)) as Hnew.
  { intros w Hv Hw. destruct (Hup Hv) as (w1 & w' & Hw1 & Hte & Hu & Hq & Hs). exists w'.
    pose proof (has_term_unique _ _ _ _ Hw Hw1) as ->. split; [by eapply Vterm.has_term_put|done]. }
  assert (keys (mkKern (sc s) (fs s) (Kbd.set_vts ws (kb s)) (com1 s ++ crlf cs)) = keys s) as Kk.
  { unfold keys. rewrite V. unfold vts at 1. cbn [kb Kbd.vts Kbd.set_vts].
    destruct (Z.ltb_spec (stdin_of s) 0) as [|Hv]; [done|]. destruct (Ht Hv) as (w & p0 & Hw & _).
    destruct (Hnew w Hv Hw) as (w' & (_ & Hg & _) & Hq & _). destruct Hw as (_ & Hg0 & _). by rewrite Hg, Hg0, Hq. }
  split; [exact V|]. split; [exact Kk|]. split; [done| |by rewrite Kk].
  intros Hv. rewrite V in *. destruct (Ht Hv) as (w & p0 & Hw & _ & Hr). destruct (Hnew w Hv Hw) as (w' & Hw' & Hq & Hs).
  exists w', (fold_left Vterm.type_char cs p). by rewrite Hq.
Qed.

Lemma running_paper s t : running s t → ∃ p, paper_is s p.
Proof.
  intros R. destruct (Z.lt_ge_cases (stdin_of s) 0) as [Hn|Hn].
  - exists Vterm.fresh_paper. intros Hv. lia.
  - destruct (so_term _ (rn_stdio _ _ R) Hn) as (w & p & Hw & Hs & _). exists p. intros _. by exists w.
Qed.

(** Printing, as the process and as an observer sees it. *)
Lemma printed_did s t cs s' :
  running s t → (∀ p, paper_is s p → printed s p cs s') →
  running s' t ∧ did [] cs s s' ∧ view s' = view s.
Proof.
  intros R Hpr. destruct (running_paper s t R) as [p Hp]. pose proof (Hpr p Hp) as Hpp.
  destruct (printed_stdio s p cs s' (rn_stdio _ _ R) Hpp) as (V & K & Hio).
  assert (view s' = view s ∧ com1 s' = com1 s ++ crlf cs) as [Hview Hcom] by (by destruct Hpp as (ws & -> & _)).
  split; [|split; [|exact Hview]].
  - pose proof R as [R1 R2 R3 _ R4 R5 R6 R7 _]. destruct Hpp as (ws & -> & _). by eapply running_next.
  - split; [by rewrite K|done|done|]. intros w q Hw Hs. pose proof (Vterm.has_term_range _ _ _ Hw) as Hv.
    assert (paper_is s q) as Hq by (intros _; by exists w).
    destruct (Hpr q Hq) as (ws & -> & _ & Hup & _). destruct Hup as (w1 & w' & Hw1 & Ht & Hu & _ & Hs'); [lia|].
    exists w'. split; [by eapply Vterm.has_term_put|done].
Qed.

(** One key. *)
Record took (c : Z) s s' : Prop := {
  tk_state : ∃ k, s' = mkKern (sc s) (fs s) k (com1 s);
  tk_vt : stdin_of s' = stdin_of s;
  tk_keys : keys s = c :: keys s';
  tk_ok : stdio_ok s';
  tk_paper w p : Vterm.has_term (vts s) (stdin_of s) w → Vterm.shows w p →
    ∃ w', Vterm.has_term (vts s') (stdin_of s) w' ∧ Vterm.shows w' p;
}.

Lemma wp_getc_vt s c cs :
  stdio_ok s → 0 ≤ stdin_of s → keys s = c :: cs →
  wp (vt_call (Vterm.getc (stdin_of s))) (λ r s', r = c ∧ took c s s') s.
Proof.
  intros [Hk Ht Hb] Hv Hkeys. destruct (Ht Hv) as (w & p & Hw & Hs & Hr).
  pose proof (Vterm.has_term_range _ _ _ Hw) as Hid. pose proof Hw as (Hl & Hg & Hu).
  assert (Ring.contents Vterm.VT_INQ (Vterm.inq w) = c :: cs) as Hc.
  { unfold keys in Hkeys. by rewrite (proj2 (Z.ltb_ge _ 0)), Hg in Hkeys by lia. }
  unfold vt_call, kb_call, Kbd.vt_call, Vterm.getc. wp_run. rewrite Z.geb_leb, (proj2 (Z.leb_gt _ _)) by lia.
  wp_step. apply wp_aget. exists w. split; [exact Hg|]. rewrite Hu. cbn [negb].
  pose proof (Ring.contents_pop Vterm.VT_INQ ltac:(done) _ Hr) as Hpop.
  pose proof (Ring.pop_ok Vterm.VT_INQ ltac:(done) _ Hr) as Hok.
  destruct (Ring.pop Vterm.VT_INQ (Vterm.inq w)) as [[c0|] q]; [|destruct Hpop as [_ Hpop]; congruence].
  rewrite Hc in Hpop. injection Hpop as <- Hcs. wp_run. apply Vterm.wp_put_term. wp_run. split; [done|].
  set (w' := Vterm.with_inq q w).
  assert (Vterm.has_term (Vterm.set_terms (zset (Vterm.terms (vts s)) (stdin_of s) w') (vts s)) (stdin_of s) w') as Hw'
    by (by eapply Vterm.has_term_put).
  assert (∀ q0, Vterm.shows w q0 → Vterm.shows w' q0) as Hshow by (by intros q0 [? ? ? ?]).
  set (s' := set_kb _ s). assert (stdin_of s' = stdin_of s) as V by (by apply stdin_flag).
  assert (keys s' = cs) as Kk.
  { unfold keys. rewrite V, (proj2 (Z.ltb_ge _ 0)) by lia. destruct Hw' as (_ & Hg' & _).
    unfold vts at 1. cbn [s' set_kb kb Kbd.vts Kbd.set_vts]. unfold vts in Hg'. by rewrite Hg'. }
  split; [by eexists|exact V|by rewrite Kk| |].
  - split; [done| |rewrite Kk; rewrite Hkeys in Hb; by apply Forall_inv_tail in Hb].
    intros _. exists w', p. rewrite V. by split_and!; [|apply Hshow|].
  - intros w0 p0 Hw0 Hs0. pose proof (has_term_unique _ _ _ _ Hw Hw0) as ->. exists w'. split; [done|by apply Hshow].
Qed.

Lemma wp_getchar_kb s c cs :
  stdio_ok s → stdin_of s < 0 → keys s = c :: cs →
  wp (kb_call Kbd.getchar) (λ r s', r = c ∧ took c s s') s.
Proof.
  intros [Hk Ht Hb] Hv Hkeys. pose proof Hkeys as Hp. unfold keys in Hp. rewrite (proj2 (Z.ltb_lt _ 0)) in Hp by done.
  pose proof (Ring.contents_pop Kbd.KBD_BUF ltac:(done) _ Hk) as Hpop.
  pose proof (Ring.pop_ok Kbd.KBD_BUF ltac:(done) _ Hk) as Hok.
  unfold kb_call, Kbd.getchar. do 3 wp_step. unfold Kbd.pending in Hp.
  destruct (Ring.pop Kbd.KBD_BUF (Kbd.queue (kb s))) as [[c0|] q]; [|destruct Hpop as [_ Hpop]; congruence].
  rewrite Hp in Hpop. injection Hpop as <- Hcs. wp_run. split; [done|].
  set (s' := set_kb _ s). assert (stdin_of s' = stdin_of s) as V by done.
  assert (keys s' = cs) as Kk.
  { unfold keys. rewrite V, (proj2 (Z.ltb_lt _ 0)) by done. by rewrite Hcs. }
  split; [by eexists|exact V|by rewrite Kk| |].
  - split; [exact Hok|intros Hv'; rewrite V in Hv'; lia|]. rewrite Kk. rewrite Hkeys in Hb. by apply Forall_inv_tail in Hb.
  - intros w p Hw Hs. by exists w.
Qed.
End stdio.

Lemma fits_int v : arg_fits (Ulib.Int v).
Proof. intros a. split; [done|constructor]. Qed.
Lemma fits_in bs : zlen bs ≤ BUF_MAX → Forall (λ b, 0 ≤ b < 2 ^ 8) bs → arg_fits (Ulib.In bs).
Proof. intros Hl Hb a. by split. Qed.
Lemma fits_out bs : zlen bs ≤ BUF_MAX → Forall (λ b, 0 ≤ b < 2 ^ 8) bs → arg_fits (Ulib.Out bs).
Proof. intros Hl Hb a. by split. Qed.
Ltac fits_args := repeat first
  [apply fits_int | apply fits_in | apply fits_out | apply Forall_cons; split | apply Forall_nil].

Section stdio_laws.
Context {P : Type} `{PageAllocatorLaws P} `{PageCounter P}.
Implicit Types s : kern P.

Lemma i32_of_u64 x : - 2 ^ 31 ≤ x < 2 ^ 31 → i32 (u64 x) = x.
Proof.
  intros Hx. unfold i32, u64. rewrite <- Zplus_mod_idemp_l.
  replace (2 ^ 64) with (2 ^ 32 * 2 ^ 32) by done. rewrite Z.rem_mul_r by done.
  rewrite (Z.mul_comm (2 ^ 32)), Z.mod_add, Z.mod_mod, Zplus_mod_idemp_l by done. fold (i32 x). by apply i32_id.
Qed.
Lemma view_touched s s' : touched s s' → view s' = view s.
Proof. by intros (m' & -> & _). Qed.

(** What was typed before a call is typed before its buffers are placed. *)
Lemma keys_touched s s' : touched s s' → keys s' = keys s.
Proof. by intros (m' & -> & _). Qed.
Lemma did_after ins outs s s1 s2 : touched s s1 → did ins outs s1 s2 → did ins outs s s2.
Proof. intros T D. exact (did_app [] _ [] _ _ _ _ (did_touched _ _ T) D). Qed.

Lemma wp_kernel_write s t fd bs :
  running s t → fd = 1 ∨ fd = 2 → zlen bs ≤ BUF_MAX → Forall (λ b, 0 ≤ b < 2 ^ 8) bs →
  wp (trap_kernel Ulib.SYS_WRITE [Ulib.Int fd; Ulib.In bs; Ulib.Int (zlen bs)]) (λ r s',
    r = (zlen bs, []) ∧ did [] bs s s' ∧ running s' t ∧ view s' = view s) s.
Proof.
  intros R Hfd Hlen Hb. pose proof (zlen_nonneg bs). unfold BUF_MAX in *.
  apply (wp_trap _ _ _ t); [done|done|by fits_args|].
  intros s1 T R1 (_ & Hu & _). change (arg_bytes _ (Ulib.In bs)) with bs in Hu.
  eapply wp_mono.
  { apply (wp_forall (paper_is s1) _ (λ p r s2, r = Ret (zlen bs) ∧ printed s1 p bs s2)); [by eapply running_paper|].
    intros p Hp. apply (wp_write_std s1 t); [apply R1|exact Hp| |done| |lia|exact Hb|exact Hu].
    - change (rdi (trap_frame _ _)) with (u64 fd). rewrite i32_of_u64 by lia. done.
    - change (rdx (trap_frame _ _)) with (u64 (zlen bs)). apply u64_id. lia. }
  intros r s2 Hall. destruct (running_paper _ _ R1) as [p0 Hp0]. destruct (Hall p0 Hp0) as [-> _].
  destruct (printed_did s1 t bs s2 R1) as (R2 & D & V); [intros p Hp; by apply Hall|].
  exists (zlen bs). split; [done|]. split; [lia|]. cbn [take_outs]. wp_run. split; [done|].
  split; [by eapply did_after|]. split; [done|]. by rewrite V, (view_touched s).
Qed.
End stdio_laws.

Section stdin_law.
Context {P : Type} `{PageAllocatorLaws P} `{PageCounter P}.
Implicit Types s : kern P.

Lemma took_did s t c s' :
  running s t → took c s s' → running s' t ∧ did [c] [] s s' ∧ view s' = view s.
Proof.
  intros R [[k ->] V K Hok Hp]. pose proof R as [R1 R2 R3 _ R4 R5 R6 R7 _].
  split; [by eapply running_next|]. split; [|done]. by split; [|rewrite app_nil_r| |].
Qed.

Lemma wp_read_key s t f c cs :
  running s t → i32 (rdi f) = 0 → rsi f = slot 1 → keys s = c :: cs →
  wp (sys_read f) (λ r s', r = Ret 1 ∧ running s' t ∧ did [c] [] s s' ∧ view s' = view s ∧
    user_at s' (slot 1) [c]) s.
Proof.
  intros R Hfd Hbuf Hk. pose proof (rn_stdio _ _ R) as Hio. unfold sys_read. rewrite Hfd, Hbuf.
  assert (0 ≤ c < 2 ^ 8) as Hc by (pose proof (so_keys _ Hio) as Hb; rewrite Hk in Hb; by apply Forall_inv in Hb).
  change (bad_uaddr (slot 1)) with false. change (0 =? 0) with true. cbv iota.
  wp_step. wp_use wp_stdio_vt; [apply R|]. intros v s0 [-> ->]. unfold read_stdin.
  wp_step. eapply (wp_mono _ (λ r s', r = c ∧ took c s s')).
  { rewrite Z.geb_leb. destruct (Z.leb_spec 0 (stdin_of s)) as [Hv|Hv]; [by eapply wp_getc_vt|by eapply wp_getchar_kb]. }
  intros r s1 [-> Htk]. destruct (took_did s t c s1 R Htk) as (R1 & D & V). rewrite Z.geb_leb, (proj2 (Z.leb_le 0 c)) by lia.
  rewrite u8_id by done. wp_step.
  wp_use wp_uwrite; [apply R1|eapply writable_sub; [apply (rn_stack _ _ R1)|done|done]|done|].
  intros [] s2 (m' & -> & W). wp_run. pose proof (touched_wrote _ _ _ _ W) as T.
  split; [done|]. split; [by eapply running_touched|]. split; [|split; [by rewrite (view_touched s1)|]].
  - exact (did_app [c] [] [] [] _ _ _ D (did_touched _ _ T)).
  - apply user_at_wrote; [done|]. intros x Hx. apply (rn_stack _ _ R1). change (zlen [c]) with 1 in Hx.
    unfold slot, PAGE_SIZE in *. lia.
Qed.

Lemma wp_kernel_read_key s t c cs :
  running s t → keys s = c :: cs →
  wp (trap_kernel Ulib.SYS_READ [Ulib.Int 0; Ulib.Out [0]; Ulib.Int 1]) (λ r s',
    r = (1, [[c]]) ∧ did [c] [] s s' ∧ running s' t ∧ view s' = view s) s.
Proof.
  intros R Hk. apply (wp_trap _ _ _ t); [done|done| |].
  { fits_args; first [done|lia]. }
  intros s1 T R1 _.
  wp_use (wp_read_key s1 t (trap_frame Ulib.SYS_READ [Ulib.Int 0; Ulib.Out [0]; Ulib.Int 1]) c cs);
    [done|done|done|by rewrite (keys_touched s)|].
  intros r s2 (-> & R2 & D & V & Hu). exists 1. split; [done|]. split; [done|]. cbn [take_outs]. wp_run.
  wp_use wp_uread_bytes; [exact Hu|done|]. intros bs s3 [-> ->]. wp_run. split; [done|].
  split; [by eapply did_after|]. split; [done|]. by rewrite V, (view_touched s).
Qed.
End stdin_law.

(** ** Files *)
Section files.
Context {P : Type} `{PageAllocatorLaws P} `{PageCounter P}.
Implicit Types s : kern P.

Lemma pool_contents (x : Tmpfs.tmpfs) nd data :
  mem_ok (Tmpfs.pool x) → Tmpfs.file_data x nd = Some data → Forall (λ b, 0 ≤ b < 2 ^ 8) data.
Proof.
  intros Hp Hd. unfold Tmpfs.file_data in Hd. destruct (Tmpfs.is_file x nd) as [d|]; [|done].
  injection Hd as <-. by apply load_bytes_range.
Qed.
Lemma pool_contents_spec x id data :
  mem_ok (Tmpfs.pool x) → Forall (λ b, 0 ≤ b < 2 ^ 8) data → mem_ok (Tmpfs.pool (Tmpfs.contents_spec x id data).2).
Proof.
  intros Hp Hb. unfold Tmpfs.contents_spec. destruct (zget _ id); [|done]. destruct (_ <=? _); [|done].
  by apply mem_ok_store_bytes.
Qed.
Lemma pool_open_node x path flags :
  mem_ok (Tmpfs.pool x) → mem_ok (Tmpfs.pool (open_node x path flags).2).
Proof.
  intros Hp. unfold open_node. cbv zeta. destruct (_ && _); [|done]. unfold Tmpfs.create_spec.
  destruct (Tmpfs.parent_spec x path) as [[par leaf]|]; [|done]. destruct (Tmpfs.find_child x par leaf) as [id|].
  - destruct (_ =? _); [|done]. by apply pool_contents_spec.
  - unfold Tmpfs.insert_spec. destruct (Tmpfs.free_slot x) as [i|]; cbn [fst snd]; [|done].
    destruct (i <? 0); [done|]. by apply pool_contents_spec.
Qed.
Lemma pool_write_spec x id o buf :
  mem_ok (Tmpfs.pool x) → Forall (λ b, 0 ≤ b < 2 ^ 8) buf → mem_ok (Tmpfs.pool (Tmpfs.write_spec x id o buf).2).
Proof.
  intros Hp Hb. unfold Tmpfs.write_spec. destruct (Tmpfs.is_file x id) as [d|]; [|done].
  destruct (_ <? _); [done|]. destruct (_ <=? _); [by apply mem_ok_store_bytes|]. destruct (_ <=? _); [|done].
  apply mem_ok_store_bytes; [|done]. apply mem_ok_store_bytes; [done|]. by apply load_bytes_range.
Qed.

(** The caller's descriptors and the file system change, nothing else. *)
Lemma running_put s t t' x :
  running s t → cwd t' = cwd t → zlen (Sched.fds t') = UFD_MAX → vt t' = vt t →
  Tmpfs.fs_ok x → mem_ok (Tmpfs.pool x) →
  running (put_caller t' (set_fs x s)) t' ∧ did [] [] s (put_caller t' (set_fs x s)) ∧
  view (put_caller t' (set_fs x s)) = (x, cwd_str t, Sched.fds t').
Proof.
  intros R Hcw Hf Hvt Hx Hp. pose proof R as [Hc _ _ _ _ _ Hm _ Hio]. set (s' := put_caller t' (set_fs x s)).
  assert (caller s' t') as Hc'.
  { unfold caller, s'. apply zget_zset_eq. change (0 ≤ current_idx (sc s) < zlen (threads (sc s))). by eapply zget_Some_lt. }
  assert (stdin_of s' = stdin_of s) as V.
  { unfold stdin_of. unfold caller in Hc, Hc'. rewrite Hc, Hc', Hvt. done. }
  split; [|split].
  - eapply running_next; try done. by eapply stdio_same.
  - by apply did_same.
  - rewrite (view_caller _ _ Hc'). unfold cwd_str. by rewrite Hcw.
Qed.
Lemma running_set_fs s t x :
  running s t → Tmpfs.fs_ok x → mem_ok (Tmpfs.pool x) →
  running (set_fs x s) t ∧ did [] [] s (set_fs x s) ∧ view (set_fs x s) = (x, cwd_str t, Sched.fds t).
Proof.
  intros R Hx Hp. pose proof R as [Hc Hcw Hf _ _ _ _ _ _].
  destruct (running_put s t t x) as (R' & D & V); try done.
  rewrite (put_caller_id (set_fs x s) t) in * by done. done.
Qed.

Lemma path_buf_string s a bs path :
  path_buf bs path → user_at s a bs → user_string s a path ∧ zlen path < 256 ∧
  zlen bs ≤ BUF_MAX ∧ Forall (λ b, 0 ≤ b < 2 ^ 8) bs.
Proof.
  intros (rest & -> & Hn & Hl & Hlen & Hb) Hu. split; [|done]. split; [done|].
  change (path ++ 0 :: rest) with (path ++ [0] ++ rest) in Hu. rewrite app_assoc in Hu. by apply user_at_app in Hu as [Hu _].
Qed.

Lemma find_first_ext (f g : Z → bool) lo hi : (∀ i, lo ≤ i < hi → f i = g i) → find_first f lo hi = find_first g lo hi.
Proof.
  intros Hfg. destruct (find_first g lo hi) as [i|] eqn:E.
  - apply find_first_Some in E as (Hr & Hi & Hb). apply find_first_Some. split; [done|].
    split; [by rewrite Hfg|]. intros j Hj. rewrite Hfg by lia. by apply Hb.
  - rewrite find_first_None in E. apply find_first_None. intros i Hi. rewrite Hfg by done. by apply E.
Qed.
Definition free_in (l : list Sched.ufd) : option Z :=
  find_first (λ i, match zget l i with Some d => node d <? 0 | None => false end) UFD_FIRST UFD_MAX.
Lemma free_fd_in t : free_fd t = free_in (Sched.fds t).
Proof. apply find_first_ext. intros i _. unfold fd_node. by destruct (zget (Sched.fds t) i). Qed.

Lemma wp_kernel_open s t bs path flags :
  running s t → path_buf bs path → - 2 ^ 31 ≤ flags < 2 ^ 31 →
  wp (trap_kernel Ulib.SYS_OPEN [Ulib.In bs; Ulib.Int flags]) (λ r s', did [] [] s s' ∧ process_ok s' ∧
    let '(nd, x) := open_node (fs s) (path_of (cwd_str t) path) flags in
    match free_in (Sched.fds t) with
    | Some fd =>
        if (0 <=? nd) && (Tmpfs.node_typ x nd =? Tmpfs.VN_FILE)
        then r = (fd, []) ∧ view s' = (x, cwd_str t, zset (Sched.fds t) fd (mkUfd nd 0))
        else r = (-1, []) ∧ view s' = (x, cwd_str t, Sched.fds t)
    | None => r = (-1, []) ∧ view s' = (x, cwd_str t, Sched.fds t)
    end) s.
Proof.
  intros R Hpath Hfl. apply (wp_trap _ _ _ t); [done|done| |].
  { pose proof Hpath as (rest & _ & _ & _ & Hlen & Hb). by fits_args. }
  intros s1 T R1 (Hu & _). destruct (path_buf_string s1 _ bs path Hpath Hu) as (Hs & Hl & _).
  set (f := trap_frame _ _). change (syscall_body zero_frame f) with (sys_open (P := P) f). unfold sys_open. wp_step.
  pose proof R1 as [Rc Rcw Rf _ Rx Rp _ _ _]. change (rdi f) with (slot 0). change (rsi f) with (u64 flags).
  wp_use (wp_path_arg s1 t (slot 0) path); [done|done|done|exact Hs|done|]. intros r s2 [-> ->]. cbv iota zeta.
  rewrite i32_of_u64 by done. wp_use (wp_open_path s1 t); [done|done|done|]. intros r s2.
  pose proof (pool_open_node (fs s1) (path_of (cwd_str t) path) flags Rp) as Hp.
  assert (fs s1 = fs s) as Efs by (by destruct T as (m' & -> & _)). rewrite Efs in *.
  destruct (open_node (fs s) (path_of (cwd_str t) path) flags) as [nd x]. cbn [snd] in Hp. intros [Hx Hcase].
  assert (s2 = set_fs x s1 → did [] [] s s2 ∧ process_ok s2 ∧ view s2 = (x, cwd_str t, Sched.fds t)) as Hrefused.
  { intros ->. destruct (running_set_fs s1 t x R1 Hx Hp) as (R2 & D & V).
    split; [by eapply did_after|]. split; [by exists t|done]. }
  rewrite free_fd_in in Hcase. destruct (free_in (Sched.fds t)) as [fd|] eqn:Hfd; [destruct (_ && _)|].
  - destruct Hcase as [-> ->]. apply find_first_Some in Hfd as (Hr & _). unfold UFD_FIRST, UFD_MAX in Hr.
    destruct (running_put s1 t (set_fd fd (mkUfd nd 0) t) x) as (R2 & D & V); [done|done| |done|done|done|].
    { cbn [Sched.fds set_fd with_fds]. by rewrite zlen_zset. }
    exists fd. split; [done|]. split; [lia|]. cbn [take_outs]. wp_run.
    split; [by eapply did_after|]. split; [by eexists|done].
  - destruct Hcase as [-> Hs2]. destruct (Hrefused Hs2) as (D & R2 & V). exists (-1). split; [done|]. split; [lia|].
    cbn [take_outs]. by wp_run.
  - destruct Hcase as [-> Hs2]. destruct (Hrefused Hs2) as (D & R2 & V). exists (-1). split; [done|]. split; [lia|].
    cbn [take_outs]. by wp_run.
Qed.
End files.

Section reading.
Context {P : Type} `{PageAllocatorLaws P} `{PageCounter P}.
Implicit Types s : kern P.

Lemma user_at_over s a old new m' :
  user_at s a old → wrote s a new m' → zlen new ≤ zlen old →
  (∀ x, a ≤ x < a + zlen old → UserMem.low_half x) →
  user_at (set_mem m' s) a (new ++ drop (length new) old).
Proof.
  intros Hu W Hl Hlow i b Hb. pose proof (zlen_nonneg new) as Hn0.
  assert (zlen (new ++ drop (length new) old) = zlen old) as Hlen.
  { rewrite zlen_app. unfold zlen in *. rewrite length_drop. lia. }
  pose proof (zget_Some_lt _ _ _ Hb) as Hi. rewrite Hlen in Hi.
  change (mem (set_mem m' s)) with m'. change (active_space (set_mem m' s)) with (active_space s).
  rewrite (wr_bytes _ _ _ _ (a + i) W) by (apply Hlow; lia). rewrite Z.add_simpl_l.
  destruct (Z.lt_ge_cases i (zlen new)) as [Hin|Hout].
  - rewrite zget_app_l in Hb by done. by rewrite Hb.
  - rewrite (proj2 (zget_None _ _)) by lia. apply Hu.
    rewrite zget_app_r in Hb by lia. replace (length new) with (Z.to_nat (zlen new)) in Hb by (unfold zlen; lia).
    rewrite zget_drop in Hb by lia. by replace (zlen new + (i - zlen new)) with i in Hb by lia.
Qed.
Lemma slot_low s t i n x : running s t → 0 ≤ i < 3 → n ≤ PAGE_SIZE → slot i ≤ x < slot i + n → UserMem.low_half x.
Proof.
  intros R Hi Hn Hx. apply (rn_stack _ _ R). unfold slot, PAGE_SIZE in *. lia.
Qed.
Lemma slot_writable s t i n : running s t → 0 ≤ i < 3 → n ≤ PAGE_SIZE → writable s (slot i) n.
Proof.
  intros R Hi Hn. eapply writable_sub; [apply (rn_stack _ _ R)| |]; unfold slot, PAGE_SIZE in *; lia.
Qed.

(** The descriptor [fd] of the caller. *)
Definition has_fd (t : thread) (fd nd pos : Z) : Prop :=
  UFD_FIRST ≤ fd < UFD_MAX ∧ zget (Sched.fds t) fd = Some (mkUfd nd pos) ∧ 0 ≤ nd.
Lemma has_fd_open t fd nd pos : has_fd t fd nd pos → open_at t fd (mkUfd nd pos).
Proof. intros (Hr & Hg & Hn). by split. Qed.
Lemma fd_reg fd : UFD_FIRST ≤ fd < UFD_MAX → i32 (u64 fd) = fd.
Proof. intros Hr. unfold UFD_FIRST, UFD_MAX in Hr. apply i32_of_u64. lia. Qed.

Lemma running_fd s t fd u x :
  running s t → Tmpfs.fs_ok x → mem_ok (Tmpfs.pool x) →
  let s' := put_caller (set_fd fd u t) (set_fs x s) in
  process_ok s' ∧ did [] [] s s' ∧ view s' = (x, cwd_str t, zset (Sched.fds t) fd u).
Proof.
  intros R Hx Hp. destruct (running_put s t (set_fd fd u t) x) as (R' & D & V); try done.
  - cbn [Sched.fds set_fd with_fds]. rewrite zlen_zset. apply R.
  - cbv zeta. split; [by eexists|done].
Qed.

Lemma wp_kernel_read s t fd nd pos data buf :
  running s t → has_fd t fd nd pos → 0 ≤ pos < 2 ^ 63 → Tmpfs.file_data (fs s) nd = Some data →
  zlen buf ≤ BUF_MAX → Forall (λ b, 0 ≤ b < 2 ^ 8) buf →
  let got := slice pos (Z.min (zlen buf) (zlen data - pos)) data in
  wp (trap_kernel Ulib.SYS_READ [Ulib.Int fd; Ulib.Out buf; Ulib.Int (zlen buf)]) (λ r s',
    r = (zlen got, [got ++ drop (length got) buf]) ∧ did [] [] s s' ∧ process_ok s' ∧
    view s' = (fs s, cwd_str t, zset (Sched.fds t) fd (mkUfd nd (pos + zlen got)))) s.
Proof.
  intros R Hfd Hpos Hd Hlen Hb got. pose proof (zlen_nonneg buf) as Hl0. unfold BUF_MAX in Hlen.
  pose proof Hfd as (Hr & _). unfold UFD_FIRST, UFD_MAX in Hr.
  assert (zlen got ≤ zlen buf) as Hgot.
  { unfold got, slice, zlen in *. rewrite length_take, length_drop. lia. }
  pose proof (zlen_nonneg got). apply (wp_trap _ _ _ t); [done|done|by fits_args|].
  intros s1 T R1 (_ & Hu & _). change (arg_bytes _ (Ulib.Out buf)) with buf in Hu.
  assert (fs s1 = fs s) as Efs by (by destruct T as (m' & -> & _)).
  set (f := trap_frame _ _). change (syscall_body zero_frame f) with (sys_read (P := P) f). unfold sys_read.
  change (rdi f) with (u64 fd). change (rsi f) with (slot 1). change (rdx f) with (u64 (zlen buf)).
  rewrite (fd_reg fd) by done. rewrite (u64_id (zlen buf)) by lia.
  change (bad_uaddr (slot 1)) with false. rewrite (proj2 (Z.eqb_neq fd 0)) by lia. cbv iota zeta.
  wp_step. eapply wp_current; [apply R1|]. wp_step. eapply wp_fd_get; [by apply has_fd_open|].
  wp_use (wp_read_transfer s1 t fd (mkUfd nd pos) data (slot 1) (zlen buf));
    [apply R1|apply R1|by apply has_fd_open|simpl; lia|by rewrite Efs| |lia|apply R1| |].
  { eapply pool_contents; [apply (rn_pool _ _ R)|done]. }
  { eapply slot_writable; [exact R1|done|]. cbn [Sched.pos]. fold got. unfold PAGE_SIZE. lia. }
  intros r s2 (-> & m' & W & ->). cbn [Sched.pos Sched.node] in *. fold got in W |- *.
  pose proof (touched_wrote _ _ _ _ W) as T2. pose proof (running_touched _ _ _ R1 T2) as R2.
  destruct (running_fd (set_mem m' s1) t fd (mkUfd nd (pos + zlen got)) (fs s) R2) as (R3 & D & V); [apply R|apply R|].
  assert (put_caller (advance fd (mkUfd nd pos) (zlen got) t) (set_mem m' s1) =
    put_caller (set_fd fd (mkUfd nd (pos + zlen got)) t) (set_fs (fs s) (set_mem m' s1))) as ->.
  { rewrite <- Efs. by destruct s1. }
  exists (zlen got). split; [done|]. split; [lia|]. cbn [take_outs]. wp_run.
  assert (∀ x, slot 1 ≤ x < slot 1 + zlen buf → UserMem.low_half x) as Hlow.
  { intros x. apply (slot_low s1 t); [exact R1|done|unfold PAGE_SIZE; lia]. }
  wp_use wp_uread_bytes; [exact (user_at_over s1 (slot 1) buf got m' Hu W Hgot Hlow)| |].
  { rewrite length_app, length_drop. unfold zlen in *. lia. }
  intros bs s3 [-> ->]. wp_run. split; [done|]. split; [|done].
  eapply did_after; [exact T|]. by eapply did_after.
Qed.
End reading.

Section writing.
Context {P : Type} `{PageAllocatorLaws P} `{PageCounter P}.
Implicit Types s : kern P.

Lemma fs_touched s s' : touched s s' → fs s' = fs s.
Proof. by intros (m' & -> & _). Qed.

Lemma write_spec_pos (x : Tmpfs.tmpfs) id o buf old :
  Tmpfs.fs_ok x → Tmpfs.file_data x id = Some old → 0 < (Tmpfs.write_spec x id o buf).1 → o ≤ zlen old.
Proof.
  intros Hok Hold Hpos. unfold Tmpfs.write_spec in Hpos. unfold Tmpfs.file_data in Hold.
  destruct (Tmpfs.is_file x id) as [d|] eqn:Hd; [|done]. injection Hold as <-.
  pose proof (Tmpfs.is_file_ok _ _ _ Hok Hd) as (_ & _ & Hsz & _). unfold Tmpfs.contents.
  rewrite zlen_load_bytes by done. destruct (Z.ltb_spec (Tmpfs.size d) o); [done|lia].
Qed.

Lemma wp_kernel_fwrite s t fd nd pos old data :
  running s t → has_fd t fd nd pos → 0 ≤ pos → Tmpfs.file_data (fs s) nd = Some old →
  zlen data ≤ BUF_MAX → Forall (λ b, 0 ≤ b < 2 ^ 8) data →
  wp (trap_kernel Ulib.SYS_WRITE [Ulib.Int fd; Ulib.In data; Ulib.Int (zlen data)]) (λ r s',
    did [] [] s s' ∧ process_ok s' ∧
    let '(n, x) := Tmpfs.write_spec (fs s) nd pos data in
    r = (n, []) ∧ view s' = (x, cwd_str t, if 0 <? n then zset (Sched.fds t) fd (mkUfd nd (pos + n)) else Sched.fds t)) s.
Proof.
  intros R Hfd Hpos Hold Hlen Hb. pose proof (zlen_nonneg data) as Hl0. unfold BUF_MAX in Hlen.
  apply (wp_trap _ _ _ t); [done|done|by fits_args|].
  intros s1 T R1 (_ & Hu & _). change (arg_bytes _ (Ulib.In data)) with data in Hu.
  eapply (wp_write_fd s1 t _ fd (mkUfd nd pos) data); [apply R1|by apply fd_reg, Hfd|by apply has_fd_open| |lia|exact Hu|done|].
  { change (rdx _) with (u64 (zlen data)). apply u64_id. lia. }
  wp_step. apply wp_fs_call. rewrite (fs_touched s s1) by done. cbn [Sched.node Sched.pos].
  wp_use Tmpfs.wp_node_write; [apply R|done|unfold Tmpfs.buf_ok; lia|]. intros n x Heq.
  pose proof (Tmpfs.write_spec_ok (fs s) nd pos data old (rn_fs _ _ R) Hpos Hold) as Hok.
  pose proof (pool_write_spec (fs s) nd pos data (rn_pool _ _ R) Hb) as Hp.
  pose proof (write_spec_pos (fs s) nd pos data old (rn_fs _ _ R) Hold) as Hend.
  pose proof (Tmpfs.file_data_len _ _ _ (rn_fs _ _ R) Hold) as Hmax.
  rewrite <- Heq in Hok, Hp, Hend |- *. destruct Hok as (Hx & _ & Hn). cbn [fst snd] in *.
  assert (n = -1 ∨ n = zlen data) as Hcase by (destruct Hn as [[-> _]|[-> _]]; auto).
  rewrite Z.gtb_ltb. destruct (Z.ltb_spec 0 n) as [Hpos'|Hneg].
  - rewrite u64_id by (unfold Tmpfs.TN_POOL in *; lia). wp_step. eapply wp_update_current; [apply R1|].
    destruct (running_fd s1 t fd (mkUfd nd (pos + n)) x R1 Hx Hp) as (R2 & D & V).
    wp_run. exists n. split; [done|]. split; [lia|]. cbn [take_outs]. wp_run.
    split; [by eapply did_after|done].
  - destruct (running_set_fs s1 t x R1 Hx Hp) as (R2 & D & V). wp_run. exists n. split; [done|]. split; [lia|].
    cbn [take_outs]. wp_run. split; [by eapply did_after|]. split; [by exists t|done].
Qed.

Lemma wp_kernel_close s t fd nd pos :
  running s t → UFD_FIRST ≤ fd < UFD_MAX → zget (Sched.fds t) fd = Some (mkUfd nd pos) →
  wp (trap_kernel Ulib.SYS_CLOSE [Ulib.Int fd]) (λ r s', r = (0, []) ∧ did [] [] s s' ∧ process_ok s' ∧
    view s' = (fs s, cwd_str t, zset (Sched.fds t) fd (mkUfd (-1) pos))) s.
Proof.
  intros R Hr Hg. apply (wp_trap _ _ _ t); [done|done|by fits_args|].
  intros s1 T R1 _. set (f := trap_frame _ _). change (syscall_body zero_frame f) with (sys_close (P := P) f).
  unfold sys_close. change (rdi f) with (u64 fd). rewrite (fd_reg fd) by done.
  rewrite (proj2 (Z.leb_le _ fd)), (proj2 (Z.ltb_lt fd _)) by lia. cbn [andb negb].
  wp_step. eapply wp_current; [apply R1|]. wp_step. apply wp_of_option. eexists. split; [exact Hg|].
  wp_step. eapply wp_update_current; [apply R1|]. cbn [Sched.pos].
  destruct (running_fd s1 t fd (mkUfd (-1) pos) (fs s) R1) as (R2 & D & V); [apply R|apply R|].
  assert (put_caller (set_fd fd (mkUfd (-1) pos) t) (set_fs (fs s) s1) = put_caller (set_fd fd (mkUfd (-1) pos) t) s1) as E.
  { rewrite <- (fs_touched s s1) by done. by destruct s1. }
  rewrite E in *. wp_run. exists 0. split; [done|]. split; [lia|]. cbn [take_outs]. wp_run.
  split; [done|]. split; [by eapply did_after|done].
Qed.
End writing.

Section stat.
Context {P : Type} `{PageAllocatorLaws P} `{PageCounter P}.
Implicit Types s : kern P.

(** The size and the type of a node, as [stat] stores them. *)
Definition stat_bytes (sz ty : Z) (st : list Z) : list Z :=
  le_bytes 8 sz ++ le_bytes 4 ty ++ drop 12 st.

Lemma stat_bytes_ok sz ty st :
  zlen st = 16 → Forall (λ b, 0 ≤ b < 2 ^ 8) st → 0 ≤ ty < 2 ^ 32 →
  zlen (stat_bytes sz ty st) = 16 ∧ Forall (λ b, 0 ≤ b < 2 ^ 8) (stat_bytes sz ty st) ∧
  Ulib.st_typ (Ulib.ustat_of (stat_bytes sz ty st)) = ty.
Proof.
  intros Hl Hb Hty. destruct (Spawn.le_bytes_ok 8 sz) as [L8 B8], (Spawn.le_bytes_ok 4 ty) as [L4 B4].
  unfold stat_bytes. split; [|split].
  - rewrite !zlen_app, L8, L4. change 12%nat with (Z.to_nat 12). rewrite zlen_drop by lia. lia.
  - apply Forall_app. split; [done|]. apply Forall_app. split; [done|by apply Forall_drop].
  - cbn [Ulib.st_typ Ulib.ustat_of]. unfold Ulib.field. change (Z.to_nat 4) with 4%nat.
    rewrite (load_le_ext 4 _ (store_le 4 (λ _, 0) 8 ty)).
    { rewrite load_store_le. by apply Z.mod_small. }
    intros x Hx. unfold store_bytes. rewrite Z.sub_0_r.
    rewrite zget_app_r, zget_app_l by (rewrite ?L8, ?L4; lia). rewrite L8. unfold le_bytes.
    rewrite zget_load_bytes by lia. unfold store_le. rewrite !(proj2 (Z.leb_le _ _)), !(proj2 (Z.ltb_lt _ _)) by lia.
    cbn [andb]. do 3 f_equal. lia.
Qed.

Lemma wp_node_size (x : Tmpfs.tmpfs) id : Tmpfs.fs_ok x → wp (Tmpfs.node_size id) (λ _ x', x' = x) x.
Proof.
  intros Hok. unfold Tmpfs.node_size. destruct (_ || _) eqn:E; [by wp_run|].
  apply orb_false_iff in E as [E1%Z.ltb_ge E2]. rewrite Z.geb_leb in E2. apply Z.leb_gt in E2.
  destruct (Tmpfs.node_at x id Hok) as [d Hd]; [lia|]. wp_step. apply wp_aget. exists d. split; [done|]. by wp_run.
Qed.

Lemma wp_stat_bytes s t sz id st :
  running s t → user_at s (slot 1) st → zlen st = 16 →
  let ty := Tmpfs.node_typ (fs s) id in
  wp (uwrite_bytes (slot 1) (le_bytes 8 sz);;
      ty ← fs_call (Tmpfs.node_type id);
      uwrite_bytes (slot 1 + 8) (le_bytes 4 ty);;
      mret (Ret 0))
    (λ r s', r = Ret 0 ∧ touched s s' ∧ user_at s' (slot 1) (stat_bytes sz ty st)) s.
Proof.
  intros R Hu Hl ty. destruct (Spawn.le_bytes_ok 8 sz) as [L8 B8], (Spawn.le_bytes_ok 4 ty) as [L4 B4].
  assert (∀ x, slot 1 ≤ x < slot 1 + PAGE_SIZE → UserMem.low_half x) as Hlow.
  { intros x. by apply (slot_low s t). }
  pose proof (slot_writable s t 1 PAGE_SIZE R ltac:(done) ltac:(done)) as Hw. unfold PAGE_SIZE in Hlow, Hw.
  wp_step. wp_use wp_uwrite_bytes; [apply R|eapply writable_sub; [exact Hw|lia|lia]|done|].
  intros [] s1 (m1 & -> & W1). pose proof (touched_wrote _ _ _ _ W1) as T1.
  pose proof (user_at_over s (slot 1) st _ m1 Hu W1) as U1.
  wp_step. apply wp_fs_call. wp_use wp_node_type; [apply R|]. intros r x [-> ->].
  change (set_fs (fs (set_mem m1 s)) (set_mem m1 s)) with (set_mem m1 s).
  change (Tmpfs.node_typ (fs (set_mem m1 s)) id) with ty.
  wp_step. wp_use wp_uwrite_bytes; [by eapply wr_ok|eapply touched_writable; [exact T1|eapply writable_sub; [exact Hw|lia|lia]]|done|].
  intros [] s2 (m2 & -> & W2). wp_run. split; [done|]. split; [eapply touched_trans; [exact T1|by eapply touched_wrote]|].
  assert (user_at (set_mem m1 s) (slot 1) (le_bytes 8 sz ++ drop (length (le_bytes 8 sz)) st)) as Hall.
  { apply U1; [lia|]. intros x Hx. apply Hlow. lia. }
  apply user_at_app in Hall as [Ha Hb]. rewrite L8 in Hb. unfold stat_bytes. apply user_at_app. rewrite L8. split.
  - eapply (user_at_below (set_mem m1 s) _ _ _ (slot 1 + 8)); [exact Ha| | |lia].
    + intros x Hx Hlt. change (mem (set_mem m2 _)) with m2. change (active_space (set_mem m2 _)) with (active_space s).
      change (active_space s) with (active_space (set_mem m1 s)). rewrite (wr_bytes _ _ _ _ x W2) by done.
      by rewrite (proj2 (zget_None _ _)) by lia.
    + intros x Hx. apply Hlow. lia.
  - assert (length (le_bytes 8 sz) = 8%nat ∧ length (le_bytes 4 ty) = 4%nat) as [E8 E4] by (unfold zlen in *; lia).
    rewrite E8 in Hb. assert (zlen (drop 8 st) = 8) as Hd8 by (change 8%nat with (Z.to_nat 8); rewrite zlen_drop by lia; lia).
    pose proof (user_at_over (set_mem m1 s) (slot 1 + 8) (drop 8 st) _ m2 Hb W2) as U2.
    rewrite E4, drop_drop in U2. apply U2; [lia|]. intros x Hx. apply Hlow. lia.
Qed.

Lemma node_typ_small (x : Tmpfs.tmpfs) nd : Tmpfs.fs_ok x → 0 ≤ Tmpfs.node_typ x nd < 2 ^ 32.
Proof.
  intros Hok. unfold Tmpfs.node_typ. destruct (zget (Tmpfs.nodes x) nd) as [d|] eqn:Hd; [|done].
  by destruct (Tmpfs.no_typ _ (Tmpfs.ok_node _ Hok _ _ Hd)) as [-> | [-> | ->]].
Qed.

Lemma wp_kernel_stat s t bs path st :
  running s t → path_buf bs path → zlen st = 16 → Forall (λ b, 0 ≤ b < 2 ^ 8) st →
  wp (trap_kernel Ulib.SYS_STAT [Ulib.In bs; Ulib.Out st]) (λ r s', did [] [] s s' ∧ process_ok s' ∧ view s' = view s ∧
    let nd := Tmpfs.resolve_spec (fs s) (path_of (cwd_str t) path) in
    if nd <? 0 then r = (-1, [st])
    else ∃ st', r = (0, [st']) ∧ zlen st' = 16 ∧ Forall (λ b, 0 ≤ b < 2 ^ 8) st' ∧
      Ulib.st_typ (Ulib.ustat_of st') = Tmpfs.node_typ (fs s) nd) s.
Proof.
  intros R Hpath Hlen Hb. apply (wp_trap _ _ _ t); [done|done| |].
  { pose proof Hpath as (rest & _ & _ & _ & Hbl & Hbb). fits_args; first [done|unfold BUF_MAX; lia]. }
  intros s1 T R1 (Hu & Hu1 & _). change (arg_bytes _ (Ulib.Out st)) with st in Hu1.
  destruct (path_buf_string s1 _ bs path Hpath Hu) as (Hs & Hl & _).
  set (f := trap_frame _ _). change (syscall_body zero_frame f) with (sys_stat (P := P) f). unfold sys_stat.
  change (rdi f) with (slot 0). change (rsi f) with (slot 1). change (bad_uaddr (slot 1)) with false. cbv iota.
  pose proof R1 as [Rc Rcw _ _ Rx _ _ _ _]. wp_step. wp_use wp_path_arg; [done|done|done|exact Hs|done|].
  intros r s2 [-> ->]. cbv iota. wp_step. apply wp_fs_call. wp_use Tmpfs.wp_resolve; [done|]. intros nd x [-> ->].
  rewrite set_fs_id, (fs_touched s s1) by done. cbv zeta. set (nd := Tmpfs.resolve_spec _ _).
  destruct (nd <? 0).
  { wp_run. exists (-1). split; [done|]. split; [lia|]. cbn [take_outs]. wp_run.
    wp_use wp_uread_bytes; [exact Hu1|done|]. intros out s3 [-> ->]. wp_run.
    split; [by apply did_touched|]. split; [by exists t|]. split; [by apply view_touched|done]. }
  wp_step. apply wp_fs_call. wp_use wp_node_size; [done|]. intros sz x ->. rewrite set_fs_id.
  wp_use (wp_stat_bytes s1 t sz nd st); [done|exact Hu1|done|]. intros r s2 (-> & T2 & U2).
  rewrite (fs_touched s s1) in U2 by done.
  destruct (stat_bytes_ok sz (Tmpfs.node_typ (fs s) nd) st Hlen Hb) as (L & B & E); [apply node_typ_small, R|].
  pose proof (touched_trans _ _ _ T T2) as T3. exists 0. split; [done|]. split; [lia|]. cbn [take_outs]. wp_run.
  wp_use wp_uread_bytes; [exact U2|unfold zlen in *; lia|]. intros out s3 [-> ->]. wp_run.
  split; [by apply did_touched|]. split; [exists t; by eapply running_touched|]. split; [by apply view_touched|].
  by exists (stat_bytes sz (Tmpfs.node_typ (fs s) nd) st).
Qed.
End stat.

Section getcwd.
Context {P : Type} `{PageAllocatorLaws P} `{PageCounter P}.
Implicit Types s : kern P.

Lemma cwd_str_text t : Forall (λ b, 0 ≤ b < 2 ^ 8) (cwd t) →
  Forall (λ b, 0 ≤ b < 2 ^ 8) (cwd_str t) ∧ utf8_valid (cwd_str t) = true.
Proof.
  intros Hb. unfold cwd_str, str_or. destruct (utf8_valid (c_str (cwd t))) eqn:Hv; [|by repeat constructor].
  split; [|done]. by apply Forall_take, Forall_drop.
Qed.

Lemma wp_kernel_getcwd s t buf :
  running s t → 0 < zlen buf ≤ BUF_MAX → Forall (λ b, 0 ≤ b < 2 ^ 8) buf →
  wp (trap_kernel Ulib.SYS_GETCWD [Ulib.Out buf; Ulib.Int (zlen buf)]) (λ r s',
    did [] [] s s' ∧ process_ok s' ∧ view s' = view s ∧
    let text := cwd_str t ++ [0] in
    if zlen buf <? zlen text then r = (-1, [buf])
    else r = (zlen text, [text ++ drop (length text) buf])) s.
Proof.
  intros R Hlen Hb. unfold BUF_MAX in Hlen. apply (wp_trap _ _ _ t); [done|done| |].
  { fits_args; first [done|unfold BUF_MAX; lia]. }
  intros s1 T R1 (Hu & _). change (arg_bytes _ (Ulib.Out buf)) with buf in Hu.
  destruct (cwd_str_text t (rn_dir _ _ R)) as [Hcb _]. pose proof (zlen_nonneg (cwd_str t)).
  set (f := trap_frame _ _). change (syscall_body zero_frame f) with (sys_getcwd (P := P) f). unfold sys_getcwd.
  change (rdi f) with (slot 0). change (rsi f) with (u64 (zlen buf)). rewrite u64_id by lia.
  change (bad_uaddr (slot 0)) with false. rewrite (proj2 (Z.eqb_neq _ 0)) by lia. cbn [orb].
  wp_step. eapply wp_current; [apply R1|]. cbv zeta. set (dir := cwd_str t) in *. rewrite zlen_app. change (zlen [0]) with 1.
  rewrite Z.gtb_ltb. destruct (Z.ltb_spec (zlen buf) (zlen dir + 1)) as [Hlong|Hfit].
  { wp_run. exists (-1). split; [done|]. split; [lia|]. cbn [take_outs]. wp_run.
    wp_use wp_uread_bytes; [exact Hu|done|]. intros out s3 [-> ->]. wp_run.
    split; [by apply did_touched|]. split; [by exists t|]. split; [by apply view_touched|done]. }
  assert (∀ x, slot 0 ≤ x < slot 0 + PAGE_SIZE → UserMem.low_half x) as Hlow by (intros x; by apply (slot_low s t)).
  pose proof (slot_writable s1 t 0 PAGE_SIZE R1 ltac:(done) ltac:(done)) as Hw. unfold PAGE_SIZE in Hlow, Hw.
  wp_step. wp_use wp_uwrite_bytes; [apply R1|eapply writable_sub; [exact Hw|lia|lia]|done|].
  intros [] s2 (m1 & -> & W1). wp_step.
  wp_use wp_uwrite; [by eapply wr_ok| |done|].
  { eapply writable_set_mem; [exact W1|]. eapply writable_sub; [exact Hw|lia|lia]. }
  intros [] s3 (m2 & -> & W2).
  assert (wrote s1 (slot 0) (dir ++ [0]) m2) as W by (by eapply UserMem.poked_app).
  change (set_mem m2 (set_mem m1 s1)) with (set_mem m2 s1). pose proof (touched_wrote _ _ _ _ W) as T2.
  pose proof (touched_trans _ _ _ T T2) as T3. wp_run. exists (zlen dir + 1). split; [done|]. split; [lia|].
  cbn [take_outs]. wp_run. assert (zlen (dir ++ [0]) = zlen dir + 1) as Hd by (by rewrite zlen_app).
  wp_use wp_uread_bytes; [eapply user_at_over; [exact Hu|exact W|lia|intros x Hx; apply Hlow; lia]| |].
  { rewrite length_app, length_drop. unfold zlen in *. lia. }
  intros out s4 [-> ->]. wp_run. split; [by apply did_touched|]. split; [exists t; by eapply running_touched|].
  split; [by apply view_touched|done].
Qed.
End getcwd.

(** ** The kernel keeps its promises *)
Section instances.
Context {P : Type} `{PageAllocatorLaws P} `{PageCounter P}.
Implicit Types s : kern P.

#[export] Instance kernel_stdio : StdioLaws (kern P).
Proof.
  refine {| live := process_ok; input := keys; acts := did; files := view;
            acts_nil := did_nil; acts_app := did_app; acts_input := di_keys |}.
  - intros s [t R]. apply (rn_stdio _ _ R).
  - intros s fd bs [t R] Hfd Hl Hb. wp_use wp_kernel_write; [exact R|done|done|done|].
    intros r s' (-> & D & R' & V). split; [done|]. split; [done|]. split; [by exists t|done].
  - intros s c cs [t R] Hk. wp_use wp_kernel_read_key; [exact R|exact Hk|].
    intros r s' (-> & D & R' & V). split; [done|]. split; [done|]. split; [by exists t|done].
Defined.

Lemma files_of s t : running s t → tree s = fs s ∧ UserApi.cwd s = cwd_str t ∧ UserApi.fds s = Sched.fds t.
Proof.
  intros R. pose proof (view_caller s t (rn_caller _ _ R)) as V.
  unfold tree, UserApi.cwd, UserApi.fds. change (files s) with (view s). by rewrite V.
Qed.
Lemma fd_at_has s t fd nd pos : running s t → fd_at s fd nd pos → has_fd t fd nd pos.
Proof. intros R. unfold fd_at. by destruct (files_of s t R) as (_ & _ & ->). Qed.

#[export] Instance kernel_files : FileLaws (kern P).
Proof.
  split.
  - intros s [t R]. destruct (files_of s t R) as (-> & _). apply R.
  - intros s nd data [t R]. destruct (files_of s t R) as (-> & _). intros Hd. by eapply pool_contents; [apply (rn_pool _ _ R)|].
  - intros s [t R]. destruct (files_of s t R) as (_ & -> & _). apply cwd_str_nul_free.
  - intros s [t R]. destruct (files_of s t R) as (_ & -> & _). apply cwd_str_text, R.
  - intros s bs path flags [t R] Hp Hf. unfold lowest_fd. destruct (files_of s t R) as (-> & -> & ->).
    by apply wp_kernel_open.
  - intros s fd nd pos data buf [t R] Hfd%(fd_at_has s t); [|done]. destruct (files_of s t R) as (-> & -> & ->).
    intros. by apply wp_kernel_read.
  - intros s fd nd pos old data [t R] Hfd%(fd_at_has s t); [|done]. destruct (files_of s t R) as (-> & -> & ->).
    intros. by eapply wp_kernel_fwrite.
  - intros s fd nd pos [t R] Hfd%(fd_at_has s t); [|done]. destruct (files_of s t R) as (-> & -> & ->).
    destruct Hfd as (Hr & Hg & _). by eapply wp_kernel_close.
  - intros s buf [t R] Hl Hb. destruct (files_of s t R) as (_ & -> & _). by apply wp_kernel_getcwd.
  - intros s bs path st [t R] Hp Hl Hb. unfold node_of. destruct (files_of s t R) as (-> & -> & _).
    by apply wp_kernel_stat.
Qed.
End instances.
End UserSys.
