(* ===== verification/FileApi.v ===== *)
(** * The file calls as one abstract machine

    [api_step] says what every call on files answers and how it changes the
    file system, the caller's directory and its descriptors, errors included;
    the calls of the user library on the kernel do just that, in any sequence. *)
From S2P Require Import Prelude Lines PageAlloc Pmm Mem Vmm UserMem Tmpfs Sched Ring Vterm Kbd.
From S2P Require Import Kernel ShellSpec Syscall SyscallSpec Ulib UserApi UserSys.

Module FileApi.
Import UserApi Lines Sched Kernel Syscall SyscallSpec ShellSpec UserSys.

(** ** The machine *)
Definition fstate : Type := Tmpfs.tmpfs * list Z * list Sched.ufd.
Inductive fcall :=
  | COpen (path : list Z) (flags : Z)
  | CClose (fd : Z)
  | CRead (fd : Z) (buf : list Z)
  | CWrite (fd : Z) (data : list Z)
  | CMkdir (path : list Z)
  | CUnlink (path : list Z)
  | CRename (old new : list Z).

Definition open_fd (l : list Sched.ufd) (fd : Z) : option Sched.ufd :=
  if (UFD_FIRST <=? fd) && (fd <? UFD_MAX) then
    match zget l fd with
    | Some d => if node d <? 0 then None else Some d
    | None => None
    end
  else None.
Definition move (l : list Sched.ufd) (fd : Z) (d : Sched.ufd) (n : Z) : list Sched.ufd :=
  if 0 <? n then zset l fd (mkUfd (node d) (pos d + n)) else l.

(** The answer, the buffer afterwards, and the new state. *)
Definition api_step (c : fcall) (s : fstate) : (Z * list Z) * fstate :=
  let '(x, dir, l) := s in
  match c with
  | COpen path flags =>
      let '(nd, x') := open_node x (path_of dir path) flags in
      match free_in l with
      | Some fd =>
          if (0 <=? nd) && (Tmpfs.node_typ x' nd =? Tmpfs.VN_FILE)
          then ((fd, []), (x', dir, zset l fd (mkUfd nd 0))) else ((-1, []), (x', dir, l))
      | None => ((-1, []), (x', dir, l))
      end
  | CClose fd =>
      if (UFD_FIRST <=? fd) && (fd <? UFD_MAX) then
        ((0, []), (x, dir, zset l fd (mkUfd (-1) (match zget l fd with Some d => pos d | None => 0 end))))
      else ((-1, []), s)
  | CRead fd buf =>
      match open_fd l fd with
      | Some d => let '(n, out) := Tmpfs.read_spec x (node d) (pos d) buf in ((n, out), (x, dir, move l fd d n))
      | None => ((-1, buf), s)
      end
  | CWrite fd data =>
      match open_fd l fd with
      | Some d => let '(n, x') := Tmpfs.write_spec x (node d) (pos d) data in ((n, []), (x', dir, move l fd d n))
      | None => ((-1, []), s)
      end
  | CMkdir path => let '(r, x') := Tmpfs.mkdir_spec x (path_of dir path) in ((r, []), (x', dir, l))
  | CUnlink path => let '(r, x') := Tmpfs.unlink_spec x (path_of dir path) in ((r, []), (x', dir, l))
  | CRename old new =>
      let '(r, x') := Tmpfs.rename_spec x (path_of dir old) (path_of dir new) in ((r, []), (x', dir, l))
  end.
Fixpoint api_run (cs : list fcall) (s : fstate) : list (Z * list Z) * fstate :=
  match cs with
  | [] => ([], s)
  | c :: cs => let '(a, s) := api_step c s in let '(rest, s) := api_run cs s in (a :: rest, s)
  end.

(** ** The calls of the user library *)
Section calls.
Context {U : Type} `{Ulib.Os U}.
Definition issue (c : fcall) : M U (Z * list Z) :=
  match c with
  | COpen path flags => r ← Ulib.open (Ulib.cstr 256 path) flags; mret (r, [])
  | CClose fd => r ← Ulib.close fd; mret (r, [])
  | CRead fd buf => Ulib.read fd buf
  | CWrite fd data => r ← Ulib.write fd data; mret (r, [])
  | CMkdir path => r ← Ulib.mkdir (Ulib.cstr 256 path); mret (r, [])
  | CUnlink path => r ← Ulib.unlink (Ulib.cstr 256 path); mret (r, [])
  | CRename old new => r ← Ulib.rename (Ulib.cstr 256 old) (Ulib.cstr 256 new); mret (r, [])
  end.
Fixpoint issue_all (cs : list fcall) : M U (list (Z * list Z)) :=
  match cs with
  | [] => mret []
  | c :: cs => a ← issue c; rest ← issue_all cs; mret (a :: rest)
  end.
End calls.

Definition bytes_ok (l : list Z) : Prop := Forall (λ b, 0 ≤ b < 2 ^ 8) l.
Definition path_ok (p : list Z) : Prop := nul_free p ∧ zlen p < 256 ∧ bytes_ok p.
Definition buffer_ok (l : list Z) : Prop := zlen l ≤ BUF_MAX ∧ bytes_ok l.
Definition int_ok (v : Z) : Prop := - 2 ^ 31 ≤ v < 2 ^ 31.
(** Descriptors 0 to 2 are the terminal's. *)
Definition call_ok (c : fcall) : Prop :=
  match c with
  | COpen p flags => path_ok p ∧ int_ok flags
  | CClose fd => int_ok fd
  | CRead fd buf => int_ok fd ∧ fd ≠ 0 ∧ buffer_ok buf
  | CWrite fd data => int_ok fd ∧ fd ≠ 1 ∧ fd ≠ 2 ∧ buffer_ok data
  | CMkdir p | CUnlink p => path_ok p
  | CRename p q => path_ok p ∧ path_ok q
  end.
(** Descriptors are positioned in what a file can hold. *)
Definition positions_ok (l : list Sched.ufd) : Prop :=
  Forall (λ d, 0 ≤ pos d ≤ Tmpfs.TN_POOL) l.

#[export] Instance call_ok_dec c : Decision (call_ok c).
Proof. destruct c; unfold call_ok, path_ok, buffer_ok, bytes_ok, int_ok, nul_free; apply _. Defined.

(** ** The kernel's calls, errors included *)
Section kernel.
Context {P : Type} `{PageAllocatorLaws P} `{PageCounter P}.
Implicit Types s : kern P.

Definition outs_of (args : list Ulib.arg) : list (list Z) :=
  omap (λ x, match x with Ulib.Out bs => Some bs | _ => None end) args.
Lemma wp_take_outs s a args : placed s a args → wp (take_outs a args) (λ outs s', outs = outs_of args ∧ s' = s) s.
Proof.
  revert a. induction args as [|x args IH]; intros a; cbn [take_outs placed]; [by wp_run|]. intros [Hu Hpl]. wp_step.
  destruct x as [v|bs|bs|ss]; wp_run; try (wp_use IH; [exact Hpl|]; intros outs s' [-> ->]; by wp_run).
  wp_use wp_uread_bytes; [exact Hu|done|]. intros bs' s' [-> ->]. wp_run. wp_use IH; [exact Hpl|].
  intros outs s' [-> ->]. by wp_run.
Qed.

(** What a call did to the files, and to nothing else. *)
Definition left s s' (v : fstate) : Prop := did [] [] s s' ∧ process_ok s' ∧ view s' = v.

(** A call that puts [x] for the file system, which may be as it was. *)
Lemma placed_fs s x a args : placed s a args → placed (set_fs x s) a args.
Proof. revert a. induction args as [|y args IH]; intros a; [done|]. intros [Hu Hpl]. split; [exact Hu|by apply IH]. Qed.
Lemma wp_trap_fs n args s t v x :
  running s t → zlen args ≤ 3 → Forall arg_fits args → - 2 ^ 63 ≤ v < 2 ^ 63 →
  Tmpfs.fs_ok x → mem_ok (Tmpfs.pool x) →
  (∀ s1, running s1 t → fs s1 = fs s → placed s1 (slot 0) args →
    wp (syscall_body zero_frame (trap_frame n args)) (λ r s2, r = Ret v ∧ s2 = set_fs x s1) s1) →
  wp (trap_kernel n args) (λ r s', r = (v, outs_of args) ∧ left s s' (x, cwd_str t, Sched.fds t)) s.
Proof.
  intros R Hl Hf Hv Hx Hp Hbody. apply (wp_trap _ _ _ t); [done..|]. intros s1 T R1 Hpl.
  wp_use Hbody; [done|by apply fs_touched|done|]. intros r s2 [-> ->]. exists v. split; [done|]. split; [done|].
  destruct (running_set_fs s1 t x R1 Hx Hp) as (R2 & D & V).
  wp_use wp_take_outs; [by apply placed_fs|]. intros outs s2 [-> ->]. split; [done|].
  split; [by eapply did_after|]. split; [by exists t|done].
Qed.
(** A refused call changes nothing. *)
Lemma wp_trap_refused n args s t :
  running s t → zlen args ≤ 3 → Forall arg_fits args →
  (∀ s1, running s1 t → fs s1 = fs s → placed s1 (slot 0) args →
    wp (syscall_body zero_frame (trap_frame n args)) (λ r s2, r = Ret (-1) ∧ s2 = s1) s1) →
  wp (trap_kernel n args) (λ r s', r = (-1, outs_of args) ∧ left s s' (fs s, cwd_str t, Sched.fds t)) s.
Proof.
  intros R Hl Hf Hbody. apply wp_trap_fs; [done..| | | |]; [lia|apply R|apply R|]. intros s1 R1 E Hpl.
  wp_use Hbody; [done..|]. intros r s2 [-> ->]. split; [done|]. by rewrite <- E, set_fs_id.
Qed.

(** Descriptors. *)
Lemma open_fd_Some t fd d : open_fd (Sched.fds t) fd = Some d → has_fd t fd (node d) (pos d).
Proof.
  unfold open_fd. destruct (_ && _) eqn:Hr; [|done]. apply andb_true_iff in Hr as [Hr1%Z.leb_le Hr2%Z.ltb_lt].
  destruct (zget (Sched.fds t) fd) as [d'|] eqn:Hd; [|done]. destruct (Z.ltb_spec (node d') 0); [done|].
  intros [= <-]. split; [done|]. split; [by destruct d'|done].
Qed.
Lemma wp_fd_none s t fd (Q : option Sched.ufd → kern P → Prop) :
  int_ok fd → open_fd (Sched.fds t) fd = None → zlen (Sched.fds t) = UFD_MAX → Q None s → wp (fd_get t (u64 fd)) Q s.
Proof.
  intros Hfd Hn Hl HQ. unfold int_ok in Hfd. unfold fd_get, open_fd in *. unfold UFD_FIRST, UFD_MAX in *.
  destruct (Z.lt_ge_cases fd 0) as [Hneg|Hpos].
  - assert (u64 fd = fd + 2 ^ 64) as ->.
    { unfold u64. replace fd with (fd + 2 ^ 64 + (-1) * 2 ^ 64) at 1 by lia. rewrite Z.mod_add by lia. apply Z.mod_small. lia. }
    rewrite (proj2 (Z.ltb_ge _ 8)) by lia. rewrite andb_false_r. by wp_run.
  - rewrite u64_id by lia. destruct ((3 <=? fd) && (fd <? 8)) eqn:Hr; cbn [negb]; [|by wp_run].
    apply andb_true_iff in Hr as [Hr1%Z.leb_le Hr2%Z.ltb_lt]. destruct (zget_lt (Sched.fds t) fd) as [d Hd]; [lia|].
    wp_step. apply wp_of_option. exists d. split; [done|]. rewrite Hd in Hn. rewrite Z.geb_leb.
    destruct (Z.ltb_spec (node d) 0); [|done]. rewrite (proj2 (Z.leb_gt 0 _)) by done. by wp_run.
Qed.
End kernel.

Section issued.
Context {P : Type} `{PageAllocatorLaws P} `{PageCounter P}.
Implicit Types s : kern P.

(** The call [c] does what the machine says. *)
Definition does (c : fcall) s : Prop :=
  wp (issue c) (λ a s', left s s' (api_step c (view s)).2 ∧ a = (api_step c (view s)).1) s.

Lemma view_running s t : running s t → view s = (fs s, cwd_str t, Sched.fds t).
Proof. intros R. by apply view_caller, R. Qed.
Lemma fd_int fd : UFD_FIRST ≤ fd < UFD_MAX → i32 fd = fd.
Proof. intros Hr. unfold UFD_FIRST, UFD_MAX in Hr. apply i32_id. lia. Qed.

Lemma does_open s t path flags : running s t → call_ok (COpen path flags) → does (COpen path flags) s.
Proof.
  intros R [(Hn & Hl & Hb) Hf]. unfold does, issue, Ulib.open, Ulib.call. rewrite (view_running s t R). cbn [api_step].
  do 3 wp_step. wp_use wp_kernel_open; [exact R|by apply path_buf_cstr|exact Hf|]. intros r s' (D & R' & Hcase).
  destruct (open_node (fs s) (path_of (cwd_str t) path) flags) as [nd x].
  destruct (free_in (Sched.fds t)) as [fd|] eqn:Hfd; [destruct (_ && _)|]; destruct Hcase as [-> V]; wp_run.
  - split; [by split|]. apply find_first_Some in Hfd as (Hr & _). cbn [fst]. by rewrite fd_int.
  - by split.
  - by split.
Qed.

Lemma does_close s t fd : running s t → call_ok (CClose fd) → does (CClose fd) s.
Proof.
  intros R Hint. unfold does, issue, Ulib.close, Ulib.call. rewrite (view_running s t R). cbn [api_step]. do 3 wp_step.
  destruct ((UFD_FIRST <=? fd) && (fd <? UFD_MAX)) eqn:Hr.
  - apply andb_true_iff in Hr as [Hr1%Z.leb_le Hr2%Z.ltb_lt].
    destruct (fd_slot t fd (rn_fds _ _ R) ltac:(lia)) as [d Hd]. rewrite Hd.
    wp_use (wp_kernel_close s t fd (node d) (pos d)); [exact R|lia|by rewrite Hd; destruct d|].
    intros r s' (-> & D & R' & V). wp_run. split; [by split|done].
  - wp_use (wp_trap_refused Ulib.SYS_CLOSE [Ulib.Int fd] s t); [exact R|done|by fits_args| |].
    2: { intros r s' [-> L]. wp_run. by split. }
    intros s1 R1 _ _. set (f := trap_frame _ _). change (syscall_body zero_frame f) with (sys_close (P := P) f).
    unfold sys_close. change (rdi f) with (u64 fd). rewrite i32_of_u64 by done. rewrite Hr. by wp_run.
Qed.

Lemma positions_at t fd d : positions_ok (Sched.fds t) → has_fd t fd (node d) (pos d) → 0 ≤ pos d ≤ Tmpfs.TN_POOL.
Proof. intros Hpos (_ & Hg & _). apply (Forall_zget _ _ _ _ Hpos Hg). Qed.
Lemma move_zero l fd d : zget l fd = Some d → move l fd d 0 = zset l fd (mkUfd (node d) (pos d + 0)).
Proof. intros Hg. unfold move. simpl. rewrite Z.add_0_r. symmetry. apply zset_id. by destruct d. Qed.

(** The descriptor is closed, or its node is no file any more. *)
Definition dead_fd (x : Tmpfs.tmpfs) (l : list Sched.ufd) (fd : Z) : Prop :=
  ∀ d, open_fd l fd = Some d → Tmpfs.is_file x (node d) = None.

Lemma wp_read_dead s t fd buf :
  running s t → positions_ok (Sched.fds t) → int_ok fd → fd ≠ 0 → buffer_ok buf → dead_fd (fs s) (Sched.fds t) fd →
  wp (trap_kernel Ulib.SYS_READ [Ulib.Int fd; Ulib.Out buf; Ulib.Int (zlen buf)])
    (λ r s', r = (-1, [buf]) ∧ left s s' (fs s, cwd_str t, Sched.fds t)) s.
Proof.
  intros R Hpos Hint Hne [Hlen Hb] Hdead. pose proof (zlen_nonneg buf). unfold BUF_MAX in Hlen.
  apply wp_trap_refused; [done|done|by fits_args|]. intros s1 R1 E _.
  set (f := trap_frame _ _). change (syscall_body zero_frame f) with (sys_read (P := P) f).
  unfold sys_read. change (rdi f) with (u64 fd). change (rsi f) with (slot 1). change (rdx f) with (u64 (zlen buf)).
  rewrite i32_of_u64 by done. rewrite (u64_id (zlen buf)) by lia.
  change (bad_uaddr (slot 1)) with false. rewrite (proj2 (Z.eqb_neq fd 0)) by done. cbv iota zeta.
  wp_step. eapply wp_current; [apply R1|]. wp_step. destruct (open_fd (Sched.fds t) fd) as [d|] eqn:Hfd.
  - pose proof (open_fd_Some t fd d Hfd) as Hhas. pose proof (positions_at t fd d Hpos Hhas) as Hp.
    eapply wp_fd_get; [by apply has_fd_open|]. cbn [Sched.node Sched.pos]. wp_step. apply wp_fs_call.
    wp_use Tmpfs.wp_node_read; [apply R1|lia|unfold Tmpfs.buf_ok; rewrite zlen_replicate; lia|].
    intros r x [-> ->]. rewrite set_fs_id, E. unfold Tmpfs.read_spec, Tmpfs.file_data. rewrite Hdead by done.
    cbn [fmap option_fmap option_map]. wp_step. change (slice 0 (-1) _) with (@nil Z). wp_run. done.
  - apply wp_fd_none; [done|done|apply R1|]. by wp_run.
Qed.

Lemma does_read s t fd buf : running s t → positions_ok (Sched.fds t) → call_ok (CRead fd buf) → does (CRead fd buf) s.
Proof.
  intros R Hpos (Hint & Hne & Hlen & Hb). unfold does, issue, Ulib.read, Ulib.call_out.
  rewrite (view_running s t R). cbn [api_step]. wp_step. unfold Tmpfs.read_spec, Tmpfs.file_data.
  destruct (open_fd (Sched.fds t) fd) as [d|] eqn:Hfd; [destruct (Tmpfs.is_file (fs s) (node d)) as [e|] eqn:Hfile|].
  - pose proof (open_fd_Some t fd d Hfd) as Hhas. pose proof (positions_at t fd d Hpos Hhas) as Hp.
    wp_use (wp_kernel_read s t fd (node d) (pos d) (Tmpfs.contents (fs s) e) buf);
      [exact R|done|unfold Tmpfs.TN_POOL in Hp; lia|by unfold Tmpfs.file_data; rewrite Hfile|done|done|].
    intros r s' (-> & D & R' & V). wp_run. apply wp_of_option. eexists. split; [done|]. wp_run. split; [|done].
    split; [done|]. split; [done|]. rewrite V. cbn. set (got := slice _ _ _) in *. unfold move. pose proof (zlen_nonneg got).
    destruct (Z.ltb_spec 0 (zlen got)); [done|]. replace (zlen got) with 0 by lia. rewrite Z.add_0_r.
    by rewrite (zset_id _ _ _ (proj1 (proj2 Hhas))).
  - wp_use wp_read_dead; [exact R|done..| |].
    { intros d' Hd'. rewrite Hfd in Hd'. by injection Hd' as <-. }
    intros r s' [-> L]. wp_run. apply wp_of_option. eexists. split; [done|]. wp_run. split; [exact L|done].
  - wp_use wp_read_dead; [exact R|done..| |].
    { intros d' Hd'. by rewrite Hfd in Hd'. }
    intros r s' [-> L]. wp_run. apply wp_of_option. eexists. split; [done|]. wp_run. by split.
Qed.
Lemma wp_write_dead s t fd data :
  running s t → positions_ok (Sched.fds t) → int_ok fd → fd ≠ 1 → fd ≠ 2 → buffer_ok data →
  dead_fd (fs s) (Sched.fds t) fd →
  wp (trap_kernel Ulib.SYS_WRITE [Ulib.Int fd; Ulib.In data; Ulib.Int (zlen data)])
    (λ r s', r = (-1, []) ∧ left s s' (fs s, cwd_str t, Sched.fds t)) s.
Proof.
  intros R Hpos Hint Hn1 Hn2 [Hlen Hb] Hdead. pose proof (zlen_nonneg data). unfold BUF_MAX in Hlen.
  apply wp_trap_refused; [done|done|by fits_args|]. intros s1 R1 E (_ & Hu & _).
  change (arg_bytes _ (Ulib.In data)) with data in Hu.
  set (f := trap_frame _ _). change (syscall_body zero_frame f) with (sys_write (P := P) f).
  unfold sys_write. change (rdi f) with (u64 fd). change (rsi f) with (slot 1). change (rdx f) with (u64 (zlen data)).
  rewrite i32_of_u64 by done. rewrite (u64_id (zlen data)) by lia. change (bad_uaddr (slot 1)) with false. cbn [andb].
  change (Z.shiftl 1 20) with (2 ^ 20). rewrite (Z.gtb_ltb _ (2 ^ 20)), (proj2 (Z.ltb_ge (2 ^ 20) _)) by lia. cbv zeta.
  rewrite (proj2 (Z.eqb_neq fd 1)), (proj2 (Z.eqb_neq fd 2)) by done. cbn [orb].
  wp_step. eapply wp_current; [apply R1|]. wp_step. destruct (open_fd (Sched.fds t) fd) as [d|] eqn:Hfd.
  - pose proof (open_fd_Some t fd d Hfd) as Hhas. pose proof (positions_at t fd d Hpos Hhas) as Hp.
    eapply wp_fd_get; [by apply has_fd_open|]. cbn [Sched.node Sched.pos].
    wp_step. wp_use wp_uread_bytes; [exact Hu|unfold zlen; lia|]. intros bs s2 [-> ->]. wp_step. apply wp_fs_call.
    wp_use Tmpfs.wp_node_write; [apply R1|lia|unfold Tmpfs.buf_ok; lia|]. intros r x Heq.
    unfold Tmpfs.write_spec in Heq. rewrite E, Hdead in Heq by done. injection Heq as -> ->.
    rewrite <- E, set_fs_id. wp_run. done.
  - apply wp_fd_none; [done|done|apply R1|]. by wp_run.
Qed.

Lemma does_write s t fd data : running s t → positions_ok (Sched.fds t) → call_ok (CWrite fd data) → does (CWrite fd data) s.
Proof.
  intros R Hpos (Hint & Hn1 & Hn2 & Hlen & Hb). unfold does, issue, Ulib.write, Ulib.call.
  rewrite (view_running s t R). cbn [api_step]. do 2 wp_step.
  destruct (open_fd (Sched.fds t) fd) as [d|] eqn:Hfd; [destruct (Tmpfs.is_file (fs s) (node d)) as [e|] eqn:Hfile|].
  - pose proof (open_fd_Some t fd d Hfd) as Hhas. pose proof (positions_at t fd d Hpos Hhas) as Hp.
    wp_use (wp_kernel_fwrite s t fd (node d) (pos d) (Tmpfs.contents (fs s) e) data);
      [exact R|done|lia|by unfold Tmpfs.file_data; rewrite Hfile|done|done|].
    intros r s' (D & R' & Hcase). destruct (Tmpfs.write_spec _ _ _ _) as [n x]. destruct Hcase as [-> V]. wp_run. by split.
  - wp_use wp_write_dead; [exact R|done..| |].
    { intros d' Hd'. rewrite Hfd in Hd'. by injection Hd' as <-. }
    intros r s' [-> L]. wp_run. unfold Tmpfs.write_spec. rewrite Hfile. by split.
  - wp_use wp_write_dead; [exact R|done..| |].
    { intros d' Hd'. by rewrite Hfd in Hd'. }
    intros r s' [-> L]. wp_run. by split.
Qed.

(** *** Calls on paths *)
Lemma wp_path_call n s t path (op : list Z → M Tmpfs.tmpfs Z) v x :
  running s t → path_ok path → - 2 ^ 31 ≤ v < 2 ^ 31 → Tmpfs.fs_ok x → mem_ok (Tmpfs.pool x) →
  (∀ f, rax f = n → syscall_body zero_frame f = with_path (P := P) (rdi f) op) →
  wp (op (path_of (cwd_str t) path)) (λ r x', (r, x') = (v, x)) (fs s) →
  wp (trap_kernel n [Ulib.In (Ulib.cstr 256 path)])
    (λ r s', r = (v, []) ∧ left s s' (x, cwd_str t, Sched.fds t)) s.
Proof.
  intros R (Hn & Hl & Hb) Hv Hx Hp Hbody Hop. pose proof (path_buf_cstr path Hn Hl Hb) as Hpath.
  apply wp_trap_fs; [done|done| |lia|done|done|].
  { pose proof Hpath as (rest & _ & _ & _ & Hbl & Hbb). by fits_args. }
  intros s1 R1 E (Hu & _). destruct (path_buf_string s1 _ _ path Hpath Hu) as (Hs & _).
  rewrite Hbody by done. unfold with_path. wp_step.
  wp_use (wp_path_arg s1 t (slot 0) path); [apply R1|apply R1|done|exact Hs|done|]. intros r s2 [-> ->]. cbv iota.
  wp_step. apply wp_fs_call. rewrite E. wp_use Hop. intros r x' [= -> ->]. by wp_run.
Qed.
(** An operation on the tree: 0 or -1, and the pool as it was. *)
Definition tree_op (x : Tmpfs.tmpfs) (r : Z * Tmpfs.tmpfs) : Prop :=
  (r.1 = 0 ∨ r.1 = -1) ∧ Tmpfs.fs_ok r.2 ∧ Tmpfs.pool r.2 = Tmpfs.pool x.
Lemma mkdir_op x p : Tmpfs.fs_ok x → tree_op x (Tmpfs.mkdir_spec x p).
Proof.
  intros Hx. pose proof (Tmpfs.mkdir_spec_ok x p Hx) as Hok. unfold tree_op. split_and!; [|done|].
  all: unfold Tmpfs.mkdir_spec, Tmpfs.insert_spec; destruct (Tmpfs.parent_spec x p) as [[]|]; [|by auto].
  all: destruct (Tmpfs.find_child _ _ _); [by auto|]; destruct (Tmpfs.free_slot x) as [i|]; [|by auto].
  all: destruct (i <? 0); by auto.
Qed.
Lemma unlink_op x p : Tmpfs.fs_ok x → tree_op x (Tmpfs.unlink_spec x p).
Proof.
  intros Hx. pose proof (Tmpfs.unlink_spec_ok x p Hx) as Hok. unfold tree_op. split_and!; [|done|].
  all: unfold Tmpfs.unlink_spec; destruct (zget _ _); [destruct (_ && _)|]; by auto.
Qed.
Lemma rename_op x p q : Tmpfs.fs_ok x → tree_op x (Tmpfs.rename_spec x p q).
Proof.
  intros Hx. pose proof (Tmpfs.rename_spec_ok x p q Hx) as Hok. unfold tree_op. split_and!; [|done|].
  all: unfold Tmpfs.rename_spec; destruct (zget _ _); [|by auto]; destruct (Tmpfs.parent_spec x q) as [[]|]; [|by auto].
  all: destruct (_ <? _); [destruct (Tmpfs.find_child _ _ _)|]; by auto.
Qed.
Lemma op_pool s t r : running s t → tree_op (fs s) r → mem_ok (Tmpfs.pool r.2).
Proof. intros R (_ & _ & ->). apply R. Qed.
Lemma op_range x r : tree_op x r → - 2 ^ 31 ≤ r.1 < 2 ^ 31.
Proof. intros ([-> | ->] & _); lia. Qed.

Lemma does_path_op n c s t path (op : list Z → M Tmpfs.tmpfs Z) (r : Z * Tmpfs.tmpfs) :
  running s t → path_ok path → tree_op (fs s) r →
  issue c = (v ← (v ← Ulib.call n [Ulib.In (Ulib.cstr 256 path)]; mret (i32 v)); mret (v, [])) →
  (∀ f, rax f = n → syscall_body zero_frame f = with_path (P := P) (rdi f) op) →
  wp (op (path_of (cwd_str t) path)) (λ v x, (v, x) = r) (fs s) →
  api_step c (view s) = ((r.1, []), (r.2, cwd_str t, Sched.fds t)) → does c s.
Proof.
  intros R Hp Hr Hc Hbody Hop Hstep. unfold does. rewrite Hc, Hstep. unfold Ulib.call. do 3 wp_step.
  pose proof (op_range _ _ Hr) as Hv.
  wp_use (wp_path_call n s t path op r.1 r.2); [done|done|exact Hv|apply Hr|by eapply op_pool|exact Hbody| |].
  { wp_use Hop. intros v x ->. by rewrite <- surjective_pairing. }
  intros v s' [-> L]. wp_run. split; [exact L|]. cbn [fst]. by rewrite i32_id by exact Hv.
Qed.
Lemma does_mkdir s t path : running s t → path_ok path → does (CMkdir path) s.
Proof.
  intros R Hp. apply (does_path_op Ulib.SYS_MKDIR _ _ t path Tmpfs.mkdir (Tmpfs.mkdir_spec (fs s) (path_of (cwd_str t) path)));
    [done|done|apply mkdir_op, R|done| |apply Tmpfs.wp_mkdir, R|].
  - intros f Hf. unfold syscall_body. by rewrite Hf.
  - rewrite (view_running s t R). cbn [api_step]. by destruct (Tmpfs.mkdir_spec _ _).
Qed.
Lemma does_unlink s t path : running s t → path_ok path → does (CUnlink path) s.
Proof.
  intros R Hp. apply (does_path_op Ulib.SYS_UNLINK _ _ t path Tmpfs.unlink (Tmpfs.unlink_spec (fs s) (path_of (cwd_str t) path)));
    [done|done|apply unlink_op, R|done| |apply Tmpfs.wp_unlink, R|].
  - intros f Hf. unfold syscall_body. by rewrite Hf.
  - rewrite (view_running s t R). cbn [api_step]. by destruct (Tmpfs.unlink_spec _ _).
Qed.
Lemma does_rename s t old new : running s t → path_ok old → path_ok new → does (CRename old new) s.
Proof.
  intros R (Hn & Hl & Hb) (Hn' & Hl' & Hb'). unfold does, issue, Ulib.rename, Ulib.call.
  rewrite (view_running s t R). cbn [api_step]. do 3 wp_step.
  pose proof (path_buf_cstr old Hn Hl Hb) as Hpath. pose proof (path_buf_cstr new Hn' Hl' Hb') as Hpath'.
  pose proof (rename_op (fs s) (path_of (cwd_str t) old) (path_of (cwd_str t) new) (rn_fs _ _ R)) as Hop.
  pose proof (op_range _ _ Hop) as Hv. set (r := Tmpfs.rename_spec _ _ _) in *.
  wp_use (wp_trap_fs Ulib.SYS_RENAME [Ulib.In (Ulib.cstr 256 old); Ulib.In (Ulib.cstr 256 new)] s t r.1 r.2);
    [done|done| |lia|apply Hop|by eapply op_pool| |].
  { destruct Hpath as (? & _ & _ & _ & ? & ?), Hpath' as (? & _ & _ & _ & ? & ?). by fits_args. }
  - intros s1 R1 E (Hu & Hu' & _). destruct (path_buf_string s1 _ _ old Hpath Hu) as (Hs & _).
    destruct (path_buf_string s1 _ _ new Hpath' Hu') as (Hs' & _).
    set (f := trap_frame _ _). change (syscall_body zero_frame f) with (sys_rename (P := P) f). unfold sys_rename. wp_step.
    wp_use (wp_path_arg s1 t (slot 0) old); [apply R1|apply R1|done|exact Hs|done|]. intros a s2 [-> ->]. cbv iota.
    unfold with_path. wp_step.
    wp_use (wp_path_arg s1 t (slot 1) new); [apply R1|apply R1|done|exact Hs'|done|]. intros a s2 [-> ->]. cbv iota.
    wp_step. apply wp_fs_call. rewrite E. wp_use Tmpfs.wp_rename; [apply R|]. intros v x Heq. fold r in Heq.
    rewrite <- Heq. by wp_run.
  - intros v s' [-> L]. wp_run. cbn [fst]. rewrite i32_id by exact Hv. by destruct r.
Qed.
Lemma does_step c s t : running s t → positions_ok (Sched.fds t) → call_ok c → does c s.
Proof.
  intros R Hpos Hc. destruct c as [path flags|fd|fd buf|fd data|path|path|old new].
  - by apply (does_open s t).
  - by apply (does_close s t).
  - by apply (does_read s t).
  - by apply (does_write s t).
  - by apply (does_mkdir s t).
  - by apply (does_unlink s t).
  - destruct Hc. by apply (does_rename s t).
Qed.

(** *** Positions *)
Lemma move_positions l fd d n :
  positions_ok l → 0 ≤ pos d → (0 < n → pos d + n ≤ Tmpfs.TN_POOL) → positions_ok (move l fd d n).
Proof.
  intros Hl Hd Hn. unfold move. destruct (Z.ltb_spec 0 n); [|done]. apply Forall_zset; [done|]. cbn [Sched.pos]. lia.
Qed.
Lemma open_fd_pos l fd d : positions_ok l → open_fd l fd = Some d → 0 ≤ pos d ≤ Tmpfs.TN_POOL.
Proof.
  intros Hl. unfold open_fd. destruct (_ && _); [|done]. destruct (zget l fd) as [e|] eqn:He; [|done].
  destruct (node e <? 0); [done|]. intros [= <-]. by apply (Forall_zget _ _ _ _ Hl He).
Qed.
Lemma api_positions c x dir l :
  Tmpfs.fs_ok x → positions_ok l → positions_ok (api_step c (x, dir, l)).2.2.
Proof.
  intros Hx Hl. assert (0 ≤ Tmpfs.TN_POOL) by done.
  destruct c as [path flags|fd|fd buf|fd data|path|path|old new]; cbn [api_step].
  - destruct (open_node _ _ _) as [nd x']. destruct (free_in l) as [fd|]; [|done].
    destruct (_ && _); [|done]. by apply Forall_zset.
  - destruct (_ && _); [|done]. apply Forall_zset; [done|]. cbn [Sched.pos].
    destruct (zget l fd) as [d|] eqn:Hd; [by apply (Forall_zget _ _ _ _ Hl Hd)|done].
  - destruct (open_fd l fd) as [d|] eqn:Hd; [|done]. pose proof (open_fd_pos _ _ _ Hl Hd) as Hp.
    unfold Tmpfs.read_spec. destruct (Tmpfs.file_data x (node d)) as [bs|] eqn:Hbs; [|apply move_positions; [done|lia|done]].
    apply move_positions; [done|lia|]. pose proof (Tmpfs.file_data_len _ _ _ Hx Hbs) as Hlen.
    unfold slice, zlen in *. rewrite length_take, length_drop. lia.
  - destruct (open_fd l fd) as [d|] eqn:Hd; [|done]. pose proof (open_fd_pos _ _ _ Hl Hd) as Hp.
    destruct (Tmpfs.file_data x (node d)) as [old|] eqn:Hold.
    + pose proof (Tmpfs.write_spec_ok x (node d) (pos d) data old Hx ltac:(lia) Hold) as Hok.
      pose proof (write_spec_pos x (node d) (pos d) data old Hx Hold) as Hend.
      destruct (Tmpfs.write_spec _ _ _ _) as [n x']. destruct Hok as (Hx' & _ & Hcase). cbn [fst] in Hend.
      apply move_positions; [done|lia|]. intros Hn. destruct Hcase as [[-> _]|(-> & Hnew & _)]; [done|].
      pose proof (Tmpfs.file_data_len _ _ _ Hx' Hnew) as Hlen. rewrite zlen_splice in Hlen by lia. pose proof (zlen_nonneg data). lia.
    + unfold Tmpfs.write_spec. unfold Tmpfs.file_data in Hold.
      destruct (Tmpfs.is_file x (node d)); [done|]. apply move_positions; [done|lia|done].
  - by destruct (Tmpfs.mkdir_spec _ _).
  - by destruct (Tmpfs.unlink_spec _ _).
  - by destruct (Tmpfs.rename_spec _ _ _).
Qed.

(** ** The refinement *)

(** C9: whatever open, close, read, write, mkdir, unlink and rename calls a
    process makes, in any order, each answers what the abstract machine
    answers, error or not, and leaves the file system, the directory and the
    descriptors as the machine leaves them; the process reads and writes
    nothing else and stays well-formed.  The arguments are those of
    [call_ok]: paths without NUL of less than 256 bytes, buffers of at most a
    page, no reads of descriptor 0 nor writes to 1 and 2, which are the
    terminal; and the descriptors stand where [positions_ok] says. *)
Theorem file_calls_refine s cs :
  process_ok s → positions_ok (view s).2 → Forall call_ok cs →
  wp (issue_all cs) (λ rs s', (rs, view s') = api_run cs (view s) ∧ did [] [] s s' ∧ process_ok s') s.
Proof.
  revert s. induction cs as [|c cs IH]; intros s [t R] Hpos Hcs; cbn [issue_all api_run].
  { wp_run. split; [done|]. split; [apply did_nil|by exists t]. }
  inversion Hcs as [|? ? Hc Hcs']; subst. rewrite (view_running s t R) in Hpos.
  pose proof (does_step c s t R Hpos Hc) as Hdo. unfold does in Hdo. wp_step. wp_use Hdo.
  intros a s1 [(D & P1 & V) ->]. wp_step. wp_use IH; [exact P1| |done|].
  { rewrite V, (view_running s t R). apply api_positions; [apply R|done]. }
  intros rs s2 (E & D2 & P2). wp_run. destruct (api_step c (view s)) as [a s1v]. cbn [fst snd] in V |- *.
  rewrite <- V. destruct (api_run cs (view s1)) as [rest w]. injection E as -> ->.
  split; [done|]. split; [by apply (did_app [] [] [] [] _ s1)|done].
Qed.
End issued.
End FileApi.
