(* ===== verification/UserSpec.v ===== *)
(** * What the user programs do

    The programs of [Progs] over the promises of [UserApi]: [echo] prints its
    arguments, [cat] files, [hexdump] the reference dump, [cp] copies. *)
From S2P Require Import Prelude Lines PageAlloc Mem Tmpfs Sched Kernel SyscallSpec Ulib UserApi Progs.

Module UserSpec.
Import Lines Ulib UserApi Progs.

Definition bytes (l : list Z) : Prop := Forall (λ b, 0 ≤ b < 2 ^ 8) l.

Lemma bytes_str s : bytes (str s).
Proof.
  induction s as [|a s IH]; [constructor|]. constructor; [|exact IH].
  pose proof (Ascii.N_ascii_bounded a). simpl. lia.
Qed.
Lemma bytes_app a b : bytes a → bytes b → bytes (a ++ b).
Proof. intros Ha Hb. by apply Forall_app. Qed.
Lemma bytes_one c : 0 ≤ c < 2 ^ 8 → bytes [c].
Proof. intros Hc. by apply Forall_singleton. Qed.

(** An argument as the kernel passes it. *)
Record arg_ok (a : list Z) : Prop := {
  ao_nul : nul_free a;
  ao_len : zlen a < 256;
  ao_byte : bytes a;
  ao_utf8 : utf8_valid a = true;
}.

Create HintDb bytes.
#[export] Hint Resolve bytes_str bytes_app ao_byte : bytes.
(** The length of a message. *)
Ltac short := unfold BUF_MAX; rewrite ?zlen_app, ?zlen_cons;
  repeat match goal with
  | |- context [@zlen ?A []] => change (@zlen A []) with 0
  | |- context [zlen (str ?s)] => let n := eval vm_compute in (zlen (str s)) in change (zlen (str s)) with n
  end; lia.

Section output.
Context {U : Type} `{StdioLaws U}.
Implicit Types u : U.

(** [u'] is [u] after [outs] was written. *)
Definition wrote (outs : list Z) u u' : Prop := acts [] outs u u' ∧ live u' ∧ files u' = files u.

Lemma wrote_none u : live u → wrote [] u u.
Proof. intros Hl. split; [apply acts_nil|done]. Qed.
Lemma wrote_app a b u u1 u2 : wrote a u u1 → wrote b u1 u2 → wrote (a ++ b) u u2.
Proof.
  intros (Ha & _ & Hf1) (Hb & Hl & Hf2). split; [|split; [done|congruence]].
  change ([] : list Z) with ([] ++ [] : list Z). by eapply acts_app.
Qed.
Lemma wrote_live outs u u' : wrote outs u u' → live u'.
Proof. by intros (_ & Hl & _). Qed.

Lemma wp_write u fd bs :
  live u → fd = 1 ∨ fd = 2 → zlen bs ≤ BUF_MAX → bytes bs →
  wp (write fd bs) (λ r u', r = zlen bs ∧ wrote bs u u') u.
Proof.
  intros Hl Hfd Hlen Hb. unfold write, call. wp_step. wp_use write_law; [done..|].
  intros r u' (-> & Ha & Hl' & Hf). by wp_run.
Qed.
Lemma wp_print u bs :
  live u → zlen bs ≤ BUF_MAX → bytes bs → wp (print bs) (λ _ u', wrote bs u u') u.
Proof.
  intros Hl Hlen Hb. unfold print. wp_step. wp_use wp_write; [done|by left|done|done|].
  intros r u' [_ Hw]. by wp_run.
Qed.
Lemma wp_putchar u c : live u → 0 ≤ c < 2 ^ 8 → wp (putchar c) (λ _ u', wrote [c] u u') u.
Proof.
  intros Hl Hc. unfold putchar. wp_step. wp_use wp_write; [done|by left|done|by apply bytes_one|].
  intros r u' [_ Hw]. by wp_run.
Qed.
Lemma wp_write_line u fd bs {A} (a : A) :
  live u → fd = 1 ∨ fd = 2 → zlen bs ≤ BUF_MAX → bytes bs →
  wp (_ ← write fd bs; _ ← write fd [10]; mret a) (λ r u', r = a ∧ wrote (bs ++ [10]) u u') u.
Proof.
  intros Hl Hfd Hlen Hb. wp_step. wp_use wp_write; [done..|]. intros _ u1 [_ W1].
  wp_step. wp_use wp_write; [by eapply wrote_live|done|done|by apply bytes_one|]. intros _ u2 [_ W2].
  wp_run. split; [done|]. by eapply wrote_app.
Qed.
Lemma wp_println u bs :
  live u → zlen bs ≤ BUF_MAX → bytes bs → wp (println bs) (λ _ u', wrote (bs ++ [10]) u u') u.
Proof. intros. wp_use wp_write_line; [done|by left|done|done|]. by intros [] u' [_ Hw]. Qed.
Lemma wp_eprintln u bs :
  live u → zlen bs ≤ BUF_MAX → bytes bs → wp (eprintln bs) (λ _ u', wrote (bs ++ [10]) u u') u.
Proof. intros. wp_use wp_write_line; [done|by right|done|done|]. by intros [] u' [_ Hw]. Qed.
Lemma wp_complain u code bs :
  live u → zlen bs ≤ BUF_MAX → bytes bs →
  wp (complain code bs) (λ r u', r = code ∧ wrote (bs ++ [10]) u u') u.
Proof.
  intros. unfold complain. wp_step. wp_use wp_eprintln; [done..|]. intros [] u' Hw. by wp_run.
Qed.
End output.

(** ** [echo] *)
Section echo.
Context {U : Type} `{StdioLaws U}.
Implicit Types u : U.

Definition echo_text (args : list (list Z)) : list Z :=
  if bool_decide (head args = Some (str "-n")) then join 32 (tail args) else join 32 args ++ [10].

Lemma arg_str_at argv i a : zget argv i = Some a → arg_ok a → arg_str argv i = a.
Proof. intros Ha Hok. unfold arg_str. rewrite Ha. by rewrite (ao_utf8 _ Hok). Qed.

Lemma wp_echo_help argv i k u :
  0 ≤ i → i + Z.of_nat k = argc argv →
  (∀ j, i ≤ j < argc argv → arg_str argv j ≠ str "--help") →
  wp (echo_help argv i k) (λ r u', r = false ∧ u' = u) u.
Proof.
  revert i. induction k as [|k IH]; intros i Hi Hk Hno; simpl; [by wp_run|].
  unfold is_help. rewrite bool_decide_false by (apply Hno; lia). apply IH; [lia..|].
  intros j Hj. apply Hno. lia.
Qed.

Lemma wp_echo_args argv i k u :
  live u → 0 ≤ i → i + Z.of_nat k = argc argv → Forall arg_ok (drop (Z.to_nat i) argv) →
  wp (echo_args argv i k) (λ _ u', wrote (join 32 (drop (Z.to_nat i) argv)) u u') u.
Proof.
  revert i u. induction k as [|k IH]; intros i u Hl Hi Hk Hok; simpl.
  { wp_run. rewrite drop_ge by (unfold argc, zlen in *; lia). by apply wrote_none. }
  destruct (zget_lt argv i) as [a Ha]; [unfold argc in Hk; lia|].
  assert (drop (Z.to_nat i) argv = a :: drop (Z.to_nat (i + 1)) argv) as Hd.
  { unfold zget in Ha. rewrite decide_True in Ha by lia.
    replace (Z.to_nat (i + 1)) with (S (Z.to_nat i)) by lia. by apply drop_S. }
  rewrite Hd in *. inversion Hok as [|? ? Hok1 Hok2]; subst. rewrite (arg_str_at _ _ _ Ha Hok1).
  pose proof (ao_len _ Hok1). wp_step. wp_use wp_write; [done|by left|unfold BUF_MAX; lia|by apply ao_byte|].
  intros _ u1 [_ W1]. destruct (Z.ltb_spec (i + 1) (argc argv)) as [Hmore|Hlast].
  - wp_step. wp_step. wp_use wp_putchar; [by eapply wrote_live|done|]. intros _ u2 W2. wp_step.
    wp_use IH; [by eapply wrote_live|lia|lia|done|]. intros [] u3 W3.
    destruct (drop (Z.to_nat (i + 1)) argv) as [|b l] eqn:Hl'.
    { apply (f_equal length) in Hl'. rewrite length_drop in Hl'. unfold argc, zlen in Hmore. simpl in Hl'. lia. }
    change (join 32 (a :: b :: l)) with (a ++ [32] ++ join 32 (b :: l)).
    eapply wrote_app; [exact W1|]. by eapply wrote_app.
  - wp_run. wp_use IH; [by eapply wrote_live|lia|lia|done|]. intros [] u3 W3.
    rewrite drop_ge in * by (unfold argc, zlen in *; lia). simpl.
    rewrite <- (app_nil_r a). by eapply wrote_app.
Qed.

(** [echo] prints its arguments with spaces between them and a line end,
    which a first argument [-n] leaves out, and exits with 0. *)
Theorem echo_prints u nm args :
  live u → Forall arg_ok args → str "--help" ∉ args →
  wp (echo_main (nm :: args)) (λ rc u', rc = 0 ∧ wrote (echo_text args) u u') u.
Proof.
  intros Hl Hok Hno. unfold echo_main, argc. rewrite zlen_cons. pose proof (zlen_nonneg args).
  assert (∀ j, 1 ≤ j < argc (nm :: args) → arg_str (nm :: args) j ≠ str "--help") as Hplain.
  { intros j Hj. destruct (zget_lt (nm :: args) j) as [a Ha]; [unfold argc in Hj; lia|].
    assert (a ∈ args) as Hin.
    { unfold zget in Ha. rewrite decide_True in Ha by lia.
      replace (Z.to_nat j) with (S (Z.to_nat (j - 1))) in Ha by lia.
      by apply (list_elem_of_lookup_2 args (Z.to_nat (j - 1))). }
    rewrite (arg_str_at _ _ _ Ha) by (by eapply Forall_forall in Hok). by intros ->. }
  wp_step. wp_use (wp_echo_help (nm :: args) 1); [done|unfold argc; rewrite zlen_cons; lia|exact Hplain|].
  intros r u0 [-> ->]. cbv zeta.
  assert (((1 <? 1 + zlen args) && bool_decide (arg_str (nm :: args) 1 = str "-n")) =
          bool_decide (head args = Some (str "-n"))) as ->.
  { destruct args as [|a args]; [done|]. inversion Hok as [|? ? Hok1 Hok2]; subst. rewrite zlen_cons.
    pose proof (zlen_nonneg args). rewrite (proj2 (Z.ltb_lt _ _)) by lia.
    rewrite (arg_str_at (nm :: a :: args) 1 a eq_refl Hok1). simpl. apply bool_decide_ext. naive_solver. }
  unfold echo_text. case_bool_decide as Hn.
  - destruct args as [|a args]; [done|]. wp_step. rewrite zlen_cons in *. pose proof (zlen_nonneg args).
    wp_use (wp_echo_args (nm :: a :: args) 2); [done|done|unfold argc; rewrite !zlen_cons; lia| |].
    { by apply Forall_inv_tail in Hok. }
    intros [] u1 Hw. by wp_run.
  - wp_step. wp_use (wp_echo_args (nm :: args) 1); [done|done|unfold argc; rewrite !zlen_cons; lia|exact Hok|].
    intros [] u1 Hw. wp_step. wp_step. wp_use wp_putchar; [by eapply wrote_live|done|]. intros _ u2 Hw2.
    wp_run. split; [done|]. by eapply wrote_app.
Qed.
End echo.

(** ** Opening and reading files *)
Section files.
Context {U : Type} `{FileLaws U}.
Implicit Types u : U.

Lemma path_buf_arg a : arg_ok a → path_buf (cstr 256 a) a.
Proof. intros []. by apply path_buf_cstr. Qed.

(** The bytes of the file a path names. *)
Definition content_of u (path : list Z) : option (list Z) := Tmpfs.file_data (tree u) (node_of u path).

Lemma is_file_data x nd : Tmpfs.fs_ok x →
  (0 <=? nd) && (Tmpfs.node_typ x nd =? Tmpfs.VN_FILE) =
  match Tmpfs.file_data x nd with Some _ => true | None => false end.
Proof.
  intros Hok. destruct (Tmpfs.ok_root _ Hok) as (root & Hr & Ht & _).
  unfold Tmpfs.file_data, Tmpfs.is_file, Tmpfs.node_typ. destruct (zget (Tmpfs.nodes x) nd) as [d|] eqn:Hd.
  2: { by rewrite andb_false_r. }
  pose proof (zget_Some_lt _ _ _ Hd). rewrite (proj2 (Z.leb_le 0 nd)) by lia. simpl.
  destruct (Z.eqb_spec (Tmpfs.typ d) Tmpfs.VN_FILE) as [E|E]; [|by rewrite andb_false_r].
  rewrite (proj2 (Z.ltb_lt 0 nd)); [done|]. destruct (decide (nd = 0)) as [->|]; [|lia].
  rewrite Hr in Hd. injection Hd as <-. by rewrite Ht in E.
Qed.

(** Between calls only descriptor [fd] changes hands; [fd] is the lowest free
    one before and after. *)
Record quiet (fd : Z) u u' : Prop := {
  qt_tree : tree u' = tree u;
  qt_cwd : cwd u' = cwd u;
  qt_fds : ∃ d, fds u' = zset (fds u) fd d;
}.
Definition acted (outs : list Z) (fd : Z) u u' : Prop := acts [] outs u u' ∧ live u' ∧ quiet fd u u'.

Lemma acted_app a b fd u u1 u2 : acted a fd u u1 → acted b fd u1 u2 → acted (a ++ b) fd u u2.
Proof.
  intros (Ha & _ & [T1 C1 (d1 & F1)]) (Hb & Hl & [T2 C2 (d2 & F2)]). split_and!; [|done|].
  - change ([] : list Z) with ([] ++ [] : list Z). by eapply acts_app.
  - split; [congruence|congruence|]. exists d2. by rewrite F2, F1, zset_zset.
Qed.
Lemma acted_live outs fd u u' : acted outs fd u u' → live u'.
Proof. by intros (_ & Hl & _). Qed.
Lemma files_split u t c l : files u = (t, c, l) → tree u = t ∧ cwd u = c ∧ fds u = l.
Proof. unfold tree, cwd, fds. by intros ->. Qed.
Lemma acted_files outs fd u u' d :
  acts [] outs u u' → live u' → files u' = (tree u, cwd u, zset (fds u) fd d) → acted outs fd u u'.
Proof.
  intros Ha Hl (E1 & E2 & E3)%files_split. split_and!; [done|done|]. split; [done|done|by exists d].
Qed.

Lemma lowest_free u fd : lowest_fd u = Some fd →
  Sched.UFD_FIRST ≤ fd < Sched.UFD_MAX ∧ 0 ≤ fd < zlen (fds u) ∧
  ∃ d, zget (fds u) fd = Some d ∧ Sched.node d < 0.
Proof.
  intros (Hr & Hf & _)%find_first_Some. destruct (zget (fds u) fd) as [d|] eqn:Hd; [|done].
  pose proof (zget_Some_lt _ _ _ Hd). split; [done|]. split; [lia|]. exists d. split; [done|].
  by apply Z.ltb_lt in Hf.
Qed.
Lemma lowest_set u fd l d : lowest_fd u = Some fd → Sched.node d < 0 → l = zset (fds u) fd d →
  find_first (λ i, match zget l i with Some d => Sched.node d <? 0 | None => false end)
    Sched.UFD_FIRST Sched.UFD_MAX = Some fd.
Proof.
  intros Hlow Hd ->. pose proof (lowest_free u fd Hlow) as (_ & Hlt & _).
  apply find_first_Some in Hlow as (Hr & _ & Hbefore). apply find_first_Some. split; [done|]. split.
  - rewrite zget_zset_eq by lia. by apply Z.ltb_lt.
  - intros j Hj. rewrite zget_zset_ne by (unfold Sched.UFD_FIRST in *; lia). by apply Hbefore.
Qed.

Lemma wp_open_read u a fd :
  live u → arg_ok a → lowest_fd u = Some fd →
  wp (open (cstr 256 a) O_RDONLY) (λ r u',
    match content_of u a with
    | Some _ => r = fd ∧ acted [] fd u u' ∧ fd_at u' fd (node_of u a) 0
    | None => r = -1 ∧ wrote [] u u'
    end) u.
Proof.
  intros Hl Ha Hlow. pose proof (live_fs u Hl) as Hok. pose proof (lowest_free u fd Hlow) as (Hfd & Hlt & _).
  unfold open, call. do 2 wp_step. wp_use open_law; [done|by apply path_buf_arg|done|].
  intros r u' (Hact & Hl' & Hcase). do 2 wp_step. unfold SyscallSpec.open_node in Hcase. cbv zeta in Hcase.
  change (Z.land O_RDONLY 2 =? 0) with true in Hcase. cbn [negb] in Hcase. rewrite andb_false_r in Hcase.
  fold (node_of u a) in Hcase. rewrite Hlow, (is_file_data _ _ Hok) in Hcase. unfold content_of.
  destruct (Tmpfs.file_data (tree u) (node_of u a)) as [data|] eqn:Hd.
  - destruct Hcase as [-> Hf]. pose proof (files_split _ _ _ _ Hf) as (Ht & Hc & Hfds).
    unfold Sched.UFD_FIRST, Sched.UFD_MAX in Hfd. cbn [fst].
    split; [apply i32_id; lia|]. split; [by eapply acted_files|]. split; [done|].
    rewrite Hfds, zget_zset_eq by lia. split; [done|].
    unfold Tmpfs.file_data, Tmpfs.is_file in Hd. destruct (zget _ (node_of u a)) eqn:Hn; [|done].
    apply zget_Some_lt in Hn. lia.
  - destruct Hcase as [-> Hf]. split; [done|]. split_and!; [done|done|].
    rewrite Hf. unfold tree, cwd, fds. by destruct (files u) as [[? ?] ?].
Qed.

Lemma wp_fread u fd nd pos data buf :
  live u → fd_at u fd nd pos → 0 ≤ pos < 2 ^ 63 → Tmpfs.file_data (tree u) nd = Some data →
  zlen buf ≤ BUF_MAX → bytes buf →
  let got := slice pos (Z.min (zlen buf) (zlen data - pos)) data in
  wp (read fd buf) (λ r u', r = (zlen got, got ++ drop (length got) buf) ∧
    acted [] fd u u' ∧ fd_at u' fd nd (pos + zlen got)) u.
Proof.
  intros Hl Hfd Hpos Hd Hlen Hb got. unfold read, call_out. wp_step. wp_use fread_law; [done..|].
  intros r u' (-> & Ha & Hl' & Hf). wp_run. apply wp_of_option. eexists. split; [done|]. wp_run.
  split; [done|]. split; [by eapply acted_files|].
  pose proof (files_split _ _ _ _ Hf) as (_ & _ & Hfds). destruct Hfd as (Hr & Hg & Hnd).
  split; [done|]. rewrite Hfds, zget_zset_eq by (by eapply zget_Some_lt). done.
Qed.

Lemma wp_close u fd nd pos :
  live u → fd_at u fd nd pos →
  wp (close fd) (λ r u', acted [] fd u u' ∧ fds u' = zset (fds u) fd (Sched.mkUfd (-1) pos)) u.
Proof.
  intros Hl Hfd. unfold close, call. do 2 wp_step. wp_use close_law; [done..|].
  intros r u' (-> & Ha & Hl' & Hf). wp_run. split; [by eapply acted_files|]. by apply files_split in Hf as (_ & _ & ?).
Qed.
End files.

(** ** [cat] *)
Section cat.
Context {U : Type} `{FileLaws U}.
Implicit Types u : U.

(** Turns of a loop that reads [k] bytes at a time from [pos] on. *)
Definition offset (fd : Z) u : Z := match zget (fds u) fd with Some d => Sched.pos d | None => 0 end.
Definition turns_left (k len fd : Z) u : nat := Z.to_nat ((len - offset fd u + k - 1) / k).

Lemma fd_offset u fd nd pos : fd_at u fd nd pos → offset fd u = pos.
Proof. intros (_ & Hg & _). unfold offset. by rewrite Hg. Qed.
Lemma turns_step (k len pos got : Z) :
  0 < k → 0 ≤ pos ≤ len → got = Z.min k (len - pos) → 0 < got →
  (Z.to_nat ((len - (pos + got) + k - 1) / k) < Z.to_nat ((len - pos + k - 1) / k))%nat.
Proof.
  intros Hk Hpos -> Hg. assert (0 ≤ (len - (pos + Z.min k (len - pos)) + k - 1) / k) by (apply Z.div_pos; lia).
  assert ((len - (pos + Z.min k (len - pos)) + k - 1) / k < (len - pos + k - 1) / k); [|lia].
  destruct (Z.le_ge_cases k (len - pos)).
  - rewrite Z.min_l by lia. replace (len - (pos + k) + k - 1) with (len - pos + k - 1 + (-1) * k) by lia.
    rewrite Z.div_add by lia. lia.
  - rewrite Z.min_r by lia. rewrite (Z.div_small (len - (pos + (len - pos)) + k - 1)) by lia.
    apply Z.div_str_pos. lia.
Qed.

Lemma acted_tree outs fd u u' : acted outs fd u u' → tree u' = tree u.
Proof. by intros (_ & _ & [Ht _ _]). Qed.
Lemma wrote_acted outs fd u u' : wrote outs u u' → is_Some (zget (fds u) fd) → acted outs fd u u'.
Proof.
  intros (Ha & Hl & Hf) [d Hd]. eapply acted_files; [done|done|]. rewrite (zset_id _ _ _ Hd), Hf.
  unfold tree, cwd, fds. by destruct (files u) as [[? ?] ?].
Qed.
Lemma wrote_fd outs u u' fd nd pos : wrote outs u u' → fd_at u fd nd pos → fd_at u' fd nd pos.
Proof. intros (_ & _ & Hf). unfold fd_at, fds. by rewrite Hf. Qed.
Lemma fd_some u fd nd pos : fd_at u fd nd pos → is_Some (zget (fds u) fd).
Proof. intros (_ & Hg & _). rewrite Hg. by eexists. Qed.

Lemma slice_front {A} (l l' : list A) : slice 0 (zlen l) (l ++ l') = l.
Proof. unfold slice, zlen. simpl. by rewrite drop_0, Nat2Z.id, take_app_length. Qed.
Lemma take_slice_more (data : list Z) pos n :
  0 ≤ pos → 0 ≤ n → take (Z.to_nat pos) data ++ slice pos n data = take (Z.to_nat (pos + n)) data.
Proof. intros Hp Hn. unfold slice. rewrite Z2Nat.inj_add by done. by rewrite take_take_drop. Qed.
Lemma acted_refl fd u : live u → is_Some (zget (fds u) fd) → acted [] fd u u.
Proof. intros Hl Hs. apply wrote_acted; [by apply wrote_none|done]. Qed.
Lemma bytes_slice p n l : bytes l → bytes (slice p n l).
Proof. intros Hl. by apply Forall_take, Forall_drop. Qed.

(** The buffer after a read: as long as before, the bytes read in front. *)
Lemma read_buffer (buf got : list Z) :
  bytes buf → bytes got → zlen got ≤ zlen buf →
  zlen (got ++ drop (length got) buf) = zlen buf ∧ bytes (got ++ drop (length got) buf).
Proof.
  intros Hb Hg Hl. split; [|by apply bytes_app; [|apply Forall_drop]].
  unfold zlen in *. rewrite length_app, length_drop. lia.
Qed.
Lemma zlen_got (data : list Z) pos k :
  0 ≤ pos ≤ zlen data → 0 ≤ k → zlen (slice pos (Z.min k (zlen data - pos)) data) = Z.min k (zlen data - pos).
Proof. intros Hp Hk. apply zlen_slice; lia. Qed.

Lemma wp_cat_copy fuel u fd nd data a :
  live u → fd_at u fd nd 0 → Tmpfs.file_data (tree u) nd = Some data → (256 < fuel)%nat →
  wp (loop fuel (cat_copy_step fd a) (replicate 4096 0)) (λ r u', r = false ∧
    acted data fd u u' ∧ fd_at u' fd nd (zlen data)) u.
Proof.
  intros Hl Hfd Hd Hfuel. pose proof (live_bytes _ _ _ Hl Hd) as Hbytes.
  pose proof (Tmpfs.file_data_len _ _ _ (live_fs u Hl) Hd) as Hmax. pose proof (zlen_nonneg data).
  apply (wp_loop_state (λ buf u', ∃ pos, 0 ≤ pos ≤ zlen data ∧ acted (take (Z.to_nat pos) data) fd u u' ∧
      fd_at u' fd nd pos ∧ zlen buf = 4096 ∧ bytes buf) (λ _, turns_left 4096 (zlen data) fd)).
  - exists 0. split; [lia|]. split; [by apply acted_refl; [|eapply fd_some]|]. split; [done|].
    split; [by rewrite zlen_replicate|]. apply Forall_replicate. lia.
  - unfold turns_left. rewrite (fd_offset _ _ _ _ Hfd). unfold Tmpfs.TN_POOL in Hmax.
    assert ((zlen data - 0 + 4096 - 1) / 4096 < 257) by (apply Z.div_lt_upper_bound; lia). lia.
  - intros buf u1 (pos & Hpos & Ha & Hf & Hbl & Hb). unfold cat_copy_step. wp_step.
    pose proof (acted_tree _ _ _ _ Ha) as Ht. unfold Tmpfs.TN_POOL in Hmax.
    wp_use wp_fread; [by eapply acted_live|exact Hf|lia|by rewrite Ht|by rewrite Hbl|done|].
    intros r u2 (-> & Ha2 & Hf2). cbv zeta in *. rewrite Hbl in *. set (got := slice pos _ data) in *.
    assert (zlen got = Z.min 4096 (zlen data - pos)) as Hg by (apply zlen_got; lia).
    destruct (Z.leb_spec (zlen got) 0) as [Hend|Hmore].
    + rewrite (proj2 (Z.ltb_ge (zlen got) 0)) by lia. wp_run.
      replace (pos + zlen got) with (zlen data) in Hf2 by lia. split; [done|]. split; [|done].
      rewrite take_ge in Ha by (unfold zlen in *; lia). rewrite <- (app_nil_r data). by eapply acted_app.
    + rewrite slice_front. wp_step. wp_use wp_write; [by eapply acted_live|by left|unfold BUF_MAX; lia|by apply bytes_slice|].
      intros _ u3 [_ W3]. wp_run. pose proof (wrote_fd _ _ _ _ _ _ W3 Hf2) as Hf3. split.
      * exists (pos + zlen got). split; [lia|]. split; [|split; [done|]].
        -- rewrite Hg, <- take_slice_more by lia. rewrite <- (app_nil_l (slice pos _ data)).
           eapply acted_app; [exact Ha|]. eapply acted_app; [exact Ha2|].
           apply wrote_acted; [exact W3|by eapply fd_some].
        -- rewrite <- Hbl. apply read_buffer; [done|by apply bytes_slice|lia].
      * unfold turns_left. rewrite (fd_offset _ _ _ _ Hf3), (fd_offset _ _ _ _ Hf). apply turns_step; lia.
Qed.

Definition cat_text u (a : list Z) : list Z :=
  match content_of u a with
  | Some data => data
  | None => str "cat: " ++ a ++ str ": cannot open" ++ [10]
  end.
Definition cat_code u (rc : Z) (a : list Z) : Z := match content_of u a with Some _ => rc | None => 1 end.

Lemma wp_cat_arg fuel u fd rc have a :
  live u → arg_ok a → a ≠ str "--help" → lowest_fd u = Some fd → (256 < fuel)%nat →
  wp (cat_arg fuel (rc, have) a) (λ r u', r = inl (cat_code u rc a, true) ∧
    acted (cat_text u a) fd u u' ∧ lowest_fd u' = Some fd) u.
Proof.
  intros Hl Ha Hh Hlow Hfuel. pose proof (ao_len _ Ha). pose proof (ao_byte _ Ha).
  pose proof (lowest_free u fd Hlow) as (Hfd & Hlt & d & Hd & _).
  unfold cat_arg, is_help. rewrite bool_decide_false by done. wp_step. wp_use wp_open_read; [done|done|done|].
  intros r u1 Hopen. unfold cat_text, cat_code. destruct (content_of u a) as [data|] eqn:Hdata.
  - destruct Hopen as (-> & Ha1 & Hf1). unfold Sched.UFD_FIRST in Hfd. rewrite (proj2 (Z.ltb_ge fd 0)) by lia.
    wp_step. wp_use (wp_cat_copy fuel u1 fd (node_of u a) data); [by eapply acted_live|done| |done|].
    { by rewrite (acted_tree _ _ _ _ Ha1). }
    intros r u2 (-> & Ha2 & Hf2). wp_step. wp_use wp_close; [by eapply acted_live|exact Hf2|].
    intros _ u3 [Ha3 Hfds]. wp_run. split; [done|].
    assert (acted data fd u u3) as Hall.
    { rewrite <- (app_nil_l data), <- (app_nil_r ([] ++ data)).
      eapply acted_app; [|exact Ha3]. by eapply acted_app. }
    split; [exact Hall|]. eapply (lowest_set u); [done| |].
    2: { destruct Ha1 as (_ & _ & [_ _ [d1 E1]]), Ha2 as (_ & _ & [_ _ [d2 E2]]).
         rewrite Hfds, E2, E1, !zset_zset. reflexivity. }
    done.
  - destruct Hopen as (-> & W1). change (-1 <? 0) with true. cbv iota. wp_step.
    wp_use wp_eprintln; [by eapply wrote_live|short|auto with bytes|]. intros [] u2 W2. wp_run.
    assert (wrote (str "cat: " ++ a ++ str ": cannot open" ++ [10]) u u2) as W.
    { rewrite <- (app_nil_l (str "cat: " ++ _)). eapply wrote_app; [exact W1|]. by rewrite <- !app_assoc in W2. }
    split; [done|]. split; [apply wrote_acted; [exact W|by eexists]|].
    destruct W as (_ & _ & Hf). unfold lowest_fd, fds. by rewrite Hf.
Qed.
End cat.

(** ** Programs over all their arguments *)
Section arguments.
Context {U : Type} `{FileLaws U}.
Implicit Types u : U.

Lemma wp_for_args {A} (body : A → list Z → M U (A + Z)) (I : list (list Z) → A → U → Prop) nm args :
  Forall arg_ok args →
  (∀ pre x a u, x ∈ args → I pre a u →
     wp (body a x) (λ r u', ∃ a', r = inl a' ∧ I (pre ++ [x]) a' u') u) →
  ∀ pre post a u, args = pre ++ post → I pre a u →
  wp (for_args body (nm :: args) (1 + zlen pre) (length post) a) (λ r u', ∃ a', r = inl a' ∧ I args a' u') u.
Proof.
  intros Hok Hbody pre post. revert pre. induction post as [|x post IH]; intros pre a u E HI.
  { wp_run. rewrite app_nil_r in E. subst. by exists a. }
  assert (x ∈ args) as Hx by (rewrite E; apply elem_of_app; right; left).
  cbn [for_args length]. assert (zget (nm :: args) (1 + zlen pre) = Some x) as Hg.
  { pose proof (zlen_nonneg pre). change (nm :: args) with ([nm] ++ args).
    rewrite zget_app_r by (change (zlen [nm]) with 1; lia). change (zlen [nm]) with 1.
    rewrite E, zget_app_r by lia. by replace (1 + zlen pre - 1 - zlen pre) with 0 by lia. }
  rewrite (arg_str_at _ _ _ Hg) by (by eapply Forall_forall in Hok). wp_step.
  wp_use Hbody; [done|exact HI|]. intros r u1 (a1 & -> & HI1).
  replace (1 + zlen pre + 1) with (1 + zlen (pre ++ [x])) by (rewrite zlen_app; change (zlen [x]) with 1; lia).
  apply IH; [by rewrite <- app_assoc|done].
Qed.

Lemma wp_over_args {A} (body : A → list Z → M U (A + Z)) (I : list (list Z) → A → U → Prop) nm args a u :
  Forall arg_ok args → I [] a u →
  (∀ pre x a u, x ∈ args → I pre a u →
     wp (body a x) (λ r u', ∃ a', r = inl a' ∧ I (pre ++ [x]) a' u') u) →
  wp (over_args body (nm :: args) a) (λ r u', ∃ a', r = inl a' ∧ I args a' u') u.
Proof.
  intros Hok HI Hbody. unfold over_args, argc. rewrite zlen_cons.
  replace (Z.to_nat (1 + zlen args - 1)) with (length args) by (unfold zlen; lia).
  by apply (wp_for_args body I nm args Hok Hbody []).
Qed.

(** C11: [cat] prints the bytes of every file named, in order, and a line of
    complaint for a name that is not a file's; its code is 1 if there was one,
    and it leaves the files and the caller's descriptors as they were.  A turn
    of the copying loop for every 4096 bytes and one more are enough. *)
Theorem cat_copies_files u nm args fd fuel :
  live u → Forall arg_ok args → str "--help" ∉ args → args ≠ [] → lowest_fd u = Some fd →
  (256 < fuel)%nat →
  wp (cat_main fuel (nm :: args)) (λ rc u', rc = foldl (cat_code u) 0 args ∧
    acted (args ≫= cat_text u) fd u u' ∧ lowest_fd u' = Some fd) u.
Proof.
  intros Hl Hok Hh Hne Hlow Hfuel. pose proof (lowest_free u fd Hlow) as (_ & _ & d & Hd & _).
  unfold cat_main. wp_step.
  wp_use (wp_over_args (cat_arg fuel) (λ pre st u', st = (foldl (cat_code u) 0 pre, bool_decide (pre ≠ [])) ∧
    acted (pre ≫= cat_text u) fd u u' ∧ lowest_fd u' = Some fd) nm args).
  - done.
  - split; [done|]. split; [|done]. apply acted_refl; [done|by eexists].
  - intros pre x st u1 Hx (-> & Ha & Hlow1). pose proof Ha as (_ & Hl1 & [Ht Hc _]).
    assert (content_of u1 x = content_of u x) as Hcont.
    { unfold content_of, node_of. by rewrite Ht, Hc. }
    wp_use wp_cat_arg; [done|by eapply Forall_forall in Hok|by intros ->|done|done|].
    intros r u2 (-> & Ha2 & Hlow2). eexists. split; [done|]. split; [|split; [|done]].
    + unfold cat_code at 1. rewrite Hcont, foldl_snoc. f_equal. by destruct pre.
    + rewrite bind_app. eapply acted_app; [exact Ha|]. simpl. rewrite app_nil_r.
      unfold cat_text in *. by rewrite <- Hcont.
  - intros r u1 (st & -> & -> & Ha & Hlow1). rewrite bool_decide_true by done. by wp_run.
Qed.
End arguments.

(** ** [hexdump] *)
Definition hex_of_byte (b : Z) : list Z := [digit (b / 16); digit (b mod 16)].
Definition cell_text (row : list Z) (i : Z) : list Z :=
  match zget row i with Some b => hex_of_byte b ++ [32] | None => str "   " end ++
  (if i =? 7 then [32] else []).
Definition printable (c : Z) : Z := if (32 <=? c) && (c <? 127) then c else 46.
Definition row_text (off : Z) (row : list Z) : list Z :=
  hex8 (u32 off) ++ str "  " ++ (seqZ 0 16 ≫= cell_text row) ++ str " |" ++ (printable <$> row) ++ str "|" ++ [10].
Definition rows (data : list Z) : Z := (zlen data + 15) / 16.
Definition dump_row (data : list Z) (k : Z) : list Z := row_text (16 * k) (slice (16 * k) 16 data).
Definition dump (data : list Z) : list Z := seqZ 0 (rows data) ≫= dump_row data.

Example dump_demo :
  dump (str "Hello, world" ++ [0; 255]) =
  text "00000000  48 65 6c 6c 6f 2c 20 77  6f 72 6c 64 00 ff        |Hello, world..|".
Proof. by vm_compute. Qed.

Section hexdump.
Context {U : Type} `{FileLaws U}.
Implicit Types u : U.

Lemma hex_at d : 0 ≤ d < 16 → HEX.[d] = Some (digit d).
Proof.
  intros Hd. assert (Forall (λ d, HEX.[d] = Some (digit d)) (seqZ 0 16)) as Hall.
  { by repeat constructor. }
  rewrite Forall_forall in Hall. apply Hall, elem_of_seqZ. lia.
Qed.
Lemma seqZ_snoc {A} (f : Z → list A) i : 0 ≤ i → seqZ 0 (i + 1) ≫= f = (seqZ 0 i ≫= f) ++ f i.
Proof. intros Hi. rewrite seqZ_app by lia. rewrite bind_app. simpl. by rewrite app_nil_r, Z.add_0_l. Qed.
Lemma digit_byte d : 0 ≤ d < 16 → 0 ≤ digit d < 2 ^ 8.
Proof. intros Hd. unfold digit. destruct (d <? 10); lia. Qed.

Lemma wp_hex_cell u got rest i :
  live u → bytes got → 0 ≤ i < 16 →
  wp (hex_cell (got ++ rest) (zlen got) i) (λ _ u', wrote (cell_text got i) u u') u.
Proof.
  intros Hl Hb Hi. unfold hex_cell, cell_text.
  assert (∀ outs u1, wrote outs u u1 →
    wp (if i =? 7 then _ ← putchar 32; mret tt else mret tt)
      (λ _ u', wrote (outs ++ (if i =? 7 then [32] else [])) u u') u1) as Htail.
  { intros outs u1 W. destruct (i =? 7); [|wp_run; by rewrite app_nil_r].
    wp_step. wp_use wp_putchar; [by eapply wrote_live|done|]. intros _ u2 W2. wp_run. by eapply wrote_app. }
  wp_step. destruct (Z.ltb_spec i (zlen got)) as [Hin|Hout].
  - destruct (zget_lt got i) as [b Hg]; [lia|]. rewrite Hg.
    assert (0 ≤ b < 256) as Hbb.
    { by apply (Forall_zget _ _ _ _ Hb Hg). }
    wp_step. apply wp_of_option. exists b. split; [by rewrite zget_app_l|].
    rewrite Z.shiftr_div_pow2 by lia. change 15 with (Z.ones 4). rewrite Z.land_ones by lia.
    change (2 ^ 4) with 16. assert (0 ≤ b / 16 < 16 ∧ 0 ≤ b mod 16 < 16) as [Hhi Hlo] by dlia.
    wp_step. apply wp_of_option. exists (digit (b / 16)). split; [by apply hex_at|].
    wp_step. apply wp_of_option. exists (digit (b mod 16)). split; [by apply hex_at|].
    wp_use wp_print; [done|short|by repeat first [apply Forall_cons; split; [by apply digit_byte || lia|]|constructor]|].
    intros _ u1 W. by apply Htail.
  - rewrite (proj2 (zget_None got i)) by lia.
    wp_use wp_print; [done|short|apply bytes_str|]. intros _ u1 W. by apply Htail.
Qed.

Lemma wp_text_cell u got rest i :
  live u → bytes got → 0 ≤ i < zlen got →
  wp (text_cell (got ++ rest) i) (λ _ u', wrote [printable (default 0 (zget got i))] u u') u.
Proof.
  intros Hl Hb Hi. unfold text_cell. destruct (zget_lt got i) as [c Hg]; [lia|]. rewrite Hg. simpl.
  assert (0 ≤ c < 256) as Hc.
  { by apply (Forall_zget _ _ _ _ Hb Hg). }
  wp_step. apply wp_of_option. exists c. split; [by rewrite zget_app_l by lia|].
  rewrite Z.geb_leb. fold (printable c). wp_step. wp_use wp_putchar; [done| |].
  { unfold printable. destruct (_ && _); lia. }
  intros _ u1 W. by wp_run.
Qed.

Lemma wrote_loop (f : Z → M U unit) (g : Z → list Z) n u :
  live u → 0 ≤ n → (∀ i u, live u → 0 ≤ i < n → wp (f i) (λ _ u', wrote (g i) u u') u) →
  wp (for_each 0 n f) (λ _ u', wrote (seqZ 0 n ≫= g) u u') u.
Proof.
  intros Hl Hn Hf. apply (wp_for_each (λ i u', wrote (seqZ 0 i ≫= g) u u')); [done|by apply wrote_none| |done].
  intros i u1 Hi W. wp_use Hf; [by eapply wrote_live|done|]. intros [] u2 W2.
  rewrite seqZ_snoc by lia. by eapply wrote_app.
Qed.
End hexdump.

Section hexdump_main.
Context {U : Type} `{FileLaws U}.
Implicit Types u : U.

Lemma bind_single (l : list Z) :
  (seqZ 0 (zlen l) ≫= λ i, [printable (default 0 (zget l i))]) = printable <$> l.
Proof.
  assert (∀ k, 0 ≤ k → k ≤ zlen l →
    (seqZ 0 k ≫= λ i, [printable (default 0 (zget l i))]) = printable <$> take (Z.to_nat k) l) as Hk.
  { intros k Hk. pattern k. revert k Hk. apply natlike_ind; [done|].
    intros j Hj IH Hle. change (Z.succ j) with (j + 1) in *. rewrite seqZ_snoc by lia. rewrite IH by lia.
    destruct (zget_lt l j) as [x Hx]; [lia|]. by rewrite (take_snoc _ _ _ Hx), fmap_app, Hx. }
  rewrite Hk by (pose proof (zlen_nonneg l); lia). rewrite take_ge; [done|]. unfold zlen. lia.
Qed.

Lemma hex8_short v : zlen (hex8 v) ≤ 24.
Proof.
  pose proof (digits_short 16 16 v) as Hs. unfold hex8, hex_u in *. rewrite zlen_app, zlen_replicate.
  unfold zlen. lia.
Qed.
Lemma hex8_bytes v : bytes (hex8 v).
Proof. apply bytes_app; [apply Forall_replicate; lia|by apply digits_bytes]. Qed.

(** One row of output. *)
Lemma wp_hexdump_rest {A} (a : A) u off got rest (Q : A → U → Prop) :
  live u → bytes got → zlen got ≤ 16 →
  (∀ u', wrote (row_text off got) u u' → Q a u') →
  wp (print (hex8 (u32 off) ++ str "  ");;
      for_each 0 16 (hex_cell (got ++ rest) (zlen got));;
      print (str " |");;
      for_each 0 (zlen got) (text_cell (got ++ rest));;
      println (str "|");;
      mret a) Q u.
Proof.
  intros Hl Hb Hlen HQ. pose proof (zlen_nonneg got). pose proof (hex8_short (u32 off)).
  wp_step. wp_use wp_print; [done|short|apply bytes_app; [apply hex8_bytes|apply bytes_str]|]. intros [] u1 W1.
  wp_step. wp_use (wrote_loop _ (cell_text got) 16); [by eapply wrote_live|done| |].
  { intros i u' Hl' Hi. by apply wp_hex_cell. }
  intros [] u2 W2. wp_step. wp_use wp_print; [by eapply wrote_live|short|apply bytes_str|]. intros [] u3 W3.
  wp_step. wp_use (wrote_loop _ (λ i, [printable (default 0 (zget got i))]) (zlen got)); [by eapply wrote_live|done| |].
  { intros i u' Hl' Hi. by apply wp_text_cell. }
  rewrite bind_single. intros [] u4 W4. wp_step.
  wp_use wp_println; [by eapply wrote_live|short|apply bytes_str|].
  intros [] u5 W5. wp_run. apply HQ. unfold row_text. rewrite (app_assoc (hex8 _)).
  repeat (eapply wrote_app; [eassumption|]). done.
Qed.

Lemma wp_hexdump_loop fuel u fd nd data :
  live u → fd_at u fd nd 0 → Tmpfs.file_data (tree u) nd = Some data → 65536 < Z.of_nat fuel →
  wp (loop fuel (hexdump_step fd) (replicate 16 0, 0)) (λ r u', r = 0 ∧
    acted (dump data) fd u u' ∧ ∃ pos, fd_at u' fd nd pos) u.
Proof.
  intros Hl Hfd Hd Hfuel. pose proof (live_bytes _ _ _ Hl Hd) as Hbytes.
  pose proof (Tmpfs.file_data_len _ _ _ (live_fs u Hl) Hd) as Hmax. pose proof (zlen_nonneg data).
  unfold Tmpfs.TN_POOL in Hmax. assert (0 ≤ rows data ≤ 65536 ∧ 16 * rows data < zlen data + 16 ∧ zlen data ≤ 16 * rows data) as Hrows by (unfold rows; dlia).
  apply (wp_loop_state (λ '(row, off) u', ∃ k, 0 ≤ k ≤ rows data ∧ off = Z.min (16 * k) (zlen data) ∧
      acted (seqZ 0 k ≫= dump_row data) fd u u' ∧ fd_at u' fd nd off ∧ zlen row = 16 ∧ bytes row)
    (λ '(_, off) _, Z.to_nat ((zlen data - off + 16 - 1) / 16))).
  - exists 0. split; [lia|]. split; [lia|]. split; [by apply acted_refl; [|eapply fd_some]|]. split; [done|].
    split; [done|]. apply Forall_replicate. lia.
  - assert ((zlen data - 0 + 16 - 1) / 16 < 65537) by (apply Z.div_lt_upper_bound; lia). lia.
  - intros [row off] u1 (k & Hk & Hoff & Ha & Hf & Hrl & Hb). unfold hexdump_step. wp_step.
    pose proof (acted_tree _ _ _ _ Ha) as Ht.
    wp_use wp_fread; [by eapply acted_live|exact Hf|lia|by rewrite Ht|rewrite Hrl; unfold BUF_MAX; lia|done|].
    intros r u2 (-> & Ha2 & Hf2). cbv zeta in *. rewrite Hrl in *. set (got := slice off _ data) in *.
    assert (zlen got = Z.min 16 (zlen data - off)) as Hg by (apply zlen_got; lia).
    rewrite (proj2 (Z.ltb_ge (zlen got) 0)) by lia.
    assert (acted (seqZ 0 k ≫= dump_row data) fd u u2) as Ha12.
    { rewrite <- (app_nil_r (_ ≫= _)). by eapply acted_app. }
    destruct (Z.eqb_spec (zlen got) 0) as [Hend|Hmore].
    + wp_run. assert (k = rows data) as -> by lia. split; [done|]. split; [exact Ha12|]. by eexists.
    + assert (off = 16 * k ∧ k < rows data) as [Hk16 Hlt] by lia.
      assert (got = slice (16 * k) 16 data) as Hgot.
      { apply list_eq_zget; [rewrite Hg; unfold slice; rewrite zlen_take, zlen_drop by lia; lia|].
        intros i Hi. rewrite (zget_slice (16 * k)) by lia. unfold got. rewrite zget_slice by lia. by rewrite Hk16. }
      apply wp_hexdump_rest; [by eapply acted_live|by apply bytes_slice|lia|].
      intros u3 W3. pose proof (wrote_fd _ _ _ _ _ _ W3 Hf2) as Hf3. rewrite u64_id by lia. split.
      * exists (k + 1). split; [lia|]. split; [lia|]. split; [|split; [done|]].
        -- rewrite seqZ_snoc by lia. eapply acted_app; [exact Ha12|]. unfold dump_row.
           rewrite <- Hgot, <- Hk16. apply wrote_acted; [exact W3|by eapply fd_some].
        -- rewrite <- Hrl. apply read_buffer; [done|by apply bytes_slice|lia].
      * apply turns_step; lia.
Qed.
End hexdump_main.

Section hexdump_theorem.
Context {U : Type} `{FileLaws U}.
Implicit Types u : U.

Definition hexdump_text u (path : list Z) : list Z :=
  match content_of u path with
  | Some data => dump data
  | None => str "hexdump: " ++ path ++ str ": cannot open" ++ [10]
  end.

Lemma wp_hexdump_file fuel u fd path :
  live u → arg_ok path → lowest_fd u = Some fd → 65536 < Z.of_nat fuel →
  wp (hexdump_file fuel path) (λ rc u', rc = (match content_of u path with Some _ => 0 | None => 1 end) ∧
    acted (hexdump_text u path) fd u u') u.
Proof.
  intros Hl Hp Hlow Hfuel. pose proof (ao_len _ Hp). pose proof (ao_byte _ Hp).
  pose proof (lowest_free u fd Hlow) as (Hfd & _ & d & Hd & _). unfold Sched.UFD_FIRST in Hfd.
  unfold hexdump_file, hexdump_text. wp_step. wp_use wp_open_read; [done|done|done|].
  intros r u1 Hopen. destruct (content_of u path) as [data|] eqn:Hdata.
  - destruct Hopen as (-> & Ha1 & Hf1). rewrite (proj2 (Z.ltb_ge fd 0)) by lia. wp_step.
    wp_use (wp_hexdump_loop fuel u1 fd (node_of u path) data); [by eapply acted_live|done| |done|].
    { by rewrite (acted_tree _ _ _ _ Ha1). }
    intros r u2 (-> & Ha2 & pos & Hf2). change (0 =? 0) with true. cbv iota. wp_step.
    wp_use wp_close; [by eapply acted_live|exact Hf2|]. intros _ u3 [Ha3 _]. wp_run. split; [done|].
    rewrite <- (app_nil_l (dump data)), <- (app_nil_r ([] ++ dump data)).
    eapply acted_app; [|exact Ha3]. by eapply acted_app.
  - destruct Hopen as (-> & W1). change (-1 <? 0) with true. cbv iota.
    wp_use wp_complain; [by eapply wrote_live|short|auto with bytes|]. intros r u2 [-> W2]. split; [done|].
    apply wrote_acted; [|by eexists]. rewrite <- (app_nil_l (str "hexdump: " ++ _)).
    eapply wrote_app; [exact W1|]. by rewrite <- !app_assoc in W2.
Qed.

(** [hexdump] prints the reference dump of the file named last - sixteen
    bytes to a row, with the offset, the two-digit values and the printable
    characters - or the complaint that there is no such file. *)
Theorem hexdump_dumps u nm args path fd fuel :
  live u → Forall arg_ok args → str "--help" ∉ args → last args = Some path →
  lowest_fd u = Some fd → 65536 < Z.of_nat fuel →
  wp (hexdump_main fuel (nm :: args)) (λ rc u',
    rc = (match content_of u path with Some _ => 0 | None => 1 end) ∧
    acted (hexdump_text u path) fd u u') u.
Proof.
  intros Hl Hok Hh Hlast Hlow Hfuel. unfold hexdump_main. wp_step.
  wp_use (wp_over_args hexdump_arg (λ pre st u', st = last pre ∧ u' = u) nm args); [done|done| |].
  - intros pre x st u1 Hx [-> ->]. unfold hexdump_arg, is_help. rewrite bool_decide_false by (by intros ->).
    wp_run. eexists. split; [done|]. by rewrite last_snoc.
  - intros r u1 (st & -> & -> & ->). rewrite Hlast. apply wp_hexdump_file; [done| |done|done].
    eapply Forall_forall in Hok; [exact Hok|]. apply last_Some in Hlast as [l ->]. apply elem_of_app. right. by left.
Qed.
End hexdump_theorem.
End UserSpec.
