(* ===== verification/CpSpec.v ===== *)
(** * [cp] copies

    The loop of [cp] over the laws of [UserApi]: every 512 bytes are read from
    one descriptor and appended through the other, and each growth of the new
    file takes fresh space of the pool. *)
From S2P Require Import Prelude Lines PageAlloc Mem Tmpfs Sched Kernel SyscallSpec Ulib UserApi Progs UserSpec.

Module CpSpec.
Import Lines Ulib UserApi Progs UserSpec.

Section cp.
Context {U : Type} `{FileLaws U}.
Implicit Types u : U.

(** The file the destination names, created if there is none, and the file
    system with it. *)
Definition target u (dst : list Z) : Z * Tmpfs.tmpfs :=
  SyscallSpec.open_node (tree u) (SyscallSpec.path_of (cwd u) dst) 3.
(** The two descriptors the copy uses. *)
Definition free_pair u (rin rout : Z) : Prop :=
  lowest_fd u = Some rin ∧
  find_first (λ i, match zget (fds u) i with Some d => Sched.node d <? 0 | None => false end)
    (rin + 1) Sched.UFD_MAX = Some rout.
(** Every 512 bytes of a growing file move it to fresh pool space. *)
Definition copy_cost (len : Z) : Z := (len + 511) / 512 * len.

Lemma path_of_nul_free c a : nul_free c → nul_free a → nul_free (SyscallSpec.path_of c a).
Proof.
  intros Hc Ha. unfold SyscallSpec.path_of. cbv zeta. destruct (utf8_valid _); [|constructor].
  apply Forall_take. unfold SyscallSpec.join_path. case_bool_decide; [done|]. cbv zeta.
  apply Forall_app. split; [|done]. destruct (_ || _); [done|]. apply Forall_app. split; [done|].
  by apply Forall_singleton.
Qed.

Lemma target_others u dst nd x old j :
  live u → arg_ok dst → target u dst = (nd, x) → Tmpfs.file_data x nd = Some old → j ≠ nd →
  Tmpfs.file_data x j = Tmpfs.file_data (tree u) j.
Proof.
  intros Hl Hd Ht Hx Hj. unfold target, SyscallSpec.open_node in Ht. cbv zeta in Ht.
  destruct (_ && _); [|by injection Ht as _ <-]. symmetry in Ht.
  destruct (Tmpfs.create_spec_stores (tree u) _ [] nd x (live_fs u Hl)
    (path_of_nul_free _ _ (live_cwd u Hl) (ao_nul _ Hd)) ltac:(done) Ht) as [->|(_ & _ & _ & _ & Ho & _)].
  - unfold Tmpfs.file_data, Tmpfs.is_file in Hx. by rewrite (proj2 (zget_None _ _)) in Hx by lia.
  - by apply Ho.
Qed.

Lemma second_fd u u' rin rout nd p :
  free_pair u rin rout → fds u' = zset (fds u) rin (Sched.mkUfd nd p) → 0 ≤ nd →
  lowest_fd u' = Some rout ∧ rin < rout.
Proof.
  intros [Hlow Hnext] Hf Hnd. pose proof (lowest_free u rin Hlow) as (Hr & Hlt & _).
  apply find_first_Some in Hlow as (_ & _ & Hb1), Hnext as (Hr2 & Hf2 & Hb2).
  split; [|lia]. apply find_first_Some. split; [unfold Sched.UFD_FIRST in *; lia|].
  unfold Sched.UFD_FIRST in *. rewrite Hf. split; [by rewrite zget_zset_ne by lia|].
  intros j Hj. destruct (decide (j = rin)) as [->|Hne].
  - rewrite zget_zset_eq by lia. by apply Z.ltb_ge.
  - rewrite zget_zset_ne by lia. destruct (Z.lt_ge_cases j rin); [apply Hb1|apply Hb2]; lia.
Qed.

Lemma splice_more (old data : list Z) pos n :
  0 ≤ pos → 0 ≤ n → pos + n ≤ zlen data →
  splice (splice old 0 (take (Z.to_nat pos) data)) pos (slice pos n data) =
  splice old 0 (take (Z.to_nat (pos + n)) data).
Proof.
  intros Hp Hn Hle. pose proof (zlen_take pos data) as Hlt. pose proof (zlen_take (pos + n) data) as Hlt2.
  unfold splice. rewrite zlen_slice by lia. rewrite !Z.add_0_l, !take_0, !app_nil_l.
  rewrite Hlt, Hlt2. rewrite !(Z.min_l _ (zlen data)), !Z.max_r by lia.
  assert (length (take (Z.to_nat pos) data) = Z.to_nat pos) as Hl by (unfold zlen in *; lia).
  rewrite take_app_le by lia. rewrite (take_ge (take _ data)) by lia.
  rewrite drop_app_ge by lia. rewrite Hl, drop_drop, app_assoc. rewrite take_slice_more by done.
  do 2 f_equal. lia.
Qed.

(** The loop's state once [pos] bytes are copied. *)
Record copying (rin rout nds nd : Z) (data old : list Z) (x : Tmpfs.tmpfs) (c : list Z) (pos : Z) u u' : Prop := {
  cy_acts : acts [] [] u u';
  cy_live : live u';
  cy_cwd : cwd u' = c;
  cy_in : fd_at u' rin nds pos;
  cy_out : fd_at u' rout nd pos;
  cy_fds l : l = fds u' → ∀ i, i ≠ rin → i ≠ rout → zget l i = zget (fds u) i;
  cy_new : Tmpfs.file_data (tree u') nd = Some (splice old 0 (take (Z.to_nat pos) data));
  cy_rest j : j ≠ nd → Tmpfs.file_data (tree u') j = Tmpfs.file_data x j;
  cy_tree : Tmpfs.same_tree x (tree u');
  cy_pool : Tmpfs.pool_used (tree u') ≤ Tmpfs.pool_used x + (pos + 511) / 512 * zlen data;
}.
End cp.

Section copying.
Context {U : Type} `{FileLaws U}.
Implicit Types u : U.

Lemma write_spec_room s id o buf old :
  Tmpfs.fs_ok s → 0 ≤ o ≤ zlen old → Tmpfs.file_data s id = Some old →
  Tmpfs.pool_used s + o + zlen buf ≤ Tmpfs.TN_POOL →
  let '(r, s') := Tmpfs.write_spec s id o buf in
  r = zlen buf ∧ Tmpfs.pool_used s' ≤ Tmpfs.pool_used s + o + zlen buf.
Proof.
  intros Hok Ho Hd Hroom. unfold Tmpfs.write_spec. unfold Tmpfs.file_data in Hd.
  destruct (Tmpfs.is_file s id) as [d|] eqn:Hf; [|done]. injection Hd as <-.
  pose proof (Tmpfs.is_file_ok _ _ _ Hok Hf) as (_ & _ & Hsz & _).
  unfold Tmpfs.contents in Ho. rewrite zlen_load_bytes in Ho by done.
  rewrite (proj2 (Z.ltb_ge _ _)) by lia. pose proof (zlen_nonneg buf).
  destruct (_ <=? _); [simpl; lia|]. rewrite (proj2 (Z.leb_le _ _)) by lia. simpl. lia.
Qed.

Lemma wp_fwrite u fd nd pos old data :
  live u → fd_at u fd nd pos → 0 ≤ pos ≤ zlen old → Tmpfs.file_data (tree u) nd = Some old →
  zlen data ≤ BUF_MAX → bytes data → 0 < zlen data →
  Tmpfs.pool_used (tree u) + pos + zlen data ≤ Tmpfs.TN_POOL →
  wp (write fd data) (λ r u', r = zlen data ∧ acts [] [] u u' ∧ live u' ∧ cwd u' = cwd u ∧
    fds u' = zset (fds u) fd (Sched.mkUfd nd (pos + zlen data)) ∧
    Tmpfs.same_tree (tree u) (tree u') ∧
    Tmpfs.pool_used (tree u') ≤ Tmpfs.pool_used (tree u) + pos + zlen data ∧
    Tmpfs.file_data (tree u') nd = Some (splice old pos data) ∧
    ∀ j, j ≠ nd → Tmpfs.file_data (tree u') j = Tmpfs.file_data (tree u) j) u.
Proof.
  intros Hl Hfd Hpos Hold Hlen Hb Hne Hroom. unfold write, call. wp_step.
  wp_use fwrite_law; [done|done|lia|done|done|done|]. intros r u' (Ha & Hl' & Hw).
  pose proof (Tmpfs.write_spec_ok (tree u) nd pos data old (live_fs u Hl) ltac:(lia) Hold) as Hok.
  pose proof (write_spec_room (tree u) nd pos data old (live_fs u Hl) Hpos Hold Hroom) as Hr.
  destruct (Tmpfs.write_spec (tree u) nd pos data) as [n x]. destruct Hw as [-> Hf], Hr as [-> Hp].
  rewrite (proj2 (Z.ltb_lt 0 _)) in Hf by lia. apply files_split in Hf as (E1 & E2 & E3).
  destruct Hok as (_ & Hs & [[E _]|(_ & Hd & Ho)]); [lia|]. wp_run. rewrite E1, E2, E3. by split_and!.
Qed.

(** [pos] advances by 512 until the end. *)
Definition block_pos (len pos : Z) : Prop := 0 ≤ pos ≤ len ∧ (pos mod 512 = 0 ∨ pos = len).
Lemma block_next len pos :
  block_pos len pos → pos < len →
  let n := Z.min 512 (len - pos) in
  0 < n ∧ block_pos len (pos + n) ∧ (pos + n + 511) / 512 = (pos + 511) / 512 + 1 ∧
  (pos + 511) / 512 + 1 ≤ (len + 511) / 512.
Proof. intros [Hp Hm] Hlt n. unfold n, block_pos. dlia. Qed.

Lemma same_tree_trans a b c : Tmpfs.same_tree a b → Tmpfs.same_tree b c → Tmpfs.same_tree a c.
Proof.
  intros W1 W2 i. specialize (W1 i). specialize (W2 i).
  destruct (zget (Tmpfs.nodes a) i), (zget (Tmpfs.nodes b) i), (zget (Tmpfs.nodes c) i); try done.
  destruct W1 as (-> & -> & ->), W2 as (-> & -> & ->). done.
Qed.

(** What one block adds. *)
Lemma copying_next rin rout nds nd data old x c pos u0 u u1 u2 got d1 :
  copying rin rout nds nd data old x c pos u0 u →
  rin ≠ rout → slice pos (zlen got) data = got → 0 ≤ pos → pos + zlen got ≤ zlen data →
  acts [] [] u u1 → acts [] [] u1 u2 → live u2 → tree u1 = tree u → cwd u1 = cwd u → cwd u2 = cwd u1 →
  fds u1 = zset (fds u) rin d1 → fd_at u1 rin nds (pos + zlen got) → fd_at u1 rout nd pos →
  fds u2 = zset (fds u1) rout (Sched.mkUfd nd (pos + zlen got)) →
  Tmpfs.same_tree (tree u1) (tree u2) →
  Tmpfs.file_data (tree u2) nd = Some (splice (splice old 0 (take (Z.to_nat pos) data)) pos got) →
  (∀ j, j ≠ nd → Tmpfs.file_data (tree u2) j = Tmpfs.file_data (tree u1) j) →
  Tmpfs.pool_used (tree u2) ≤ Tmpfs.pool_used x + (pos + zlen got + 511) / 512 * zlen data →
  copying rin rout nds nd data old x c (pos + zlen got) u0 u2.
Proof.
  intros [Ya Yl Yc Yi Yo Yf Yn Yr Yt Yp] Hne Hsl Hpos Hle A1 A2 L2 T1 C1 C2 F1 I1 O1 F2 T2 N2 R2 P2.
  pose proof I1 as (B1 & G1 & ?). pose proof O1 as (B2 & G2 & ?). pose proof (zlen_nonneg got).
  assert (0 ≤ rin ∧ 0 ≤ rout) as [? ?] by (unfold Sched.UFD_FIRST in *; lia). pose proof (zget_Some_lt _ _ _ G2).
  split.
  - change ([] : list Z) with ([] ++ [] : list Z). eapply acts_app; [exact Ya|].
    change ([] : list Z) with ([] ++ [] : list Z). by eapply acts_app.
  - done.
  - congruence.
  - split; [done|]. by rewrite F2, zget_zset_ne by lia.
  - split; [done|]. by rewrite F2, zget_zset_eq by lia.
  - intros l -> i Hi1 Hi2. rewrite F2, F1, !zget_zset_ne by lia. by apply Yf.
  - rewrite N2. rewrite <- Hsl at 1. by rewrite splice_more by lia.
  - intros j Hj. rewrite R2, T1 by done. by apply Yr.
  - eapply same_tree_trans; [exact Yt|]. by rewrite <- T1.
  - done.
Qed.

Lemma wp_cp_step rin rout nds nd data old x c u0 u buf pos dst :
  copying rin rout nds nd data old x c pos u0 u → block_pos (zlen data) pos →
  rin ≠ rout → nds ≠ nd → Tmpfs.file_data x nds = Some data → bytes data →
  Tmpfs.pool_used x + copy_cost (zlen data) ≤ Tmpfs.TN_POOL →
  zlen buf = 512 → bytes buf →
  wp (cp_copy_step rin rout dst buf) (λ r u', match r with
    | inr rc => rc = 0 ∧ pos = zlen data ∧ copying rin rout nds nd data old x c pos u0 u'
    | inl buf' => pos < zlen data ∧ zlen buf' = 512 ∧ bytes buf' ∧
        copying rin rout nds nd data old x c (pos + Z.min 512 (zlen data - pos)) u0 u'
    end) u.
Proof.
  intros Hcopy Hpos Hne Hnn Hsrc Hb Hroom Hbl Hbb. pose proof Hpos as [Hrange _].
  pose proof Hcopy as [Ya Yl Yc Yi Yo Yf Yn Yr Yt Yp].
  assert (Tmpfs.file_data (tree u) nds = Some data) as Hd by (by rewrite Yr).
  pose proof (Tmpfs.file_data_len _ _ _ (live_fs u Yl) Hd) as Hmax. unfold Tmpfs.TN_POOL in Hmax.
  unfold cp_copy_step. wp_step. wp_use wp_fread; [done|exact Yi|lia|exact Hd|rewrite Hbl; unfold BUF_MAX; lia|done|].
  intros r u1 (-> & Ha1 & Hi1). cbv zeta in *. rewrite Hbl in *. set (got := slice pos _ data) in *.
  assert (zlen got = Z.min 512 (zlen data - pos)) as Hg by (apply zlen_got; lia).
  pose proof Ha1 as (Hact1 & Hl1 & [Ht1 Hc1 [d1 Hf1]]).
  assert (fd_at u1 rout nd pos) as Ho1.
  { destruct Yo as (Hr & Hgo & Hn). split; [done|]. rewrite Hf1, zget_zset_ne; [done| |done].
    destruct Yi as ([? _] & _ & _). unfold Sched.UFD_FIRST in *. lia. }
  destruct (Z.leb_spec (zlen got) 0) as [Hend|Hmore].
  - wp_run. assert (pos = zlen data) as -> by lia. split; [done|]. split; [done|].
    replace (zlen data + zlen got) with (zlen data) in Hi1 by lia.
    split; rewrite ?Ht1, ?Hc1; try done.
    + change ([] : list Z) with ([] ++ [] : list Z). by eapply acts_app.
    + intros l -> i Hi1' Hi2. rewrite Hf1. destruct Yi as ([? _] & _ & _).
      unfold Sched.UFD_FIRST in *. rewrite zget_zset_ne by lia. by apply Yf.
  - assert (slice pos (zlen got) data = got) as Hsl by (by rewrite Hg).
    rewrite slice_front. destruct (block_next _ _ Hpos ltac:(lia)) as (Hn & _ & Hturn & Hlast). rewrite <- Hg in *.
    assert (zlen (splice old 0 (take (Z.to_nat pos) data)) = Z.max pos (zlen old)) as Hnew.
    { pose proof (zlen_nonneg old). pose proof (zlen_take pos data).
      unfold splice. rewrite !zlen_app, zlen_take, zlen_drop by lia. lia. }
    assert (((pos + 511) / 512 + 1) * zlen data ≤ copy_cost (zlen data)) as Hcost.
    { unfold copy_cost. apply Z.mul_le_mono_nonneg_r; lia. }
    rewrite Z.mul_add_distr_r in Hcost.
    wp_step. wp_use (wp_fwrite u1 rout nd pos); [done|done|rewrite Hnew; lia|by rewrite Ht1|unfold BUF_MAX; lia
      |by apply bytes_slice|lia|rewrite Ht1; lia|].
    intros r u2 (-> & Ha2 & Hl2 & Hc2 & Hf2 & Ht2 & Hp2 & Hn2 & Ho2). rewrite Z.eqb_refl. wp_run.
    split; [lia|]. split; [|split].
    + rewrite <- Hbl. apply read_buffer; [done|by apply bytes_slice|lia].
    + apply bytes_app; [by apply bytes_slice|by apply Forall_drop].
    + eapply (copying_next _ _ _ _ _ _ _ _ _ _ u u1 u2 got); try done; [lia|lia|].
      rewrite Ht1 in Hp2. rewrite Hturn, Z.mul_add_distr_r. lia.
Qed.
End copying.

Section cp_theorem.
Context {U : Type} `{FileLaws U}.
Implicit Types u : U.

Lemma wp_cp_loop fuel rin rout nds nd data old x c u0 u dst :
  copying rin rout nds nd data old x c 0 u0 u →
  rin ≠ rout → nds ≠ nd → Tmpfs.file_data x nds = Some data → bytes data → zlen data ≤ Tmpfs.TN_POOL →
  Tmpfs.pool_used x + copy_cost (zlen data) ≤ Tmpfs.TN_POOL → (2048 < fuel)%nat →
  wp (loop fuel (cp_copy_step rin rout dst) (replicate 512 0))
    (λ rc u', rc = 0 ∧ copying rin rout nds nd data old x c (zlen data) u0 u') u.
Proof.
  intros Hcopy Hne Hnn Hsrc Hb Hmax Hroom Hfuel. pose proof (zlen_nonneg data).
  apply (wp_loop_state (λ buf u', ∃ pos, copying rin rout nds nd data old x c pos u0 u' ∧
      block_pos (zlen data) pos ∧ zlen buf = 512 ∧ bytes buf) (λ _, turns_left 512 (zlen data) rin)).
  - exists 0. split; [done|]. split; [unfold block_pos; dlia|]. split; [done|]. apply Forall_replicate. lia.
  - unfold turns_left. rewrite (fd_offset _ _ _ _ (cy_in _ _ _ _ _ _ _ _ _ _ _ Hcopy)). unfold Tmpfs.TN_POOL in Hmax.
    assert ((zlen data - 0 + 512 - 1) / 512 < 2049) by (apply Z.div_lt_upper_bound; lia). lia.
  - intros buf u1 (pos & Hc1 & Hpos & Hbl & Hbb).
    wp_use wp_cp_step; [exact Hc1|exact Hpos|done|done|exact Hsrc|done|done|done|done|].
    intros [buf'|rc] u2.
    + intros (Hlt & Hbl' & Hbb' & Hc2). destruct (block_next _ _ Hpos Hlt) as (Hn & Hpos2 & _). split.
      * eexists. split; [exact Hc2|]. by split_and!.
      * unfold turns_left. rewrite (fd_offset _ _ _ _ (cy_in _ _ _ _ _ _ _ _ _ _ _ Hc2)).
        rewrite (fd_offset _ _ _ _ (cy_in _ _ _ _ _ _ _ _ _ _ _ Hc1)).
        destruct Hpos as [Hrange _]. apply turns_step; lia.
    + by intros (-> & -> & Hc2).
Qed.

Lemma wp_stat u a st :
  live u → arg_ok a → zlen st = 16 → bytes st →
  wp (stat (cstr 256 a) st) (λ r u', wrote [] u u' ∧
    if node_of u a <? 0 then r = (-1, st)
    else ∃ st', r = (0, st') ∧ zlen st' = 16 ∧ bytes st' ∧
      st_typ (ustat_of st') = Tmpfs.node_typ (tree u) (node_of u a)) u.
Proof.
  intros Hl Ha Hlen Hb. unfold stat, call_out. do 2 wp_step.
  wp_use stat_law; [done|by apply path_buf_arg|done|done|]. intros r u' (Hact & Hl' & Hf & Hr). cbv zeta in Hr.
  destruct (node_of u a <? 0).
  - subst r. wp_step. apply wp_of_option. eexists. split; [done|]. by wp_run.
  - destruct Hr as (st' & -> & Hst). wp_step. apply wp_of_option. eexists. split; [done|]. wp_run.
    split; [done|]. by exists st'.
Qed.

Lemma content_node u a data : live u → content_of u a = Some data →
  0 ≤ node_of u a ∧ Tmpfs.node_typ (tree u) (node_of u a) = 1.
Proof.
  intros Hl Hd. pose proof (is_file_data (tree u) (node_of u a) (live_fs u Hl)) as Hi.
  unfold content_of in Hd. rewrite Hd in Hi. apply andb_true_iff in Hi as [Hn%Z.leb_le Ht%Z.eqb_eq]. done.
Qed.

(** The destination is a file or nothing. *)
Lemma target_not_dir u dst nd x old :
  live u → target u dst = (nd, x) → Tmpfs.file_data x nd = Some old →
  0 ≤ node_of u dst → Tmpfs.node_typ (tree u) (node_of u dst) = 1.
Proof.
  intros Hl Ht Hx Hn. unfold target, SyscallSpec.open_node in Ht. cbv zeta in Ht. fold (node_of u dst) in Ht.
  rewrite (proj2 (Z.ltb_ge _ 0)) in Ht by done. injection Ht as <- <-.
  by eapply content_node in Hx as [_ ?].
Qed.
End cp_theorem.
Section cp_main.
Context {U : Type} `{FileLaws U}.
Implicit Types u : U.

Lemma wp_open_write u dst rout nd x old :
  live u → arg_ok dst → lowest_fd u = Some rout → target u dst = (nd, x) → Tmpfs.file_data x nd = Some old →
  wp (open (cstr 256 dst) (Z.lor O_WRONLY O_CREAT)) (λ r u', r = rout ∧ acts [] [] u u' ∧ live u' ∧
    files u' = (x, cwd u, zset (fds u) rout (Sched.mkUfd nd 0))) u.
Proof.
  intros Hl Hd Hlow Ht Hx. pose proof (lowest_free u rout Hlow) as (Hfd & _).
  pose proof (SyscallSpec.open_node_ok (tree u) (SyscallSpec.path_of (cwd u) dst) 3 (live_fs u Hl)) as Hok.
  unfold open, call. do 2 wp_step. wp_use open_law; [done|by apply path_buf_arg|done|].
  intros r u' (Hact & Hl' & Hcase). change (Z.lor O_WRONLY O_CREAT) with 3 in Hcase.
  fold (target u dst) in Hok, Hcase. rewrite Ht in Hok, Hcase. cbn in Hok.
  rewrite Hlow, (is_file_data _ _ Hok), Hx in Hcase. destruct Hcase as [-> Hf]. wp_run.
  unfold Sched.UFD_FIRST, Sched.UFD_MAX in Hfd. cbn [fst]. split; [apply i32_id; lia|done].
Qed.

Lemma file_data_node (x : Tmpfs.tmpfs) nd data : Tmpfs.file_data x nd = Some data → 0 ≤ nd.
Proof.
  unfold Tmpfs.file_data, Tmpfs.is_file. destruct (zget (Tmpfs.nodes x) nd) eqn:Hn; [|done].
  apply zget_Some_lt in Hn. lia.
Qed.

Lemma acts_more outs u u1 u2 : acts [] [] u u1 → acts [] outs u1 u2 → acts [] outs u u2.
Proof.
  intros A1 A2. change ([] : list Z) with ([] ++ [] : list Z) at 1.
  change outs with ([] ++ outs). by eapply acts_app.
Qed.

Lemma wp_close_both u rin rout nds nd p :
  live u → fd_at u rin nds p → fd_at u rout nd p → rin ≠ rout →
  wp (_ ← close rin; _ ← close rout; mret 0) (λ rc u', rc = 0 ∧ acts [] [] u u' ∧ live u' ∧ tree u' = tree u) u.
Proof.
  intros Hl Hi Ho Hne. wp_step. wp_use wp_close; [done|exact Hi|]. intros _ u1 [(A1 & L1 & [T1 C1 _]) F1].
  assert (fd_at u1 rout nd p) as Ho1.
  { destruct Ho as (Hr & Hg & Hn). split; [done|]. rewrite F1, zget_zset_ne; [done| |done].
    destruct Hi as ([? _] & _). unfold Sched.UFD_FIRST in *. lia. }
  wp_step. wp_use wp_close; [done|exact Ho1|]. intros _ u2 [(A2 & L2 & [T2 C2 _]) F2]. wp_run.
  split; [done|]. split; [by eapply acts_more|]. split; [done|congruence].
Qed.

End cp_main.

Section cp_files.
Context {U : Type} `{FileLaws U}.
Implicit Types u : U.

(** The end of [cp], once both files are open. *)
Lemma wp_cp_finish fuel rin rout nds nd data old x c u0 u dst :
  copying rin rout nds nd data old x c 0 u0 u → rin ≠ rout → nds ≠ nd →
  Tmpfs.file_data x nds = Some data → bytes data → zlen data ≤ Tmpfs.TN_POOL →
  Tmpfs.pool_used x + copy_cost (zlen data) ≤ Tmpfs.TN_POOL → (2048 < fuel)%nat →
  wp (rc ← loop fuel (cp_copy_step rin rout dst) (replicate 512 0); _ ← close rin; _ ← close rout; mret rc)
    (λ rc u', rc = 0 ∧ acts [] [] u0 u' ∧ live u' ∧ Tmpfs.same_tree x (tree u') ∧
      Tmpfs.file_data (tree u') nd = Some (splice old 0 data) ∧
      ∀ j, j ≠ nd → Tmpfs.file_data (tree u') j = Tmpfs.file_data x j) u.
Proof.
  intros Hcopy Hne Hnn Hsrc Hb Hmax Hroom Hfuel. wp_step.
  wp_use wp_cp_loop; [exact Hcopy|done..|]. intros r u1 [-> [Ya Yl Yc Yi Yo _ Yn Yr Yt _]].
  wp_use wp_close_both; [done|exact Yi|exact Yo|done|]. intros r u2 (-> & A2 & L2 & T2).
  rewrite T2. split; [done|]. split; [|split; [done|split; [done|split; [|done]]]].
  - change ([] : list Z) with ([] ++ [] : list Z). by eapply acts_app.
  - rewrite Yn, take_ge; [done|]. unfold zlen. lia.
Qed.

(** Both descriptors open, nothing copied. *)
Lemma copying_start rin rout nds nd data old x u0 uc ud db :
  acts [] [] u0 ud → live ud → tree ud = x → cwd ud = cwd u0 → rin < rout →
  fds uc = zset (fds u0) rin db → fd_at uc rin nds 0 → lowest_fd uc = Some rout →
  fds ud = zset (fds uc) rout (Sched.mkUfd nd 0) → Tmpfs.file_data x nd = Some old →
  copying rin rout nds nd data old x (cwd u0) 0 u0 ud.
Proof.
  intros A L T C Hlt Fc Hin Hlow Fd Hx. pose proof (lowest_free uc rout Hlow) as (Hr & Hl & _).
  pose proof Hin as (Hi & Hg & Hn). unfold Sched.UFD_FIRST in *. split; try done.
  - split; [done|]. by rewrite Fd, zget_zset_ne by lia.
  - split; [unfold Sched.UFD_FIRST; lia|]. rewrite Fd, zget_zset_eq by lia. split; [done|].
    by eapply file_data_node.
  - intros l -> i Hi1 Hi2. by rewrite Fd, zget_zset_ne, Fc, zget_zset_ne by lia.
  - rewrite T, Hx. unfold splice. simpl. by rewrite drop_0.
  - intros j _. by rewrite T.
  - rewrite T. intros i. by destruct (zget (Tmpfs.nodes x) i).
  - rewrite T. change ((0 + 511) / 512) with 0. lia.
Qed.

(** The destination is not a directory: the second [stat] lets it pass. *)
Lemma wp_cp_stat u dst st nd x old :
  live u → arg_ok dst → zlen st = 16 → bytes st → target u dst = (nd, x) → Tmpfs.file_data x nd = Some old →
  wp (stat (cstr 256 dst) st) (λ r u', wrote [] u u' ∧ (r.1 =? 0) && negb (st_typ (ustat_of r.2) =? 1) = false) u.
Proof.
  intros Hl Hd Hlen Hb Ht Hx. wp_use wp_stat; [done..|]. intros r u' [W Hr]. split; [done|].
  destruct (Z.ltb_spec (node_of u dst) 0) as [_|Hnn]; [by subst r|].
  destruct Hr as (st' & -> & _ & _ & Hty). cbn [fst snd]. by rewrite Hty, (target_not_dir u dst nd x old).
Qed.

(** From the open source on. *)
Lemma wp_cp_dest fuel u0 u src dst st rin rout db data nd x old :
  live u0 → live u → arg_ok dst → zlen st = 16 → bytes st → free_pair u0 rin rout →
  acts [] [] u0 u → tree u = tree u0 → cwd u = cwd u0 → fds u = zset (fds u0) rin db →
  fd_at u rin (node_of u0 src) 0 → content_of u0 src = Some data →
  target u0 dst = (nd, x) → Tmpfs.file_data x nd = Some old → node_of u0 src ≠ nd →
  Tmpfs.pool_used x + copy_cost (zlen data) ≤ Tmpfs.TN_POOL → (2048 < fuel)%nat →
  wp (r ← stat (cstr 256 dst) st;
      let '(rc, st) := r in
      if (rc =? 0) && negb (st_typ (ustat_of st) =? 1) then complain 1 (str "cp: " ++ dst ++ str ": is a directory")
      else
        rout ← open (cstr 256 dst) (Z.lor O_WRONLY O_CREAT);
        if rout <? 0 then complain 1 (str "cp: " ++ dst ++ str ": cannot create")
        else
          rc ← loop fuel (cp_copy_step rin rout dst) (replicate 512 0);
          _ ← close rin;
          _ ← close rout;
          mret rc)
    (λ rc u', rc = 0 ∧ acts [] [] u0 u' ∧ live u' ∧ Tmpfs.same_tree x (tree u') ∧
      Tmpfs.file_data (tree u') nd = Some (splice old 0 data) ∧
      ∀ j, j ≠ nd → Tmpfs.file_data (tree u') j = Tmpfs.file_data (tree u0) j) u.
Proof.
  intros Hl0 Hl Hd Hlen Hb Hfree A0 T0 C0 F0 Hin Hsrc Ht Hx Hne Hroom Hfuel.
  assert (target u dst = (nd, x)) as Htu by (unfold target; by rewrite T0, C0). wp_step.
  wp_use wp_cp_stat; [done|done|done|done|exact Htu|exact Hx|]. intros [rc st'] uc [(Ac & Lc & Fc) Hcond].
  cbn [fst snd] in Hcond. rewrite Hcond.
  assert (tree uc = tree u ∧ cwd uc = cwd u ∧ fds uc = fds u) as (Tc & Cc & Dc) by (unfold tree, cwd, fds; by rewrite Fc).
  pose proof Hin as (_ & Hg & Hnn).
  destruct (second_fd u0 uc rin rout (node_of u0 src) 0 Hfree) as [Hlow2 Hlt]; [|done|].
  { rewrite Dc, F0. rewrite F0, zget_zset_eq in Hg; [by injection Hg as ->|].
    destruct Hfree as [Hlow _]. apply (lowest_free u0 rin Hlow). }
  wp_step. wp_use wp_open_write; [done|exact Hd|exact Hlow2|unfold target; by rewrite Tc, Cc|exact Hx|].
  intros r ud (-> & Ad & Ld & Fd). apply files_split in Fd as (Td & Cd & Dd).
  pose proof (lowest_free uc rout Hlow2) as (Hr & _). unfold Sched.UFD_FIRST in Hr.
  rewrite (proj2 (Z.ltb_ge rout 0)) by lia.
  wp_use (wp_cp_finish fuel rin rout (node_of u0 src) nd data old x (cwd u0) u0); [|lia|done| | | |done|done|].
  - eapply copying_start; [|done|done|congruence|done|rewrite Dc; exact F0| |exact Hlow2|exact Dd|exact Hx].
    + eapply acts_more; [exact A0|]. by eapply acts_more.
    + unfold fd_at. rewrite Dc. exact Hin.
  - rewrite (target_others u0 dst nd x old) by done. exact Hsrc.
  - exact (live_bytes u0 _ _ Hl0 Hsrc).
  - exact (Tmpfs.file_data_len _ _ _ (live_fs u0 Hl0) Hsrc).
  - intros r uf (-> & Af & Lf & Sf & Nf & Of). split_and!; try done.
    intros j Hj. rewrite Of by done. by eapply target_others.
Qed.

Lemma wp_cp_files fuel u src dst rin rout data nd x old :
  live u → arg_ok src → arg_ok dst → free_pair u rin rout →
  content_of u src = Some data → target u dst = (nd, x) → Tmpfs.file_data x nd = Some old →
  node_of u src ≠ nd → Tmpfs.pool_used x + copy_cost (zlen data) ≤ Tmpfs.TN_POOL → (2048 < fuel)%nat →
  wp (cp_files fuel src dst) (λ rc u', rc = 0 ∧ acts [] [] u u' ∧ live u' ∧
    Tmpfs.same_tree x (tree u') ∧ Tmpfs.file_data (tree u') nd = Some (splice old 0 data) ∧
    ∀ j, j ≠ nd → Tmpfs.file_data (tree u') j = Tmpfs.file_data (tree u) j) u.
Proof.
  intros Hl Hs Hd Hfree Hsrc Ht Hx Hne Hroom Hfuel. pose proof Hfree as [Hlow _].
  destruct (content_node _ _ _ Hl Hsrc) as [Hn Hty]. unfold cp_files. wp_step.
  wp_use wp_stat; [done|done|done|by apply Forall_replicate; lia|]. intros r ua [(Aa & La & Fa) Hr].
  rewrite (proj2 (Z.ltb_ge _ 0)) in Hr by done. destruct Hr as (st & -> & Hst & Hstb & Htyp).
  rewrite Htyp, Hty. change ((0 <? 0) || negb (1 =? 1)) with false. cbv iota.
  assert (tree ua = tree u ∧ cwd ua = cwd u ∧ fds ua = fds u) as (Ta & Ca & Da) by (unfold tree, cwd, fds; by rewrite Fa).
  assert (node_of ua src = node_of u src ∧ content_of ua src = content_of u src) as [Hna Hca]
    by (unfold content_of, node_of; by rewrite Ta, Ca).
  wp_step. wp_use (wp_open_read ua src rin); [done|done|unfold lowest_fd; by rewrite Da|].
  intros r ub Hopen. rewrite Hca, Hsrc in Hopen. destruct Hopen as (-> & (Ab & Lb & [Tb Cb [db Db]]) & Hin).
  pose proof (lowest_free u rin Hlow) as (Hfd & _). unfold Sched.UFD_FIRST in Hfd.
  rewrite (proj2 (Z.ltb_ge rin 0)) by lia.
  wp_use (wp_cp_dest fuel u ub src dst st rin rout db data nd x old); try done.
  - by eapply acts_more.
  - congruence.
  - congruence.
  - by rewrite Db, Da.
  - by rewrite <- Hna.
Qed.

Lemma splice_front (old data : list Z) : splice old 0 data = data ++ drop (length data) old.
Proof. unfold splice. simpl. f_equal. f_equal. unfold zlen. lia. Qed.

(** C10: [cp] copies: the destination, created if there is none, holds the
    source's bytes - with what a longer old file had behind them, for nothing
    cuts it - and no other file changes.  This is when two descriptors are
    free, source and destination are different files, and the pool has room for
    every growth of the copy, which moves it to fresh space at each block:
    [copy_cost], the bound asked for, allows some 22 KiB in a pool of 1 MiB that
    holds little else. *)
Theorem cp_copies u nm src dst rin rout data nd x old fuel :
  live u → arg_ok src → arg_ok dst → src ≠ str "--help" → dst ≠ str "--help" → free_pair u rin rout →
  content_of u src = Some data → target u dst = (nd, x) → Tmpfs.file_data x nd = Some old →
  node_of u src ≠ nd → Tmpfs.pool_used x + copy_cost (zlen data) ≤ Tmpfs.TN_POOL → (2048 < fuel)%nat →
  wp (cp_main fuel [nm; src; dst]) (λ rc u', rc = 0 ∧ acts [] [] u u' ∧ live u' ∧
    Tmpfs.same_tree x (tree u') ∧
    Tmpfs.file_data (tree u') nd = Some (data ++ drop (length data) old) ∧
    ∀ j, j ≠ nd → Tmpfs.file_data (tree u') j = Tmpfs.file_data (tree u) j) u.
Proof.
  intros Hl Hs Hd Hh1 Hh2 Hfree Hsrc Ht Hx Hne Hroom Hfuel. unfold cp_main, over_args. wp_step.
  change (argc [nm; src; dst]) with 3. change (Z.to_nat (3 - 1)) with 2%nat. unfold for_args, two_args, is_help.
  rewrite (arg_str_at [nm; src; dst] 1 src eq_refl Hs), (arg_str_at [nm; src; dst] (1 + 1) dst eq_refl Hd).
  rewrite !bool_decide_false by done. wp_run. rewrite <- splice_front.
  by wp_use (wp_cp_files fuel u src dst rin rout data nd x old).
Qed.
End cp_files.
End CpSpec.
