(* ===== verification/ShSpec.v ===== *)
(** * What the user's shell does

    [readline] gives the edited line, [tokenize] the words of it, each ended by
    a NUL where it stands; a turn of the shell prints the prompt, echoes what is
    typed and runs the words. *)
From S2P Require Import Prelude Lines PageAlloc Mem Tmpfs Sched Kernel SyscallSpec Ulib UserApi Sh Progs UserSpec.

Module ShSpec.
Import Lines Ulib UserApi Sh UserSpec.

(** ** The line editor *)
Definition cap : Z := LINE_MAX - 1.
Definition typed_line : list Z → list Z := edited delete_key cap [].
(** The keys [ks] leave the editor waiting with the line [l] before them:
    neither Enter, nor Ctrl-D on an empty line. *)
Fixpoint stays (l ks : list Z) : Prop :=
  match ks with
  | [] => True
  | c :: ks => c ≠ 10 ∧ (c = 4 → l ≠ []) ∧ stays (edit delete_key cap l c) ks
  end.

Section readline.
Context {U : Type} `{StdioLaws U}.
Implicit Types u : U.

Lemma wp_getkey u c cs :
  live u → input u = c :: cs →
  wp (read 0 [0]) (λ r u', r = (1, [c]) ∧ acts [c] [] u u' ∧ live u' ∧ files u' = files u) u.
Proof.
  intros Hl Hi. unfold read, call_out. wp_step. change (zlen [0]) with 1. wp_use read_law; [done|exact Hi|].
  intros r u' (-> & Ha & Hl' & Hf). wp_run. apply wp_of_option. eexists. split; [done|]. by wp_run.
Qed.

(** What the editor has done when [ks] is read. *)
Record typed (ks out : list Z) u u' : Prop := {
  ty_acts : acts ks out u u';
  ty_live : live u';
  ty_files : files u' = files u;
}.
Lemma typed_more k1 o1 k2 o2 u u1 u2 : typed k1 o1 u u1 → typed k2 o2 u1 u2 → typed (k1 ++ k2) (o1 ++ o2) u u2.
Proof. intros [A1 L1 F1] [A2 L2 F2]. split; [by eapply acts_app|done|congruence]. Qed.
Lemma typed_wrote out u u' : wrote out u u' → typed [] out u u'.
Proof. intros (Ha & Hl & Hf). by split. Qed.

Lemma wp_write_1 u bs : live u → zlen bs ≤ BUF_MAX → bytes bs → wp (write 1 bs) (λ _ u', typed [] bs u u') u.
Proof.
  intros Hl Hb Hby. wp_use wp_write; [done|by left|done|done|]. intros r u' [_ W]. by apply typed_wrote.
Qed.

Lemma echo_len l c : zlen (echo delete_key cap l c) ≤ BUF_MAX.
Proof. unfold echo, BUF_MAX. destruct (delete_key c), l; [done..| |]; by destruct (_ <? _). Qed.

(** One key that is neither Enter nor the end. *)
Lemma wp_readline_key u buf n l c cs :
  live u → input u = c :: cs → in_line buf n l → zlen l ≤ cap → zlen buf = LINE_MAX →
  c ≠ 10 → (c = 4 → l ≠ []) →
  wp (readline_step (buf, n)) (λ r u', ∃ buf' n', r = inl (buf', n') ∧
    in_line buf' n' (edit delete_key cap l c) ∧ zlen buf' = LINE_MAX ∧
    typed [c] (echo delete_key cap l c) u u') u.
Proof.
  intros Hl Hi Hin Hcap Hbuf Hnl Heof. pose proof Hin as [En Hr Ht]. pose proof (zlen_nonneg l) as Hl0.
  assert (0 ≤ c < 2 ^ 8) as Hc by (pose proof (live_input u Hl) as Hb; rewrite Hi in Hb; by apply Forall_inv in Hb).
  unfold readline_step. wp_step. wp_use wp_getkey; [done|exact Hi|]. intros r u1 (-> & A1 & L1 & F1).
  assert (typed [c] [] u u1) as T1 by done. cbn [fst snd]. change (negb (1 =? 1)) with false. cbv iota.
  wp_step. apply wp_of_option. exists c. split; [done|]. rewrite (proj2 (Z.eqb_neq c 10)) by done.
  unfold edit, echo. rewrite Z.gtb_ltb. destruct (delete_key c).
  - destruct (Z.ltb_spec 0 n) as [Hn|Hn].
    + wp_step. wp_use wp_write_1; [done|done|by repeat (apply Forall_cons; split; [lia|])|]. intros _ u2 T2. wp_run.
      eexists _, _. split; [done|]. split; [by apply in_line_pop|]. split; [done|].
      destruct l; [change (zlen []) with 0 in En; lia|]. exact (typed_more [c] [] [] _ _ _ _ T1 T2).
    + wp_run. eexists _, _. split; [done|]. assert (l = []) as -> by (apply zlen_nil_inv; lia). done.
  - assert ((c =? 4) && (n =? 0) = false) as ->.
    { destruct (Z.eqb_spec c 4) as [E|]; [|done]. apply Z.eqb_neq. intros E0. apply (Heof E). apply zlen_nil_inv. lia. }
    rewrite Hbuf. unfold cap in *. unfold LINE_MAX in *. destruct (Z.ltb_spec (n + 1) 200) as [Hn|Hn].
    + rewrite (proj2 (Z.ltb_lt (zlen l) _)) by lia. wp_step. apply wp_array_set; [lia|]. cbv beta.
      wp_step. wp_use wp_write_1; [done|done|by apply bytes_one|]. intros _ u2 T2. wp_run.
      eexists _, _. split; [done|]. split; [apply in_line_push; [done|lia]|]. split; [by rewrite zlen_zset|].
      exact (typed_more [c] [] [] _ _ _ _ T1 T2).
    + rewrite (proj2 (Z.ltb_ge (zlen l) _)) by lia. wp_run. by eexists _, _.
Qed.

(** The last key: Enter, or Ctrl-D on an empty line. *)
Lemma wp_readline_end u buf n l c cs :
  live u → input u = c :: cs → in_line buf n l → zlen l ≤ cap → zlen buf = LINE_MAX →
  c = 10 ∨ (c = 4 ∧ l = []) →
  wp (readline_step (buf, n)) (λ r u',
    if c =? 10 then ∃ buf', r = inr (Some (buf', n)) ∧ in_line buf' n l ∧ zlen buf' = LINE_MAX ∧
      zget buf' n = Some 0 ∧ typed [10] [10] u u'
    else r = inr None ∧ typed [4] [] u u') u.
Proof.
  intros Hl Hi Hin Hcap Hbuf Hend. pose proof Hin as [En Hr Ht]. pose proof (zlen_nonneg l) as Hl0.
  unfold cap, LINE_MAX in *. unfold readline_step. wp_step. wp_use wp_getkey; [done|exact Hi|].
  intros r u1 (-> & A1 & L1 & F1). assert (typed [c] [] u u1) as T1 by done. cbn [fst snd].
  change (negb (1 =? 1)) with false. cbv iota. wp_step. apply wp_of_option. exists c. split; [done|].
  destruct Hend as [-> | [-> ->]].
  - change (10 =? 10) with true. cbv iota. wp_step. wp_use wp_write_1; [done|done|by apply bytes_one|]. intros _ u2 T2.
    wp_step. apply wp_array_set; [lia|]. wp_run. eexists. split; [done|]. split; [by apply in_line_set|].
    split; [by rewrite zlen_zset|]. split; [apply zget_zset_eq; lia|]. exact (typed_more [10] [] [] _ _ _ _ T1 T2).
  - change (zlen []) with 0 in En. subst n. change (4 =? 10) with false. change (delete_key 4) with false.
    change ((4 =? 4) && (0 =? 0)) with true. cbv iota. by wp_run.
Qed.

Lemma typed_input ks out cs u u' : typed ks out u u' → input u = ks ++ cs → input u' = cs.
Proof. intros [A _ _] Hi. pose proof (acts_input _ _ _ _ A) as E. rewrite Hi in E. by apply app_inv_head in E. Qed.

(** All the keys of a line. *)
Lemma wp_readline_from fuel u buf n l ks c rest :
  live u → input u = ks ++ c :: rest → in_line buf n l → zlen l ≤ cap → zlen buf = LINE_MAX → stays l ks →
  c = 10 ∨ (c = 4 ∧ edited delete_key cap l ks = []) → (length ks < fuel)%nat →
  wp (loop fuel readline_step (buf, n)) (λ r u',
    if c =? 10 then ∃ buf' n', r = Some (buf', n') ∧ in_line buf' n' (edited delete_key cap l ks) ∧ zlen buf' = LINE_MAX ∧
      zget buf' n' = Some 0 ∧ typed (ks ++ [10]) (echoed delete_key cap l ks ++ [10]) u u'
    else r = None ∧ typed (ks ++ [4]) (echoed delete_key cap l ks) u u') u.
Proof.
  revert fuel u buf n l. induction ks as [|k ks IH]; intros fuel u buf n l Hl Hi Hin Hcap Hbuf Hst Hend Hfuel;
    (destruct fuel as [|fuel]; [simpl in Hfuel; lia|]); cbn [loop]; wp_step.
  - wp_use wp_readline_end; [done|exact Hi|exact Hin|done|done|done|]. intros r u1.
    destruct (c =? 10); [intros (buf' & -> & Hin' & Hz & Hg & T)|intros [-> T]]; wp_run; [by exists buf', n|done].
  - destruct Hst as (Hk & Heof & Hst). wp_use wp_readline_key; [done|exact Hi|exact Hin|done|done|done|done|].
    intros r u1 (buf1 & n1 & -> & Hin1 & Hz1 & T1). cbn [length] in Hfuel.
    wp_use (IH fuel u1 buf1 n1 (edit delete_key cap l k));
      [by destruct T1|exact (typed_input [k] _ _ _ _ T1 Hi)|done|by apply edit_fits|done|done|done|lia|].
    intros r u2. cbn [echoed]. rewrite <- app_assoc. destruct (c =? 10).
    + intros (buf2 & n2 & -> & Hin2 & Hz2 & Hg2 & T2). exists buf2, n2. split_and!; [done..|].
      exact (typed_more [k] _ _ _ _ _ _ T1 T2).
    + intros [-> T2]. split; [done|]. exact (typed_more [k] _ _ _ _ _ _ T1 T2).
Qed.
End readline.

(** ** The words *)
Definition texts (line : list Z) (sp : list (Z * Z)) : list (list Z) := (λ '(s, e), slice s (e - s) line) <$> sp.
Definition pointed (line : list Z) (sp : list (Z * Z)) : list (list Z) := (λ '(s, _), c_str (drop (Z.to_nat s) line)) <$> sp.

Lemma span_stop {A} (p : A → bool) a x b : p x = false → span p (a ++ x :: b) = span p a.
Proof.
  intros Hx. induction a as [|y a IH]; simpl; [by rewrite Hx|]. by rewrite IH.
Qed.
Lemma span_word (a : list Z) : nul_free a → span word_char a = span (not_sep blank) a.
Proof.
  induction 1 as [|c a Hc Ha IH]; [done|]. simpl. rewrite IH. unfold word_char, not_sep, blank.
  by rewrite (proj2 (Z.eqb_neq c 0)), negb_orb by done.
Qed.
Lemma c_str_front (w rest : list Z) : nul_free w → c_str (w ++ 0 :: rest) = w.
Proof.
  intros Hw. unfold c_str. rewrite position_nul_free by done. simpl. unfold slice, zlen. simpl.
  by rewrite drop_0, Nat2Z.id, take_app_length.
Qed.
(** A word and its NUL at [q]. *)
Lemma word_at q line w rest : drop (Z.to_nat q) line = w ++ 0 :: rest → nul_free w →
  slice q (zlen w) line = w ∧ c_str (drop (Z.to_nat q) line) = w.
Proof.
  intros Hd Hw. split; [|by rewrite Hd, c_str_front]. unfold slice, zlen. by rewrite Hd, Nat2Z.id, take_app_length.
Qed.
Lemma drop_zget {A} (l : list A) i x l' : 0 ≤ i → drop (Z.to_nat i) l = x :: l' → zget l i = Some x ∧ i < zlen l.
Proof.
  intros Hi Hd. assert (zget l i = Some x) as Hg.
  { replace i with (i + 0) by lia. rewrite <- zget_drop by lia. by rewrite Hd. }
  split; [done|]. apply (zget_Some_lt _ _ _ Hg).
Qed.
Lemma scan_word (line a b : list Z) q :
  0 ≤ q → drop (Z.to_nat q) line = a ++ 0 :: b → nul_free a → scan word_char line q = q + span (not_sep blank) a.
Proof. intros Hq Hd Ha. unfold scan. by rewrite Hd, span_stop, span_word. Qed.

Lemma drop_zset_above (line : list Z) i c : 0 ≤ i → drop (Z.to_nat (i + 1)) (zset line i c) = drop (Z.to_nat (i + 1)) line.
Proof. intros Hi. unfold zset. apply drop_insert_lt. lia. Qed.
(** The first word of [c :: a], which starts with no blank. *)
Lemma first_word c a : blank c = false →
  let n := 1 + span (not_sep blank) a in
  let w := take (Z.to_nat n) (c :: a) in
  let rest := drop (Z.to_nat n) (c :: a) in
  span (not_sep blank) (c :: a) = n ∧ zlen w = n ∧ words blank (c :: a) = w :: words blank rest ∧
  ∀ d rest', rest = d :: rest' → words blank rest = words blank rest'.
Proof.
  intros Hc n w rest. pose proof (span_bounds (not_sep blank) a) as Hs. split; [|split; [|split]].
  - simpl. unfold not_sep at 1. by rewrite Hc.
  - unfold w. rewrite zlen_take, zlen_cons by lia. lia.
  - unfold words at 1. cbn [words_from]. rewrite Hc. rewrite words_from_span; [|by apply Forall_singleton|done].
    unfold w, rest, n. replace (Z.to_nat (1 + _)) with (S (Z.to_nat (span (not_sep blank) a))) by lia. done.
  - intros d rest' Hd. rewrite Hd. apply words_skip. unfold rest, n in Hd.
    replace (Z.to_nat (1 + _)) with (S (Z.to_nat (span (not_sep blank) a))) in Hd by lia. cbn [drop] in Hd.
    clear -Hd. revert Hd. induction a as [|x a IH]; [done|]. simpl. unfold not_sep at 1. destruct (blank x) eqn:Hx; simpl.
    + intros [= -> _]. done.
    + pose proof (span_bounds (not_sep blank) a). replace (Z.to_nat (1 + _)) with (S (Z.to_nat (span (not_sep blank) a))) by lia.
      apply IH.
Qed.

Lemma tokenize_stop k line i sp b : 0 ≤ i → drop (Z.to_nat i) line = 0 :: b → tokenize_from k line i sp = (line, sp).
Proof.
  intros Hi Hd. destruct k as [|k]; [done|]. cbn [tokenize_from]. unfold scan. rewrite Hd. cbn [span].
  change (blank 0) with false. cbv iota. rewrite Z.add_0_r.
  assert (zget line i = Some 0) as ->.
  { replace i with (i + 0) by lia. rewrite <- zget_drop, Hd by lia. done. }
  by rewrite orb_true_r.
Qed.

(** What is before [q + n + 1] when the rest of the line is done. *)
Lemma first_span (line line' : list Z) q n i w :
  0 ≤ i ≤ q → 0 ≤ n → q + n < zlen line → zlen w = n → nul_free w →
  take (Z.to_nat (q + n)) line = take (Z.to_nat q) line ++ w →
  take (Z.to_nat (q + n + 1)) line' = (take (Z.to_nat q) line ++ w) ++ [0] →
  slice q n line' = w ∧ c_str (drop (Z.to_nat q) line') = w ∧ take (Z.to_nat i) line' = take (Z.to_nat i) line.
Proof.
  intros Hi Hn Hlt Hw Hwn Htake Ht.
  assert (line' = (take (Z.to_nat q) line ++ w) ++ [0] ++ drop (Z.to_nat (q + n + 1)) line') as Hline.
  { rewrite app_assoc, <- Ht. by rewrite take_drop. }
  assert (drop (Z.to_nat q) line' = w ++ 0 :: drop (Z.to_nat (q + n + 1)) line') as Hdq.
  { rewrite Hline at 1. rewrite <- app_assoc. rewrite drop_app_ge; rewrite length_take; unfold zlen in *; [|lia].
    by replace (_ - _)%nat with 0%nat by lia. }
  destruct (word_at q line' w _ Hdq Hwn) as [E1 E2]. rewrite Hw in E1. split; [done|]. split; [done|].
  apply (f_equal (take (Z.to_nat i))) in Ht. rewrite take_take, Nat.min_l in Ht by lia. rewrite Ht, <- Htake.
  rewrite take_app_le by (rewrite length_take; unfold zlen in *; lia). by rewrite take_take, Nat.min_l by lia.
Qed.

Lemma tokenize_from_words k line i sp0 a b :
  0 ≤ i → drop (Z.to_nat i) line = a ++ 0 :: b → nul_free a →
  ∃ line' sp, tokenize_from k line i sp0 = (line', sp0 ++ sp) ∧ zlen line' = zlen line ∧
    take (Z.to_nat i) line' = take (Z.to_nat i) line ∧
    texts line' sp = take k (words blank a) ∧ pointed line' sp = take k (words blank a).
Proof.
  revert line i sp0 a. induction k as [|k IH]; intros line i sp0 a Hi Hd Ha.
  { exists line, []. by rewrite app_nil_r. }
  cbn [tokenize_from]. pose proof (span_bounds blank a) as Hs. set (q := i + span blank a).
  assert (scan blank line i = q) as -> by (unfold scan; by rewrite Hd, span_stop).
  assert (drop (Z.to_nat q) line = drop (Z.to_nat (span blank a)) a ++ 0 :: b) as Hq.
  { unfold q. rewrite Z2Nat.inj_add by lia. rewrite <- drop_drop, Hd. apply drop_app_le. unfold zlen in *. lia. }
  rewrite <- (drop_span_blank blank a). pose proof (span_stops blank a) as Hstop.
  assert (nul_free (drop (Z.to_nat (span blank a)) a)) as Ha' by (by apply Forall_drop).
  destruct (drop (Z.to_nat (span blank a)) a) as [|c a1]; clear Hd.
  { destruct (drop_zget line q 0 b ltac:(lia) Hq) as [-> _]. rewrite orb_true_r. exists line, []. by rewrite app_nil_r. }
  specialize (Hstop c a1 eq_refl). destruct (drop_zget line q c (a1 ++ 0 :: b) ltac:(lia) Hq) as [-> Hlt].
  rewrite Z.geb_leb, (proj2 (Z.leb_gt _ q)) by done. cbn [orb default from_option id].
  rewrite (proj2 (Z.eqb_neq c 0)) by (by apply Forall_inv in Ha'). cbv zeta.
  rewrite (scan_word line (c :: a1) b q) by (done || lia).
  destruct (first_word c a1 Hstop) as (-> & Hw & -> & Hskip). set (n := 1 + _) in *. set (w := take (Z.to_nat n) _) in *.
  assert (drop (Z.to_nat (q + n)) line = drop (Z.to_nat n) (c :: a1) ++ 0 :: b) as He.
  { pose proof (span_bounds (not_sep blank) a1). rewrite Z2Nat.inj_add by lia. rewrite <- drop_drop, Hq.
    apply drop_app_le. unfold w, zlen in *. rewrite length_take in Hw. cbn [length] in *. lia. }
  assert (take (Z.to_nat (q + n)) line = take (Z.to_nat q) line ++ w) as Htake.
  { pose proof (span_bounds (not_sep blank) a1). rewrite Z2Nat.inj_add by lia. rewrite <- take_take_drop, Hq. f_equal.
    apply take_app_le. unfold w, zlen in *. rewrite length_take in Hw. cbn [length] in *. lia. }
  assert (nul_free w) as Hwn by (by apply Forall_take).
  assert (nul_free (drop (Z.to_nat n) (c :: a1))) as Hrn by (by apply Forall_drop).
  pose proof (take_drop (Z.to_nat n) (c :: a1)) as Htd. fold w in Htd. pose proof (zlen_nonneg w).
  destruct (drop (Z.to_nat n) (c :: a1)) as [|d a3].
  - destruct (drop_zget line (q + n) 0 b ltac:(lia) He) as [-> _]. rewrite andb_false_r.
    rewrite (tokenize_stop k line (q + n) _ b) by (done || lia). exists line, [(q, q + n)]. rewrite app_nil_r in Htd.
    destruct (word_at q line w b) as [E1 E2]; [by rewrite Hq, Htd|done|].
    assert (take (S k) (w :: words blank []) = [w]) as -> by (by destruct k).
    unfold texts, pointed. cbn [fmap list_fmap]. by rewrite Z.add_simpl_l, <- Hw, E1, E2.
  - destruct (drop_zget line (q + n) d (a3 ++ 0 :: b) ltac:(lia) He) as [-> Hen].
    rewrite (proj2 (Z.ltb_lt _ _)) by done. cbn [default from_option id].
    rewrite (proj2 (Z.eqb_neq d 0)) by (by apply Forall_inv in Hrn). cbn [andb negb].
    destruct (IH (zset line (q + n) 0) (q + n + 1) (sp0 ++ [(q, q + n)]) a3) as (line' & sp & -> & Hz & Ht & Htx & Hpt);
      [lia| |by apply Forall_inv_tail in Hrn|].
    { rewrite (drop_zset_above line (q + n) 0) by lia. replace (Z.to_nat (q + n + 1)) with (Z.to_nat (q + n) + 1)%nat by lia.
      by rewrite <- drop_drop, He. }
    rewrite take_zset, Htake in Ht by lia. rewrite (Hskip d a3 eq_refl).
    destruct (first_span line line' q n i w) as (E1 & E2 & E3); [lia|lia|done|done|done|done|done|].
    exists line', ((q, q + n) :: sp).
    rewrite <- app_assoc. split; [done|]. split; [by rewrite Hz, zlen_zset|]. split; [done|].
    unfold texts, pointed in *. cbn [fmap list_fmap take]. rewrite Z.add_simpl_l, E1, E2. split; [by rewrite <- Htx|by rewrite <- Hpt].
Qed.

Lemma tokenize_words line l rest :
  line = l ++ 0 :: rest → nul_free l →
  ∃ line' sp, tokenize line = (line', sp) ∧ zlen line' = zlen line ∧
    texts line' sp = take 11 (words blank l) ∧ pointed line' sp = take 11 (words blank l).
Proof.
  intros -> Hl. destruct (tokenize_from_words 11 (l ++ 0 :: rest) 0 [] l rest) as (line' & sp & E & Hz & _ & Ht & Hp);
    [done|by rewrite drop_0|done|]. by exists line', sp.
Qed.

(** ** A turn of the shell *)
Lemma utf8_valid_join a b : utf8_valid a = true → utf8_valid b = true → utf8_valid (a ++ b) = true.
Proof.
  intros Ha Hb. remember (length a) as n eqn:Hn. assert (length a ≤ n)%nat as Hle by lia. clear Hn.
  revert a Ha Hle. induction n as [|n IH]; intros a Ha Hle; (destruct a as [|x a]; [done|]); [simpl in Hle; lia|].
  cbn [app utf8_valid] in *. cbn [length] in Hle.
  repeat match goal with
  | H : (if ?c then _ else _) = true |- _ => destruct c
  | H : _ && _ = true |- _ => apply andb_true_iff in H as [? ?]
  | H : (match ?l with [] => _ | _ => _ end) = true |- _ => destruct l as [|? ?]; [done|]
  end; cbn [app]; rewrite ?andb_true_iff; repeat split; try done; apply IH; try done; cbn [length] in *; lia.
Qed.
Lemma trim_nuls_back a k : nul_free a → trim_nuls (a ++ replicate k 0) = a.
Proof.
  intros Ha. induction Ha as [|c a Hc Ha IH]; simpl.
  - induction k as [|k IH]; simpl; [done|]. by rewrite IH.
  - rewrite IH. destruct a; [|done]. by rewrite (proj2 (Z.eqb_neq c 0)).
Qed.

Definition prompt_text (dir : list Z) : list Z := if zlen dir <? 96 then dir ++ str " # " else str "? # ".
(** The words of what was typed, up to the first NUL, at most eleven. *)
Definition command (ks : list Z) : list (list Z) := take 11 (words blank (c_str (typed_line ks))).

Section turn.
Context {U : Type} `{FileLaws U}.
Implicit Types u : U.

Lemma wp_prompt u : live u → wp prompt (λ _ u', typed [] (prompt_text (cwd u)) u u') u.
Proof.
  intros Hl. destruct (live_cwd_text u Hl) as [Hb Hv]. unfold prompt, getcwd, call_out. wp_step.
  wp_step. change (zlen (replicate 96 0)) with 96.
  wp_use (getcwd_law u (replicate 96 0)); [done|done|by apply Forall_replicate; lia|].
  intros r u1 (A1 & L1 & F1 & Hr). cbv zeta in Hr. change (zlen (replicate 96 0)) with 96 in Hr. rewrite zlen_app in Hr. change (zlen [0]) with 1 in Hr.
  unfold prompt_text. assert (typed [] [] u u1) as T1 by done. pose proof (zlen_nonneg (cwd u)).
  assert (∀ bs, bytes bs → zlen bs ≤ BUF_MAX → wp (print bs) (λ _ u', typed [] bs u u') u1) as Hprint.
  { intros bs Hbs Hlen. wp_use wp_print; [done|done|done|]. intros [] u2 W2.
    exact (typed_more [] [] [] bs _ _ _ T1 (typed_wrote _ _ _ W2)). }
  destruct (Z.ltb_spec 96 (zlen (cwd u) + 1)) as [Hlong|Hfit]; subst r; wp_step; apply wp_of_option; eexists; (split; [done|]); wp_step; cbn [fst snd].
  - rewrite (proj2 (Z.ltb_ge (zlen (cwd u)) 96)) by lia. change (-1 <? 0) with true. cbv iota.
    apply Hprint; [apply bytes_str|short].
  - rewrite (proj2 (Z.ltb_lt (zlen (cwd u)) 96)) by lia. rewrite (proj2 (Z.ltb_ge (zlen (cwd u) + 1) 0)) by lia.
    rewrite <- app_assoc. change ([0] ++ drop ?n (replicate 96 0)) with (0 :: drop n (replicate 96 0)).
    rewrite drop_replicate. change (0 :: replicate ?n 0) with (replicate (S n) 0).
    unfold utf8_or. rewrite utf8_valid_join; [|done|by apply utf8_ascii, Forall_replicate; lia]. rewrite trim_nuls_back by (by apply live_cwd).
    apply Hprint; [by apply bytes_app; [|apply bytes_str]|short].
Qed.

Lemma c_str_split (l rest : list Z) : ∃ r, l ++ 0 :: rest = c_str l ++ 0 :: r.
Proof.
  induction l as [|c l [r IH]]; [by exists rest|]. destruct (Z.eqb_spec c 0) as [->|Hc].
  - exists (l ++ 0 :: rest). done.
  - exists r. assert (c_str (c :: l) = c :: c_str l) as ->; [|by rewrite <- app_comm_cons, IH].
    unfold c_str. cbn [position]. rewrite (proj2 (Z.eqb_neq c 0)) by done. unfold slice. simpl. rewrite !drop_0, zlen_cons.
    destruct (position _ l) as [n|] eqn:Hp; cbn [default from_option id option_fmap option_map fmap].
    + assert (0 ≤ n) by (clear -Hp; revert n Hp; induction l as [|x l IH]; intros n; simpl; [done|];
        destruct (x =? 0); [by intros [= <-]|]; destruct (position _ l) as [m|]; [|done]; intros [= <-]; specialize (IH m eq_refl); lia).
      by replace (Z.to_nat (Z.succ n)) with (S (Z.to_nat n)) by lia.
    + unfold zlen. by replace (Z.to_nat (1 + Z.of_nat (length l))) with (S (Z.to_nat (Z.of_nat (length l)))) by lia.
Qed.

(** The buffer as [tokenize] finds it. *)
Lemma line_front buf n l : in_line buf n l → zget buf n = Some 0 → ∃ rest, buf = c_str l ++ 0 :: rest.
Proof.
  intros [-> Hr Ht] Hg. pose proof (zlen_nonneg l). pose proof (take_snoc buf (zlen l) 0 Hg) as E. rewrite Ht in E.
  assert (buf = l ++ 0 :: drop (Z.to_nat (zlen l + 1)) buf) as Hb.
  { change (0 :: ?r) with ([0] ++ r). rewrite app_assoc, <- E. by rewrite take_drop. }
  destruct (c_str_split l (drop (Z.to_nat (zlen l + 1)) buf)) as [r Hsplit]. exists r. by rewrite Hb.
Qed.

(** C12: a turn of the shell: it prints the prompt, echoes the keys of one line
    as they edit it, and runs the words of the line - built-in or program - with
    pointers to the same words ended by NULs; a line without a word runs nothing,
    and Ctrl-D on an empty line says goodbye and ends the shell with 0.  The
    editor's loop ends with the line. *)
Theorem sh_turn_runs_line u fuel line last ks c rest (Q : list Z * list Z + Z → U → Prop) :
  live u → zlen line = LINE_MAX → input u = ks ++ c :: rest → stays [] ks →
  c = 10 ∨ (c = 4 ∧ typed_line ks = []) → (length ks < fuel)%nat →
  (∀ u1, typed (ks ++ [c]) (prompt_text (cwd u) ++ echoed delete_key cap [] ks ++
      (if c =? 10 then [10] else text "bye")) u u1 →
    if c =? 10 then
      if bool_decide (command ks = []) then ∀ line', zlen line' = LINE_MAX → Q (inl (line', last)) u1
      else wp (run_command (command ks) ((Some <$> command ks) ++ [None]) last) (λ r u2,
        match r with
        | inl last' => ∀ line', zlen line' = LINE_MAX → Q (inl (line', last')) u2
        | inr code => Q (inr code) u2
        end) u1
    else Q (inr 0) u1) →
  wp (sh_turn fuel (line, last)) Q u.
Proof.
  intros Hl Hz Hi Hst Hend Hfuel HQ. unfold sh_turn. wp_step. wp_use wp_prompt; [done|]. intros [] u1 T1.
  wp_step. wp_use (wp_readline_from fuel u1 line 0 [] ks c rest);
    [by destruct T1|exact (typed_input [] _ _ _ _ T1 Hi)|apply in_line_nil|done|done|done|done|done|].
  intros r u2. destruct (Z.eqb_spec c 10) as [->|Hc].
  - intros (buf & n & -> & Hin & Hbz & Hg & T2). fold (typed_line ks) in Hin.
    pose proof (typed_more _ _ _ _ _ _ _ T1 T2) as T. specialize (HQ u2 T).
    destruct (line_front buf n _ Hin Hg) as [r Hbuf]. pose proof (c_str_nul_free (typed_line ks)) as Hnul.
    destruct (tokenize_words buf (c_str (typed_line ks)) r Hbuf Hnul) as (line' & sp & Ht & Hlz & Htx & Hpt).
    fold (command ks) in Htx, Hpt. destruct (Z.eqb_spec n 0) as [->|Hn].
    + destruct Hin as [En _ _]. symmetry in En. apply zlen_nil_inv in En. unfold command in HQ. rewrite En in HQ.
      wp_run. by apply HQ.
    + rewrite Ht. destruct (Z.eqb_spec (zlen sp) 0) as [Es|Es].
      * apply zlen_nil_inv in Es. subst sp. cbn in Htx. rewrite <- Htx in HQ. wp_run. apply HQ. by rewrite Hlz.
      * rewrite bool_decide_false in HQ by (intros E; rewrite E in Htx; destruct sp; [by apply Es|done]).
        assert (((λ '(s, _), Some (c_str (drop (Z.to_nat s) line'))) <$> sp) = Some <$> command ks) as Hptr.
        { rewrite <- Hpt. unfold pointed. rewrite <- list_fmap_compose. apply list_fmap_ext. by intros i [a b] _. }
        cbv zeta. change ((λ '(s, e), slice s (e - s) line') <$> sp) with (texts line' sp). rewrite Htx, Hptr.
        wp_step. wp_use HQ. intros [last'|code] u3 HQ3; wp_run; [apply HQ3; by rewrite Hlz|exact HQ3].
  - intros [-> T2]. destruct Hend as [?|[-> Hnil]]; [done|]. wp_step. unfold puts. wp_step.
    pose proof (typed_more _ _ _ _ _ _ _ T1 T2) as T3.
    wp_use wp_write_1; [by destruct T3|done|apply bytes_str|]. intros _ u3 W3. wp_step.
    wp_use wp_write_1; [by destruct W3|done|by apply bytes_one|]. intros _ u4 W4. wp_run. apply HQ.
    pose proof (typed_more _ _ _ _ _ _ _ T3 (typed_more _ _ _ _ _ _ _ W3 W4)) as T4.
    rewrite app_nil_r in T4. by rewrite <- app_assoc in T4.
Qed.
End turn.
End ShSpec.
