(* ===== verification/UserDemo.v ===== *)
(** * User programs on a small machine

    A process on the boot allocator, with its four stack pages mapped and the
    file system of [Tmpfs]'s example: the theorems about the programs applied
    to it. *)
From S2P Require Import Prelude Lines PageAlloc Pmm Mem Vmm UserMem Tmpfs Sched Ring Vterm Kbd.
From S2P Require Import Kernel Proc Spawn ShellSpec Syscall SyscallSpec Ulib UserApi UserSys FileApi Sh Progs UserSpec CpSpec ShSpec.

Module UserDemo.
Import UserApi Lines Sched Kernel Syscall SyscallSpec ShellSpec UserSys FileApi Progs UserSpec CpSpec.

(** The stack of the process in the tree of [demo_vmm]. *)
Fixpoint with_pages (n : nat) (va : Z) (v : Vmm.vmm Pmm.pmm) : option (Vmm.vmm Pmm.pmm) :=
  match n with
  | O => Some v
  | S n => match UserMem.fresh_page 32768 va Spawn.stack_flags v with
           | Done (true, v') => with_pages n (va + PAGE_SIZE) v'
           | _ => None
           end
  end.
Definition stack_pages : option (Vmm.vmm Pmm.pmm) := with_pages 4 Spawn.STACK_BOTTOM Vmm.demo_vmm.
Definition stacked : Vmm.vmm Pmm.pmm := default Vmm.demo_vmm stack_pages.
(** Directory "/", descriptor 3 open on node 2. *)
Definition process : thread :=
  set_fd 3 (mkUfd 2 1) (set_cwd [47]
    (mkThread 0 (c_array NAME_LEN [97]) Runnable zero_frame 32768 0 0 true
       (Sched.fds zeroed) (Sched.cwd zeroed) 0 0 (-1))).
(** The keys [l] wait in terminal 0. *)
Definition typed (l : list Z) : Vterm.vterms :=
  Vterm.set_terms (zset (Vterm.terms Vterm.demo_terms) 0
    (Vterm.with_inq (foldl (λ q c, Ring.push Vterm.VT_INQ c q) (Vterm.inq Vterm.empty) l)
       (Vterm.with_used true Vterm.empty))) Vterm.demo_terms.
Definition machine (l : list Z) : kern Pmm.pmm :=
  put_caller process
    (mkKern (booted 0 stacked) Tmpfs.demo_fs (Kbd.set_vts (typed l) Kbd.demo_kbd) []).

Lemma with_pages_zero n lo va v0 v v' :
  UserMem.zero_pages 32768 lo va Spawn.stack_flags v0 v → lo ≤ va → va mod PAGE_SIZE = 0 →
  0 ≤ va → va + PAGE_SIZE * Z.of_nat n < 2 ^ 47 → with_pages n va v = Some v' →
  UserMem.zero_pages 32768 lo (va + PAGE_SIZE * Z.of_nat n) Spawn.stack_flags v0 v'.
Proof.
  revert va v. induction n as [|n IH]; intros va v Hz Hlo Hal Hva Hend; cbn [with_pages].
  { intros [= <-]. by rewrite Z.mul_0_r, Z.add_0_r. }
  pose proof (UserMem.wp_fresh_page 32768 va Spawn.stack_flags v (UserMem.zp_ok _ _ _ _ _ _ Hz)) as W.
  unfold wp in W. destruct (UserMem.fresh_page 32768 va Spawn.stack_flags v) as [[[] v1]| |]; [|done..].
  assert (UserMem.low_half va) as Hlow by (unfold UserMem.low_half, PAGE_SIZE in *; lia).
  specialize (W Hlow ltac:(done) eq_refl). intros Hn.
  replace (va + PAGE_SIZE * Z.of_nat (S n)) with (va + PAGE_SIZE + PAGE_SIZE * Z.of_nat n) by lia.
  eapply IH; [|unfold PAGE_SIZE in *; lia| |unfold PAGE_SIZE in *; lia|unfold PAGE_SIZE in *; lia|exact Hn].
  - by eapply UserMem.zero_pages_more.
  - rewrite <- Zplus_mod_idemp_r, Z.mod_same, Z.add_0_r by done. done.
Qed.

Lemma stacked_pages :
  UserMem.zero_pages 32768 Spawn.STACK_BOTTOM (Spawn.STACK_BOTTOM + 4 * PAGE_SIZE) Spawn.stack_flags Vmm.demo_vmm stacked.
Proof.
  assert (match stack_pages with Some _ => true | None => false end = true) as Hm by (vm_compute; reflexivity).
  unfold stacked. destruct stack_pages as [v|] eqn:Hv; [|done]. clear Hm.
  apply (with_pages_zero 4 _ Spawn.STACK_BOTTOM _ Vmm.demo_vmm v); [|done|done|done|done|exact Hv].
  apply UserMem.zero_pages_none, UserMem.demo_data_ok.
Qed.

Lemma demo_pool : mem_ok (Tmpfs.pool Tmpfs.demo_fs).
Proof.
  assert (Tmpfs.pool Tmpfs.demo_fs = store_bytes (λ _, 0) 0 [1; 2; 3]) as -> by reflexivity.
  apply mem_ok_store_bytes; [done|by repeat constructor].
Qed.
Lemma machine_caller l : caller (machine l) process.
Proof. done. Qed.
Lemma machine_space l : active_space (machine l) = 32768.
Proof. vm_compute. reflexivity. Qed.
Lemma machine_memory l : memory_ok (machine l).
Proof. unfold memory_ok. rewrite machine_space. exact (UserMem.zp_ok _ _ _ _ _ _ stacked_pages). Qed.
Lemma machine_stack l : writable (machine l) (slot 0) (3 * PAGE_SIZE).
Proof.
  intros x Hx. assert (UserMem.low_half x) as Hlow.
  { unfold UserMem.low_half, slot, Spawn.STACK_BOTTOM, Proc.USER_STACK_TOP, Proc.USER_STACK_PAGES, PAGE_SIZE in *. lia. }
  split; [done|]. unfold user_entry. rewrite machine_space.
  destruct (UserMem.zp_entry _ _ _ _ _ _ stacked_pages x Hlow) as (e & He & Hbits).
  { unfold slot, PAGE_SIZE in *. lia. }
  exists e. split; [exact He|]. change Vmm.PTE_RW with (Z.shiftl 1 1). rewrite Vmm.has_bit by done.
  by rewrite Hbits by lia.
Qed.

(** *** The keys *)
Definition keys_ring (l : list Z) : Ring.ring := foldl (λ q c, Ring.push Vterm.VT_INQ c q) (Vterm.inq Vterm.empty) l.
Lemma keys_ring_ok l : zlen l < Vterm.VT_INQ →
  Ring.ring_ok Vterm.VT_INQ (keys_ring l) ∧ Ring.contents Vterm.VT_INQ (keys_ring l) = l.
Proof.
  induction l as [|c l IH] using rev_ind; [by split|]. rewrite zlen_app. change (zlen [c]) with 1. intros Hl.
  destruct IH as [Hok Hc]; [lia|]. unfold keys_ring in *. rewrite foldl_snoc. split; [by apply Ring.push_ok|].
  rewrite Ring.contents_push, Hc by done.
  pose proof (Ring.zlen_contents Vterm.VT_INQ ltac:(done) (foldl (λ q c, Ring.push Vterm.VT_INQ c q) (Vterm.inq Vterm.empty) l)) as Hq.
  rewrite Hc in Hq. by rewrite (proj2 (Z.eqb_neq _ _)) by lia.
Qed.

Lemma machine_keys l : zlen l < Vterm.VT_INQ → keys (machine l) = l.
Proof. intros Hl. by destruct (keys_ring_ok l Hl). Qed.

Lemma machine_running l :
  Forall (λ b, 0 ≤ b < 2 ^ 8) l → zlen l < Vterm.VT_INQ → running (machine l) process.
Proof.
  intros Hb Hl. split.
  - done.
  - done.
  - done.
  - apply (bool_decide_unpack _). by vm_compute.
  - apply Tmpfs.demo_ok.
  - apply demo_pool.
  - apply machine_memory.
  - apply machine_stack.
  - split; [by split| |by rewrite machine_keys].
    intros _. eexists _, Vterm.fresh_paper. split; [by split|]. split; [by destruct Vterm.fresh_shown|].
    by apply keys_ring_ok.
Qed.
Lemma machine_live l : Forall (λ b, 0 ≤ b < 2 ^ 8) l → zlen l < Vterm.VT_INQ → live (machine l).
Proof. intros Hb Hl. exists process. by apply machine_running. Qed.

Ltac arg_ok_str := split; [by repeat constructor|done|apply bytes_str|by vm_compute].
Lemma machine_none : live (machine []).
Proof. by apply machine_live. Qed.

(** "hi there" and a line end, on the serial line. *)
Lemma echo_prints_witness :
  wp (echo_main [str "echo"; str "hi"; str "there"])
    (λ rc s', rc = 0 ∧ com1 s' = str "hi there" ++ [13; 10]) (machine []).
Proof.
  eapply wp_mono; [apply (echo_prints (machine []) (str "echo") [str "hi"; str "there"])|].
  - apply machine_none.
  - repeat (apply Forall_cons; split; [arg_ok_str|]). constructor.
  - by apply (bool_decide_unpack _).
  - intros rc s' (-> & D & _). split; [done|]. exact (di_com1 _ _ _ _ D).
Defined.

(** The three bytes of "/d/f" and a complaint. *)
Lemma cat_copies_files_witness :
  wp (cat_main 257 [str "cat"; str "d/f"; str "x"])
    (λ rc s', rc = 1 ∧ com1 s' = [1; 2; 3] ++ str "cat: x: cannot open" ++ [13; 10]) (machine []).
Proof.
  eapply wp_mono; [apply (cat_copies_files (machine []) (str "cat") [str "d/f"; str "x"] 4 257)|].
  - apply machine_none.
  - repeat (apply Forall_cons; split; [arg_ok_str|]). constructor.
  - by apply (bool_decide_unpack _).
  - done.
  - by vm_compute.
  - lia.
  - intros rc s' (-> & (D & _) & _). split; [by vm_compute|]. rewrite (di_com1 _ _ _ _ D). by vm_compute.
Defined.

Lemma hexdump_dumps_witness :
  wp (hexdump_main (Z.to_nat 65537) [str "hexdump"; str "/d/f"])
    (λ rc s', rc = 0 ∧ com1 s' = str "00000000  01 02 03                                          |...|" ++ [13; 10])
    (machine []).
Proof.
  eapply wp_mono; [apply (hexdump_dumps (machine []) (str "hexdump") [str "/d/f"] (str "/d/f") 4)|].
  - apply machine_none.
  - repeat (apply Forall_cons; split; [arg_ok_str|]). constructor.
  - by apply (bool_decide_unpack _).
  - done.
  - by vm_compute.
  - lia.
  - intros rc s' (-> & (D & _)). split; [by vm_compute|]. rewrite (di_com1 _ _ _ _ D). by vm_compute.
Defined.

(** "/d/f" to "/g", which is created as node 3. *)
Lemma cp_copies_witness :
  wp (cp_main 2049 [str "cp"; str "d/f"; str "/g"])
    (λ rc s', rc = 0 ∧ Tmpfs.file_data (fs s') 3 = Some [1; 2; 3]) (machine []).
Proof.
  pose (x := (target (machine []) (str "/g")).2).
  eapply wp_mono; [apply (cp_copies (machine []) (str "cp") (str "d/f") (str "/g") 4 5 [1; 2; 3] 3 x [] 2049)|].
  - apply machine_none.
  - arg_ok_str.
  - arg_ok_str.
  - done.
  - done.
  - by split; vm_compute.
  - by vm_compute.
  - by vm_compute.
  - by vm_compute.
  - by vm_compute.
  - by vm_compute.
  - lia.
  - intros rc s' (-> & _ & (t & R) & _ & Hd & _). split; [done|].
    destruct (files_of s' t R) as (E & _). rewrite E in Hd. exact Hd.
Defined.

(** "exjt", corrected, and " 7". *)
Lemma sh_turn_runs_line_witness :
  wp (Sh.sh_turn 11 (replicate 200 0, replicate 96 0))
    (λ r s', r = inr 7 ∧ 
      com1 s' = str "/ # exjt" ++ [8; 32; 8; 8; 32; 8] ++ str "it 7" ++ [13; 10])
    (machine (str "exjt" ++ [8; 8] ++ str "it 7" ++ [10])).
Proof.
  set (ks := str "exjt" ++ [8; 8] ++ str "it 7"). change (str "exjt" ++ _) with (ks ++ [10]).
  apply (ShSpec.sh_turn_runs_line (machine (ks ++ [10])) 11 (replicate 200 0) (replicate 96 0) ks 10 []).
  - apply machine_live; [apply (bool_decide_unpack _); by vm_compute|done].
  - done.
  - by apply machine_keys.
  - by repeat (split; [done|]).
  - by left.
  - unfold ks. simpl. lia.
  - intros u1 T. rewrite Z.eqb_refl, bool_decide_false by done.
    assert (ShSpec.command ks = [str "exit"; str "7"]) as -> by (by vm_compute).
    assert (∀ ptrs last, Sh.run_command [str "exit"; str "7"] ptrs last u1 = Done (inr 7, u1)) as E by done.
    unfold wp. rewrite E. split; [done|]. destruct T as [D _ _]. rewrite (di_com1 _ _ _ _ D). by vm_compute.
Defined.

(** Descriptor 3 stands after the first byte of "/d/f". *)
Lemma file_calls_refine_witness :
  wp (issue_all
        [CWrite 3 [9; 9]; CClose 3; COpen (str "d/f") 0; CRead 3 [0; 0; 0; 0; 0]; CRead 3 [7];
         COpen (str "/no") 0; CMkdir (str "d"); CMkdir (str "d/e"); CRename (str "d/f") (str "/d/e/f");
         CUnlink (str "d/f"); CUnlink (str "d/e/f"); CRead 3 [7]; CClose 9; CRead 4 [7]])
    (λ rs _, rs = [(2, []); (0, []); (3, []); (3, [1; 9; 9; 0; 0]); (0, [7]);
         (-1, []); (-1, []); (0, []); (0, []); (-1, []); (0, []); (-1, [7]); (-1, []); (-1, [7])]) (machine []).
Proof.
  eapply wp_mono; [apply file_calls_refine|].
  - apply machine_none.
  - unfold positions_ok. apply (bool_decide_unpack _). by vm_compute.
  - apply (bool_decide_unpack _). by vm_compute.
  - intros rs s' (E & _). change rs with (rs, view s').1. rewrite E. by vm_compute.
Defined.
End UserDemo.
